(* ===== verification/_CoqProject ===== *)
-Q . S2P
Prelude.v
Memory.v
CMemory.v
Security.v
Pmm.v
Paging.v
Spaces.v
Heap.v
Blocks.v
Serial.v
Ext2.v
Ext2Disk.v
Ext2Files.v
Ext2Tree.v
BTree.v
Vfs.v
Vga.v
Keyboard.v
Tasks.v
Process.v
Syscalls.v
Elf.v
ElfLink.v
ElfTest.v
Root.v
ShellText.v
ShellTables.v
ShellFiles.v
ShellCommands.v
ShellExec.v
ShellRun.v
Nic.v
Rings.v
Rtl8139.v
E1000.v
Pcnet.v
PciNet.v
Network.v
NetProps.v
NetDriver.v
NetApi.v
