(* ===== verification/Prelude.v ===== *)
(** * ShadeOS: a verification development

    ShadeOS is an x86-64 kernel whose services are written in Rust
    (src/kernel-rs/src) on top of memory management, a block device, ext2, access
    control, boot and interrupt code in C and assembly (src/kernel, src/boot).  The
    Rust part and the larger data structures of the C part are modelled here as a
    shallow embedding: one definition per function, executable, over the state the
    function works on.

    *** The parts and how they interact

    The page allocator keeps a bitmap of physical pages, set up from the memory map
    of the boot loader; the page tables take their pages from it.  The heap hands
    out the memory of one static array, to the kernel's code and, through the global
    allocator, to Rust's collections.  The file system is a tree of entries; its
    calls take addresses of C strings.  The process table holds control blocks and
    answers access checks.  The system call handler reads and writes user memory,
    asks the process table whether it may, and calls the file system.  The ELF
    loader reads a file through the file system, places its segments in heap blocks
    and applies relocations.  The scheduler picks a task from the ring of tasks.
    The shell reads keys, splits lines into heap buffers, and runs commands, many
    of which call the file system.  Three drivers keep rings and buffers in heap
    blocks that they share with their network cards; an adapter offers the active
    one to the smoltcp library, and the network stack on top of it keeps a table of
    sockets for the rest of the kernel.  The ext2 front passes file operations to
    the ext2 code in C while a device is mounted; that code works on the sectors of
    a RAM disk.  Users, credentials and access control lists are tables of their own.

    *** The files

    - [Prelude]: outcomes, the two monads, machine integers, lists and arrays,
      decimal digits, the tactics and hint databases.
    - [Memory]: byte memory, C strings, memory.rs.
    - [CMemory]: the checked memory and string routines of memory.c, [snprintf] and
      [sscanf].
    - [Security]: security.c, acl.c and admin.c.
    - [Pmm]: pmm.c, with the memory map of the boot loader as bytes.
    - [Paging], [Spaces]: paging.c and vm.rs: the code with the shape of the tables,
      and address spaces as maps from pages to entries.
    - [Heap]: heap.rs.  Block headers are a map from addresses to records.
    - [Blocks]: heap blocks as their users see them, over any state with a heap and a
      memory (the interface [HeapState]), which blocks belong to whom ([owned]), and
      vectors of pointers that keep their elements in a block.
    - [Serial]: serial.rs and the number printer of heap.rs.
    - [Ext2]: ext2.rs, and the layout of [struct stat] in ext2.c.
    - [Ext2Disk], [Ext2Files], [Ext2Tree]: blockdev.c and ext2.c: the code over the
      bytes of the disk, the contents of files, and directories with paths.
    - [BTree]: the library's [BTreeMap] as a sorted association list, with the
      interface [KeyOrder].
    - [Vfs]: vfs.rs, and the interface [FileSystem].
    - [Vga]: vga.rs.
    - [Keyboard]: keyboard.rs.
    - [Tasks]: the task functions of lib.rs.template, and scheduler.rs.
    - [Process]: the process manager of process.rs, and the interface
      [ProcessTable].
    - [Syscalls]: syscalls.rs, proved against [FileSystem] and [ProcessTable].
    - [Elf]: elf.rs; [ElfLink]: its dynamic section and relocations as tables;
      [ElfTest]: its number printers and self-test.
    - [Root]: the global allocator, the panic handler and the entry point of
      lib.rs.template.
    - [ShellText], [ShellTables], [ShellFiles], [ShellCommands], [ShellExec],
      [ShellRun]: bash.rs, as byte-array utilities, tables, commands on files, the
      other commands, [execute_command], and the loop of the shell with its entry
      points.
    - [Nic]: what the drivers share: the interface [Card] of a network card, register
      accesses and their log, code that only talks to the card.
    - [Rings]: the memory of descriptor rings, and a receive ring as a queue.
    - [Rtl8139], [E1000], [Pcnet]: rtl8139.rs, e1000.rs, pcnet.rs.
    - [PciNet]: the tables of pci_net.rs.
    - [Network]: network.rs, over the interface [Smoltcp], and [pci_net_init_device].
    - [NetProps]: the laws of smoltcp ([SmoltcpLaws]), what the stack asks of a driver
      ([DriverSpec]), and the stack proved against both.
    - [NetDriver]: the adapter on top of the RTL8139 (an instance of [DriverSpec]) and
      of the E1000.
    - [NetApi]: the theorems on the calls of network.rs, and instances of the
      interfaces.

    *** How code is represented

    Machine integers are [Z] with the wrap-around written out, as in the release
    profile.  A routine returns an [outcome]: [Ret], [Panic] (index out of range,
    [panic!]), [Fault] (access to unmapped memory, undefined behaviour) or [Timeout]
    (fuel used up).  Statics and structures are records passed along, by hand or in
    the state monad [M].  A pointer is an address, an index or a path, whichever the
    code uses it for.

    *** What the theorems show

    - Pages and address spaces: pages handed out are distinct, available and above
      the kernel; the four-level tables implement a map from pages to entries on
      which the hardware's walk agrees; after start-up the first 16 MiB are mapped to
      themselves; a new address space does not contain the kernel.
    - Heap: the pointer code implements first-fit allocation on a list of segments
      that tile the array; allocations are aligned, disjoint and inside the array
      in every run of a well-behaved client, and freed memory is merged back; the
      global allocator keeps Rust's contract for alignments up to 16.
    - C library: [memcpy] moves overlapping ranges, [snprintf] stays in its buffer
      and prints what its format says, addresses are parsed back.
    - File system: the tree implements a flat map from paths to files; contents
      are read back as written; listings and [stat] have the stated form.
    - Processes and system calls: pids are unique, user accesses are confined to
      the regions of the process, file calls implement the flat file system, fork,
      exit and kill have their effect, inaccessible buffers give EFAULT.
    - Users: an unprivileged task cannot change users, identities or capabilities;
      access control lists are a map that the checks follow; accounts come and go
      without touching others.
    - Tasks: the [next] fields form a ring and the tick picks the first ready task
      of best priority, for runs that create no task after one has ended; without
      that condition the scheduler can loop ([task_slot_reuse_hangs]).
    - ELF: each check on the bytes of a file has its code, segments are placed with
      their bytes and zeros, a segment outside the file is refused; the dynamic
      section means what its entries say and relocations write the words they stand
      for; the loops over tables end, symbols resolve to what was entered.
    - Console, keyboard, serial port: no write leaves the screen, characters come
      out in order, numbers are printed in decimal.
    - Shell: lines and arguments round-trip, the tables behave as a map and a
      bounded list, file commands implement the flat file system, running a
      command ends and frees its buffers, and so do sessions.
    - Drivers: a device is made with exactly its blocks or not at all, at whichever
      allocation of its own it fails (the growth of a vector panics instead); frames
      leave the rings of E1000 and PCnet in the order they came, packets the buffer
      of the RTL8139 likewise; sending changes the current buffer and descriptor
      only.
    - Network: sequences of socket calls return and implement a table of sockets; a
      machine with a RTL8139 starts its stack whether or not DHCP answers; frames of
      the E1000 reach the stack; a configuration that smoltcp accepts is the one
      reported; masks compare networks, local ports are dynamic ports.
    - ext2: the front hands file operations to the C code exactly while a device is
      mounted and returns what it returns; [ext2_stat] returns on every path without
      losing its block.  In the C code, reading by path follows the directories and
      returns the contents of the file, what is written is read back, and no call
      leaves a buffer allocated.

    Some theorems state defects of the code, among them
    [rust_kmalloc_huge_wraps], [kernel_allocator_misaligns],
    [serial_write_hex_truncates], [create_below_regular_file],
    [uname_writes_unchecked], [huge_syscall_number_panics],
    [oversized_segment_overruns], [mv_onto_itself_deletes], [empty_alias_panics],
    [rtl8139_passes_ring_end], [rtl8139_reads_past_buffer],
    [pcnet_drops_whole_packets], [pcnet_reads_past_buffer], [ext2_stat_misreads],
    [new_space_lacks_kernel] and [ext2_mount_outcome].

    *** Bounds and fuel

    Loops over mapped memory (C strings, dynamic section, relocations, symbols)
    have fuel above the number of mapped bytes: each turn reads a further mapped
    address, so they end in a result or a fault.  The walk over the heap list has
    more fuel than there are headers.  The tick has fuel for one round of the
    ring.  Argument splitting consumes a character per turn.  The wait for the
    serial transmitter has a fuel argument, with the hypothesis [responsive] that
    the device gets ready within it.  Alias nesting has a fuel argument; 1821 is
    enough because each level holds 2304 bytes of the 4 MiB heap.  The loop of the
    shell takes a key in every turn, and the keys bound its turns.

    Waiting for the reset of the RTL8139 has fuel, with the hypothesis [answers] that
    the card ends its reset within it; so has waiting for a send descriptor, which
    the theorems on sending assume free.  The reset of the E1000 and its EEPROM are
    polled 1000 times by the code itself.  The loops of network.rs that wait for time
    to pass have fuel; it is enough when the clock is [steady]: it never goes back
    and ticks at least once in [k] readings, so that a wait of [n] ticks takes at most
    [n * k] turns (1001 ticks for DHCP and for sending, 301 for connecting, the given
    time for a ping).  One poll of smoltcp takes in at most [burst] frames, and a card
    with a [Supply] has no more to come.  The RTL8139 driver may read 1514 bytes past
    its buffer of 9708; the theorems on it ask for 11222 mapped bytes.

    The loops of pmm.c over tags and entries, and those of ext2.c over directories,
    have fuel from the size of what they walk over; a tag or an entry of size 0, with
    which the code loops for ever, is a [Timeout], and the theorems ask for
    well-formed tables.

    *** What is not modelled

    Diagnostics on the serial port, except where the text is the result.  The heap
    blocks of Rust collections, except for the vectors of buffers of the E1000 and
    PCnet devices and the frame buffer of the adapter: strings, maps and the vector
    in which [receive] hands out a packet take no memory from the heap here, so that
    where a theorem says that a call leaves the heap as it was, this is up to such
    temporary blocks, and their exhaustion, which would be a panic, does not occur.
    Interrupts arriving during a routine, and hence races between the interrupt
    handlers and the code they interrupt.  The smoltcp library, which is third-party
    code and a parameter; the module shell.rs, which the crate root does not include.
    In C: boot, descriptor tables, interrupts, timer, clock and PCI access, the FAT
    reader, the tables of devices, services and packages, and the layers that forward
    to modelled functions.  What the modelled code asks of the rest (timer, clock,
    memory statistics, the device registers, in [Ext2] the ext2 functions in C, in
    [Elf] the new page table, in [Ext2Disk] the success of allocations) is an
    argument; the shell's commands see the socket calls as arguments. *)

From stdpp Require Export base gmap strings list numbers fin_maps sorting.
From Stdlib Require Export ZArith Lia.

#[export] Set Default Goal Selector "!".

Local Open Scope Z_scope.

(** ** Outcomes of kernel code

    A run of a kernel routine returns, stops in the Rust panic handler (an
    index out of range, [expect] on [None], [panic!]), touches memory that is
    not mapped, or is still running when the fuel of the model is used up. *)
Inductive outcome (A : Type) : Type :=
| Ret (a : A)
| Panic
| Fault
| Timeout.
Arguments Ret {A} a.
Arguments Panic {A}.
Arguments Fault {A}.
Arguments Timeout {A}.

Definition outcome_bind {A B} (f : A -> outcome B) (c : outcome A) : outcome B :=
  match c with
  | Ret a => f a
  | Panic => Panic
  | Fault => Fault
  | Timeout => Timeout
  end.

#[export] Instance outcome_ret_inst : MRet outcome := fun A a => Ret a.
#[export] Instance outcome_bind_inst : MBind outcome := fun A B f c => outcome_bind f c.

(** A pointer read that must succeed, and an array index that must be in range. *)
Definition deref {A} (o : option A) : outcome A :=
  match o with Some a => Ret a | None => Fault end.

Definition checked {A} (o : option A) : outcome A :=
  match o with Some a => Ret a | None => Panic end.

(** ** State passing *)
Definition M (S A : Type) : Type := S -> outcome (A * S).

#[export] Instance M_ret_inst S : MRet (M S) := fun A a s => Ret (a, s).
#[export] Instance M_bind_inst S : MBind (M S) :=
  fun A B f c s => outcome_bind (fun '(a, s') => f a s') (c s).

Definition get {S} : M S S := fun s => Ret (s, s).
Definition modify {S} (f : S -> S) : M S unit := fun s => Ret (tt, f s).
Definition lift {S A} (c : outcome A) : M S A := fun s => outcome_bind (fun a => Ret (a, s)) c.

(** ** Machine integers *)
Definition wrap (w z : Z) : Z := z mod 2 ^ w.
Definition swrap (w z : Z) : Z := (z + 2 ^ (w - 1)) mod 2 ^ w - 2 ^ (w - 1).

Abbreviation u8 := (wrap 8).
Abbreviation u16 := (wrap 16).
Abbreviation u32 := (wrap 32).
Abbreviation u64 := (wrap 64).
Abbreviation usize := (wrap 64).
Abbreviation i16 := (swrap 16).
Abbreviation i32 := (swrap 32).
Abbreviation i64 := (swrap 64).

Definition is_u8 (z : Z) : Prop := 0 <= z < 256.

Declare Scope word_scope.
Delimit Scope word_scope with W.
Notation "x .& y" := (Z.land x y) (at level 40, left associativity) : word_scope.
Notation "x .| y" := (Z.lor x y) (at level 50, left associativity) : word_scope.
Notation "x <<. n" := (Z.shiftl x n) (at level 38, left associativity) : word_scope.
Notation "x >>. n" := (Z.shiftr x n) (at level 38, left associativity) : word_scope.

(** ** Byte strings *)
Fixpoint bytes (s : string) : list Z :=
  match s with
  | EmptyString => []
  | String c s' => Z.of_nat (Ascii.nat_of_ascii c) :: bytes s'
  end.

(** A message ended by a newline, as the [b"...\n"] literals of the source. *)
Definition line (s : string) : list Z := bytes s ++ [10].

(** Bytes of a C string: everything before the first NUL. *)
Fixpoint until_nul (l : list Z) : list Z :=
  match l with
  | [] => []
  | c :: l' => if c =? 0 then [] else c :: until_nul l'
  end.

(** [str::split(c)]: the pieces between the separators, empty ones included. *)
Fixpoint split_char (c : Z) (s : list Z) : list (list Z) :=
  match s with
  | [] => [[]]
  | x :: s' =>
      if x =? c then [] :: split_char c s'
      else match split_char c s' with
           | w :: ws => (x :: w) :: ws
           | [] => [[x]]
           end
  end.

(** [str::as_bytes] of a string whose characters are below 256: UTF-8. *)
Definition utf8 (s : list Z) : list Z :=
  s ≫= fun c => if c <? 128 then [c] else [0xC0 + c / 64; 0x80 + c mod 64].

(** ** Fixed arrays: an index out of range panics *)
Definition arr_get {A} (l : list A) (i : nat) : outcome A := checked (l !! i).

Definition arr_set {A} (l : list A) (i : nat) (x : A) : outcome (list A) :=
  if decide (i < length l)%nat then Ret (<[i := x]> l) else Panic.

(** [buf[i..i + s.len()].copy_from_slice(s)]. *)
Definition arr_copy {A} (l : list A) (i : nat) (s : list A) : outcome (list A) :=
  if decide (i + length s <= length l)%nat
  then Ret (take i l ++ s ++ drop (i + length s) l) else Panic.

(** ** Decimal digits

    [while n > 0 { digits[d] = b'0' + (n % 10); n /= 10; d += 1 }] with room
    for [room] digits, least significant first. *)
Fixpoint digit_loop (room : nat) (n : Z) : outcome (list Z) :=
  if n <=? 0 then Ret []
  else match room with
       | O => Panic
       | S r => ds ← digit_loop r (n / 10); Ret (48 + n mod 10 :: ds)
       end.

(** The digits of a number in an array of [room] bytes, most significant
    first, as read back by [for j in (0..d).rev()]. *)
Definition dec_digits (room : nat) (n : Z) : outcome (list Z) :=
  if n =? 0
  then match room with O => Panic | S _ => Ret [48] end
  else ds ← digit_loop room n; Ret (rev ds).

(** Messages built in a fixed array [msg] of [cap] bytes by [msg[i] = c; i += 1]:
    the bytes written so far.  A write outside the array panics; a write guarded
    by [if i < msg.len() - 3] is skipped. *)
Definition push (cap : nat) (c : Z) (msg : list Z) : outcome (list Z) :=
  if decide (length msg < cap)%nat then Ret (msg ++ [c]) else Panic.

Definition push_guarded (cap : nat) (c : Z) (msg : list Z) : list Z :=
  if decide (length msg < cap - 3)%nat then msg ++ [c] else msg.

Fixpoint push_all (cap : nat) (cs msg : list Z) : outcome (list Z) :=
  match cs with [] => Ret msg | c :: cs' => msg' ← push cap c msg; push_all cap cs' msg' end.

Fixpoint push_all_guarded (cap : nat) (cs msg : list Z) : list Z :=
  match cs with [] => msg | c :: cs' => push_all_guarded cap cs' (push_guarded cap c msg) end.

(** The number a list of decimal digit characters denotes. *)
Definition dec_value (ds : list Z) : Z :=
  fold_left (fun acc d => acc * 10 + (d - 48)) ds 0.

(** ** Automation *)
Create HintDb shade discriminated.

Ltac inv_ret :=
  repeat match goal with
  | H : Ret _ = Ret _ |- _ => injection H; clear H; intros; subst
  | H : Panic = Ret _ |- _ => discriminate H
  | H : Fault = Ret _ |- _ => discriminate H
  | H : Timeout = Ret _ |- _ => discriminate H
  end.

Lemma Ret_inj {A} (a b : A) : Ret a = Ret b -> a = b.
Proof. congruence. Qed.

Lemma bind_Ret {A B} (f : A -> outcome B) (c : outcome A) b :
  c ≫= f = Ret b <-> exists a, c = Ret a /\ f a = Ret b.
Proof.
  split.
  - destruct c as [a| | |]; cbn; intros H; try discriminate. by exists a.
  - by intros (a & -> & H).
Qed.

Lemma bind_of_ret {A B} (f : A -> outcome B) a : (Ret a ≫= f) = f a.
Proof. reflexivity. Qed.

(** Compute the next binding of a run whose first step is known. *)
Ltac step_ret := cbn [mbind outcome_bind_inst outcome_bind].
Ltac step_ret_in H := cbn [mbind outcome_bind_inst outcome_bind] in H.

(** The same for state-passing code. *)
Ltac step_m :=
  repeat (progress (unfold mbind, M_bind_inst, mret, M_ret_inst, outcome_bind_inst, get, modify, lift; cbn [outcome_bind])).

Ltac inv_bind H :=
  let a := fresh "r" in
  let Ha := fresh "Hr" in
  apply bind_Ret in H as (a & Ha & H).

Lemma M_bind_Ret {St A B} (c : M St A) (k : A -> M St B) s a s' : c s = Ret (a, s') -> (a ← c; k a) s = k a s'.
Proof. unfold mbind, M_bind_inst. by intros ->. Qed.

Lemma M_bind_Panic {St A B} (c : M St A) (k : A -> M St B) s : c s = Panic -> (a ← c; k a) s = Panic.
Proof. unfold mbind, M_bind_inst. by intros ->. Qed.

Lemma M_bind_inv {St A B} (c : M St A) (k : A -> M St B) s r :
  (a ← c; k a) s = Ret r -> exists a s1, c s = Ret (a, s1) /\ k a s1 = Ret r.
Proof.
  unfold mbind, M_bind_inst. destruct (c s) as [[a s1]| | |]; cbn [outcome_bind]; intros E; [|done..].
  by exists a, s1.
Qed.

Lemma mret_inv {St A} (a b : A) (s s' : St) : (mret a : M St A) s = Ret (b, s') -> a = b /\ s = s'.
Proof. unfold mret, M_ret_inst. intros E. by injection E. Qed.

(** *** Words *)
Lemma wrap_range w z : 0 <= w -> 0 <= wrap w z < 2 ^ w.
Proof. intros. apply Z.mod_pos_bound. apply Z.pow_pos_nonneg; lia. Qed.

Lemma wrap_small w z : 0 <= z < 2 ^ w -> wrap w z = z.
Proof. apply Z.mod_small. Qed.

Lemma wrap_wrap w z : 0 <= w -> wrap w (wrap w z) = wrap w z.
Proof. intros. apply Z.mod_mod, Z.pow_nonzero; lia. Qed.

Lemma swrap_small w z : 0 < w -> - 2 ^ (w - 1) <= z < 2 ^ (w - 1) -> swrap w z = z.
Proof.
  intros Hw Hz. unfold swrap. rewrite Z.mod_small; [lia|].
  replace (2 ^ w) with (2 * 2 ^ (w - 1)); [lia|].
  rewrite <- Z.pow_succ_r by lia. f_equal; lia.
Qed.

Lemma swrap_range w z : 0 < w -> - 2 ^ (w - 1) <= swrap w z < 2 ^ (w - 1).
Proof.
  intros Hw. unfold swrap.
  assert (2 ^ w = 2 * 2 ^ (w - 1)) as E.
  { rewrite <- Z.pow_succ_r by lia. f_equal; lia. }
  pose proof (Z.mod_pos_bound (z + 2 ^ (w - 1)) (2 ^ w)).
  pose proof (Z.pow_pos_nonneg 2 (w - 1)). lia.
Qed.

(** Rounding down with the mask [!(2^k - 1)] of a [w]-bit word. *)
Lemma land_mask_width w k x :
  0 <= k <= w -> 0 <= x < 2 ^ w ->
  Z.land x (2 ^ w - 2 ^ k) = 2 ^ k * (x / 2 ^ k).
Proof.
  intros Hk Hx.
  replace (2 ^ w - 2 ^ k) with (Z.shiftl (Z.ones (w - k)) k).
  2:{ rewrite Z.shiftl_mul_pow2, Z.ones_equiv, <- Z.sub_1_r, Z.mul_sub_distr_r by lia.
      rewrite <- Z.pow_add_r by lia. f_equal; [f_equal; lia|lia]. }
  rewrite Z.mul_comm, <- Z.shiftr_div_pow2, <- Z.shiftl_mul_pow2 by lia.
  apply Z.bits_inj'. intros n Hn.
  rewrite Z.land_spec, !Z.shiftl_spec by lia.
  destruct (decide (k <= n)).
  2:{ rewrite !(Z.testbit_neg_r _ (n - k)) by lia. by rewrite andb_false_r. }
  rewrite Z.shiftr_spec by lia. replace (n - k + k) with n by lia.
  rewrite Z.testbit_ones_nonneg by lia.
  destruct (decide (n < w)).
  - rewrite (proj2 (Z.ltb_lt _ _)) by lia. apply andb_true_r.
  - rewrite (proj2 (Z.ltb_ge _ _)) by lia. rewrite andb_false_r. symmetry.
    destruct (decide (x = 0)) as [->|]; [apply Z.bits_0|].
    apply Z.bits_above_log2; [lia|].
    apply Z.log2_lt_pow2; [lia|]. eapply Z.lt_le_trans; [apply Hx|].
    apply Z.pow_le_mono_r; lia.
Qed.

Lemma land_mask_down k x :
  0 <= k <= 64 -> 0 <= x < 2 ^ 64 -> Z.land x (2 ^ 64 - 2 ^ k) = 2 ^ k * (x / 2 ^ k).
Proof. apply land_mask_width. Qed.

(** The low [k] bits. *)
Lemma land_low k x : 0 <= k -> Z.land x (2 ^ k - 1) = x mod 2 ^ k.
Proof. intros Hk. rewrite <- Z.land_ones by done. by rewrite Z.ones_equiv, Z.sub_1_r. Qed.

Lemma land_1 x : Z.land x 1 = x mod 2.
Proof. apply (land_low 1). lia. Qed.

(** A decidable property of bytes can be checked on all of them. *)
Lemma byte_cases (P : Z -> bool) s :
  forallb P (seqZ 0 256) = true -> 0 <= s < 256 -> P s = true.
Proof. intros H Hs. rewrite forallb_forall in H. apply H, list_elem_of_In, elem_of_seqZ. lia. Qed.

(** *** Decimal digits *)
Definition is_digit (c : Z) : Prop := 48 <= c <= 57.

Lemma digit_loop_ok room n :
  0 <= n < 10 ^ Z.of_nat room ->
  exists ds, digit_loop room n = Ret ds /\ (length ds <= room)%nat /\
    Forall is_digit ds /\ (ds = [] -> n = 0) /\
    foldr (fun d acc => acc * 10 + (d - 48)) 0 ds = n.
Proof.
  revert n. induction room as [|r IH]; intros n Hn.
  - exists []. assert (n = 0) as -> by (cbn in Hn; lia). by repeat split.
  - cbn [digit_loop]. destruct (n <=? 0) eqn:E.
    + apply Z.leb_le in E. exists []. repeat split; cbn; try lia. constructor.
    + apply Z.leb_gt in E. rewrite Nat2Z.inj_succ, Z.pow_succ_r in Hn by lia.
      destruct (IH (n / 10)) as (ds & -> & Hl & Hd & _ & Hv).
      { split; [apply Z.div_pos; lia|]. apply Z.div_lt_upper_bound; lia. }
      exists (48 + n mod 10 :: ds). pose proof (Z.mod_pos_bound n 10).
      pose proof (Z.div_mod n 10).
      split; [reflexivity|]. repeat split; cbn; try lia.
      * constructor; [unfold is_digit; lia|done].
      * intros; discriminate.
Qed.

Lemma digit_loop_overflow room n :
  10 ^ Z.of_nat room <= n -> digit_loop room n = Panic.
Proof.
  revert n. induction room as [|r IH]; intros n Hn; cbn [digit_loop].
  - cbn in Hn. destruct (Z.leb_spec n 0); [lia|done].
  - rewrite Nat2Z.inj_succ, Z.pow_succ_r in Hn by lia.
    pose proof (Z.pow_pos_nonneg 10 (Z.of_nat r)).
    destruct (Z.leb_spec n 0); [lia|].
    rewrite IH; [done|]. apply Z.div_le_lower_bound; lia.
Qed.

Lemma dec_digits_ok room n :
  (0 < room)%nat -> 0 <= n < 10 ^ Z.of_nat room ->
  exists ds, dec_digits room n = Ret ds /\ (0 < length ds <= room)%nat /\
    Forall is_digit ds /\ dec_value ds = n.
Proof.
  intros Hr Hn. unfold dec_digits. destruct (Z.eqb_spec n 0) as [->|Hne].
  - destruct room; [lia|]. exists [48]. repeat split; cbn; try lia.
    constructor; [unfold is_digit; lia|constructor].
  - destruct (digit_loop_ok room n Hn) as (ds & -> & Hl & Hd & Hnil & Hv).
    exists (rev ds). split; [reflexivity|]. rewrite length_rev.
    split; [destruct ds; cbn in *; [by specialize (Hnil eq_refl)|lia]|].
    split; [by apply Forall_rev|].
    unfold dec_value. rewrite fold_left_rev_right in Hv || rewrite <- fold_left_rev_right.
    rewrite rev_involutive. done.
Qed.

Lemma dec_digits_overflow room n :
  10 ^ Z.of_nat room <= n -> dec_digits room n = Panic.
Proof.
  intros Hn. pose proof (Z.pow_pos_nonneg 10 (Z.of_nat room)).
  unfold dec_digits. destruct (Z.eqb_spec n 0); [lia|].
  by rewrite digit_loop_overflow.
Qed.

(** More room does not change the digits. *)
Lemma dec_digits_more r r' n ds : (r <= r')%nat -> dec_digits r n = Ret ds -> dec_digits r' n = Ret ds.
Proof.
  intros Hr. unfold dec_digits. destruct (n =? 0); [destruct r, r'; try done; lia|]. intros E. apply bind_Ret in E as (l & El & E).
  apply bind_Ret. exists l. split; [|done]. clear E. revert r' n l Hr El. induction r as [|r IH]; intros r' n l Hr El; cbn [digit_loop] in El.
  - destruct (n <=? 0) eqn:En; [|done]. destruct r'; cbn [digit_loop]; by rewrite En.
  - destruct r' as [|r']; [lia|]. cbn [digit_loop]. destruct (n <=? 0); [done|]. apply bind_Ret in El as (l' & El & E).
    rewrite (IH r' _ l') by (done || lia). done.
Qed.

Lemma dec_value_acc ds a :
  fold_left (fun acc d => acc * 10 + (d - 48)) ds a = a * 10 ^ Z.of_nat (length ds) + dec_value ds.
Proof.
  unfold dec_value. revert a. induction ds as [|d ds IH]; intros a; cbn [fold_left length]; [cbn; lia|].
  rewrite (IH (a * 10 + (d - 48))), (IH (0 * 10 + (d - 48))), Nat2Z.inj_succ, Z.pow_succ_r by lia. lia.
Qed.

Lemma dec_value_cons d ds :
  dec_value (d :: ds) = (d - 48) * 10 ^ Z.of_nat (length ds) + dec_value ds.
Proof. unfold dec_value at 1. cbn [fold_left]. by rewrite dec_value_acc. Qed.

Lemma digits_nonzero ds : Forall is_digit ds -> Forall (fun c => c <> 0) ds.
Proof. intros H. eapply Forall_impl; [exact H|]. unfold is_digit. lia. Qed.

(** *** C strings *)
Lemma until_nul_app l r :
  Forall (fun c => c <> 0) l -> until_nul (l ++ 0 :: r) = l.
Proof.
  induction 1 as [|c l Hc _ IH]; [done|]. cbn.
  destruct (Z.eqb_spec c 0); [done|]. by rewrite IH.
Qed.

Lemma until_nul_nonzero l : Forall (fun c => c <> 0) (until_nul l).
Proof.
  induction l as [|c l IH]; cbn; [constructor|].
  destruct (Z.eqb_spec c 0); by constructor.
Qed.

Lemma until_nul_id l : Forall (fun c => c <> 0) l -> until_nul l = l.
Proof.
  induction 1 as [|c l Hc _ IH]; [done|]. cbn.
  destruct (Z.eqb_spec c 0); [done|]. by rewrite IH.
Qed.

Lemma until_nul_length l : (length (until_nul l) <= length l)%nat.
Proof. induction l as [|c l IH]; cbn; [lia|]. destruct (c =? 0); cbn; lia. Qed.

(** *** Splitting *)
Lemma split_char_nonempty c s : split_char c s <> [].
Proof. destruct s as [|x s]; cbn; [done|]. destruct (x =? c); [done|]. by destruct (split_char c s). Qed.

Lemma split_char_no_sep c s : Forall (fun x => x <> c) s -> split_char c s = [s].
Proof.
  induction 1 as [|x s Hx _ IH]; cbn; [done|]. destruct (Z.eqb_spec x c); [done|]. by rewrite IH.
Qed.

Lemma split_char_app c w s :
  Forall (fun x => x <> c) w -> split_char c (w ++ c :: s) = w :: split_char c s.
Proof.
  induction 1 as [|x w Hx _ IH]; cbn; [by rewrite Z.eqb_refl|].
  destruct (Z.eqb_spec x c); [done|]. by rewrite IH.
Qed.

Lemma split_char_pieces c s : Forall (Forall (fun x => x <> c)) (split_char c s).
Proof.
  induction s as [|x s IH]; cbn; [by repeat constructor|].
  destruct (Z.eqb_spec x c); [by repeat constructor|].
  destruct (split_char c s) as [|w ws]; [by repeat constructor|].
  apply Forall_cons in IH as [Hw Hws]. by repeat constructor.
Qed.

(** The characters of the pieces are characters of the string. *)
Lemma split_char_Forall (P : Z -> Prop) c s : Forall P s -> Forall (Forall P) (split_char c s).
Proof.
  induction 1 as [|x s Hx _ IH]; cbn; [by repeat constructor|].
  destruct (x =? c); [by repeat constructor|].
  destruct (split_char c s) as [|w ws]; [by repeat constructor|].
  apply Forall_cons in IH as [Hw Hws]. by repeat constructor.
Qed.

(** *** Arrays *)
Lemma arr_set_ok {A} (l : list A) i x :
  (i < length l)%nat -> arr_set l i x = Ret (<[i := x]> l).
Proof. intros. unfold arr_set. by rewrite decide_True. Qed.

Lemma arr_get_ok {A} (l : list A) i x : l !! i = Some x -> arr_get l i = Ret x.
Proof. unfold arr_get. by intros ->. Qed.

Lemma arr_copy_ok {A} (l : list A) i s :
  (i + length s <= length l)%nat -> arr_copy l i s = Ret (take i l ++ s ++ drop (i + length s) l).
Proof. intros. unfold arr_copy. by rewrite decide_True. Qed.

(** *** Messages *)
Lemma push_all_ok cap cs msg :
  (length msg + length cs <= cap)%nat -> push_all cap cs msg = Ret (msg ++ cs).
Proof.
  revert msg. induction cs as [|c cs IH]; intros msg H; cbn in *; [by rewrite app_nil_r|].
  unfold push. rewrite decide_True by lia. step_ret.
  rewrite IH by (rewrite length_app; cbn; lia). by rewrite <- app_assoc.
Qed.

Lemma push_all_guarded_ok cap cs msg :
  (length msg + length cs <= cap - 3)%nat -> push_all_guarded cap cs msg = msg ++ cs.
Proof.
  revert msg. induction cs as [|c cs IH]; intros msg H; cbn in *; [by rewrite app_nil_r|].
  unfold push_guarded. rewrite decide_True by lia.
  rewrite IH by (rewrite length_app; cbn; lia). by rewrite <- app_assoc.
Qed.

Lemma push_all_guarded_length cap cs msg :
  (length msg <= cap - 3)%nat -> (length (push_all_guarded cap cs msg) <= cap - 3)%nat.
Proof.
  revert msg. induction cs as [|c cs IH]; intros msg H; cbn; [done|]. apply IH.
  unfold push_guarded. destruct (decide _); [rewrite length_app; cbn; lia|done].
Qed.

#[export] Hint Resolve arr_set_ok arr_get_ok until_nul_nonzero : shade.

(** ** Runs that end: in a result, a panic or a fault *)
Definition ends {A} (o : outcome A) : Prop := o <> Timeout.

Lemma ends_Ret {A} (a : A) : ends (Ret a).
Proof. discriminate. Qed.

Lemma ends_bind {A B} (o : outcome A) (k : A -> outcome B) :
  ends o -> (forall a, o = Ret a -> ends (k a)) -> ends (a ← o; k a).
Proof. unfold ends. destruct o; cbn; intros H1 H2; [by apply H2|done..]. Qed.

Lemma dec_digits_ends room n : ends (dec_digits room n).
Proof.
  unfold dec_digits. destruct (n =? 0); [by destruct room|]. apply ends_bind; [|intros ds _; apply ends_Ret].
  revert n. induction room as [|r IH]; intros n; cbn [digit_loop]; destruct (n <=? 0); try done.
  apply ends_bind; [apply IH|]. intros ds _. apply ends_Ret.
Qed.

Lemma arr_set_ends {A} (l : list A) i x : ends (arr_set l i x).
Proof. unfold arr_set. by destruct (decide _). Qed.

Lemma arr_copy_ends {A} (l : list A) i s : ends (arr_copy l i s).
Proof. unfold arr_copy. by destruct (decide _). Qed.

Create HintDb ends discriminated.
#[export] Hint Resolve ends_Ret dec_digits_ends arr_set_ends arr_copy_ends : ends.

(** Follow the control flow down to calls that are known to end. *)
Ltac ends_step :=
  lazymatch goal with
  | |- ends (_ ≫= _) => apply ends_bind; [|intros ? _]
  | |- ends (let '(_, _) := ?x in _) => destruct x
  | |- ends (match ?x with _ => _ end) => destruct x
  | |- ends Panic => discriminate
  | |- ends Fault => discriminate
  | |- _ => solve [auto with ends]
  end.
Ltac solve_ends := repeat ends_step.
