(* ===== verification/Memory.v ===== *)
(** * Memory: byte-addressed memory and the routines of [memory.rs]

    The kernel's raw pointers are addresses into one byte-addressed memory; an
    access outside the mapped addresses is a page fault.  The file models the
    pointer primitives the kernel uses (byte and word accesses, C-string reads,
    [copy_nonoverlapping], [write_bytes]) and [rust_memset] / [rust_memcpy]. *)

From S2P Require Import Prelude.

Local Open Scope Z_scope.

Abbreviation mem := (gmap Z Z).

Definition load8 (m : mem) (a : Z) : outcome Z := deref (m !! a).

Definition store8 (m : mem) (a v : Z) : outcome mem :=
  match m !! a with Some _ => Ret (<[a := v]> m) | None => Fault end.

(** [n] bytes from address [a] on, and a block of bytes written at [a]. *)
Fixpoint load_bytes (m : mem) (a : Z) (n : nat) : outcome (list Z) :=
  match n with
  | O => Ret []
  | S n' => b ← load8 m a; bs ← load_bytes m (a + 1) n'; Ret (b :: bs)
  end.

Fixpoint store_bytes (m : mem) (a : Z) (l : list Z) : outcome mem :=
  match l with
  | [] => Ret m
  | b :: l' => m' ← store8 m a b; store_bytes m' (a + 1) l'
  end.

(** [core::ptr::copy_nonoverlapping] and [core::ptr::write_bytes]. *)
Definition copy_nonoverlapping (m : mem) (src dst : Z) (n : nat) : outcome mem :=
  bs ← load_bytes m src n; store_bytes m dst bs.

Definition write_bytes (m : mem) (dst v : Z) (n : nat) : outcome mem :=
  store_bytes m dst (replicate n v).

(** Little-endian words. *)
Fixpoint le_bytes (n : nat) (v : Z) : list Z :=
  match n with O => [] | S n' => v mod 256 :: le_bytes n' (v / 256) end.

Fixpoint le_word (l : list Z) : Z :=
  match l with [] => 0 | b :: l' => b + 256 * le_word l' end.

Definition store64 (m : mem) (a v : Z) : outcome mem := store_bytes m a (le_bytes 8 (u64 v)).

Definition load_le (n : nat) (m : mem) (a : Z) : outcome Z := bs ← load_bytes m a n; Ret (le_word bs).

Definition load64 (m : mem) (a : Z) : outcome Z := bs ← load_bytes m a 8; Ret (le_word bs).

(** [while *ptr != 0 { ...; ptr = ptr.add(1) }]: every iteration reads one more
    mapped byte, so the number of mapped bytes bounds the iterations. *)
Fixpoint cstr_loop (fuel : nat) (m : mem) (a : Z) : outcome (list Z) :=
  match fuel with
  | O => Timeout
  | S f => c ← load8 m a;
           if c =? 0 then Ret [] else cs ← cstr_loop f m (a + 1); Ret (c :: cs)
  end.

Definition read_cstr (m : mem) (a : Z) : outcome (list Z) := cstr_loop (S (size m)) m a.

(** [rust_memset]: [for i in 0..len { *dest.add(i) = val as u8; } dest]. *)
Fixpoint memset_loop (m : mem) (dest val : Z) (n : nat) : outcome mem :=
  match n with
  | O => Ret m
  | S n' => m' ← store8 m dest (u8 val); memset_loop m' (dest + 1) val n'
  end.

Definition rust_memset (m : mem) (dest val len : Z) : outcome (Z * mem) :=
  m' ← memset_loop m dest val (Z.to_nat len); Ret (dest, m').

(** [rust_memcpy]: the bytes are copied one by one, lowest address first. *)
Fixpoint memcpy_loop (m : mem) (dest src : Z) (n : nat) : outcome mem :=
  match n with
  | O => Ret m
  | S n' => b ← load8 m src; m' ← store8 m dest b; memcpy_loop m' (dest + 1) (src + 1) n'
  end.

Definition rust_memcpy (m : mem) (dest src len : Z) : outcome (Z * mem) :=
  m' ← memcpy_loop m dest src (Z.to_nat len); Ret (dest, m').

(** A memory with the bytes [l] at [a]. *)
Fixpoint poke (a : Z) (l : list Z) (m : mem) : mem :=
  match l with [] => m | b :: l' => <[a := b]> (poke (a + 1) l' m) end.

(** ** Specifications *)

(** The bytes [l] are in memory from address [a] on. *)
Definition bytes_at (m : mem) (a : Z) (l : list Z) : Prop :=
  forall i x, l !! i = Some x -> m !! (a + Z.of_nat i) = Some x.

(** Addresses [a .. a+n-1] are mapped. *)
Definition mapped (m : mem) (a : Z) (n : nat) : Prop :=
  forall i, (i < n)%nat -> is_Some (m !! (a + Z.of_nat i)).

(** The memory after the bytes [l] are written at [a]. *)
Definition patched (m : mem) (a : Z) (l : list Z) (m' : mem) : Prop :=
  forall x, m' !! x = match l !! Z.to_nat (x - a) with
                      | Some b => if a <=? x then Some b else m !! x
                      | None => m !! x
                      end.

(** A NUL-terminated string at [a]. *)
Definition cstr_at (m : mem) (a : Z) (s : list Z) : Prop :=
  Forall (fun c => c <> 0) s /\ bytes_at m a (s ++ [0]).

Lemma bytes_at_cons m a b l :
  bytes_at m a (b :: l) <-> m !! a = Some b /\ bytes_at m (a + 1) l.
Proof.
  split.
  - intros H. split.
    + rewrite <- (Z.add_0_r a). apply (H O b). done.
    + intros i x Hi. replace (a + 1 + Z.of_nat i) with (a + Z.of_nat (S i)) by lia.
      by apply H.
  - intros [H0 H] [|i] x Hi; cbn in Hi.
    + injection Hi as <-. by rewrite Z.add_0_r.
    + replace (a + Z.of_nat (S i)) with (a + 1 + Z.of_nat i) by lia. by apply H.
Qed.

Lemma bytes_at_app m a l r :
  bytes_at m a (l ++ r) <-> bytes_at m a l /\ bytes_at m (a + Z.of_nat (length l)) r.
Proof.
  revert a. induction l as [|b l IH]; intros a; cbn [app length].
  - rewrite Z.add_0_r. split; [intros H; split; [intros i x Hi; discriminate|done]|by intros [_ H]].
  - rewrite !bytes_at_cons, IH.
    replace (a + Z.of_nat (S (length l))) with (a + 1 + Z.of_nat (length l)) by lia. tauto.
Qed.

Lemma mapped_S m a n : mapped m a (S n) <-> is_Some (m !! a) /\ mapped m (a + 1) n.
Proof.
  split.
  - intros H. split.
    + rewrite <- (Z.add_0_r a). apply (H O). lia.
    + intros i Hi. replace (a + 1 + Z.of_nat i) with (a + Z.of_nat (S i)) by lia. apply H. lia.
  - intros [H0 H] [|i] Hi.
    + by rewrite Z.add_0_r.
    + replace (a + Z.of_nat (S i)) with (a + 1 + Z.of_nat i) by lia. apply H. lia.
Qed.

Lemma bytes_at_mapped m a l : bytes_at m a l -> mapped m a (length l).
Proof.
  intros H i Hi. destruct (lookup_lt_is_Some_2 l i Hi) as [x Hx]. exists x. by apply H.
Qed.

Lemma bytes_at_patched m a l m' : patched m a l m' -> bytes_at m' a l.
Proof.
  intros H i x Hi. rewrite H. replace (a + Z.of_nat i - a) with (Z.of_nat i) by lia.
  rewrite Nat2Z.id, Hi. by rewrite (proj2 (Z.leb_le _ _)) by lia.
Qed.

Lemma patched_head m a b l m' : patched m a (b :: l) m' -> m' !! a = Some b.
Proof. intros H. apply bytes_at_patched, bytes_at_cons in H. apply H. Qed.

Lemma patched_outside m a l m' x :
  patched m a l m' -> (x < a \/ a + Z.of_nat (length l) <= x) -> m' !! x = m !! x.
Proof.
  intros H Hx. rewrite H. destruct (l !! Z.to_nat (x - a)) eqn:E; [|done].
  apply lookup_lt_Some in E. destruct (Z.leb_spec a x); [lia|done].
Qed.

Lemma patched_dom m a l m' : mapped m a (length l) -> patched m a l m' -> dom m' = dom m.
Proof.
  intros Hm Hp. apply set_eq. intros x. rewrite !elem_of_dom, (Hp x).
  destruct (l !! Z.to_nat (x - a)) eqn:E; [|done].
  destruct (Z.leb_spec a x); [|done]. split; [intros _|done].
  apply lookup_lt_Some in E.
  replace x with (a + Z.of_nat (Z.to_nat (x - a))) by lia. by apply Hm.
Qed.

Lemma patched_mapped m a l m' b n : patched m a l m' -> mapped m a (length l) -> mapped m b n -> mapped m' b n.
Proof.
  intros Hp Ha Hb i Hi. apply elem_of_dom. rewrite (patched_dom _ _ _ _ Ha Hp). by apply elem_of_dom, Hb.
Qed.

Lemma load_bytes_ok m a l : bytes_at m a l -> load_bytes m a (length l) = Ret l.
Proof.
  revert a. induction l as [|b l IH]; intros a H; [done|].
  apply bytes_at_cons in H as [H0 H]. cbn. unfold load8. rewrite H0. cbn.
  by rewrite (IH _ H).
Qed.

Lemma load_bytes_inv m a n l : load_bytes m a n = Ret l -> length l = n /\ bytes_at m a l.
Proof.
  revert a l. induction n as [|n IH]; intros a l H; cbn in H.
  - inv_ret. split; [done|]. intros i x Hi. discriminate.
  - inv_bind H. inv_bind H. inv_ret. destruct (IH _ _ Hr0) as [<- Hb].
    split; [done|]. apply bytes_at_cons. split; [|done].
    unfold load8 in Hr. destruct (m !! a); cbn in Hr; by inv_ret.
Qed.

(** Whether bytes are in memory can be computed. *)
Lemma bytes_at_load m a l : load_bytes m a (length l) = Ret l -> bytes_at m a l.
Proof. intros H. by apply load_bytes_inv in H as [_ ?]. Qed.

Lemma mapped_load m a n : mapped m a n -> exists l, load_bytes m a n = Ret l.
Proof.
  revert a. induction n as [|n IH]; intros a H; [by exists []|].
  apply mapped_S in H as [[b Hb] H]. destruct (IH _ H) as [l Hl].
  exists (b :: l). cbn. unfold load8. rewrite Hb. cbn. by rewrite Hl.
Qed.

Lemma patched_cons m a b l m' :
  patched (<[a := b]> m) (a + 1) l m' -> patched m a (b :: l) m'.
Proof.
  intros H x. rewrite H. destruct (Z.ltb_spec x (a + 1)) as [Hx|Hx].
  - destruct (decide (x = a)) as [->|Hne].
    + replace (a - a) with 0 by lia. cbn. rewrite Z.leb_refl.
      replace (Z.to_nat (a - (a + 1))) with O by lia.
      rewrite lookup_insert_eq. destruct (l !! O); [|done].
      by rewrite (proj2 (Z.leb_gt _ _)) by lia.
    + rewrite lookup_insert_ne by done.
      replace (Z.to_nat (x - (a + 1))) with O by lia.
      replace (Z.to_nat (x - a)) with O by lia. cbn.
      rewrite !(proj2 (Z.leb_gt _ _)) by lia. by destruct (l !! O).
  - rewrite (proj2 (Z.leb_le (a + 1) x)) by lia. rewrite (proj2 (Z.leb_le a x)) by lia.
    rewrite lookup_insert_ne by lia.
    replace (Z.to_nat (x - a)) with (S (Z.to_nat (x - (a + 1)))) by lia. cbn. done.
Qed.

Lemma store_bytes_ok m a l :
  mapped m a (length l) -> exists m', store_bytes m a l = Ret m' /\ patched m a l m'.
Proof.
  revert m a. induction l as [|b l IH]; intros m a H.
  - exists m. split; [done|]. by intros x.
  - apply mapped_S in H as [[b0 Hb0] H]. cbn. unfold store8. rewrite Hb0. cbn.
    destruct (IH (<[a:=b]> m) (a + 1)) as (m' & Hs & Hp).
    { intros i Hi. rewrite lookup_insert_ne by lia. by apply H. }
    exists m'. split; [done|]. by apply patched_cons.
Qed.

(** A store that succeeds has patched memory. *)
Lemma store_bytes_patched m a l m' : store_bytes m a l = Ret m' -> patched m a l m'.
Proof.
  revert m a. induction l as [|b l IH]; intros m a H; cbn [store_bytes] in H; [apply Ret_inj in H as <-; by intros x|].
  inv_bind H. unfold store8 in Hr. destruct (m !! a); [|done]. apply Ret_inj in Hr as <-. by apply patched_cons, IH.
Qed.

(** *** Little-endian words *)
Lemma le_word_bytes n v : le_word (le_bytes n v) = v mod 2 ^ (8 * Z.of_nat n).
Proof.
  revert v. induction n as [|n IH]; intros v.
  - cbn. by rewrite Z.mod_1_r.
  - cbn [le_bytes le_word]. rewrite IH.
    replace (8 * Z.of_nat (S n)) with (8 + 8 * Z.of_nat n) by lia.
    rewrite Z.pow_add_r by lia. change (2 ^ 8) with 256.
    rewrite Z.rem_mul_r; lia.
Qed.

Lemma le_word_app l r : le_word (l ++ r) = le_word l + 2 ^ (8 * Z.of_nat (length l)) * le_word r.
Proof.
  induction l as [|b l IH]; cbn [app le_word length]; [lia|]. rewrite IH.
  replace (8 * Z.of_nat (S (length l))) with (8 + 8 * Z.of_nat (length l)) by lia. rewrite Z.pow_add_r by lia. lia.
Qed.

Lemma le_bytes_length n v : length (le_bytes n v) = n.
Proof. revert v. induction n; intros v; cbn; [done|]. by rewrite IHn. Qed.

Lemma store64_ok m a v :
  mapped m a 8 -> exists m', store64 m a v = Ret m' /\ patched m a (le_bytes 8 (u64 v)) m'.
Proof. intros. by apply store_bytes_ok. Qed.

Lemma load64_patched m a v m' :
  0 <= v < 2 ^ 64 -> patched m a (le_bytes 8 (u64 v)) m' -> load64 m' a = Ret v.
Proof.
  intros Hv H. apply bytes_at_patched, load_bytes_ok in H. unfold load64.
  rewrite le_bytes_length in H. rewrite H. cbn [mbind outcome_bind_inst outcome_bind].
  rewrite le_word_bytes, (wrap_small 64 v) by lia. change (8 * Z.of_nat 8) with 64.
  by rewrite Z.mod_small.
Qed.

(** *** C strings *)
Lemma mapped_size m a n : mapped m a n -> (n <= size m)%nat.
Proof.
  intros H. rewrite <- size_dom.
  set (addrs := (list_to_set ((fun i : nat => a + Z.of_nat i) <$> seq 0 n) : gset Z)).
  assert (size addrs = n) as Hsz.
  { unfold addrs. rewrite size_list_to_set.
    - by rewrite length_fmap, length_seq.
    - apply NoDup_fmap_2; [intros i j Hij; lia|apply NoDup_seq]. }
  rewrite <- Hsz. apply subseteq_size. intros x Hx.
  unfold addrs in Hx. apply elem_of_list_to_set, list_elem_of_fmap in Hx as (i & -> & Hi).
  apply elem_of_seq in Hi. apply elem_of_dom, H. lia.
Qed.

Lemma cstr_at_size m a s : cstr_at m a s -> (length s < size m)%nat.
Proof.
  intros [_ H]. apply bytes_at_mapped, mapped_size in H. rewrite length_app in H. cbn in H. lia.
Qed.

Lemma cstr_loop_ok fuel m a s :
  cstr_at m a s -> (length s < fuel)%nat -> cstr_loop fuel m a = Ret s.
Proof.
  intros [Hz H]. revert fuel a H. induction Hz as [|c s Hc _ IH]; intros fuel a H Hf;
    (destruct fuel as [|f]; [cbn in Hf; lia|]); cbn in H; apply bytes_at_cons in H as [H0 H];
    cbn; unfold load8; rewrite H0; cbn.
  - done.
  - destruct (Z.eqb_spec c 0); [done|]. rewrite IH; [done|done|cbn in Hf; lia].
Qed.

(** A string that ends in a NUL is read in full. *)
Lemma read_cstr_ok m a s : cstr_at m a s -> read_cstr m a = Ret s.
Proof. intros H. apply cstr_loop_ok; [done|]. apply cstr_at_size in H. lia. Qed.

Lemma cstr_loop_inv fuel m a s : cstr_loop fuel m a = Ret s -> cstr_at m a s.
Proof.
  revert a s. induction fuel as [|f IH]; intros a s H; [discriminate|].
  cbn in H. inv_bind H. unfold load8 in Hr. destruct (m !! a) eqn:Ea; cbn in Hr; inv_ret.
  destruct (Z.eqb_spec r 0) as [->|Hne].
  - inv_ret. split; [constructor|]. cbn. apply bytes_at_cons. split; [done|]. by intros i x Hi.
  - inv_bind H. inv_ret. destruct (IH _ _ Hr) as [Hz Hb]. split; [by constructor|].
    cbn. apply bytes_at_cons. done.
Qed.

Lemma read_cstr_inv m a s : read_cstr m a = Ret s -> cstr_at m a s.
Proof. apply cstr_loop_inv. Qed.

(** Reading past [fuel] bytes needs [fuel] mapped bytes in a row. *)
Lemma cstr_loop_timeout fuel m a : cstr_loop fuel m a = Timeout -> mapped m a fuel.
Proof.
  revert a. induction fuel as [|f IH]; intros a H; [intros i Hi; lia|].
  cbn in H. unfold load8 in H. destruct (m !! a) as [c|] eqn:Ea; cbn in H; [|discriminate].
  apply mapped_S. split; [by exists c|]. apply IH.
  destruct (c =? 0); [discriminate|]. by destruct (cstr_loop f m (a + 1)).
Qed.

(** The fuel of [read_cstr] is enough: the read ends in a string or a fault. *)
Lemma read_cstr_no_timeout m a : read_cstr m a <> Timeout.
Proof. intros H. apply cstr_loop_timeout, mapped_size in H. lia. Qed.

Lemma read_cstr_no_panic m a : read_cstr m a <> Panic.
Proof.
  unfold read_cstr. generalize (S (size m)) as fuel. intros fuel. revert a.
  induction fuel as [|f IH]; intros a; [discriminate|].
  cbn. unfold load8. destruct (m !! a); cbn; [|discriminate].
  destruct (z =? 0); [discriminate|].
  specialize (IH (a + 1)). by destruct (cstr_loop f m (a + 1)).
Qed.

(** *** [rust_memset] and [rust_memcpy] *)
Lemma memset_loop_ok m dest val n :
  mapped m dest n ->
  exists m', memset_loop m dest val n = Ret m' /\ patched m dest (replicate n (u8 val)) m'.
Proof.
  revert m dest. induction n as [|n IH]; intros m dest H.
  - exists m. split; [done|]. by intros x.
  - apply mapped_S in H as [[b Hb] H]. cbn. unfold store8. rewrite Hb. cbn.
    destruct (IH (<[dest := u8 val]> m) (dest + 1)) as (m' & Hs & Hp).
    { intros i Hi. rewrite lookup_insert_ne by lia. by apply H. }
    exists m'. split; [done|]. by apply patched_cons.
Qed.

Lemma memcpy_loop_ok m dest src l :
  bytes_at m src l -> mapped m dest (length l) ->
  (dest <= src \/ src + Z.of_nat (length l) <= dest) ->
  exists m', memcpy_loop m dest src (length l) = Ret m' /\ patched m dest l m'.
Proof.
  revert m dest src. induction l as [|b l IH]; intros m dest src Hs Hd Hor.
  - exists m. split; [done|]. by intros x.
  - apply bytes_at_cons in Hs as [Hb Hs]. apply mapped_S in Hd as [[b0 Hb0] Hd].
    cbn [length] in Hor. cbn. unfold load8, store8. rewrite Hb, Hb0. cbn.
    destruct (IH (<[dest := b]> m) (dest + 1) (src + 1)) as (m' & Hl & Hp).
    + intros i x Hi. pose proof (lookup_lt_Some _ _ _ Hi).
      rewrite lookup_insert_ne by lia. by apply Hs.
    + intros i Hi. rewrite lookup_insert_ne by lia. by apply Hd.
    + lia.
    + exists m'. split; [done|]. by apply patched_cons.
Qed.

(** Memory that keeps the bytes at [a] keeps the word there. *)
Lemma bytes_at_ext m m' a l :
  bytes_at m a l -> (forall x, a <= x < a + Z.of_nat (length l) -> m' !! x = m !! x) -> bytes_at m' a l.
Proof.
  intros H Hx i b Hi. rewrite Hx; [by apply H|]. apply lookup_lt_Some in Hi. lia.
Qed.

Lemma load64_at m a v : 0 <= v < 2 ^ 64 -> bytes_at m a (le_bytes 8 (u64 v)) -> load64 m a = Ret v.
Proof.
  intros Hv H. apply load_bytes_ok in H. unfold load64. rewrite le_bytes_length in H. rewrite H. step_ret.
  rewrite le_word_bytes. f_equal. rewrite wrap_small by done. apply Z.mod_small. exact Hv.
Qed.

Lemma load_le_at n m a v : 0 <= v < 2 ^ (8 * Z.of_nat n) -> bytes_at m a (le_bytes n v) -> load_le n m a = Ret v.
Proof.
  intros Hv H. apply load_bytes_ok in H. unfold load_le. rewrite le_bytes_length in H. rewrite H. step_ret.
  rewrite le_word_bytes. f_equal. by apply Z.mod_small.
Qed.

(** Whether a range is mapped can be computed. *)
Lemma mapped_dec_ok m a n :
  forallb (fun i => bool_decide (is_Some (m !! (a + Z.of_nat i)))) (seq 0 n) = true -> mapped m a n.
Proof.
  intros H i Hi. rewrite forallb_forall in H. eapply bool_decide_eq_true, H, in_seq. lia.
Qed.

Lemma load_bytes_ends m a n : ends (load_bytes m a n).
Proof.
  revert a. induction n as [|n IH]; intros a; cbn [load_bytes]; [apply ends_Ret|].
  apply ends_bind; [unfold load8; by destruct (m !! a)|]. intros b _. apply ends_bind; [apply IH|].
  intros bs _. apply ends_Ret.
Qed.

Lemma store_bytes_ends m a l : ends (store_bytes m a l).
Proof.
  revert m a. induction l as [|b l IH]; intros m a; cbn [store_bytes]; [apply ends_Ret|].
  apply ends_bind; [unfold store8; by destruct (m !! a)|]. intros m' _. apply IH.
Qed.

Lemma read_cstr_ends m a : ends (read_cstr m a).
Proof. apply read_cstr_no_timeout. Qed.

#[export] Hint Resolve load_bytes_ends store_bytes_ends read_cstr_ends : ends.

Lemma store_bytes_dom m a l m' : store_bytes m a l = Ret m' -> dom m' = dom m.
Proof.
  revert m a. induction l as [|b l IH]; intros m a H; cbn [store_bytes] in H; [by apply Ret_inj in H as ->|].
  unfold store8 in H. destruct (m !! a) eqn:E; [|discriminate]. apply IH in H. rewrite H.
  apply dom_insert_lookup_L. by exists z.
Qed.

(** Memory with the bytes [l] placed at [a]. *)
Lemma poke_outside a l m x : x < a \/ a + Z.of_nat (length l) <= x -> poke a l m !! x = m !! x.
Proof.
  revert a. induction l as [|b l IH]; intros a H; cbn [poke length] in *; [done|].
  rewrite lookup_insert_ne by lia. apply IH. lia.
Qed.

Lemma bytes_at_poke a l m : bytes_at (poke a l m) a l.
Proof.
  revert a. induction l as [|b l IH]; intros a; [intros i x Hi; discriminate|]. cbn [poke]. apply bytes_at_cons.
  rewrite lookup_insert_eq. split; [done|]. apply (bytes_at_ext (poke (a + 1) l m)); [apply IH|].
  intros x Hx. rewrite lookup_insert_ne by lia. done.
Qed.

(** A region of [n] zero bytes, and memory with such a region added. *)
Definition blank (a : Z) (n : nat) : mem := list_to_map ((fun i => (a + Z.of_nat i, 0)) <$> seq 0 n).

Lemma blank_mapped (m : mem) a n : mapped (m ∪ blank a n) a n.
Proof.
  intros i Hi. apply elem_of_dom. rewrite dom_union, elem_of_union. right. unfold blank. rewrite dom_list_to_map.
  apply elem_of_list_to_set, list_elem_of_fmap. exists (a + Z.of_nat i, 0). split; [done|].
  apply list_elem_of_fmap. exists i. split; [done|]. apply elem_of_seq. lia.
Qed.

Lemma bytes_at_blank (m : mem) a n p l : bytes_at m p l -> bytes_at (m ∪ blank a n) p l.
Proof. intros H i x Hi. apply lookup_union_Some_l. by apply H. Qed.

(** ** The properties *)

(** [rust_memcpy] returns its destination and copies: when the source range
    holds the bytes [l] and the destination is mapped, exactly the [length l]
    bytes from [dest] on become [l].  The ranges may overlap when the
    destination is the lower one. *)
Theorem rust_memcpy_copies m dest src l :
  bytes_at m src l -> mapped m dest (length l) ->
  (dest <= src \/ src + Z.of_nat (length l) <= dest) ->
  exists m', rust_memcpy m dest src (Z.of_nat (length l)) = Ret (dest, m') /\ patched m dest l m'.
Proof.
  intros Hs Hd Ho. destruct (memcpy_loop_ok m dest src l Hs Hd Ho) as (m' & H & Hp).
  exists m'. unfold rust_memcpy. by rewrite Nat2Z.id, H.
Qed.

Lemma rust_memcpy_copies_witness :
  exists m', rust_memcpy (list_to_map [(0, 7); (1, 8); (2, 9)]) 0 1 2 = Ret (0, m') /\
    patched (list_to_map [(0, 7); (1, 8); (2, 9)]) 0 [8; 9] m'.
Proof.
  apply (rust_memcpy_copies (list_to_map [(0, 7); (1, 8); (2, 9)]) 0 1 [8; 9]).
  - intros [|[|i]] x H; [by injection H as <-|by injection H as <-|done].
  - intros [|[|i]] H; [by eexists|by eexists|cbn in H; lia].
  - lia.
Defined.

(** [rust_memset] returns its destination and sets exactly the [len] bytes
    from [dest] on to the low byte of [val]. *)
Theorem rust_memset_fills m dest val len :
  0 <= len -> mapped m dest (Z.to_nat len) ->
  exists m', rust_memset m dest val len = Ret (dest, m') /\
    patched m dest (replicate (Z.to_nat len) (u8 val)) m'.
Proof.
  intros Hl Hd. destruct (memset_loop_ok m dest val _ Hd) as (m' & H & Hp).
  exists m'. unfold rust_memset. by rewrite H.
Qed.

Lemma rust_memset_fills_witness :
  exists m', rust_memset (list_to_map [(0, 7); (1, 8)]) 0 (-1) 2 = Ret (0, m') /\
    patched (list_to_map [(0, 7); (1, 8)]) 0 [255; 255] m'.
Proof.
  apply (rust_memset_fills (list_to_map [(0, 7); (1, 8)]) 0 (-1) 2); [done|].
  intros [|[|i]] H; [by eexists|by eexists|lia].
Defined.
