(* ===== verification/CMemory.v ===== *)
(** * The C library of the kernel, [memory.c]

    Pointer checks, copying, strings, and the printing and parsing of numbers, as the
    C code uses them.  Where the kernel image lies is a parameter ([image], the
    linker's symbols [_kernel_start] and [_kernel_end]).  Variable arguments are a
    list; format strings are literals and given by their contents. *)

From S2P Require Import Prelude Memory.

Local Open Scope Z_scope.

(** ** Validation *)
Record image := mkImage { kernel_start : Z; kernel_end : Z }.

(** The linker script places the image at 1 MiB and above, below the 512 MiB the
    kernel manages. *)
Record image_ok (im : image) : Prop := {
  im_start : 0x100000 <= kernel_start im;
  im_end : kernel_start im <= kernel_end im < 512 * 1024 * 1024
}.

Section library.

Context (im : image).

Definition is_valid_pointer (a : Z) : bool :=
  if a =? 0 then false
  else if (kernel_start im <=? a) && (a <? kernel_end im) then true
  else if (kernel_end im <=? a) && (a <? 512 * 1024 * 1024) then true
  else if (0x1000 <=? a) && (a <? 0x100000) then true
  else false.

Fixpoint valid_string_loop (m : mem) (n : nat) (a : Z) : outcome bool :=
  match n with
  | O => Ret false
  | S n' =>
      if negb (is_valid_pointer a) then Ret false
      else c ← load8 m a; if c =? 0 then Ret true else valid_string_loop m n' (a + 1)
  end.

Definition is_valid_string (m : mem) (str : Z) (max_len : nat) : outcome bool :=
  if negb (is_valid_pointer str) then Ret false else valid_string_loop m max_len str.

Definition is_valid_buffer (buf len : Z) : bool :=
  if (buf =? 0) || (len =? 0) then false
  else if 0x100000 <? len then false
  else is_valid_pointer buf && is_valid_pointer (u64 (buf + len - 1)).

(** ** Copying *)
Fixpoint memset_checked (m : mem) (d value : Z) (n : nat) : outcome mem :=
  match n with
  | O => Ret m
  | S n' =>
      if negb (is_valid_pointer d) then Ret m
      else m' ← store8 m d value; memset_checked m' (d + 1) value n'
  end.

Definition safe_memset (m : mem) (dest val len : Z) : outcome (Z * mem) :=
  if (dest =? 0) || (len =? 0) then Ret (0, m)
  else if negb (is_valid_buffer dest len) then Ret (0, m)
  else if 0x100000 <? len then Ret (0, m)
  else m' ← memset_checked m dest (u8 val) (Z.to_nat len); Ret (dest, m').

(** Lowest address first, and highest address first ([d] and [s] are the ends). *)
Fixpoint copy_forward (m : mem) (d s : Z) (n : nat) : outcome mem :=
  match n with
  | O => Ret m
  | S n' =>
      if negb (is_valid_pointer d) || negb (is_valid_pointer s) then Ret m
      else b ← load8 m s; m' ← store8 m d b; copy_forward m' (d + 1) (s + 1) n'
  end.

Fixpoint copy_backward (m : mem) (d s : Z) (n : nat) : outcome mem :=
  match n with
  | O => Ret m
  | S n' =>
      if negb (is_valid_pointer (d + Z.of_nat n')) || negb (is_valid_pointer (s + Z.of_nat n')) then Ret m
      else b ← load8 m (s + Z.of_nat n'); m' ← store8 m (d + Z.of_nat n') b; copy_backward m' d s n'
  end.

Definition safe_memcpy (m : mem) (dest src len : Z) : outcome (Z * mem) :=
  if (dest =? 0) || (src =? 0) || (len =? 0) then Ret (0, m)
  else if negb (is_valid_buffer dest len) || negb (is_valid_buffer src len) then Ret (0, m)
  else if 0x100000 <? len then Ret (0, m)
  else
    let n := Z.to_nat len in
    m' ← (if (dest <? src + len) && (src <? dest + len) then
            if dest <? src then copy_forward m dest src n else copy_backward m dest src n
          else copy_forward m dest src n);
    Ret (dest, m').

(** ** Strings *)
Fixpoint strlen_loop (m : mem) (n : nat) (a : Z) : outcome nat :=
  match n with
  | O => Ret O
  | S n' =>
      if is_valid_pointer a then
        c ← load8 m a;
        if c =? 0 then Ret O else k ← strlen_loop m n' (a + 1); Ret (S k)
      else Ret O
  end.

Definition safe_strlen (m : mem) (str : Z) (max_len : nat) : outcome nat :=
  if (str =? 0) || (max_len =? 0)%nat then Ret O
  else if negb (is_valid_pointer str) then Ret O
  else strlen_loop m max_len str.

Fixpoint strcmp_loop (m : mem) (n : nat) (a b : Z) : outcome Z :=
  match n with
  | O => Ret 0
  | S n' =>
      if negb (is_valid_pointer a) || negb (is_valid_pointer b) then Ret 0
      else
        x ← load8 m a;
        y ← load8 m b;
        if negb (x =? y) then Ret (x - y)
        else if x =? 0 then Ret 0
        else strcmp_loop m n' (a + 1) (b + 1)
  end.

Definition safe_strcmp (m : mem) (a b : Z) (max_len : nat) : outcome Z :=
  if (a =? 0) || (b =? 0) then Ret (if a =? b then 0 else if a =? 0 then -1 else 1)
  else if negb (is_valid_pointer a) || negb (is_valid_pointer b) then Ret 0
  else strcmp_loop m max_len a b.

Fixpoint strncpy_loop (m : mem) (n : nat) (d s : Z) : outcome mem :=
  match n with
  | O => store8 m d 0
  | S n' =>
      if negb (is_valid_pointer s) then store8 m d 0
      else
        c ← load8 m s;
        m' ← store8 m d c;
        if c =? 0 then store8 m' d 0 else strncpy_loop m' n' (d + 1) (s + 1)
  end.

Definition safe_strncpy (m : mem) (dest src dest_size : Z) : outcome (Z * mem) :=
  if (dest =? 0) || (src =? 0) || (dest_size =? 0) then Ret (0, m)
  else if negb (is_valid_buffer dest dest_size) || negb (is_valid_pointer src) then Ret (0, m)
  else m' ← strncpy_loop m (Z.to_nat (dest_size - 1)) dest src; Ret (dest, m').

Fixpoint memcmp_loop (m : mem) (n : nat) (a b : Z) : outcome Z :=
  match n with
  | O => Ret 0
  | S n' =>
      if negb (is_valid_pointer a) || negb (is_valid_pointer b) then Ret 0
      else
        x ← load8 m a;
        y ← load8 m b;
        if negb (x =? y) then Ret (x - y) else memcmp_loop m n' (a + 1) (b + 1)
  end.

Definition safe_memcmp (m : mem) (s1 s2 n : Z) : outcome Z :=
  if (s1 =? 0) || (s2 =? 0) || (n =? 0) then Ret 0
  else if negb (is_valid_buffer s1 n) || negb (is_valid_buffer s2 n) then Ret 0
  else memcmp_loop m (Z.to_nat n) s1 s2.

(** The names the C code uses. *)
Definition memcpy := safe_memcpy.
Definition memset := safe_memset.
Definition strlen (m : mem) (str : Z) : outcome nat := safe_strlen m str 4096.
Definition strcmp (m : mem) (a b : Z) : outcome Z := safe_strcmp m a b 4096.

(** ** Numbers in text *)

(** [while (val > 0 && pos < 15)]: the digits, least significant first. *)
Fixpoint int_digits (room : nat) (val : Z) : list Z :=
  match room with
  | O => []
  | S r => if 0 <? val then 48 + val mod 10 :: int_digits r (val / 10) else []
  end.

(** The text [safe_int_to_str] leaves in a buffer of [buf_size] bytes, without its
    NUL.  The negation of the smallest [int] wraps around. *)
Definition safe_int_to_str (val : Z) (buf_size : nat) : list Z :=
  if (buf_size <? 2)%nat then []
  else
    let is_negative := val <? 0 in
    let val := if is_negative then i32 (- val) else val in
    let temp := if val =? 0 then [48] else int_digits 15 val in
    take (buf_size - 1) ((if is_negative then [45] else []) ++ rev temp).

Inductive va_arg :=
| ArgStr (p : Z)
| ArgInt (v : Z).

(** The buffer being filled: memory and the number of bytes written. *)
Definition emit (str size : Z) (c : Z) (mw : mem * Z) : outcome (mem * Z) :=
  if mw.2 <? size - 1 then m' ← store8 mw.1 (str + mw.2) c; Ret (m', mw.2 + 1) else Ret mw.

Fixpoint emit_all (str size : Z) (cs : list Z) (mw : mem * Z) : outcome (mem * Z) :=
  match cs with [] => Ret mw | c :: cs' => mw' ← emit str size c mw; emit_all str size cs' mw' end.

(** The bytes of the string at [s] while there is room. *)
Fixpoint emit_str (fuel : nat) (str size s : Z) (mw : mem * Z) : outcome (mem * Z) :=
  match fuel with
  | O => Timeout
  | S f =>
      c ← load8 mw.1 s;
      if (c =? 0) || negb (mw.2 <? size - 1) then Ret mw
      else mw' ← emit str size c mw; emit_str f str size (s + 1) mw'
  end.

(** The loop over the format; [safe_snprintf] knows ["%%"] ([pp]), [snprintf] does not.
    Asking for an argument that is not there, or of the other kind, has no defined
    behaviour. *)
Fixpoint format_loop (pp : bool) (str size : Z) (p : list Z) (args : list va_arg) (mw : mem * Z) : outcome (mem * Z) :=
  match p with
  | [] => Ret mw
  | c :: p' =>
      if negb (mw.2 <? size - 1) then Ret mw
      else if (c =? 37) then
        match p' with
        | [] => mw' ← emit str size c mw; format_loop pp str size p' args mw'
        | k :: p'' =>
            if k =? 115 then
              match args with
              | ArgStr s :: args' =>
                  ok ← (if s =? 0 then Ret false else is_valid_string mw.1 s 1024);
                  mw' ← (if ok : bool then emit_str (Z.to_nat size) str size s mw else Ret mw);
                  format_loop pp str size p'' args' mw'
              | _ => Fault
              end
            else if k =? 100 then
              match args with
              | ArgInt v :: args' =>
                  mw' ← emit_all str size (safe_int_to_str v 16) mw;
                  format_loop pp str size p'' args' mw'
              | _ => Fault
              end
            else if pp && (k =? 37) then mw' ← emit str size 37 mw; format_loop pp str size p'' args mw'
            else mw' ← emit_all str size [37; k] mw; format_loop pp str size p'' args mw'
        end
      else mw' ← emit str size c mw; format_loop pp str size p' args mw'
  end.

Definition vformat (pp : bool) (m : mem) (str size : Z) (format : list Z) (args : list va_arg) : outcome (Z * mem) :=
  '(m, written) ← format_loop pp str size format args (m, 0);
  m ← store8 m (str + written) 0;
  Ret (i32 written, m).

(** The format is a literal of the image, so its own checks pass. *)
Definition safe_snprintf (m : mem) (str size : Z) (format : list Z) (args : list va_arg) : outcome (Z * mem) :=
  if (str =? 0) || (size =? 0) then Ret (-1, m)
  else if negb (is_valid_buffer str size) then Ret (-1, m)
  else vformat true m str size format args.

Definition snprintf (m : mem) (str size : Z) (format : list Z) (args : list va_arg) : outcome (Z * mem) :=
  if (str =? 0) || (size =? 0) then Ret (-1, m) else vformat false m str size format args.

(** At most ten digits; the value wraps around. *)
Fixpoint str_to_int_loop (m : mem) (n digits : nat) (s val : Z) : outcome (nat * Z * Z) :=
  match n with
  | O => Ret (digits, s, val)
  | S n' =>
      c ← load8 m s;
      if (48 <=? c) && (c <=? 57) then
        if negb (is_valid_pointer s) then Ret (digits, s, val)
        else str_to_int_loop m n' (S digits) (s + 1) (i32 (val * 10 + (c - 48)))
      else Ret (digits, s, val)
  end.

(** The value and the address behind it, when there is a digit. *)
Definition safe_str_to_int (m : mem) (p : Z) : outcome (option (Z * Z)) :=
  if negb (is_valid_pointer p) then Ret None
  else
    '(digits, s, val) ← str_to_int_loop m 10 0 p 0;
    Ret (if (digits =? 0)%nat then None else Some (val, s)).

(** Numbers separated by dots: the values stored, and whether all [n] were there.  What
    was stored before an error stays stored. *)
Fixpoint dotted (m : mem) (n : nat) (p : Z) : outcome (list Z * bool) :=
  match n with
  | O => Ret ([], true)
  | S n' =>
      r ← safe_str_to_int m p;
      match r with
      | None => Ret ([], false)
      | Some (v, q) =>
          if (n' =? 0)%nat then Ret ([v], true)
          else
            c ← load8 m q;
            if negb (c =? 46) then Ret ([v], false)
            else '(vs, ok) ← dotted m n' (q + 1); Ret (v :: vs, ok)
      end
  end.

Definition safe_sscanf_ipv4 (m : mem) (str : Z) : outcome (list Z * Z) :=
  if str =? 0 then Ret ([], 0)
  else
    ok ← is_valid_string m str 256;
    if negb ok then Ret ([], 0)
    else
      '(vs, ok) ← dotted m 4 str;
      Ret (vs, if ok && forallb (fun v => negb ((v <? 0) || (255 <? v))) vs then 4 else 0).

Definition sscanf (m : mem) (str : Z) (format : list Z) : outcome (list Z * Z) :=
  if str =? 0 then Ret ([], 0)
  else if bool_decide (format = bytes "%d.%d.%d.%d") then safe_sscanf_ipv4 m str
  else Ret ([], 0).

(** ** Ranges the checks accept *)
Definition valid_range (a : Z) (n : nat) : Prop :=
  forall i, (i < n)%nat -> is_valid_pointer (a + Z.of_nat i) = true.

Lemma valid_range_S a n : valid_range a (S n) <-> is_valid_pointer a = true /\ valid_range (a + 1) n.
Proof.
  split.
  - intros H. split; [specialize (H O); rewrite Z.add_0_r in H; apply H; lia|]. intros i Hi.
    replace (a + 1 + Z.of_nat i) with (a + Z.of_nat (S i)) by lia. apply H. lia.
  - intros [H0 H] [|i] Hi; [by rewrite Z.add_0_r|]. replace (a + Z.of_nat (S i)) with (a + 1 + Z.of_nat i) by lia. apply H. lia.
Qed.

Lemma valid_range_app a n k : valid_range a (n + k) <-> valid_range a n /\ valid_range (a + Z.of_nat n) k.
Proof.
  split.
  - intros H. split; intros i Hi; [apply H; lia|]. replace (a + Z.of_nat n + Z.of_nat i) with (a + Z.of_nat (n + i)) by lia. apply H. lia.
  - intros [H1 H2] i Hi. destruct (decide (i < n)%nat); [by apply H1|].
    replace (a + Z.of_nat i) with (a + Z.of_nat n + Z.of_nat (i - n)) by lia. apply H2. lia.
Qed.

Lemma is_valid_pointer_spec a :
  is_valid_pointer a = true <->
  a <> 0 /\ (kernel_start im <= a < kernel_end im \/ kernel_end im <= a < 512 * 1024 * 1024 \/ 0x1000 <= a < 0x100000).
Proof. unfold is_valid_pointer. repeat case_match; lia. Qed.

Lemma is_valid_buffer_range a n :
  image_ok im -> (0 < n)%nat -> Z.of_nat n <= 0x100000 -> valid_range a n -> is_valid_buffer a (Z.of_nat n) = true.
Proof.
  intros [H1 H2] Hn Hl H. pose proof (H O ltac:(lia)) as Ha. pose proof (H (n - 1)%nat ltac:(lia)) as Hb.
  rewrite Z.add_0_r in Ha. replace (a + Z.of_nat (n - 1)) with (a + Z.of_nat n - 1) in Hb by lia.
  pose proof (proj1 (is_valid_pointer_spec _) Ha). pose proof (proj1 (is_valid_pointer_spec _) Hb). unfold is_valid_buffer.
  rewrite Ha, (wrap_small 64), Hb by lia.
  rewrite (proj2 (Z.eqb_neq a 0)), (proj2 (Z.eqb_neq (Z.of_nat n) 0)), (proj2 (Z.ltb_ge _ _)) by lia. done.
Qed.

(** Memory above the kernel's start, or in the first megabyte, is accepted. *)
Lemma valid_range_kernel a n :
  image_ok im -> kernel_start im <= a -> a + Z.of_nat n <= 512 * 1024 * 1024 -> valid_range a n.
Proof. intros [H1 H2] Ha Hn i Hi. apply is_valid_pointer_spec. lia. Qed.

Lemma valid_range_low a n : 0x1000 <= a -> a + Z.of_nat n <= 0x100000 -> valid_range a n.
Proof. intros Ha Hn i Hi. apply is_valid_pointer_spec. lia. Qed.

(** ** Copying *)
Lemma memset_checked_ok m d v n : valid_range d n -> memset_checked m d (u8 v) n = memset_loop m d v n.
Proof.
  revert m d. induction n as [|n IH]; intros m d H; [done|]. apply valid_range_S in H as [H0 H].
  cbn [memset_checked memset_loop]. rewrite H0. cbn [negb]. destruct (store8 _ _ _); step_ret; [|done..]. by apply IH.
Qed.

Lemma copy_forward_ok m d s n : valid_range d n -> valid_range s n -> copy_forward m d s n = memcpy_loop m d s n.
Proof.
  revert m d s. induction n as [|n IH]; intros m d s Hd Hs; [done|].
  apply valid_range_S in Hd as [Hd0 Hd]. apply valid_range_S in Hs as [Hs0 Hs].
  cbn [copy_forward memcpy_loop]. rewrite Hd0, Hs0. cbn [negb orb]. destruct (load8 _ _); step_ret; [|done..].
  destruct (store8 _ _ _); step_ret; [|done..]. by apply IH.
Qed.

Lemma patched_snoc m a l b m' :
  patched (<[a + Z.of_nat (length l) := b]> m) a l m' -> patched m a (l ++ [b]) m'.
Proof.
  intros H x. rewrite (H x). destruct (decide (x = a + Z.of_nat (length l))) as [->|Hne].
  - rewrite lookup_insert_eq. replace (Z.to_nat (a + Z.of_nat (length l) - a)) with (length l) by lia.
    rewrite (lookup_ge_None_2 l) by lia. rewrite lookup_app_r, Nat.sub_diag by lia. cbn.
    rewrite (proj2 (Z.leb_le _ _)) by lia. done.
  - rewrite lookup_insert_ne by done. destruct (l !! Z.to_nat (x - a)) eqn:E.
    + by rewrite (lookup_app_l_Some _ _ _ _ E).
    + destruct ((l ++ [b]) !! Z.to_nat (x - a)) eqn:E'; [|done].
      destruct (Z.leb_spec a x); [|done]. apply lookup_lt_Some in E'. rewrite length_app in E'. cbn in E'.
      apply lookup_ge_None in E. lia.
Qed.

Lemma copy_backward_ok m d s l :
  valid_range d (length l) -> valid_range s (length l) -> bytes_at m s l -> mapped m d (length l) -> s <= d ->
  exists m', copy_backward m d s (length l) = Ret m' /\ patched m d l m'.
Proof.
  revert m. induction l as [|b l IH] using rev_ind; intros m Hvd Hvs Hs Hd Hle; [by exists m; split|].
  rewrite length_app, Nat.add_comm in Hvd, Hvs, Hd |- *. cbn [length Nat.add] in Hvd, Hvs, Hd |- *. cbn [copy_backward].
  rewrite Hvd, Hvs by lia. cbn [negb orb].
  apply bytes_at_app in Hs as [Hs Hb]. apply bytes_at_cons in Hb as [Hb _].
  unfold load8 at 1. rewrite Hb. step_ret. destruct (Hd (length l) ltac:(lia)) as [b0 Hb0]. unfold store8. rewrite Hb0. step_ret.
  destruct (IH (<[d + Z.of_nat (length l) := b]> m)) as (m' & E & Hp).
  - intros i Hi. apply Hvd. lia.
  - intros i Hi. apply Hvs. lia.
  - eapply bytes_at_ext; [exact Hs|]. intros x Hx. rewrite lookup_insert_ne by lia. done.
  - intros i Hi. rewrite lookup_insert_ne by lia. apply Hd. lia.
  - done.
  - exists m'. split; [exact E|]. by apply patched_snoc.
Qed.

Lemma memcpy_ok m dest src l :
  image_ok im -> (0 < length l)%nat -> Z.of_nat (length l) <= 0x100000 ->
  valid_range dest (length l) -> valid_range src (length l) -> bytes_at m src l -> mapped m dest (length l) ->
  exists m', memcpy m dest src (Z.of_nat (length l)) = Ret (dest, m') /\ patched m dest l m'.
Proof.
  intros Him Hn Hl Hvd Hvs Hs Hd. unfold memcpy, safe_memcpy.
  assert (dest <> 0 /\ src <> 0) as [Hd0 Hs0].
  { pose proof (Hvd O Hn) as Ha. pose proof (Hvs O Hn) as Hb. rewrite Z.add_0_r in Ha, Hb.
    apply is_valid_pointer_spec in Ha. apply is_valid_pointer_spec in Hb. lia. }
  rewrite (proj2 (Z.eqb_neq dest 0) Hd0), (proj2 (Z.eqb_neq src 0) Hs0), (proj2 (Z.eqb_neq (Z.of_nat (length l)) 0)) by lia.
  rewrite !is_valid_buffer_range, (proj2 (Z.ltb_ge _ _)), Nat2Z.id by (done || lia). cbn [orb negb].
  assert (dest <= src \/ src + Z.of_nat (length l) <= dest ->
    exists m', (m' ← copy_forward m dest src (length l); Ret (dest, m')) = Ret (dest, m') /\ patched m dest l m') as Hf.
  { intros Ho. rewrite copy_forward_ok by done. destruct (memcpy_loop_ok m dest src l Hs Hd Ho) as (m' & -> & Hp). by exists m'. }
  destruct ((dest <? _) && _) eqn:Eo; [destruct (Z.ltb_spec dest src)|].
  - apply Hf. lia.
  - destruct (copy_backward_ok m dest src l) as (m' & -> & Hp); [done..|]. by exists m'.
  - apply Hf. lia.
Qed.

Lemma memset_ok m dest v n :
  image_ok im -> (0 < n)%nat -> Z.of_nat n <= 0x100000 -> valid_range dest n -> mapped m dest n ->
  exists m', memset m dest v (Z.of_nat n) = Ret (dest, m') /\ patched m dest (replicate n (u8 v)) m'.
Proof.
  intros Him Hn Hl Hvd Hd. unfold memset, safe_memset.
  assert (dest <> 0) as Hd0 by (pose proof (Hvd O Hn) as Ha; rewrite Z.add_0_r in Ha; apply is_valid_pointer_spec in Ha; lia).
  rewrite (proj2 (Z.eqb_neq dest 0) Hd0), (proj2 (Z.eqb_neq (Z.of_nat n) 0)), is_valid_buffer_range, (proj2 (Z.ltb_ge _ _)), Nat2Z.id by (done || lia).
  cbn [orb negb]. rewrite memset_checked_ok by done. destruct (memset_loop_ok m dest v n Hd) as (m' & -> & Hp). by exists m'.
Qed.

(** ** Strings *)

(** A string the checks accept, with fewer than [max] bytes. *)
Definition text_at (m : mem) (p : Z) (s : list Z) (max : nat) : Prop :=
  cstr_at m p s /\ (length s < max)%nat /\ valid_range p (S (length s)).

Lemma text_at_cons m p c s max :
  text_at m p (c :: s) (S max) -> is_valid_pointer p = true /\ m !! p = Some c /\ c <> 0 /\ text_at m (p + 1) s max.
Proof.
  intros [[Hn Hb] [Hl Hv]]. cbn [length] in *. apply valid_range_S in Hv as [Hv0 Hv]. cbn [app] in Hb.
  apply bytes_at_cons in Hb as [Hb0 Hb]. apply Forall_cons in Hn as [Hc Hn]. split_and!; [done..|]. split; [by split|]. split; [lia|done].
Qed.

Lemma text_at_nil m p max : text_at m p [] max -> is_valid_pointer p = true /\ m !! p = Some 0.
Proof.
  intros [[Hn Hb] [Hl Hv]]. cbn [length app] in *. apply valid_range_S in Hv as [Hv0 Hv]. apply bytes_at_cons in Hb as [Hb0 Hb]. done.
Qed.

Lemma text_at_pos m p s max : text_at m p s max -> p <> 0 /\ is_valid_pointer p = true.
Proof.
  intros [_ [_ Hv]]. apply valid_range_S in Hv as [Hv _]. split; [apply is_valid_pointer_spec in Hv; lia|done].
Qed.

Lemma text_at_more m p s max max' : (max <= max')%nat -> text_at m p s max -> text_at m p s max'.
Proof. intros H [H1 [H2 H3]]. split; [done|]. split; [lia|done]. Qed.

Lemma text_at_ext m m' p s max :
  text_at m p s max -> (forall x, p <= x <= p + Z.of_nat (length s) -> m' !! x = m !! x) -> text_at m' p s max.
Proof.
  intros [[Hn Hb] H] Hx. split; [|done]. split; [done|]. eapply bytes_at_ext; [exact Hb|].
  intros x Hr. rewrite length_app in Hr. cbn in Hr. apply Hx. lia.
Qed.

Lemma is_valid_string_ok m p s max : text_at m p s max -> is_valid_string m p max = Ret true.
Proof.
  intros H. unfold is_valid_string. rewrite (proj2 (text_at_pos _ _ _ _ H)). cbn [negb].
  revert p max H. induction s as [|c s IH]; intros p [|max] H; [destruct H as [_ [H _]]; cbn in H; lia| |destruct H as [_ [H _]]; cbn in H; lia|].
  - apply text_at_nil in H as [Hv H]. cbn [valid_string_loop]. unfold load8. rewrite Hv, H. done.
  - apply text_at_cons in H as (Hv & H & Hc & Hs). cbn [valid_string_loop]. unfold load8. rewrite Hv, H. cbn [negb deref]. step_ret.
    rewrite (proj2 (Z.eqb_neq _ _) Hc). by apply IH.
Qed.

Lemma strlen_ok m p s max : text_at m p s max -> safe_strlen m p max = Ret (length s).
Proof.
  intros H. unfold safe_strlen. destruct (text_at_pos _ _ _ _ H) as [Hp Hv]. rewrite (proj2 (Z.eqb_neq p 0) Hp), Hv.
  destruct (Nat.eqb_spec max 0); [destruct H as [_ [H _]]; lia|]. cbn [negb orb]. clear Hp Hv n.
  revert p max H. induction s as [|c s IH]; intros p [|max] H; [destruct H as [_ [H _]]; cbn in H; lia| |destruct H as [_ [H _]]; cbn in H; lia|].
  - apply text_at_nil in H as [Hv H]. cbn [strlen_loop]. unfold load8. rewrite Hv, H. done.
  - apply text_at_cons in H as (Hv & H & Hc & Hs). cbn [strlen_loop]. unfold load8. rewrite Hv, H. cbn [deref]. step_ret.
    rewrite (proj2 (Z.eqb_neq _ _) Hc), (IH _ _ Hs). done.
Qed.

Lemma strcmp_loop_ok m a b s t max :
  text_at m a s max -> text_at m b t max -> exists r, strcmp_loop m max a b = Ret r /\ (r = 0 <-> s = t).
Proof.
  revert a b t max. induction s as [|c s IH]; intros a b t [|max] Hs Ht; [destruct Hs as [_ [Hs _]]; cbn in Hs; lia| |destruct Hs as [_ [Hs _]]; cbn in Hs; lia|].
  - apply text_at_nil in Hs as [Hv Hm]. destruct t as [|d t].
    + apply text_at_nil in Ht as [Hv' Hm']. cbn [strcmp_loop]. unfold load8. rewrite Hv, Hv', Hm, Hm'. by exists 0.
    + apply text_at_cons in Ht as (Hv' & Hm' & Hd & Ht). cbn [strcmp_loop]. unfold load8. rewrite Hv, Hv', Hm, Hm'. cbn [negb orb deref]. step_ret.
      rewrite (proj2 (Z.eqb_neq 0 d)) by done. exists (0 - d). split; [done|]. split; [lia|done].
  - apply text_at_cons in Hs as (Hv & Hm & Hc & Hs). destruct t as [|d t].
    + apply text_at_nil in Ht as [Hv' Hm']. cbn [strcmp_loop]. unfold load8. rewrite Hv, Hv', Hm, Hm'. cbn [negb orb deref]. step_ret.
      rewrite (proj2 (Z.eqb_neq c 0)) by done. exists (c - 0). split; [done|]. split; [lia|done].
    + apply text_at_cons in Ht as (Hv' & Hm' & Hd & Ht). cbn [strcmp_loop]. unfold load8. rewrite Hv, Hv', Hm, Hm'. cbn [negb orb deref]. step_ret.
      destruct (Z.eqb_spec c d) as [->|Hne]; cbn [negb].
      * rewrite (proj2 (Z.eqb_neq d 0)) by done. destruct (IH _ _ _ _ Hs Ht) as (r & E & Hr). exists r. split; [done|].
        rewrite Hr. split; [by intros ->|by intros [= ->]].
      * exists (c - d). split; [done|]. split; [lia|by intros [= ->]].
Qed.

(** [strcmp] decides the equality of two strings. *)
Lemma strcmp_ok m a b s t :
  text_at m a s 4096 -> text_at m b t 4096 -> exists r, strcmp m a b = Ret r /\ (r = 0 <-> s = t).
Proof.
  intros Hs Ht. unfold strcmp, safe_strcmp. destruct (text_at_pos _ _ _ _ Hs) as [Ha Hva]. destruct (text_at_pos _ _ _ _ Ht) as [Hb Hvb].
  rewrite (proj2 (Z.eqb_neq a 0) Ha), (proj2 (Z.eqb_neq b 0) Hb), Hva, Hvb. by apply strcmp_loop_ok.
Qed.

(** ** Printing *)

(** What printing [cs] into a buffer of [size] bytes with [w] written adds. *)
Definition fits (size w : Z) (cs : list Z) : list Z := take (Z.to_nat (size - 1 - w)) cs.

Lemma patched_nil m a : patched m a [] m.
Proof. by intros x. Qed.

Lemma patched_app m m1 m2 a l r :
  patched m a l m1 -> patched m1 (a + Z.of_nat (length l)) r m2 -> patched m a (l ++ r) m2.
Proof.
  intros H1 H2 x. rewrite (H2 x), (H1 x). destruct (decide (x < a + Z.of_nat (length l))) as [Hlt|Hge].
  - rewrite (proj2 (Z.leb_gt (a + Z.of_nat (length l)) x)) by lia. destruct (Z.leb_spec a x).
    + rewrite (lookup_app_l l r) by lia. by destruct (r !! _).
    + by destruct (r !! _), (l !! _), ((l ++ r) !! _).
  - rewrite (proj2 (Z.leb_le (a + Z.of_nat (length l)) x)), (proj2 (Z.leb_le a x)) by lia.
    rewrite (lookup_ge_None_2 l) by lia. rewrite lookup_app_r by lia.
    replace (Z.to_nat (x - a) - length l)%nat with (Z.to_nat (x - (a + Z.of_nat (length l)))) by lia. done.
Qed.

Lemma emit_ok m str size w c :
  mapped m str (Z.to_nat size) -> 0 <= w ->
  exists m', emit str size c (m, w) = Ret (m', w + Z.of_nat (length (fits size w [c]))) /\ patched m (str + w) (fits size w [c]) m'.
Proof.
  intros Hm Hw. unfold emit, fits. cbn [fst snd]. destruct (Z.ltb_spec w (size - 1)).
  - destruct (Hm (Z.to_nat w)) as [b Hb]; [lia|]. rewrite Z2Nat.id in Hb by done. unfold store8. rewrite Hb. step_ret.
    rewrite take_ge by (cbn; lia). eexists. split; [done|]. intros x. destruct (decide (x = str + w)) as [->|Hne].
    + rewrite lookup_insert_eq, Z.sub_diag. cbn. by rewrite Z.leb_refl.
    + rewrite lookup_insert_ne by done. destruct ([c] !! Z.to_nat (x - (str + w))) eqn:E; [|done].
      apply lookup_lt_Some in E. cbn in E. by rewrite (proj2 (Z.leb_gt _ _)) by lia.
  - replace (Z.to_nat (size - 1 - w)) with 0%nat by lia. rewrite take_0. exists m. split; [f_equal; f_equal; cbn; lia|apply patched_nil].
Qed.

Lemma fits_mapped m str size w cs : mapped m str (Z.to_nat size) -> 0 <= w -> mapped m (str + w) (length (fits size w cs)).
Proof.
  intros Hm Hw i Hi. unfold fits in Hi. rewrite length_take in Hi. replace (str + w + Z.of_nat i) with (str + Z.of_nat (Z.to_nat w + i)) by lia.
  apply Hm. lia.
Qed.

Lemma fits_app size w l r : 0 <= w -> fits size w (l ++ r) = fits size w l ++ fits size (w + Z.of_nat (length (fits size w l))) r.
Proof.
  intros Hw. unfold fits. rewrite take_app. f_equal. rewrite length_take.
  destruct (decide (length l <= Z.to_nat (size - 1 - w))%nat); [f_equal; lia|].
  replace (Z.to_nat (size - 1 - w) - length l)%nat with O by lia.
  replace (Z.to_nat (size - 1 - _)) with O by lia. done.
Qed.

(** A piece of printing: it adds what fits of [cs]. *)
Definition prints (str size w : Z) (cs : list Z) (m : mem) (o : outcome (mem * Z)) : Prop :=
  exists m', o = Ret (m', w + Z.of_nat (length (fits size w cs))) /\ patched m (str + w) (fits size w cs) m'.

Lemma prints_bind str size w cs ds m o k :
  mapped m str (Z.to_nat size) -> 0 <= w -> prints str size w cs m o ->
  (forall m' w', 0 <= w' -> mapped m' str (Z.to_nat size) -> patched m (str + w) (fits size w cs) m' -> prints str size w' ds m' (k (m', w'))) ->
  prints str size w (cs ++ ds) m (o ≫= k).
Proof.
  intros Hm Hw (m1 & -> & Hp1) Hk. step_ret.
  destruct (Hk m1 (w + Z.of_nat (length (fits size w cs)))) as (m2 & E & Hp2); [lia| |done|].
  { eapply patched_mapped; [exact Hp1|by apply fits_mapped|done]. }
  exists m2. rewrite fits_app, length_app by done. split; [rewrite E; f_equal; f_equal; lia|].
  eapply patched_app; [exact Hp1|]. by rewrite Z.add_assoc in Hp2.
Qed.

Lemma emit_all_prints str size cs m w :
  mapped m str (Z.to_nat size) -> 0 <= w -> prints str size w cs m (emit_all str size cs (m, w)).
Proof.
  revert m w. induction cs as [|c cs IH]; intros m w Hm Hw; cbn [emit_all].
  - exists m. unfold fits. rewrite take_nil. split; [f_equal; f_equal; cbn; lia|apply patched_nil].
  - apply (prints_bind _ _ _ [c]); [done..| |]; [by apply emit_ok|]. intros m' w' Hw' Hm' _. by apply IH.
Qed.

Lemma emit_str_prints str size p s m w fuel :
  mapped m str (Z.to_nat size) -> 0 <= w -> cstr_at m p s ->
  (p + Z.of_nat (length s) < str \/ str + size <= p) -> (Z.to_nat (size - 1 - w) < fuel)%nat ->
  prints str size w s m (emit_str fuel str size p (m, w)).
Proof.
  revert p s m w. induction fuel as [|f IH]; intros p s m w Hm Hw [Hn Hb] Ho Hf; [lia|]. cbn [emit_str fst snd].
  destruct s as [|c s].
  - apply bytes_at_cons in Hb as [Hb _]. unfold load8. rewrite Hb. cbn [deref]. step_ret. cbn [Z.eqb orb].
    exists m. unfold fits. rewrite take_nil. split; [f_equal; f_equal; cbn; lia|apply patched_nil].
  - apply bytes_at_cons in Hb as [Hb Hr]. apply Forall_cons in Hn as [Hc Hn]. cbn [length] in Ho.
    unfold load8. rewrite Hb. cbn [deref]. step_ret. rewrite (proj2 (Z.eqb_neq c 0) Hc). cbn [orb].
    destruct (Z.ltb_spec w (size - 1)); cbn [negb].
    + destruct (emit_ok m str size w c Hm Hw) as (m1 & E & Hp). rewrite E. step_ret.
      assert (fits size w [c] = [c]) as Ef by (unfold fits; rewrite take_ge; [done|cbn; lia]). rewrite Ef in *.
      destruct (IH (p + 1) s m1 (w + 1)) as (m2 & E2 & Hp2); [|lia| |lia|lia|].
      * eapply patched_mapped; [exact Hp| |done]. rewrite <- Ef. by apply fits_mapped.
      * split; [done|]. eapply bytes_at_ext; [exact Hr|]. intros x Hx. eapply patched_outside; [exact Hp|].
        rewrite length_app in Hx. cbn in *. lia.
      * exists m2. change (c :: s) with ([c] ++ s). rewrite fits_app, Ef, length_app by done. cbn [length]. change (Z.of_nat 1) with 1. rewrite E2.
        split; [f_equal; f_equal; lia|]. eapply patched_app; [exact Hp|]. cbn [length]. by rewrite Z.add_assoc in Hp2.
    + exists m. unfold fits. replace (Z.to_nat (size - 1 - w)) with O by lia. rewrite take_0. split; [f_equal; f_equal; cbn; lia|apply patched_nil].
Qed.

(** What a format stands for, the contents of string arguments given by [text]. *)
Fixpoint render (text : Z -> list Z) (pp : bool) (p : list Z) (args : list va_arg) : option (list Z) :=
  match p with
  | [] => Some []
  | c :: p' =>
      if c =? 37 then
        match p' with
        | [] => Some [c]
        | k :: p'' =>
            if k =? 115 then
              match args with ArgStr s :: args' => app (text s) <$> render text pp p'' args' | _ => None end
            else if k =? 100 then
              match args with ArgInt v :: args' => app (safe_int_to_str v 16) <$> render text pp p'' args' | _ => None end
            else if pp && (k =? 37) then cons 37 <$> render text pp p'' args
            else app [37; k] <$> render text pp p'' args
        end
      else cons c <$> render text pp p' args
  end.

(** A string argument: NULL prints nothing, a string must lie outside the buffer. *)
Definition arg_ok (text : Z -> list Z) (m : mem) (str size : Z) (a : va_arg) : Prop :=
  match a with
  | ArgInt _ => True
  | ArgStr s =>
      (s = 0 /\ text s = []) \/
      (text_at m s (text s) 1024 /\ (s + Z.of_nat (length (text s)) < str \/ str + size <= s))
  end.

Lemma arg_ok_patched text m str size w l m' a :
  arg_ok text m str size a -> 0 <= w -> w + Z.of_nat (length l) <= size -> patched m (str + w) l m' -> arg_ok text m' str size a.
Proof.
  intros H Hw Hl Hp. destruct a as [s|v]; [|done]. destruct H as [H|[H Ho]]; [by left|]. right. split; [|done].
  eapply text_at_ext; [exact H|]. intros x Hx. eapply patched_outside; [exact Hp|]. lia.
Qed.

Lemma full_prints str size w cs m : 0 <= w -> size - 1 <= w -> prints str size w cs m (Ret (m, w)).
Proof.
  intros Hw Hs. exists m. unfold fits. replace (Z.to_nat (size - 1 - w)) with O by lia. rewrite take_0.
  split; [f_equal; f_equal; cbn; lia|apply patched_nil].
Qed.

Lemma fits_bound size w cs : 0 <= w < size -> w + Z.of_nat (length (fits size w cs)) <= size.
Proof. intros H. unfold fits. rewrite length_take. lia. Qed.

(** After printing [cs] the arguments are still what they were. *)
Lemma args_patched text str size w cs m m' args :
  0 <= w < size -> Forall (arg_ok text m str size) args -> patched m (str + w) (fits size w cs) m' -> Forall (arg_ok text m' str size) args.
Proof. intros Hw Ha Hp. eapply Forall_impl; [exact Ha|]. intros a H. exact (arg_ok_patched text m str size w _ m' a H (proj1 Hw) (fits_bound size w cs Hw) Hp). Qed.

Lemma format_loop_prints text pp str size p args m w cs :
  0 <= w -> mapped m str (Z.to_nat size) -> Forall (arg_ok text m str size) args -> render text pp p args = Some cs ->
  prints str size w cs m (format_loop pp str size p args (m, w)).
Proof.
  revert args m w cs. induction p as [p IH] using (induction_ltof1 _ length); unfold ltof in IH.
  intros args m w cs Hw Hm Ha Hr. destruct p as [|c p]; cbn [format_loop render fst snd] in *.
  { injection Hr as <-. by apply (emit_all_prints _ _ []). }
  destruct (Z.ltb_spec w (size - 1)); cbn [negb]; [|by apply full_prints].
  assert (forall p' ds e o, (length p' < S (length p))%nat -> app ds <$> render text pp p' e = Some cs -> Forall (arg_ok text m str size) e ->
    prints str size w ds m o -> prints str size w cs m (mw' ← o; format_loop pp str size p' e mw')) as Hgo.
  { intros p' ds e o Hl Hr' He Ho. apply fmap_Some in Hr' as (es & Er & ->). eapply prints_bind; [done..|].
    intros m' w' Hw' Hm' Hp. apply (IH p'); [cbn; lia|done|done| |done]. eapply args_patched; [|done|exact Hp]. lia. }
  destruct (c =? 37); [destruct p as [|k p]|].
  - injection Hr as <-. apply (Hgo [] [c] args); [cbn; lia|done|done|]. by apply emit_ok.
  - cbn [length] in Hgo. destruct (k =? 115); [|destruct (k =? 100); [|destruct (pp && _)]].
    + destruct args as [|[s|v] args]; [done| |done]. apply Forall_cons in Ha as [Hs Ha].
      destruct Hs as [[-> Ht]|[Ht Ho]].
      * cbn [Z.eqb]. step_ret. apply (Hgo p (text 0) args (Ret (m, w))); [lia|done..|]. rewrite Ht. by apply (emit_all_prints _ _ []).
      * rewrite (proj2 (Z.eqb_neq s 0)) by apply (text_at_pos _ _ _ _ Ht). rewrite (is_valid_string_ok _ _ _ _ Ht). step_ret.
        apply (Hgo p (text s)); [lia|done..|]. apply emit_str_prints; [done|done|apply Ht|done|lia].
    + destruct args as [|[s|v] args]; [done..|]. apply Forall_cons in Ha as [Hs Ha].
      apply (Hgo p (safe_int_to_str v 16)); [lia|done..|]. by apply emit_all_prints.
    + apply (Hgo p [37]); [lia|done..|]. by apply emit_ok.
    + apply (Hgo p [37; k]); [lia|done..|]. by apply emit_all_prints.
  - apply (Hgo p [c]); [lia|done..|]. by apply emit_ok.
Qed.

Lemma vformat_ok text pp m str size format args cs :
  0 < size < 2 ^ 31 -> mapped m str (Z.to_nat size) -> Forall (arg_ok text m str size) args -> render text pp format args = Some cs ->
  let out := take (Z.to_nat (size - 1)) cs in
  exists m', vformat pp m str size format args = Ret (Z.of_nat (length out), m') /\ patched m str (out ++ [0]) m'.
Proof.
  intros Hs Hm Ha Hr out. unfold vformat. destruct (format_loop_prints text pp str size format args m 0 cs) as (m1 & E & Hp); [done..|].
  rewrite E. step_ret. unfold fits in *. rewrite Z.sub_0_r in *. fold out in Hp |- *. rewrite Z.add_0_r in Hp. rewrite Z.add_0_l.
  assert (length out < Z.to_nat size)%nat as Hl by (unfold out; rewrite length_take; lia).
  assert (mapped m1 str (Z.to_nat size)) as Hm1 by (eapply patched_mapped; [exact Hp| |done]; intros i Hi; apply Hm; lia).
  destruct (Hm1 (length out) Hl) as [b Hb]. unfold store8. rewrite Hb. step_ret. rewrite swrap_small by lia.
  eexists. split; [done|]. eapply patched_app; [exact Hp|]. intros x. destruct (decide (x = str + Z.of_nat (length out))) as [->|Hne].
  - rewrite lookup_insert_eq, Z.sub_diag. cbn. by rewrite Z.leb_refl.
  - rewrite lookup_insert_ne by done. destruct ([0] !! _) eqn:El; [|done]. apply lookup_lt_Some in El. cbn in El.
    by rewrite (proj2 (Z.leb_gt _ _)) by lia.
Qed.

(** ** Numbers *)
Lemma int_digits_loop room v : 0 <= v < 10 ^ Z.of_nat room -> digit_loop room v = Ret (int_digits room v).
Proof.
  revert v. induction room as [|r IH]; intros v Hv; cbn [digit_loop int_digits].
  - rewrite (proj2 (Z.leb_le v 0)) by (cbn in Hv; lia). done.
  - destruct (Z.leb_spec v 0); [by rewrite (proj2 (Z.ltb_ge _ _)) by lia|]. rewrite (proj2 (Z.ltb_lt 0 v)) by done.
    rewrite IH; [done|]. rewrite Nat2Z.inj_succ, Z.pow_succ_r in Hv by lia.
    split; [apply Z.div_pos; lia|apply Z.div_lt_upper_bound; lia].
Qed.

(** A number below 2^31 prints as its decimal digits. *)
Lemma int_to_str_digits v :
  0 <= v < 2 ^ 31 ->
  let ds := safe_int_to_str v 16 in
  Forall is_digit ds /\ (0 < length ds <= 10)%nat /\ dec_value ds = v.
Proof.
  intros Hv ds. assert (dec_digits 15 v = Ret ds) as E.
  { assert (safe_int_to_str v 16 = take 15 (rev (if v =? 0 then [48] else int_digits 15 v))) as Es.
    { unfold safe_int_to_str. cbn [Nat.ltb Nat.leb]. by rewrite (proj2 (Z.ltb_ge v 0)) by lia. }
    unfold ds. rewrite Es. unfold dec_digits. destruct (v =? 0); [done|]. rewrite int_digits_loop by (cbn; lia). step_ret.
    destruct (digit_loop_ok 15 v) as (l & El & Hl & _); [cbn; lia|]. rewrite int_digits_loop in El by (cbn; lia). apply Ret_inj in El. subst l.
    rewrite take_ge by (rewrite length_rev; lia). done. }
  destruct (dec_digits_ok 10 v) as (ds' & E' & Hl & Hd & Hval); [lia|cbn; lia|].
  pose proof (dec_digits_more 10 15 v ds' ltac:(lia) E') as E''. rewrite E in E''. apply Ret_inj in E''. subst ds'. done.
Qed.

Lemma swrap_step x d : i32 (i32 x * 10 + d) = i32 (x * 10 + d).
Proof.
  unfold swrap. f_equal.
  replace (((x + 2 ^ (32 - 1)) mod 2 ^ 32 - 2 ^ (32 - 1)) * 10 + d + 2 ^ (32 - 1))
    with ((x + 2 ^ (32 - 1)) mod 2 ^ 32 * 10 + (d - 2 ^ (32 - 1) * 9)) by lia.
  replace (x * 10 + d + 2 ^ (32 - 1)) with ((x + 2 ^ (32 - 1)) * 10 + (d - 2 ^ (32 - 1) * 9)) by lia.
  rewrite (Z.add_mod ((x + 2 ^ (32 - 1)) * 10)), (Z.mul_mod (x + 2 ^ (32 - 1))) by lia.
  rewrite (Z.add_mod ((x + 2 ^ (32 - 1)) mod 2 ^ 32 * 10)), (Z.mul_mod ((x + 2 ^ (32 - 1)) mod 2 ^ 32)), Z.mod_mod by lia. done.
Qed.

(** Up to ten digits are read, and their value wraps around. *)
Lemma str_to_int_loop_ok m ds c s n k v :
  Forall is_digit ds -> (length ds < n)%nat -> bytes_at m s (ds ++ [c]) -> ~ is_digit c -> valid_range s (length ds) ->
  str_to_int_loop m n k s (i32 v) =
  Ret ((k + length ds)%nat, s + Z.of_nat (length ds), i32 (fold_left (fun acc d => acc * 10 + (d - 48)) ds v)).
Proof.
  revert s n k v. induction ds as [|d ds IH]; intros s [|n] k v Hd Hl Hb Hc Hv; cbn [length] in *; [lia| |lia|]; cbn [str_to_int_loop app] in *;
    apply bytes_at_cons in Hb as [Hb Hr]; unfold load8; rewrite Hb; cbn [deref]; step_ret.
  - unfold is_digit in Hc. replace ((48 <=? c) && (c <=? 57)) with false by (symmetry; apply andb_false_iff; lia).
    change (Z.of_nat 0) with 0. by rewrite Nat.add_0_r, Z.add_0_r.
  - apply Forall_cons in Hd as [Hd Hds]. apply valid_range_S in Hv as [Hv0 Hv]. unfold is_digit in Hd.
    rewrite (proj2 (Z.leb_le 48 d)), (proj2 (Z.leb_le d 57)), Hv0 by lia. cbn [andb negb].
    rewrite swrap_step, IH by (done || lia). cbn [fold_left]. rewrite Nat.add_succ_r. by replace (s + 1 + Z.of_nat (length ds)) with (s + Z.of_nat (S (length ds))) by lia.
Qed.

Lemma safe_str_to_int_ok m ds c s :
  Forall is_digit ds -> (0 < length ds < 10)%nat -> bytes_at m s (ds ++ [c]) -> ~ is_digit c -> valid_range s (length ds) ->
  safe_str_to_int m s = Ret (Some (i32 (dec_value ds), s + Z.of_nat (length ds))).
Proof.
  intros Hd Hl Hb Hc Hv. unfold safe_str_to_int. pose proof (Hv O ltac:(lia)) as Hv0. rewrite Z.add_0_r in Hv0. rewrite Hv0. cbn [negb].
  change 0 with (i32 0) at 1. rewrite (str_to_int_loop_ok m ds c) by (done || lia). step_ret.
  destruct (Nat.eqb_spec (0 + length ds) 0); [lia|done].
Qed.

(** Four numbers with dots between them. *)
Fixpoint join_dots (ns : list (list Z)) : list Z :=
  match ns with [] => [] | [d] => d | d :: ns' => d ++ [46] ++ join_dots ns' end.

Lemma dotted_ok m ns s :
  ns <> [] -> Forall (fun ds => Forall is_digit ds /\ (0 < length ds < 10)%nat) ns ->
  bytes_at m s (join_dots ns ++ [0]) -> valid_range s (length (join_dots ns)) ->
  dotted m (length ns) s = Ret ((fun ds => i32 (dec_value ds)) <$> ns, true).
Proof.
  revert s. induction ns as [|ds ns IH]; intros s Hne Hns Hb Hv; [done|]. apply Forall_cons in Hns as [[Hd Hl] Hns].
  cbn [dotted length fmap list_fmap]. destruct ns as [|e ns].
  - cbn [join_dots] in *. rewrite (safe_str_to_int_ok m ds 0) by (done || (unfold is_digit; lia)). done.
  - change (join_dots (ds :: e :: ns)) with (ds ++ [46] ++ join_dots (e :: ns)) in *. rewrite <- app_assoc in Hb.
    assert (bytes_at m s (ds ++ [46])) as Hb1.
    { rewrite <- app_assoc, app_assoc in Hb. by apply bytes_at_app in Hb as [Hb _]. }
    rewrite length_app in Hv. apply valid_range_app in Hv as [Hv1 Hv2]. apply bytes_at_app in Hb as [_ Hb].
    rewrite (safe_str_to_int_ok m ds 46) by (done || (unfold is_digit; lia)). step_ret. cbn [length Nat.eqb].
    apply bytes_at_cons in Hb as [Hb0 Hb]. unfold load8. rewrite Hb0. cbn [deref]. step_ret. cbn [Z.eqb Pos.eqb negb].
    cbn [app length] in Hv2. apply valid_range_S in Hv2 as [_ Hv2].
    specialize (IH (s + Z.of_nat (length ds) + 1)). cbn [length] in IH. rewrite IH by done. done.
Qed.

(** [snprintf] stores what the format stands for, cut to the buffer, and a NUL. *)
Lemma snprintf_ok text m str size format args cs :
  str <> 0 -> 0 < size < 2 ^ 31 -> mapped m str (Z.to_nat size) -> Forall (arg_ok text m str size) args ->
  render text false format args = Some cs ->
  let out := take (Z.to_nat (size - 1)) cs in
  exists m', snprintf m str size format args = Ret (Z.of_nat (length out), m') /\ patched m str (out ++ [0]) m'.
Proof.
  intros Hs Hsz Hm Ha Hr. unfold snprintf. rewrite (proj2 (Z.eqb_neq str 0) Hs), (proj2 (Z.eqb_neq size 0)) by lia.
  by apply vformat_ok with text.
Qed.

(** A copy the checks refuse changes nothing and returns NULL; a comparison they
    refuse finds the strings equal. *)
Lemma memcpy_refused m dest src len :
  is_valid_buffer dest len && is_valid_buffer src len = false -> memcpy m dest src len = Ret (0, m).
Proof.
  intros H. unfold memcpy, safe_memcpy. destruct (_ || _); [done|]. by rewrite <- negb_andb, H.
Qed.

Lemma strcmp_refused m a b :
  a <> 0 -> b <> 0 -> is_valid_pointer a && is_valid_pointer b = false -> strcmp m a b = Ret 0.
Proof.
  intros Ha Hb H. unfold strcmp, safe_strcmp. rewrite (proj2 (Z.eqb_neq a 0) Ha), (proj2 (Z.eqb_neq b 0) Hb). by rewrite <- negb_andb, H.
Qed.

(** ** Theorems *)

(** [memcpy] is a memmove for every range the pointer checks accept: overlapping or
    not, and whichever range is the lower one, the destination receives the bytes the
    source held before the call and nothing else changes.  A length above 1 MiB copies
    nothing and returns NULL. *)
Theorem memcpy_moves m dest src l :
  image_ok im -> (0 < length l)%nat -> bytes_at m src l -> mapped m dest (length l) ->
  valid_range dest (length l) -> valid_range src (length l) ->
  exists m',
    memcpy m dest src (Z.of_nat (length l)) =
      Ret (if Z.of_nat (length l) <=? 0x100000 then dest else 0, m') /\
    (if Z.of_nat (length l) <=? 0x100000 then patched m dest l m' else m' = m).
Proof.
  intros Him Hn Hs Hd Hvd Hvs. destruct (Z.leb_spec (Z.of_nat (length l)) 0x100000) as [Hl|Hl]; [by apply memcpy_ok|].
  exists m. split; [|done]. apply memcpy_refused. unfold is_valid_buffer. rewrite (proj2 (Z.ltb_lt _ _) Hl).
  by destruct (_ || _).
Qed.

(** [snprintf] never writes outside its buffer and always terminates it: for every
    format and arguments of the kinds the format asks for, the buffer receives the first
    [size - 1] bytes of the text the format stands for and a NUL, the result is the
    number of bytes before the NUL, and the rest of memory is unchanged. *)
Theorem snprintf_renders text m str size format args cs :
  str <> 0 -> 0 < size < 2 ^ 31 -> mapped m str (Z.to_nat size) -> Forall (arg_ok text m str size) args ->
  render text false format args = Some cs ->
  exists m',
    snprintf m str size format args = Ret (Z.min (size - 1) (Z.of_nat (length cs)), m') /\
    bytes_at m' str (take (Z.to_nat (size - 1)) cs ++ [0]) /\
    forall x, x < str \/ str + size <= x -> m' !! x = m !! x.
Proof.
  intros Hs Hsz Hm Ha Hr. destruct (snprintf_ok text m str size format args cs) as (m' & -> & Hp); [done..|].
  exists m'. split; [f_equal; f_equal; rewrite length_take; lia|]. split; [by eapply bytes_at_patched|].
  intros x Hx. eapply patched_outside; [exact Hp|]. rewrite length_app, length_take. cbn. lia.
Qed.

Lemma octet_digits v :
  0 <= v <= 255 -> Forall is_digit (safe_int_to_str v 16) /\ (0 < length (safe_int_to_str v 16) <= 3)%nat /\ dec_value (safe_int_to_str v 16) = v.
Proof.
  intros Hv. destruct (int_to_str_digits v) as (Hd & Hl & Hval); [lia|]. split; [done|]. split; [|done].
  assert (bool_decide (length (safe_int_to_str v 16) <= 3)%nat = true) as H; [|apply bool_decide_eq_true in H; lia].
  clear -Hv. revert v Hv. assert (forallb (fun n => bool_decide (length (safe_int_to_str (Z.of_nat n) 16) <= 3)%nat) (seq 0 256) = true) as H by (vm_compute; reflexivity).
  intros v Hv. rewrite forallb_forall in H. specialize (H (Z.to_nat v)). rewrite Z2Nat.id in H by lia. apply H, in_seq. lia.
Qed.

(** An IPv4 address printed with ["%d.%d.%d.%d"] reads back: for four octets and a
    buffer of sixteen bytes or more, [snprintf] prints them and [sscanf] with the same
    format returns 4 and the same octets. *)
Theorem ipv4_text_roundtrip m str size a b c d :
  image_ok im -> valid_range str 16 -> 16 <= size < 2 ^ 31 -> mapped m str (Z.to_nat size) ->
  Forall (fun v => 0 <= v <= 255) [a; b; c; d] ->
  exists n m',
    snprintf m str size (bytes "%d.%d.%d.%d") (ArgInt <$> [a; b; c; d]) = Ret (n, m') /\
    sscanf m' str (bytes "%d.%d.%d.%d") = Ret ([a; b; c; d], 4).
Proof.
  intros Him Hv Hsz Hm Ho. set (ns := (fun v => safe_int_to_str v 16) <$> [a; b; c; d]).
  assert (render (fun _ => []) false (bytes "%d.%d.%d.%d") (ArgInt <$> [a; b; c; d]) = Some (join_dots ns)) as Hr.
  { cbn -[safe_int_to_str]. by rewrite app_nil_r. }
  assert (Forall (fun ds => Forall is_digit ds /\ (0 < length ds <= 3)%nat) ns) as Hns.
  { apply Forall_fmap. eapply Forall_impl; [exact Ho|]. intros v Hb. by destruct (octet_digits v Hb) as (H1 & H2 & _). }
  assert (str <> 0) as Hs by (pose proof (Hv O ltac:(lia)) as Ha; rewrite Z.add_0_r in Ha; apply is_valid_pointer_spec in Ha; lia).
  assert (length (join_dots ns) <= 15)%nat as Hl.
  { unfold ns in *. cbn [fmap list_fmap] in *. rewrite !Forall_cons in Hns. cbn [join_dots]. rewrite !length_app. cbn [length]. lia. }
  destruct (snprintf_ok (fun _ => []) m str size (bytes "%d.%d.%d.%d") (ArgInt <$> [a; b; c; d]) (join_dots ns)) as (m' & E & Hp); [done|lia|done| |done|].
  { by repeat constructor. }
  rewrite take_ge in E, Hp by lia. exists (Z.of_nat (length (join_dots ns))), m'. split; [exact E|].
  apply bytes_at_patched in Hp. unfold sscanf. rewrite (proj2 (Z.eqb_neq str 0) Hs), bool_decide_true by done.
  unfold safe_sscanf_ipv4. rewrite (proj2 (Z.eqb_neq str 0) Hs), (is_valid_string_ok m' str (join_dots ns)).
  - step_ret. cbn [negb]. change 4%nat with (length ns). rewrite dotted_ok; [|done| |done|intros i Hi; apply Hv; lia].
    + step_ret. replace ((fun ds => i32 (dec_value ds)) <$> ns) with [a; b; c; d].
      * rewrite (proj2 (forallb_forall _ _)); [done|]. intros v Hi. apply list_elem_of_In in Hi.
        rewrite Forall_forall in Ho. apply Ho in Hi. lia.
      * unfold ns. rewrite <- list_fmap_compose. symmetry. rewrite <- (list_fmap_id [a; b; c; d]) at 2.
        apply list_fmap_ext. intros i v Hi. change (i32 (dec_value (safe_int_to_str v 16)) = v). rewrite Forall_lookup in Ho. apply Ho in Hi. destruct (octet_digits v Hi) as (_ & _ & ->).
        apply swrap_small; lia.
    + eapply Forall_impl; [exact Hns|]. intros ds [H1 H2]. split; [done|lia].
  - split; [split; [|done]|].
    + clear -Hns. unfold ns in *. cbn [fmap list_fmap] in *. rewrite !Forall_cons in Hns. destruct Hns as ([H1 _] & [H2 _] & [H3 _] & [H4 _] & _).
      cbn [join_dots]. rewrite !Forall_app. split_and!; try (by apply digits_nonzero); by repeat constructor.
    + split; [lia|]. intros i Hi. apply Hv. lia.
Qed.

End library.

(** *** Witnesses *)
Definition demo_image := mkImage 0x101000 0x180000.

Lemma demo_image_ok : image_ok demo_image.
Proof. split; cbn; lia. Qed.

Lemma memcpy_moves_witness :
  exists m', memcpy demo_image (poke 0x200000 [1; 2; 3; 4] (blank 0x200000 8)) 0x200001 0x200000 4 = Ret (0x200001, m') /\
    patched (poke 0x200000 [1; 2; 3; 4] (blank 0x200000 8)) 0x200001 [1; 2; 3; 4] m'.
Proof.
  apply (memcpy_moves demo_image (poke 0x200000 [1; 2; 3; 4] (blank 0x200000 8)) 0x200001 0x200000 [1; 2; 3; 4]); [exact demo_image_ok|cbn; lia| | | |].
  - apply bytes_at_poke.
  - apply mapped_dec_ok. vm_compute. reflexivity.
  - apply valid_range_kernel; [exact demo_image_ok|cbn; lia..].
  - apply valid_range_kernel; [exact demo_image_ok|cbn; lia..].
Defined.

Lemma snprintf_renders_witness :
  exists m', snprintf demo_image (poke 0x300000 (bytes "root" ++ [0]) (blank 0x200000 8 ∪ blank 0x300000 8)) 0x200000 8 (bytes "%s=%d!") [ArgStr 0x300000; ArgInt (-12)] =
      Ret (7, m') /\
    bytes_at m' 0x200000 (bytes "root=-1" ++ [0]) /\
    forall x, x < 0x200000 \/ 0x200000 + 8 <= x -> m' !! x = poke 0x300000 (bytes "root" ++ [0]) (blank 0x200000 8 ∪ blank 0x300000 8) !! x.
Proof.
  apply (snprintf_renders demo_image (fun _ => bytes "root") (poke 0x300000 (bytes "root" ++ [0]) (blank 0x200000 8 ∪ blank 0x300000 8)) 0x200000 8
    (bytes "%s=%d!") [ArgStr 0x300000; ArgInt (-12)] (bytes "root=-12!")); [lia|lia| | |reflexivity].
  - apply mapped_dec_ok. vm_compute. reflexivity.
  - constructor; [|by repeat constructor]. right. split; [|cbn; lia]. split; [split|].
    + repeat (apply Forall_cons; split; [done|]); done.
    + apply bytes_at_poke.
    + split; [cbn; lia|]. apply valid_range_kernel; [exact demo_image_ok|cbn; lia..].
Defined.

Lemma ipv4_text_roundtrip_witness :
  exists n m', snprintf demo_image (blank 0x200000 16) 0x200000 16 (bytes "%d.%d.%d.%d") (ArgInt <$> [192; 168; 0; 255]) = Ret (n, m') /\
    sscanf demo_image m' 0x200000 (bytes "%d.%d.%d.%d") = Ret ([192; 168; 0; 255], 4).
Proof.
  apply (ipv4_text_roundtrip demo_image (blank 0x200000 16) 0x200000 16); [exact demo_image_ok| |lia| |].
  - apply valid_range_kernel; [exact demo_image_ok|cbn; lia..].
  - apply mapped_dec_ok. vm_compute. reflexivity.
  - repeat constructor; lia.
Defined.

(** Ten digits do overflow: an octet of 2^32 + 1 is read as 1. *)
Example ipv4_octet_wraps :
  sscanf demo_image (poke 0x200000 (bytes "4294967297.2.3.4" ++ [0]) ∅) 0x200000 (bytes "%d.%d.%d.%d") = Ret ([1; 2; 3; 4], 4).
Proof. vm_compute. reflexivity. Qed.

(** The conversions the log messages of [pci.c] and [netinit.c] ask for are not known:
    the format comes out as it is. *)
Example hex_conversions_unknown :
  render (fun _ => []) false (bytes "Vendor=%04x Device=%04x") [] = Some (bytes "Vendor=%04x Device=%04x").
Proof. vm_compute. reflexivity. Qed.
