(* ===== verification/Security.v ===== *)
(** * Users, credentials and access control

    [src/kernel/security.c], [acl.c] and [admin.c]: the user table, the credentials of the
    tasks, the access control list and the checks on paths, with the three tables as the
    fixed arrays they are.  A string is [None] for the null pointer.  [current] is the
    identifier of the running task, which the scheduler sets. *)

From S2P Require Import Prelude Memory CMemory.

Local Open Scope Z_scope.

Definition MAX_USERS : nat := 16.
Definition MAX_TASKS : nat := 16.
Definition ACL_MAX : nat := 128.

Definition CAP_DAC_OVERRIDE : Z := 1.
Definition CAP_SYS_ADMIN : Z := 2.
Definition CAP_SETUID : Z := 8.
Definition SEC_ACCESS_READ : Z := 1.
Definition SEC_ACCESS_WRITE : Z := 2.
Definition SEC_ACCESS_EXEC : Z := 4.

Record credentials := mkCred { cr_uid : Z; cr_gid : Z; cr_caps : Z; mac_label : Z }.
Record user_record := mkUser { us_used : bool; us_uid : Z; us_gid : Z; username : list Z; passhash : Z; default_caps : Z }.
Record cred_slot := mkSlot { sl_used : bool; task_id : Z; sl_cred : credentials }.
Record acl_entry := mkAcl { ac_used : bool; ac_path : list Z; ac_owner : Z; ac_group : Z; ac_mode : Z; ac_label : Z }.

Record security := mkSec {
  users : list user_record;
  cred_map : list cred_slot;
  boot_cred : credentials;
  acl_tab : list acl_entry;
  mac_enforce : bool;
  current : option Z
}.

Definition with_users (l : list user_record) (s : security) : security := mkSec l (cred_map s) (boot_cred s) (acl_tab s) (mac_enforce s) (current s).
Definition with_creds (l : list cred_slot) (s : security) : security := mkSec (users s) l (boot_cred s) (acl_tab s) (mac_enforce s) (current s).
Definition with_boot (c : credentials) (s : security) : security := mkSec (users s) (cred_map s) c (acl_tab s) (mac_enforce s) (current s).
Definition with_acl (l : list acl_entry) (s : security) : security := mkSec (users s) (cred_map s) (boot_cred s) l (mac_enforce s) (current s).

(** ** Strings *)
Abbreviation cstr := (option (list Z)).

(** What [snprintf(buf, size, "%s", p)] leaves in a buffer of [size] bytes: a string of
    1024 bytes or more is refused and prints nothing. *)
Definition stored (size : nat) (n : list Z) : list Z :=
  take (size - 1) (default [] (render (fun _ => if (length n <? 1024)%nat then n else []) false (bytes "%s") [ArgStr 1])).

(** The first used entry of that name. *)
Definition find_name {A} (used : A -> bool) (name : A -> list Z) (l : list A) (p : cstr) : option nat :=
  match p with None => None | Some n => fst <$> list_find (fun x => used x = true /\ name x = n) l end.

Definition find_free {A} (used : A -> bool) (l : list A) : option nat := fst <$> list_find (fun x => used x = false) l.

(** ** The access control list *)
Definition acl_find (s : security) (path : cstr) : option nat := find_name ac_used ac_path (acl_tab s) path.

Definition acl_init (s : security) : security :=
  with_acl ((fun e => mkAcl false (ac_path e) (ac_owner e) (ac_group e) (ac_mode e) (ac_label e)) <$> acl_tab s) s.

Definition acl_put (idx : nat) (owner group mode : Z) (s : security) : security :=
  with_acl (alter (fun e => mkAcl (ac_used e) (ac_path e) owner group (Z.land mode 0x1FF) (ac_label e)) idx (acl_tab s)) s.

Definition acl_set (path : cstr) (owner group mode : Z) (s : security) : Z * security :=
  match path with
  | None => (-1, s)
  | Some p =>
      match acl_find s path with
      | Some idx => (0, acl_put idx owner group mode s)
      | None =>
          match find_free ac_used (acl_tab s) with
          | None => (-1, s)
          | Some idx =>
              let s := with_acl (alter (fun e => mkAcl true (stored 128 p) (ac_owner e) (ac_group e) (ac_mode e) (ac_label e)) idx (acl_tab s)) s in
              (0, acl_put idx owner group mode s)
          end
      end
  end.

Definition acl_lookup (s : security) (path : cstr) : option (Z * Z * Z) :=
  idx ← acl_find s path; e ← acl_tab s !! idx; Some (ac_owner e, ac_group e, ac_mode e).

Definition acl_set_label (path : cstr) (label : Z) (s : security) : Z * security :=
  match acl_find s path with
  | None => (-1, s)
  | Some idx => (0, with_acl (alter (fun e => mkAcl (ac_used e) (ac_path e) (ac_owner e) (ac_group e) (ac_mode e) label) idx (acl_tab s)) s)
  end.

(** ** Users and credentials *)

(** FNV-1a; the null pointer hashes as the empty string. *)
Definition sec_hash_pw (p : cstr) : Z :=
  foldl (fun h c => u64 (Z.lxor h c * 1099511628211)) 1469598103934665603 (default [] p).

Definition find_user (s : security) (name : cstr) : option nat := find_name us_used username (users s) name.

Definition sec_init (s : security) : security :=
  let blank_users := (fun u => mkUser false (us_uid u) (us_gid u) (username u) (passhash u) (default_caps u)) <$> users s in
  let root := mkUser true 0 0 (stored 32 (bytes "root")) (sec_hash_pw (Some (bytes "root"))) 0xFFFFFFFF in
  mkSec (<[0%nat := root]> blank_users) ((fun c => mkSlot false (task_id c) (sl_cred c)) <$> cred_map s) (mkCred 0 0 0xFFFFFFFF 0) (acl_tab s) (mac_enforce s) (current s).

Definition find_cred (s : security) (tid : Z) : option nat := fst <$> list_find (fun c => sl_used c = true /\ task_id c = tid) (cred_map s).

Definition sec_get_current (s : security) : credentials :=
  match current s with
  | None => boot_cred s
  | Some tid =>
      match list_find (fun c => sl_used c = true /\ task_id c = tid) (cred_map s) with
      | Some (_, c) => sl_cred c
      | None => boot_cred s
      end
  end.

Definition sec_set_current (cred : credentials) (s : security) : security :=
  match current s with
  | None => with_boot cred s
  | Some tid =>
      match find_cred s tid with
      | Some i => with_creds (alter (fun c => mkSlot (sl_used c) (task_id c) cred) i (cred_map s)) s
      | None =>
          match find_free sl_used (cred_map s) with
          | Some i => with_creds (<[i := mkSlot true tid cred]> (cred_map s)) s
          | None => with_boot cred s
          end
      end
  end.

Definition sec_geteuid (s : security) : Z := cr_uid (sec_get_current s).

Definition has_cap (c : credentials) (cap : Z) : bool := negb (Z.land (cr_caps c) cap =? 0).

Definition sec_seteuid (uid : Z) (s : security) : Z * security :=
  let c := sec_get_current s in
  if (cr_uid c =? 0) || has_cap c CAP_SETUID then (0, sec_set_current (mkCred uid (cr_gid c) (cr_caps c) (mac_label c)) s) else (-1, s).

Definition may_admin (s : security) : bool := let c := sec_get_current s in (cr_uid c =? 0) || has_cap c CAP_SYS_ADMIN.

(** The uid of the new user; [None] is -1. *)
Definition user_add (name password : cstr) (s : security) : option Z * security :=
  if negb (may_admin s) then (None, s)
  else
    match name, password with
    | Some n, Some _ =>
        match find_user s name with
        | Some _ => (None, s)
        | None =>
            match find_free us_used (users s) with
            | None => (None, s)
            | Some i =>
                let uid := if Nat.eqb i 0 then 0 else 1000 + Z.of_nat i in
                (Some uid, with_users (<[i := mkUser true uid uid (stored 32 n) (sec_hash_pw password) 0]> (users s)) s)
            end
        end
    | _, _ => (None, s)
    end.

Definition user_del (name : cstr) (s : security) : Z * security :=
  if negb (may_admin s) then (-1, s)
  else
    match find_user s name with
    | Some (S i) => (0, with_users (alter (fun u => mkUser false (us_uid u) (us_gid u) (username u) (passhash u) (default_caps u)) (S i) (users s)) s)
    | _ => (-1, s)
    end.

Definition user_auth (s : security) (name password : cstr) : option credentials :=
  idx ← find_user s name;
  u ← users s !! idx;
  if passhash u =? sec_hash_pw password then Some (mkCred (us_uid u) (us_gid u) (default_caps u) 0) else None.

Definition admin_adduser (name password : cstr) (s : security) : Z * security :=
  if negb (may_admin s) then (-1, s) else let (r, s) := user_add name password s in (if r is Some _ then 0 else -1, s).

Definition admin_deluser (name : cstr) (s : security) : Z * security := if negb (may_admin s) then (-1, s) else user_del name s.

(** ** Checks *)
Definition sec_check_path (s : security) (path : cstr) (access_required : Z) : Z :=
  match acl_lookup s path with
  | None => 0
  | Some (owner, _, mode) =>
      let c := sec_get_current s in
      if (cr_uid c =? 0) || has_cap c CAP_DAC_OVERRIDE then 0
      else
        let shift := if cr_uid c =? owner then 6 else 0 in
        let denied access bit := negb (Z.land access_required access =? 0) && negb (Z.testbit mode (shift + bit)) in
        if denied SEC_ACCESS_READ 2 then -1
        else if denied SEC_ACCESS_WRITE 1 then -1
        else if denied SEC_ACCESS_EXEC 0 then -1
        else 0
  end.

Definition sec_set_acl := acl_set.
Definition sec_get_acl := acl_lookup.
Definition sec_mac_enable (enable : Z) (s : security) : security :=
  mkSec (users s) (cred_map s) (boot_cred s) (acl_tab s) (negb (enable =? 0)) (current s).
Definition sec_mac_is_enabled (s : security) : Z := if mac_enforce s then 1 else 0.
Definition sec_mac_set_path_label := acl_set_label.
Definition sec_mac_set_task_label (tid label : Z) (s : security) : Z * security :=
  match find_cred s tid with
  | None => (-1, s)
  | Some i => (0, with_creds (alter (fun c => mkSlot (sl_used c) (task_id c) (mkCred (cr_uid (sl_cred c)) (cr_gid (sl_cred c)) (cr_caps (sl_cred c)) label)) i (cred_map s)) s)
  end.

(** ** Searching a table *)
Section search.

Context {A : Type} (P : A -> Prop) `{forall x, Decision (P x)}.

Lemma find_insert_other l i x y : l !! i = Some x -> ~ P x -> ~ P y -> snd <$> list_find P (<[i := y]> l) = snd <$> list_find P l.
Proof.
  revert i. induction l as [|z l IH]; intros [|i] Hi Hx Hy; cbn in Hi; try done.
  - injection Hi as ->. cbn. by rewrite !decide_False by done.
  - cbn. destruct (decide (P z)); [done|]. specialize (IH i Hi Hx Hy). destruct (list_find P (<[i:=y]> l)) as [[]|], (list_find P l) as [[]|]; done.
Qed.

Lemma find_insert_new l i y : list_find P l = None -> (i < length l)%nat -> P y -> list_find P (<[i := y]> l) = Some (i, y).
Proof.
  intros Hn Hi Hy. apply list_find_Some. split; [by apply list_lookup_insert_eq|]. split; [done|]. intros j z Hj Hlt. rewrite list_lookup_insert_ne in Hj by lia.
  apply list_find_None in Hn. rewrite Forall_forall in Hn. apply Hn. by eapply list_elem_of_lookup_2.
Qed.

Lemma find_insert_same l i x y : list_find P l = Some (i, x) -> P y -> list_find P (<[i := y]> l) = Some (i, y).
Proof.
  intros (Hi & Hx & Hlt)%list_find_Some Hy. apply list_find_Some. split; [by eapply list_lookup_insert_eq, lookup_lt_Some|]. split; [done|].
  intros j z Hj Hji. rewrite list_lookup_insert_ne in Hj by lia. by eapply Hlt.
Qed.

End search.

Lemma stored_short size n : (length n < size)%nat -> (size <= 1024)%nat -> stored size n = n.
Proof.
  intros H1 H2. unfold stored. rewrite (proj2 (Nat.ltb_lt (length n) 1024)) by lia. cbn [render bytes]. cbn. rewrite app_nil_r. apply take_ge. lia.
Qed.

Lemma find_free_Some {A} (used : A -> bool) l i : find_free used l = Some i -> exists x, l !! i = Some x /\ used x = false.
Proof.
  unfold find_free. intros ([j x] & (Hi & Hu & _)%list_find_Some & E)%fmap_Some. cbn in E. subst. by exists x.
Qed.

Lemma find_free_None {A} (used : A -> bool) l : find_free used l = None <-> Forall (fun x => used x = true) l.
Proof.
  unfold find_free. rewrite fmap_None, list_find_None. split; intros Hf; eapply Forall_impl; try exact Hf; intros x Hx; cbn in Hx |- *; destruct (used x); done.
Qed.

Lemma alter_insert_at {A} (f : A -> A) (l : list A) i x : l !! i = Some x -> alter f i l = <[i := f x]> l.
Proof. revert i. induction l as [|y l IH]; intros [|i] Hi; cbn in *; try done; [by injection Hi as ->|]. f_equal. by apply IH. Qed.

(** ** The list as a map *)
Definition acl_value (e : acl_entry) : Z * Z * Z := (ac_owner e, ac_group e, ac_mode e).

Definition acl_named (p : list Z) (e : acl_entry) : Prop := ac_used e = true /\ ac_path e = p.

#[local] Instance acl_named_dec p e : Decision (acl_named p e) := _.

Lemma acl_lookup_find s p : acl_lookup s (Some p) = acl_value <$> (snd <$> list_find (acl_named p) (acl_tab s)).
Proof.
  unfold acl_lookup, acl_find, find_name. change (list_find (fun x => ac_used x = true /\ ac_path x = p) (acl_tab s)) with (list_find (acl_named p) (acl_tab s)).
  destruct (list_find (acl_named p) (acl_tab s)) as [[i e]|] eqn:E; [|done]. cbn. apply list_find_Some in E as (-> & _). done.
Qed.

Definition acl_full (s : security) : bool := bool_decide (Forall (fun e => ac_used e = true) (acl_tab s)).

(** Setting an entry, and what is found afterwards. *)
Lemma acl_set_ok s p owner group mode :
  (length p <= 127)%nat ->
  if bool_decide (sec_get_acl s (Some p) = None) && acl_full s then sec_set_acl (Some p) owner group mode s = (-1, s)
  else exists s', sec_set_acl (Some p) owner group mode s = (0, s') /\
    (forall q, sec_get_acl s' (Some q) = if bool_decide (q = p) then Some (owner, group, Z.land mode 0x1FF) else sec_get_acl s (Some q)) /\
    users s' = users s /\ cred_map s' = cred_map s /\ boot_cred s' = boot_cred s /\ current s' = current s.
Proof.
  intros Hl. unfold sec_get_acl, sec_set_acl, acl_set, acl_find, find_name.
  change (list_find (fun x => ac_used x = true /\ ac_path x = p) (acl_tab s)) with (list_find (acl_named p) (acl_tab s)).
  rewrite (acl_lookup_find s p). destruct (list_find (acl_named p) (acl_tab s)) as [[i e]|] eqn:E; cbn [fmap option_fmap option_map fst snd].
  - rewrite bool_decide_eq_false_2 by done. cbn [andb]. eexists. split; [done|]. split; [|done]. intros q. pose proof E as (Hi & Hn & _)%list_find_Some.
    rewrite !acl_lookup_find. unfold acl_put. cbn [with_acl acl_tab]. rewrite (alter_insert_at _ _ i e) by done. case_bool_decide as Hq.
    + subst q. erewrite find_insert_same; [done|exact E|]. destruct Hn as [H1 H2]. by split.
    + f_equal. eapply find_insert_other; [exact Hi| |]; intros [_ H2]; destruct Hn as [_ Hn]; cbn in H2; congruence.
  - rewrite bool_decide_eq_true_2 by done. cbn [andb]. unfold acl_full. destruct (find_free ac_used (acl_tab s)) as [i|] eqn:Ef.
    + rewrite bool_decide_eq_false_2 by (rewrite <- find_free_None; congruence). eexists. split; [done|]. split; [|done]. intros q. apply find_free_Some in Ef as (e & Hi & Hu).
      pose proof (lookup_lt_Some _ _ _ Hi) as Hlt. rewrite !acl_lookup_find. unfold acl_put. cbn [with_acl acl_tab]. rewrite (alter_insert_at _ (acl_tab s) i e) by done.
      erewrite alter_insert_at by (by apply list_lookup_insert_eq). rewrite list_insert_insert_eq. cbn [ac_used ac_path ac_owner ac_group ac_mode ac_label]. rewrite stored_short by lia. case_bool_decide as Hq.
      * subst q. rewrite find_insert_new by done. done.
      * f_equal. eapply find_insert_other; [exact Hi| |]; intros [H1 H2]; cbn in H1, H2; congruence.
    + rewrite bool_decide_eq_true_2 by (by apply find_free_None). done.
Qed.

(** ** Who may do what to a path *)

(** Read, write and execute of [access] are among the three bits [rwx]. *)
Definition granted (access rwx : Z) : bool :=
  implb (Z.testbit access 0) (Z.testbit rwx 2) && implb (Z.testbit access 1) (Z.testbit rwx 1) && implb (Z.testbit access 2) (Z.testbit rwx 0).

Definition overrides (c : credentials) : bool := (cr_uid c =? 0) || Z.testbit (cr_caps c) 0.

Lemma land_bit_zero a k : 0 <= k -> (Z.land a (2 ^ k) =? 0) = negb (Z.testbit a k).
Proof.
  intros Hk. destruct (Z.testbit a k) eqn:E; cbn [negb]; [apply Z.eqb_neq|apply Z.eqb_eq].
  - intros H. assert (Z.testbit (Z.land a (2 ^ k)) k = true) as H' by (by rewrite Z.land_spec, E, Z.pow2_bits_true). rewrite H, Z.bits_0 in H'. done.
  - apply Z.bits_inj'. intros i Hi. rewrite Z.land_spec, Z.bits_0. destruct (decide (i = k)) as [->|]; [by rewrite E|]. by rewrite Z.pow2_bits_false, andb_false_r.
Qed.

Lemma mode_bits mode i : 0 <= i < 9 -> Z.testbit (Z.land mode 0x1FF) i = Z.testbit mode i.
Proof.
  intros Hi. rewrite Z.land_spec. change 0x1FF with (Z.ones 9). by rewrite Z.ones_spec_low, andb_true_r by lia.
Qed.

Lemma check_path_value s p owner group mode access :
  acl_lookup s (Some p) = Some (owner, group, Z.land mode 0x1FF) ->
  sec_check_path s (Some p) access =
  let c := sec_get_current s in
  if overrides c || granted access (if cr_uid c =? owner then Z.shiftr mode 6 else mode) then 0 else -1.
Proof.
  intros E. unfold sec_check_path, overrides, has_cap, CAP_DAC_OVERRIDE, SEC_ACCESS_READ, SEC_ACCESS_WRITE, SEC_ACCESS_EXEC. rewrite E. cbv zeta. set (c := sec_get_current s).
  assert (forall a, (Z.land a 1 =? 0) = negb (Z.testbit a 0)) as H1 by (intros a; by apply (land_bit_zero a 0)).
  assert ((Z.land access 2 =? 0) = negb (Z.testbit access 1) /\ (Z.land access 4 =? 0) = negb (Z.testbit access 2)) as [H2 H4]
    by (split; [by apply (land_bit_zero access 1)|by apply (land_bit_zero access 2)]).
  rewrite !H1, H2, H4, !negb_involutive.
  destruct ((cr_uid c =? 0) || Z.testbit (cr_caps c) 0); [done|]. cbn [orb]. unfold granted. destruct (cr_uid c =? owner).
  - rewrite !mode_bits, !Z.shiftr_spec by lia. change (6 + 2) with 8. change (6 + 1) with 7. change (6 + 0) with 6. change (2 + 6) with 8. change (1 + 6) with 7. change (0 + 6) with 6.
    destruct (Z.testbit access 0), (Z.testbit access 1), (Z.testbit access 2), (Z.testbit mode 8), (Z.testbit mode 7), (Z.testbit mode 6); done.
  - rewrite !mode_bits by lia. change (0 + 2) with 2. change (0 + 1) with 1. change (0 + 0) with 0.
    destruct (Z.testbit access 0), (Z.testbit access 1), (Z.testbit access 2), (Z.testbit mode 2), (Z.testbit mode 1), (Z.testbit mode 0); done.
Qed.

(** ** The calls *)
Inductive sec_call :=
| CSeteuid (uid : Z)
| CAdd (name password : cstr)
| CDel (name : cstr)
| CAdminAdd (name password : cstr)
| CAdminDel (name : cstr)
| CAuth (name password : cstr)
| CCheck (path : cstr) (access : Z)
| CSetAcl (path : cstr) (owner group mode : Z)
| CPathLabel (path : cstr) (label : Z)
| CTaskLabel (tid label : Z)
| CMac (enable : Z).

Definition sec_step (c : sec_call) (s : security) : Z * security :=
  match c with
  | CSeteuid uid => sec_seteuid uid s
  | CAdd n p => let (r, s') := user_add n p s in (if r is Some _ then 0 else -1, s')
  | CDel n => user_del n s
  | CAdminAdd n p => admin_adduser n p s
  | CAdminDel n => admin_deluser n s
  | CAuth n p => (if user_auth s n p is Some _ then 0 else -1, s)
  | CCheck p a => (sec_check_path s p a, s)
  | CSetAcl p o g m => sec_set_acl p o g m s
  | CPathLabel p l => sec_mac_set_path_label p l s
  | CTaskLabel t l => sec_mac_set_task_label t l s
  | CMac e => (0, sec_mac_enable e s)
  end.

Fixpoint sec_run (cs : list sec_call) (s : security) : list Z * security :=
  match cs with
  | [] => ([], s)
  | c :: cs' => let (r, s1) := sec_step c s in let (rs, s2) := sec_run cs' s1 in (r :: rs, s2)
  end.


(** Everything but the labels and the list: who is who. *)
Definition forget (c : cred_slot) : cred_slot := mkSlot (sl_used c) (task_id c) (mkCred (cr_uid (sl_cred c)) (cr_gid (sl_cred c)) (cr_caps (sl_cred c)) 0).

Definition same_rights (s s' : security) : Prop :=
  users s' = users s /\ forget <$> cred_map s' = forget <$> cred_map s /\ boot_cred s' = boot_cred s /\ current s' = current s.







Lemma acl_set_rights p o g m s : same_rights s (acl_set p o g m s).2.
Proof. unfold acl_set. destruct p; [|done]. destruct (acl_find s _); [done|]. by destruct (find_free _ _). Qed.

Lemma path_label_keeps p l s : same_rights s (acl_set_label p l s).2 /\ forall q, acl_lookup (acl_set_label p l s).2 q = acl_lookup s q.
Proof.
  unfold acl_set_label. destruct (acl_find s p) as [i|] eqn:Ei; [|done]. split; [done|]. intros [q|]; [|done]. rewrite !acl_lookup_find. cbn [snd with_acl acl_tab].
  destruct p as [p|]; [|done]. unfold acl_find, find_name in Ei. apply fmap_Some in Ei as ([j e] & E & Eij). cbn in Eij. subst j.
  pose proof E as (Hi & [Hu Hp] & Hlt)%list_find_Some. rewrite (alter_insert_at _ _ i e) by done. destruct (decide (q = p)) as [->|Hq].
  - change (list_find (acl_named p) (acl_tab s) = Some (i, e)) in E. erewrite find_insert_same; [|exact E|by split]. by rewrite E.
  - f_equal. eapply find_insert_other; [exact Hi| |]; intros [_ H2]; cbn in H2; congruence.
Qed.

Lemma task_label_rights t l s : same_rights s (sec_mac_set_task_label t l s).2.
Proof.
  unfold sec_mac_set_task_label. destruct (find_cred s t) as [i|] eqn:E; [|done]. split; [done|]. split; [|done]. cbn [snd with_creds cred_map].
  apply fmap_Some in E as ([j c] & (Hi & _)%list_find_Some & E). cbn in E. subst j. rewrite (alter_insert_at _ _ i c), list_fmap_insert by done.
  apply list_insert_id. rewrite list_lookup_fmap, Hi. done.
Qed.




(** ** Accounts *)
Definition root_user : user_record := mkUser true 0 0 (bytes "root") (sec_hash_pw (Some (bytes "root"))) 0xFFFFFFFF.

(** Slot 0 is root for ever; the account in slot [i] has the identifier [1000 + i] and no
    capability; no two accounts have the same name. *)
Record accounts_ok (l : list user_record) : Prop := {
  ak_length : length l = MAX_USERS;
  ak_root : l !! 0%nat = Some root_user;
  ak_others : forall i u, l !! i = Some u -> us_used u = true -> i <> 0%nat -> us_uid u = 1000 + Z.of_nat i /\ us_gid u = us_uid u /\ default_caps u = 0;
  ak_names : forall i j u v, l !! i = Some u -> l !! j = Some v -> us_used u = true -> us_used v = true -> username u = username v -> i = j
}.

Definition user_named (n : list Z) (u : user_record) : Prop := us_used u = true /\ username u = n.

#[local] Instance user_named_dec n u : Decision (user_named n u) := _.

Lemma find_user_named s n : find_user s (Some n) = fst <$> list_find (user_named n) (users s).
Proof. done. Qed.

Lemma user_auth_named s n pw :
  user_auth s (Some n) pw =
  (u ← snd <$> list_find (user_named n) (users s); if passhash u =? sec_hash_pw pw then Some (mkCred (us_uid u) (us_gid u) (default_caps u) 0) else None).
Proof.
  unfold user_auth. rewrite find_user_named. destruct (list_find (user_named n) (users s)) as [[i u]|] eqn:E; [|done]. apply list_find_Some in E as (Hi & _). cbn. by rewrite Hi.
Qed.

Lemma accounts_insert l i u :
  accounts_ok l -> i <> 0%nat -> (us_used u = true -> us_uid u = 1000 + Z.of_nat i /\ us_gid u = us_uid u /\ default_caps u = 0) ->
  (us_used u = true -> forall j v, l !! j = Some v -> us_used v = true -> username v = username u -> j = i) -> accounts_ok (<[i := u]> l).
Proof.
  intros [H1 H2 H3 H4] Hi Hu Hn. split.
  - by rewrite length_insert.
  - by rewrite list_lookup_insert_ne.
  - intros j v Hj Hv Hj0. destruct (decide (i = j)) as [->|Hne].
    + apply list_lookup_insert_Some in Hj as [(_ & <- & _)|[? _]]; [by apply Hu|done].
    + rewrite list_lookup_insert_ne in Hj by done. by apply (H3 j).
  - intros j k v w Hj Hk Hv Hw Ename. apply list_lookup_insert_Some in Hj as [(<- & <- & _)|[Hij Hj]]; apply list_lookup_insert_Some in Hk as [(<- & <- & _)|[Hik Hk]].
    + done.
    + symmetry. by apply (Hn Hv k w).
    + by apply (Hn Hw j v).
    + by apply (H4 j k v w).
Qed.

Lemma user_add_ok n pw s :
  accounts_ok (users s) -> (length n <= 31)%nat ->
  let '(r, s') := user_add (Some n) (Some pw) s in
  (r = None /\ s' = s /\ (may_admin s = true -> find_user s (Some n) <> None \/ Forall (fun u => us_used u = true) (users s))) \/
  (exists i, may_admin s = true /\ find_user s (Some n) = None /\ i <> 0%nat /\ (exists u, users s !! i = Some u /\ us_used u = false) /\ r = Some (1000 + Z.of_nat i) /\
     s' = with_users (<[i := mkUser true (1000 + Z.of_nat i) (1000 + Z.of_nat i) n (sec_hash_pw (Some pw)) 0]> (users s)) s).
Proof.
  intros Hok Hn. unfold user_add. destruct (may_admin s) eqn:Hm; cbn [negb]; [|by left]. destruct (find_user s (Some n)) eqn:Ef; [left; split; [done|split; [done|by left]]|].
  destruct (find_free us_used (users s)) as [i|] eqn:Ei; [right|left; split; [done|split; [done|right; by apply find_free_None]]].
  apply find_free_Some in Ei as (u & Hi & Hu). exists i. assert (i <> 0%nat) as Hi0 by (intros ->; rewrite (ak_root _ Hok) in Hi; by injection Hi as <-).
  rewrite (proj2 (Nat.eqb_neq i 0)) by done. rewrite stored_short by lia. do 3 (split; [done|]). split; [by exists u|done].
Qed.

Lemma find_named_at l n i u : accounts_ok l -> l !! i = Some u -> user_named n u -> list_find (user_named n) l = Some (i, u).
Proof.
  intros Hok Hi Hu. apply list_find_Some. split; [done|]. split; [done|]. intros j v Hj Hlt [Hv1 Hv2]. destruct Hu as [Hu1 Hu2].
  assert (j = i) by (eapply (ak_names _ Hok); [exact Hj|exact Hi|done|done|congruence]). lia.
Qed.

Definition cleared (u : user_record) : user_record := mkUser false (us_uid u) (us_gid u) (username u) (passhash u) (default_caps u).

Lemma user_del_ok n s :
  accounts_ok (users s) ->
  let '(r, s') := user_del (Some n) s in
  (r = -1 /\ s' = s /\ (may_admin s = true -> find_user s (Some n) = None \/ n = bytes "root")) \/
  (exists i u, may_admin s = true /\ i <> 0%nat /\ users s !! i = Some u /\ user_named n u /\ r = 0 /\ s' = with_users (<[i := cleared u]> (users s)) s).
Proof.
  intros Hok. unfold user_del. destruct (may_admin s) eqn:Hm; cbn [negb]; [|by left]. rewrite find_user_named.
  destruct (list_find (user_named n) (users s)) as [[i u]|] eqn:E; cbn [fmap option_fmap option_map fst]; [|left; split; [done|split; [done|by left]]].
  apply list_find_Some in E as (Hi & Hu & _). destruct i as [|i].
  - left. split; [done|]. split; [done|]. intros _. right. rewrite (ak_root _ Hok) in Hi. injection Hi as <-. by destruct Hu as [_ <-].
  - right. exists (S i), u. rewrite (alter_insert_at _ _ (S i) u) by done. done.
Qed.

Lemma accounts_add n pw s : accounts_ok (users s) -> (length n <= 31)%nat -> accounts_ok (users (user_add (Some n) (Some pw) s).2).
Proof.
  intros Hok Hn. pose proof (user_add_ok n pw s Hok Hn) as H. destruct (user_add _ _ s) as [r s']. destruct H as [(_ & -> & _)|(i & _ & Hf & Hi & _ & _ & ->)]; [done|].
  apply accounts_insert; [done|done|done|]. intros _ j v Hj Hv Hname. exfalso. rewrite find_user_named, fmap_None, list_find_None, Forall_forall in Hf.
  apply (Hf v); [by eapply list_elem_of_lookup_2|by split].
Qed.

Lemma accounts_del n s : accounts_ok (users s) -> accounts_ok (users (user_del n s).2).
Proof.
  intros Hok. destruct n as [n|]; [|unfold user_del; by destruct (may_admin s)]. pose proof (user_del_ok n s Hok) as H. destruct (user_del _ s) as [r s'].
  destruct H as [(_ & -> & _)|(i & u & _ & Hi & Hu & _ & _ & ->)]; [done|]. by apply accounts_insert.
Qed.

(** The names given to new accounts fit the table's 32 bytes. *)
Definition short_name (c : sec_call) : Prop := match c with CAdd (Some n) _ | CAdminAdd (Some n) _ => (length n <= 31)%nat | _ => True end.

Lemma accounts_step c s : accounts_ok (users s) -> short_name c -> accounts_ok (users (sec_step c s).2).
Proof.
  intros Hok Hs.
  assert (forall n p, (if n is Some n then (length n <= 31)%nat else True) -> accounts_ok (users (user_add n p s).2)) as Hadd.
  { intros [n|] [p|] Hn; [by apply accounts_add|unfold user_add; by destruct (may_admin s)..]. }
  destruct c as [uid|n p|n|n p|n|n p|p a|p o g m|p l|t l|e]; cbn [sec_step short_name] in *; try done.
  - unfold sec_seteuid, sec_set_current. destruct (_ || _); [|done]. cbn [snd]. destruct (current s); [|done]. destruct (find_cred _ _); [done|]. by destruct (find_free _ _).
  - specialize (Hadd n p). destruct (user_add n p s). apply Hadd. by destruct n.
  - by apply accounts_del.
  - unfold admin_adduser. destruct (may_admin s); [|done]. cbn [negb]. specialize (Hadd n p). destruct (user_add n p s). apply Hadd. by destruct n.
  - unfold admin_deluser. destruct (may_admin s); [|done]. by apply accounts_del.
  - unfold sec_set_acl. by rewrite (proj1 (acl_set_rights p o g m s)).
  - unfold sec_mac_set_path_label. by rewrite (proj1 (proj1 (path_label_keeps p l s))).
  - by rewrite (proj1 (task_label_rights t l s)).
Qed.

Lemma accounts_run cs : forall s, accounts_ok (users s) -> Forall short_name cs -> accounts_ok (users (sec_run cs s).2).
Proof.
  induction cs as [|c cs IH]; intros s Hok Hs; [done|]. apply Forall_cons in Hs as [Hc Hs]. cbn [sec_run]. pose proof (accounts_step c s Hok Hc) as Hok'.
  destruct (sec_step c s) as [r s1]. specialize (IH s1 Hok' Hs). by destruct (sec_run cs s1).
Qed.

Lemma accounts_init s : length (users s) = MAX_USERS -> accounts_ok (users (sec_init s)).
Proof.
  intros Hl. unfold sec_init. cbn [users]. set (l := _ <$> users s). assert (length l = MAX_USERS) as Hl' by (unfold l; by rewrite length_fmap).
  assert (forall i u, l !! i = Some u -> us_used u = false) as Hu by (intros i u (v & -> & _)%list_lookup_fmap_Some; done).
  change (mkUser true 0 0 (stored 32 (bytes "root")) (sec_hash_pw (Some (bytes "root"))) 0xFFFFFFFF) with root_user. split.
  - by rewrite length_insert.
  - apply list_lookup_insert_eq. rewrite Hl'. unfold MAX_USERS. lia.
  - intros i u Hi Hused Hi0. rewrite list_lookup_insert_ne in Hi by done. rewrite (Hu _ _ Hi) in Hused. done.
  - intros i j u v Hi Hj H1 H2 _. apply list_lookup_insert_Some in Hi as [(<- & _)|[_ Hi]]; [|by rewrite (Hu _ _ Hi) in H1].
    apply list_lookup_insert_Some in Hj as [(<- & _)|[_ Hj]]; [done|by rewrite (Hu _ _ Hj) in H2].
Qed.

(** The access control list is a map, and the checks follow it.  [sec_set_acl] of a
    path of at most 127 bytes returns 0 and makes the owner, the group and the nine mode
    bits what [sec_get_acl] answers for that path, while every other path keeps its answer;
    only when the path is new and all 128 entries are taken it returns -1 and changes
    nothing.  From then on [sec_check_path] lets a task do exactly what the owner's bits,
    or for everyone else the last three bits, say; root and holders of [CAP_DAC_OVERRIDE]
    may do everything. *)
Theorem acl_decides s p owner group mode :
  (length p <= 127)%nat ->
  if bool_decide (sec_get_acl s (Some p) = None) && acl_full s then sec_set_acl (Some p) owner group mode s = (-1, s)
  else exists s', sec_set_acl (Some p) owner group mode s = (0, s') /\
    (forall q, sec_get_acl s' (Some q) = if bool_decide (q = p) then Some (owner, group, Z.land mode 0x1FF) else sec_get_acl s (Some q)) /\
    forall t access, acl_tab t = acl_tab s' ->
      let c := sec_get_current t in
      sec_check_path t (Some p) access = if overrides c || granted access (if cr_uid c =? owner then Z.shiftr mode 6 else mode) then 0 else -1.
Proof.
  intros Hl. pose proof (acl_set_ok s p owner group mode Hl) as H. destruct (_ && _); [done|]. destruct H as (s' & E & Hg & _). exists s'. split; [done|]. split; [done|].
  intros t access Et. apply (check_path_value t p owner group). specialize (Hg p). rewrite bool_decide_eq_true_2 in Hg by done. rewrite <- Hg. unfold sec_get_acl.
  by rewrite !acl_lookup_find, Et.
Qed.

(** Accounts.  After [sec_init] and any calls, an account that [user_add] creates has
    an identifier between 1001 and 1015 that no other account has, no capability, and
    authenticates exactly with passwords of the same hash; [user_del] takes it away again;
    both leave every other account alone.  The account root cannot be deleted. *)
Theorem accounts_lifecycle cs s0 n pw uid s' :
  length (users s0) = MAX_USERS -> Forall short_name cs -> (length n <= 31)%nat ->
  let s := (sec_run cs (sec_init s0)).2 in
  user_add (Some n) (Some pw) s = (Some uid, s') ->
  1001 <= uid <= 1015 /\
  (forall u, u ∈ users s -> us_used u = true -> us_uid u <> uid) /\
  (forall pw', user_auth s' (Some n) pw' = if sec_hash_pw (Some pw) =? sec_hash_pw pw' then Some (mkCred uid uid 0 0) else None) /\
  (forall n' pw', n' <> n -> user_auth s' (Some n') pw' = user_auth s (Some n') pw') /\
  (exists s'', user_del (Some n) s' = (0, s'') /\ forall n' pw', user_auth s'' (Some n') pw' = if bool_decide (n' = n) then None else user_auth s (Some n') pw') /\
  user_del (Some (bytes "root")) s' = (-1, s').
Proof.
  intros Hl Hs Hn s E. assert (accounts_ok (users s)) as Hok by (apply accounts_run; [by apply accounts_init|done]). clearbody s.
  pose proof (user_add_ok n pw s Hok Hn) as H. pose proof (accounts_add n pw s Hok Hn) as Hok'. rewrite E in H, Hok'. cbn [snd] in Hok'.
  destruct H as [(? & _)|(i & Hm & Hf & Hi0 & (u0 & Hu0 & Hfree) & Hr & Hs')]; [done|]. injection Hr as ->.
  pose proof (lookup_lt_Some _ _ _ Hu0) as Hlt. rewrite (ak_length _ Hok) in Hlt. unfold MAX_USERS in Hlt. set (v := mkUser true _ _ n _ 0) in *.
  assert (users s' !! i = Some v) as Hv by (rewrite Hs'; apply list_lookup_insert_eq; by eapply lookup_lt_Some).
  assert (forall n' pw', n' <> n -> user_auth s' (Some n') pw' = user_auth s (Some n') pw') as Hother.
  { intros n' pw' Hne. rewrite !user_auth_named, Hs'. cbn [with_users users]. rewrite (find_insert_other _ (users s) i u0 v); [done|done| |]; intros [H1 H2]; cbn in H1, H2; congruence. }
  split; [lia|]. split; [|split; [|split; [done|split]]].
  - intros u Hu Hused Heq. apply list_elem_of_lookup in Hu as [j Hj]. destruct (decide (j = 0%nat)) as [->|Hj0].
    + rewrite (ak_root _ Hok) in Hj. injection Hj as <-. cbn in Heq. lia.
    + destruct (ak_others _ Hok _ _ Hj Hused Hj0) as [Hid _]. assert (j = i) as -> by lia. congruence.
  - intros pw'. rewrite user_auth_named, (find_named_at _ n i v) by done. done.
  - pose proof (user_del_ok n s' Hok') as H. destruct (user_del (Some n) s') as [r s''].
    assert (may_admin s' = true) as Hm' by (by rewrite Hs').
    assert (list_find (user_named n) (users s') = Some (i, v)) as Hfi by (by apply find_named_at).
    destruct H as [(_ & _ & Hc)|(j & u & _ & Hj0 & Hj & Hu & -> & ->)].
    + exfalso. destruct (Hc Hm') as [Hc1|Hc1]; [by rewrite find_user_named, Hfi in Hc1|]. subst n.
      rewrite find_user_named, (find_named_at _ _ 0 root_user Hok (ak_root _ Hok)) in Hf by done. done.
    + assert (j = i) as -> by (rewrite (find_named_at _ n j u) in Hfi by done; by injection Hfi). eexists. split; [done|]. intros n' pw'.
      case_bool_decide as Hne.
      * subst n'. rewrite user_auth_named. cbn [with_users users]. replace (list_find (user_named n) (<[i:=cleared u]> (users s'))) with (@None (nat * user_record)); [done|].
        symmetry. apply list_find_None, Forall_forall. intros w Hw [Hw1 Hw2]. apply list_elem_of_lookup in Hw as [k Hk].
        apply list_lookup_insert_Some in Hk as [(_ & <- & _)|[Hki Hk]]; [done|]. apply Hki. eapply (ak_names _ Hok'); [exact Hj|exact Hk|apply Hu|done|]. destruct Hu as [_ Hu2]. congruence.
      * rewrite <- Hother by done. rewrite !user_auth_named. cbn [with_users users].
        rewrite (find_insert_other _ (users s') i u (cleared u)); [done|done| |]; [intros [_ H2]; destruct Hu as [_ Hu2]; congruence|intros [H1 _]; done].
  - unfold user_del. destruct (may_admin s'); [|done]. cbn [negb]. rewrite find_user_named, (find_named_at _ _ 0 root_user Hok' (ak_root _ Hok')) by done. done.
Qed.

(** ** An example: the tables at boot *)
Definition demo_sec : security :=
  mkSec (replicate 16 (mkUser false 0 0 [] 0 0)) (replicate 16 (mkSlot false 0 (mkCred 0 0 0 0))) (mkCred 0 0 0 0)
    (replicate 128 (mkAcl false [] 0 0 0 0)) false (Some 7).

(** Task 7 runs as user 1001. *)
Definition demo_user : security := sec_set_current (mkCred 1001 1001 0 0) (sec_init demo_sec).

Lemma acl_decides_witness :
  exists s', sec_set_acl (Some (bytes "/etc")) 0 0 0x1E4 demo_user = (0, s') /\
    sec_check_path s' (Some (bytes "/etc")) SEC_ACCESS_READ = 0 /\ sec_check_path s' (Some (bytes "/etc")) SEC_ACCESS_WRITE = -1.
Proof.
  pose proof (acl_decides demo_user (bytes "/etc") 0 0 0x1E4) as H.
  change (bool_decide (sec_get_acl demo_user (Some (bytes "/etc")) = None) && acl_full demo_user) with false in H. cbv iota in H.
  destruct H as (s' & H1 & _ & H2); [vm_compute; lia|]. exists s'. split; [exact H1|].
  assert (s' = (sec_set_acl (Some (bytes "/etc")) 0 0 0x1E4 demo_user).2) as Es by (rewrite H1; reflexivity).
  split; rewrite (H2 s' _ eq_refl), Es; vm_compute; reflexivity.
Defined.


Lemma accounts_lifecycle_witness :
  exists s', user_add (Some (bytes "ada")) (Some (bytes "pw")) (sec_init demo_sec) = (Some 1001, s') /\
    user_auth s' (Some (bytes "ada")) (Some (bytes "pw")) = Some (mkCred 1001 1001 0 0).
Proof.
  destruct (user_add (Some (bytes "ada")) (Some (bytes "pw")) (sec_init demo_sec)) as [r s'] eqn:E.
  assert (r = Some 1001) as -> by (change r with (r, s').1; rewrite <- E; vm_compute; reflexivity).
  exists s'. split; [reflexivity|].
  destruct (accounts_lifecycle [] demo_sec (bytes "ada") (bytes "pw") 1001 s') as (_ & _ & H & _); [reflexivity|constructor|vm_compute; lia|exact E|].
  rewrite H. vm_compute. reflexivity.
Defined.
