(* ===== verification/Pmm.v ===== *)
(** * Physical pages, [pmm.c]

    The page allocator: a bitmap over the 131072 pages above 1 MiB, filled from the
    memory map the boot loader passes, with the lowest free page handed out first.  It
    implements a set of free pages. *)

From S2P Require Import Prelude Memory CMemory.

Local Open Scope Z_scope.

(** ** The code *)
Definition PAGE_SIZE : Z := 4096.
Definition MAX_PHYS_MEM : Z := 512 * 1024 * 1024.
Definition MAX_PAGES : Z := MAX_PHYS_MEM / PAGE_SIZE.
Definition MULTIBOOT2_TAG_TYPE_MMAP : Z := 6.
Definition MULTIBOOT2_TAG_ALIGN : Z := 8.

Record pmm := mkPmm {
  page_bitmap : list Z;
  total_pages : Z;
  free_pages : Z;
  base_addr : Z
}.

(** Every caller checks the index against [MAX_PAGES]. *)
Definition set_page_used (page_idx : Z) (p : pmm) : pmm :=
  mkPmm (alter (fun b => u8 (Z.lor b (Z.shiftl 1 (page_idx mod 8)))) (Z.to_nat (page_idx / 8)) (page_bitmap p))
    (total_pages p) (free_pages p) (base_addr p).

Definition set_page_free (page_idx : Z) (p : pmm) : pmm :=
  mkPmm (alter (fun b => u8 (Z.land b (Z.lnot (Z.shiftl 1 (page_idx mod 8))))) (Z.to_nat (page_idx / 8)) (page_bitmap p))
    (total_pages p) (free_pages p) (base_addr p).

Definition is_page_free (page_idx : Z) (p : pmm) : bool :=
  Z.land (default 0 (page_bitmap p !! Z.to_nat (page_idx / 8))) (Z.shiftl 1 (page_idx mod 8)) =? 0.

Definition add_free (d : Z) (p : pmm) : pmm := mkPmm (page_bitmap p) (total_pages p) (u64 (free_pages p + d)) (base_addr p).
Definition add_total (d : Z) (p : pmm) : pmm := mkPmm (page_bitmap p) (u64 (total_pages p + d)) (free_pages p) (base_addr p).

(** One available region: the loop over its pages. *)
Fixpoint region_loop (fuel : nat) (addr end_ : Z) (p : pmm) : outcome pmm :=
  match fuel with
  | O => Timeout
  | S f =>
      if negb (u64 (addr + PAGE_SIZE) <=? end_) then Ret p
      else
        let page_idx := u64 (addr - base_addr p) / PAGE_SIZE in
        let p' := if page_idx <? MAX_PAGES then add_free 1 (add_total 1 (set_page_free page_idx p)) else p in
        region_loop f (u64 (addr + PAGE_SIZE)) end_ p'
  end.

Definition mmap_entry (m : mem) (entry : Z) (p : pmm) : outcome pmm :=
  type ← load_le 4 m (entry + 16);
  if negb (type =? 1) then Ret p
  else
    addr ← load_le 8 m entry;
    if negb (base_addr p <=? addr) then Ret p
    else
      len ← load_le 8 m (entry + 8);
      let end_ := u64 (addr + len) in
      region_loop (S (Z.to_nat (end_ / PAGE_SIZE))) addr end_ p.

Fixpoint mmap_loop (fuel : nat) (m : mem) (tag entry_ptr mmap_end : Z) (p : pmm) : outcome pmm :=
  match fuel with
  | O => Timeout
  | S f =>
      if negb (entry_ptr <? mmap_end) then Ret p
      else
        p' ← mmap_entry m entry_ptr p;
        entry_size ← load_le 4 m (tag + 8);
        mmap_loop f m tag (entry_ptr + entry_size) mmap_end p'
  end.

(** The tags up to [end_]; the flag is [mmap_found]. *)
Fixpoint tag_loop (fuel : nat) (m : mem) (tag end_ : Z) (found : bool) (p : pmm) : outcome (bool * pmm) :=
  match fuel with
  | O => Timeout
  | S f =>
      if negb (tag <? end_) then Ret (found, p)
      else
        type ← load_le 4 m tag;
        size ← load_le 4 m (tag + 4);
        '(found, p) ← (if type =? MULTIBOOT2_TAG_TYPE_MMAP then
                         p' ← mmap_loop (S (Z.to_nat size)) m tag (tag + 16) (tag + size) p; Ret (true, p')
                       else Ret (found, p));
        tag_loop f m (Z.land (tag + size + MULTIBOOT2_TAG_ALIGN - 1) (Z.lnot (MULTIBOOT2_TAG_ALIGN - 1))) end_ found p
  end.

(** The pages of [addr, end_) that are free become used; pages below [base_addr] are
    skipped. *)
Definition reserve_page (addr : Z) (p : pmm) : pmm :=
  let page_idx := u64 (addr - base_addr p) / PAGE_SIZE in
  if (page_idx <? MAX_PAGES) && is_page_free page_idx p then add_free (-1) (set_page_used page_idx p) else p.

Fixpoint reserve_loop (fuel : nat) (addr end_ : Z) (p : pmm) : outcome pmm :=
  match fuel with
  | O => Timeout
  | S f =>
      if negb (addr <? end_) then Ret p
      else reserve_loop f (addr + PAGE_SIZE) end_ (if base_addr p <=? addr then reserve_page addr p else p)
  end.

Definition reserve (addr end_ : Z) (p : pmm) : outcome pmm :=
  reserve_loop (S (Z.to_nat ((end_ - addr + (PAGE_SIZE - 1)) / PAGE_SIZE))) addr end_ p.

(** The state before the memory map is read: [memset] of the whole bitmap. *)
Definition pmm_blank : pmm := mkPmm (replicate (Z.to_nat (MAX_PAGES / 8)) 0xFF) 0 0 0x100000.

(** [bitmap] is the address of [page_bitmap]; the result also says what was logged. *)
Definition pmm_init (im : image) (bitmap : Z) (m : mem) (mb2 : Z) : outcome (pmm * list (list Z)) :=
  total_size ← load_le 4 m mb2;
  '(mmap_found, p) ← tag_loop (S (Z.to_nat total_size)) m (mb2 + 8) (mb2 + total_size) false pmm_blank;
  let log := if mmap_found : bool then [] else [line "[PMM] ERROR: No MMAP tag found!"] in
  let kernel_end_safe := Z.max (kernel_end im + 0x100000) 0x400000 in
  p ← reserve (kernel_start im) kernel_end_safe p;
  p ← (if base_addr p <=? bitmap then reserve bitmap (bitmap + MAX_PAGES / 8) p else Ret p);
  p ← reserve (base_addr p) (Z.min (base_addr p + 0x1000000) kernel_end_safe) p;
  Ret (p, log).

(** The first free page from [i] on, [n] pages being left. *)
Fixpoint alloc_loop (n : nat) (i : Z) (p : pmm) : Z * pmm :=
  match n with
  | O => (0, p)
  | S n' =>
      if is_page_free i p then (base_addr p + i * PAGE_SIZE, add_free (-1) (set_page_used i p))
      else alloc_loop n' (i + 1) p
  end.

Definition alloc_page (p : pmm) : Z * pmm := alloc_loop (Z.to_nat MAX_PAGES) 0 p.

Definition free_page (a : Z) (p : pmm) : pmm :=
  if a <? base_addr p then p
  else
    let page_idx := (a - base_addr p) / PAGE_SIZE in
    if (page_idx <? MAX_PAGES) && negb (is_page_free page_idx p) then add_free 1 (set_page_free page_idx p) else p.

Definition pmm_total_memory (p : pmm) : Z := u64 (total_pages p * PAGE_SIZE).
Definition pmm_free_memory (p : pmm) : Z := u64 (free_pages p * PAGE_SIZE).

(** ** The set of free pages *)
Lemma MAX_PAGES_val : MAX_PAGES = 131072.
Proof. reflexivity. Qed.

Record pmm_wf (p : pmm) : Prop := {
  wf_bitmap : length (page_bitmap p) = Z.to_nat (MAX_PAGES / 8);
  wf_base : base_addr p = 0x100000
}.

Definition free_set (p : pmm) : gset Z := list_to_set (filter (fun i => is_page_free i p = true) (seqZ 0 MAX_PAGES)).

(** The counter agrees with the bitmap. *)
Definition pmm_inv (p : pmm) : Prop := pmm_wf p /\ free_pages p = Z.of_nat (size (free_set p)).

Lemma elem_of_free_set i p : i ∈ free_set p <-> (0 <= i < MAX_PAGES) /\ is_page_free i p = true.
Proof. unfold free_set. rewrite elem_of_list_to_set, list_elem_of_filter, elem_of_seqZ. tauto. Qed.

Lemma free_set_size p : (size (free_set p) <= Z.to_nat MAX_PAGES)%nat.
Proof.
  etrans; [apply (subseteq_size _ (list_to_set (seqZ 0 MAX_PAGES)))|].
  - intros i Hi. apply elem_of_free_set in Hi as [Hi _]. apply elem_of_list_to_set, elem_of_seqZ. lia.
  - rewrite size_list_to_set by apply NoDup_seqZ. by rewrite length_seqZ.
Qed.

Lemma land_bit_clear b k : 0 <= k -> (Z.land b (Z.shiftl 1 k) =? 0) = negb (Z.testbit b k).
Proof.
  intros Hk. rewrite Z.shiftl_1_l. destruct (Z.testbit b k) eqn:E; cbn [negb].
  - apply Z.eqb_neq. intros H. apply (f_equal (fun z => Z.testbit z k)) in H.
    rewrite Z.land_spec, E, Z.pow2_bits_true, Z.bits_0 in H by done. done.
  - apply Z.eqb_eq. apply Z.bits_inj. intros n. rewrite Z.land_spec, Z.bits_0. destruct (decide (n = k)) as [->|Hne]; [by rewrite E|].
    rewrite Z.pow2_bits_false, andb_false_r by done. done.
Qed.

Lemma u8_bit b k : 0 <= k < 8 -> Z.testbit (u8 b) k = Z.testbit b k.
Proof. intros Hk. unfold wrap. apply Z.mod_pow2_bits_low. lia. Qed.

Lemma is_page_free_bit i p : is_page_free i p = negb (Z.testbit (default 0 (page_bitmap p !! Z.to_nat (i / 8))) (i mod 8)).
Proof. apply land_bit_clear. pose proof (Z.mod_pos_bound i 8). lia. Qed.

(** Changing one bit of the bitmap changes one page. *)
Lemma alter_bit f v i j l :
  (forall b k, 0 <= k < 8 -> Z.testbit (f b) k = if k =? i mod 8 then v else Z.testbit b k) ->
  0 <= i -> (Z.to_nat (i / 8) < length l)%nat -> 0 <= j ->
  Z.testbit (default 0 (alter f (Z.to_nat (i / 8)) l !! Z.to_nat (j / 8))) (j mod 8) =
  if j =? i then v else Z.testbit (default 0 (l !! Z.to_nat (j / 8))) (j mod 8).
Proof.
  intros Hf Hi Hl Hj. pose proof (Z.div_mod i 8). pose proof (Z.div_mod j 8). pose proof (Z.mod_pos_bound j 8).
  assert (0 <= i / 8 /\ 0 <= j / 8) by (split; apply Z.div_pos; lia).
  destruct (decide (j / 8 = i / 8)) as [E|Hne].
  - rewrite E. apply lookup_lt_is_Some in Hl as [b Hb]. rewrite list_lookup_alter_eq, Hb. change (default 0 (f <$> Some b)) with (f b). change (default 0 (Some b)) with b.
    rewrite Hf by lia. destruct (Z.eqb_spec j i) as [->|Hji]; [by rewrite Z.eqb_refl|]. by rewrite (proj2 (Z.eqb_neq _ _)) by lia.
  - rewrite list_lookup_alter_ne by lia. by rewrite (proj2 (Z.eqb_neq j i)) by (intros ->; lia).
Qed.

Lemma page_index_in p i : pmm_wf p -> 0 <= i < MAX_PAGES -> (Z.to_nat (i / 8) < length (page_bitmap p))%nat.
Proof.
  intros [-> _] Hi. rewrite MAX_PAGES_val in *. change (131072 / 8) with 16384. pose proof (Z.div_lt_upper_bound i 8 16384). pose proof (Z.div_pos i 8). lia.
Qed.

Lemma is_page_free_used i j p :
  pmm_wf p -> 0 <= i < MAX_PAGES -> 0 <= j -> is_page_free j (set_page_used i p) = negb (j =? i) && is_page_free j p.
Proof.
  intros Hp Hi Hj. rewrite !is_page_free_bit. cbn [set_page_used page_bitmap]. rewrite (alter_bit _ true); [by destruct (j =? i)| |lia|by apply page_index_in|done].
  intros b k Hk. rewrite u8_bit, Z.lor_spec, Z.shiftl_1_l by done. pose proof (Z.mod_pos_bound i 8). rewrite Z.pow2_bits_eqb by lia.
  rewrite Z.eqb_sym. destruct (k =? i mod 8); [by rewrite orb_true_r|by rewrite orb_false_r].
Qed.

Lemma is_page_free_freed i j p :
  pmm_wf p -> 0 <= i < MAX_PAGES -> 0 <= j -> is_page_free j (set_page_free i p) = (j =? i) || is_page_free j p.
Proof.
  intros Hp Hi Hj. rewrite !is_page_free_bit. cbn [set_page_free page_bitmap]. rewrite (alter_bit _ false); [by destruct (j =? i)| |lia|by apply page_index_in|done].
  intros b k Hk. pose proof (Z.mod_pos_bound i 8). rewrite u8_bit, Z.land_spec, Z.lnot_spec, Z.shiftl_1_l, Z.pow2_bits_eqb by lia.
  rewrite Z.eqb_sym. destruct (k =? i mod 8); [by rewrite andb_false_r|by rewrite andb_true_r].
Qed.

Lemma set_used_free_set i p : pmm_wf p -> 0 <= i < MAX_PAGES -> free_set (set_page_used i p) = free_set p ∖ {[i]}.
Proof.
  intros Hp Hi. apply set_eq. intros j. rewrite elem_of_difference, elem_of_singleton, !elem_of_free_set.
  split; [intros [Hj H]|intros [[Hj H] Hne]].
  - rewrite is_page_free_used in H by (done || lia). apply andb_true_iff in H as [H1 H2]. apply negb_true_iff, Z.eqb_neq in H1. done.
  - split; [done|]. rewrite is_page_free_used, H, (proj2 (Z.eqb_neq j i)) by (done || lia). done.
Qed.

Lemma set_free_free_set i p : pmm_wf p -> 0 <= i < MAX_PAGES -> free_set (set_page_free i p) = {[i]} ∪ free_set p.
Proof.
  intros Hp Hi. apply set_eq. intros j. rewrite elem_of_union, elem_of_singleton, !elem_of_free_set.
  split; [intros [Hj H]|intros [->|[Hj H]]].
  - rewrite is_page_free_freed in H by (done || lia). apply orb_true_iff in H as [H|H]; [left; by apply Z.eqb_eq|by right].
  - split; [done|]. rewrite is_page_free_freed by (done || lia). by rewrite Z.eqb_refl.
  - split; [done|]. rewrite is_page_free_freed, H by (done || lia). apply orb_true_r.
Qed.

Lemma set_page_used_wf i p : pmm_wf p -> pmm_wf (set_page_used i p).
Proof. intros [H1 H2]. split; [|done]. cbn [set_page_used page_bitmap]. by rewrite length_alter. Qed.

Lemma set_page_free_wf i p : pmm_wf p -> pmm_wf (set_page_free i p).
Proof. intros [H1 H2]. split; [|done]. cbn [set_page_free page_bitmap]. by rewrite length_alter. Qed.

Lemma add_free_wf d p : pmm_wf p -> pmm_wf (add_free d p).
Proof. by intros [H1 H2]. Qed.

Lemma add_free_free_set d p : free_set (add_free d p) = free_set p.
Proof. apply set_eq. intros i. rewrite !elem_of_free_set. split; intros [H1 H2]; exact (conj H1 H2). Qed.

(** Taking a page that is free, and giving back one that is not. *)
Lemma take_page_ok i p :
  pmm_inv p -> i ∈ free_set p ->
  pmm_inv (add_free (-1) (set_page_used i p)) /\ free_set (add_free (-1) (set_page_used i p)) = free_set p ∖ {[i]}.
Proof.
  intros [Hw Hc] Hi. pose proof Hi as [Hr _]%elem_of_free_set.
  assert (free_set (add_free (-1) (set_page_used i p)) = free_set p ∖ {[i]}) as E by (rewrite add_free_free_set; by apply set_used_free_set).
  split; [|done]. split; [by apply add_free_wf, set_page_used_wf|]. rewrite E, size_difference by (by apply singleton_subseteq_l). rewrite size_singleton.
  cbn [add_free set_page_used free_pages]. rewrite Hc. pose proof (free_set_size p). rewrite MAX_PAGES_val in *.
  assert (size ({[i]} : gset Z) <= size (free_set p))%nat as Hone by (by apply subseteq_size, singleton_subseteq_l). rewrite size_singleton in Hone.
  rewrite wrap_small by lia. lia.
Qed.

Lemma give_page_ok i p :
  pmm_inv p -> 0 <= i < MAX_PAGES -> i ∉ free_set p ->
  pmm_inv (add_free 1 (set_page_free i p)) /\ free_set (add_free 1 (set_page_free i p)) = {[i]} ∪ free_set p.
Proof.
  intros [Hw Hc] Hr Hi.
  assert (free_set (add_free 1 (set_page_free i p)) = {[i]} ∪ free_set p) as E by (rewrite add_free_free_set; by apply set_free_free_set).
  split; [|done]. split; [by apply add_free_wf, set_page_free_wf|]. rewrite E, size_union by (by apply disjoint_singleton_l). rewrite size_singleton.
  cbn [add_free set_page_free free_pages]. rewrite Hc. pose proof (free_set_size p). rewrite MAX_PAGES_val in *.
  rewrite wrap_small by lia. lia.
Qed.

(** *** Allocation *)
Lemma alloc_loop_ok n i p :
  0 <= i -> i + Z.of_nat n = MAX_PAGES -> (forall j, j ∈ free_set p -> i <= j) ->
  (free_set p = ∅ /\ alloc_loop n i p = (0, p)) \/
  exists k, k ∈ free_set p /\ (forall j, j ∈ free_set p -> k <= j) /\
    alloc_loop n i p = (base_addr p + k * PAGE_SIZE, add_free (-1) (set_page_used k p)).
Proof.
  revert i. induction n as [|n IH]; intros i Hi Hn Hall; cbn [alloc_loop].
  - left. split; [|done]. apply set_eq. intros j. split; [|intros H; by apply elem_of_empty in H].
    intros Hj. pose proof (Hall j Hj). apply elem_of_free_set in Hj as [Hj _]. lia.
  - destruct (is_page_free i p) eqn:E.
    + right. exists i. split; [apply elem_of_free_set; split; [lia|done]|]. by split.
    + apply IH; [lia|lia|]. intros j Hj. pose proof (Hall j Hj). destruct (decide (j = i)) as [->|]; [|lia].
      apply elem_of_free_set in Hj as [_ Hj]. by rewrite Hj in E.
Qed.

Lemma alloc_page_ok p :
  pmm_inv p ->
  (free_set p = ∅ /\ alloc_page p = (0, p)) \/
  exists k p', k ∈ free_set p /\ (forall j, j ∈ free_set p -> k <= j) /\
    alloc_page p = (0x100000 + k * PAGE_SIZE, p') /\ pmm_inv p' /\ free_set p' = free_set p ∖ {[k]}.
Proof.
  intros Hp. destruct (alloc_loop_ok (Z.to_nat MAX_PAGES) 0 p) as [H|(k & Hk & Hmin & E)]; [done|by rewrite MAX_PAGES_val| |by left|].
  - intros j Hj. apply elem_of_free_set in Hj. lia.
  - right. exists k, (add_free (-1) (set_page_used k p)). destruct (take_page_ok k p Hp Hk) as [H1 H2].
    destruct Hp as [[_ Hb] _]. rewrite Hb in E. done.
Qed.

(** The page an address belongs to. *)
Definition page_of (a : Z) : Z := (a - 0x100000) / PAGE_SIZE.

Lemma free_page_ok a p :
  pmm_inv p ->
  pmm_inv (free_page a p) /\
  free_set (free_page a p) = (if (0x100000 <=? a) && (page_of a <? MAX_PAGES) then {[page_of a]} else ∅) ∪ free_set p.
Proof.
  intros Hp. unfold free_page. pose proof Hp as [[_ Hb] _]. rewrite Hb. fold (page_of a).
  destruct (Z.ltb_spec a 0x100000); [rewrite (proj2 (Z.leb_gt 0x100000 a)) by lia; cbn [andb]; by rewrite (left_id_L ∅ (∪))|].
  rewrite (proj2 (Z.leb_le 0x100000 a)) by lia. cbn [andb]. assert (0 <= page_of a) as H0 by (apply Z.div_pos; unfold PAGE_SIZE; lia).
  destruct (Z.ltb_spec (page_of a) MAX_PAGES) as [Hm|]; cbn [andb]; [|by rewrite (left_id_L ∅ (∪))].
  destruct (is_page_free (page_of a) p) eqn:E; cbn [negb].
  - split; [done|]. symmetry. apply subseteq_union_1_L, singleton_subseteq_l, elem_of_free_set. done.
  - apply give_page_ok; [done..|]. intros Hf. apply elem_of_free_set in Hf as [_ Hf]. by rewrite Hf in E.
Qed.

(** ** Clients

    A run of the allocator with the pages its clients hold: a client frees only a page
    it holds. *)
Inductive pmm_op := Alloc | Free (a : Z).

Definition pmm_step (o : pmm_op) (s : pmm * list Z) : pmm * list Z :=
  match o with
  | Alloc => let (a, p') := alloc_page s.1 in (p', if a =? 0 then s.2 else a :: s.2)
  | Free a => if bool_decide (a ∈ s.2) then (free_page a s.1, list_difference s.2 [a]) else s
  end.

Definition pmm_run (ops : list pmm_op) (s : pmm * list Z) : pmm * list Z := fold_left (fun s o => pmm_step o s) ops s.

(** What holds of the free and the held pages, [F] being the pages free at the start. *)
Record pmm_shared (F : gset Z) (s : pmm * list Z) : Prop := {
  sh_inv : pmm_inv s.1;
  sh_dup : NoDup s.2;
  sh_held : Forall (fun a => exists k, k ∈ F /\ a = 0x100000 + k * PAGE_SIZE) s.2;
  sh_part : forall k, k ∈ F <-> k ∈ free_set s.1 \/ 0x100000 + k * PAGE_SIZE ∈ s.2;
  sh_apart : forall k, k ∈ free_set s.1 -> 0x100000 + k * PAGE_SIZE ∉ s.2
}.

Lemma page_of_at k : page_of (0x100000 + k * PAGE_SIZE) = k.
Proof. unfold page_of, PAGE_SIZE. replace (0x100000 + k * 4096 - 0x100000) with (k * 4096) by lia. apply Z.div_mul. lia. Qed.

Lemma pmm_step_shared F o s : F ⊆ list_to_set (seqZ 0 MAX_PAGES) -> pmm_shared F s -> pmm_shared F (pmm_step o s).
Proof.
  intros HF [Hi Hd Hh Hp Ha]. destruct s as [p held]; cbn [fst snd] in *. destruct o as [|a]; cbn [pmm_step fst snd].
  - destruct (alloc_page_ok p Hi) as [[_ ->]|(k & p' & Hk & _ & -> & Hi' & Hf)]; [by split|].
    assert (k ∈ F) as HkF by (apply Hp; by left). pose proof (HF k HkF) as Hr. apply elem_of_list_to_set, elem_of_seqZ in Hr.
    rewrite (proj2 (Z.eqb_neq _ _)) by (unfold PAGE_SIZE; lia). split; cbn [fst snd].
    + done.
    + constructor; [by apply Ha|done].
    + constructor; [by exists k|done].
    + intros j. rewrite Hp, Hf, elem_of_difference, elem_of_singleton, elem_of_cons. unfold PAGE_SIZE in *.
      destruct (decide (j = k)) as [->|Hne]; [tauto|]. assert (0x100000 + j * 4096 <> 0x100000 + k * 4096) by lia. tauto.
    + intros j. rewrite Hf, elem_of_difference, elem_of_singleton, elem_of_cons. intros [Hj Hne] [H|H]; [unfold PAGE_SIZE in H; lia|by apply (Ha j)].
  - case_bool_decide as Hin; [|by split]. destruct (free_page_ok a p Hi) as [Hi' Hf]. rewrite Forall_forall in Hh.
    destruct (Hh a Hin) as (k & HkF & ->). pose proof (HF k HkF) as Hr. apply elem_of_list_to_set, elem_of_seqZ in Hr.
    rewrite page_of_at in Hf. rewrite (proj2 (Z.leb_le _ _)), (proj2 (Z.ltb_lt k _)) in Hf by (unfold PAGE_SIZE; lia). cbn [andb] in Hf.
    split; cbn [fst snd].
    + done.
    + by apply NoDup_list_difference.
    + apply Forall_forall. intros b Hb. apply Hh. by apply list_elem_of_difference in Hb as [Hb _].
    + intros j. rewrite Hp, Hf, elem_of_union, elem_of_singleton, list_elem_of_difference, list_elem_of_singleton. unfold PAGE_SIZE in *.
      destruct (decide (j = k)) as [->|Hne]; [tauto|]. assert (0x100000 + j * 4096 <> 0x100000 + k * 4096) by lia. tauto.
    + intros j. rewrite Hf, elem_of_union, elem_of_singleton, list_elem_of_difference, list_elem_of_singleton.
      intros [->|Hj] [Hj' Hne]; [done|by apply (Ha j)].
Qed.

(** ** The boot loader's memory map *)
Record region := mkRegion { r_addr : Z; r_len : Z; r_type : Z; r_reserved : Z }.

Inductive mb2_tag :=
| TagMmap (version : Z) (rs : list region)
| TagOther (type : Z) (payload : list Z).

Definition entry_bytes (r : region) : list Z :=
  le_bytes 8 (r_addr r) ++ le_bytes 8 (r_len r) ++ le_bytes 4 (r_type r) ++ le_bytes 4 (r_reserved r).

Definition tag_body (t : mb2_tag) : list Z :=
  match t with
  | TagMmap v rs => le_bytes 4 6 ++ le_bytes 4 (16 + 24 * Z.of_nat (length rs)) ++ le_bytes 4 24 ++ le_bytes 4 v ++ concat (entry_bytes <$> rs)
  | TagOther ty pl => le_bytes 4 ty ++ le_bytes 4 (8 + Z.of_nat (length pl)) ++ pl
  end.

(** Tags are padded to eight bytes. *)
Definition pad8 (n : Z) : Z := (n + 7) / 8 * 8.

Definition tag_bytes (t : mb2_tag) : list Z :=
  let b := tag_body t in b ++ replicate (Z.to_nat (pad8 (Z.of_nat (length b))) - length b) 0.

Definition info_bytes (ts : list mb2_tag) : list Z :=
  let b := concat (tag_bytes <$> ts) in le_bytes 4 (8 + Z.of_nat (length b)) ++ le_bytes 4 0 ++ b.

Definition regions (ts : list mb2_tag) : list region :=
  concat ((fun t => match t with TagMmap _ rs => rs | TagOther _ _ => [] end) <$> ts).

(** Page-aligned regions inside the address space. *)
Definition region_ok (r : region) : Prop :=
  0 <= r_addr r /\ 0 <= r_len r /\ r_addr r + r_len r + PAGE_SIZE < 2 ^ 64 /\ 0 <= r_type r < 2 ^ 32 /\ r_addr r mod PAGE_SIZE = 0.

Definition tag_ok (t : mb2_tag) : Prop :=
  match t with
  | TagMmap _ rs => Forall region_ok rs
  | TagOther ty _ => 0 <= ty < 2 ^ 32 /\ ty <> 6
  end.

Definition pages_from (j n : Z) : gset Z := list_to_set (filter (fun i => i < MAX_PAGES) (seqZ j n)).

Definition region_pages (r : region) : gset Z :=
  if (r_type r =? 1) && (0x100000 <=? r_addr r) then pages_from (page_of (r_addr r)) (r_len r / PAGE_SIZE) else ∅.

Definition available (rs : list region) : gset Z := ⋃ (region_pages <$> rs).

(** The pages managed and free before the reservations, counted twice. *)
Definition counted (p : pmm) : Prop := pmm_inv p /\ total_pages p = Z.of_nat (size (free_set p)).

Lemma elem_of_pages_from i j n : i ∈ pages_from j n <-> i < MAX_PAGES /\ j <= i < j + n.
Proof. unfold pages_from. rewrite elem_of_list_to_set, list_elem_of_filter, elem_of_seqZ. done. Qed.

Lemma u64_index j : 0 <= j -> 0x100000 + 4096 * j < 2 ^ 64 -> u64 (0x100000 + 4096 * j - 0x100000) / PAGE_SIZE = j.
Proof.
  intros Hj Hb. replace (0x100000 + 4096 * j - 0x100000) with (j * PAGE_SIZE) by (unfold PAGE_SIZE; lia).
  rewrite wrap_small by (unfold PAGE_SIZE; lia). by apply Z.div_mul.
Qed.

Lemma add_total_free_set d p : free_set (add_total d p) = free_set p.
Proof. apply set_eq. intros i. rewrite !elem_of_free_set. split; intros [H1 H2]; exact (conj H1 H2). Qed.

Lemma count_page_ok j p :
  counted p -> 0 <= j < MAX_PAGES -> j ∉ free_set p ->
  counted (add_free 1 (add_total 1 (set_page_free j p))) /\ free_set (add_free 1 (add_total 1 (set_page_free j p))) = {[j]} ∪ free_set p.
Proof.
  intros [[Hw Hf] Ht] Hj Hn. assert (free_set (add_free 1 (add_total 1 (set_page_free j p))) = {[j]} ∪ free_set p) as E.
  { rewrite add_free_free_set, add_total_free_set. by apply set_free_free_set. }
  pose proof (free_set_size p). rewrite MAX_PAGES_val in *. split; [|exact E]. split; [split|].
  - destruct Hw as [H1 H2]. split; [|exact H2]. cbn [set_page_free add_free add_total page_bitmap]. by rewrite length_alter.
  - rewrite E, size_union, size_singleton by (by apply disjoint_singleton_l). cbn [add_free add_total set_page_free free_pages]. rewrite Hf, wrap_small by lia. lia.
  - rewrite E, size_union, size_singleton by (by apply disjoint_singleton_l). cbn [add_free add_total set_page_free total_pages]. rewrite Ht, wrap_small by lia. lia.
Qed.

Lemma region_loop_ok n : forall fuel j end_ p,
  counted p -> 0 <= j -> free_set p ## pages_from j (Z.of_nat n) -> 0x100000 + 4096 * (j + Z.of_nat n + 1) < 2 ^ 64 ->
  4096 * Z.of_nat n <= end_ - (0x100000 + 4096 * j) < 4096 * (Z.of_nat n + 1) -> (n < fuel)%nat ->
  exists p', region_loop fuel (0x100000 + 4096 * j) end_ p = Ret p' /\ counted p' /\ free_set p' = free_set p ∪ pages_from j (Z.of_nat n).
Proof.
  induction n as [|n IH]; intros [|f] j end_ p Hc Hj Hdis Hb He Hf; [lia| |lia|]; cbn [region_loop].
  - exists p. rewrite wrap_small by (unfold PAGE_SIZE; lia). rewrite (proj2 (Z.leb_gt _ _)) by (unfold PAGE_SIZE; lia). split; [done|]. split; [done|].
    symmetry. apply (right_id_L ∅ (∪)).
  - rewrite (wrap_small 64 (_ + PAGE_SIZE)) by (unfold PAGE_SIZE; lia). rewrite (proj2 (Z.leb_le _ _)) by (unfold PAGE_SIZE; lia). cbn [negb].
    pose proof Hc as [Hi Ht]. pose proof Hi as [[_ Hbase] _]. rewrite Hbase, u64_index by lia.
    replace (0x100000 + 4096 * j + PAGE_SIZE) with (0x100000 + 4096 * (j + 1)) by (unfold PAGE_SIZE; lia).
    destruct (Z.ltb_spec j MAX_PAGES) as [Hm|Hm].
    + assert (j ∉ free_set p) as Hnf.
      { intros H. apply (Hdis j H). rewrite elem_of_pages_from. lia. }
      destruct (count_page_ok j p Hc ltac:(lia) Hnf) as [Hc1 Hf1].
      destruct (IH f (j + 1) end_ (add_free 1 (add_total 1 (set_page_free j p)))) as (p' & E & Hc' & Hs); [exact Hc1|lia| |lia|lia|lia|].
      * rewrite Hf1. intros i Hi1 Hi2. apply elem_of_pages_from in Hi2 as [H1 H2].
        apply elem_of_union in Hi1 as [Hi1|Hi1]; [apply elem_of_singleton in Hi1; lia|]. apply (Hdis i Hi1). rewrite elem_of_pages_from. lia.
      * exists p'. split; [exact E|]. split; [done|]. rewrite Hs, Hf1. apply set_eq. intros i. rewrite !elem_of_union, elem_of_singleton, !elem_of_pages_from.
        destruct (decide (i = j)) as [->|Hne]; [split; intros _; [right; lia|by left; left]|]. split; [intros [[H|H]|H]|intros [H|H]]; [done|by left|right; lia|left; by right|right; lia].
    + destruct (IH f (j + 1) end_ p) as (p' & E & Hc' & Hs); [done|lia| |lia|lia|lia|].
      * intros i _ Hi2. apply elem_of_pages_from in Hi2. lia.
      * exists p'. split; [exact E|]. split; [done|]. rewrite Hs. f_equal. apply set_eq. intros i. rewrite !elem_of_pages_from. lia.
Qed.

Lemma mmap_entry_ok m entry r p :
  bytes_at m entry (entry_bytes r) -> region_ok r -> counted p -> free_set p ## region_pages r ->
  exists p', mmap_entry m entry p = Ret p' /\ counted p' /\ free_set p' = free_set p ∪ region_pages r.
Proof.
  intros Hb (Ha & Hl & He & Ht & Hal) Hc Hd. unfold entry_bytes in Hb. rewrite !bytes_at_app, !le_bytes_length in Hb. destruct Hb as (Hb1 & Hb2 & Hb3 & _).
  unfold mmap_entry. rewrite (load_le_at 4 m (entry + 16) (r_type r)); [|exact Ht|by rewrite <- Z.add_assoc in Hb3]. step_ret.
  unfold region_pages in *. destruct (Z.eqb_spec (r_type r) 1) as [E1|E1]; cbn [negb andb] in *; [|exists p; split; [done|]; split; [done|]; by rewrite (right_id_L ∅ (∪))].
  rewrite (load_le_at 8 m entry (r_addr r)); [|unfold PAGE_SIZE in He; cbn; lia|exact Hb1]. step_ret. pose proof Hc as [[[_ Hbase] _] _]. rewrite Hbase.
  destruct (Z.leb_spec 0x100000 (r_addr r)) as [H1|H1]; cbn [negb] in *; [|exists p; split; [done|]; split; [done|]; by rewrite (right_id_L ∅ (∪))].
  rewrite (load_le_at 8 m (entry + 8) (r_len r)); [|unfold PAGE_SIZE in He; cbn; lia|exact Hb2]. step_ret. rewrite wrap_small by (unfold PAGE_SIZE in He; lia).
  unfold PAGE_SIZE in Hal, He. pose proof (Z.div_mod (r_addr r) 4096). set (j := page_of (r_addr r)) in *.
  assert (r_addr r = 0x100000 + 4096 * j) as Ej.
  { unfold j, page_of, PAGE_SIZE. rewrite <- (Z_div_exact_2 (r_addr r - 0x100000) 4096); [lia|lia|]. rewrite Zminus_mod, Hal. done. }
  pose proof (Z.div_mod (r_len r) 4096). pose proof (Z.mod_pos_bound (r_len r) 4096). assert (0 <= r_len r / 4096) by (apply Z.div_pos; lia).
  rewrite Ej. destruct (region_loop_ok (Z.to_nat (r_len r / 4096)) (S (Z.to_nat ((0x100000 + 4096 * j + r_len r) / PAGE_SIZE))) j (0x100000 + 4096 * j + r_len r) p) as (p' & E & Hc' & Hs).
  - done.
  - lia.
  - by rewrite Z2Nat.id.
  - lia.
  - lia.
  - assert (r_len r / 4096 <= (0x100000 + 4096 * j + r_len r) / PAGE_SIZE) by (apply Z.div_le_mono; unfold PAGE_SIZE; lia). lia.
  - rewrite Z2Nat.id in Hs by done. by exists p'.
Qed.

(** No page is in two regions. *)
Fixpoint disjoint_regions (rs : list region) : Prop :=
  match rs with [] => True | r :: rs' => region_pages r ## available rs' /\ disjoint_regions rs' end.

Lemma available_cons r rs : available (r :: rs) = region_pages r ∪ available rs.
Proof. done. Qed.

Lemma available_app rs rs' : available (rs ++ rs') = available rs ∪ available rs'.
Proof. unfold available. by rewrite fmap_app, union_list_app_L. Qed.

Lemma disjoint_regions_app rs rs' :
  disjoint_regions (rs ++ rs') -> disjoint_regions rs /\ disjoint_regions rs' /\ available rs ## available rs'.
Proof.
  induction rs as [|r rs IH]; cbn [app disjoint_regions].
  - intros H. split; [done|]. split; [done|]. apply disjoint_empty_l.
  - rewrite available_app. intros [H1 H2]. destruct (IH H2) as (Ha & Hb & Hc). apply disjoint_union_r in H1 as [H1 H1']. split; [by split|].
    split; [done|]. rewrite available_cons. by apply disjoint_union_l.
Qed.

Lemma length_entry_bytes r : length (entry_bytes r) = 24%nat.
Proof. unfold entry_bytes. by rewrite !length_app, !le_bytes_length. Qed.

Lemma length_entries rs : length (concat (entry_bytes <$> rs)) = (24 * length rs)%nat.
Proof. induction rs as [|r rs IH]; [done|]. cbn [fmap list_fmap concat length]. rewrite length_app, length_entry_bytes. change (list_fmap _ _ entry_bytes rs) with (entry_bytes <$> rs). rewrite IH. lia. Qed.

Lemma mmap_loop_ok m tag rs : forall fuel ptr p,
  bytes_at m (tag + 8) (le_bytes 4 24) -> bytes_at m ptr (concat (entry_bytes <$> rs)) -> Forall region_ok rs -> disjoint_regions rs ->
  counted p -> free_set p ## available rs -> (length rs < fuel)%nat ->
  exists p', mmap_loop fuel m tag ptr (ptr + 24 * Z.of_nat (length rs)) p = Ret p' /\ counted p' /\ free_set p' = free_set p ∪ available rs.
Proof.
  induction rs as [|r rs IH]; intros [|f] ptr p Ht Hb Hr Hd Hc Hf Hl; cbn [length] in *; [lia| |lia|]; cbn [mmap_loop].
  - rewrite (proj2 (Z.ltb_ge _ _)) by lia. exists p. split; [done|]. split; [done|]. symmetry. apply (right_id_L ∅ (∪)).
  - rewrite (proj2 (Z.ltb_lt _ _)) by lia. cbn [negb]. apply Forall_cons in Hr as [Hr Hrs]. destruct Hd as [Hd Hds]. rewrite available_cons in Hf |- *.
    apply disjoint_union_r in Hf as [Hf1 Hf2]. change (concat (entry_bytes <$> r :: rs)) with (entry_bytes r ++ concat (entry_bytes <$> rs)) in Hb.
    apply bytes_at_app in Hb as [Hb1 Hb2]. rewrite length_entry_bytes in Hb2.
    destruct (mmap_entry_ok m ptr r p) as (p1 & E & Hc1 & Hs1); [done..|]. rewrite E. step_ret.
    rewrite (load_le_at 4 m (tag + 8) 24) by done. step_ret.
    destruct (IH f (ptr + 24) p1) as (p2 & E2 & Hc2 & Hs2); [done..| |lia|].
    { rewrite Hs1. by apply disjoint_union_l. }
    exists p2. split; [|split; [done|by rewrite Hs2, Hs1, (assoc_L (∪))]].
    rewrite <- E2. f_equal. lia.
Qed.

Lemma pad8_bounds n : 0 <= n -> n <= pad8 n < n + 8 /\ pad8 n mod 8 = 0.
Proof.
  intros Hn. unfold pad8. pose proof (Z.div_mod (n + 7) 8). pose proof (Z.mod_pos_bound (n + 7) 8).
  split; [lia|]. apply Z.mod_mul. lia.
Qed.

Lemma next_tag tag n :
  tag mod 8 = 0 -> Z.land (tag + n + MULTIBOOT2_TAG_ALIGN - 1) (Z.lnot (MULTIBOOT2_TAG_ALIGN - 1)) = tag + pad8 n.
Proof.
  intros Ht. unfold MULTIBOOT2_TAG_ALIGN, pad8. rewrite <- Z.ldiff_land. change (8 - 1) with (Z.ones 3).
  rewrite Z.ldiff_ones_r, Z.shiftl_mul_pow2, Z.shiftr_div_pow2 by done. change (2 ^ 3) with 8.
  pose proof (Z.div_mod tag 8). replace (tag + n + 8 - 1) with (n + 7 + tag / 8 * 8) by lia. rewrite Z.div_add by lia. lia.
Qed.

Lemma length_tag_bytes t : Z.of_nat (length (tag_bytes t)) = pad8 (Z.of_nat (length (tag_body t))).
Proof.
  unfold tag_bytes. rewrite length_app, length_replicate. pose proof (pad8_bounds (Z.of_nat (length (tag_body t)))). lia.
Qed.

Definition tag_type (t : mb2_tag) : Z := match t with TagMmap _ _ => 6 | TagOther ty _ => ty end.

Lemma tag_header m tag t :
  tag_ok t -> bytes_at m tag (tag_body t) -> Z.of_nat (length (tag_body t)) < 2 ^ 32 ->
  load_le 4 m tag = Ret (tag_type t) /\ load_le 4 m (tag + 4) = Ret (Z.of_nat (length (tag_body t))).
Proof.
  intros Ht Hb Hl. destruct t as [v rs|ty pl]; cbn [tag_body tag_type tag_ok] in *.
  - rewrite !length_app, !le_bytes_length, length_entries in *. rewrite !bytes_at_app, !le_bytes_length in Hb. destruct Hb as (H1 & H2 & _).
    split; [apply load_le_at; [cbn; lia|done]|]. replace (Z.of_nat _) with (16 + 24 * Z.of_nat (length rs)) by lia. apply load_le_at; [cbn; lia|done].
  - rewrite !length_app, !le_bytes_length in *. rewrite !bytes_at_app, !le_bytes_length in Hb. destruct Hb as (H1 & H2 & _).
    split; [apply load_le_at; [cbn; lia|done]|]. replace (Z.of_nat _) with (8 + Z.of_nat (length pl)) by lia. apply load_le_at; [cbn; lia|done].
Qed.

Definition tag_regions (t : mb2_tag) : list region := match t with TagMmap _ rs => rs | TagOther _ _ => [] end.

Lemma one_tag_ok m tag t found p :
  tag_ok t -> bytes_at m tag (tag_body t) -> disjoint_regions (tag_regions t) -> counted p -> free_set p ## available (tag_regions t) ->
  exists found' p',
    (if tag_type t =? MULTIBOOT2_TAG_TYPE_MMAP then
       p' ← mmap_loop (S (Z.to_nat (Z.of_nat (length (tag_body t))))) m tag (tag + 16) (tag + Z.of_nat (length (tag_body t))) p; Ret (true, p')
     else Ret (found, p)) = Ret (found', p') /\
    counted p' /\ free_set p' = free_set p ∪ available (tag_regions t).
Proof.
  intros Ht Hb Hd Hc Hf. destruct t as [v rs|ty pl]; cbn [tag_type tag_body tag_regions tag_ok] in *.
  - change (6 =? MULTIBOOT2_TAG_TYPE_MMAP) with true. rewrite !bytes_at_app, !le_bytes_length in Hb. destruct Hb as (_ & _ & H3 & _ & H5).
    rewrite !length_app, !le_bytes_length, length_entries.
    destruct (mmap_loop_ok m tag rs (S (Z.to_nat (Z.of_nat (4 + (4 + (4 + (4 + 24 * length rs))))))) (tag + 16) p) as (p' & E & Hc' & Hs); [| |done..|lia|].
    + by rewrite <- Z.add_assoc in H3.
    + by rewrite <- !Z.add_assoc in H5.
    + exists true, p'. replace (tag + Z.of_nat _) with (tag + 16 + 24 * Z.of_nat (length rs)) by lia. by rewrite E.
  - rewrite (proj2 (Z.eqb_neq ty _)) by (unfold MULTIBOOT2_TAG_TYPE_MMAP; lia). exists found, p. split; [done|]. split; [done|]. symmetry. apply (right_id_L ∅ (∪)).
Qed.

Lemma tag_loop_ok m ts : forall fuel tag found p,
  tag mod 8 = 0 -> bytes_at m tag (concat (tag_bytes <$> ts)) -> Forall tag_ok ts -> disjoint_regions (regions ts) -> counted p ->
  free_set p ## available (regions ts) -> Z.of_nat (length (concat (tag_bytes <$> ts))) < 2 ^ 32 -> (length ts < fuel)%nat ->
  exists found' p', tag_loop fuel m tag (tag + Z.of_nat (length (concat (tag_bytes <$> ts)))) found p = Ret (found', p') /\
    counted p' /\ free_set p' = free_set p ∪ available (regions ts).
Proof.
  induction ts as [|t ts IH]; intros [|f] tag found p Hal Hb Ht Hd Hc Hf Hlen Hl; cbn [length] in *; [lia| |lia|]; cbn [tag_loop].
  - rewrite (proj2 (Z.ltb_ge _ _)) by (cbn; lia). exists found, p. split; [done|]. split; [done|]. symmetry. apply (right_id_L ∅ (∪)).
  - change (concat (tag_bytes <$> t :: ts)) with (tag_bytes t ++ concat (tag_bytes <$> ts)) in *.
    change (regions (t :: ts)) with (tag_regions t ++ regions ts) in *. apply Forall_cons in Ht as [Ht Hts].
    apply disjoint_regions_app in Hd as (Hd1 & Hd2 & Hd3). rewrite available_app in Hf |- *. apply disjoint_union_r in Hf as [Hf1 Hf2].
    rewrite length_app, Nat2Z.inj_add, length_tag_bytes in Hlen |- *. apply bytes_at_app in Hb as [Hb1 Hb2]. rewrite length_tag_bytes in Hb2.
    unfold tag_bytes in Hb1. apply bytes_at_app in Hb1 as [Hb1 _]. destruct (pad8_bounds (Z.of_nat (length (tag_body t)))) as [Hp1 Hp2]; [lia|].
    assert (0 < length (tag_body t))%nat by (destruct t; cbn [tag_body]; rewrite !length_app, !le_bytes_length; lia).
    rewrite (proj2 (Z.ltb_lt _ _)) by lia. cbn [negb]. destruct (tag_header m tag t) as [-> ->]; [done|done|lia|]. step_ret.
    destruct (one_tag_ok m tag t found p) as (found1 & p1 & E & Hc1 & Hs1); [done..|]. rewrite E. step_ret. rewrite next_tag by done.
    destruct (IH f (tag + pad8 (Z.of_nat (length (tag_body t)))) found1 p1) as (found2 & p2 & E2 & Hc2 & Hs2); [|done|done|done|done| |lia|lia|].
    + rewrite Z.add_mod, Hal, Hp2 by lia. done.
    + rewrite Hs1. by apply disjoint_union_l.
    + exists found2, p2. rewrite Z.add_assoc. split; [exact E2|]. split; [done|]. by rewrite Hs2, Hs1, (assoc_L (∪)).
Qed.

(** *** Reservations *)
Lemma reserve_page_ok j p :
  pmm_inv p -> 0 <= j -> 0x100000 + j < 2 ^ 64 ->
  let p' := reserve_page (0x100000 + j) p in
  pmm_inv p' /\ total_pages p' = total_pages p /\ free_set p' = free_set p ∖ {[j / PAGE_SIZE]}.
Proof.
  intros Hp Hj Hb. unfold reserve_page. pose proof Hp as [[_ Hbase] _]. rewrite Hbase, wrap_small by lia.
  replace (0x100000 + j - 0x100000) with j by lia. cbv zeta. destruct (_ && _) eqn:E.
  - apply andb_true_iff in E as [E1 E2]. apply Z.ltb_lt in E1. assert (0 <= j / PAGE_SIZE) by (apply Z.div_pos; [lia|done]).
    destruct (take_page_ok (j / PAGE_SIZE) p Hp) as [H1 H2]; [apply elem_of_free_set; done|]. done.
  - split; [done|]. split; [done|]. apply set_eq. intros i. rewrite elem_of_difference, elem_of_singleton. split; [|tauto]. intros Hi.
    split; [done|]. intros ->. apply elem_of_free_set in Hi as [Hi1 Hi2]. by rewrite Hi2, (proj2 (Z.ltb_lt _ _)) in E by lia.
Qed.

(** The pages hit from [0x100000 + j] on, up to [end_]. *)
Definition hit (j end_ i : Z) : Prop := exists k, 0 <= k /\ 0x100000 + j + k * PAGE_SIZE < end_ /\ i = (j + k * PAGE_SIZE) / PAGE_SIZE.

Lemma reserve_loop_ok fuel : forall j end_ p,
  pmm_inv p -> 0 <= j -> end_ < 2 ^ 63 -> end_ <= 0x100000 + j + PAGE_SIZE * Z.of_nat fuel - PAGE_SIZE -> (0 < fuel)%nat ->
  exists p', reserve_loop fuel (0x100000 + j) end_ p = Ret p' /\ pmm_inv p' /\ total_pages p' = total_pages p /\
    forall i, i ∈ free_set p' <-> i ∈ free_set p /\ ~ hit j end_ i.
Proof.
  induction fuel as [|f IH]; intros j end_ p Hp Hj He Hf H0; [lia|]. cbn [reserve_loop]. unfold PAGE_SIZE in Hf. destruct (Z.ltb_spec (0x100000 + j) end_) as [Hlt|Hge]; cbn [negb].
  - pose proof Hp as [[_ Hbase] _]. rewrite Hbase, (proj2 (Z.leb_le _ _)) by lia. destruct (reserve_page_ok j p Hp Hj ltac:(lia)) as (Hp1 & Ht1 & Hs1).
    rewrite <- Z.add_assoc. destruct (IH (j + PAGE_SIZE) end_ (reserve_page (0x100000 + j) p)) as (p' & E & Hp' & Ht' & Hs'); [done|unfold PAGE_SIZE; lia|lia|unfold PAGE_SIZE; lia|lia|].
    exists p'. split; [exact E|]. split; [done|]. split; [by rewrite Ht'|]. intros i. rewrite Hs', Hs1, elem_of_difference, elem_of_singleton.
    split.
    + intros [[Hi Hne] Hn]. split; [done|]. intros (k & Hk & Hlt' & ->). destruct (decide (k = 0)) as [->|Hk0]; [apply Hne; f_equal; lia|].
      apply Hn. exists (k - 1). unfold PAGE_SIZE in *. split; [lia|]. split; [lia|]. f_equal. lia.
    + intros [Hi Hn]. split; [split; [done|]|].
      * intros ->. apply Hn. exists 0. unfold PAGE_SIZE. split; [lia|]. split; [lia|]. f_equal. lia.
      * intros (k & Hk & Hlt' & ->). apply Hn. exists (k + 1). unfold PAGE_SIZE in *. split; [lia|]. split; [lia|]. f_equal. lia.
  - exists p. split; [done|]. split; [done|]. split; [done|]. intros i. split; [|by intros [H _]]. intros Hi. split; [done|].
    intros (k & Hk & Hlt & _). unfold PAGE_SIZE in Hlt. lia.
Qed.

Lemma reserve_ok a end_ p :
  pmm_inv p -> 0x100000 <= a -> end_ < 2 ^ 63 ->
  exists p', reserve a end_ p = Ret p' /\ pmm_inv p' /\ total_pages p' = total_pages p /\
    forall i, i ∈ free_set p' <-> i ∈ free_set p /\ ~ hit (a - 0x100000) end_ i.
Proof.
  intros Hp Ha He. unfold reserve. set (fuel := S _). pose proof (reserve_loop_ok fuel (a - 0x100000) end_ p) as Hr.
  replace (0x100000 + (a - 0x100000)) with a in Hr by lia. apply Hr; [done|lia|lia| |unfold fuel; lia].
  unfold fuel. set (q := (end_ - a + (PAGE_SIZE - 1)) / PAGE_SIZE). unfold PAGE_SIZE in *. pose proof (Z.div_mod (end_ - a + (4096 - 1)) 4096). pose proof (Z.mod_pos_bound (end_ - a + (4096 - 1)) 4096).
  fold q in H. lia.
Qed.

(** ** The allocator from boot on *)

(** The kernel's image starts on a page of the first 16 MiB above 1 MiB and holds the
    bitmap. *)
Record pmm_image (im : image) (bitmap : Z) : Prop := {
  pi_ok : image_ok im;
  pi_start : kernel_start im mod PAGE_SIZE = 0 /\ kernel_start im <= 0x1100000;
  pi_bitmap : kernel_start im <= bitmap /\ bitmap + MAX_PAGES / 8 <= kernel_end im
}.

(** The end of the reserved memory. *)
Definition reserved_end (im : image) : Z := Z.max (kernel_end im + 0x100000) 0x400000.

Lemma hit_aligned a end_ i :
  0x100000 <= a -> a mod PAGE_SIZE = 0 -> 0 <= i ->
  hit (a - 0x100000) end_ i <-> a <= 0x100000 + i * PAGE_SIZE < end_.
Proof.
  intros Ha Hm Hi. unfold hit, PAGE_SIZE in *. pose proof (Z.div_mod a 4096). split.
  - intros (k & Hk & Hlt & ->). replace (a - 0x100000 + k * 4096) with ((a / 4096 - 256 + k) * 4096) by lia. rewrite Z.div_mul by lia. lia.
  - intros H1. exists (i - (a / 4096 - 256)). split; [lia|]. split; [lia|].
    replace (a - 0x100000 + (i - (a / 4096 - 256)) * 4096) with (i * 4096) by lia. by rewrite Z.div_mul by lia.
Qed.

Lemma blank_page i : 0 <= i < MAX_PAGES -> is_page_free i pmm_blank = false.
Proof.
  intros Hi. rewrite is_page_free_bit. cbn [pmm_blank page_bitmap]. rewrite lookup_replicate_2.
  - change (default 0 (Some 255)) with (Z.ones 8). pose proof (Z.mod_pos_bound i 8). by rewrite Z.ones_spec_low by lia.
  - rewrite MAX_PAGES_val in *. change (131072 / 8) with 16384. pose proof (Z.div_lt_upper_bound i 8 16384). pose proof (Z.div_pos i 8). lia.
Qed.

Lemma blank_free_set : free_set pmm_blank = ∅.
Proof.
  generalize (fun i => blank_page i). generalize pmm_blank. intros p H. apply set_eq. intros i. rewrite elem_of_free_set.
  split; [intros [Hi Hf]; by rewrite H in Hf|intros Hi; by apply elem_of_empty in Hi].
Qed.

Lemma pmm_init_ok im bitmap m mb2 ts :
  pmm_image im bitmap -> mb2 mod 8 = 0 -> bytes_at m mb2 (info_bytes ts) -> Forall tag_ok ts -> disjoint_regions (regions ts) ->
  Z.of_nat (length (info_bytes ts)) < 2 ^ 32 ->
  exists p log, pmm_init im bitmap m mb2 = Ret (p, log) /\ pmm_inv p /\
    total_pages p = Z.of_nat (size (available (regions ts))) /\
    forall i, i ∈ free_set p <-> i ∈ available (regions ts) /\ reserved_end im <= 0x100000 + i * PAGE_SIZE.
Proof.
  intros [[Him1 Him2] [Hs1 Hs2] [Hm1 Hm2]] Hal Hb Hts Hd Hlen. unfold info_bytes in *. rewrite !length_app, !le_bytes_length in Hlen.
  rewrite !bytes_at_app, !le_bytes_length in Hb. destruct Hb as (Hb1 & _ & Hb3). unfold pmm_init. rewrite (load_le_at 4 m mb2 (8 + Z.of_nat (length (concat (tag_bytes <$> ts))))); [|change (2 ^ (8 * Z.of_nat 4)) with (2 ^ 32); lia|exact Hb1]. step_ret.
  assert (counted pmm_blank /\ free_set pmm_blank = ∅) as [Hc0 Hf0].
  { pose proof blank_free_set as E.
    split; [|exact E]. split; [split; [split; [apply length_replicate|done]|]|]; by rewrite E, size_empty. }
  destruct (tag_loop_ok m ts (S (Z.to_nat (8 + Z.of_nat (length (concat (tag_bytes <$> ts)))))) (mb2 + 8) false pmm_blank) as (found & p0 & E & [Hi0 Ht0] & Hs0).
  - rewrite Z.add_mod, Hal by lia. done.
  - by rewrite <- Z.add_assoc in Hb3.
  - done.
  - done.
  - done.
  - rewrite Hf0. apply disjoint_empty_l.
  - lia.
  - assert (length ts <= length (concat (tag_bytes <$> ts)))%nat; [|lia]. clear. induction ts as [|t ts IH]; [done|].
    change (concat (tag_bytes <$> t :: ts)) with (tag_bytes t ++ concat (tag_bytes <$> ts)). rewrite length_app. cbn [length].
    assert (0 < length (tag_bytes t))%nat; [|lia]. unfold tag_bytes. rewrite length_app. destruct t; cbn [tag_body]; rewrite !length_app, !le_bytes_length; lia.
  - replace (mb2 + 8 + Z.of_nat _) with (mb2 + (8 + Z.of_nat (length (concat (tag_bytes <$> ts))))) in E by lia. rewrite E. step_ret.
    rewrite Hf0, (left_id_L ∅ (∪)) in Hs0. fold (reserved_end im).
    assert (0x400000 <= reserved_end im < 2 ^ 31 /\ kernel_end im < reserved_end im) as [Hr1 Hr2] by (unfold reserved_end; lia).
    destruct (reserve_ok (kernel_start im) (reserved_end im) p0) as (p1 & E1 & Hi1 & Ht1 & Hs1'); [done|lia|lia|]. rewrite E1. step_ret.
    pose proof Hi1 as [[_ Hb1'] _]. rewrite Hb1', (proj2 (Z.leb_le _ bitmap)) by lia. change (MAX_PAGES / 8) with 16384 in *.
    destruct (reserve_ok bitmap (bitmap + 16384) p1) as (p2 & E2 & Hi2 & Ht2 & Hs2'); [done|lia|lia|]. rewrite E2. step_ret.
    pose proof Hi2 as [[_ Hb2'] _]. rewrite Hb2'.
    destruct (reserve_ok 0x100000 (Z.min (0x100000 + 0x1000000) (reserved_end im)) p2) as (p3 & E3 & Hi3 & Ht3 & Hs3'); [done|lia|lia|]. rewrite E3. step_ret.
    eexists p3, _. split; [done|]. split; [done|]. split; [by rewrite Ht3, Ht2, Ht1, Ht0, Hs0|]. intros i. rewrite Hs3', Hs2', Hs1', Hs0.
    split.
    + intros [[[Hi Hn1] Hn2] Hn3]. split; [done|].
      assert (0 <= i) as Hi0'. { rewrite <- Hs0 in Hi. apply elem_of_free_set in Hi. lia. }
      rewrite hit_aligned in Hn1, Hn3 by (done || lia). unfold PAGE_SIZE in *. lia.
    + intros [Hi Hge]. assert (0 <= i) as Hi0'. { rewrite <- Hs0 in Hi. apply elem_of_free_set in Hi. lia. }
      rewrite (hit_aligned (kernel_start im)) by (lia || exact Hs1). rewrite (hit_aligned 0x100000) by (lia || reflexivity).
      unfold PAGE_SIZE in *. split; [split; [split; [exact Hi|lia]|]|lia].
      intros (k & Hk & Hlt & ->). unfold PAGE_SIZE in *. pose proof (Z.div_mod (bitmap - 0x100000 + k * 4096) 4096). pose proof (Z.mod_pos_bound (bitmap - 0x100000 + k * 4096) 4096). lia.
Qed.

Lemma pmm_run_shared F ops s : F ⊆ list_to_set (seqZ 0 MAX_PAGES) -> pmm_shared F s -> pmm_shared F (pmm_run ops s).
Proof.
  intros HF. revert s. induction ops as [|o ops IH]; intros s Hs; [exact Hs|]. apply IH. by apply pmm_step_shared.
Qed.

Lemma pmm_shared_start p : pmm_inv p -> pmm_shared (free_set p) (p, []).
Proof.
  intros Hp. split; cbn [fst snd]; [exact Hp|constructor|constructor| |].
  - intros k. split; [by left|]. intros [H|H]; [exact H|by apply elem_of_nil in H].
  - intros k _ H. by apply elem_of_nil in H.
Qed.

Lemma free_set_range p : free_set p ⊆ list_to_set (seqZ 0 MAX_PAGES).
Proof. intros i Hi. apply elem_of_free_set in Hi as [Hi _]. apply elem_of_list_to_set, elem_of_seqZ. lia. Qed.

Lemma pmm_shared_count F s :
  pmm_shared F s -> Z.of_nat (size F) = free_pages s.1 + Z.of_nat (length s.2).
Proof.
  intros [[_ Hc] Hd Hh Hp Ha]. rewrite Hc. rewrite Forall_forall in Hh.
  assert (F = free_set s.1 ∪ list_to_set (page_of <$> s.2)) as ->.
  { apply set_eq. intros k. rewrite elem_of_union, elem_of_list_to_set, list_elem_of_fmap, Hp.
    split; (intros [H|H]; [by left|right]); [exists (0x100000 + k * PAGE_SIZE); by rewrite page_of_at|].
    destruct H as (a & -> & Hin). destruct (Hh a Hin) as (k & _ & ->). by rewrite page_of_at. }
  rewrite size_union, size_list_to_set.
  - rewrite length_fmap. lia.
  - apply NoDup_fmap_2_strong; [|exact Hd]. intros a b Hin1 Hin2 E. destruct (Hh a Hin1) as (k1 & _ & ->). destruct (Hh b Hin2) as (k2 & _ & ->).
    rewrite !page_of_at in E. by rewrite E.
  - intros k Hk Hin. apply elem_of_list_to_set, list_elem_of_fmap in Hin as (a & -> & Hin). destruct (Hh a Hin) as (k & _ & ->).
    rewrite page_of_at in Hk. by apply (Ha k).
Qed.

(** C17. From boot on, physical pages are never handed out twice.  For every memory map
    the boot loader can pass (page-aligned regions that do not overlap) and every
    sequence of allocations and of releases of pages that are held: the pages held are
    distinct, page-aligned, in memory the map calls available, and above the kernel's
    image with its reserve; the counter of free pages and the pages held add up to what
    was free after [pmm_init]; and [alloc_page] fails only when all of those are held. *)
Theorem pmm_pages_exclusive im bitmap m mb2 ts ops :
  pmm_image im bitmap -> mb2 mod 8 = 0 -> bytes_at m mb2 (info_bytes ts) -> Forall tag_ok ts -> disjoint_regions (regions ts) ->
  Z.of_nat (length (info_bytes ts)) < 2 ^ 32 ->
  exists p log, pmm_init im bitmap m mb2 = Ret (p, log) /\
    let s := pmm_run ops (p, []) in
    NoDup s.2 /\
    Forall (fun a => a mod PAGE_SIZE = 0 /\ reserved_end im <= a /\ page_of a ∈ available (regions ts)) s.2 /\
    free_pages s.1 + Z.of_nat (length s.2) = free_pages p /\
    ((alloc_page s.1).1 = 0 <-> Z.of_nat (length s.2) = free_pages p).
Proof.
  intros Him Hal Hb Hts Hd Hlen. destruct (pmm_init_ok im bitmap m mb2 ts) as (p & log & E & Hi & _ & Hf); [assumption..|].
  exists p, log. split; [exact E|]. cbv zeta. pose proof (pmm_run_shared _ ops _ (free_set_range p) (pmm_shared_start p Hi)) as Hs.
  pose proof (pmm_shared_count _ _ Hs) as Hc. pose proof Hi as [_ Hfp]. rewrite <- Hfp in Hc. destruct Hs as [Hi' Hdup Hh _ _].
  split; [exact Hdup|]. split; [|split; [lia|]].
  - eapply Forall_impl; [exact Hh|]. intros a (k & Hk & ->). apply Hf in Hk as [Hk1 Hk2]. rewrite page_of_at. split; [|by split; [|exact Hk1]].
    unfold PAGE_SIZE. replace (0x100000 + k * 4096) with ((256 + k) * 4096) by lia. by apply Z.mod_mul.
  - destruct (alloc_page_ok _ Hi') as [[Hemp ->]|(k & p' & Hk & _ & -> & _)]; cbn [fst].
    + destruct Hi' as [_ Hz]. rewrite Hemp, size_empty in Hz. split; [lia|done].
    + assert (size ({[k]} : gset Z) <= size (free_set (pmm_run ops (p, [])).1))%nat as Hone by (by apply subseteq_size, singleton_subseteq_l).
      rewrite size_singleton in Hone. destruct Hi' as [_ Hz]. apply elem_of_free_set in Hk as [Hk _]. unfold PAGE_SIZE. lia.
Qed.

Definition demo_map : list mb2_tag :=
  [TagOther 4 [0; 0; 0]; TagMmap 0 [mkRegion 0 0x9f000 1 0; mkRegion 0x100000 0x7f00000 1 0; mkRegion 0x8000000 0x10000 2 0]].

Lemma demo_map_disjoint : disjoint_regions (regions demo_map).
Proof.
  assert (region_pages (mkRegion 0 0x9f000 1 0) = ∅ /\ region_pages (mkRegion 0x8000000 0x10000 2 0) = ∅) as [E1 E2] by (split; reflexivity).
  cbn [demo_map regions fmap list_fmap concat app disjoint_regions]. rewrite E1. split; [apply disjoint_empty_l|]. split; [|split; [apply disjoint_empty_r|exact I]].
  rewrite available_cons, E2. unfold available. cbn [fmap list_fmap union_list]. rewrite (left_id_L ∅ (∪)). apply disjoint_empty_r.
Qed.

Lemma pmm_pages_exclusive_witness :
  exists p log, pmm_init (mkImage 0x101000 0x180000) 0x120000 (poke 0x9000 (info_bytes demo_map) ∅) 0x9000 = Ret (p, log) /\
    let s := pmm_run [Alloc; Alloc; Free 0x400000; Alloc] (p, []) in
    NoDup s.2 /\
    Forall (fun a => a mod PAGE_SIZE = 0 /\ reserved_end (mkImage 0x101000 0x180000) <= a /\ page_of a ∈ available (regions demo_map)) s.2 /\
    free_pages s.1 + Z.of_nat (length s.2) = free_pages p /\
    ((alloc_page s.1).1 = 0 <-> Z.of_nat (length s.2) = free_pages p).
Proof.
  apply (pmm_pages_exclusive (mkImage 0x101000 0x180000) 0x120000 (poke 0x9000 (info_bytes demo_map) ∅) 0x9000 demo_map).
  - split; [split; cbn; lia|cbn; split; [reflexivity|lia]|change (MAX_PAGES / 8) with 16384; cbn; lia].
  - reflexivity.
  - apply bytes_at_poke.
  - repeat constructor; cbn; lia.
  - exact demo_map_disjoint.
  - vm_compute. reflexivity.
Defined.

(** Regions that overlap are counted twice: the counters then exceed the pages. *)
Example overlap_counted_twice :
  match pmm_init (mkImage 0x101000 0x180000) 0x120000
    (poke 0x9000 (info_bytes [TagMmap 0 [mkRegion 0x400000 0x2000 1 0; mkRegion 0x401000 0x1000 1 0]]) ∅) 0x9000 with
  | Ret (p, _) => (free_pages p, (fun i => is_page_free i p) <$> [768; 769; 770])
  | _ => (0, [])
  end = (3, [true; true; false]).
Proof. vm_compute. reflexivity. Qed.
