(* ===== verification/Paging.v ===== *)
(** * Page tables, [paging.c] and [vm.rs]

    Four levels of tables of 512 entries, in the physical pages of [Pmm].  The state is
    physical memory, which the kernel addresses directly, with the page allocator, the
    current root [pml4_table], the register CR3 and what the code logs.  This file has
    the code, the walk of the hardware, the shape of a tree of tables and what one
    mapping does to it; [Spaces] has the theorems. *)

From S2P Require Import Prelude Memory CMemory Pmm.

Local Open Scope Z_scope.

(** ** The code *)
Definition PAGE_PRESENT : Z := 0x1.
Definition PAGE_RW : Z := 0x2.
Definition PAGE_USER : Z := 0x4.
Definition PAGE_PWT : Z := 0x8.
Definition PAGE_PCD : Z := 0x10.

Record vm := mkVm {
  vm_mem : mem;
  vm_pmm : pmm;
  pml4_table : Z;
  cr3 : Z;
  vm_log : list (list Z)
}.

Definition set_mem (m : mem) (s : vm) : vm := mkVm m (vm_pmm s) (pml4_table s) (cr3 s) (vm_log s).
Definition set_pmm (p : pmm) (s : vm) : vm := mkVm (vm_mem s) p (pml4_table s) (cr3 s) (vm_log s).
Definition set_pml4 (t : Z) (s : vm) : vm := mkVm (vm_mem s) (vm_pmm s) t (cr3 s) (vm_log s).
Definition set_cr3 (t : Z) (s : vm) : vm := mkVm (vm_mem s) (vm_pmm s) (pml4_table s) t (vm_log s).
Definition set_log (l : list (list Z)) (s : vm) : vm := mkVm (vm_mem s) (vm_pmm s) (pml4_table s) (cr3 s) l.

Section paging.

Context (im : image).

(** Loads and stores of table entries, and the calls of the other components. *)
Definition entry_get (table idx : Z) : M vm Z := fun s => v ← load64 (vm_mem s) (table + 8 * idx); Ret (v, s).
Definition entry_set (table idx v : Z) : M vm unit := fun s => m ← store64 (vm_mem s) (table + 8 * idx) v; Ret (tt, set_mem m s).
Definition alloc : M vm Z := fun s => let (a, p) := alloc_page (vm_pmm s) in Ret (a, set_pmm p s).
Definition release (a : Z) : M vm unit := modify (fun s => set_pmm (free_page a (vm_pmm s)) s).
Definition clear_page (a : Z) : M vm unit := fun s => '(_, m) ← memset im (vm_mem s) a 0 PAGE_SIZE; Ret (tt, set_mem m s).
Definition serial_write (l : list Z) : M vm unit := modify (fun s => set_log (vm_log s ++ [l]) s).

Definition present (e : Z) : bool := negb (Z.land e PAGE_PRESENT =? 0).

(** [get_table (e & ~0xFFF)]. *)
Definition get_table (e : Z) : Z := Z.land e (2 ^ 64 - 2 ^ 12).

Definition get_pml4_index (a : Z) : Z := Z.land (Z.shiftr a 39) 0x1FF.
Definition get_pdpt_index (a : Z) : Z := Z.land (Z.shiftr a 30) 0x1FF.
Definition get_pd_index (a : Z) : Z := Z.land (Z.shiftr a 21) 0x1FF.
Definition get_pt_index (a : Z) : Z := Z.land (Z.shiftr a 12) 0x1FF.

(** The step [map_page] makes at each of the upper three levels: the table an entry
    refers to, made when it is not there. *)
Definition next_table (table idx : Z) : M vm Z :=
  e ← entry_get table idx;
  _ ← (if present e then mret tt
       else
         t ← alloc;
         _ ← clear_page t;
         entry_set table idx (Z.lor (Z.lor t PAGE_PRESENT) PAGE_RW));
  e ← entry_get table idx;
  mret (get_table e).

Definition map_page (virt_addr phys_addr flags : Z) : M vm unit :=
  s ← get;
  if pml4_table s =? 0 then mret tt
  else
    pdpt ← next_table (pml4_table s) (get_pml4_index virt_addr);
    pd ← next_table pdpt (get_pdpt_index virt_addr);
    pt ← next_table pd (get_pd_index virt_addr);
    entry_set pt (get_pt_index virt_addr) (Z.lor (Z.lor (get_table phys_addr) (Z.land flags 0xFFF)) PAGE_PRESENT).

(** The last table on the way to an address, [0] when the way ends before. *)
Definition find_pt (virt_addr : Z) : M vm Z :=
  s ← get;
  if pml4_table s =? 0 then mret 0
  else
    e ← entry_get (pml4_table s) (get_pml4_index virt_addr);
    let pdpt := get_table e in
    if pdpt =? 0 then mret 0
    else
      e ← entry_get pdpt (get_pdpt_index virt_addr);
      let pd := get_table e in
      if pd =? 0 then mret 0
      else
        e ← entry_get pd (get_pd_index virt_addr);
        mret (get_table e).

Definition unmap_page (virt_addr : Z) : M vm unit :=
  pt ← find_pt virt_addr;
  if pt =? 0 then mret tt else entry_set pt (get_pt_index virt_addr) 0.

Definition get_phys_addr (virt_addr : Z) : M vm Z :=
  pt ← find_pt virt_addr;
  if pt =? 0 then mret 0
  else
    pte ← entry_get pt (get_pt_index virt_addr);
    if negb (present pte) then mret 0
    else mret (Z.lor (get_table pte) (Z.land virt_addr 0xFFF)).

Definition map_user_page (virt_addr phys_addr : Z) : M vm unit :=
  map_page virt_addr phys_addr (Z.lor (Z.lor PAGE_PRESENT PAGE_RW) PAGE_USER).

Fixpoint for_each (idxs : list Z) (body : Z -> M vm unit) : M vm unit :=
  match idxs with [] => mret tt | i :: idxs' => _ ← body i; for_each idxs' body end.

(** Entries 256 to 511 of the kernel's root. *)
Definition copy_upper (new_pml4 : Z) : M vm unit :=
  for_each (seqZ 256 256) (fun i => s ← get; e ← entry_get (pml4_table s) i; entry_set new_pml4 i e).

Definition paging_init : M vm unit :=
  t ← alloc;
  _ ← modify (set_pml4 t);
  _ ← clear_page t;
  test_user_pml4 ← alloc;
  _ ← (if test_user_pml4 =? 0 then serial_write (line "[PAGING]: alloc_page for test_user_pml4 failed!")
       else _ ← clear_page test_user_pml4; copy_upper test_user_pml4);
  _ ← for_each ((fun i => i * PAGE_SIZE) <$> seqZ 0 4096) (fun a => map_page a a (Z.lor PAGE_PRESENT PAGE_RW));
  modify (fun s => set_cr3 (pml4_table s) s).

(** The message of [paging_new_pml4]: [snprintf] does not know ["%lx"]. *)
Definition addr_msg : list Z :=
  take 127 (default [] (render (fun _ => []) false
    (line "[PAGING] pml4_table=0x%lx &pml4_table[256]=0x%lx pml4_table[256]=0x%lx") [])).

Definition paging_new_pml4 : M vm Z :=
  _ ← serial_write (line "[PAGING] paging_new_pml4: called");
  new_pml4 ← alloc;
  if new_pml4 =? 0 then
    _ ← serial_write (line "[PAGING] paging_new_pml4: alloc_page returned NULL!"); mret 0
  else
    _ ← serial_write (line "[PAGING] paging_new_pml4: alloc_page OK");
    _ ← clear_page new_pml4;
    s ← get;
    if pml4_table s =? 0 then
      _ ← serial_write (line "[PAGING] paging_new_pml4: pml4_table is NULL!"); mret 0
    else
      _ ← serial_write (line "[PAGING] paging_new_pml4: pml4_table OK");
      _ ← serial_write addr_msg;
      _ ← copy_upper new_pml4;
      _ ← serial_write (line "[PAGING] paging_new_pml4: done copying kernel entries");
      mret new_pml4.

(** The three nested loops of [paging_free_pml4], innermost first. *)
Definition free_pd (pd : Z) : M vm unit :=
  for_each (seqZ 0 512) (fun pd_idx =>
    e ← entry_get pd pd_idx;
    if negb (present e) then mret tt
    else let pt := get_table e in if pt =? 0 then mret tt else release pt).

Definition free_pdpt (pdpt : Z) : M vm unit :=
  for_each (seqZ 0 512) (fun pdpt_idx =>
    e ← entry_get pdpt pdpt_idx;
    if negb (present e) then mret tt
    else let pd := get_table e in if pd =? 0 then mret tt else _ ← free_pd pd; release pd).

Definition paging_free_pml4 (pml4_phys : Z) : M vm unit :=
  if pml4_phys =? 0 then mret tt
  else
    _ ← for_each (seqZ 0 256) (fun pml4_idx =>
      e ← entry_get pml4_phys pml4_idx;
      if negb (present e) then mret tt
      else let pdpt := get_table e in if pdpt =? 0 then mret tt else _ ← free_pdpt pdpt; release pdpt);
    release pml4_phys.

(** The addresses [map_mmio] maps; the sum is not expected to wrap around. *)
Definition mmio_pages (phys_addr size : Z) : list Z :=
  (fun i => phys_addr + i * PAGE_SIZE) <$> seqZ 0 ((size + PAGE_SIZE - 1) / PAGE_SIZE).

Definition map_mmio (phys_addr size : Z) : M vm unit :=
  for_each (mmio_pages phys_addr size)
    (fun a => map_page a a (Z.lor (Z.lor (Z.lor PAGE_PRESENT PAGE_RW) PAGE_PWT) PAGE_PCD)).

Definition rust_paging_new_pml4 : M vm Z := paging_new_pml4.
Definition rust_paging_free_pml4 (pml4_phys : Z) : M vm unit := paging_free_pml4 pml4_phys.

Definition rust_map_page (pml4_phys virt phys flags : Z) : M vm unit :=
  s ← get;
  _ ← modify (set_pml4 pml4_phys);
  _ ← map_page virt phys flags;
  modify (set_pml4 (pml4_table s)).

(** [vm.rs]; [vga_print] is the log here. *)
Definition test_vm_ffi : M vm unit :=
  pml4 ← rust_paging_new_pml4;
  if pml4 =? 0 then serial_write (line "[RUST VM] Failed to create PML4")
  else
    _ ← serial_write (line "[RUST VM] Created new PML4");
    _ ← rust_map_page pml4 0x400000 0x200000 0x7;
    _ ← serial_write (line "[RUST VM] Mapped page 0x400000 -> 0x200000");
    _ ← rust_paging_free_pml4 pml4;
    serial_write (line "[RUST VM] Freed PML4").

End paging.

(** ** Entries *)
Definition paddr (k : Z) : Z := 0x100000 + k * PAGE_SIZE.

Lemma lor_low t f : t mod 4096 = 0 -> 0 <= f < 4096 -> Z.lor t f = t + f.
Proof.
  intros Ht Hf. rewrite <- Z.add_lor_land. replace (Z.land t f) with 0; [lia|]. symmetry.
  pose proof (Z.div_mod t 4096). replace t with (Z.shiftl (t / 4096) 12) by (rewrite Z.shiftl_mul_pow2 by lia; cbn; lia).
  apply Z.bits_inj'. intros n Hn. rewrite Z.land_spec, Z.bits_0. destruct (Z.ltb_spec n 12).
  - rewrite Z.shiftl_spec_low by lia. done.
  - destruct (decide (f = 0)) as [->|]; [rewrite Z.bits_0; apply andb_false_r|]. rewrite (Z.bits_above_log2 f n); [apply andb_false_r|lia|].
    assert (Z.log2 f < 12) by (apply Z.log2_lt_pow2; cbn; lia). lia.
Qed.

Lemma get_table_low t f : 0 <= t < 2 ^ 64 -> t mod 4096 = 0 -> 0 <= f < 4096 -> get_table (t + f) = t.
Proof.
  intros Ht Hm Hf. unfold get_table. pose proof (Z.div_mod t 4096). assert (t <= 2 ^ 64 - 4096) by (pose proof (Z.div_lt_upper_bound t 4096 (2 ^ 52)); lia).
  rewrite (land_mask_down 12) by lia. change (2 ^ 12) with 4096.
  replace (t + f) with (f + t / 4096 * 4096) by lia. rewrite Z.div_add, Z.div_small by lia. lia.
Qed.

Lemma present_low t f : t mod 4096 = 0 -> present (t + f) = negb (f mod 2 =? 0).
Proof.
  intros Ht. unfold present, PAGE_PRESENT. rewrite land_1. pose proof (Z.div_mod t 4096).
  replace (t + f) with (f + t / 4096 * 2048 * 2) by lia. by rewrite Z.mod_add by lia.
Qed.

Lemma paddr_mod k : paddr k mod 4096 = 0.
Proof. unfold paddr, PAGE_SIZE. replace (0x100000 + k * 4096) with ((256 + k) * 4096) by lia. by apply Z.mod_mul. Qed.

(** The entry [next_table] stores. *)
Definition table_entry (k : Z) : Z := paddr k + 3.

Lemma table_entry_ok k :
  0 <= k < MAX_PAGES ->
  Z.lor (Z.lor (paddr k) PAGE_PRESENT) PAGE_RW = table_entry k /\ 0 <= table_entry k < 2 ^ 64 /\
  present (table_entry k) = true /\ get_table (table_entry k) = paddr k.
Proof.
  intros Hk. rewrite MAX_PAGES_val in Hk. assert (0 <= paddr k < 2 ^ 32) by (unfold paddr, PAGE_SIZE; lia). pose proof (paddr_mod k).
  unfold table_entry. rewrite <- Z.lor_assoc. change (Z.lor PAGE_PRESENT PAGE_RW) with 3. rewrite lor_low, present_low, get_table_low by lia.
  split; [done|]. split; [lia|done].
Qed.

Lemma paddr_pos k : 0 <= k -> paddr k <> 0.
Proof. unfold paddr, PAGE_SIZE. lia. Qed.

Lemma load64_ext m m' a : (forall x, a <= x < a + 8 -> m' !! x = m !! x) -> load64 m' a = load64 m a.
Proof.
  intros H. unfold load64. assert (load_bytes m' a 8 = load_bytes m a 8) as ->; [|done].
  assert (forall n b, a <= b -> b + Z.of_nat n <= a + 8 -> load_bytes m' b n = load_bytes m b n) as Hg; [|apply Hg; lia].
  induction n as [|n IH]; intros b Hb Hn; [done|]. cbn [load_bytes]. unfold load8. rewrite H, IH by lia. done.
Qed.

(** ** The walk of the hardware

    Present entries lead from table to table; the last one is the page's. *)
Fixpoint walk (m : mem) (t : Z) (path : list Z) : option Z :=
  match path with
  | [] => None
  | i :: rest =>
      match load64 m (t + 8 * i) with
      | Ret e => if present e then match rest with [] => Some e | _ => walk m (get_table e) rest end else None
      | _ => None
      end
  end.

Definition path_of (va : Z) : list Z := [get_pml4_index va; get_pdpt_index va; get_pd_index va; get_pt_index va].

(** ** Trees of tables

    The tables under table [k] at level [l] (0 for the last one) are the pages [F].  Of
    the root only the lower half belongs to an address space. *)
Definition width (l : nat) : Z := if (l =? 3)%nat then 256 else 512.

Fixpoint tree (m : mem) (l : nat) (k : Z) (F : gset Z) : Prop :=
  0 <= k < MAX_PAGES /\ mapped m (paddr k) 4096 /\
  match l with
  | O => forall x, x ∈ F <-> x = k
  | S l' =>
      exists Fs : Z -> gset Z,
        (forall x, x ∈ F <-> x = k \/ exists i, 0 <= i < width l /\ x ∈ Fs i) /\
        (forall i, 0 <= i < width l ->
           (k ∉ Fs i) /\ exists e, load64 m (paddr k + 8 * i) = Ret e /\
             ((e = 0 /\ Fs i = ∅) \/ (present e = true /\ exists c, get_table e = paddr c /\ tree m l' c (Fs i)))) /\
        (forall i j, 0 <= i < width l -> 0 <= j < width l -> i <> j -> Fs i ## Fs j)
  end.

Fixpoint path_ok (l : nat) (path : list Z) {struct path} : Prop :=
  match path with
  | [] => False
  | i :: rest => 0 <= i < width l /\ match l with O => rest = [] | S l' => path_ok l' rest end
  end.

Definition in_page (j x : Z) : Prop := paddr j <= x < paddr j + 4096.

(** Memory that is the same on the pages [F]. *)
Definition same_on (F : gset Z) (m m' : mem) : Prop := forall j x, j ∈ F -> in_page j x -> m' !! x = m !! x.

Lemma in_page_inj j j' x : in_page j x -> in_page j' x -> j = j'.
Proof. unfold in_page, paddr, PAGE_SIZE. lia. Qed.

Lemma width_512 l : width l <= 512.
Proof. unfold width. case_match; lia. Qed.

Lemma entry_in_page l k i x : 0 <= i < width l -> paddr k + 8 * i <= x < paddr k + 8 * i + 8 -> in_page k x.
Proof. intros Hi Hx. pose proof (width_512 l). unfold in_page. lia. Qed.

Lemma tree_root m l k F : tree m l k F -> k ∈ F /\ 0 <= k < MAX_PAGES /\ mapped m (paddr k) 4096.
Proof.
  destruct l as [|l]; cbn [tree]; intros (Hk & Hm & H); (split; [|done]); [by apply H|].
  destruct H as (Fs & HF & _). apply HF. by left.
Qed.

Lemma tree_frame m m' l : forall k F, tree m l k F -> same_on F m m' -> tree m' l k F.
Proof.
  induction l as [|l IH]; intros k F Ht Hs; pose proof (tree_root _ _ _ _ Ht) as (Hk & _); cbn [tree] in *; destruct Ht as (Hr & Hm & H).
  - split; [done|]. split; [|done]. intros i Hi. rewrite (Hs k); [by apply Hm|done|]. unfold in_page. lia.
  - split; [done|]. split; [intros i Hi; rewrite (Hs k); [by apply Hm|done|unfold in_page; lia]|].
    destruct H as (Fs & HF & Hent & Hdis). exists Fs. split; [done|]. split; [|done]. intros i Hi.
    destruct (Hent i Hi) as (Hkn & e & He & Hor). split; [done|]. exists e. split.
    + rewrite <- He. apply load64_ext. intros x Hx. apply (Hs k); [done|]. by eapply entry_in_page.
    + destruct Hor as [Hor|(Hp & c & Hc & Ht)]; [by left|right]. split; [done|]. exists c. split; [done|]. apply IH; [done|].
      intros j x Hj Hx. apply (Hs j); [|done]. apply HF. right. by exists i.
Qed.

Lemma walk_frame m m' l : forall k F path, tree m l k F -> same_on F m m' -> path_ok l path -> walk m' (paddr k) path = walk m (paddr k) path.
Proof.
  induction l as [|l IH]; intros k F path Ht Hs Hp; pose proof (tree_root _ _ _ _ Ht) as (Hk & _);
    destruct path as [|i rest]; try done; destruct Hp as [Hi Hrest]; cbn [walk]; rewrite (load64_ext m m');
    try (intros x Hx; apply (Hs k); [done|by eapply entry_in_page]).
  - by rewrite Hrest.
  - cbn [tree] in Ht. destruct Ht as (_ & _ & Fs & HF & Hent & _). destruct (Hent i Hi) as (_ & e & -> & Hor).
    destruct (present e) eqn:Ep; [|done]. destruct rest as [|i' rest]; [done|].
    destruct Hor as [[-> _]|(_ & c & Hc & Ht)]; [done|]. rewrite Hc. apply (IH c (Fs i)); [done| |done].
    intros j x Hj Hx. apply (Hs j); [|done]. apply HF. right. by exists i.
Qed.

(** ** Memory the tables may use *)

(** Pages the pointer checks accept. *)
Definition usable (im : image) (k : Z) : Prop := kernel_start im <= paddr k /\ paddr k + 4096 <= 512 * 1024 * 1024.

Record vm_ok (im : image) (s : vm) : Prop := {
  vo_image : image_ok im;
  vo_pmm : pmm_inv (vm_pmm s);
  vo_free : forall k, k ∈ free_set (vm_pmm s) -> usable im k /\ mapped (vm_mem s) (paddr k) 4096
}.

(** What the code may change: memory on the pages [W], the free pages, which lose [N],
    and the log. *)
Record changed (s s' : vm) (W N : gset Z) : Prop := {
  ch_mem : forall x, (forall j, j ∈ W -> ~ in_page j x) -> vm_mem s' !! x = vm_mem s !! x;
  ch_dom : dom (vm_mem s') = dom (vm_mem s);
  ch_new : N ⊆ free_set (vm_pmm s);
  ch_free : free_set (vm_pmm s') = free_set (vm_pmm s) ∖ N;
  ch_pmm : pmm_inv (vm_pmm s');
  ch_pml4 : pml4_table s' = pml4_table s;
  ch_cr3 : cr3 s' = cr3 s
}.

Lemma dom_mapped (m m' : mem) a n : dom m' = dom m -> mapped m a n -> mapped m' a n.
Proof. intros Hd H i Hi. apply elem_of_dom. rewrite Hd. apply elem_of_dom. by apply H. Qed.

Lemma changed_vm_ok im s s' W N : vm_ok im s -> changed s s' W N -> vm_ok im s'.
Proof.
  intros [H1 H2 H3] [C1 C2 C3 C4 C5 C6 C7]. split; [done|done|]. intros k Hk. rewrite C4 in Hk. apply elem_of_difference in Hk as [Hk _].
  destruct (H3 k Hk) as [Hu Hm]. split; [done|]. by eapply dom_mapped.
Qed.

Lemma changed_refl s : pmm_inv (vm_pmm s) -> changed s s ∅ ∅.
Proof. intros H. split; try done. by rewrite difference_empty_L. Qed.

Lemma changed_trans s1 s2 s3 W1 W2 N1 N2 :
  changed s1 s2 W1 N1 -> changed s2 s3 W2 N2 -> changed s1 s3 (W1 ∪ W2) (N1 ∪ N2).
Proof.
  intros [A1 A2 A3 A4 A5 A6 A7] [B1 B2 B3 B4 B5 B6 B7]. split; try congruence.
  - intros x Hx. rewrite B1, A1; [done| |]; intros j Hj; apply Hx, elem_of_union; [by left|by right].
  - rewrite A4 in B3. intros j Hj. apply elem_of_union in Hj as [Hj|Hj]; [by apply A3|]. apply B3, elem_of_difference in Hj as [Hj _]. done.
  - by rewrite B4, A4, difference_difference_l_L.
Qed.

Lemma changed_same_on s s' W N F : changed s s' W N -> F ## W -> same_on F (vm_mem s) (vm_mem s').
Proof.
  intros H Hd j x Hj Hx. apply (ch_mem _ _ _ _ H). intros j' Hj' Hx'. rewrite (in_page_inj _ _ _ Hx Hx') in Hj. by apply (Hd j').
Qed.

Lemma changed_weaken s s' W W' N : changed s s' W N -> W ⊆ W' -> changed s s' W' N.
Proof. intros [A1 A2 A3 A4 A5 A6 A7] Hs. split; try done. intros x Hx. apply A1. intros j Hj. apply Hx. by apply Hs. Qed.

(** Storing an entry changes the entry and nothing else. *)
Lemma entry_set_ok s l k i v :
  pmm_inv (vm_pmm s) -> mapped (vm_mem s) (paddr k) 4096 -> 0 <= i < width l -> 0 <= v < 2 ^ 64 ->
  exists s', entry_set (paddr k) i v s = Ret (tt, s') /\ changed s s' {[k]} ∅ /\
    load64 (vm_mem s') (paddr k + 8 * i) = Ret v /\
    (forall a, (forall x, a <= x < a + 8 -> x < paddr k + 8 * i \/ paddr k + 8 * i + 8 <= x) -> load64 (vm_mem s') a = load64 (vm_mem s) a).
Proof.
  intros Hp Hm Hi Hv. pose proof (width_512 l). unfold entry_set.
  destruct (store64_ok (vm_mem s) (paddr k + 8 * i) v) as (m' & E & Hpat).
  { intros n Hn. replace (paddr k + 8 * i + Z.of_nat n) with (paddr k + Z.of_nat (Z.to_nat (8 * i) + n)) by lia. apply Hm. lia. }
  rewrite E. step_ret. exists (set_mem m' s). split; [done|]. split; [|split].
  - split; try done.
    + intros x Hx. cbn [vm_mem set_mem]. eapply patched_outside; [exact Hpat|]. rewrite le_bytes_length. specialize (Hx k ltac:(by apply elem_of_singleton)).
      unfold in_page in Hx. lia.
    + unfold store64 in E. by apply store_bytes_dom in E.
    + cbn [set_mem vm_pmm]. by rewrite difference_empty_L.
  - by apply load64_patched with (m := vm_mem s).
  - intros a Ha. apply load64_ext. intros x Hx. cbn [vm_mem set_mem]. eapply patched_outside; [exact Hpat|]. rewrite le_bytes_length. specialize (Ha x Hx). lia.
Qed.

(** A cleared page is an empty table. *)
Lemma zero_entry m a i : bytes_at m a (replicate 4096 0) -> 0 <= i < 512 -> load64 m (a + 8 * i) = Ret 0.
Proof.
  intros H Hi. unfold load64. assert (bytes_at m (a + 8 * i) (replicate 8 0)) as Hb.
  { intros n x Hx. apply lookup_replicate in Hx as [-> Hn]. replace (a + 8 * i + Z.of_nat n) with (a + Z.of_nat (Z.to_nat (8 * i) + n)) by lia.
    apply H. apply lookup_replicate. split; [done|lia]. }
  apply load_bytes_ok in Hb. rewrite length_replicate in Hb. rewrite Hb. done.
Qed.

(** A table without entries. *)
Lemma empty_tree m l k :
  0 <= k < MAX_PAGES -> mapped m (paddr k) 4096 -> (forall i, 0 <= i < width l -> load64 m (paddr k + 8 * i) = Ret 0) ->
  tree m l k {[k]} /\ forall path, path_ok l path -> walk m (paddr k) path = None.
Proof.
  intros Hk Hm Hz. split.
  - destruct l as [|l]; cbn [tree]; (split; [done|]); (split; [done|]).
    + intros x. apply elem_of_singleton.
    + exists (fun _ => ∅). split; [|split].
      * intros x. rewrite elem_of_singleton. split; [by left|]. intros [H|(i & _ & H)]; [done|by apply elem_of_empty in H].
      * intros i Hi. split; [apply not_elem_of_empty|]. exists 0. split; [by apply Hz|by left].
      * intros i j _ _ _. apply disjoint_empty_l.
  - intros [|i rest]; [done|]. intros [Hi _]. cbn [walk]. by rewrite Hz.
Qed.

Lemma zero_tree m l k :
  0 <= k < MAX_PAGES -> bytes_at m (paddr k) (replicate 4096 0) ->
  tree m l k {[k]} /\ forall path, path_ok l path -> walk m (paddr k) path = None.
Proof.
  intros Hk Hb. apply empty_tree; [done| |].
  - by apply bytes_at_mapped in Hb; rewrite length_replicate in Hb.
  - intros i Hi. pose proof (width_512 l). apply zero_entry; [done|lia].
Qed.

(** *** The next table *)
Lemma alloc_ok im s :
  vm_ok im s -> free_set (vm_pmm s) <> ∅ ->
  exists k s', alloc s = Ret (paddr k, s') /\ changed s s' ∅ {[k]} /\ k ∈ free_set (vm_pmm s) /\ vm_mem s' = vm_mem s.
Proof.
  intros [_ Hp _] Hne. unfold alloc. destruct (alloc_page_ok _ Hp) as [[H _]|(k & p' & Hk & _ & E & Hp' & Hf)]; [done|].
  rewrite E. exists k, (set_pmm p' s). split; [done|]. split; [|done]. split; try done. by apply singleton_subseteq_l.
Qed.

Lemma clear_page_ok im s k :
  image_ok im -> pmm_inv (vm_pmm s) -> usable im k -> mapped (vm_mem s) (paddr k) 4096 ->
  exists s', clear_page im (paddr k) s = Ret (tt, s') /\ changed s s' {[k]} ∅ /\ bytes_at (vm_mem s') (paddr k) (replicate 4096 0).
Proof.
  intros Him Hp [Hu1 Hu2] Hm. unfold clear_page. change PAGE_SIZE with (Z.of_nat 4096).
  destruct (memset_ok im (vm_mem s) (paddr k) 0 4096) as (m' & E & Hpat); [done|lia|lia|apply valid_range_kernel; [done|done|lia]|done|].
  change (u8 0) with 0 in Hpat. rewrite E. step_ret. exists (set_mem m' s). split; [done|]. split; [|by apply bytes_at_patched in Hpat].
  split; try done.
  - intros x Hx. cbn [set_mem vm_mem]. eapply patched_outside; [exact Hpat|]. rewrite length_replicate. specialize (Hx k ltac:(by apply elem_of_singleton)). unfold in_page in Hx. lia.
  - cbn [set_mem vm_mem]. eapply patched_dom; [|exact Hpat]. by rewrite length_replicate.
  - cbn [set_mem vm_pmm]. by rewrite difference_empty_L.
Qed.

(** What [next_table] gives: table [c] with the tables [Fi ∪ N] under it, [Fi] having been
    there before; walks through the entry are what they were. *)
Record next_ok (s s1 : vm) (l : nat) (k i c : Z) (Fi N : gset Z) : Prop := {
  nx_changed : changed s s1 ({[k]} ∪ N) N;
  nx_size : (size N <= 1)%nat;
  nx_tree : tree (vm_mem s1) l c (Fi ∪ N);
  nx_entry : exists e, load64 (vm_mem s1) (paddr k + 8 * i) = Ret e /\ present e = true /\ get_table e = paddr c;
  nx_others : forall j, 0 <= j < 512 -> j <> i -> load64 (vm_mem s1) (paddr k + 8 * j) = load64 (vm_mem s) (paddr k + 8 * j);
  nx_walk : forall p, path_ok l p -> walk (vm_mem s1) (paddr c) p = walk (vm_mem s) (paddr k) (i :: p)
}.

Lemma next_table_there im s l k i e c Fi :
  pmm_inv (vm_pmm s) -> load64 (vm_mem s) (paddr k + 8 * i) = Ret e -> present e = true -> get_table e = paddr c -> tree (vm_mem s) l c Fi ->
  next_table im (paddr k) i s = Ret (paddr c, s) /\ next_ok s s l k i c Fi ∅.
Proof.
  intros Hp He Hpr Hc Ht. split.
  - assert (entry_get (paddr k) i s = Ret (e, s)) as Eg by (unfold entry_get; by rewrite He).
    unfold next_table. rewrite (M_bind_Ret _ _ _ _ _ Eg), Hpr. rewrite (M_bind_Ret _ _ s tt s) by done. rewrite (M_bind_Ret _ _ _ _ _ Eg).
    unfold mret, M_ret_inst. by rewrite Hc.
  - split.
    + eapply changed_weaken; [by apply changed_refl|apply empty_subseteq].
    + rewrite size_empty. lia.
    + by rewrite (right_id_L ∅ (∪)).
    + by exists e.
    + done.
    + intros p Hpo. cbn [walk]. rewrite He, Hpr, Hc. destruct p; [done|done].
Qed.

Lemma next_table_new im s l k i :
  vm_ok im s -> free_set (vm_pmm s) <> ∅ -> k ∉ free_set (vm_pmm s) -> mapped (vm_mem s) (paddr k) 4096 ->
  0 <= i < width (S l) -> load64 (vm_mem s) (paddr k + 8 * i) = Ret 0 ->
  exists s1 c, next_table im (paddr k) i s = Ret (paddr c, s1) /\ next_ok s s1 l k i c ∅ {[c]}.
Proof.
  intros Hok Hne Hk Hm Hi He. pose proof (width_512 (S l)).
  destruct (alloc_ok im s Hok Hne) as (c & s1 & E1 & C1 & Hc & Hm1). pose proof Hok as [Him Hp Hfree]. destruct (Hfree c Hc) as [Hu Hmc].
  destruct (clear_page_ok im s1 c) as (s2 & E2 & C2 & Hz); [done|apply C1|done|by rewrite Hm1|].
  assert (mapped (vm_mem s2) (paddr k) 4096) as Hm2 by (eapply dom_mapped; [apply C2|by rewrite Hm1]).
  pose proof Hc as [Hcr _]%elem_of_free_set. destruct (table_entry_ok c Hcr) as (Een & Hen & Hpr & Hgt).
  destruct (entry_set_ok s2 (S l) k i (table_entry c)) as (s3 & E3 & C3 & Hl3 & Ho3); [apply C2|done|done|done|].
  assert (c <> k) as Hck by (intros ->; done).
  assert (bytes_at (vm_mem s3) (paddr c) (replicate 4096 0)) as Hz3.
  { eapply bytes_at_ext; [exact Hz|]. rewrite length_replicate. intros x Hx. apply (ch_mem _ _ _ _ C3). intros j Hj Hx'.
    apply elem_of_singleton in Hj as ->. apply Hck. apply (in_page_inj c k x); [unfold in_page; lia|done]. }
  exists s3, c. split.
  - assert (entry_get (paddr k) i s = Ret (0, s)) as Eg by (unfold entry_get; by rewrite He).
    assert (entry_get (paddr k) i s3 = Ret (table_entry c, s3)) as Eg3 by (unfold entry_get; by rewrite Hl3).
    unfold next_table. rewrite (M_bind_Ret _ _ _ _ _ Eg). change (present 0) with false. cbv iota.
    rewrite (M_bind_Ret _ _ _ tt s3).
    + rewrite (M_bind_Ret _ _ _ _ _ Eg3). unfold mret, M_ret_inst. by rewrite Hgt.
    + rewrite (M_bind_Ret _ _ _ _ _ E1), (M_bind_Ret _ _ _ _ _ E2), Een. exact E3.
  - split.
    + pose proof (changed_trans _ _ _ _ _ _ _ (changed_trans _ _ _ _ _ _ _ C1 C2) C3) as C. rewrite !(right_id_L ∅ (∪)), (left_id_L ∅ (∪)), (comm_L (∪)) in C. exact C.
    + rewrite size_singleton. lia.
    + rewrite (left_id_L ∅ (∪)). by apply zero_tree.
    + exists (table_entry c). done.
    + intros j Hj Hne'. rewrite Ho3 by (intros x Hx; lia). rewrite <- Hm1. apply load64_ext. intros x Hx. apply (ch_mem _ _ _ _ C2). intros q Hq Hx'.
      apply elem_of_singleton in Hq as ->. apply Hck. apply (in_page_inj c k x); [done|unfold in_page; lia].
    + intros p Hp'. cbn [walk]. rewrite He. change (present 0) with false. cbv iota. by apply (zero_tree _ l).
Qed.

(** *** Mapping *)
Fixpoint map_path (im : image) (t : Z) (path : list Z) (v : Z) : M vm unit :=
  match path with
  | [] => mret tt
  | i :: rest => match rest with [] => entry_set t i v | _ => t' ← next_table im t i; map_path im t' rest v end
  end.

Record map_ok (s s' : vm) (l : nat) (k : Z) (F N : gset Z) (path : list Z) (v : Z) : Prop := {
  mp_changed : changed s s' (F ∪ N) N;
  mp_size : (size N <= l)%nat;
  mp_tree : tree (vm_mem s') l k (F ∪ N);
  mp_walk : forall p, path_ok l p ->
    walk (vm_mem s') (paddr k) p = if decide (p = path) then Some v else walk (vm_mem s) (paddr k) p
}.

(** The subtree under entry [i] has been replaced. *)
Definition put_child (i : Z) (Fi : gset Z) (Fs : Z -> gset Z) (j : Z) : gset Z := if decide (j = i) then Fi else Fs j.

Lemma put_child_eq i Fi Fs : put_child i Fi Fs i = Fi.
Proof. unfold put_child. by rewrite decide_True. Qed.

Lemma put_child_ne i Fi Fs j : j <> i -> put_child i Fi Fs j = Fs j.
Proof. intros. unfold put_child. by rewrite decide_False. Qed.

(** The pieces of a tree, and a tree from pieces one of which has changed. *)
Record pieces (m : mem) (l : nat) (k : Z) (F : gset Z) (Fs : Z -> gset Z) : Prop := {
  pc_range : 0 <= k < MAX_PAGES;
  pc_mapped : mapped m (paddr k) 4096;
  pc_all : forall x, x ∈ F <-> x = k \/ exists i, 0 <= i < width (S l) /\ x ∈ Fs i;
  pc_entry : forall i, 0 <= i < width (S l) ->
    (k ∉ Fs i) /\ exists e, load64 m (paddr k + 8 * i) = Ret e /\
      ((e = 0 /\ Fs i = ∅) \/ (present e = true /\ exists c, get_table e = paddr c /\ tree m l c (Fs i)));
  pc_disjoint : forall i j, 0 <= i < width (S l) -> 0 <= j < width (S l) -> i <> j -> Fs i ## Fs j
}.

Lemma tree_pieces m l k F : tree m (S l) k F <-> exists Fs, pieces m l k F Fs.
Proof.
  split.
  - intros (H1 & H2 & Fs & H3 & H4 & H5). exists Fs. by split.
  - intros (Fs & [H1 H2 H3 H4 H5]). split; [done|]. split; [done|]. by exists Fs.
Qed.

Lemma pieces_child m l k F Fs i : pieces m l k F Fs -> 0 <= i < width (S l) -> Fs i ⊆ F /\ k ∈ F /\ k ∉ Fs i.
Proof.
  intros [H1 H2 H3 H4 H5] Hi. split; [intros x Hx; apply H3; right; by exists i|]. split; [apply H3; by left|]. by apply H4.
Qed.

Section replace_child.

Context (s s' : vm) (l : nat) (k i c : Z) (F Fi N : gset Z) (Fs : Z -> gset Z).
Context (Hpc : pieces (vm_mem s) l k F Fs) (Hi : 0 <= i < width (S l)).
Context (Hch : changed s s' ({[k]} ∪ Fs i ∪ N) N) (HF : F ## free_set (vm_pmm s)) (HFi : Fi = Fs i ∪ N).
Context (Hothers : forall j, 0 <= j < width (S l) -> j <> i -> load64 (vm_mem s') (paddr k + 8 * j) = load64 (vm_mem s) (paddr k + 8 * j)).

Lemma new_apart : F ## N.
Proof using Hch HF. intros x Hx Hn. apply (HF x Hx). by apply (ch_new _ _ _ _ Hch). Qed.

Lemma sibling_same j : 0 <= j < width (S l) -> j <> i -> same_on (Fs j) (vm_mem s) (vm_mem s').
Proof using Hpc Hi Hch HF.
  intros Hj Hne. eapply changed_same_on; [exact Hch|]. destruct (pieces_child _ _ _ _ _ j Hpc Hj) as (Hsub & _ & Hk).
  intros x Hx Hw. apply elem_of_union in Hw as [Hw|Hw]; [apply elem_of_union in Hw as [Hw|Hw]|].
  - apply elem_of_singleton in Hw as ->. done.
  - by apply (pc_disjoint _ _ _ _ _ Hpc i j Hi Hj (not_eq_sym Hne) x).
  - apply (new_apart x); [by apply Hsub|done].
Qed.

Lemma replace_child_tree e :
  load64 (vm_mem s') (paddr k + 8 * i) = Ret e -> present e = true -> get_table e = paddr c -> tree (vm_mem s') l c Fi ->
  tree (vm_mem s') (S l) k (F ∪ N).
Proof using Hpc Hi Hch HF HFi Hothers.
  intros He Hp Hg Ht. apply tree_pieces. exists (put_child i Fi Fs). pose proof Hpc as [H1 H2 H3 H4 H5]. destruct (pieces_child _ _ _ _ _ i Hpc Hi) as (Hsub & HkF & Hk).
  split.
  - done.
  - eapply dom_mapped; [apply Hch|done].
  - intros x. rewrite elem_of_union, H3. split.
    + intros [[Hx|(j & Hj & Hx)]|Hx]; [by left| |].
      * right. exists j. split; [done|]. destruct (decide (j = i)) as [->|Hne]; [rewrite put_child_eq, HFi; apply elem_of_union; by left|by rewrite put_child_ne].
      * right. exists i. split; [done|]. rewrite put_child_eq, HFi. apply elem_of_union. by right.
    + intros [Hx|(j & Hj & Hx)]; [by left; left|]. destruct (decide (j = i)) as [->|Hne].
      * rewrite put_child_eq, HFi in Hx. apply elem_of_union in Hx as [Hx|Hx]; [left; right; by exists i|by right].
      * rewrite put_child_ne in Hx by done. left. right. by exists j.
  - intros j Hj. destruct (decide (j = i)) as [->|Hne].
    + rewrite put_child_eq. split; [|exists e; split; [done|]; right; split; [done|]; by exists c].
      rewrite HFi. intros Hx. apply elem_of_union in Hx as [Hx|Hx]; [done|]. by apply (new_apart k).
    + rewrite put_child_ne, Hothers by done. destruct (H4 j Hj) as (Hkj & e' & He' & Hor). split; [done|]. exists e'. split; [done|].
      destruct Hor as [Hor|(Hp' & c' & Hc' & Ht')]; [by left|]. right. split; [done|]. exists c'. split; [done|]. eapply tree_frame; [exact Ht'|by apply sibling_same].
  - assert (forall j, 0 <= j < width (S l) -> j <> i -> Fi ## Fs j) as Hd.
    { intros j Hj Hne x Hx Hx'. rewrite HFi in Hx. apply elem_of_union in Hx as [Hx|Hx]; [by apply (H5 i j Hi Hj (not_eq_sym Hne) x)|].
      apply (new_apart x); [|done]. by apply (proj1 (pieces_child _ _ _ _ _ j Hpc Hj)). }
    intros j j' Hj Hj' Hne. destruct (decide (j = i)) as [->|Hji], (decide (j' = i)) as [->|Hji'].
    + done.
    + rewrite put_child_eq, put_child_ne by done. by apply Hd.
    + rewrite put_child_eq, put_child_ne by done. symmetry. by apply Hd.
    + rewrite !put_child_ne by done. by apply H5.
Qed.

Lemma sibling_walk j q : 0 <= j < width (S l) -> j <> i -> path_ok l q -> walk (vm_mem s') (paddr k) (j :: q) = walk (vm_mem s) (paddr k) (j :: q).
Proof using Hpc Hi Hch HF Hothers.
  intros Hj Hne Hq. cbn [walk]. rewrite Hothers by done. destruct (pc_entry _ _ _ _ _ Hpc j Hj) as (_ & e & -> & Hor).
  destruct (present e) eqn:Ep; [|done]. destruct q as [|q0 q]; [done|]. destruct Hor as [[-> _]|(_ & c' & -> & Ht)]; [done|].
  eapply walk_frame; [exact Ht|by apply sibling_same|done].
Qed.

End replace_child.

Lemma next_table_ok im s l k F Fs i :
  vm_ok im s -> pieces (vm_mem s) l k F Fs -> F ## free_set (vm_pmm s) -> 0 <= i < width (S l) -> (0 < size (free_set (vm_pmm s)))%nat ->
  exists s1 c N, next_table im (paddr k) i s = Ret (paddr c, s1) /\ next_ok s s1 l k i c (Fs i) N.
Proof.
  intros Hok Hpc HF Hi Hsz. destruct (pc_entry _ _ _ _ _ Hpc i Hi) as (_ & e & He & [[-> Hemp]|(Hp & c & Hc & Ht)]).
  - destruct (next_table_new im s l k i) as (s1 & c & E & Hn); [done| | |apply Hpc|done|done|].
    + intros Hz. rewrite Hz, size_empty in Hsz. lia.
    + intros Hk. apply (HF k); [|done]. apply (pc_all _ _ _ _ _ Hpc). by left.
    + exists s1, c, {[c]}. rewrite Hemp. done.
  - exists s, c, ∅. by apply next_table_there with e; [apply Hok|..].
Qed.

Lemma walk_step m t i e q : load64 m (t + 8 * i) = Ret e -> present e = true -> q <> [] -> walk m t (i :: q) = walk m (get_table e) q.
Proof. intros He Hp Hq. cbn [walk]. rewrite He, Hp. by destruct q. Qed.

Lemma map_path_ok im l : forall k F path v s,
  vm_ok im s -> tree (vm_mem s) l k F -> F ## free_set (vm_pmm s) -> path_ok l path -> 0 <= v < 2 ^ 64 -> present v = true ->
  (l <= size (free_set (vm_pmm s)))%nat ->
  exists s' N, map_path im (paddr k) path v s = Ret (tt, s') /\ map_ok s s' l k F N path v.
Proof.
  induction l as [|l IH]; intros k F path v s Hok Ht HF Hpath Hv Hpv Hsz; destruct path as [|i rest]; try done; destruct Hpath as [Hi Hrest]; cbn [map_path].
  - subst rest. destruct Ht as (Hk & Hm & HFk). destruct (entry_set_ok s 0 k i v) as (s' & E & Hch & Hl & Ho); [apply Hok|done..|].
    exists s', ∅. split; [exact E|]. split.
    + rewrite (right_id_L ∅ (∪)). eapply changed_weaken; [exact Hch|]. apply singleton_subseteq_l. by apply HFk.
    + rewrite size_empty. lia.
    + rewrite (right_id_L ∅ (∪)). split; [done|]. split; [|done]. eapply dom_mapped; [apply Hch|done].
    + intros [|j q]; [done|]. intros [Hj ->]. cbn [walk]. destruct (decide (j = i)) as [->|Hne].
      * rewrite Hl, Hpv, decide_True by done. done.
      * rewrite Ho, decide_False by (congruence || (intros x Hx; lia)). done.
  - destruct rest as [|r0 rest0] eqn:Er; [done|]. rewrite <- Er in *. clear Er.
    apply tree_pieces in Ht as (Fs & Hpc). destruct (next_table_ok im s l k F Fs i) as (s1 & c & N1 & E1 & Hn); [done..|lia|].
    rewrite (M_bind_Ret _ _ _ _ _ E1). destruct Hn as [C1 Hs1 Ht1 (e & He & Hpe & Hge) Ho1 Hw1].
    pose proof (width_512 (S l)). destruct (pieces_child _ _ _ _ _ i Hpc Hi) as (Hsub & HkF & Hki).
    assert (forall x, x ∈ F -> x ∉ free_set (vm_pmm s)) as HFx by (intros x Hx Hx'; by apply (HF x)).
    destruct (IH c (Fs i ∪ N1) rest v s1) as (s2 & N2 & E2 & Hm); [by eapply changed_vm_ok|done| |done|done|done| |].
    { rewrite (ch_free _ _ _ _ C1). intros x Hx Hx'. apply elem_of_difference in Hx' as [Hx' Hn]. apply elem_of_union in Hx as [Hx|Hx]; [|done]. by apply (HFx x); [apply Hsub|]. }
    { rewrite (ch_free _ _ _ _ C1), size_difference by apply C1. lia. }
    exists s2, (N1 ∪ N2). split; [exact E2|]. destruct Hm as [C2 Hs2 Ht2 Hw2].
    pose proof (changed_trans _ _ _ _ _ _ _ C1 C2) as C.
    assert (changed s s2 ({[k]} ∪ Fs i ∪ (N1 ∪ N2)) (N1 ∪ N2)) as C'.
    { eapply changed_weaken; [exact C|]. intros x. rewrite !elem_of_union. tauto. }
    assert (k ∉ Fs i ∪ N1 ∪ N2) as Hk2.
    { rewrite !elem_of_union. intros [[Hx|Hx]|Hx]; [done| |]; apply (HFx k HkF), (ch_new _ _ _ _ C), elem_of_union; [by left|by right]. }
    assert (forall j, 0 <= j < width (S l) -> load64 (vm_mem s2) (paddr k + 8 * j) = load64 (vm_mem s1) (paddr k + 8 * j)) as Hk12.
    { intros j Hj. apply load64_ext. intros x Hx. eapply (changed_same_on s1 s2 _ N2 {[k]}); [exact C2|by apply disjoint_singleton_l|by apply elem_of_singleton|]. by eapply entry_in_page. }
    assert (forall j, 0 <= j < width (S l) -> j <> i -> load64 (vm_mem s2) (paddr k + 8 * j) = load64 (vm_mem s) (paddr k + 8 * j)) as Hoth.
    { intros j Hj Hne. rewrite Hk12, Ho1 by (done || lia). done. }
    assert (load64 (vm_mem s2) (paddr k + 8 * i) = Ret e) as He2 by (by rewrite Hk12).
    split.
    + eapply changed_weaken; [exact C'|]. intros x. rewrite !elem_of_union, elem_of_singleton. intros [[->|Hx]|Hx]; [by left|left; by apply Hsub|by right].
    + rewrite size_union_alt. pose proof (subseteq_size (N2 ∖ N1) N2 ltac:(apply subseteq_difference_l; reflexivity)). lia.
    + eapply (replace_child_tree s s2 l k i c F (Fs i ∪ (N1 ∪ N2)) (N1 ∪ N2) Fs); [done..|]. by rewrite (assoc_L (∪)).
    + intros [|j q]; [done|]. intros [Hj Hq]. destruct (decide (j = i)) as [->|Hne].
      * destruct q as [|q0 q]; [done|]. rewrite (walk_step _ _ _ e), Hge, Hw2 by done.
        destruct (decide (q0 :: q = rest)) as [->|Hnq]; [by rewrite decide_True|]. rewrite (decide_False (P := i :: q0 :: q = i :: rest)) by congruence. by apply Hw1.
      * rewrite decide_False by congruence. by eapply (sibling_walk s s2 l k i F (N1 ∪ N2) Fs).
Qed.

(** *** Addresses and paths *)
Lemma index_bits va n : 0 <= n -> Z.land (Z.shiftr va n) 0x1FF = va / 2 ^ n mod 512.
Proof. intros Hn. rewrite Z.shiftr_div_pow2 by done. apply (land_low 9). lia. Qed.

Lemma path_of_digits va : path_of va = [va / 2 ^ 39 mod 512; va / 2 ^ 30 mod 512; va / 2 ^ 21 mod 512; va / 2 ^ 12 mod 512].
Proof. unfold path_of, get_pml4_index, get_pdpt_index, get_pd_index, get_pt_index. by rewrite !index_bits by lia. Qed.

Lemma path_of_ok va : 0 <= va < 2 ^ 47 -> path_ok 3 (path_of va).
Proof.
  intros Hva. rewrite path_of_digits. cbn [path_ok]. unfold width. cbn [Nat.eqb].
  assert (0 <= va / 2 ^ 39 < 256) by (split; [apply Z.div_pos; lia|apply Z.div_lt_upper_bound; lia]).
  rewrite (Z.mod_small (va / 2 ^ 39)) by lia. pose proof (Z.mod_pos_bound (va / 2 ^ 30) 512). pose proof (Z.mod_pos_bound (va / 2 ^ 21) 512).
  pose proof (Z.mod_pos_bound (va / 2 ^ 12) 512). split_and!; try lia. done.
Qed.

(** Two addresses of the lower half have the same path when they are in one page. *)
Lemma path_of_page va va' :
  0 <= va < 2 ^ 47 -> 0 <= va' < 2 ^ 47 -> path_of va = path_of va' <-> va / PAGE_SIZE = va' / PAGE_SIZE.
Proof.
  intros H1 H2. rewrite !path_of_digits. unfold PAGE_SIZE. change (2 ^ 12) with 4096.
  assert (forall a, 0 <= a < 2 ^ 47 -> a / 4096 = a / 2 ^ 39 mod 512 * 2 ^ 27 + a / 2 ^ 30 mod 512 * 2 ^ 18 + a / 2 ^ 21 mod 512 * 2 ^ 9 + a / 4096 mod 512 /\
    a / 2 ^ 39 = a / 4096 / 2 ^ 27 /\ a / 2 ^ 30 = a / 4096 / 2 ^ 18 /\ a / 2 ^ 21 = a / 4096 / 2 ^ 9) as Hd.
  { intros a Ha. rewrite !Z.div_div by lia. change (4096 * 2 ^ 27) with (2 ^ 39). change (4096 * 2 ^ 18) with (2 ^ 30). change (4096 * 2 ^ 9) with (2 ^ 21).
    split; [|done]. replace (a / 2 ^ 39) with (a / 4096 / 512 / 512 / 512) by (rewrite !Z.div_div by lia; done).
    replace (a / 2 ^ 30) with (a / 4096 / 512 / 512) by (rewrite !Z.div_div by lia; done). replace (a / 2 ^ 21) with (a / 4096 / 512) by (rewrite !Z.div_div by lia; done).
    assert (0 <= a / 4096 < 2 ^ 35) as Hb by (split; [apply Z.div_pos; lia|apply Z.div_lt_upper_bound; lia]). set (b := a / 4096) in *.
    pose proof (Z.div_mod b 512). pose proof (Z.div_mod (b / 512) 512). pose proof (Z.div_mod (b / 512 / 512) 512).
    assert (0 <= b / 512 / 512 / 512 < 512) by (rewrite !Z.div_div by lia; split; [apply Z.div_pos; lia|apply Z.div_lt_upper_bound; lia]).
    rewrite (Z.mod_small (b / 512 / 512 / 512)) by lia. lia. }
  destruct (Hd va H1) as (E1 & A1 & B1 & C1), (Hd va' H2) as (E2 & A2 & B2 & C2). split.
  - intros [= Ha Hb Hc He]. rewrite E1, E2, Ha, Hb, Hc, He. done.
  - intros E. rewrite A1, A2, B1, B2, C1, C2, E. done.
Qed.
