(* ===== verification/Spaces.v ===== *)
(** * Address spaces

    What the code of [Paging] does to whole address spaces: mapping, looking up and
    unmapping pages implement a map from pages to entries, an address space is made and
    freed without a trace, and booting maps the first 16 MiB to themselves. *)

From S2P Require Import Prelude Memory CMemory Pmm Paging.

Local Open Scope Z_scope.

(** ** Address spaces *)

(** The translation the hardware makes with the tables under a root. *)
Definition translate (s : vm) (root va : Z) : option Z := walk (vm_mem s) root (path_of va).

(** The root [paddr k] with its tables [F], none of them free. *)
Definition space (s : vm) (k : Z) (F : gset Z) : Prop := tree (vm_mem s) 3 k F /\ F ## free_set (vm_pmm s).

Lemma map_page_path im va pa flags s :
  map_page im va pa flags s =
  if pml4_table s =? 0 then Ret (tt, s)
  else map_path im (pml4_table s) (path_of va) (Z.lor (Z.lor (get_table pa) (Z.land flags 0xFFF)) PAGE_PRESENT) s.
Proof. unfold map_page. rewrite (M_bind_Ret _ _ s s s) by done. by destruct (pml4_table s =? 0). Qed.

(** The entry of a page: its address, the flags and the present bit. *)
Definition page_entry (pa flags : Z) : Z := pa / PAGE_SIZE * PAGE_SIZE + Z.lor (flags mod 4096) 1.

Lemma lor_1_bounds f : 0 <= f < 4096 -> 0 <= Z.lor f 1 < 4096 /\ Z.lor f 1 mod 2 = 1.
Proof.
  intros Hf. split; [split; [apply Z.lor_nonneg; lia|]|].
  - destruct (decide (f = 0)) as [->|]; [done|]. assert (0 < Z.lor f 1) by (pose proof (Z.lor_nonneg f 1); destruct (decide (Z.lor f 1 = 0)) as [E|]; [apply Z.lor_eq_0_iff in E; lia|lia]).
    change 4096 with (2 ^ 12). apply Z.log2_lt_pow2; [done|]. rewrite Z.log2_lor by lia. change (Z.log2 1) with 0. assert (Z.log2 f < 12) by (apply Z.log2_lt_pow2; cbn; lia).
    pose proof (Z.log2_nonneg f). lia.
  - rewrite <- land_1. apply Z.bits_inj'. intros n Hn. rewrite Z.land_spec, Z.lor_spec. by destruct (Z.testbit f n), (Z.testbit 1 n).
Qed.

Lemma page_entry_ok pa flags :
  0 <= pa < 2 ^ 64 ->
  Z.lor (Z.lor (get_table pa) (Z.land flags 0xFFF)) PAGE_PRESENT = page_entry pa flags /\
  0 <= page_entry pa flags < 2 ^ 64 /\ present (page_entry pa flags) = true /\ get_table (page_entry pa flags) = pa / PAGE_SIZE * PAGE_SIZE.
Proof.
  intros Hpa. unfold page_entry, PAGE_SIZE. pose proof (Z.mod_pos_bound flags 4096). destruct (lor_1_bounds (flags mod 4096)) as [Hb H1]; [lia|].
  assert (0 <= pa / 4096 < 2 ^ 52) by (split; [apply Z.div_pos; lia|apply Z.div_lt_upper_bound; lia]).
  assert (pa / 4096 * 4096 mod 4096 = 0) as Hm by (by apply Z.mod_mul).
  rewrite present_low, H1, get_table_low by (done || lia). split; [|by split; [lia|]].
  unfold get_table. rewrite (land_mask_down 12), (land_low 12) by lia. change (2 ^ 12) with 4096. rewrite (Z.mul_comm 4096), <- Z.lor_assoc.
  change PAGE_PRESENT with 1. by apply lor_low.
Qed.

(** What mapping a page does. *)
Record maps (s s' : vm) (k : Z) (F N : gset Z) (va pa flags : Z) : Prop := {
  ma_changed : changed s s' (F ∪ N) N;
  ma_size : (size N <= 3)%nat;
  ma_space : space s' k (F ∪ N);
  ma_page : forall va', 0 <= va' < 2 ^ 47 -> translate s' (paddr k) va' =
    if decide (va' / PAGE_SIZE = va / PAGE_SIZE) then Some (page_entry pa flags) else translate s (paddr k) va'
}.

Lemma map_page_ok im s k F va pa flags :
  vm_ok im s -> pml4_table s = paddr k -> space s k F -> 0 <= va < 2 ^ 47 -> 0 <= pa < 2 ^ 64 -> (3 <= size (free_set (vm_pmm s)))%nat ->
  exists s' N, map_page im va pa flags s = Ret (tt, s') /\ maps s s' k F N va pa flags.
Proof.
  intros Hok Hroot [Ht HF] Hva Hpa Hsz. destruct (page_entry_ok pa flags Hpa) as (Ee & He & Hp & _).
  rewrite map_page_path, Hroot, Ee, (proj2 (Z.eqb_neq (paddr k) 0)) by (apply paddr_pos; apply (tree_root _ _ _ _ Ht)).
  destruct (map_path_ok im 3 k F (path_of va) (page_entry pa flags) s) as (s' & N & E & [C Hs Ht' Hw]); [done..|by apply path_of_ok|done|done|done|].
  exists s', N. split; [exact E|]. split; [done|done| |].
  - split; [done|]. rewrite (ch_free _ _ _ _ C). intros x Hx Hx'. apply elem_of_difference in Hx' as [Hx' Hn]. apply elem_of_union in Hx as [Hx|Hx]; [by apply (HF x)|done].
  - intros va' Hva'. unfold translate. rewrite Hw by (by apply path_of_ok). destruct (decide (path_of va' = path_of va)) as [E'|E'].
    + rewrite decide_True by (by apply path_of_page). done.
    + rewrite decide_False by (intros Hpg; apply E'; by apply path_of_page). done.
Qed.

(** *** Looking up and unmapping *)
Fixpoint find_path (t : Z) (path : list Z) : M vm Z :=
  match path with
  | [] => mret 0
  | i :: rest =>
      match rest with
      | [] => mret t
      | _ => e ← entry_get t i; if get_table e =? 0 then mret 0 else find_path (get_table e) rest
      end
  end.

Lemma find_pt_path va s : find_pt va s = if pml4_table s =? 0 then Ret (0, s) else find_path (pml4_table s) (path_of va) s.
Proof.
  unfold find_pt, path_of. cbn [find_path]. rewrite (M_bind_Ret _ _ s s s) by done. destruct (pml4_table s =? 0); [done|].
  unfold mbind, M_bind_inst. destruct (entry_get _ _ _) as [[e s1]| | |]; cbn [outcome_bind]; [|done..]. destruct (get_table e =? 0); [done|].
  destruct (entry_get _ _ _) as [[e' s2]| | |]; cbn [outcome_bind]; [|done..]. destruct (get_table e' =? 0); [done|].
  destruct (entry_get _ _ _) as [[e'' s3]| | |]; cbn [outcome_bind]; [|done..]. destruct (Z.eqb_spec (get_table e'') 0) as [->|]; done.
Qed.

Lemma entry_get_ok t i e s : load64 (vm_mem s) (t + 8 * i) = Ret e -> entry_get t i s = Ret (e, s).
Proof. unfold entry_get. by intros ->. Qed.

(** The last table holds the entry the walk ends with. *)
Lemma find_path_ok l : forall k F path s,
  tree (vm_mem s) l k F -> path_ok l path ->
  exists t, find_path (paddr k) path s = Ret (t, s) /\
    ((t = 0 /\ walk (vm_mem s) (paddr k) path = None) \/
     exists c, t = paddr c /\ c ∈ F /\ 0 <= c < MAX_PAGES /\ mapped (vm_mem s) (paddr c) 4096 /\
       walk (vm_mem s) (paddr k) path = walk (vm_mem s) (paddr c) [List.last path 0]).
Proof.
  induction l as [|l IH]; intros k F path s Ht Hp; destruct path as [|i rest]; try done; destruct Hp as [Hi Hrest].
  - subst rest. exists (paddr k). split; [done|]. right. exists k. destruct (tree_root _ _ _ _ Ht) as (H1 & H2 & H3). done.
  - destruct rest as [|r0 rest0] eqn:Er; [done|]. rewrite <- Er in *. assert (rest <> []) as Hne by (by rewrite Er).
    assert (find_path (paddr k) (i :: rest) = (e ← entry_get (paddr k) i; if get_table e =? 0 then mret 0 else find_path (get_table e) rest)) as -> by (by rewrite Er).
    assert (List.last (i :: rest) 0 = List.last rest 0) as -> by (by rewrite Er). clear Er r0 rest0.
    apply tree_pieces in Ht as (Fs & Hpc). destruct (pc_entry _ _ _ _ _ Hpc i Hi) as (_ & e & He & Hor). rewrite (M_bind_Ret _ _ _ _ _ (entry_get_ok _ _ _ _ He)).
    destruct Hor as [[-> _]|(Hpe & c & Hc & Ht)].
    + exists 0. split; [done|]. left. split; [done|]. cbn [walk]. by rewrite He.
    + destruct (tree_root _ _ _ _ Ht) as (_ & Hcr & _). rewrite Hc, (proj2 (Z.eqb_neq _ _)) by (apply paddr_pos; lia).
      rewrite (walk_step _ _ _ e), Hc by done. destruct (IH c (Fs i) rest s Ht Hrest) as (t & E & H). exists t. split; [exact E|].
      destruct H as [H|(c' & H1 & H2 & H3)]; [by left|right]. exists c'. split; [done|]. split; [|done]. by apply (proj1 (pieces_child _ _ _ _ _ i Hpc Hi)).
Qed.

Lemma get_phys_addr_ok s k F va :
  pml4_table s = paddr k -> space s k F -> 0 <= va < 2 ^ 47 ->
  get_phys_addr va s = Ret (match translate s (paddr k) va with Some e => Z.lor (get_table e) (Z.land va 0xFFF) | None => 0 end, s).
Proof.
  intros Hroot [Ht _] Hva. unfold get_phys_addr, translate. assert ((paddr k =? 0) = false) as H0 by (apply Z.eqb_neq, paddr_pos; apply (tree_root _ _ _ _ Ht)).
  destruct (find_path_ok 3 k F (path_of va) s Ht (path_of_ok va Hva)) as (t & E & Hor).
  rewrite (M_bind_Ret _ _ s t s); [|rewrite find_pt_path, Hroot, H0; exact E].
  destruct Hor as [[-> ->]|(c & -> & _ & Hc & Hm & ->)]; [done|]. rewrite (proj2 (Z.eqb_neq _ _)) by (apply paddr_pos; lia).
  change (List.last (path_of va) 0) with (get_pt_index va). cbn [walk].
  assert (mapped (vm_mem s) (paddr c + 8 * get_pt_index va) 8) as Hm8.
  { intros n Hn. destruct (path_of_ok va Hva) as (_ & _ & _ & Hi & _). change (width 0) with 512 in Hi.
    replace (paddr c + 8 * get_pt_index va + Z.of_nat n) with (paddr c + Z.of_nat (Z.to_nat (8 * get_pt_index va) + n)) by lia. apply Hm. lia. }
  destruct (mapped_load _ _ _ Hm8) as (bs & Hbs). assert (load64 (vm_mem s) (paddr c + 8 * get_pt_index va) = Ret (le_word bs)) as He by (unfold load64; by rewrite Hbs).
  rewrite (M_bind_Ret _ _ _ _ _ (entry_get_ok _ _ _ _ He)), He. by destruct (present (le_word bs)).
Qed.

Fixpoint unmap_path (t : Z) (path : list Z) : M vm unit :=
  match path with
  | [] => mret tt
  | i :: rest =>
      match rest with
      | [] => entry_set t i 0
      | _ => e ← entry_get t i; if get_table e =? 0 then mret tt else unmap_path (get_table e) rest
      end
  end.

Lemma unmap_page_path va s : unmap_page va s = if pml4_table s =? 0 then Ret (tt, s) else unmap_path (pml4_table s) (path_of va) s.
Proof.
  unfold unmap_page. unfold mbind, M_bind_inst at 1. rewrite find_pt_path. destruct (pml4_table s =? 0); [done|].
  unfold path_of. cbn [find_path unmap_path]. unfold mbind, M_bind_inst.
  destruct (entry_get _ _ _) as [[e s1]| | |]; cbn [outcome_bind]; [|done..]. destruct (get_table e =? 0); [done|].
  destruct (entry_get _ _ _) as [[e' s2]| | |]; cbn [outcome_bind]; [|done..]. destruct (get_table e' =? 0); [done|].
  destruct (entry_get _ _ _) as [[e'' s3]| | |]; cbn [outcome_bind]; [|done..]. destruct (get_table e'' =? 0) eqn:E0; [done|].
  cbn [outcome_bind mret M_ret_inst]. by rewrite E0.
Qed.

Record unmaps (s s' : vm) (l : nat) (k : Z) (F : gset Z) (path : list Z) : Prop := {
  um_changed : changed s s' F ∅;
  um_tree : tree (vm_mem s') l k F;
  um_walk : forall p, path_ok l p -> walk (vm_mem s') (paddr k) p = if decide (p = path) then None else walk (vm_mem s) (paddr k) p
}.

Lemma unmap_path_ok l : forall k F path s,
  pmm_inv (vm_pmm s) -> tree (vm_mem s) l k F -> F ## free_set (vm_pmm s) -> path_ok l path ->
  exists s', unmap_path (paddr k) path s = Ret (tt, s') /\ unmaps s s' l k F path.
Proof.
  induction l as [|l IH]; intros k F path s Hp Ht HF Hpath; destruct path as [|i rest]; try done; destruct Hpath as [Hi Hrest]; cbn [unmap_path].
  - subst rest. destruct Ht as (Hk & Hm & HFk). destruct (entry_set_ok s 0 k i 0) as (s' & E & Hch & Hl & Ho); [done|done|done|lia|].
    exists s'. split; [exact E|]. split.
    + eapply changed_weaken; [exact Hch|]. apply singleton_subseteq_l. by apply HFk.
    + split; [done|]. split; [|done]. eapply dom_mapped; [apply Hch|done].
    + intros [|j q]; [done|]. intros [Hj ->]. cbn [walk]. destruct (decide (j = i)) as [->|Hne].
      * by rewrite Hl, decide_True by done.
      * rewrite Ho, decide_False by (congruence || (intros x Hx; lia)). done.
  - destruct rest as [|r0 rest0] eqn:Er; [done|]. rewrite <- Er in *. assert (rest <> []) as Hne' by (by rewrite Er). clear Er r0 rest0.
    apply tree_pieces in Ht as (Fs & Hpc). destruct (pc_entry _ _ _ _ _ Hpc i Hi) as (Hki & e & He & Hor). rewrite (M_bind_Ret _ _ _ _ _ (entry_get_ok _ _ _ _ He)).
    destruct Hor as [[-> _]|(Hpe & c & Hc & Ht)].
    + exists s. split; [done|]. split; [eapply changed_weaken; [by apply changed_refl|apply empty_subseteq]|by apply tree_pieces; exists Fs|].
      intros p Hpo. destruct (decide (p = i :: rest)) as [->|]; [|done]. cbn [walk]. by rewrite He.
    + destruct (tree_root _ _ _ _ Ht) as (_ & Hcr & _). rewrite Hc, (proj2 (Z.eqb_neq _ _)) by (apply paddr_pos; lia).
      destruct (pieces_child _ _ _ _ _ i Hpc Hi) as (Hsub & HkF & _).
      destruct (IH c (Fs i) rest s Hp Ht ltac:(intros x Hx Hx'; by apply (HF x); [apply Hsub|]) Hrest) as (s' & E & [C Ht' Hw]). exists s'. split; [exact E|].
      assert (changed s s' ({[k]} ∪ Fs i ∪ ∅) ∅) as C' by (eapply changed_weaken; [exact C|]; intros x; rewrite !elem_of_union; tauto).
      assert (forall j, 0 <= j < width (S l) -> load64 (vm_mem s') (paddr k + 8 * j) = load64 (vm_mem s) (paddr k + 8 * j)) as Hk12.
      { intros j Hj. apply load64_ext. intros x Hx. eapply (changed_same_on s s' _ ∅ {[k]}); [exact C|by apply disjoint_singleton_l|by apply elem_of_singleton|]. by eapply entry_in_page. }
      assert (load64 (vm_mem s') (paddr k + 8 * i) = Ret e) as He' by (by rewrite Hk12).
      split.
      * eapply changed_weaken; [exact C|done].
      * rewrite <- (right_id_L ∅ (∪) F). eapply (replace_child_tree s s' l k i c F (Fs i) ∅ Fs); try done; [by rewrite (right_id_L ∅ (∪))|auto].
      * intros [|j q]; [done|]. intros [Hj Hq]. destruct (decide (j = i)) as [->|Hne].
        -- destruct q as [|q0 q]; [done|]. rewrite !(walk_step _ _ _ e), Hc, Hw by done.
           destruct (decide (q0 :: q = rest)) as [->|Hnq]; [by rewrite decide_True|]. rewrite (decide_False (P := i :: q0 :: q = i :: rest)) by congruence.
           by rewrite (walk_step _ _ i e), Hc by done.
        -- rewrite decide_False by congruence. eapply (sibling_walk s s' l k i F ∅ Fs); try done. auto.
Qed.

Lemma unmap_page_ok s k F va :
  pmm_inv (vm_pmm s) -> pml4_table s = paddr k -> space s k F -> 0 <= va < 2 ^ 47 ->
  exists s', unmap_page va s = Ret (tt, s') /\ changed s s' F ∅ /\ space s' k F /\
    forall va', 0 <= va' < 2 ^ 47 -> translate s' (paddr k) va' = if decide (va' / PAGE_SIZE = va / PAGE_SIZE) then None else translate s (paddr k) va'.
Proof.
  intros Hp Hroot [Ht HF] Hva. rewrite unmap_page_path, Hroot, (proj2 (Z.eqb_neq (paddr k) 0)) by (apply paddr_pos; apply (tree_root _ _ _ _ Ht)).
  destruct (unmap_path_ok 3 k F (path_of va) s Hp Ht HF (path_of_ok va Hva)) as (s' & E & [C Ht' Hw]). exists s'. split; [exact E|]. split; [done|].
  split; [split; [done|by rewrite (ch_free _ _ _ _ C), difference_empty_L]|]. intros va' Hva'. unfold translate. rewrite Hw by (by apply path_of_ok).
  destruct (decide (path_of va' = path_of va)) as [E'|E'].
  - rewrite decide_True by (by apply path_of_page). done.
  - rewrite decide_False by (intros Hpg; apply E'; by apply path_of_page). done.
Qed.

(** *** Freeing *)

(** Only the free pages and the log change: the pages of [P] become free. *)
Record freed (s s' : vm) (P : Z -> Prop) : Prop := {
  fr_mem : vm_mem s' = vm_mem s;
  fr_pmm : pmm_inv (vm_pmm s');
  fr_free : forall x, x ∈ free_set (vm_pmm s') <-> x ∈ free_set (vm_pmm s) \/ P x;
  fr_pml4 : pml4_table s' = pml4_table s;
  fr_cr3 : cr3 s' = cr3 s
}.

Lemma freed_none s P : pmm_inv (vm_pmm s) -> (forall x, ~ P x) -> freed s s P.
Proof. intros Hp HP. split; try done. intros x. split; [by left|]. intros [H|H]; [done|by apply HP in H]. Qed.

Lemma freed_trans s1 s2 s3 P Q R : freed s1 s2 P -> freed s2 s3 Q -> (forall x, R x <-> P x \/ Q x) -> freed s1 s3 R.
Proof.
  intros [A1 A2 A3 A4 A5] [B1 B2 B3 B4 B5] HR. split; try congruence. intros x. rewrite B3, A3, HR. tauto.
Qed.

Lemma release_ok s k : pmm_inv (vm_pmm s) -> 0 <= k < MAX_PAGES -> exists s', release (paddr k) s = Ret (tt, s') /\ freed s s' (fun x => x = k).
Proof.
  intros Hp Hk. exists (set_pmm (free_page (paddr k) (vm_pmm s)) s). split; [done|]. destruct (free_page_ok (paddr k) _ Hp) as [Hp' Hf].
  change (page_of (paddr k)) with (page_of (0x100000 + k * PAGE_SIZE)) in Hf. rewrite page_of_at in Hf.
  rewrite (proj2 (Z.leb_le _ _)), (proj2 (Z.ltb_lt k _)) in Hf by (unfold paddr, PAGE_SIZE; lia). cbn [andb] in Hf.
  split; try done. intros x. cbn [set_pmm vm_pmm]. rewrite Hf, elem_of_union, elem_of_singleton. tauto.
Qed.

(** The loops of [paging_free_pml4], by level. *)
Fixpoint free_sub (l : nat) (t : Z) : M vm unit :=
  match l with
  | O => mret tt
  | S l' => for_each (seqZ 0 (width l)) (fun i =>
      e ← entry_get t i;
      if negb (present e) then mret tt
      else let t' := get_table e in if t' =? 0 then mret tt else _ ← free_sub l' t'; release t')
  end.

Lemma free_loops t s :
  paging_free_pml4 t s = if t =? 0 then Ret (tt, s) else (_ ← free_sub 3 t; release t) s.
Proof.
  unfold paging_free_pml4. by destruct (t =? 0).
Qed.

Lemma free_each_ok (P : Z -> Z -> Prop) body idxs : forall s,
  pmm_inv (vm_pmm s) ->
  (forall i s', i ∈ idxs -> pmm_inv (vm_pmm s') -> vm_mem s' = vm_mem s -> exists s'', body i s' = Ret (tt, s'') /\ freed s' s'' (P i)) ->
  exists s', for_each idxs body s = Ret (tt, s') /\ freed s s' (fun x => exists i, i ∈ idxs /\ P i x).
Proof.
  induction idxs as [|i idxs IH]; intros s Hp Hb; cbn [for_each].
  - exists s. split; [done|]. apply freed_none; [done|]. intros x (i & Hi & _). by apply elem_of_nil in Hi.
  - destruct (Hb i s) as (s1 & E1 & F1); [by left|done|done|]. rewrite (M_bind_Ret _ _ _ _ _ E1).
    destruct (IH s1) as (s2 & E2 & F2); [apply F1| |].
    + intros j s' Hj Hp' Hm. apply Hb; [by right|done|]. rewrite Hm. apply F1.
    + exists s2. split; [exact E2|]. eapply freed_trans; [exact F1|exact F2|]. intros x. split.
      * intros (j & Hj & Hx). apply elem_of_cons in Hj as [->|Hj]; [by left|right; by exists j].
      * intros [Hx|(j & Hj & Hx)]; [exists i; split; [by left|done]|exists j; split; [by right|done]].
Qed.

Lemma free_sub_ok l : forall k F s,
  pmm_inv (vm_pmm s) -> tree (vm_mem s) l k F ->
  exists s', free_sub l (paddr k) s = Ret (tt, s') /\ freed s s' (fun x => x ∈ F /\ x <> k).
Proof.
  induction l as [|l IH]; intros k F s Hp Ht.
  - exists s. split; [done|]. destruct Ht as (_ & _ & HF). apply freed_none; [done|]. intros x [Hx Hne]. by apply HF in Hx.
  - cbn [free_sub]. apply tree_pieces in Ht as (Fs & Hpc).
    destruct (free_each_ok (fun i x => x ∈ Fs i) (fun i => e ← entry_get (paddr k) i;
      if negb (present e) then mret tt else let t' := get_table e in if t' =? 0 then mret tt else _ ← free_sub l t'; release t') (seqZ 0 (width (S l))) s Hp) as (s' & E & Hf).
    + intros i s1 Hi Hp1 Hm1. apply elem_of_seqZ in Hi. destruct (pc_entry _ _ _ _ _ Hpc i ltac:(lia)) as (_ & e & He & Hor). rewrite <- Hm1 in He.
      rewrite (M_bind_Ret _ _ _ _ _ (entry_get_ok _ _ _ _ He)). destruct Hor as [[-> HFi]|(Hpe & c & Hc & Ht)].
      * exists s1. split; [done|]. apply freed_none; [done|]. intros x Hx. rewrite HFi in Hx. by apply elem_of_empty in Hx.
      * rewrite <- Hm1 in Ht. destruct (tree_root _ _ _ _ Ht) as (HcF & Hcr & _). rewrite Hpe, Hc. cbn [negb]. rewrite (proj2 (Z.eqb_neq _ _)) by (apply paddr_pos; lia).
        destruct (IH c (Fs i) s1 Hp1 Ht) as (s2 & E2 & F2). rewrite (M_bind_Ret _ _ _ _ _ E2). destruct (release_ok s2 c) as (s3 & E3 & F3); [apply F2|done|].
        exists s3. split; [exact E3|]. eapply freed_trans; [exact F2|exact F3|]. intros x. cbn. destruct (decide (x = c)) as [->|]; tauto.
    + exists s'. split; [exact E|]. split; [apply Hf|apply Hf| |apply Hf|apply Hf]. intros x. rewrite (fr_free _ _ _ Hf). split.
      * intros [Hx|(i & Hi & Hx)]; [by left|right]. apply elem_of_seqZ in Hi. destruct (pieces_child _ _ _ _ _ i Hpc ltac:(lia)) as (Hsub & _ & Hk). split; [by apply Hsub|]. by intros ->.
      * intros [Hx|[Hx Hne]]; [by left|right]. apply (pc_all _ _ _ _ _ Hpc) in Hx as [Hx|(i & Hi & Hx)]; [done|]. exists i. split; [apply elem_of_seqZ; lia|done].
Qed.

Lemma paging_free_pml4_ok s k F :
  pmm_inv (vm_pmm s) -> tree (vm_mem s) 3 k F -> exists s', paging_free_pml4 (paddr k) s = Ret (tt, s') /\ freed s s' (fun x => x ∈ F).
Proof.
  intros Hp Ht. destruct (tree_root _ _ _ _ Ht) as (HkF & Hk & _). rewrite free_loops, (proj2 (Z.eqb_neq _ _)) by (apply paddr_pos; lia).
  destruct (free_sub_ok 3 k F s Hp Ht) as (s1 & E1 & F1). rewrite (M_bind_Ret _ _ _ _ _ E1). destruct (release_ok s1 k) as (s2 & E2 & F2); [apply F1|done|].
  exists s2. split; [exact E2|]. eapply freed_trans; [exact F1|exact F2|]. intros x. cbn. destruct (decide (x = k)) as [->|]; tauto.
Qed.

(** *** A new address space *)

(** The upper half of a root holds words. *)
Definition upper_words (m : mem) (k : Z) : Prop := forall i, 256 <= i < 512 -> exists e, load64 m (paddr k + 8 * i) = Ret e /\ 0 <= e < 2 ^ 64.

Lemma serial_print_ok l s : pmm_inv (vm_pmm s) -> exists s', serial_write l s = Ret (tt, s') /\ changed s s' ∅ ∅ /\ vm_mem s' = vm_mem s.
Proof. intros Hp. eexists. split; [done|]. split; [|done]. split; try done. cbn [set_log vm_pmm]. by rewrite difference_empty_L. Qed.

Lemma copy_loop_ok k0 k idxs : forall s,
  pmm_inv (vm_pmm s) -> pml4_table s = paddr k0 -> k <> k0 -> mapped (vm_mem s) (paddr k) 4096 -> upper_words (vm_mem s) k0 ->
  NoDup idxs -> Forall (fun i => 256 <= i < 512) idxs ->
  exists s', for_each idxs (fun i => s ← get; e ← entry_get (pml4_table s) i; entry_set (paddr k) i e) s = Ret (tt, s') /\ changed s s' {[k]} ∅ /\
    forall i, 0 <= i < 512 -> load64 (vm_mem s') (paddr k + 8 * i) = if decide (i ∈ idxs) then load64 (vm_mem s) (paddr k0 + 8 * i) else load64 (vm_mem s) (paddr k + 8 * i).
Proof.
  induction idxs as [|j idxs IH]; intros s Hp Hroot Hne Hm Hup Hnd Hin; cbn [for_each].
  - exists s. split; [done|]. split; [eapply changed_weaken; [by apply changed_refl|apply empty_subseteq]|]. done.
  - apply NoDup_cons in Hnd as [Hj Hnd]. apply Forall_cons in Hin as [Hjr Hin]. destruct (Hup j Hjr) as (e & He & Her).
    destruct (entry_set_ok s 0 k j e) as (s1 & E1 & C1 & Hl1 & Ho1); [done|done|change (width 0) with 512; lia|done|].
    assert (forall i, 0 <= i < 512 -> load64 (vm_mem s1) (paddr k0 + 8 * i) = load64 (vm_mem s) (paddr k0 + 8 * i)) as Hk0.
    { intros i Hi. apply load64_ext. intros x Hx. eapply (changed_same_on s s1 _ ∅ {[k0]}); [exact C1| |by apply elem_of_singleton|].
      - apply disjoint_singleton_l. intros H. by apply elem_of_singleton in H.
      - apply (entry_in_page 0 k0 i); [by change (width 0) with 512|done]. }
    rewrite (M_bind_Ret _ _ s tt s1).
    + destruct (IH s1) as (s2 & E2 & C2 & Hl2); [apply C1|by rewrite (ch_pml4 _ _ _ _ C1)|done|eapply dom_mapped; [apply C1|done]| |done|done|].
      { intros i Hi. rewrite Hk0 by lia. by apply Hup. }
      exists s2. split; [exact E2|]. split.
      * pose proof (changed_trans _ _ _ _ _ _ _ C1 C2) as C. by rewrite (idemp_L (∪)), (idemp_L (∪)) in C.
      * intros i Hi. rewrite Hl2, Hk0 by done. destruct (decide (i = j)) as [->|Hij].
        -- rewrite decide_False, decide_True, Hl1 by (done || by left). done.
        -- destruct (decide (i ∈ idxs)) as [Hi'|Hi'].
           ++ by rewrite decide_True by (by right).
           ++ rewrite decide_False by (intros H; apply elem_of_cons in H; tauto). apply Ho1. intros x Hx. lia.
    + rewrite (M_bind_Ret _ _ s s s) by done. rewrite Hroot, (M_bind_Ret _ _ _ _ _ (entry_get_ok _ _ _ _ He)). exact E1.
Qed.

Record fresh_space (s s' : vm) (k0 k : Z) : Prop := {
  fs_changed : changed s s' {[k]} {[k]};
  fs_space : space s' k {[k]};
  fs_empty : forall va, 0 <= va < 2 ^ 47 -> translate s' (paddr k) va = None;
  fs_upper : forall i, 256 <= i < 512 -> load64 (vm_mem s') (paddr k + 8 * i) = load64 (vm_mem s) (paddr k0 + 8 * i)
}.

(** The root of the kernel's own tables: taken, readable, its upper half words. *)
Record root_ok (s : vm) (k0 : Z) : Prop := {
  ro_taken : k0 ∉ free_set (vm_pmm s);
  ro_root : pml4_table s = paddr k0 /\ 0 <= k0;
  ro_words : upper_words (vm_mem s) k0
}.

Lemma cleared_root_ok im s k0 :
  vm_ok im s -> k0 ∉ free_set (vm_pmm s) -> pml4_table s = paddr k0 -> upper_words (vm_mem s) k0 -> free_set (vm_pmm s) <> ∅ ->
  exists k s1, alloc s = Ret (paddr k, s1) /\ k ∈ free_set (vm_pmm s) /\ changed s s1 ∅ {[k]} /\
  forall s2, changed s1 s2 ∅ ∅ -> vm_mem s2 = vm_mem s1 ->
  exists s3, clear_page im (paddr k) s2 = Ret (tt, s3) /\ changed s2 s3 {[k]} ∅ /\
  forall s4, changed s3 s4 ∅ ∅ -> vm_mem s4 = vm_mem s3 ->
  exists s5, copy_upper (paddr k) s4 = Ret (tt, s5) /\ fresh_space s s5 k0 k.
Proof.
  intros Hok Hk0 Hroot Hup Hne. destruct (alloc_ok im s Hok Hne) as (k & s1 & E1 & C1 & Hk & Hm1). exists k, s1. split; [done|]. split; [done|]. split; [done|].
  intros s2 C2 Hm2. destruct Hok as [Him Hp Hfree]. destruct (Hfree k Hk) as [Hu Hmk]. assert (k <> k0) as Hkk by (intros ->; done).
  destruct (clear_page_ok im s2 k) as (s3 & E3 & C3 & Hz); [done|apply C2|done|by rewrite Hm2, Hm1|]. exists s3. split; [done|]. split; [done|]. intros s4 C4 Hm4.
  assert (changed s s4 {[k]} {[k]}) as C.
  { pose proof (changed_trans _ _ _ _ _ _ _ (changed_trans _ _ _ _ _ _ _ (changed_trans _ _ _ _ _ _ _ C1 C2) C3) C4) as C.
    by rewrite !(right_id_L ∅ (∪)), (left_id_L ∅ (∪)) in C. }
  destruct (copy_loop_ok k0 k (seqZ 256 256) s4) as (s5 & E5 & C5 & Hl5); [apply C|by rewrite (ch_pml4 _ _ _ _ C)|done| | |apply NoDup_seqZ| |].
  - eapply dom_mapped; [apply C|done].
  - intros i Hi. rewrite Hm4. destruct (Hup i Hi) as (e & He & Her). exists e. split; [|done]. rewrite <- He, <- Hm1, <- Hm2. apply load64_ext. intros x Hx.
    eapply (changed_same_on s2 s3 _ ∅ {[k0]}); [exact C3| |by apply elem_of_singleton|].
    + apply disjoint_singleton_l. intros H. apply elem_of_singleton in H. congruence.
    + apply (entry_in_page 0 k0 i); [change (width 0) with 512; lia|done].
  - apply Forall_forall. intros i Hi. apply elem_of_seqZ in Hi. lia.
  - exists s5. split; [exact E5|]. pose proof (changed_trans _ _ _ _ _ _ _ C C5) as C'. rewrite (idemp_L (∪)), (right_id_L ∅ (∪)) in C'.
    pose proof Hk as [Hkr _]%elem_of_free_set. destruct (empty_tree (vm_mem s5) 3 k) as [Ht Hw]; [done|eapply dom_mapped; [apply C'|done]| |].
    { intros i Hi. change (width 3) with 256 in Hi. rewrite Hl5, decide_False by (lia || (intros H; apply elem_of_seqZ in H; lia)). rewrite Hm4. apply zero_entry; [done|lia]. }
    split; [done| | |].
    + split; [done|]. apply disjoint_singleton_l. rewrite (ch_free _ _ _ _ C'). intros H. apply elem_of_difference in H as [_ H]. by apply H, elem_of_singleton.
    + intros va Hva. apply Hw. by apply path_of_ok.
    + intros i Hi. rewrite Hl5, decide_True by (lia || (apply elem_of_seqZ; lia)). rewrite Hm4, <- Hm1, <- Hm2. apply load64_ext. intros x Hx.
      eapply (changed_same_on s2 s3 _ ∅ {[k0]}); [exact C3| |by apply elem_of_singleton|].
      * apply disjoint_singleton_l. intros H. apply elem_of_singleton in H. congruence.
      * apply (entry_in_page 0 k0 i); [change (width 0) with 512; lia|done].
Qed.

Lemma space_frame s s' k F W N :
  space s k F -> changed s s' W N -> F ## W ->
  space s' k F /\ forall va, 0 <= va < 2 ^ 47 -> translate s' (paddr k) va = translate s (paddr k) va.
Proof.
  intros [Ht HF] C Hd. pose proof (changed_same_on _ _ _ _ F C Hd) as Hs. split.
  - split; [by eapply tree_frame|]. rewrite (ch_free _ _ _ _ C). intros x Hx Hx'. apply elem_of_difference in Hx' as [Hx' _]. by apply (HF x).
  - intros va Hva. unfold translate. eapply walk_frame; [exact Ht|exact Hs|by apply path_of_ok].
Qed.

Lemma paging_new_pml4_ok im s k0 :
  vm_ok im s -> root_ok s k0 -> free_set (vm_pmm s) <> ∅ ->
  exists k s', paging_new_pml4 im s = Ret (paddr k, s') /\ k ∈ free_set (vm_pmm s) /\ fresh_space s s' k0 k.
Proof.
  intros Hok [Hk0 [Hroot H0] Hup] Hne. unfold paging_new_pml4.
  destruct (serial_print_ok (line "[PAGING] paging_new_pml4: called") s) as (s0 & E0 & C0 & Hm0); [apply Hok|]. rewrite (M_bind_Ret _ _ _ _ _ E0).
  assert (free_set (vm_pmm s0) = free_set (vm_pmm s)) as Hf0 by (by rewrite (ch_free _ _ _ _ C0), difference_empty_L).
  destruct (cleared_root_ok im s0 k0) as (k & s1 & E1 & Hk & C1 & Hrest); [by eapply changed_vm_ok|by rewrite Hf0|by rewrite (ch_pml4 _ _ _ _ C0)|by rewrite Hm0|by rewrite Hf0|].
  rewrite (M_bind_Ret _ _ _ _ _ E1). pose proof Hk as [Hkr _]%elem_of_free_set. rewrite (proj2 (Z.eqb_neq _ _)) by (apply paddr_pos; lia).
  destruct (serial_print_ok (line "[PAGING] paging_new_pml4: alloc_page OK") s1) as (s2 & E2 & C2 & Hm2); [apply C1|]. rewrite (M_bind_Ret _ _ _ _ _ E2).
  destruct (Hrest s2 C2 Hm2) as (s3 & E3 & C3 & Hrest'). rewrite (M_bind_Ret _ _ _ _ _ E3), (M_bind_Ret _ _ s3 s3 s3) by done.
  assert (pml4_table s3 = paddr k0) as Hr3 by (by rewrite (ch_pml4 _ _ _ _ C3), (ch_pml4 _ _ _ _ C2), (ch_pml4 _ _ _ _ C1), (ch_pml4 _ _ _ _ C0)).
  rewrite Hr3, (proj2 (Z.eqb_neq (paddr k0) 0)) by (by apply paddr_pos).
  destruct (serial_print_ok (line "[PAGING] paging_new_pml4: pml4_table OK") s3) as (s4 & E4 & C4 & Hm4); [apply C3|]. rewrite (M_bind_Ret _ _ _ _ _ E4).
  destruct (serial_print_ok addr_msg s4) as (s4' & E4' & C4' & Hm4'); [apply C4|]. rewrite (M_bind_Ret _ _ _ _ _ E4').
  pose proof (changed_trans _ _ _ _ _ _ _ C4 C4') as C44. rewrite (idemp_L (∪)) in C44. destruct (Hrest' s4' C44) as (s5 & E5 & Hfr); [by rewrite Hm4'|]. rewrite (M_bind_Ret _ _ _ _ _ E5).
  destruct Hfr as [F1 F2 F3 F4].
  destruct (serial_print_ok (line "[PAGING] paging_new_pml4: done copying kernel entries") s5) as (s6 & E6 & C6 & Hm6); [apply F1|]. rewrite (M_bind_Ret _ _ _ _ _ E6).
  exists k, s6. split; [done|]. split; [by rewrite <- Hf0|].
  pose proof (changed_trans _ _ _ _ _ _ _ (changed_trans _ _ _ _ _ _ _ C0 F1) C6) as C. rewrite !(right_id_L ∅ (∪)), !(left_id_L ∅ (∪)) in C.
  destruct (space_frame s5 s6 k {[k]} ∅ ∅ F2 C6 (disjoint_empty_r _)) as [Hsp Htr]. split; [done|done| |].
  - intros va Hva. rewrite Htr by done. by apply F3.
  - intros i Hi. by rewrite Hm6, F4, Hm0.
Qed.

Lemma rust_map_page_ok im s k F va pa flags :
  vm_ok im s -> space s k F -> 0 <= va < 2 ^ 47 -> 0 <= pa < 2 ^ 64 -> (3 <= size (free_set (vm_pmm s)))%nat ->
  exists s' N, rust_map_page im (paddr k) va pa flags s = Ret (tt, s') /\ maps s s' k F N va pa flags.
Proof.
  intros Hok Hsp Hva Hpa Hsz. unfold rust_map_page. rewrite (M_bind_Ret _ _ s s s), (M_bind_Ret _ _ s tt (set_pml4 (paddr k) s)) by done.
  destruct (map_page_ok im (set_pml4 (paddr k) s) k F va pa flags) as (s1 & N & E & [C Hs Hsp1 Hp]); [by destruct Hok; split|done|done|done|done|done|].
  rewrite (M_bind_Ret _ _ _ _ _ E). exists (set_pml4 (pml4_table s) s1), N. split; [done|]. split; [|done|done|done].
  destruct C as [A1 A2 A3 A4 A5 A6 A7]. by split.
Qed.

(** Mapping pages to themselves, one after the other. *)
Lemma map_each_ok im k flags pages : forall s F,
  vm_ok im s -> pml4_table s = paddr k -> space s k F -> Forall (fun a => 0 <= a < 2 ^ 47) pages ->
  (3 * length pages <= size (free_set (vm_pmm s)))%nat ->
  exists s' N, for_each pages (fun a => map_page im a a flags) s = Ret (tt, s') /\ changed s s' (F ∪ N) N /\ space s' k (F ∪ N) /\ (size N <= 3 * length pages)%nat /\
    forall va, 0 <= va < 2 ^ 47 -> translate s' (paddr k) va =
      if decide (va / PAGE_SIZE ∈ (fun a => a / PAGE_SIZE) <$> pages) then Some (page_entry va flags) else translate s (paddr k) va.
Proof.
  induction pages as [|a pages IH]; intros s F Hok Hroot Hsp Hin Hsz; cbn [for_each length] in *.
  - exists s, ∅. split; [done|]. rewrite (right_id_L ∅ (∪)). split; [eapply changed_weaken; [apply changed_refl, Hok|apply empty_subseteq]|]. split; [done|]. split; [rewrite size_empty; lia|].
    intros va Hva. by rewrite decide_False by (apply not_elem_of_nil).
  - apply Forall_cons in Hin as [Ha Hin]. destruct (map_page_ok im s k F a a flags) as (s1 & N1 & E1 & [C1 Hs1 Hsp1 Hp1]); [done|done|done|done|lia|lia|].
    rewrite (M_bind_Ret _ _ _ _ _ E1). destruct (IH s1 (F ∪ N1)) as (s2 & N2 & E2 & C2 & Hsp2 & Hs2 & Hp2); [by eapply changed_vm_ok|by rewrite (ch_pml4 _ _ _ _ C1)|done|done| |].
    { rewrite (ch_free _ _ _ _ C1), size_difference by apply C1. lia. }
    exists s2, (N1 ∪ N2). split; [exact E2|]. rewrite (assoc_L (∪)). split; [|split; [done|split]].
    + eapply changed_weaken; [exact (changed_trans _ _ _ _ _ _ _ C1 C2)|]. intros x. rewrite !elem_of_union. tauto.
    + rewrite size_union_alt. pose proof (subseteq_size (N2 ∖ N1) N2 ltac:(apply subseteq_difference_l; reflexivity)). lia.
    + intros va Hva. rewrite Hp2, Hp1 by done. rewrite fmap_cons. destruct (decide (va / PAGE_SIZE ∈ (fun a => a / PAGE_SIZE) <$> pages)) as [Hi|Hi].
      * by rewrite decide_True by (by right).
      * destruct (decide (va / PAGE_SIZE = a / PAGE_SIZE)) as [E|E].
        -- rewrite decide_True by (rewrite E; by left). unfold page_entry. by rewrite E.
        -- rewrite decide_False by (intros H; apply elem_of_cons in H; tauto). done.
Qed.

(** ** The page map the tables implement *)
Inductive page_op :=
| PMap (va pa flags : Z)
| PUnmap (va : Z)
| PQuery (va : Z).

Definition op_addr (o : page_op) : Z := match o with PMap va _ _ | PUnmap va | PQuery va => va end.

Definition op_ok (o : page_op) : Prop :=
  0 <= op_addr o < 2 ^ 47 /\ match o with PMap _ pa _ => 0 <= pa < 2 ^ 64 | _ => True end.

(** Each call with its result, [0] for a call that returns nothing. *)
Definition page_call (im : image) (o : page_op) : M vm Z :=
  match o with
  | PMap va pa flags => _ ← map_page im va pa flags; mret 0
  | PUnmap va => _ ← unmap_page va; mret 0
  | PQuery va => get_phys_addr va
  end.

Fixpoint page_calls (im : image) (os : list page_op) : M vm (list Z) :=
  match os with [] => mret [] | o :: os' => r ← page_call im o; rs ← page_calls im os'; mret (r :: rs) end.

(** The specification: entries by page number. *)
Definition page_spec (o : page_op) (A : gmap Z Z) : Z * gmap Z Z :=
  match o with
  | PMap va pa flags => (0, <[va / PAGE_SIZE := page_entry pa flags]> A)
  | PUnmap va => (0, delete (va / PAGE_SIZE) A)
  | PQuery va => (match A !! (va / PAGE_SIZE) with Some e => Z.lor (get_table e) (Z.land va 0xFFF) | None => 0 end, A)
  end.

Fixpoint page_specs (os : list page_op) (A : gmap Z Z) : list Z * gmap Z Z :=
  match os with
  | [] => ([], A)
  | o :: os' => let (r, A1) := page_spec o A in let (rs, A2) := page_specs os' A1 in (r :: rs, A2)
  end.

Definition implements (s : vm) (k : Z) (A : gmap Z Z) : Prop :=
  forall va, 0 <= va < 2 ^ 47 -> translate s (paddr k) va = A !! (va / PAGE_SIZE).

Lemma page_call_ok im o s k F A :
  vm_ok im s -> pml4_table s = paddr k -> space s k F -> implements s k A -> op_ok o -> (3 <= size (free_set (vm_pmm s)))%nat ->
  exists s' N, page_call im o s = Ret ((page_spec o A).1, s') /\ changed s s' (F ∪ N) N /\ (size N <= 3)%nat /\
    space s' k (F ∪ N) /\ implements s' k (page_spec o A).2.
Proof.
  intros Hok Hroot Hsp Hi [Hva Hpa] Hsz. destruct o as [va pa flags|va|va]; cbn [page_call page_spec op_addr fst snd] in *.
  - destruct (map_page_ok im s k F va pa flags) as (s' & N & E & [C Hs Hsp' Hp]); [done..|]. rewrite (M_bind_Ret _ _ _ _ _ E).
    exists s', N. split; [done|]. split; [done|]. split; [done|]. split; [done|]. intros va' Hva'. rewrite Hp by done.
    destruct (decide (va' / PAGE_SIZE = va / PAGE_SIZE)) as [->|Hne]; [by rewrite lookup_insert_eq|rewrite lookup_insert_ne by done; by apply Hi].
  - destruct (unmap_page_ok s k F va) as (s' & E & C & Hsp' & Hp); [apply Hok|done..|]. rewrite (M_bind_Ret _ _ _ _ _ E).
    exists s', ∅. rewrite (right_id_L ∅ (∪)), size_empty. split; [done|]. split; [done|]. split; [lia|]. split; [done|]. intros va' Hva'. rewrite Hp by done.
    destruct (decide (va' / PAGE_SIZE = va / PAGE_SIZE)) as [->|Hne]; [by rewrite lookup_delete_eq|rewrite lookup_delete_ne by done; by apply Hi].
  - rewrite (get_phys_addr_ok s k F va), Hi by done. exists s, ∅. rewrite (right_id_L ∅ (∪)), size_empty. split; [done|].
    split; [eapply changed_weaken; [apply changed_refl, Hok|apply empty_subseteq]|]. split; [lia|]. done.
Qed.

(** Pages mapped in memory after a [poke] or in blank memory. *)
Lemma poke_mapped b l m a n : mapped m a n -> mapped (poke b l m) a n.
Proof.
  intros H i Hi. specialize (H i Hi). revert H. generalize (a + Z.of_nat i). intros x. revert b m. induction l as [|c l IH]; intros b m H; cbn [poke]; [done|].
  destruct (decide (x = b)) as [->|Hne]; [rewrite lookup_insert_eq; by eexists|rewrite lookup_insert_ne by done; by apply IH].
Qed.

Lemma blank_lookup a n x : a <= x < a + Z.of_nat n -> blank a n !! x = Some 0.
Proof.
  intros Hx. unfold blank. apply elem_of_list_to_map.
  - rewrite <- list_fmap_compose. apply NoDup_fmap_2; [intros i j Hij; cbn in Hij; lia|apply NoDup_seq].
  - apply list_elem_of_fmap. exists (Z.to_nat (x - a)). split; [f_equal; lia|]. apply elem_of_seq. lia.
Qed.

Lemma blank_zeros a n b k : a <= b -> b + Z.of_nat k <= a + Z.of_nat n -> bytes_at (blank a n) b (replicate k 0).
Proof. intros H1 H2 i x Hx. apply lookup_replicate in Hx as [-> Hi]. apply blank_lookup. lia. Qed.

(** Giving pages to a blank allocator. *)
Definition give_pages (ks : list Z) : pmm := foldr (fun k p => add_free 1 (set_page_free k p)) pmm_blank ks.

Lemma blank_inv : pmm_inv pmm_blank.
Proof. split; [split; [apply length_replicate|done]|]. by rewrite blank_free_set, size_empty. Qed.

Lemma give_pages_ok ks :
  NoDup ks -> Forall (fun k => 0 <= k < MAX_PAGES) ks -> pmm_inv (give_pages ks) /\ free_set (give_pages ks) = list_to_set ks.
Proof.
  intros Hnd Hr. induction ks as [|k ks IH]; [split; [exact blank_inv|exact blank_free_set]|].
  apply NoDup_cons in Hnd as [Hk Hnd]. apply Forall_cons in Hr as [Hkr Hr]. destruct (IH Hnd Hr) as [Hp Hf].
  destruct (give_page_ok k (give_pages ks) Hp Hkr) as [Hp' Hf']; [rewrite Hf, elem_of_list_to_set; done|]. split; [exact Hp'|].
  change (give_pages (k :: ks)) with (add_free 1 (set_page_free k (give_pages ks))). by rewrite Hf', Hf.
Qed.

(** *** The kernel's own tables *)
Lemma page_entry_addr va flags : 0 <= va < 2 ^ 64 -> Z.lor (get_table (page_entry va flags)) (Z.land va 0xFFF) = va.
Proof.
  intros Hva. destruct (page_entry_ok va flags Hva) as (_ & _ & _ & ->). unfold PAGE_SIZE. change 0xFFF with (2 ^ 12 - 1). rewrite (land_low 12) by lia. change (2 ^ 12) with 4096.
  pose proof (Z.mod_pos_bound va 4096). pose proof (Z.div_mod va 4096). rewrite lor_low; [lia|by apply Z.mod_mul|lia].
Qed.

Definition low_pages : list Z := (fun i => i * PAGE_SIZE) <$> seqZ 0 4096.

Lemma low_pages_in va : 0 <= va -> va / PAGE_SIZE ∈ (fun a => a / PAGE_SIZE) <$> low_pages <-> va < 0x1000000.
Proof.
  intros Hva. unfold low_pages, PAGE_SIZE. pose proof (Z.div_mod va 4096). pose proof (Z.mod_pos_bound va 4096). rewrite <- list_fmap_compose, list_elem_of_fmap. split.
  - intros (i & E & Hi). apply elem_of_seqZ in Hi. cbn in E. rewrite Z.div_mul in E by lia. lia.
  - intros Hlt. exists (va / 4096). split; [cbn; by rewrite Z.div_mul by lia|]. apply elem_of_seqZ. lia.
Qed.

Lemma low_pages_range : Forall (fun a => 0 <= a < 2 ^ 47) low_pages.
Proof. apply Forall_forall. intros a Ha. apply list_elem_of_fmap in Ha as (i & -> & Hi). apply elem_of_seqZ in Hi. unfold PAGE_SIZE. lia. Qed.

Lemma zero_words m k : bytes_at m (paddr k) (replicate 4096 0) -> upper_words m k.
Proof. intros H i Hi. exists 0. split; [apply zero_entry; [done|lia]|lia]. Qed.

Lemma paging_init_ok im s :
  vm_ok im s -> 12290 <= Z.of_nat (size (free_set (vm_pmm s))) ->
  exists s' k F, paging_init im s = Ret (tt, s') /\ pml4_table s' = paddr k /\ cr3 s' = paddr k /\ space s' k F /\ vm_ok im s' /\
    F ⊆ free_set (vm_pmm s) /\
    (forall x, (forall j, j ∈ free_set (vm_pmm s) -> ~ in_page j x) -> vm_mem s' !! x = vm_mem s !! x) /\
    forall va, 0 <= va < 2 ^ 47 -> translate s' (paddr k) va = if va <? 0x1000000 then Some (page_entry va 3) else None.
Proof.
  intros Hok Hsz. unfold paging_init. pose proof Hok as [Him Hp Hfree].
  destruct (alloc_ok im s Hok) as (k & s1 & E1 & C1 & Hk & Hm1); [intros Hz; rewrite Hz, size_empty in Hsz; lia|]. rewrite (M_bind_Ret _ _ _ _ _ E1).
  pose proof Hk as [Hkr _]%elem_of_free_set. destruct (Hfree k Hk) as [Hu Hmk].
  set (s1' := set_pml4 (paddr k) s1). rewrite (M_bind_Ret _ _ s1 tt s1') by done.
  destruct (clear_page_ok im s1' k) as (s2 & E2 & C2 & Hz2); [done|apply C1|done|unfold s1'; cbn [set_pml4 vm_mem]; by rewrite Hm1|]. rewrite (M_bind_Ret _ _ _ _ _ E2).
  assert (free_set (vm_pmm s2) = free_set (vm_pmm s) ∖ {[k]}) as Hf2 by (rewrite (ch_free _ _ _ _ C2), difference_empty_L; apply (ch_free _ _ _ _ C1)).
  assert (vm_ok im s2) as Hok2.
  { eapply changed_vm_ok; [|exact C2]. pose proof (changed_vm_ok _ _ _ _ _ Hok C1) as [A1 A2 A3]. by split. }
  destruct (zero_tree (vm_mem s2) 3 k Hkr Hz2) as [Ht2 Hw2].
  assert (space s2 k {[k]}) as Hsp2.
  { split; [done|]. apply disjoint_singleton_l. rewrite Hf2. intros H. apply elem_of_difference in H as [_ H]. by apply H, elem_of_singleton. }
  assert (size (free_set (vm_pmm s2)) = size (free_set (vm_pmm s)) - 1)%nat as Hsz2 by (rewrite Hf2, size_difference, size_singleton by (by apply singleton_subseteq_l); done).
  destruct (cleared_root_ok im s2 k) as (kt & s3 & E3 & Hkt & C3 & Hrest); [done| |by rewrite (ch_pml4 _ _ _ _ C2)|by apply zero_words|intros Hz; rewrite Hz, size_empty in Hsz2; lia|].
  { destruct Hsp2 as [_ Hd]. by apply disjoint_singleton_l in Hd. }
  pose proof Hkt as [Hktr _]%elem_of_free_set. rewrite (M_bind_Ret _ _ _ _ _ E3), (proj2 (Z.eqb_neq _ _)) by (apply paddr_pos; lia).
  destruct (Hrest s3) as (s4 & E4 & C4 & Hrest'); [apply changed_refl, C3|done|]. destruct (Hrest' s4) as (s5 & E5 & [C5 _ _ _]); [apply changed_refl, C4|done|].
  assert (k <> kt) as Hkk by (intros <-; rewrite Hf2 in Hkt; apply elem_of_difference in Hkt as [_ H]; by apply H, elem_of_singleton).
  destruct (space_frame s2 s5 k {[k]} {[kt]} {[kt]} Hsp2 C5) as [Hsp5 Htr5].
  { apply disjoint_singleton_l. intros H. by apply elem_of_singleton in H. }
  pose proof (changed_vm_ok _ _ _ _ _ Hok2 C5) as Hok5.
  rewrite (M_bind_Ret _ _ s3 tt s5); [|rewrite (M_bind_Ret _ _ _ _ _ E4); exact E5].
  destruct (map_each_ok im k (Z.lor PAGE_PRESENT PAGE_RW) low_pages s5 {[k]}) as (s6 & N & E6 & C6 & Hsp6 & _ & Htr6); [done|by rewrite (ch_pml4 _ _ _ _ C5), (ch_pml4 _ _ _ _ C2)|done|exact low_pages_range| |].
  { unfold low_pages. rewrite length_fmap, length_seqZ, (ch_free _ _ _ _ C5), size_difference, size_singleton by apply C5. lia. }
  rewrite (M_bind_Ret _ _ _ _ _ E6). pose proof (changed_vm_ok _ _ _ _ _ Hok5 C6) as Hok6.
  assert (pml4_table s6 = paddr k) as Hr6 by (by rewrite (ch_pml4 _ _ _ _ C6), (ch_pml4 _ _ _ _ C5), (ch_pml4 _ _ _ _ C2)).
  assert ({[k]} ∪ N ⊆ free_set (vm_pmm s)) as HFs.
  { intros x Hx. apply elem_of_union in Hx as [Hx|Hx]; [by apply elem_of_singleton in Hx as ->|]. apply (ch_new _ _ _ _ C6) in Hx. rewrite (ch_free _ _ _ _ C5), Hf2 in Hx.
    apply elem_of_difference in Hx as [Hx _]. by apply elem_of_difference in Hx as [Hx _]. }
  eexists (set_cr3 (pml4_table s6) s6), k, ({[k]} ∪ N). split; [done|]. cbn [set_cr3 pml4_table cr3 vm_mem]. split; [done|]. split; [done|]. split; [done|].
  split; [by destruct Hok6; split|]. split; [done|]. split.
  - intros x Hx. rewrite (ch_mem _ _ _ _ C6) by (intros j Hj; by apply Hx, HFs). rewrite (ch_mem _ _ _ _ C5), (ch_mem _ _ _ _ C2).
    + unfold s1'. cbn [set_pml4 vm_mem]. by rewrite Hm1.
    + intros j Hj. apply elem_of_singleton in Hj as ->. by apply Hx.
    + intros j Hj. apply elem_of_singleton in Hj as ->. apply Hx. rewrite Hf2 in Hkt. by apply elem_of_difference in Hkt as [Hkt _].
  - intros va Hva. change (translate s6 (paddr k) va = if va <? 0x1000000 then Some (page_entry va 3) else None). rewrite Htr6, Htr5 by done.
    destruct (Z.ltb_spec va 0x1000000) as [Hlt|Hge].
    + rewrite decide_True by (apply low_pages_in; lia). done.
    + rewrite decide_False by (rewrite low_pages_in by lia; lia). apply Hw2. by apply path_of_ok.
Qed.

(** ** Theorems *)

(** C5. The four-level page tables implement a map from pages to entries.  For every
    sequence of [map_page], [unmap_page] and [get_phys_addr] calls on addresses of the
    lower half, with three free pages for each call: every call returns, each lookup
    answers what the map says (0 for a page that is not mapped), the hardware's walk of
    the tables agrees with the map on every address at the end, and no memory but that
    of the tables and of pages that were free has changed. *)
Theorem paging_refines_map im s k F A os :
  vm_ok im s -> pml4_table s = paddr k -> space s k F -> implements s k A -> Forall op_ok os ->
  (3 * length os <= size (free_set (vm_pmm s)))%nat ->
  exists s' N, page_calls im os s = Ret ((page_specs os A).1, s') /\ changed s s' (F ∪ N) N /\
    space s' k (F ∪ N) /\ implements s' k (page_specs os A).2.
Proof.
  revert s F A. induction os as [|o os IH]; intros s F A Hok Hroot Hsp Hi Hos Hsz; cbn [page_calls page_specs length] in *.
  - exists s, ∅. rewrite (right_id_L ∅ (∪)). split; [done|]. split; [eapply changed_weaken; [apply changed_refl, Hok|apply empty_subseteq]|]. done.
  - apply Forall_cons in Hos as [Ho Hos]. destruct (page_call_ok im o s k F A) as (s1 & N1 & E1 & C1 & Hs1 & Hsp1 & Hi1); [done..|lia|].
    rewrite (M_bind_Ret _ _ _ _ _ E1). destruct (page_spec o A) as [r A1]; cbn [fst snd] in *.
    destruct (IH s1 (F ∪ N1) A1) as (s2 & N2 & E2 & C2 & Hsp2 & Hi2); [by eapply changed_vm_ok|by rewrite (ch_pml4 _ _ _ _ C1)|done..| |].
    { rewrite (ch_free _ _ _ _ C1), size_difference by apply C1. lia. }
    rewrite (M_bind_Ret _ _ _ _ _ E2). destruct (page_specs os A1) as [rs A2]; cbn [fst snd] in *.
    exists s2, (N1 ∪ N2). rewrite (assoc_L (∪)). split; [done|]. split; [|done].
    eapply changed_weaken; [exact (changed_trans _ _ _ _ _ _ _ C1 C2)|]. intros x. rewrite !elem_of_union. tauto.
Qed.

(** [test_vm_ffi] leaves no trace: it makes an address space, maps a page in it and
    frees it again, after which the free pages are the same, the current root is the
    same, no memory but that of free pages has changed, and so every address space
    translates as before. *)
Theorem vm_test_restores im s k0 :
  vm_ok im s -> root_ok s k0 -> (4 <= size (free_set (vm_pmm s)))%nat ->
  exists s', test_vm_ffi im s = Ret (tt, s') /\ free_set (vm_pmm s') = free_set (vm_pmm s) /\ pml4_table s' = pml4_table s /\
    forall k F va, space s k F -> 0 <= va < 2 ^ 47 -> translate s' (paddr k) va = translate s (paddr k) va.
Proof.
  intros Hok Hroot Hsz. unfold test_vm_ffi, rust_paging_new_pml4, rust_paging_free_pml4.
  destruct (paging_new_pml4_ok im s k0) as (k & s1 & E1 & Hk & [C1 Hsp1 _ _]); [done|done|intros Hz; rewrite Hz, size_empty in Hsz; lia|].
  rewrite (M_bind_Ret _ _ _ _ _ E1). pose proof Hk as [Hkr _]%elem_of_free_set. rewrite (proj2 (Z.eqb_neq _ _)) by (apply paddr_pos; lia).
  destruct (serial_print_ok (line "[RUST VM] Created new PML4") s1) as (s2 & E2 & C2 & _); [apply C1|]. rewrite (M_bind_Ret _ _ _ _ _ E2).
  pose proof (changed_trans _ _ _ _ _ _ _ C1 C2) as C12. rewrite !(right_id_L ∅ (∪)) in C12.
  destruct (space_frame s1 s2 k {[k]} ∅ ∅ Hsp1 C2 (disjoint_empty_r _)) as [Hsp2 _].
  destruct (rust_map_page_ok im s2 k {[k]} 0x400000 0x200000 0x7) as (s3 & N & E3 & [C3 _ Hsp3 _]); [by eapply changed_vm_ok|done|lia|lia| |].
  { rewrite (ch_free _ _ _ _ C12), size_difference, size_singleton by apply C12. lia. }
  rewrite (M_bind_Ret _ _ _ _ _ E3). destruct (serial_print_ok (line "[RUST VM] Mapped page 0x400000 -> 0x200000") s3) as (s4 & E4 & C4 & _); [apply C3|].
  rewrite (M_bind_Ret _ _ _ _ _ E4). destruct (space_frame s3 s4 k ({[k]} ∪ N) ∅ ∅ Hsp3 C4 (disjoint_empty_r _)) as [[Ht4 _] _].
  pose proof (changed_trans _ _ _ _ _ _ _ (changed_trans _ _ _ _ _ _ _ C12 C3) C4) as C. rewrite !(right_id_L ∅ (∪)), (assoc_L (∪)), (idemp_L (∪)) in C.
  destruct (paging_free_pml4_ok s4 k ({[k]} ∪ N)) as (s5 & E5 & Hf); [apply C|done|]. rewrite (M_bind_Ret _ _ _ _ _ E5).
  eexists. split; [done|]. cbn [set_log vm_pmm pml4_table vm_mem]. split; [|split].
  - apply set_eq. intros x. rewrite (fr_free _ _ _ Hf), (ch_free _ _ _ _ C), elem_of_difference. pose proof (ch_new _ _ _ _ C x).
    destruct (decide (x ∈ ({[k]} ∪ N : gset Z))); tauto.
  - by rewrite (fr_pml4 _ _ _ Hf), (ch_pml4 _ _ _ _ C).
  - intros k' F' va [Ht' HF'] Hva. unfold translate. cbn [set_log vm_mem]. rewrite (fr_mem _ _ _ Hf). eapply walk_frame; [exact Ht'| |by apply path_of_ok].
    eapply changed_same_on; [exact C|]. intros x Hx Hx'. apply (HF' x Hx). by apply (ch_new _ _ _ _ C).
Qed.

(** C25. From boot on, the kernel runs on an identity map of the first 16 MiB.  For every
    memory map with enough memory above the kernel, [pmm_init] followed by [paging_init]
    returns; CR3 holds the root; every address below 16 MiB translates to itself,
    present and writable, and no other address of the lower half is mapped; the tables
    are pages above the kernel's reserve, and memory below it is unchanged. *)
Theorem boot_identity_map im bitmap m mb2 ts :
  pmm_image im bitmap -> mb2 mod 8 = 0 -> bytes_at m mb2 (info_bytes ts) -> Forall tag_ok ts -> disjoint_regions (regions ts) ->
  Z.of_nat (length (info_bytes ts)) < 2 ^ 32 ->
  (forall k, k ∈ available (regions ts) -> paddr k + 4096 <= 512 * 1024 * 1024 /\ mapped m (paddr k) 4096) ->
  12290 <= Z.of_nat (size (filter (fun k => reserved_end im <= paddr k) (available (regions ts)))) ->
  exists p log s k F, pmm_init im bitmap m mb2 = Ret (p, log) /\ paging_init im (mkVm m p 0 0 log) = Ret (tt, s) /\
    cr3 s = paddr k /\ space s k F /\ (forall j, j ∈ F -> reserved_end im <= paddr j) /\
    (forall va, 0 <= va < 2 ^ 47 ->
       translate s (paddr k) va = (if va <? 0x1000000 then Some (page_entry va 3) else None) /\
       get_phys_addr va s = Ret (if va <? 0x1000000 then va else 0, s)) /\
    (forall x, x < reserved_end im -> vm_mem s !! x = m !! x).
Proof.
  intros Him Hal Hb Hts Hd Hlen Hav Hen. destruct (pmm_init_ok im bitmap m mb2 ts) as (p & log & E & Hp & _ & Hf); [assumption..|].
  pose proof Him as [Hio [Hs1 Hs2] _]. assert (kernel_start im <= reserved_end im) as Hres by (destruct Hio; unfold reserved_end; lia).
  assert (vm_ok im (mkVm m p 0 0 log)) as Hok.
  { split; [done|done|]. intros k Hk. apply Hf in Hk as [Hk1 Hk2]. destruct (Hav k Hk1) as [H1 H2]. split; [|done]. split; [unfold paddr; lia|done]. }
  destruct (paging_init_ok im (mkVm m p 0 0 log) Hok) as (s & k & F & E' & Hr & Hc & Hsp & _ & HF & Hmem & Htr).
  { etrans; [exact Hen|]. apply inj_le, subseteq_size. intros k Hk. apply elem_of_filter in Hk as [Hk1 Hk2]. by apply Hf. }
  exists p, log, s, k, F. split; [done|]. split; [done|]. split; [done|]. split; [done|]. split; [|split].
  - intros j Hj. apply HF, Hf in Hj as [_ Hj]. done.
  - intros va Hva. split; [by apply Htr|]. rewrite (get_phys_addr_ok s k F va), Htr by done. destruct (va <? 0x1000000); [|done]. by rewrite page_entry_addr by lia.
  - intros x Hx. apply Hmem. intros j Hj. apply Hf in Hj as [_ Hj]. unfold in_page, paddr. lia.
Qed.

(** A new address space does not contain the kernel: [paging_new_pml4] returns a root
    whose upper half is the kernel's and whose lower half is empty, so that the addresses
    of the first 16 MiB, where the kernel's code, stack and data are mapped, translate to
    nothing in it; the kernel's own translation is unchanged. *)
Theorem new_space_lacks_kernel im s k0 F0 :
  vm_ok im s -> root_ok s k0 -> space s k0 F0 -> free_set (vm_pmm s) <> ∅ ->
  exists k s', paging_new_pml4 im s = Ret (paddr k, s') /\
    (forall va, 0 <= va < 2 ^ 47 -> translate s' (paddr k) va = None /\ translate s' (paddr k0) va = translate s (paddr k0) va) /\
    (forall i, 256 <= i < 512 -> load64 (vm_mem s') (paddr k + 8 * i) = load64 (vm_mem s) (paddr k0 + 8 * i)).
Proof.
  intros Hok Hroot Hsp Hne. destruct (paging_new_pml4_ok im s k0) as (k & s' & E & Hk & [C _ He Hu]); [done..|]. exists k, s'. split; [done|]. split; [|done].
  intros va Hva. split; [by apply He|]. apply (space_frame s s' k0 F0 {[k]} {[k]} Hsp C); [|done]. apply disjoint_singleton_r. intros H. destruct Hsp as [_ Hd]. by apply (Hd k).
Qed.

(** [map_mmio] makes a device's registers reachable at their physical addresses: for a
    page-aligned range of the lower half, every address of the range translates to itself
    with the write-through and cache-disable bits, and every address of another page
    translates as before. *)
Theorem map_mmio_maps im s k F phys size_ :
  vm_ok im s -> pml4_table s = paddr k -> space s k F -> 0 <= phys -> phys mod PAGE_SIZE = 0 -> 0 <= size_ -> phys + size_ + PAGE_SIZE <= 2 ^ 47 ->
  3 * ((size_ + PAGE_SIZE - 1) / PAGE_SIZE) <= Z.of_nat (size (free_set (vm_pmm s))) ->
  exists s', map_mmio im phys size_ s = Ret (tt, s') /\
    forall va, 0 <= va < 2 ^ 47 -> translate s' (paddr k) va =
      if decide (phys / PAGE_SIZE <= va / PAGE_SIZE < (phys + size_ + PAGE_SIZE - 1) / PAGE_SIZE) then Some (page_entry va 0x1B) else translate s (paddr k) va.
Proof.
  intros Hok Hroot Hsp Hph Hal Hs0 Hb Hsz. unfold PAGE_SIZE in Hal, Hb. pose proof (Z.div_mod phys 4096). unfold map_mmio.
  assert (0 <= (size_ + PAGE_SIZE - 1) / PAGE_SIZE) as Hn by (unfold PAGE_SIZE; apply Z.div_pos; lia).
  assert (forall i, 0 <= i < (size_ + PAGE_SIZE - 1) / PAGE_SIZE -> i * 4096 < size_) as Hi.
  { intros i Hi. unfold PAGE_SIZE in Hi. pose proof (Z.div_mod (size_ + 4096 - 1) 4096). pose proof (Z.mod_pos_bound (size_ + 4096 - 1) 4096). lia. }
  destruct (map_each_ok im k 0x1B (mmio_pages phys size_) s F) as (s' & N & E & _ & _ & _ & Htr); [done|done|done| | |].
  - apply Forall_forall. intros a Ha. apply list_elem_of_fmap in Ha as (i & -> & Hir). apply elem_of_seqZ in Hir. specialize (Hi i ltac:(lia)). unfold PAGE_SIZE. lia.
  - unfold mmio_pages. rewrite length_fmap, length_seqZ. lia.
  - exists s'. split; [exact E|]. intros va Hva. rewrite Htr by done. apply decide_ext. unfold mmio_pages. rewrite <- list_fmap_compose, list_elem_of_fmap.
    replace ((phys + size_ + PAGE_SIZE - 1) / PAGE_SIZE) with (phys / PAGE_SIZE + (size_ + PAGE_SIZE - 1) / PAGE_SIZE)
      by (unfold PAGE_SIZE; replace (phys + size_ + 4096 - 1) with (size_ + 4096 - 1 + phys / 4096 * 4096) by lia; rewrite Z.div_add by lia; lia).
    split.
    + intros (i & Ei & Hir). apply elem_of_seqZ in Hir. cbn in Ei. rewrite Ei. rewrite Z.div_add by done. lia.
    + intros Hr. exists (va / PAGE_SIZE - phys / PAGE_SIZE). split; [|apply elem_of_seqZ; lia]. cbn. rewrite Z.div_add by done. lia.
Qed.

(** *** Witnesses *)
Definition demo_pages : list Z := seqZ 769 12.

Definition demo_vm : vm := mkVm (blank (paddr 768) (Z.to_nat (13 * 4096))) (give_pages demo_pages) (paddr 768) (paddr 768) [].

Lemma demo_pages_free : pmm_inv (give_pages demo_pages) /\ forall k, k ∈ free_set (give_pages demo_pages) <-> 769 <= k < 781.
Proof.
  destruct (give_pages_ok demo_pages) as [Hp Hf]; [apply NoDup_seqZ|apply Forall_forall; intros k Hk; apply elem_of_seqZ in Hk; rewrite MAX_PAGES_val; lia|].
  split; [exact Hp|]. intros k. rewrite Hf, elem_of_list_to_set. unfold demo_pages. rewrite elem_of_seqZ. lia.
Qed.

Lemma demo_size : size (free_set (vm_pmm demo_vm)) = 12%nat.
Proof.
  destruct (give_pages_ok demo_pages) as [_ Hf]; [apply NoDup_seqZ|apply Forall_forall; intros k Hk; apply elem_of_seqZ in Hk; rewrite MAX_PAGES_val; lia|].
  cbn [demo_vm vm_pmm]. rewrite Hf, size_list_to_set by apply NoDup_seqZ. done.
Qed.

Lemma demo_zero k : 768 <= k < 781 -> bytes_at (vm_mem demo_vm) (paddr k) (replicate 4096 0).
Proof. intros Hk. apply blank_zeros; unfold paddr, PAGE_SIZE; lia. Qed.

Lemma demo_vm_ok : vm_ok demo_image demo_vm.
Proof.
  destruct demo_pages_free as [Hp Hf]. split; [exact demo_image_ok|exact Hp|]. intros k Hk. apply Hf in Hk. split.
  - unfold usable, paddr, PAGE_SIZE. cbn [demo_image kernel_start]. lia.
  - pose proof (demo_zero k ltac:(lia)) as Hb. apply bytes_at_mapped in Hb. by rewrite length_replicate in Hb.
Qed.

Lemma demo_space : space demo_vm 768 {[768]} /\ implements demo_vm 768 ∅.
Proof.
  destruct (zero_tree (vm_mem demo_vm) 3 768) as [Ht Hw]; [rewrite MAX_PAGES_val; lia|apply demo_zero; lia|]. split.
  - split; [exact Ht|]. apply disjoint_singleton_l. intros H. apply demo_pages_free in H. lia.
  - intros va Hva. rewrite lookup_empty. apply Hw. by apply path_of_ok.
Qed.

Lemma demo_root_table : root_ok demo_vm 768.
Proof.
  split.
  - intros H. apply demo_pages_free in H. lia.
  - done.
  - apply zero_words, demo_zero. lia.
Qed.

Definition demo_page_ops : list page_op := [PMap 0x400000 0x200000 7; PQuery 0x400123; PUnmap 0x400000; PQuery 0x400123].

Lemma paging_refines_map_witness :
  exists s' N, page_calls demo_image demo_page_ops demo_vm = Ret ([0; 0x200123; 0; 0], s') /\ changed demo_vm s' ({[768]} ∪ N) N /\
    space s' 768 ({[768]} ∪ N) /\ implements s' 768 (page_specs demo_page_ops ∅).2.
Proof.
  assert ((page_specs demo_page_ops ∅).1 = [0; 0x200123; 0; 0]) as E by (vm_compute; reflexivity). rewrite <- E.
  apply (paging_refines_map demo_image demo_vm 768 {[768]} ∅ demo_page_ops); [exact demo_vm_ok|reflexivity|apply demo_space|apply demo_space| |rewrite demo_size; cbn; lia].
  unfold demo_page_ops, op_ok. repeat (apply Forall_cons; split; [cbn [op_addr]; lia|]). apply Forall_nil. exact I.
Defined.

Lemma vm_test_restores_witness :
  exists s', test_vm_ffi demo_image demo_vm = Ret (tt, s') /\ free_set (vm_pmm s') = free_set (vm_pmm demo_vm) /\ pml4_table s' = pml4_table demo_vm /\
    forall k F va, space demo_vm k F -> 0 <= va < 2 ^ 47 -> translate s' (paddr k) va = translate demo_vm (paddr k) va.
Proof. apply (vm_test_restores demo_image demo_vm 768); [exact demo_vm_ok|exact demo_root_table|rewrite demo_size; lia]. Defined.

Lemma new_space_lacks_kernel_witness :
  exists k s', paging_new_pml4 demo_image demo_vm = Ret (paddr k, s') /\
    (forall va, 0 <= va < 2 ^ 47 -> translate s' (paddr k) va = None /\ translate s' (paddr 768) va = translate demo_vm (paddr 768) va) /\
    (forall i, 256 <= i < 512 -> load64 (vm_mem s') (paddr k + 8 * i) = load64 (vm_mem demo_vm) (paddr 768 + 8 * i)).
Proof.
  apply (new_space_lacks_kernel demo_image demo_vm 768 {[768]}); [exact demo_vm_ok|exact demo_root_table|apply demo_space|].
  intros H. pose proof demo_size as Hs. rewrite H, size_empty in Hs. discriminate.
Defined.

Lemma map_mmio_maps_witness :
  exists s', map_mmio demo_image 0xFEB00000 0x3000 demo_vm = Ret (tt, s') /\
    forall va, 0 <= va < 2 ^ 47 -> translate s' (paddr 768) va =
      if decide (0xFEB00000 / PAGE_SIZE <= va / PAGE_SIZE < (0xFEB00000 + 0x3000 + PAGE_SIZE - 1) / PAGE_SIZE) then Some (page_entry va 0x1B) else translate demo_vm (paddr 768) va.
Proof.
  apply (map_mmio_maps demo_image demo_vm 768 {[768]}); [exact demo_vm_ok|reflexivity|apply demo_space|lia|reflexivity|lia|unfold PAGE_SIZE; lia|].
  rewrite demo_size. reflexivity || (vm_compute; discriminate).
Defined.

Definition boot_mem : mem := poke 0x9000 (info_bytes demo_map) (blank 0 (Z.to_nat 0x8000000)).

Lemma demo_available k : k ∈ available (regions demo_map) <-> 0 <= k < 32512.
Proof.
  assert (region_pages (mkRegion 0 0x9f000 1 0) = ∅ /\ region_pages (mkRegion 0x8000000 0x10000 2 0) = ∅) as [E1 E2] by (split; reflexivity).
  change (regions demo_map) with [mkRegion 0 0x9f000 1 0; mkRegion 0x100000 0x7f00000 1 0; mkRegion 0x8000000 0x10000 2 0].
  rewrite !available_cons, E1, E2. change (available []) with (∅ : gset Z). rewrite (left_id_L ∅ (∪)), !(right_id_L ∅ (∪)).
  change (region_pages (mkRegion 0x100000 0x7f00000 1 0)) with (pages_from 0 32512). rewrite elem_of_pages_from, MAX_PAGES_val. lia.
Qed.

Lemma boot_identity_map_witness :
  exists p log s k F, pmm_init demo_image 0x120000 boot_mem 0x9000 = Ret (p, log) /\ paging_init demo_image (mkVm boot_mem p 0 0 log) = Ret (tt, s) /\
    cr3 s = paddr k /\ space s k F /\ (forall j, j ∈ F -> reserved_end demo_image <= paddr j) /\
    (forall va, 0 <= va < 2 ^ 47 ->
       translate s (paddr k) va = (if va <? 0x1000000 then Some (page_entry va 3) else None) /\
       get_phys_addr va s = Ret (if va <? 0x1000000 then va else 0, s)) /\
    (forall x, x < reserved_end demo_image -> vm_mem s !! x = boot_mem !! x).
Proof.
  apply (boot_identity_map demo_image 0x120000 boot_mem 0x9000 demo_map).
  - split; [split; cbn; lia|cbn; split; [reflexivity|lia]|change (MAX_PAGES / 8) with 16384; cbn; lia].
  - reflexivity.
  - apply bytes_at_poke.
  - repeat constructor; cbn; lia.
  - exact demo_map_disjoint.
  - vm_compute. reflexivity.
  - intros k Hk. apply demo_available in Hk. split; [unfold paddr, PAGE_SIZE; lia|]. apply poke_mapped. intros i Hi. rewrite blank_lookup; [by eexists|unfold paddr, PAGE_SIZE; lia].
  - transitivity (Z.of_nat (size (list_to_set (seqZ 768 12290) : gset Z))).
    + rewrite size_list_to_set, length_seqZ by apply NoDup_seqZ. lia.
    + apply inj_le, subseteq_size. intros k Hk. apply elem_of_list_to_set, elem_of_seqZ in Hk. apply elem_of_filter.
      split; [unfold reserved_end, paddr, PAGE_SIZE; cbn [demo_image kernel_end]; lia|apply demo_available; lia].
Defined.
