(* ===== verification/Heap.v ===== *)
(** * Heap: the kernel allocator of [heap.rs]

    The allocator keeps a doubly linked list of block headers inside the static
    array [HEAP].  The concrete model below is the code: a map from addresses to
    the headers stored there, [rust_kmalloc] and [rust_kfree] walking it through
    the [next] and [prev] pointers.  The abstract specification is a list of
    segments that tile the array; the theorems show that the pointer code
    implements it. *)

From S2P Require Import Prelude.

Local Open Scope Z_scope.

(** ** The code *)

Definition HEAP_SIZE : Z := 1024 * 1024 * 4.
Definition ALIGNMENT : Z := 16.
Definition BLOCK_MAGIC : Z := 0xDEADBEEF.

(** [#[repr(C, align(16))] struct Block]; pointers are addresses, 0 is null. *)
Record Block := mkBlock {
  blk_magic : Z;
  blk_size : Z;
  blk_is_free : bool;
  blk_next : Z;
  blk_prev : Z
}.

(** [size_of::<Block>()]: u32 at 0, usize at 8, bool at 16, two pointers at 24
    and 32, rounded up to the alignment 16. *)
Definition BLOCK_HEADER : Z := 48.

Definition rust_get_block_header_size : Z := BLOCK_HEADER.

Definition set_size (z : Z) (b : Block) : Block :=
  mkBlock (blk_magic b) z (blk_is_free b) (blk_next b) (blk_prev b).
Definition set_is_free (f : bool) (b : Block) : Block :=
  mkBlock (blk_magic b) (blk_size b) f (blk_next b) (blk_prev b).
Definition set_next (p : Z) (b : Block) : Block :=
  mkBlock (blk_magic b) (blk_size b) (blk_is_free b) p (blk_prev b).
Definition set_prev (p : Z) (b : Block) : Block :=
  mkBlock (blk_magic b) (blk_size b) (blk_is_free b) (blk_next b) p.

(** The headers in the array [HEAP], by address, and the static [HEAP_HEAD]. *)
Record heap := mkHeap {
  blocks : gmap Z Block;
  HEAP_HEAD : Z
}.

Definition get_block (h : heap) (a : Z) : outcome Block := deref (blocks h !! a).

(** A field assignment through a block pointer. *)
Definition with_block (a : Z) (f : Block -> Block) (h : heap) : outcome heap :=
  b ← get_block h a; Ret (mkHeap (<[a := f b]> (blocks h)) (HEAP_HEAD h)).

(** A header written where there was none overwrites the bytes of every stale
    header that overlaps it. *)
Definition far_from (a : Z) (kv : Z * Block) : Prop := BLOCK_HEADER <= Z.abs (kv.1 - a).

#[export] Instance far_from_dec a kv : Decision (far_from a kv).
Proof. unfold far_from. apply _. Defined.

Definition write_header (a : Z) (b : Block) (h : heap) : heap :=
  mkHeap (<[a := b]> (filter (far_from a) (blocks h))) (HEAP_HEAD h).

(** [init_heap]: one free block over the whole array. *)
Definition init_heap (heap_base : Z) : heap :=
  write_header heap_base
    (mkBlock BLOCK_MAGIC (HEAP_SIZE - BLOCK_HEADER) true 0 0)
    (mkHeap ∅ heap_base).

(** The body of the [if block.is_free && block.size >= aligned_size] branch. *)
Definition take_block (h : heap) (current aligned_size : Z) : outcome (Z * heap) :=
  block ← get_block h current;
  h1 ←
    (if u64 (aligned_size + BLOCK_HEADER) <? blk_size block then
       let new_block := u64 (current + BLOCK_HEADER + aligned_size) in
       let hn := write_header new_block
         (mkBlock BLOCK_MAGIC (u64 (blk_size block - aligned_size - BLOCK_HEADER))
            true (blk_next block) current) h in
       h2 ← (if blk_next block =? 0 then Ret hn
             else with_block (blk_next block) (set_prev new_block) hn);
       h3 ← with_block current (set_size aligned_size) h2;
       with_block current (set_next new_block) h3
     else Ret h);
  h4 ← with_block current (set_is_free false) h1;
  Ret (u64 (current + BLOCK_HEADER), h4).

(** [while !current.is_null() { ... current = block.next; }]. *)
Fixpoint kmalloc_loop (fuel : nat) (h : heap) (aligned_size current : Z) : outcome (Z * heap) :=
  match fuel with
  | O => Timeout
  | S f =>
      if current =? 0 then Ret (0, h)
      else
        block ← get_block h current;
        if blk_is_free block && (aligned_size <=? blk_size block)
        then take_block h current aligned_size
        else kmalloc_loop f h aligned_size (blk_next block)
  end.

(** [(size + (ALIGNMENT - 1)) & !(ALIGNMENT - 1)] on 64-bit words. *)
Definition align_up (size : Z) : Z :=
  (u64 (size + (ALIGNMENT - 1)) .& (2 ^ 64 - ALIGNMENT))%W.

Definition rust_kmalloc (h : heap) (size : Z) : outcome (Z * heap) :=
  if size =? 0 then Ret (0, h)
  else kmalloc_loop (S (stdpp.base.size (blocks h))) h (align_up size) (HEAP_HEAD h).

(** "Coalesce with next block" and "Coalesce with previous block". *)
Definition coalesce_next (h : heap) (block_ptr : Z) : outcome heap :=
  block ← get_block h block_ptr;
  if blk_next block =? 0 then Ret h
  else
    next_block ← get_block h (blk_next block);
    if blk_is_free next_block then
      h1 ← with_block block_ptr
             (set_size (u64 (blk_size block + BLOCK_HEADER + blk_size next_block))) h;
      h2 ← with_block block_ptr (set_next (blk_next next_block)) h1;
      (if blk_next next_block =? 0 then Ret h2
       else with_block (blk_next next_block) (set_prev block_ptr) h2)
    else Ret h.

Definition coalesce_prev (h : heap) (block_ptr : Z) : outcome heap :=
  block ← get_block h block_ptr;
  if blk_prev block =? 0 then Ret h
  else
    prev_block ← get_block h (blk_prev block);
    if blk_is_free prev_block then
      h1 ← with_block (blk_prev block)
             (set_size (u64 (blk_size prev_block + BLOCK_HEADER + blk_size block))) h;
      h2 ← with_block (blk_prev block) (set_next (blk_next block)) h1;
      (if blk_next block =? 0 then Ret h2
       else with_block (blk_next block) (set_prev (blk_prev block)) h2)
    else Ret h.

Definition rust_kfree (h : heap) (ptr : Z) : outcome heap :=
  if ptr =? 0 then Ret h
  else
    let block_ptr := u64 (ptr - BLOCK_HEADER) in
    block ← get_block h block_ptr;
    if negb (blk_magic block =? BLOCK_MAGIC) || blk_is_free block then Ret h
    else
      h1 ← with_block block_ptr (set_is_free true) h;
      h2 ← coalesce_next h1 block_ptr;
      coalesce_prev h2 block_ptr.

Definition rust_heap_validate : bool := true.
Definition rust_heap_stats : Z * Z * Z := (0, 0, 0).

(** ** The specification: segments

    A segment is the payload size of a block and whether it is free; the
    segments of a heap, each preceded by its header, tile the array. *)
Definition seg : Type := Z * bool.

Definition seg_len (s : seg) : Z := BLOCK_HEADER + s.1.

Fixpoint span (segs : list seg) : Z :=
  match segs with [] => 0 | s :: rest => seg_len s + span rest end.

Definition seg_ok (s : seg) : Prop := 0 <= s.1 /\ (16 | s.1).

(** No two neighbouring segments are free. *)
Fixpoint normal (segs : list seg) : Prop :=
  match segs with
  | s :: rest =>
      match rest with t :: _ => s.2 = true -> t.2 = false | [] => True end /\ normal rest
  | [] => True
  end.

(** What an allocation leaves of a free segment of [sz] bytes. *)
Definition carve (n sz : Z) : list seg :=
  if n + BLOCK_HEADER <? sz then [(n, false); (sz - n - BLOCK_HEADER, true)] else [(sz, false)].

(** First fit over segments whose first header is at [a]. *)
Fixpoint alloc_segs (a n : Z) (segs : list seg) : option (Z * list seg) :=
  match segs with
  | [] => None
  | s :: rest =>
      if s.2 && (n <=? s.1) then Some (a + BLOCK_HEADER, carve n s.1 ++ rest)
      else '(p, rest') ← alloc_segs (a + seg_len s) n rest; Some (p, s :: rest')
  end.

(** Mark the live segment with payload address [p] free. *)
Fixpoint mark_free (a p : Z) (segs : list seg) : option (list seg) :=
  match segs with
  | [] => None
  | s :: rest =>
      if a + BLOCK_HEADER =? p then if s.2 then None else Some ((s.1, true) :: rest)
      else rest' ← mark_free (a + seg_len s) p rest; Some (s :: rest')
  end.

(** Merge runs of free segments. *)
Fixpoint coalesce (segs : list seg) : list seg :=
  match segs with
  | [] => []
  | s :: rest =>
      match coalesce rest with
      | t :: rest' => if s.2 && t.2 then (s.1 + BLOCK_HEADER + t.1, true) :: rest' else s :: t :: rest'
      | [] => [s]
      end
  end.

Definition free_segs (a p : Z) (segs : list seg) : option (list seg) :=
  coalesce <$> mark_free a p segs.

(** Payload address and size of every allocation. *)
Fixpoint live (a : Z) (segs : list seg) : list (Z * Z) :=
  match segs with
  | [] => []
  | s :: rest =>
      (if s.2 then [] else [(a + BLOCK_HEADER, s.1)]) ++ live (a + seg_len s) rest
  end.

(** Address of every header. *)
Fixpoint headers (a : Z) (segs : list seg) : list Z :=
  match segs with [] => [] | s :: rest => a :: headers (a + seg_len s) rest end.

(** ** Representation *)

(** Where the [next] pointer of a block goes when [rest] follows it. *)
Definition next_of (x : Z) (rest : list seg) (e : Z) : Z :=
  match rest with [] => e | _ => x end.

(** The blocks from address [a] on, the first one with predecessor [p], the
    last one with successor [e], describe [segs]. *)
Fixpoint chain (m : gmap Z Block) (p a : Z) (segs : list seg) (e : Z) : Prop :=
  match segs with
  | [] => True
  | s :: rest =>
      m !! a = Some (mkBlock BLOCK_MAGIC s.1 s.2 (next_of (a + seg_len s) rest e) p) /\
      chain m a (a + seg_len s) rest e
  end.

(** Where the array may be placed: aligned by [#[repr(align(16))]], not at
    address 0, and below the top of the address space. *)
Definition base_ok (heap_base : Z) : Prop :=
  0 < heap_base /\ (16 | heap_base) /\ heap_base + HEAP_SIZE < 2 ^ 64.

Record heap_inv (heap_base : Z) (h : heap) (segs : list seg) : Prop := {
  inv_head : HEAP_HEAD h = heap_base;
  inv_chain : chain (blocks h) 0 heap_base segs 0;
  inv_sizes : Forall seg_ok segs;
  inv_span : span segs = HEAP_SIZE;
  inv_normal : normal segs
}.

(** [rust_kmalloc] on segments: the pointer returned and what is left. *)
Definition malloc_segs (a size : Z) (segs : list seg) : Z * list seg :=
  if size =? 0 then (0, segs)
  else match alloc_segs a (align_up size) segs with Some r => r | None => (0, segs) end.

(** Runs of the allocator: calls of a client that frees only pointers it holds. *)
Inductive reach (heap_base : Z) : heap -> gset Z -> Prop :=
| reach_init : reach heap_base (init_heap heap_base) ∅
| reach_kmalloc h held size p h' :
    reach heap_base h held -> 0 <= size < 2 ^ 64 -> rust_kmalloc h size = Ret (p, h') ->
    reach heap_base h' (if p =? 0 then held else {[p]} ∪ held)
| reach_kfree h held p h' :
    reach heap_base h held -> p ∈ held -> rust_kfree h p = Ret h' ->
    reach heap_base h' (held ∖ {[p]}).

(** ** Lists of segments *)
Lemma span_app l r : span (l ++ r) = span l + span r.
Proof. induction l as [|s l IH]; cbn [app span]; [lia|]. rewrite IH. lia. Qed.

Lemma seg_len_pos s : seg_ok s -> BLOCK_HEADER <= seg_len s.
Proof. intros [H _]. unfold seg_len. lia. Qed.

Lemma span_nonneg l : Forall seg_ok l -> 0 <= span l.
Proof.
  induction 1 as [|s l Hs _ IH]; cbn [span]; [lia|].
  apply seg_len_pos in Hs. unfold BLOCK_HEADER in *. lia.
Qed.

Lemma span_aligned l : Forall seg_ok l -> (16 | span l).
Proof.
  induction 1 as [|s l [_ Hs] _ IH]; cbn [span]; [apply Z.divide_0_r|].
  unfold seg_len. apply Z.divide_add_r; [|done]. apply Z.divide_add_r; [|done].
  by exists 3.
Qed.

Lemma normal_app_inv l r : normal (l ++ r) -> normal l /\ normal r.
Proof.
  induction l as [|s l IH]; cbn; [done|]. intros [Hs H]. destruct (IH H) as [Hl Hr].
  split; [|done]. split; [|done]. by destruct l.
Qed.

Lemma alloc_segs_split a n segs p segs' :
  alloc_segs a n segs = Some (p, segs') ->
  exists l sz r, segs = l ++ (sz, true) :: r /\ n <= sz /\
    p = a + span l + BLOCK_HEADER /\ segs' = l ++ carve n sz ++ r /\
    Forall (fun s => s.2 && (n <=? s.1) = false) l.
Proof.
  revert a segs'. induction segs as [|[sz f] rest IH]; intros a segs' H; cbn in H; [discriminate|].
  destruct f; cbn in H; [destruct (Z.leb_spec n sz)|].
  - injection H as <- <-. exists [], sz, rest. cbn. split_and!; try done; lia.
  - apply bind_Some in H as ([q rest'] & Hq & H). injection H as <- <-.
    destruct (IH _ _ Hq) as (l & sz' & r & -> & Hn & -> & -> & Hl).
    exists ((sz, true) :: l), sz', r. cbn. split_and!; try done; [lia|].
    constructor; [|done]. cbn. by apply Z.leb_gt.
  - apply bind_Some in H as ([q rest'] & Hq & H). injection H as <- <-.
    destruct (IH _ _ Hq) as (l & sz' & r & -> & Hn & -> & -> & Hl).
    exists ((sz, false) :: l), sz', r. cbn. split_and!; try done; [lia|].
    by constructor.
Qed.

Lemma alloc_segs_none a n segs :
  alloc_segs a n segs = None <-> Forall (fun s => s.2 && (n <=? s.1) = false) segs.
Proof.
  revert a. induction segs as [|s rest IH]; intros a; cbn.
  - split; [constructor|done].
  - rewrite Forall_cons. destruct (s.2 && (n <=? s.1)) eqn:E.
    + split; [discriminate|]. by intros [? _].
    + destruct (alloc_segs (a + seg_len s) n rest) as [[q r']|] eqn:Er; cbn.
      * split; [discriminate|]. intros [_ H]. apply (IH (a + seg_len s)) in H. congruence.
      * split; [|done]. intros _. split; [done|]. by apply (IH (a + seg_len s)).
Qed.

Lemma mark_free_split a p segs segs' :
  mark_free a p segs = Some segs' ->
  exists l sz r, segs = l ++ (sz, false) :: r /\ p = a + span l + BLOCK_HEADER /\
    segs' = l ++ (sz, true) :: r.
Proof.
  revert a segs'. induction segs as [|[sz f] rest IH]; intros a segs' H; cbn in H; [discriminate|].
  destruct (Z.eqb_spec (a + BLOCK_HEADER) p) as [<-|Hne].
  - destruct f; [discriminate|]. injection H as <-. exists [], sz, rest. cbn.
    split_and!; try done. lia.
  - apply bind_Some in H as (rest' & Hq & H). injection H as <-.
    destruct (IH _ _ Hq) as (l & sz' & r & -> & -> & ->).
    exists ((sz, f) :: l), sz', r. cbn. split_and!; try done. lia.
Qed.

Lemma mark_free_at a l sz r :
  Forall seg_ok l ->
  mark_free a (a + span l + BLOCK_HEADER) (l ++ (sz, false) :: r) = Some (l ++ (sz, true) :: r).
Proof.
  intros Hl. revert a. induction Hl as [|s l Hs Hl IH]; intros a; cbn.
  - rewrite (proj2 (Z.eqb_eq _ _)) by lia. done.
  - apply seg_len_pos in Hs. pose proof (span_nonneg l Hl). unfold BLOCK_HEADER in *.
    rewrite (proj2 (Z.eqb_neq _ _)) by lia.
    replace (a + (seg_len s + span l) + 48) with (a + seg_len s + span l + 48) by lia.
    by rewrite IH.
Qed.

Lemma live_app a l r : live a (l ++ r) = live a l ++ live (a + span l) r.
Proof.
  revert a. induction l as [|s l IH]; intros a; cbn [app live span].
  - by rewrite Z.add_0_r.
  - rewrite IH, <- app_assoc. by rewrite Z.add_assoc.
Qed.

Lemma live_split a segs p sz :
  (p, sz) ∈ live a segs ->
  exists l r, segs = l ++ (sz, false) :: r /\ p = a + span l + BLOCK_HEADER.
Proof.
  revert a. induction segs as [|[z f] rest IH]; intros a H; cbn in H; [by apply not_elem_of_nil in H|].
  apply elem_of_app in H as [H|H].
  - destruct f; cbn in H; [by apply not_elem_of_nil in H|].
    apply list_elem_of_singleton in H. injection H as -> ->. exists [], rest. cbn. split; [done|lia].
  - destruct (IH _ H) as (l & r & -> & ->). exists ((z, f) :: l), r. cbn. split; [done|lia].
Qed.

(** ** Chains of headers *)
Fixpoint last_addr (p a : Z) (l : list seg) : Z :=
  match l with [] => p | s :: l' => last_addr a (a + seg_len s) l' end.

Lemma next_of_app a s l r e :
  next_of (a + seg_len s) (l ++ r) e =
  next_of (a + seg_len s) l (next_of (a + seg_len s + span l) r e).
Proof. destruct l; cbn; [by rewrite Z.add_0_r|done]. Qed.

Lemma chain_app m p a l r e :
  chain m p a (l ++ r) e <->
  chain m p a l (next_of (a + span l) r e) /\ chain m (last_addr p a l) (a + span l) r e.
Proof.
  revert p a. induction l as [|s l IH]; intros p a; cbn [app chain span last_addr].
  - rewrite Z.add_0_r. tauto.
  - rewrite IH, next_of_app, Z.add_assoc. tauto.
Qed.

(** A chain around one of its cells. *)
Lemma chain_cell m p a l s r e :
  chain m p a (l ++ s :: r) e <->
  chain m p a l (a + span l) /\
  m !! (a + span l) = Some (mkBlock BLOCK_MAGIC s.1 s.2
                              (next_of (a + span l + seg_len s) r e) (last_addr p a l)) /\
  chain m (a + span l) (a + span l + seg_len s) r e.
Proof. rewrite chain_app. cbn [next_of chain]. tauto. Qed.

(** A chain only depends on the headers it goes through. *)
Lemma chain_ext m m' p a l e :
  Forall seg_ok l ->
  (forall x, a <= x -> x + BLOCK_HEADER <= a + span l -> m' !! x = m !! x) ->
  chain m p a l e -> chain m' p a l e.
Proof.
  intros Hok. revert p a. induction Hok as [|s l Hs Hl IH]; intros p a Hx; cbn; [done|].
  apply seg_len_pos in Hs. pose proof (span_nonneg l Hl) as Hn. unfold BLOCK_HEADER in *.
  intros [H0 H]. cbn [span] in Hx. split.
  - rewrite Hx by lia. done.
  - apply IH; [|done]. intros x H1 H2. apply Hx; lia.
Qed.

Lemma write_header_ne a b h x :
  BLOCK_HEADER <= Z.abs (x - a) -> blocks (write_header a b h) !! x = blocks h !! x.
Proof.
  intros Hx. unfold write_header, BLOCK_HEADER in *. cbn. rewrite lookup_insert_ne by lia.
  rewrite map_lookup_filter. destruct (blocks h !! x) as [b'|]; cbn; [|done].
  rewrite option_guard_True; done.
Qed.

Lemma write_header_eq a b h : blocks (write_header a b h) !! a = Some b.
Proof. apply lookup_insert_eq. Qed.

Lemma get_block_ok h a b : blocks h !! a = Some b -> get_block h a = Ret b.
Proof. unfold get_block. by intros ->. Qed.

Lemma with_block_ok a f h b :
  blocks h !! a = Some b ->
  with_block a f h = Ret (mkHeap (<[a := f b]> (blocks h)) (HEAP_HEAD h)).
Proof. intros H. unfold with_block. by rewrite (get_block_ok _ _ _ H). Qed.

(** The guarded assignment of the [prev] field of the next block. *)
Lemma relink_prev h p p' a r :
  a <> 0 -> Forall seg_ok r -> chain (blocks h) p a r 0 ->
  exists h', (if next_of a r 0 =? 0 then Ret h
              else with_block (next_of a r 0) (set_prev p') h) = Ret h' /\
    chain (blocks h') p' a r 0 /\ HEAP_HEAD h' = HEAP_HEAD h /\
    (forall x, x < a -> blocks h' !! x = blocks h !! x).
Proof.
  intros Ha Hok Hc. destruct r as [|s r]; cbn [next_of].
  - exists h. split; [done|]. done.
  - rewrite (proj2 (Z.eqb_neq a 0)) by done. cbn in Hc. destruct Hc as [H0 Hc].
    rewrite (with_block_ok _ _ _ _ H0). eexists; split; [reflexivity|]. cbn.
    apply Forall_cons in Hok as [Hs Hok]. apply seg_len_pos in Hs. unfold BLOCK_HEADER in *.
    split; [split; [by rewrite lookup_insert_eq|]|split; [done|]].
    + eapply chain_ext; [done| |done]. intros x H1 H2. rewrite lookup_insert_ne by lia. done.
    + intros x Hx. rewrite lookup_insert_ne by lia. done.
Qed.

(** A header in the middle of a chain is replaced without changing its links. *)
Lemma chain_update h base l s s' r :
  Forall seg_ok l -> Forall seg_ok r -> seg_ok s -> s.1 = s'.1 ->
  chain (blocks h) 0 base (l ++ s :: r) 0 ->
  chain (<[base + span l := mkBlock BLOCK_MAGIC s'.1 s'.2
             (next_of (base + span l + seg_len s') r 0) (last_addr 0 base l)]> (blocks h))
        0 base (l ++ s' :: r) 0.
Proof.
  intros Hl Hr Hs E Hc. apply chain_cell in Hc as (Hcl & Hcur & Hcr). apply chain_cell.
  assert (seg_len s' = seg_len s) as E' by (unfold seg_len; congruence). rewrite E'.
  apply seg_len_pos in Hs. unfold BLOCK_HEADER in Hs.
  split; [|split].
  - eapply chain_ext; [done| |exact Hcl]. intros x H1 H2. unfold BLOCK_HEADER in H2.
    rewrite lookup_insert_ne by lia. done.
  - by rewrite lookup_insert_eq.
  - eapply chain_ext; [done| |exact Hcr]. intros x H1 H2. rewrite lookup_insert_ne by lia. done.
Qed.

Lemma take_block_whole h base l sz r n :
  0 < base -> base + span (l ++ (sz, true) :: r) < 2 ^ 64 ->
  chain (blocks h) 0 base (l ++ (sz, true) :: r) 0 ->
  Forall seg_ok (l ++ (sz, true) :: r) -> 0 <= n <= sz -> sz <= n + BLOCK_HEADER ->
  exists h', take_block h (base + span l) n = Ret (base + span l + BLOCK_HEADER, h') /\
    HEAP_HEAD h' = HEAP_HEAD h /\ chain (blocks h') 0 base (l ++ (sz, false) :: r) 0.
Proof.
  intros Hb Htop Hc Hok Hn Hsz. apply Forall_app in Hok as [Hl Hok].
  apply Forall_cons in Hok as [Hs Hr]. pose proof (span_nonneg l Hl) as Hsl.
  pose proof (span_nonneg r Hr) as Hsr. rewrite span_app in Htop. cbn [span] in Htop.
  pose proof (chain_update h base l (sz, true) (sz, false) r Hl Hr Hs eq_refl Hc) as Hc'.
  apply chain_cell in Hc as (_ & Hcur & _).
  unfold seg_len, BLOCK_HEADER in Hsz, Htop. cbn in Htop.
  unfold take_block. rewrite (get_block_ok _ _ _ Hcur). step_ret. cbn [blk_size fst].
  unfold BLOCK_HEADER. rewrite (wrap_small 64 (n + 48)), (wrap_small 64 (base + span l + 48)) by lia.
  rewrite (proj2 (Z.ltb_ge _ _)) by lia. step_ret. rewrite (with_block_ok _ _ _ _ Hcur). step_ret.
  eexists; split; [reflexivity|]. split; [done|]. exact Hc'.
Qed.

Lemma take_block_split h base l sz r n :
  0 < base -> base + span (l ++ (sz, true) :: r) < 2 ^ 64 ->
  chain (blocks h) 0 base (l ++ (sz, true) :: r) 0 ->
  Forall seg_ok (l ++ (sz, true) :: r) -> 0 <= n -> n + BLOCK_HEADER < sz ->
  exists h', take_block h (base + span l) n = Ret (base + span l + BLOCK_HEADER, h') /\
    HEAP_HEAD h' = HEAP_HEAD h /\
    chain (blocks h') 0 base (l ++ (n, false) :: (sz - n - BLOCK_HEADER, true) :: r) 0.
Proof.
  intros Hb Htop Hc Hok Hn Hsz. apply Forall_app in Hok as [Hl Hok].
  apply Forall_cons in Hok as [_ Hr]. pose proof (span_nonneg l Hl) as Hsl.
  pose proof (span_nonneg r Hr) as Hsr. rewrite span_app in Htop. cbn [span] in Htop.
  apply chain_cell in Hc as (Hcl & Hcur & Hcr). set (cur := base + span l) in *.
  unfold seg_len, BLOCK_HEADER in *. cbn [fst snd] in *.
  unfold take_block. rewrite (get_block_ok _ _ _ Hcur). step_ret. cbn [blk_size blk_next].
  unfold BLOCK_HEADER. rewrite (wrap_small 64 (n + 48)), (wrap_small 64 (cur + 48)) by lia.
  rewrite (proj2 (Z.ltb_lt _ _)) by lia.
  rewrite (wrap_small 64 (cur + 48 + n)), (wrap_small 64 (sz - n - 48)) by lia.
  set (new := cur + 48 + n). set (nb := mkBlock _ _ _ _ cur). set (hn := write_header new nb h).
  assert (forall x, x <= cur \/ cur + (48 + sz) <= x -> blocks hn !! x = blocks h !! x) as Hhn.
  { intros x Hx. apply write_header_ne. unfold BLOCK_HEADER. lia. }
  destruct (relink_prev hn cur new (cur + (48 + sz)) r) as (h2 & -> & Hc2 & Hh2 & Hb2); [lia|done| |].
  { eapply chain_ext; [done| |exact Hcr]. intros x H1 H2. apply Hhn. lia. }
  step_ret. rewrite <- Hhn, <- Hb2 in Hcur by lia.
  rewrite (with_block_ok _ _ _ _ Hcur). step_ret.
  do 2 (erewrite with_block_ok by (cbn; apply lookup_insert_eq); step_ret).
  eexists; split; [reflexivity|]. split; [cbn; by rewrite Hh2|]. cbn [blocks].
  rewrite !insert_insert_eq. apply chain_cell. fold cur.
  cbn [next_of fst snd chain]. unfold seg_len, BLOCK_HEADER. cbn [fst].
  replace (cur + (48 + n)) with new by lia.
  replace (new + (48 + (sz - n - 48))) with (cur + (48 + sz)) by lia.
  split; [|split; [|split]].
  - eapply chain_ext; [done| |exact Hcl]. intros x H1 H2. unfold BLOCK_HEADER in H2.
    rewrite lookup_insert_ne, Hb2, Hhn by lia. done.
  - by rewrite lookup_insert_eq.
  - rewrite lookup_insert_ne, Hb2 by lia. apply write_header_eq.
  - eapply chain_ext; [done| |exact Hc2]. intros x H1 H2. rewrite lookup_insert_ne by lia. done.
Qed.

(** Taking a free block out of the chain. *)
Lemma take_block_spec h base l sz r n :
  0 < base -> base + span (l ++ (sz, true) :: r) < 2 ^ 64 ->
  chain (blocks h) 0 base (l ++ (sz, true) :: r) 0 ->
  Forall seg_ok (l ++ (sz, true) :: r) -> 0 <= n <= sz ->
  exists h', take_block h (base + span l) n = Ret (base + span l + BLOCK_HEADER, h') /\
    HEAP_HEAD h' = HEAP_HEAD h /\ chain (blocks h') 0 base (l ++ carve n sz ++ r) 0.
Proof.
  intros Hb Htop Hc Hok Hn. unfold carve. destruct (Z.ltb_spec (n + BLOCK_HEADER) sz).
  - apply take_block_split; try done; lia.
  - apply (take_block_whole h base l sz r n); done.
Qed.

(** ** Rounding of sizes *)
Lemma align_up_spec size :
  0 <= size -> size + 15 < 2 ^ 64 ->
  size <= align_up size < size + 16 /\ (16 | align_up size).
Proof.
  intros H1 H2. unfold align_up, ALIGNMENT.
  rewrite wrap_small by lia. change (2 ^ 64 - 16) with (2 ^ 64 - 2 ^ 4).
  rewrite land_mask_down by lia. change (2 ^ 4) with 16.
  replace (size + (16 - 1)) with (size + 15) by lia.
  pose proof (Z.div_mod (size + 15) 16). pose proof (Z.mod_pos_bound (size + 15) 16).
  split; [lia|]. apply Z.divide_factor_l.
Qed.

(** For the 15 largest sizes the rounding wraps around to 0. *)
Lemma align_up_wraps size : 2 ^ 64 - 15 <= size < 2 ^ 64 -> align_up size = 0.
Proof.
  intros H. unfold align_up, ALIGNMENT, wrap.
  replace (size + (16 - 1)) with (size + 15 - 2 ^ 64 + 1 * 2 ^ 64) by lia.
  rewrite Z.mod_add, Z.mod_small by lia. change (2 ^ 64 - 16) with (2 ^ 64 - 2 ^ 4).
  rewrite land_mask_down by lia. rewrite Z.div_small; lia.
Qed.

Lemma align_up_aligned size : 0 <= size < 2 ^ 64 -> 0 <= align_up size /\ (16 | align_up size).
Proof.
  intros H. destruct (decide (size + 15 < 2 ^ 64)).
  - destruct (align_up_spec size); [lia|done|]. split; [lia|done].
  - rewrite align_up_wraps by lia. split; [lia|apply Z.divide_0_r].
Qed.

(** ** Allocation *)
Lemma normal_app l r :
  normal (l ++ r) <->
  normal l /\ normal r /\
  (forall s t, last l = Some s -> head r = Some t -> s.2 = true -> t.2 = false).
Proof.
  induction l as [|s l IH]; cbn [app normal].
  - split; [intros H; split_and!; [done|done|intros ?? [=]]|by intros (_ & ? & _)].
  - destruct l as [|t l].
    + cbn. destruct r as [|u r]; cbn; [by intuition|].
      split; [intros (H & Hr); split; [done|]; split; [done|]; by intros ?? [= <-] [= <-]|].
      intros (_ & Hr & H). split; [|done]. by apply H.
    + cbn [app] in *. rewrite IH. cbn [last]. tauto.
Qed.

Lemma carve_ok n sz : 0 <= n <= sz -> (16 | n) -> (16 | sz) -> Forall seg_ok (carve n sz).
Proof.
  intros Hn H1 H2. unfold carve, BLOCK_HEADER. destruct (Z.ltb_spec (n + 48) sz).
  - repeat constructor; cbn; try done; try lia.
    apply Z.divide_sub_r; [by apply Z.divide_sub_r|by exists 3].
  - repeat constructor; cbn; [lia|done].
Qed.

Lemma carve_span n sz : span (carve n sz) = seg_len (sz, true).
Proof. unfold carve. destruct (_ <? _); unfold seg_len, BLOCK_HEADER; cbn; unfold seg_len, BLOCK_HEADER; cbn; lia. Qed.

Lemma carve_normal n l sz r :
  normal (l ++ (sz, true) :: r) -> normal (l ++ carve n sz ++ r).
Proof.
  rewrite !(normal_app l). intros (Hl & Hr & Hj). cbn in Hr. destruct Hr as [Hh Hr].
  split; [done|]. split.
  - unfold carve. destruct (n + BLOCK_HEADER <? sz); cbn.
    + split; [done|]. split; [|done]. by destruct r.
    + split; [|done]. by destruct r.
  - intros s t _ Ht _. unfold carve in Ht.
    destruct (n + BLOCK_HEADER <? sz); cbn in Ht; by injection Ht as <-.
Qed.

Lemma alloc_segs_inv base n segs p segs' :
  0 <= n -> (16 | n) -> Forall seg_ok segs -> normal segs ->
  alloc_segs base n segs = Some (p, segs') ->
  Forall seg_ok segs' /\ span segs' = span segs /\ normal segs'.
Proof.
  intros Hn H16 Hok Hnorm H.
  apply alloc_segs_split in H as (l & sz & r & -> & Hle & -> & -> & _).
  apply Forall_app in Hok as [Hl Hok]. apply Forall_cons in Hok as [[Hs0 Hs] Hr].
  split; [|split].
  - apply Forall_app; split; [done|]. apply Forall_app; split; [|done]. by apply carve_ok.
  - rewrite !span_app, carve_span. done.
  - by apply carve_normal.
Qed.

Lemma kmalloc_loop_spec fuel h base l r n :
  0 < base -> base + span (l ++ r) < 2 ^ 64 ->
  chain (blocks h) 0 base (l ++ r) 0 -> Forall seg_ok (l ++ r) -> 0 <= n ->
  (length r < fuel)%nat ->
  match alloc_segs (base + span l) n r with
  | None => kmalloc_loop fuel h n (next_of (base + span l) r 0) = Ret (0, h)
  | Some (p, r') => exists h',
      kmalloc_loop fuel h n (next_of (base + span l) r 0) = Ret (p, h') /\
      HEAP_HEAD h' = HEAP_HEAD h /\ chain (blocks h') 0 base (l ++ r') 0
  end.
Proof.
  intros Hb. revert fuel l. induction r as [|[sz f] r IH]; intros fuel l Htop Hc Hok Hn Hf;
    (destruct fuel as [|fuel]; [cbn in Hf; lia|]); cbn [kmalloc_loop alloc_segs next_of]; [done|].
  pose proof Hok as Hok'. apply Forall_app in Hok' as [Hl Hr].
  pose proof (span_nonneg l Hl). rewrite (proj2 (Z.eqb_neq _ 0)) by lia.
  pose proof Hc as Hc'. apply chain_cell in Hc' as (_ & Hcur & _).
  rewrite (get_block_ok _ _ _ Hcur). step_ret. cbn [blk_is_free blk_size blk_next fst snd].
  destruct (f && (n <=? sz)) eqn:E.
  - apply andb_true_iff in E as [-> E]. apply Z.leb_le in E.
    destruct (take_block_spec h base l sz r n) as (h' & E' & Hh & Hc'); try done.
    by exists h'.
  - assert (base + span (l ++ [(sz, f)]) = base + span l + seg_len (sz, f)) as Es
      by (rewrite span_app; cbn; lia).
    specialize (IH fuel (l ++ [(sz, f)])). rewrite Es, <- app_assoc in IH.
    specialize (IH Htop Hc Hok Hn).
    destruct (alloc_segs _ n r) as [[p r']|]; cbn.
    + destruct IH as (h' & E' & Hh & Hc'); [cbn in Hf; lia|]. exists h'. rewrite <- app_assoc in Hc'. done.
    + apply IH. cbn in Hf. lia.
Qed.

(** The headers of a chain are distinct keys of the map. *)
Lemma headers_bound a segs x :
  Forall seg_ok segs -> x ∈ headers a segs -> a <= x /\ x + BLOCK_HEADER <= a + span segs.
Proof.
  intros Hok. revert a. induction Hok as [|s l Hs Hl IH]; intros a H; cbn in H.
  - by apply not_elem_of_nil in H.
  - pose proof (seg_len_pos s Hs). pose proof (span_nonneg l Hl). unfold BLOCK_HEADER in *. cbn.
    apply elem_of_cons in H as [->|H]; [lia|]. apply IH in H. lia.
Qed.

Lemma headers_NoDup a segs : Forall seg_ok segs -> NoDup (headers a segs).
Proof.
  intros Hok. revert a. induction Hok as [|s l Hs Hl IH]; intros a; cbn; constructor; [|done].
  intros H. apply headers_bound in H; [|done]. apply seg_len_pos in Hs. unfold BLOCK_HEADER in *. lia.
Qed.

Lemma chain_headers m p a segs e x : chain m p a segs e -> x ∈ headers a segs -> is_Some (m !! x).
Proof.
  revert p a. induction segs as [|s l IH]; intros p a Hc H; cbn in H; [by apply not_elem_of_nil in H|].
  destruct Hc as [H0 Hc]. apply elem_of_cons in H as [->|H]; [by rewrite H0|]. by eapply IH.
Qed.

Lemma headers_length a segs : length (headers a segs) = length segs.
Proof. revert a. induction segs as [|s l IH]; intros a; cbn; [done|]. by rewrite IH. Qed.

Lemma chain_length m p a segs e :
  Forall seg_ok segs -> chain m p a segs e -> (length segs <= size m)%nat.
Proof.
  intros Hok Hc. rewrite <- (headers_length a), <- size_dom.
  rewrite <- (size_list_to_set (C:=gset Z) (headers a segs)) by by apply headers_NoDup.
  apply subseteq_size. intros x Hx. apply elem_of_list_to_set in Hx.
  apply elem_of_dom. by eapply chain_headers.
Qed.

(** ** Freeing *)

(** What the two coalescing steps do to the segments around a freed one. *)
Definition merge_next (sz : Z) (r : list seg) : Z * list seg :=
  match r with
  | (sz2, true) :: r2 => (sz + BLOCK_HEADER + sz2, r2)
  | _ => (sz, r)
  end.

Definition merge_prev (l : list seg) (sz : Z) (r : list seg) : list seg :=
  match last l with
  | Some (sz1, true) => removelast l ++ (sz1 + BLOCK_HEADER + sz, true) :: r
  | _ => l ++ (sz, true) :: r
  end.

Lemma last_addr_snoc p a l s : last_addr p a (l ++ [s]) = a + span l.
Proof.
  revert p a. induction l as [|t l IH]; intros p a; cbn; [lia|]. rewrite IH. lia.
Qed.

Lemma coalesce_next_spec h base l sz r :
  0 < base -> base + span (l ++ (sz, true) :: r) < 2 ^ 64 ->
  chain (blocks h) 0 base (l ++ (sz, true) :: r) 0 -> Forall seg_ok (l ++ (sz, true) :: r) ->
  exists h', coalesce_next h (base + span l) = Ret h' /\ HEAP_HEAD h' = HEAP_HEAD h /\
    chain (blocks h') 0 base (l ++ ((merge_next sz r).1, true) :: (merge_next sz r).2) 0.
Proof.
  intros Hb Htop Hc Hok. pose proof Hc as Hc0. apply Forall_app in Hok as [Hl Hok].
  apply Forall_cons in Hok as [[Hs0 _] Hr]. pose proof (span_nonneg l Hl) as Hsl.
  rewrite span_app in Htop. cbn [span] in Htop. unfold seg_len, BLOCK_HEADER in Htop. cbn [fst] in Htop, Hs0.
  apply chain_cell in Hc as (Hcl & Hcur & Hcr). set (cur := base + span l) in *.
  unfold coalesce_next. rewrite (get_block_ok _ _ _ Hcur). step_ret. cbn [blk_next blk_size fst].
  destruct r as [|[sz2 f2] r2]; cbn [next_of]; [by exists h|].
  apply Forall_cons in Hr as [[Hs2 _] Hr2]. cbn [fst] in Hs2. pose proof (span_nonneg r2 Hr2) as Hsr.
  cbn [span] in Htop. destruct Hcr as [Hnxt Hcr]. revert Hnxt Hcr Hcur. unfold seg_len, BLOCK_HEADER.
  cbn [fst snd next_of]. unfold seg_len, BLOCK_HEADER in Htop. cbn [fst] in Htop. intros Hnxt Hcr Hcur.
  rewrite (proj2 (Z.eqb_neq _ 0)) by lia. rewrite (get_block_ok _ _ _ Hnxt). step_ret.
  cbn [blk_is_free blk_size blk_next]. destruct f2; [|by exists h].
  rewrite (with_block_ok _ _ _ _ Hcur). step_ret.
  erewrite with_block_ok by (cbn; apply lookup_insert_eq). step_ret. cbn [blocks HEAP_HEAD].
  rewrite insert_insert_eq. unfold BLOCK_HEADER.
  rewrite (wrap_small 64 (sz + 48 + sz2)) by lia. set (nb := set_next _ _).
  destruct (relink_prev (mkHeap (<[cur:=nb]> (blocks h)) (HEAP_HEAD h)) (cur + (48 + sz)) cur
              (cur + (48 + sz) + (48 + sz2)) r2) as (h2 & -> & Hc2 & Hh2 & Hb2); [lia|done| |].
  { eapply chain_ext; [done| |exact Hcr]. intros x H1 H2. cbn. rewrite lookup_insert_ne by lia. done. }
  exists h2. split; [done|]. split; [done|]. apply chain_cell. fold cur.
  cbn [merge_next fst snd]. unfold seg_len, BLOCK_HEADER. cbn [fst].
  replace (cur + (48 + (sz + 48 + sz2))) with (cur + (48 + sz) + (48 + sz2)) by lia.
  split; [|split; [|done]].
  - eapply chain_ext; [done| |exact Hcl]. intros x H1 H2. unfold BLOCK_HEADER in H2.
    rewrite Hb2 by lia. cbn. rewrite lookup_insert_ne by lia. done.
  - rewrite Hb2 by lia. cbn. by rewrite lookup_insert_eq.
Qed.

Lemma coalesce_prev_spec h base l sz r :
  0 < base -> base + span (l ++ (sz, true) :: r) < 2 ^ 64 ->
  chain (blocks h) 0 base (l ++ (sz, true) :: r) 0 -> Forall seg_ok (l ++ (sz, true) :: r) ->
  exists h', coalesce_prev h (base + span l) = Ret h' /\ HEAP_HEAD h' = HEAP_HEAD h /\
    chain (blocks h') 0 base (merge_prev l sz r) 0.
Proof.
  intros Hb Htop Hc Hok. pose proof Hc as Hc0. apply Forall_app in Hok as [Hl Hok].
  apply Forall_cons in Hok as [[Hs0 _] Hr]. pose proof (span_nonneg r Hr) as Hsr.
  rewrite span_app in Htop. cbn [span] in Htop. unfold seg_len, BLOCK_HEADER in Htop. cbn [fst] in Htop, Hs0.
  apply chain_cell in Hc as (_ & Hcur & Hcr). unfold coalesce_prev, merge_prev.
  rewrite (get_block_ok _ _ _ Hcur). step_ret. cbn [blk_prev blk_size blk_next fst].
  destruct l as [|[sz1 f1] l _] using rev_ind; [by exists h|].
  rewrite last_addr_snoc in Hcur |- *. rewrite last_snoc, removelast_last.
  apply Forall_app in Hl as [Hl Hl1]. apply Forall_cons in Hl1 as [[Hs1 _] _]. cbn [fst] in Hs1.
  pose proof (span_nonneg l Hl) as Hsl. rewrite span_app in Htop, Hcur, Hcr |- *.
  cbn [span] in Htop, Hcur, Hcr |- *. rewrite <- app_assoc in Hc0. apply chain_cell in Hc0 as (Hcl & Hprv & _).
  set (prv := base + span l) in *. revert Htop Hcur Hcr Hprv. unfold seg_len, BLOCK_HEADER. cbn [fst snd].
  rewrite Z.add_0_r. replace (base + (span l + (48 + sz1))) with (prv + (48 + sz1)) by lia.
  intros Htop Hcur Hcr Hprv. rewrite (proj2 (Z.eqb_neq prv 0)) by lia. rewrite (get_block_ok _ _ _ Hprv).
  step_ret. cbn [blk_is_free blk_size]. destruct f1; [|exists h; rewrite <- app_assoc; cbn [app]].
  2:{ split; [done|]. split; [done|]. apply chain_cell. fold prv. cbn [next_of chain fst snd].
      unfold seg_len, BLOCK_HEADER. cbn [fst]. split_and!; done. }
  rewrite (with_block_ok _ _ _ _ Hprv). step_ret.
  erewrite with_block_ok by (cbn; apply lookup_insert_eq). step_ret. cbn [blocks HEAP_HEAD].
  rewrite insert_insert_eq. rewrite (wrap_small 64 (sz1 + 48 + sz)) by lia. set (nb := set_next _ _).
  destruct (relink_prev (mkHeap (<[prv:=nb]> (blocks h)) (HEAP_HEAD h)) (prv + (48 + sz1)) prv
              (prv + (48 + sz1) + (48 + sz)) r) as (h2 & -> & Hc2 & Hh2 & Hb2); [lia|done| |].
  { eapply chain_ext; [done| |exact Hcr]. intros x H1 H2. cbn. rewrite lookup_insert_ne by lia. done. }
  exists h2. split; [done|]. split; [done|]. apply chain_cell. fold prv.
  cbn [fst snd]. unfold seg_len, BLOCK_HEADER. cbn [fst].
  replace (prv + (48 + (sz1 + 48 + sz))) with (prv + (48 + sz1) + (48 + sz)) by lia.
  split; [|split; [|done]].
  - eapply chain_ext; [done| |exact Hcl]. intros x H1 H2. unfold BLOCK_HEADER in H2.
    rewrite Hb2 by lia. cbn. rewrite lookup_insert_ne by lia. done.
  - rewrite Hb2 by lia. cbn. by rewrite lookup_insert_eq.
Qed.

(** *** The two local merges compute [coalesce] *)
Lemma normal_coalesce l : normal (coalesce l).
Proof.
  induction l as [|s l IH]; cbn [coalesce]; [done|]. destruct (coalesce l) as [|t l']; [done|].
  destruct (s.2 && t.2) eqn:E; cbn [normal] in *.
  - apply andb_prop in E as [_ Et]. split; [|by apply IH]. destruct l'; [done|]. intros _. by apply IH.
  - split; [|done]. intros Es. by rewrite Es in E.
Qed.

Lemma coalesce_id l : normal l -> coalesce l = l.
Proof.
  induction l as [|s l IH]; cbn [normal]; [done|]. intros [Hs H]. cbn. rewrite (IH H).
  destruct l as [|t l]; [done|]. destruct (s.2) eqn:E; [|done]. by rewrite Hs.
Qed.

Lemma coalesce_app l r : coalesce (l ++ r) = coalesce (l ++ coalesce r).
Proof.
  induction l as [|s l IH]; cbn [app].
  - symmetry. apply coalesce_id, normal_coalesce.
  - cbn. by rewrite IH.
Qed.

Lemma coalesce_free_next sz r :
  normal r -> coalesce ((sz, true) :: r) = ((merge_next sz r).1, true) :: (merge_next sz r).2.
Proof. intros H. cbn. rewrite (coalesce_id r H). destruct r as [|[z []] r]; done. Qed.

Lemma coalesce_around l sz r :
  normal l -> normal ((sz, true) :: r) -> coalesce (l ++ (sz, true) :: r) = merge_prev l sz r.
Proof.
  intros Hl Hr. unfold merge_prev. destruct l as [|[sz1 f1] l _] using rev_ind.
  { by apply coalesce_id. }
  rewrite last_snoc. destruct f1; [rewrite removelast_last|].
  - rewrite <- app_assoc, coalesce_app. cbn [app]. rewrite coalesce_free_next by done.
    cbn [merge_next fst snd]. apply coalesce_id. apply normal_app in Hl as (Hl & _ & Hj).
    apply normal_app. split; [done|]. split; [cbn in *; by destruct r|].
    intros s t Hs Ht. specialize (Hj s _ Hs eq_refl). intros Hf. by specialize (Hj Hf).
  - apply coalesce_id. apply normal_app. split; [done|]. split; [done|].
    intros s t. rewrite last_snoc. by intros [= <-].
Qed.

Lemma coalesce_freed l sz r :
  normal l -> normal r ->
  coalesce (l ++ (sz, true) :: r) = merge_prev l (merge_next sz r).1 (merge_next sz r).2.
Proof.
  intros Hl Hr. rewrite coalesce_app, coalesce_free_next by done. apply coalesce_around; [done|].
  rewrite <- coalesce_free_next by done. apply normal_coalesce.
Qed.

Lemma span_coalesce l : span (coalesce l) = span l.
Proof.
  induction l as [|s l IH]; cbn; [done|]. rewrite <- IH. destruct (coalesce l) as [|t l']; [done|].
  destruct (s.2 && t.2); cbn [span]; unfold seg_len, BLOCK_HEADER; cbn [fst]; lia.
Qed.

Lemma coalesce_ok l : Forall seg_ok l -> Forall seg_ok (coalesce l).
Proof.
  induction 1 as [|s l [Hs0 Hs] _ IH]; cbn; [done|]. destruct (coalesce l) as [|t l']; [by repeat constructor|].
  apply Forall_cons in IH as [[Ht0 Ht] IH]. destruct (s.2 && t.2); [|by repeat constructor].
  constructor; [|done]. unfold BLOCK_HEADER. split; cbn; [lia|].
  apply Z.divide_add_r; [|done]. apply Z.divide_add_r; [done|by exists 3].
Qed.

Lemma merge_next_ok sz r :
  Forall seg_ok ((sz, true) :: r) ->
  Forall seg_ok (((merge_next sz r).1, true) :: (merge_next sz r).2) /\
  span (((merge_next sz r).1, true) :: (merge_next sz r).2) = span ((sz, true) :: r).
Proof.
  intros H. pose proof H as H0. apply Forall_cons in H as [[H1 H2] Hr].
  destruct r as [|[z []] r]; try done. apply Forall_cons in Hr as [[H3 H4] Hr].
  cbn [merge_next fst snd span] in *. unfold seg_len, BLOCK_HEADER. cbn [fst]. split; [|lia].
  constructor; [|done]. split; cbn; [lia|].
  apply Z.divide_add_r; [|done]. apply Z.divide_add_r; [done|by exists 3].
Qed.

(** ** The operations against the specification *)
Section ops.
  Context (heap_base : Z) (Hbase : base_ok heap_base).

Lemma init_heap_inv : heap_inv heap_base (init_heap heap_base) [(HEAP_SIZE - BLOCK_HEADER, true)].
Proof.
  split; try done.
  - cbn [chain fst snd next_of]. split; [|done]. apply write_header_eq.
  - repeat constructor; cbn; [by vm_compute|]. by exists 262141.
Qed.

Lemma heap_inv_nonempty h segs : heap_inv heap_base h segs -> next_of heap_base segs 0 = heap_base.
Proof. intros Hi. destruct segs; [|done]. pose proof (inv_span _ _ _ Hi) as H. vm_compute in H. done. Qed.

(** [rust_kmalloc] returns; it allocates what first fit allocates. *)
Lemma kmalloc_spec h segs size :
  heap_inv heap_base h segs -> 0 <= size < 2 ^ 64 -> size <> 0 ->
  match alloc_segs heap_base (align_up size) segs with
  | None => rust_kmalloc h size = Ret (0, h)
  | Some (p, segs') => exists h', rust_kmalloc h size = Ret (p, h') /\ heap_inv heap_base h' segs'
  end.
Proof.
  intros Hi Hs Hne. destruct Hbase as (Hb0 & Hb16 & Hbt). pose proof Hi as [Hh Hc Hok Hsp Hn].
  destruct (align_up_aligned size Hs) as [Ha0 Ha16]. unfold rust_kmalloc.
  rewrite (proj2 (Z.eqb_neq _ _)) by done.
  pose proof (kmalloc_loop_spec (S (stdpp.base.size (blocks h))) h heap_base [] segs (align_up size)) as L.
  cbn [app span] in L. rewrite Z.add_0_r, (heap_inv_nonempty _ _ Hi) in L. rewrite Hh.
  apply chain_length in Hc as Hlen; [|done].
  specialize (L Hb0 ltac:(lia) Hc Hok Ha0 ltac:(lia)).
  destruct (alloc_segs heap_base (align_up size) segs) as [[p segs']|] eqn:E; [|done].
  destruct L as (h' & HL & Hh' & Hc'). exists h'. split; [done|].
  destruct (alloc_segs_inv _ _ _ _ _ Ha0 Ha16 Hok Hn E) as (? & ? & ?). split; congruence || done.
Qed.

(** [rust_kfree] of a payload address returns; it frees and coalesces. *)
Lemma kfree_at h l sz r :
  heap_inv heap_base h (l ++ (sz, false) :: r) ->
  exists h', rust_kfree h (heap_base + span l + BLOCK_HEADER) = Ret h' /\
    heap_inv heap_base h' (coalesce (l ++ (sz, true) :: r)).
Proof.
  intros [Hh Hc Hok Hsp Hn]. destruct Hbase as (Hb0 & Hb16 & Hbt).
  apply normal_app_inv in Hn as [Hnl [_ Hnr]]. pose proof Hok as Hok0.
  apply Forall_app in Hok as [Hl Hok]. apply Forall_cons in Hok as [Hs Hr].
  pose proof (span_nonneg l Hl) as Hsl. pose proof (span_nonneg r Hr) as Hsr.
  pose proof (seg_len_pos _ Hs) as Hsz. rewrite span_app in Hsp. cbn [span] in Hsp.
  assert (seg_len (sz, true) = seg_len (sz, false)) as Elen by done.
  assert (Forall seg_ok (l ++ (sz, true) :: r)) as Hok' by (apply Forall_app; split; [done|by constructor]).
  assert (span (l ++ (sz, true) :: r) = HEAP_SIZE) as Hsp' by (rewrite span_app; cbn [span]; lia).
  pose proof (proj1 (chain_cell _ _ _ _ _ _ _) Hc) as (_ & Hcur & _). unfold rust_kfree, BLOCK_HEADER in *.
  rewrite (proj2 (Z.eqb_neq _ 0)) by lia. cbn zeta.
  replace (heap_base + span l + 48 - 48) with (heap_base + span l) by lia.
  rewrite wrap_small by lia. rewrite (get_block_ok _ _ _ Hcur). step_ret.
  cbn [blk_magic blk_is_free fst snd]. rewrite Z.eqb_refl. cbn [negb orb].
  rewrite (with_block_ok _ _ _ _ Hcur). step_ret. unfold set_is_free.
  cbn [blk_magic blk_size blk_next blk_prev fst].
  apply (chain_update h heap_base l _ (sz, true)) in Hc; [|done..]. cbn [fst snd] in Hc. rewrite Elen in Hc.
  destruct (coalesce_next_spec (mkHeap _ (HEAP_HEAD h)) heap_base l sz r Hb0 ltac:(lia) Hc Hok')
    as (h2 & -> & Hh2 & Hc2). step_ret.
  apply Forall_app in Hok' as Hoks. destruct Hoks as [_ Hokr].
  destruct (merge_next_ok sz r Hokr) as [Hm1 Hm2].
  destruct (coalesce_prev_spec h2 heap_base l (merge_next sz r).1 (merge_next sz r).2 Hb0)
    as (h3 & -> & Hh3 & Hc3); [| done | by apply Forall_app | ].
  { rewrite span_app, Hm2. cbn [span]. lia. }
  exists h3. split; [done|]. split; [cbn in *; congruence| |by apply coalesce_ok| |apply normal_coalesce].
  - by rewrite coalesce_freed.
  - by rewrite span_coalesce.
Qed.
End ops.

(** ** Live allocations *)
Lemma live_bound a segs p s :
  Forall seg_ok segs -> (p, s) ∈ live a segs ->
  a + BLOCK_HEADER <= p /\ p + s <= a + span segs /\ 0 <= s.
Proof.
  intros Hok H. apply live_split in H as (l & r & -> & ->). apply Forall_app in Hok as [Hl Hok].
  apply Forall_cons in Hok as [[Hs _] Hr]. pose proof (span_nonneg l Hl). pose proof (span_nonneg r Hr).
  rewrite span_app. cbn [span fst] in *. unfold seg_len. cbn [fst]. lia.
Qed.

(** Two allocations are the same or a whole header apart. *)
Lemma live_sep a segs p s q t :
  Forall seg_ok segs -> (p, s) ∈ live a segs -> (q, t) ∈ live a segs ->
  (p, s) = (q, t) \/ p + s + BLOCK_HEADER <= q \/ q + t + BLOCK_HEADER <= p.
Proof.
  intros Hok. revert a. induction Hok as [|[z f] l Hz Hl IH]; intros a Hp Hq; cbn in Hp.
  { by apply not_elem_of_nil in Hp. }
  cbn in Hq. apply elem_of_app in Hp as [Hp|Hp], Hq as [Hq|Hq].
  - destruct f; [by apply not_elem_of_nil in Hp|].
    apply list_elem_of_singleton in Hp, Hq. left. congruence.
  - destruct f; [by apply not_elem_of_nil in Hp|]. apply list_elem_of_singleton in Hp.
    injection Hp as -> ->. apply live_bound in Hq; [|done]. right; left. unfold seg_len in Hq. cbn in Hq. lia.
  - destruct f; [by apply not_elem_of_nil in Hq|]. apply list_elem_of_singleton in Hq.
    injection Hq as -> ->. apply live_bound in Hp; [|done]. right; right. unfold seg_len in Hp. cbn in Hp. lia.
  - by apply (IH (a + seg_len (z, f))).
Qed.

Lemma live_NoDup a segs : Forall seg_ok segs -> NoDup (live a segs).
Proof.
  intros Hok. revert a. induction Hok as [|[z f] l Hz Hl IH]; intros a; cbn [live]; [constructor|].
  destruct f; [apply IH|]. cbn [app snd]. constructor; [|apply IH]. intros H.
  apply live_bound in H; [|done]. apply seg_len_pos in Hz. unfold BLOCK_HEADER in *. lia.
Qed.

(** No allocation overlaps a header. *)
Lemma live_headers_sep a segs p s x :
  Forall seg_ok segs -> (p, s) ∈ live a segs -> x ∈ headers a segs ->
  x + BLOCK_HEADER <= p \/ p + s <= x.
Proof.
  intros Hok. revert a. induction Hok as [|[z f] l Hz Hl IH]; intros a Hp Hx; cbn in Hp, Hx.
  { by apply not_elem_of_nil in Hp. }
  apply elem_of_app in Hp as [Hp|Hp]; apply elem_of_cons in Hx as [->|Hx].
  - destruct f; [by apply not_elem_of_nil in Hp|]. apply list_elem_of_singleton in Hp.
    injection Hp as -> ->. lia.
  - destruct f; [by apply not_elem_of_nil in Hp|]. apply list_elem_of_singleton in Hp.
    injection Hp as -> ->. apply headers_bound in Hx; [|done]. unfold seg_len in Hx. cbn in Hx. lia.
  - apply live_bound in Hp; [|done]. apply seg_len_pos in Hz. unfold BLOCK_HEADER in *. lia.
  - by apply (IH (a + seg_len (z, f))).
Qed.

Lemma live_coalesce a segs : live a (coalesce segs) = live a segs.
Proof.
  revert a. induction segs as [|[z f] l IH]; intros a; cbn [coalesce]; [done|].
  cbn [live]. rewrite <- IH. destruct (coalesce l) as [|[z' f'] l'] eqn:E; [done|].
  destruct f, f'; try done. cbn [andb fst snd live app]. f_equal. unfold seg_len. cbn. lia.
Qed.

Lemma live_alloc a n segs p segs' :
  alloc_segs a n segs = Some (p, segs') ->
  exists sz, n <= sz /\ live a segs' ≡ₚ (p, sz) :: live a segs.
Proof.
  intros H. apply alloc_segs_split in H as (l & sz & r & -> & Hn & -> & -> & _).
  exists (if n + BLOCK_HEADER <? sz then n else sz). split; [by destruct (_ <? _)|].
  rewrite !live_app. cbn [live snd app]. rewrite Permutation_middle. apply Permutation_app_head.
  rewrite carve_span. unfold carve. by destruct (_ <? _).
Qed.

Lemma live_freed a l sz r p s :
  Forall seg_ok (l ++ (sz, false) :: r) ->
  (p, s) ∈ live a (coalesce (l ++ (sz, true) :: r)) <->
  (p, s) ∈ live a (l ++ (sz, false) :: r) /\ p <> a + span l + BLOCK_HEADER.
Proof.
  intros Hok. rewrite live_coalesce, !live_app. cbn [live snd app]. rewrite !elem_of_app, elem_of_cons.
  apply Forall_app in Hok as [Hl Hok]. apply Forall_cons in Hok as [Hs Hr].
  change (seg_len (sz, true)) with (seg_len (sz, false)). apply seg_len_pos in Hs.
  split.
  - intros [H|H]; (split; [tauto|]); apply live_bound in H; try done; unfold BLOCK_HEADER in *; lia.
  - intros [[H|[[= -> _]|H]] Hne]; tauto.
Qed.

(** Only free segments and no two neighbours free: a single segment. *)
Lemma no_live_single a segs :
  normal segs -> live a segs = [] -> (length segs <= 1)%nat.
Proof.
  intros Hn Hl. destruct segs as [|[z f] [|[z' f'] l]]; cbn; try lia.
  destruct f; cbn in Hl; [|done]. cbn in Hn. destruct Hn as [H _]. specialize (H eq_refl). by subst f'.
Qed.

(** Giving back a block just carved off restores the segments. *)
Lemma carve_free n l sz r :
  0 <= n -> normal (l ++ (sz, true) :: r) ->
  exists z rest, carve n sz ++ r = (z, false) :: rest /\
    coalesce (l ++ (z, true) :: rest) = l ++ (sz, true) :: r.
Proof.
  intros Hn0 Hn. unfold carve. destruct (Z.ltb_spec (n + BLOCK_HEADER) sz); cbn [app].
  - eexists _, _. split; [done|]. rewrite coalesce_app.
    assert (normal ((sz - n - BLOCK_HEADER, true) :: r)) as Hr by (apply normal_app_inv in Hn as [_ Hr]; done).
    rewrite coalesce_free_next by done. cbn [merge_next fst snd].
    replace (n + BLOCK_HEADER + (sz - n - BLOCK_HEADER)) with sz by lia. by apply coalesce_id.
  - eexists _, _. split; [done|]. by apply coalesce_id.
Qed.

(** ** Correctness of the allocator *)
Section allocator.
  Context (heap_base : Z) (Hbase : base_ok heap_base).

Lemma malloc_segs_spec h segs size :
  heap_inv heap_base h segs -> 0 <= size < 2 ^ 64 ->
  exists h', rust_kmalloc h size = Ret ((malloc_segs heap_base size segs).1, h') /\
    heap_inv heap_base h' (malloc_segs heap_base size segs).2.
Proof.
  intros Hi Hs. unfold malloc_segs. destruct (Z.eqb_spec size 0) as [->|Hne]; [by exists h|].
  pose proof (kmalloc_spec _ Hbase h segs size Hi Hs Hne) as L.
  destruct (alloc_segs _ _ _) as [[p segs']|]; [done|by exists h].
Qed.

Lemma kfree_live h segs p sz :
  heap_inv heap_base h segs -> (p, sz) ∈ live heap_base segs ->
  exists h' segs', rust_kfree h p = Ret h' /\ free_segs heap_base p segs = Some segs' /\
    heap_inv heap_base h' segs' /\
    (forall q s, (q, s) ∈ live heap_base segs' <-> (q, s) ∈ live heap_base segs /\ q <> p).
Proof.
  intros Hi Hp. apply live_split in Hp as (l & r & -> & ->).
  destruct (kfree_at _ Hbase _ _ _ _ Hi) as (h' & Hk & Hi'). pose proof (inv_sizes _ _ _ Hi) as Hok.
  exists h', (coalesce (l ++ (sz, true) :: r)). split; [done|]. split.
  - unfold free_segs. rewrite mark_free_at; [done|]. by apply Forall_app in Hok as [? _].
  - split; [done|]. intros q s. by apply live_freed.
Qed.

Lemma malloc_segs_nonzero size segs p segs' :
  0 <= size -> malloc_segs heap_base size segs = (p, segs') -> p <> 0 ->
  size <> 0 /\ alloc_segs heap_base (align_up size) segs = Some (p, segs').
Proof.
  intros H0 H Hp. unfold malloc_segs in H. destruct (Z.eqb_spec size 0); [by injection H as <- _|].
  split; [done|]. destruct (alloc_segs _ _ _); [by f_equal|by injection H as <- _].
Qed.

(** Everything the caller of [rust_kmalloc] may rely on. *)
Lemma kmalloc_block h segs size p h' :
  heap_inv heap_base h segs -> 0 <= size < 2 ^ 64 -> rust_kmalloc h size = Ret (p, h') -> p <> 0 ->
  exists segs' sz, heap_inv heap_base h' segs' /\
    malloc_segs heap_base size segs = (p, segs') /\ align_up size <= sz /\
    live heap_base segs' ≡ₚ (p, sz) :: live heap_base segs.
Proof.
  intros Hi Hs H Hp. destruct (malloc_segs_spec h segs size Hi Hs) as (h2 & H2 & Hi2).
  rewrite H2 in H. destruct (malloc_segs heap_base size segs) as [p' segs'] eqn:E. cbn [fst snd] in *.
  injection H as -> ->. pose proof (malloc_segs_nonzero _ _ _ _ (proj1 Hs) E Hp) as [_ Ea].
  apply live_alloc in Ea as (sz & Hsz & Hl). by exists segs', sz.
Qed.

(** A null result leaves the segments as they were. *)
Lemma malloc_segs_null h segs size :
  heap_inv heap_base h segs -> (malloc_segs heap_base size segs).1 = 0 ->
  (malloc_segs heap_base size segs).2 = segs.
Proof.
  intros Hi. unfold malloc_segs. destruct (size =? 0); [done|].
  destruct (alloc_segs _ _ _) as [[q s']|] eqn:Ea; [|done]. intros E. exfalso. cbn [fst] in E.
  apply alloc_segs_split in Ea as (l & z & r & -> & _ & -> & _). pose proof (inv_sizes _ _ _ Hi) as Hok.
  apply Forall_app in Hok as [Hokl _]. pose proof (span_nonneg l Hokl).
  destruct Hbase as [? _]. unfold BLOCK_HEADER in E. lia.
Qed.

(** [rust_kmalloc] hands out a new block, or fails and changes nothing. *)
Lemma kmalloc_cases h segs n :
  heap_inv heap_base h segs -> 0 < n -> n + 15 < 2 ^ 64 ->
  exists p h', rust_kmalloc h n = Ret (p, h') /\
    ((p = 0 /\ (malloc_segs heap_base n segs).1 = 0 /\ heap_inv heap_base h' segs) \/
     (p <> 0 /\ exists segs' sz, n <= sz /\ heap_inv heap_base h' segs' /\
        live heap_base segs' ≡ₚ (p, sz) :: live heap_base segs)).
Proof.
  intros Hi Hn Hn2. destruct (malloc_segs_spec h segs n) as (h' & Hk & Hi'); [done|lia|].
  exists (malloc_segs heap_base n segs).1, h'. split; [done|].
  destruct (Z.eq_dec (malloc_segs heap_base n segs).1 0) as [E|E].
  - left. split; [done|]. split; [done|]. by rewrite (malloc_segs_null h segs n Hi E) in Hi'.
  - right. split; [done|].
    destruct (kmalloc_block h segs n (malloc_segs heap_base n segs).1 h') as (segs' & sz & H1 & _ & H2 & H3);
      [done|lia|done|done|].
    exists segs', sz. destruct (align_up_spec n); [lia|lia|]. split; [lia|]. by split.
Qed.

(** A free segment is large enough for [n] bytes, whatever the rounding. *)
Definition has_room (segs : list seg) (n : Z) : Prop := Exists (fun s => s.2 = true /\ n + 15 <= s.1) segs.

Lemma mark_free_room a p segs segs' n : mark_free a p segs = Some segs' -> has_room segs n -> has_room segs' n.
Proof.
  unfold has_room. revert a segs'. induction segs as [|s segs IH]; intros a segs' E Hx; cbn in E; [done|].
  destruct (a + BLOCK_HEADER =? p).
  - destruct s as [z []]; cbn in E; [done|]. injection E as <-. apply Exists_cons in Hx as [[H _]|Hx]; [done|by right].
  - destruct (mark_free _ p segs) as [l|] eqn:El; [|done]. cbn in E. injection E as <-.
    apply Exists_cons in Hx as [Hx|Hx]; [by left|right; by eapply IH].
Qed.

(** Merging makes free segments larger. *)
Lemma coalesce_room segs n : Forall seg_ok segs -> has_room segs n -> has_room (coalesce segs) n.
Proof.
  unfold has_room. induction segs as [|s segs IH]; intros Hok Hx; cbn; [done|]. apply Forall_cons in Hok as [Hs Hok].
  assert (Forall seg_ok (coalesce segs)) as Hok' by by apply coalesce_ok.
  destruct (coalesce segs) as [|t l] eqn:Ec.
  - apply Exists_cons in Hx as [Hx|Hx]; [by left|]. apply IH in Hx; [by apply Exists_nil in Hx|done].
  - apply Forall_cons in Hok' as [Ht _]. unfold seg_ok, BLOCK_HEADER in *. destruct s as [z []], t as [y []]; cbn [fst snd andb] in *.
    + apply Exists_cons in Hx as [[_ Hz]|Hx]; [left; cbn; split; [done|cbn in Hz; lia]|].
      apply IH in Hx; [|done]. apply Exists_cons in Hx as [[_ Hz]|Hx]; [left; cbn; split; [done|cbn in Hz; lia]|by right].
    + apply Exists_cons in Hx as [Hx|Hx]; [by left|right; by apply IH].
    + apply Exists_cons in Hx as [Hx|Hx]; [by left|right; by apply IH].
    + apply Exists_cons in Hx as [Hx|Hx]; [by left|right; by apply IH].
Qed.

(** Freeing an allocation takes it, and no other, off the list of allocations, and
    leaves at least as much room. *)
Lemma kfree_removes_room h segs p sz rest :
  heap_inv heap_base h segs -> live heap_base segs ≡ₚ (p, sz) :: rest ->
  exists h' segs', rust_kfree h p = Ret h' /\ heap_inv heap_base h' segs' /\ live heap_base segs' ≡ₚ rest /\
    forall n, has_room segs n -> has_room segs' n.
Proof.
  intros Hi Hl. assert ((p, sz) ∈ live heap_base segs) as Hp by (rewrite Hl; left).
  destruct (kfree_live h segs p sz Hi Hp) as (h' & segs' & Hk & Hf & Hi' & Hb). exists h', segs'. split; [done|]. split; [done|].
  pose proof (live_NoDup heap_base segs (inv_sizes _ _ _ Hi)) as Hnd. rewrite Hl in Hnd. apply NoDup_cons in Hnd as [Hni Hnd]. split.
  - apply NoDup_Permutation; [apply live_NoDup, Hi'|done|]. intros [q t]. rewrite (Hb q t), Hl, elem_of_cons. split.
    + intros [[E|E] Hne]; [injection E as -> _|]; done.
    + intros Hin. split; [by right|]. intros ->.
      destruct (live_sep heap_base segs p sz p t) as [E|E]; [apply Hi|done|rewrite Hl; by right|by injection E as <-|].
      assert ((p, t) ∈ live heap_base segs) as Hpt by (rewrite Hl; by right).
      apply live_bound in Hpt, Hp; [|apply Hi..]. unfold BLOCK_HEADER in E. lia.
  - intros n Hn. unfold free_segs in Hf. destruct (mark_free heap_base p segs) as [l|] eqn:El; [|done]. injection Hf as <-.
    apply coalesce_room; [|by eapply mark_free_room]. pose proof (inv_sizes _ _ _ Hi) as Hok.
    apply mark_free_split in El as (l1 & z & r & -> & _ & ->). apply Forall_app in Hok as [H1 H2]. apply Forall_cons in H2 as [H2 H3].
    apply Forall_app. split; [done|by constructor].
Qed.

Lemma kfree_removes h segs p sz rest :
  heap_inv heap_base h segs -> live heap_base segs ≡ₚ (p, sz) :: rest ->
  exists h' segs', rust_kfree h p = Ret h' /\ heap_inv heap_base h' segs' /\ live heap_base segs' ≡ₚ rest.
Proof.
  intros Hi Hl. destruct (kfree_removes_room h segs p sz rest Hi Hl) as (h' & segs' & H1 & H2 & H3 & _). by exists h', segs'.
Qed.

Lemma kmalloc_room h segs n :
  heap_inv heap_base h segs -> has_room segs n -> 0 < n -> n + 15 < 2 ^ 64 ->
  exists p h', rust_kmalloc h n = Ret (p, h') /\ p <> 0.
Proof.
  intros Hi Hroom Hn Hn2. destruct (malloc_segs_spec h segs n Hi) as (h' & Hk & _); [lia|]. eexists _, h'. split; [exact Hk|].
  unfold malloc_segs. rewrite (proj2 (Z.eqb_neq n 0)) by lia. destruct (align_up_spec n) as [Hup _]; [lia|lia|].
  destruct (alloc_segs heap_base (align_up n) segs) as [[q segs']|] eqn:Ea.
  - cbn [fst]. apply alloc_segs_split in Ea as (l & z & r & -> & _ & -> & _). pose proof (inv_sizes _ _ _ Hi) as Hok.
    apply Forall_app in Hok as [Hokl _]. pose proof (span_nonneg l Hokl). destruct Hbase as [? _]. unfold BLOCK_HEADER. lia.
  - exfalso. apply alloc_segs_none in Ea. apply Exists_exists in Hroom as ([z f] & Hin & Hf & Hz). cbn in Hf, Hz.
    rewrite Forall_forall in Ea. specialize (Ea _ Hin). cbn in Ea. rewrite Hf, (proj2 (Z.leb_le _ _)) in Ea by lia. done.
Qed.

(** Giving a block back restores the segments. *)
Lemma kmalloc_restores h segs size p h' :
  heap_inv heap_base h segs -> 0 <= size < 2 ^ 64 -> rust_kmalloc h size = Ret (p, h') -> p <> 0 ->
  exists h'', rust_kfree h' p = Ret h'' /\ heap_inv heap_base h'' segs.
Proof.
  intros Hi Hs Hk Hp. destruct (kmalloc_block h segs size p h' Hi Hs Hk Hp) as (segs' & sz & Hi' & Hm & _).
  apply malloc_segs_nonzero in Hm as [_ Ha]; [|lia|done]. destruct (align_up_aligned size Hs) as [Hn0 _].
  apply alloc_segs_split in Ha as (l & z & r & -> & Hz & -> & -> & _).
  destruct (carve_free (align_up size) l z r Hn0 (inv_normal _ _ _ Hi)) as (z' & rest & Hc & Hc').
  rewrite Hc in Hi'. rewrite <- Hc'. by eapply kfree_at.
Qed.

(** Room for [m] bytes is left. *)
Lemma alloc_segs_room a n k segs p segs' m :
  alloc_segs a n segs = Some (p, segs') -> 0 <= k -> n <= k + 15 -> 0 <= m -> has_room segs (k + m + 64) -> has_room segs' m.
Proof.
  intros Ha Hk Hn Hm Hroom. apply alloc_segs_split in Ha as (l & z & r & -> & _ & _ & -> & _). unfold has_room in *.
  assert (forall x, Exists (fun s : seg => s.2 = true /\ k + m + 64 + 15 <= s.1) x -> Exists (fun s : seg => s.2 = true /\ m + 15 <= s.1) x) as Hmono.
  { intros x Hx. eapply Exists_impl; [exact Hx|]. cbn. intros s [H1 H2]. split; [done|lia]. }
  rewrite !Exists_app. apply Exists_app in Hroom as [Hx|Hx]; [left; by apply Hmono|].
  apply Exists_cons in Hx as [[_ Hz]|Hx]; [|right; right; by apply Hmono]. right. left. cbn in Hz. unfold carve, BLOCK_HEADER.
  rewrite (proj2 (Z.ltb_lt _ _)) by lia. apply Exists_cons_tl, Exists_cons_hd. cbn. split; [done|lia].
Qed.

Lemma kmalloc_leaves h segs n m :
  heap_inv heap_base h segs -> has_room segs (n + m + 64) -> 0 < n -> n + 15 < 2 ^ 64 -> 0 <= m ->
  exists p h' segs' sz, rust_kmalloc h n = Ret (p, h') /\ p <> 0 /\ heap_inv heap_base h' segs' /\ n <= sz /\
    live heap_base segs' ≡ₚ (p, sz) :: live heap_base segs /\ has_room segs' m.
Proof.
  intros Hi Hroom Hn Hn2 Hm. assert (has_room segs n) as Hr.
  { eapply Exists_impl; [exact Hroom|]. cbn. intros s [H1 H2]. split; [done|lia]. }
  destruct (kmalloc_room h segs n Hi Hr Hn Hn2) as (p & h' & E & Hp).
  destruct (kmalloc_block h segs n p h' Hi ltac:(lia) E Hp) as (segs' & sz & Hi' & Hseg & Hsz & Hl).
  destruct (align_up_spec n) as [Hup _]; [lia|lia|]. exists p, h', segs', sz. split; [done|]. split; [done|]. split; [done|]. split; [lia|].
  split; [done|]. apply malloc_segs_nonzero in Hseg as [_ Ha]; [|lia|done]. eapply (alloc_segs_room _ _ n); [exact Ha|lia|lia|done|exact Hroom].
Qed.

(** The bytes handed out. *)
Definition live_size (segs : list seg) : Z := foldr (fun b n => b.2 + n) 0 (live heap_base segs).

Lemma live_size_add segs segs' p sz :
  live heap_base segs' ≡ₚ (p, sz) :: live heap_base segs -> live_size segs' = sz + live_size segs.
Proof.
  intros H. unfold live_size. change (sz + _) with (foldr (fun b n => b.2 + n) 0 ((p, sz) :: live heap_base segs)).
  generalize dependent ((p, sz) :: live heap_base segs). generalize (live heap_base segs'). intros l l' H.
  induction H; cbn; lia.
Qed.

Lemma live_size_bound h segs : heap_inv heap_base h segs -> 0 <= live_size segs <= HEAP_SIZE.
Proof.
  intros Hi. rewrite <- (inv_span _ _ _ Hi). pose proof (inv_sizes _ _ _ Hi) as Hok. unfold live_size. clear Hi h.
  generalize heap_base as a. induction Hok as [|[z f] l Hz Hl IH]; intros a; cbn [live span foldr]; [lia|].
  rewrite foldr_app. specialize (IH (a + seg_len (z, f))). pose proof (seg_len_pos _ Hz). destruct Hz as [Hz _].
  unfold seg_len in *. cbn [fst snd] in *. destruct f; cbn [foldr]; unfold BLOCK_HEADER in *; cbn [snd]; lia.
Qed.

Lemma reach_inv h held :
  reach heap_base h held ->
  exists segs, heap_inv heap_base h segs /\
    forall p, p ∈ held <-> exists sz, (p, sz) ∈ live heap_base segs.
Proof.
  induction 1 as [|h held size p h' _ (segs & Hi & Hl) Hs Hk|h held p h' _ (segs & Hi & Hl) Hp Hk].
  - exists [(HEAP_SIZE - BLOCK_HEADER, true)]. split; [by apply init_heap_inv|].
    intros p. split; [by intros []%not_elem_of_empty|]. intros [sz []%not_elem_of_nil].
  - destruct (Z.eqb_spec p 0) as [->|Hne].
    + destruct (malloc_segs_spec h segs size Hi Hs) as (h2 & H2 & Hi2). rewrite H2 in Hk. injection Hk as E ->.
      rewrite (malloc_segs_null h) in Hi2 by done. by exists segs.
    + destruct (kmalloc_block _ _ _ _ _ Hi Hs Hk Hne) as (segs' & sz & Hi' & _ & _ & HP).
      exists segs'. split; [done|]. intros q. rewrite elem_of_union, elem_of_singleton, Hl. setoid_rewrite HP.
      setoid_rewrite elem_of_cons. split.
      * intros [->|[s Hq]]; [by exists sz; left|by exists s; right].
      * intros [s [[= -> ->]|Hq]]; [by left|right; by exists s].
  - apply Hl in Hp as [sz Hp]. destruct (kfree_live h segs p sz Hi Hp) as (h2 & segs' & H2 & _ & Hi2 & Hl2).
    rewrite H2 in Hk. injection Hk as ->. exists segs'. split; [done|].
    intros q. rewrite elem_of_difference, elem_of_singleton, Hl. setoid_rewrite Hl2. clear. split.
    + intros [[s Hq] Hne]. by exists s.
    + intros (s & Hq & Hne). split; [by exists s|done].
Qed.
End allocator.

(** *** A second free *)

(** Every header of [h] is still there in [h'], as free as it was. *)
Definition keeps_free (h h' : heap) : Prop :=
  forall a b, blocks h !! a = Some b ->
    exists b', blocks h' !! a = Some b' /\ blk_is_free b' = blk_is_free b.

Lemma keeps_free_refl h : keeps_free h h.
Proof. intros a b H. by exists b. Qed.

Lemma keeps_free_trans h1 h2 h3 : keeps_free h1 h2 -> keeps_free h2 h3 -> keeps_free h1 h3.
Proof.
  intros H12 H23 a b H. destruct (H12 a b H) as (b2 & H2 & E2). destruct (H23 a b2 H2) as (b3 & H3 & E3).
  exists b3. split; [done|congruence].
Qed.

Lemma with_block_keeps a f h h' :
  (forall b, blk_is_free (f b) = blk_is_free b) -> with_block a f h = Ret h' -> keeps_free h h'.
Proof.
  intros Hf H. unfold with_block, get_block in H. destruct (blocks h !! a) as [b0|] eqn:E0; [|discriminate].
  step_ret. cbn in H. inv_ret. intros x b Hx. cbn. destruct (decide (x = a)) as [->|Hne].
  - rewrite lookup_insert_eq. rewrite E0 in Hx. injection Hx as ->. eexists. split; [done|apply Hf].
  - rewrite lookup_insert_ne by done. by exists b.
Qed.

(** The three assignments that end both coalescing steps. *)
Lemma merge_keeps (c : bool) a x n p h h' :
  (h1 ← with_block a (set_size x) h; h2 ← with_block a (set_next n) h1;
   if c then Ret h2 else with_block n (set_prev p) h2) = Ret h' ->
  keeps_free h h'.
Proof.
  intros H. inv_bind H. inv_bind H. apply with_block_keeps in Hr, Hr0; try done.
  pose proof (keeps_free_trans _ _ _ Hr Hr0) as K. destruct c; inv_ret; [done|].
  apply with_block_keeps in H; [|done]. by eapply keeps_free_trans.
Qed.

Lemma coalesce_next_keeps h a h' : coalesce_next h a = Ret h' -> keeps_free h h'.
Proof.
  unfold coalesce_next. intros H. inv_bind H. destruct (blk_next r =? 0); [inv_ret; apply keeps_free_refl|].
  inv_bind H. destruct (blk_is_free r0); [|inv_ret; apply keeps_free_refl]. by eapply merge_keeps.
Qed.

Lemma coalesce_prev_keeps h a h' : coalesce_prev h a = Ret h' -> keeps_free h h'.
Proof.
  unfold coalesce_prev. intros H. inv_bind H. destruct (blk_prev r =? 0); [inv_ret; apply keeps_free_refl|].
  inv_bind H. destruct (blk_is_free r0); [|inv_ret; apply keeps_free_refl]. by eapply merge_keeps.
Qed.

(** ** The properties *)

(** A concrete placement of the array and a heap with two allocations, at which
    the properties are evaluated. *)
Lemma base_ok_4096 : base_ok 4096.
Proof. split; [done|]. split; [by exists 256|done]. Qed.

Definition demo_heap : outcome (Z * heap) :=
  '(_, h) ← rust_kmalloc (init_heap 4096) 100; rust_kmalloc h 20.

Definition demo_segs : list seg := [(112, false); (32, false); (4194016, true)].

Lemma demo_inv : exists h, demo_heap = Ret (4304, h) /\ heap_inv 4096 h demo_segs.
Proof.
  destruct (malloc_segs_spec 4096 base_ok_4096 _ _ 100 (init_heap_inv 4096)) as (h & H1 & Hi); [lia|].
  destruct (malloc_segs_spec 4096 base_ok_4096 h _ 20 Hi) as (h2 & H2 & Hi2); [lia|].
  exists h2. unfold demo_heap. rewrite H1. step_ret. rewrite H2. split; [reflexivity|exact Hi2].
Qed.

(** C1. [rust_kmalloc] implements the first-fit specification: on a heap whose
    headers describe the segments [segs] it returns (no fault, and the walk over
    the list ends) the pointer the specification returns, and the headers it
    leaves describe the segments the specification leaves.  A null result leaves
    the heap as it was. *)
Theorem rust_kmalloc_refines heap_base h segs size :
  base_ok heap_base -> heap_inv heap_base h segs -> 0 <= size < 2 ^ 64 ->
  exists h', rust_kmalloc h size = Ret ((malloc_segs heap_base size segs).1, h') /\
    heap_inv heap_base h' (malloc_segs heap_base size segs).2.
Proof. intros Hb Hi Hs. by apply malloc_segs_spec. Qed.

Lemma rust_kmalloc_refines_witness :
  exists h', rust_kmalloc (init_heap 4096) 100 = Ret (4144, h') /\
    heap_inv 4096 h' [(112, false); (4194096, true)].
Proof.
  apply (rust_kmalloc_refines 4096 (init_heap 4096) _ 100 base_ok_4096 (init_heap_inv 4096)). done.
Defined.

(** C2. [rust_kfree] of a pointer that is allocated returns, and the headers it
    leaves describe the segments with that one marked free and every run of free
    neighbours merged into one block; every other allocation is still there. *)
Theorem rust_kfree_refines heap_base h segs p sz :
  base_ok heap_base -> heap_inv heap_base h segs -> (p, sz) ∈ live heap_base segs ->
  exists h' segs', rust_kfree h p = Ret h' /\ free_segs heap_base p segs = Some segs' /\
    heap_inv heap_base h' segs' /\
    (forall q s, (q, s) ∈ live heap_base segs' <-> (q, s) ∈ live heap_base segs /\ q <> p).
Proof. intros Hb Hi Hp. by eapply kfree_live. Qed.

Lemma rust_kfree_refines_witness :
  exists h h' segs', demo_heap = Ret (4304, h) /\ rust_kfree h 4144 = Ret h' /\
    free_segs 4096 4144 demo_segs = Some segs' /\ heap_inv 4096 h' segs'.
Proof.
  destruct demo_inv as (h & H1 & Hi).
  destruct (rust_kfree_refines 4096 h demo_segs 4144 112 base_ok_4096 Hi) as (h' & s & H2 & H3 & H4 & _).
  { cbn. left. }
  exists h, h', s. split_and!; assumption.
Defined.

(** C30. The block [rust_kmalloc] returns is usable: it is aligned to 16, lies
    inside the array, has at least [size] bytes (for every size whose rounding
    does not wrap), and shares no byte with a header of the list or with an
    allocation made before, all of which are kept. *)
Theorem rust_kmalloc_safe heap_base h segs size p h' :
  base_ok heap_base -> heap_inv heap_base h segs -> 0 <= size -> size + 15 < 2 ^ 64 ->
  rust_kmalloc h size = Ret (p, h') -> p <> 0 ->
  exists segs' sz, heap_inv heap_base h' segs' /\ size <= sz /\ (16 | p) /\
    heap_base + BLOCK_HEADER <= p /\ p + sz <= heap_base + HEAP_SIZE /\
    live heap_base segs' ≡ₚ (p, sz) :: live heap_base segs /\
    (forall q s, (q, s) ∈ live heap_base segs -> p + sz <= q \/ q + s <= p) /\
    (forall x, x ∈ headers heap_base segs' -> x + BLOCK_HEADER <= p \/ p + sz <= x).
Proof.
  intros Hb Hi H0 H15 Hk Hp.
  destruct (kmalloc_block _ Hb h segs size p h' Hi ltac:(lia) Hk Hp) as (segs' & sz & Hi' & Hm & Hsz & HP).
  exists segs', sz. pose proof (inv_sizes _ _ _ Hi') as Hok. pose proof (inv_span _ _ _ Hi') as Hsp.
  assert ((p, sz) ∈ live heap_base segs') as Hin by (rewrite HP; left).
  destruct (align_up_spec size H0 H15) as [Hup _]. destruct (live_bound _ _ _ _ Hok Hin) as (B1 & B2 & _).
  split_and!; try done; [lia| |lia| |].
  - apply live_split in Hin as (l & r & -> & ->). apply Forall_app in Hok as [Hl _].
    destruct Hb as (_ & Hb16 & _). apply Z.divide_add_r; [|by exists 3].
    apply Z.divide_add_r; [done|by apply span_aligned].
  - intros q s Hq. pose proof (live_NoDup heap_base _ Hok) as ND. rewrite HP in ND.
    apply NoDup_cons in ND as [ND _].
    destruct (live_sep heap_base segs' p sz q s Hok Hin) as [[= <- <-]|D]; [rewrite HP; by right|done|].
    unfold BLOCK_HEADER in D. lia.
  - intros x Hx. by eapply live_headers_sep.
Qed.

Lemma rust_kmalloc_safe_witness :
  exists h h' segs' sz, demo_heap = Ret (4304, h) /\ rust_kmalloc h 1000 = Ret (4384, h') /\
    heap_inv 4096 h' segs' /\ 1000 <= sz /\ (16 | 4384) /\
    live 4096 segs' ≡ₚ (4384, sz) :: live 4096 demo_segs.
Proof.
  destruct demo_inv as (h & H1 & Hi).
  destruct (malloc_segs_spec 4096 base_ok_4096 h _ 1000 Hi) as (h' & H2 & _); [lia|].
  change (malloc_segs 4096 1000 demo_segs).1 with 4384 in H2.
  destruct (rust_kmalloc_safe 4096 h demo_segs 1000 4384 h' base_ok_4096 Hi)
    as (segs' & sz & H3 & H4 & H5 & _ & _ & H6 & _); [lia|lia|exact H2|lia|].
  exists h, h', segs', sz. split_and!; assumption.
Defined.

(** C4. Every run of the allocator is safe.  After any sequence of calls by a
    client that frees only pointers it holds, the headers describe segments that
    tile the array, the pointers the client holds are exactly the allocations,
    any two of them are a header apart, and the next call, whatever it is,
    returns. *)
Theorem allocator_run_safe heap_base h held :
  base_ok heap_base -> reach heap_base h held ->
  exists segs, heap_inv heap_base h segs /\
    (forall p, p ∈ held <-> exists sz, (p, sz) ∈ live heap_base segs) /\
    (forall p s q t, (p, s) ∈ live heap_base segs -> (q, t) ∈ live heap_base segs -> p <> q ->
       p + s + BLOCK_HEADER <= q \/ q + t + BLOCK_HEADER <= p) /\
    (forall size, 0 <= size < 2 ^ 64 -> exists r, rust_kmalloc h size = Ret r) /\
    (forall p, p ∈ held -> exists h', rust_kfree h p = Ret h').
Proof.
  intros Hb Hr. destruct (reach_inv _ Hb _ _ Hr) as (segs & Hi & Hl). exists segs. split_and!; try done.
  - intros p s q t Hp Hq Hne. destruct (live_sep _ _ _ _ _ _ (inv_sizes _ _ _ Hi) Hp Hq) as [[=]|]; done.
  - intros size Hs. destruct (malloc_segs_spec _ Hb h segs size Hi Hs) as (h' & -> & _). by eexists.
  - intros p Hp. apply Hl in Hp as [sz Hp].
    destruct (kfree_live _ Hb h segs p sz Hi Hp) as (h' & _ & H & _). by exists h'.
Qed.

Lemma allocator_run_safe_witness :
  exists h segs, reach 4096 h {[4304; 4144]} /\ heap_inv 4096 h segs.
Proof.
  destruct (malloc_segs_spec 4096 base_ok_4096 _ _ 100 (init_heap_inv 4096)) as (h & H1 & Hi); [lia|].
  destruct (malloc_segs_spec 4096 base_ok_4096 h _ 20 Hi) as (h2 & H2 & _); [lia|].
  assert (reach 4096 h2 {[4304; 4144]}) as Hr.
  { replace {[4304; 4144]} with ({[4304]} ∪ ({[4144]} ∪ (∅ : gset Z))) by set_solver.
    apply (reach_kmalloc 4096 h _ 20 4304); [|lia|exact H2].
    apply (reach_kmalloc 4096 (init_heap 4096) ∅ 100 4144); [constructor|lia|exact H1]. }
  destruct (allocator_run_safe 4096 h2 _ base_ok_4096 Hr) as (segs & Hi2 & _).
  exists h2, segs. split; assumption.
Defined.

(** Allocating and giving the block back restores the segments: no byte is
    lost to splitting or merging. *)
Theorem kmalloc_kfree_roundtrip heap_base h segs size p h' :
  base_ok heap_base -> heap_inv heap_base h segs -> 0 <= size < 2 ^ 64 ->
  rust_kmalloc h size = Ret (p, h') -> p <> 0 ->
  exists h'', rust_kfree h' p = Ret h'' /\ heap_inv heap_base h'' segs.
Proof.
  intros Hb. by apply kmalloc_restores.
Qed.

Lemma kmalloc_kfree_roundtrip_witness :
  exists h h' h'', demo_heap = Ret (4304, h) /\ rust_kmalloc h 1000 = Ret (4384, h') /\
    rust_kfree h' 4384 = Ret h'' /\ heap_inv 4096 h'' demo_segs.
Proof.
  destruct demo_inv as (h & H1 & Hi).
  destruct (malloc_segs_spec 4096 base_ok_4096 h _ 1000 Hi) as (h' & H2 & _); [lia|].
  destruct (kmalloc_kfree_roundtrip 4096 h demo_segs 1000 4384 h' base_ok_4096 Hi) as (h'' & H3 & H4);
    [lia|exact H2|lia|].
  exists h, h', h''. split_and!; assumption.
Defined.

(** C31. A client that has freed everything it allocated gets the whole array
    back: the next allocation of any size up to the array less one header
    succeeds, at the first address. *)
Theorem allocator_no_leak heap_base h size :
  base_ok heap_base -> reach heap_base h ∅ -> 0 < size <= HEAP_SIZE - BLOCK_HEADER ->
  exists h', rust_kmalloc h size = Ret (heap_base + BLOCK_HEADER, h').
Proof.
  intros Hb Hr Hs. destruct (reach_inv _ Hb _ _ Hr) as (segs & Hi & Hl).
  assert (live heap_base segs = []) as Hnil.
  { destruct (live heap_base segs) as [|[p s] rest] eqn:E; [done|]. exfalso.
    apply (not_elem_of_empty (C:=gset Z) p), Hl. exists s. left. }
  pose proof (no_live_single _ _ (inv_normal _ _ _ Hi) Hnil) as Hlen. pose proof (inv_span _ _ _ Hi) as Hsp.
  destruct segs as [|[z f] [|]]; [done| |cbn in Hlen; lia].
  destruct f; [|done]. cbn [span] in Hsp. unfold seg_len, HEAP_SIZE, BLOCK_HEADER in *. cbn [fst] in Hsp.
  destruct (malloc_segs_spec _ Hb h _ size Hi) as (h' & H & _); [lia|]. exists h'. rewrite H.
  unfold malloc_segs. rewrite (proj2 (Z.eqb_neq _ _)) by lia.
  destruct (align_up_spec size) as [Hup [k Hk]]; [lia|lia|]. cbn [alloc_segs fst snd].
  rewrite (proj2 (Z.leb_le _ _)) by lia. done.
Qed.

Lemma allocator_no_leak_witness :
  exists h', rust_kmalloc (init_heap 4096) 4194256 = Ret (4144, h').
Proof.
  apply (allocator_no_leak 4096 (init_heap 4096) 4194256 base_ok_4096 (reach_init 4096)).
  unfold HEAP_SIZE, BLOCK_HEADER. lia.
Defined.

(** Freeing the same pointer twice in a row does no harm: the second call
    finds the header marked free and returns the heap unchanged, also when the
    block was merged into a neighbour. *)
Theorem rust_kfree_twice h p h' :
  rust_kfree h p = Ret h' -> rust_kfree h' p = Ret h'.
Proof.
  unfold rust_kfree. destruct (p =? 0); [done|]. intros H. inv_bind H.
  destruct (negb (blk_magic r =? BLOCK_MAGIC) || blk_is_free r) eqn:G.
  { inv_ret. rewrite Hr. step_ret. by rewrite G. }
  inv_bind H. inv_bind H. apply coalesce_next_keeps in Hr1. apply coalesce_prev_keeps in H.
  unfold with_block in Hr0. rewrite Hr in Hr0. step_ret. cbn in Hr0. inv_ret.
  destruct (keeps_free_trans _ _ _ Hr1 H (u64 (p - BLOCK_HEADER)) (set_is_free true r)) as (b & Hb & Hf).
  { cbn. apply lookup_insert_eq. }
  rewrite (get_block_ok _ _ _ Hb). step_ret. rewrite Hf. cbn. by rewrite orb_true_r.
Qed.

Lemma rust_kfree_twice_witness :
  exists h h', demo_heap = Ret (4304, h) /\ rust_kfree h 4144 = Ret h' /\ rust_kfree h' 4144 = Ret h'.
Proof.
  destruct demo_inv as (h & H1 & Hi).
  destruct (kfree_live 4096 base_ok_4096 h demo_segs 4144 112 Hi) as (h' & _ & H2 & _); [cbn; left|].
  exists h, h'. split; [exact H1|]. split; [exact H2|]. apply (rust_kfree_twice h 4144 h' H2).
Defined.

(** The rounding of the size is not checked for overflow: each of the 15
    largest sizes, far beyond the array, is answered with a non-null pointer to a
    block of 0 bytes. *)
Theorem rust_kmalloc_huge_wraps heap_base size :
  base_ok heap_base -> 2 ^ 64 - 15 <= size < 2 ^ 64 ->
  exists h', rust_kmalloc (init_heap heap_base) size = Ret (heap_base + BLOCK_HEADER, h') /\
    heap_inv heap_base h' [(0, false); (HEAP_SIZE - 2 * BLOCK_HEADER, true)].
Proof.
  intros Hb Hs. destruct (malloc_segs_spec _ Hb _ _ size (init_heap_inv heap_base)) as (h' & H & Hi); [lia|].
  revert H Hi. unfold malloc_segs. rewrite (proj2 (Z.eqb_neq _ _)), align_up_wraps by lia.
  intros H Hi. by exists h'.
Qed.

Lemma rust_kmalloc_huge_wraps_witness :
  exists h', rust_kmalloc (init_heap 4096) (2 ^ 64 - 1) = Ret (4144, h') /\
    heap_inv 4096 h' [(0, false); (4194208, true)].
Proof. apply (rust_kmalloc_huge_wraps 4096 (2 ^ 64 - 1) base_ok_4096). lia. Defined.
