(* ===== verification/Blocks.v ===== *)
(** * Blocks: code that works in heap blocks

    Several components keep data in blocks of the kernel heap: the shell its
    argument buffers, the network drivers their descriptor rings and packet
    buffers.  [HeapState] is what their states have in common, the allocator of
    [Heap] and the byte memory its array lies in; the operations and lemmas on
    blocks are stated against it once.  [ptr_vec] is a vector of pointers whose
    storage is itself such a block: a push that finds it full takes a larger
    block and frees the old one, and panics when the heap has none.  Its items are
    kept as a list, not as bytes of the storage. *)

From S2P Require Import Prelude Memory Heap.

Local Open Scope Z_scope.

(** A state with a heap and a memory, and how to replace them. *)
Class HeapState (St : Type) := {
  st_heap : St -> heap;
  st_mem : St -> mem;
  with_hm : heap -> mem -> St -> St;
  st_heap_with h m s : st_heap (with_hm h m s) = h;
  st_mem_with h m s : st_mem (with_hm h m s) = m;
  with_hm_with h m h' m' s : with_hm h' m' (with_hm h m s) = with_hm h' m' s;
  with_hm_id s : with_hm (st_heap s) (st_mem s) s = s
}.

(** ** Operations *)
Section operations.

Context {St : Type} `{HeapState St}.

Definition kmalloc (size : Z) : M St Z :=
  fun s => '(p, h) ← rust_kmalloc (st_heap s) size; Ret (p, with_hm h (st_mem s) s).

Definition kfree (p : Z) : M St unit :=
  fun s => h ← rust_kfree (st_heap s) p; Ret (tt, with_hm h (st_mem s) s).

Definition load (p : Z) (n : nat) : M St (list Z) := fun s => b ← load_bytes (st_mem s) p n; Ret (b, s).

Definition store (p : Z) (b : list Z) : M St unit :=
  fun s => m ← store_bytes (st_mem s) p b; Ret (tt, with_hm (st_heap s) m s).

(** Free several blocks in turn. *)
Fixpoint kfree_all (ps : list Z) : M St unit :=
  match ps with
  | [] => mret tt
  | p :: ps' => _ ← kfree p; kfree_all ps'
  end.

(** Allocate [n] blocks of [size] bytes after those in [got], up to the first
    failure: the blocks, and whether all of them were allocated. *)
Fixpoint alloc_all (size : Z) (n : nat) (got : list Z) : M St (list Z * bool) :=
  match n with
  | O => mret (got, true)
  | S n' =>
      p ← kmalloc size;
      if p =? 0 then mret (got, false) else alloc_all size n' (got ++ [p])
  end.

(** ** A vector of pointers

    A [Vec<*mut u8>]: its elements, and the block of the heap they are kept in, which
    the global allocator takes from the same heap.  An empty one has no block.  A
    [push] to a full vector moves to a block twice as large, of four elements at
    least: the new block is allocated, the elements are copied and the old block is
    freed; when there is no new block it panics. *)
Record ptr_vec := mkVec { v_items : list Z; v_ptr : Z; v_cap : Z }.

Definition vec_new : ptr_vec := mkVec [] 0 0.

Definition vec_push (p : Z) (v : ptr_vec) : M St ptr_vec :=
  if Z.of_nat (length (v_items v)) <? v_cap v then mret (mkVec (v_items v ++ [p]) (v_ptr v) (v_cap v))
  else
    let cap := Z.max 4 (2 * v_cap v) in
    q ← kmalloc (8 * cap);
    if q =? 0 then lift Panic
    else
      _ ← (if v_cap v =? 0 then mret tt else kfree (v_ptr v));
      mret (mkVec (v_items v ++ [p]) q cap).

Definition vec_drop (v : ptr_vec) : M St unit := if v_cap v =? 0 then mret tt else kfree (v_ptr v).

(** [for b in v { rust_kfree(b) }], which consumes the vector. *)
Definition kfree_into (v : ptr_vec) : M St unit := _ ← kfree_all (v_items v); vec_drop v.

(** Allocate [n] blocks of [size] bytes and push each of them, up to the first
    allocation that fails. *)
Fixpoint alloc_push (size : Z) (n : nat) (v : ptr_vec) : M St (ptr_vec * bool) :=
  match n with
  | O => mret (v, true)
  | S n' =>
      p ← kmalloc size;
      if p =? 0 then mret (v, false) else v' ← vec_push p v; alloc_push size n' v'
  end.

End operations.

(** Addresses [p .. p+n-1] are among [ds]. *)
Definition within (ds : gset Z) (p : Z) (n : nat) : Prop := forall i, (i < n)%nat -> p + Z.of_nat i ∈ ds.

Lemma within_mapped m p n : within (dom m) p n <-> mapped m p n.
Proof. split; intros Hw i Hi; [by apply elem_of_dom, Hw|by apply elem_of_dom, Hw]. Qed.

Lemma within_sub ds p n q k :
  within ds p n -> p <= q -> q + Z.of_nat k <= p + Z.of_nat n -> within ds q k.
Proof.
  intros Hw H1 H2 i Hi. replace (q + Z.of_nat i) with (p + Z.of_nat (Z.to_nat (q + Z.of_nat i - p))) by lia.
  apply Hw. lia.
Qed.

(** Regions of memory, as address and length, no two of which share an address. *)
Definition apart (rs : list (Z * Z)) : Prop :=
  forall i j p a q b, i <> j -> rs !! i = Some (p, a) -> rs !! j = Some (q, b) -> p + a <= q \/ q + b <= p.

Lemma apart_app_l l r : apart (l ++ r) -> apart l.
Proof.
  intros Ha i j p a q b Hij Hi Hj. apply (Ha i j); [done|by apply lookup_app_l_Some..].
Qed.

(** ** The heap is well formed and its array mapped *)
Section blocks.

Context {St : Type} `{HeapState St} (heap_base : Z) (Hbase : base_ok heap_base).

Record heap_ready (s : St) (segs : list seg) : Prop := {
  hr_inv : heap_inv heap_base (st_heap s) segs;
  hr_mapped : mapped (st_mem s) heap_base (Z.to_nat HEAP_SIZE)
}.

Lemma heap_ready_same s s' segs :
  heap_ready s segs -> st_heap s' = st_heap s -> st_mem s' = st_mem s -> heap_ready s' segs.
Proof. intros [H1 H2] E1 E2. constructor; [by rewrite E1|by rewrite E2]. Qed.

(** Memory may change inside the mapped addresses. *)
Lemma heap_ready_mem s segs m :
  heap_ready s segs -> dom m = dom (st_mem s) -> heap_ready (with_hm (st_heap s) m s) segs.
Proof.
  intros [Hi Hm] Hd. constructor; [by rewrite st_heap_with|]. rewrite st_mem_with. intros i Hlt.
  apply elem_of_dom. rewrite Hd. by apply elem_of_dom, Hm.
Qed.

Lemma heap_ready_sizes s segs : heap_ready s segs -> Forall seg_ok segs.
Proof. intros [Hi _]. apply Hi. Qed.

Lemma kmalloc_ok n s segs :
  heap_ready s segs -> 0 < n -> n + 15 < 2 ^ 64 ->
  exists p h, kmalloc n s = Ret (p, with_hm h (st_mem s) s) /\
    ((p = 0 /\ heap_ready (with_hm h (st_mem s) s) segs) \/
     (p <> 0 /\ exists segs' sz, n <= sz /\ heap_ready (with_hm h (st_mem s) s) segs' /\
        live heap_base segs' ≡ₚ (p, sz) :: live heap_base segs)).
Proof.
  intros [Hi Hm] H1 H2. destruct (kmalloc_cases _ Hbase (st_heap s) segs n Hi H1 H2) as (p & h' & Hk & Hc).
  unfold kmalloc. rewrite Hk. step_ret. exists p, h'. split; [done|].
  assert (forall segs', heap_inv heap_base h' segs' -> heap_ready (with_hm h' (st_mem s) s) segs') as Hr.
  { intros segs' Hi'. constructor; [by rewrite st_heap_with|by rewrite st_mem_with]. }
  destruct Hc as [(E & _ & Hi')|(E & segs' & sz & Hsz & Hi' & Hl)]; [left|right]; (split; [done|]); [by apply Hr|].
  exists segs', sz. split; [done|]. split; [by apply Hr|done].
Qed.

(** Freeing a block leaves the others. *)
Lemma kfree_ok_room s segs p sz rest :
  heap_ready s segs -> live heap_base segs ≡ₚ (p, sz) :: rest ->
  exists h segs', kfree p s = Ret (tt, with_hm h (st_mem s) s) /\
    heap_ready (with_hm h (st_mem s) s) segs' /\ live heap_base segs' ≡ₚ rest /\ forall n, has_room segs n -> has_room segs' n.
Proof.
  intros [Hi Hm] Hl.
  destruct (kfree_removes_room heap_base Hbase (st_heap s) segs p sz rest Hi Hl) as (h' & segs' & Hk & Hi' & Hl' & Hroom).
  unfold kfree. rewrite Hk. step_ret. exists h', segs'. split; [done|].
  split; [constructor; [by rewrite st_heap_with|by rewrite st_mem_with]|done].
Qed.

Lemma kfree_ok s segs p sz rest :
  heap_ready s segs -> live heap_base segs ≡ₚ (p, sz) :: rest ->
  exists h segs', kfree p s = Ret (tt, with_hm h (st_mem s) s) /\
    heap_ready (with_hm h (st_mem s) s) segs' /\ live heap_base segs' ≡ₚ rest.
Proof.
  intros Hr Hl. destruct (kfree_ok_room s segs p sz rest Hr Hl) as (h & segs' & H1 & H2 & H3 & _). by exists h, segs'.
Qed.

Lemma kfree_all_ok bs s segs rest :
  heap_ready s segs -> live heap_base segs ≡ₚ bs ++ rest ->
  exists h segs', kfree_all bs.*1 s = Ret (tt, with_hm h (st_mem s) s) /\
    heap_ready (with_hm h (st_mem s) s) segs' /\ live heap_base segs' ≡ₚ rest.
Proof.
  revert s segs. induction bs as [|[p sz] bs IH]; intros s segs Hr Hl; cbn [fmap list_fmap kfree_all].
  { exists (st_heap s), segs. rewrite with_hm_id. done. }
  destruct (kfree_ok s segs p sz (bs ++ rest) Hr Hl) as (h1 & segs1 & E1 & Hr1 & Hl1).
  rewrite (M_bind_Ret _ _ _ _ _ E1). destruct (IH _ segs1 Hr1 Hl1) as (h2 & segs2 & E2 & Hr2 & Hl2).
  rewrite with_hm_with, st_mem_with in *. exists h2, segs2. done.
Qed.

(** New blocks, as many as fit. *)
Lemma alloc_all_ok size n got s segs :
  heap_ready s segs -> 0 < size -> size + 15 < 2 ^ 64 ->
  exists bs ok h segs', alloc_all size n got s = Ret ((got ++ bs.*1, ok), with_hm h (st_mem s) s) /\
    heap_ready (with_hm h (st_mem s) s) segs' /\ live heap_base segs' ≡ₚ bs ++ live heap_base segs /\
    Forall (fun b => size <= b.2) bs /\ (ok = true -> length bs = n).
Proof.
  intros Hr H1 H2. revert got s segs Hr. induction n as [|n IH]; intros got s segs Hr; cbn [alloc_all].
  { exists [], true, (st_heap s), segs. cbn [fmap list_fmap app]. rewrite app_nil_r, with_hm_id. done. }
  destruct (kmalloc_ok size s segs Hr H1 H2) as (p & h1 & E1 & Hc). rewrite (M_bind_Ret _ _ _ _ _ E1).
  destruct Hc as [[-> Hr1]|(Hp & segs1 & sz & Hsz & Hr1 & Hl1)].
  { exists [], false, h1, segs. cbn [fmap list_fmap app Z.eqb]. rewrite app_nil_r. done. }
  rewrite (proj2 (Z.eqb_neq p 0)) by done.
  destruct (IH (got ++ [p]) _ segs1 Hr1) as (bs & ok & h2 & segs2 & E2 & Hr2 & Hl2 & Hs & Hok).
  rewrite with_hm_with, st_mem_with in *. exists ((p, sz) :: bs), ok, h2, segs2. rewrite E2.
  cbn [fmap list_fmap app fst]. rewrite <- app_assoc. split; [done|]. split; [done|]. split.
  - rewrite Hl2, Hl1. symmetry. apply Permutation_middle.
  - split; [by constructor|]. intros E. cbn. by rewrite Hok.
Qed.

Lemma alloc_all_length size n got s ps s' :
  alloc_all size n got s = Ret ((ps, true), s') -> length ps = (length got + n)%nat.
Proof.
  revert got s. induction n as [|n IH]; intros got s E; cbn [alloc_all] in E.
  { injection E as -> _. lia. }
  apply M_bind_inv in E as (p & s1 & _ & E). destruct (p =? 0); [done|]. apply IH in E.
  rewrite E, length_app. cbn. lia.
Qed.

(** A block of the heap can be read and written. *)
Lemma block_mapped s segs p sz n :
  heap_ready s segs -> (p, sz) ∈ live heap_base segs -> Z.of_nat n <= sz -> mapped (st_mem s) p n.
Proof.
  intros [Hi Hm] Hp Hn. apply live_bound in Hp; [|apply Hi]. rewrite (inv_span _ _ _ Hi) in Hp.
  unfold BLOCK_HEADER in Hp. intros i Hlt.
  replace (p + Z.of_nat i) with (heap_base + Z.of_nat (Z.to_nat (p + Z.of_nat i - heap_base))) by lia. apply Hm. lia.
Qed.

Lemma load_ok s segs p sz n :
  heap_ready s segs -> (p, sz) ∈ live heap_base segs -> Z.of_nat n <= sz ->
  exists b, load p n s = Ret (b, s) /\ length b = n.
Proof.
  intros Hr Hp Hn. destruct (mapped_load (st_mem s) p n) as [b Hb]; [by eapply block_mapped|].
  exists b. unfold load. rewrite Hb. split; [done|]. by apply load_bytes_inv in Hb as [? _].
Qed.

Lemma store_ok s segs p sz b :
  heap_ready s segs -> (p, sz) ∈ live heap_base segs -> Z.of_nat (length b) <= sz ->
  exists m, store p b s = Ret (tt, with_hm (st_heap s) m s) /\ heap_ready (with_hm (st_heap s) m s) segs /\
    patched (st_mem s) p b m.
Proof.
  intros Hr Hp Hn. destruct (store_bytes_ok (st_mem s) p b) as (m & Hs & Hpt); [by eapply block_mapped|].
  unfold store. rewrite Hs. step_ret. exists m. split; [done|]. split; [|done].
  apply heap_ready_mem; [done|]. by eapply store_bytes_dom.
Qed.

(** Two blocks share no address. *)
Lemma blocks_apart s segs p sz q t :
  heap_ready s segs -> (p, sz) ∈ live heap_base segs -> (q, t) ∈ live heap_base segs -> p <> q ->
  p + sz <= q \/ q + t <= p.
Proof.
  intros Hr Hp Hq Hne. destruct (live_sep heap_base segs p sz q t) as [E|[E|E]];
    [by eapply heap_ready_sizes|done|done|by injection E as -> ->| |]; unfold BLOCK_HEADER in E; lia.
Qed.

(** The regions [rs] are the beginnings of as many blocks; the other blocks handed
    out are [rest]. *)
Definition owned (segs : list seg) (rs rest : list (Z * Z)) : Prop :=
  exists bs, live heap_base segs ≡ₚ bs ++ rest /\ Forall2 (fun r b => r.1 = b.1 /\ r.2 <= b.2) rs bs.

Lemma owned_nil segs rest : owned segs [] rest <-> live heap_base segs ≡ₚ rest.
Proof.
  split; [|by exists []]. intros (bs & Hl & Hf). by inversion Hf; subst.
Qed.

Lemma owned_perm segs rs rs' rest : rs ≡ₚ rs' -> owned segs rs rest -> owned segs rs' rest.
Proof.
  intros Hp (bs & Hl & Hf). destruct (Permutation_Forall2 Hp Hf) as (bs' & Hp' & Hf'). exists bs'.
  split; [by rewrite <- Hp'|done].
Qed.

(** Ownership of more blocks, with those of others among the rest. *)
Lemma owned_app segs segs' rs rs' rest :
  owned segs' rs (live heap_base segs) -> owned segs rs' rest -> owned segs' (rs ++ rs') rest.
Proof.
  intros (bs & Hl & Hf) (bs' & Hl' & Hf'). exists (bs ++ bs'). split; [by rewrite Hl, Hl', app_assoc|by apply Forall2_app].
Qed.

Lemma owned_split segs rs rs' rest :
  owned segs (rs ++ rs') rest ->
  exists rest', owned segs rs' rest' /\ forall segs', live heap_base segs' ≡ₚ rest' -> owned segs' rs rest.
Proof.
  intros (bs & Hl & Hf). apply Forall2_app_inv_l in Hf as (b1 & b2 & H1 & H2 & ->). exists (b1 ++ rest). split.
  - exists b2. split; [|done]. by rewrite Hl, (Permutation_app_comm b1), <- app_assoc.
  - intros segs' Hl'. by exists b1.
Qed.

Lemma kmalloc_owned n s segs rs rest :
  heap_ready s segs -> owned segs rs rest -> 0 < n -> n + 15 < 2 ^ 64 ->
  exists p h segs', kmalloc n s = Ret (p, with_hm h (st_mem s) s) /\ heap_ready (with_hm h (st_mem s) s) segs' /\
    owned segs' (if p =? 0 then rs else (p, n) :: rs) rest.
Proof.
  intros Hr (bs & Hl & Hf) H1 H2. destruct (kmalloc_ok n s segs Hr H1 H2) as (p & h & E & Hc).
  destruct Hc as [[-> Hr']|(Hp & segs' & sz & Hsz & Hr' & Hl')]; [exists 0, h, segs; split; [done|]; split; [done|by exists bs]|].
  exists p, h, segs'. split; [done|]. split; [done|]. rewrite (proj2 (Z.eqb_neq p 0)) by done.
  exists ((p, sz) :: bs). split; [by rewrite Hl', Hl|by constructor].
Qed.

Lemma alloc_all_owned size n s segs rs rest :
  heap_ready s segs -> owned segs rs rest -> 0 < size -> size + 15 < 2 ^ 64 ->
  exists ps ok h segs', alloc_all size n [] s = Ret ((ps, ok), with_hm h (st_mem s) s) /\
    heap_ready (with_hm h (st_mem s) s) segs' /\ owned segs' (((fun p => (p, size)) <$> ps) ++ rs) rest /\
    (ok = true -> length ps = n).
Proof.
  intros Hr (bs & Hl & Hf) H1 H2.
  destruct (alloc_all_ok size n [] s segs Hr H1 H2) as (new & ok & h & segs' & E & Hr' & Hl' & Hs & Hn).
  exists new.*1, ok, h, segs'. split; [exact E|]. split; [done|]. split; [|by rewrite length_fmap].
  exists (new ++ bs). split; [by rewrite Hl', Hl, app_assoc|]. apply Forall2_app; [|done]. clear -Hs.
  induction Hs; cbn; by constructor.
Qed.

Lemma kfree_all_owned ps s segs rs rs' rest :
  heap_ready s segs -> owned segs (rs ++ rs') rest -> ps ≡ₚ rs.*1 ->
  exists h segs', kfree_all ps s = Ret (tt, with_hm h (st_mem s) s) /\
    heap_ready (with_hm h (st_mem s) s) segs' /\ owned segs' rs' rest.
Proof.
  intros Hr (bs & Hl & Hf) Hp. apply Forall2_app_inv_l in Hf as (b1 & b2 & H1 & H2 & ->).
  assert (rs.*1 = b1.*1) as Es by (clear -H1; induction H1 as [|? ? ? ? [? ?] ? IH]; cbn; congruence).
  rewrite Es in Hp. destruct (Permutation_map_inv _ _ Hp) as (b1' & -> & Hp').
  destruct (kfree_all_ok b1' s segs (b2 ++ rest) Hr) as (h & segs' & E & Hr' & Hl'); [by rewrite <- Hp', Hl, app_assoc|].
  exists h, segs'. split; [done|]. split; [done|by exists b2].
Qed.

Lemma kfree_owned_room p n s segs rs rest :
  heap_ready s segs -> owned segs ((p, n) :: rs) rest ->
  exists h segs', kfree p s = Ret (tt, with_hm h (st_mem s) s) /\
    heap_ready (with_hm h (st_mem s) s) segs' /\ owned segs' rs rest /\ forall n, has_room segs n -> has_room segs' n.
Proof.
  intros Hr (bs & Hl & Hf). inversion Hf as [|? [q sz] ? bs' [E _] Hf']; subst. cbn in E. subst q.
  destruct (kfree_ok_room s segs p sz (bs' ++ rest) Hr Hl) as (h & segs' & E & Hr' & Hl' & Hroom). exists h, segs'.
  split; [done|]. split; [done|]. split; [by exists bs'|done].
Qed.

Lemma kfree_owned p n s segs rs rest :
  heap_ready s segs -> owned segs ((p, n) :: rs) rest ->
  exists h segs', kfree p s = Ret (tt, with_hm h (st_mem s) s) /\
    heap_ready (with_hm h (st_mem s) s) segs' /\ owned segs' rs rest.
Proof.
  intros Hr Ho. destruct (kfree_owned_room p n s segs rs rest Hr Ho) as (h & segs' & H1 & H2 & H3 & _). by exists h, segs'.
Qed.

(** A block for a while: when it is given back, the segments are as before. *)
Lemma kmalloc_scratch n s segs rs rest :
  heap_ready s segs -> owned segs rs rest -> has_room segs n -> 0 < n -> n + 15 < 2 ^ 64 ->
  exists p h segs', kmalloc n s = Ret (p, with_hm h (st_mem s) s) /\ p <> 0 /\ heap_ready (with_hm h (st_mem s) s) segs' /\
    owned segs' ((p, n) :: rs) rest /\
    forall s', st_heap s' = h -> exists h', kfree p s' = Ret (tt, with_hm h' (st_mem s') s') /\ heap_inv heap_base h' segs.
Proof.
  intros Hr Ho Hroom H1 H2. destruct (kmalloc_room heap_base Hbase (st_heap s) segs n (hr_inv _ _ Hr) Hroom H1 H2) as (p & h & Ek & Hp).
  destruct (kmalloc_owned n s segs rs rest Hr Ho H1 H2) as (q & h1 & segs' & E & Hr' & Ho').
  assert (kmalloc n s = Ret (p, with_hm h (st_mem s) s)) as E' by (unfold kmalloc; by rewrite Ek).
  rewrite E' in E. apply Ret_inj in E. pose proof (f_equal (fun x => st_heap x.2) E) as Eh. cbn in Eh. rewrite !st_heap_with in Eh.
  injection E as <- _. subst h1. rewrite (proj2 (Z.eqb_neq p 0)) in Ho' by done.
  exists p, h, segs'. split; [done|]. split; [done|]. split; [done|]. split; [done|]. intros s' <-.
  destruct (kmalloc_restores heap_base Hbase (st_heap s) segs n p (st_heap s') (hr_inv _ _ Hr)) as (h' & Ef & Hi'); [lia|done|done|].
  exists h'. split; [|done]. unfold kfree. by rewrite Ef.
Qed.

(** With enough room all allocations succeed. *)
Lemma kmalloc_grants n m s segs rs rest :
  heap_ready s segs -> owned segs rs rest -> has_room segs (n + m + 64) -> 0 < n -> n + 15 < 2 ^ 64 -> 0 <= m ->
  exists p h segs', kmalloc n s = Ret (p, with_hm h (st_mem s) s) /\ p <> 0 /\ heap_ready (with_hm h (st_mem s) s) segs' /\
    owned segs' ((p, n) :: rs) rest /\ has_room segs' m.
Proof.
  intros [Hi Hm] (bs & Hl & Hf) Hroom H1 H2 H3.
  destruct (kmalloc_leaves heap_base Hbase (st_heap s) segs n m Hi Hroom H1 H2 H3) as (p & h & segs' & sz & E & Hp & Hi' & Hsz & Hl' & Hroom').
  exists p, h, segs'. split; [unfold kmalloc; by rewrite E|]. split; [done|]. split; [constructor; [by rewrite st_heap_with|by rewrite st_mem_with]|].
  split; [|done]. exists ((p, sz) :: bs). split; [by rewrite Hl', Hl|by constructor].
Qed.

Lemma alloc_all_grants size k got m s segs rs rest :
  heap_ready s segs -> owned segs rs rest -> has_room segs (Z.of_nat k * (size + 64) + m) -> 0 < size -> size + 15 < 2 ^ 64 -> 0 <= m ->
  exists ps s' segs', alloc_all size k got s = Ret ((got ++ ps, true), s') /\ st_mem s' = st_mem s /\ (exists h, s' = with_hm h (st_mem s) s) /\
    heap_ready s' segs' /\ owned segs' (((fun p => (p, size)) <$> ps) ++ rs) rest /\ has_room segs' m.
Proof.
  revert got s segs rs. induction k as [|k IH]; intros got s segs rs Hr Ho Hroom H1 H2 H3; cbn [alloc_all].
  - exists [], s, segs. rewrite app_nil_r. split; [done|]. split; [done|]. split; [exists (st_heap s); by rewrite with_hm_id|].
    split; [done|]. split; [done|]. by replace m with (Z.of_nat 0 * (size + 64) + m) by lia.
  - destruct (kmalloc_grants size (Z.of_nat k * (size + 64) + m) s segs rs rest Hr Ho) as (p & h & segs1 & E & Hp & Hr1 & Ho1 & Hroom1); [|lia|lia|nia|].
    { by replace (size + (Z.of_nat k * (size + 64) + m) + 64) with (Z.of_nat (S k) * (size + 64) + m) by lia. }
    rewrite (M_bind_Ret _ _ _ _ _ E), (proj2 (Z.eqb_neq p 0)) by done.
    destruct (IH (got ++ [p]) _ _ _ Hr1 Ho1 Hroom1 H1 H2 H3) as (ps & s' & segs' & E' & Hm' & [h' ->] & Hr' & Ho' & Hroom').
    exists (p :: ps). eexists _, segs'. rewrite <- app_assoc in E'. split; [exact E'|]. split; [by rewrite !st_mem_with|].
    split; [exists h'; by rewrite with_hm_with, st_mem_with|]. split; [done|]. split; [|done].
    eapply owned_perm; [|exact Ho']. cbn. by rewrite Permutation_middle.
Qed.

(** *** Vectors *)

(** The block of a vector, and its elements as blocks of [size] bytes. *)
Definition storage (v : ptr_vec) : list (Z * Z) := if v_cap v =? 0 then [] else [(v_ptr v, 8 * v_cap v)].

Definition vec_blocks (size : Z) (v : ptr_vec) : list (Z * Z) := storage v ++ ((fun p => (p, size)) <$> v_items v).

(** As many elements as the block holds, and no more than twice as much space. *)
Definition vec_ok (v : ptr_vec) : Prop :=
  Z.of_nat (length (v_items v)) <= v_cap v <= Z.max 4 (2 * Z.of_nat (length (v_items v))).

Lemma vec_new_ok : vec_ok vec_new.
Proof. unfold vec_ok. cbn. lia. Qed.

(** What [n] more elements take from the heap at most. *)
Fixpoint push_cost (len cap : Z) (n : nat) : Z :=
  match n with
  | O => 0
  | S n' =>
      if len <? cap then push_cost (len + 1) cap n'
      else let cap' := Z.max 4 (2 * cap) in 8 * cap' + 64 + push_cost (len + 1) cap' n'
  end.

Lemma push_cost_nonneg len cap n : 0 <= push_cost len cap n.
Proof.
  revert len cap. induction n as [|n IH]; intros len cap; cbn [push_cost]; [lia|]. destruct (len <? cap); [done|].
  pose proof (IH (len + 1) (Z.max 4 (2 * cap))). lia.
Qed.

(** The old block of a vector, if it has one, is freed. *)
Lemma vec_drop_owned v s segs rs rest :
  heap_ready s segs -> owned segs (storage v ++ rs) rest ->
  exists h segs', vec_drop v s = Ret (tt, with_hm h (st_mem s) s) /\ heap_ready (with_hm h (st_mem s) s) segs' /\
    owned segs' rs rest /\ forall n, has_room segs n -> has_room segs' n.
Proof.
  intros Hr Ho. unfold vec_drop, storage in *. destruct (v_cap v =? 0).
  - exists (st_heap s), segs. by rewrite with_hm_id.
  - by apply (kfree_owned_room _ _ _ _ _ _ Hr Ho).
Qed.

(** A vector with room for another element, or one that grew into the block [q]. *)
Lemma vec_grow q p v s segs rs rest :
  heap_ready s segs -> owned segs ((q, 8 * Z.max 4 (2 * v_cap v)) :: storage v ++ rs) rest -> vec_ok v ->
  v_cap v <= Z.of_nat (length (v_items v)) ->
  let v' := mkVec (v_items v ++ [p]) q (Z.max 4 (2 * v_cap v)) in
  exists h segs', (_ ← vec_drop v; mret v') s = Ret (v', with_hm h (st_mem s) s) /\ heap_ready (with_hm h (st_mem s) s) segs' /\
    owned segs' (storage v' ++ rs) rest /\ vec_ok v' /\ forall n, has_room segs n -> has_room segs' n.
Proof.
  intros Hr Ho Hv Hfull v'. eapply (owned_perm _ _ (storage v ++ (q, _) :: rs)) in Ho; [|by rewrite Permutation_middle].
  destruct (vec_drop_owned v s segs _ rest Hr Ho) as (h & segs' & E & Hr' & Ho' & Hroom).
  exists h, segs'. rewrite (M_bind_Ret _ _ _ _ _ E). split; [done|]. split; [done|]. split; [|split; [|done]].
  - unfold storage, v'. cbn [v_cap v_ptr]. rewrite (proj2 (Z.eqb_neq _ 0)) by (unfold vec_ok in Hv; lia). done.
  - unfold vec_ok, v' in *. cbn [v_cap v_items]. rewrite length_app. cbn [length]. lia.
Qed.

Lemma vec_push_owned p v s segs rs rest :
  heap_ready s segs -> owned segs (storage v ++ rs) rest -> vec_ok v -> Z.of_nat (length (v_items v)) < 2 ^ 32 ->
  vec_push p v s = Panic \/
  exists v' h segs', vec_push p v s = Ret (v', with_hm h (st_mem s) s) /\ heap_ready (with_hm h (st_mem s) s) segs' /\
    owned segs' (storage v' ++ rs) rest /\ vec_ok v' /\ v_items v' = v_items v ++ [p].
Proof.
  intros Hr Ho Hv Hlen. unfold vec_push. destruct (Z.ltb_spec (Z.of_nat (length (v_items v))) (v_cap v)) as [Hlt|Hfull].
  { right. eexists _, (st_heap s), segs. rewrite with_hm_id. split; [done|]. split; [done|]. split; [done|]. split; [|done].
    unfold vec_ok in *. cbn [v_cap v_items]. rewrite length_app. cbn [length]. lia. }
  assert (0 < 8 * Z.max 4 (2 * v_cap v) /\ 8 * Z.max 4 (2 * v_cap v) + 15 < 2 ^ 64) as [H1 H2] by (unfold vec_ok in Hv; lia).
  destruct (kmalloc_owned _ s segs _ _ Hr Ho H1 H2) as (q & h & segs1 & E & Hr1 & Ho1).
  rewrite (M_bind_Ret _ _ _ _ _ E). destruct (q =? 0); [by left|]. right.
  destruct (vec_grow q p v _ segs1 rs rest Hr1 Ho1 Hv Hfull) as (h2 & segs2 & E2 & Hr2 & Ho2 & Hv2 & _).
  rewrite with_hm_with, st_mem_with in *. eexists _, h2, segs2. split; [exact E2|]. done.
Qed.

Lemma vec_push_grants p v m s segs rs rest :
  heap_ready s segs -> owned segs (storage v ++ rs) rest -> vec_ok v -> Z.of_nat (length (v_items v)) < 2 ^ 32 -> 0 <= m ->
  has_room segs (push_cost (Z.of_nat (length (v_items v))) (v_cap v) 1 + m) ->
  exists v' h segs', vec_push p v s = Ret (v', with_hm h (st_mem s) s) /\ heap_ready (with_hm h (st_mem s) s) segs' /\
    owned segs' (storage v' ++ rs) rest /\ vec_ok v' /\ v_items v' = v_items v ++ [p] /\ has_room segs' m /\
    v_cap v' = (if Z.of_nat (length (v_items v)) <? v_cap v then v_cap v else Z.max 4 (2 * v_cap v)).
Proof.
  intros Hr Ho Hv Hlen Hm Hroom. cbn [push_cost] in Hroom. unfold vec_push.
  destruct (Z.ltb_spec (Z.of_nat (length (v_items v))) (v_cap v)) as [Hlt|Hfull].
  { eexists _, (st_heap s), segs. rewrite with_hm_id. split; [done|]. split; [done|]. split; [done|]. split; [|done].
    unfold vec_ok in *. cbn [v_cap v_items]. rewrite length_app. cbn [length]. lia. }
  assert (0 < 8 * Z.max 4 (2 * v_cap v) /\ 8 * Z.max 4 (2 * v_cap v) + 15 < 2 ^ 64) as [H1 H2] by (unfold vec_ok in Hv; lia).
  replace (8 * Z.max 4 (2 * v_cap v) + 64 + 0 + m) with (8 * Z.max 4 (2 * v_cap v) + m + 64) in Hroom by lia.
  destruct (kmalloc_grants _ m s segs _ _ Hr Ho Hroom H1 H2 Hm) as (q & h & segs1 & E & Hq & Hr1 & Ho1 & Hroom1).
  rewrite (M_bind_Ret _ _ _ _ _ E), (proj2 (Z.eqb_neq q 0)) by done.
  destruct (vec_grow q p v _ segs1 rs rest Hr1 Ho1 Hv Hfull) as (h2 & segs2 & E2 & Hr2 & Ho2 & Hv2 & Hk).
  rewrite with_hm_with, st_mem_with in *. eexists _, h2, segs2. split; [exact E2|]. repeat (split; [done|]). split; [by apply Hk|done].
Qed.

(** The buffers of a ring: all of them and the vector, some of them and the vector,
    or a panic because the vector could not grow. *)
Lemma alloc_push_owned size n v s segs rs rest :
  heap_ready s segs -> owned segs (vec_blocks size v ++ rs) rest -> vec_ok v -> 0 < size -> size + 15 < 2 ^ 64 ->
  Z.of_nat (length (v_items v) + n) < 2 ^ 32 ->
  alloc_push size n v s = Panic \/
  exists v' ok h segs', alloc_push size n v s = Ret ((v', ok), with_hm h (st_mem s) s) /\ heap_ready (with_hm h (st_mem s) s) segs' /\
    owned segs' (vec_blocks size v' ++ rs) rest /\ vec_ok v' /\ (ok = true -> length (v_items v') = (length (v_items v) + n)%nat).
Proof.
  intros Hr Ho Hv H1 H2. revert v s segs Hr Ho Hv. induction n as [|n IH]; intros v s segs Hr Ho Hv Hlen; cbn [alloc_push].
  { right. exists v, true, (st_heap s), segs. rewrite with_hm_id. repeat (split; [done|]). intros _. lia. }
  destruct (kmalloc_owned size s segs _ _ Hr Ho H1 H2) as (p & h & segs1 & E & Hr1 & Ho1). rewrite (M_bind_Ret _ _ _ _ _ E).
  destruct (p =? 0); [right; by exists v, false, h, segs1|]. unfold vec_blocks in Ho1.
  eapply (owned_perm _ _ (storage v ++ ((fun p => (p, size)) <$> (v_items v ++ [p])) ++ rs)) in Ho1; [|rewrite fmap_app; cbn; solve_Permutation].
  destruct (vec_push_owned p v _ segs1 _ rest Hr1 Ho1 Hv) as [Ep|(v1 & h2 & segs2 & E2 & Hr2 & Ho2 & Hv2 & Hi2)]; [lia| |].
  { left. by apply M_bind_Panic. }
  rewrite (M_bind_Ret _ _ _ _ _ E2). rewrite with_hm_with, st_mem_with in *. rewrite <- Hi2, app_assoc in Ho2.
  assert (length (v_items v1) = S (length (v_items v))) as Hl by (rewrite Hi2, length_app; cbn; lia).
  destruct (IH v1 _ segs2 Hr2 Ho2 Hv2) as [Ep|(v' & ok & h3 & segs3 & E3 & Hr3 & Ho3 & Hv3 & Hn3)]; [lia|by left|right].
  rewrite with_hm_with, st_mem_with in *. exists v', ok, h3, segs3. repeat (split; [done|]). intros Hok. rewrite Hn3 by done. lia.
Qed.

(** With enough room the buffers are all allocated. *)
Lemma alloc_push_grants size n v m s segs rs rest :
  heap_ready s segs -> owned segs (vec_blocks size v ++ rs) rest -> vec_ok v -> 0 < size -> size + 15 < 2 ^ 64 ->
  Z.of_nat (length (v_items v) + n) < 2 ^ 32 -> 0 <= m ->
  has_room segs (Z.of_nat n * (size + 64) + push_cost (Z.of_nat (length (v_items v))) (v_cap v) n + m) ->
  exists v' s' segs', alloc_push size n v s = Ret ((v', true), s') /\ (exists h, s' = with_hm h (st_mem s) s) /\ heap_ready s' segs' /\
    owned segs' (vec_blocks size v' ++ rs) rest /\ vec_ok v' /\ length (v_items v') = (length (v_items v) + n)%nat /\ has_room segs' m.
Proof.
  intros Hr Ho Hv H1 H2 Hlen Hm. revert v s segs Hr Ho Hv Hlen.
  induction n as [|n IH]; intros v s segs Hr Ho Hv Hlen Hroom; cbn [alloc_push].
  { exists v, s, segs. split; [done|]. split; [exists (st_heap s); by rewrite with_hm_id|]. do 3 (split; [done|]). split; [lia|exact Hroom]. }
  set (len := Z.of_nat (length (v_items v))) in *. set (cap' := if len <? v_cap v then v_cap v else Z.max 4 (2 * v_cap v)).
  set (m1 := Z.of_nat n * (size + 64) + push_cost (len + 1) cap' n + m).
  assert (0 <= m1) as Hm1 by (pose proof (push_cost_nonneg (len + 1) cap' n); unfold m1; nia).
  assert (push_cost len (v_cap v) (S n) = push_cost len (v_cap v) 1 + push_cost (len + 1) cap' n) as Hc
    by (unfold cap'; cbn [push_cost]; destruct (len <? v_cap v); lia).
  pose proof (push_cost_nonneg len (v_cap v) 1) as Hc1.
  destruct (kmalloc_grants size (push_cost len (v_cap v) 1 + m1) s segs _ rest Hr Ho) as (p & h & segs1 & E & Hp & Hr1 & Ho1 & Hroom1); [|lia..|].
  { replace (size + (push_cost len (v_cap v) 1 + m1) + 64) with (Z.of_nat (S n) * (size + 64) + push_cost len (v_cap v) (S n) + m)
      by (rewrite Hc; unfold m1; lia). exact Hroom. }
  rewrite (M_bind_Ret _ _ _ _ _ E), (proj2 (Z.eqb_neq p 0)) by done. unfold vec_blocks in Ho1.
  eapply (owned_perm _ _ (storage v ++ ((fun p => (p, size)) <$> (v_items v ++ [p])) ++ rs)) in Ho1; [|rewrite fmap_app; cbn; solve_Permutation].
  destruct (vec_push_grants p v m1 _ segs1 _ rest Hr1 Ho1 Hv) as (v1 & h2 & segs2 & E2 & Hr2 & Ho2 & Hv2 & Hi2 & Hroom2 & Hcap);
    [unfold len in *; lia|done|exact Hroom1|].
  rewrite (M_bind_Ret _ _ _ _ _ E2). rewrite with_hm_with, st_mem_with in *. rewrite <- Hi2, app_assoc in Ho2.
  assert (length (v_items v1) = S (length (v_items v))) as Hl by (rewrite Hi2, length_app; cbn; lia).
  destruct (IH v1 _ segs2 Hr2 Ho2 Hv2) as (v' & s' & segs3 & E3 & [h3 ->] & Hr3 & Ho3 & Hv3 & Hn3 & Hroom3); [lia| |].
  { rewrite Hcap, Hl. replace (Z.of_nat (S (length (v_items v)))) with (len + 1) by (unfold len; lia). exact Hroom2. }
  rewrite with_hm_with, st_mem_with in *. eexists v', _, segs3. split; [done|]. split; [by eexists|]. do 3 (split; [done|]). split; [lia|done].
Qed.

(** Freeing the elements and the vector. *)
Lemma kfree_into_owned size v s segs rs rest :
  heap_ready s segs -> owned segs (vec_blocks size v ++ rs) rest ->
  exists h segs', kfree_into v s = Ret (tt, with_hm h (st_mem s) s) /\ heap_ready (with_hm h (st_mem s) s) segs' /\ owned segs' rs rest.
Proof.
  intros Hr Ho. unfold vec_blocks in Ho.
  eapply (owned_perm _ _ (((fun p => (p, size)) <$> v_items v) ++ storage v ++ rs)) in Ho; [|solve_Permutation].
  destruct (kfree_all_owned (v_items v) s segs _ _ rest Hr Ho) as (h & segs1 & E & Hr1 & Ho1).
  { rewrite <- list_fmap_compose. cbn. by rewrite list_fmap_id. }
  unfold kfree_into. rewrite (M_bind_Ret _ _ _ _ _ E).
  destruct (vec_drop_owned v _ segs1 _ rest Hr1 Ho1) as (h2 & segs2 & E2 & Hr2 & Ho2 & _).
  rewrite with_hm_with, st_mem_with in *. by exists h2, segs2.
Qed.

(** A vector of 32 elements has a block of 256 bytes at least. *)
Lemma storage_full v segs rs rest :
  vec_ok v -> length (v_items v) = 32%nat -> owned segs (storage v ++ rs) rest -> owned segs ((v_ptr v, 256) :: rs) rest.
Proof.
  intros Hv Hl. unfold vec_ok, storage in *. rewrite Hl in Hv. rewrite (proj2 (Z.eqb_neq _ 0)) by lia. intros (bs & Hb & Hf).
  exists bs. split; [done|]. inversion Hf as [|? b ? bs' [E1 E2] Hf']; subst. constructor; [|done]. cbn in *. split; [done|lia].
Qed.

(** Owned regions are apart, and mapped. *)
Lemma owned_regions s segs rs rest :
  heap_ready s segs -> owned segs rs rest ->
  apart rs /\ Forall (fun r => within (dom (st_mem s)) r.1 (Z.to_nat r.2)) rs.
Proof.
  intros Hr (bs & Hl & Hf).
 pose proof (live_NoDup heap_base segs (heap_ready_sizes _ _ Hr)) as Hnd. rewrite Hl in Hnd.
  apply NoDup_app in Hnd as (Hnd & _ & _). split.
  - intros i j p a q b Hij Hi Hj.
    destruct (Forall2_lookup_l _ _ _ _ _ Hf Hi) as ([p' a'] & Hi' & E1 & E2).
    destruct (Forall2_lookup_l _ _ _ _ _ Hf Hj) as ([q' b'] & Hj' & E3 & E4). cbn in *. subst p' q'.
    destruct (live_sep heap_base segs p a' q b') as [E|[E|E]]; [by eapply heap_ready_sizes| | | | |].
    + rewrite Hl. apply elem_of_app. left. by eapply list_elem_of_lookup_2.
    + rewrite Hl. apply elem_of_app. left. by eapply list_elem_of_lookup_2.
    + rewrite E in Hi'. by destruct Hij; eapply NoDup_lookup.
    + unfold BLOCK_HEADER in E. lia.
    + unfold BLOCK_HEADER in E. lia.
  - apply Forall_lookup. intros i [p a] Hi. destruct (Forall2_lookup_l _ _ _ _ _ Hf Hi) as ([p' a'] & Hi' & E1 & E2).
    cbn in *. subst p'. apply within_mapped. destruct (decide (0 <= a)).
    + eapply block_mapped; [exact Hr| |]; [rewrite Hl; apply elem_of_app; left; by eapply list_elem_of_lookup_2|lia].
    + intros k Hk. lia.
Qed.

(** Owned regions lie in the array. *)
Lemma owned_bound s segs rs rest p n :
  heap_ready s segs -> owned segs rs rest -> (p, n) ∈ rs -> heap_base <= p /\ p + n <= heap_base + HEAP_SIZE.
Proof.
  intros Hr (bs & Hl & Hf) Hin. apply list_elem_of_lookup in Hin as [i Hi].
  destruct (Forall2_lookup_l _ _ _ _ _ Hf Hi) as ([p' a] & Hb & E1 & E2). cbn in E1, E2. subst p'.
  destruct (live_bound heap_base segs p a) as (H1 & H2 & _); [by eapply heap_ready_sizes| |].
  - rewrite Hl. apply elem_of_app. left. by eapply list_elem_of_lookup_2.
  - rewrite (inv_span _ _ _ (hr_inv _ _ Hr)) in H2. unfold BLOCK_HEADER in H1. lia.
Qed.

End blocks.

(** A part of a blank region is mapped. *)
Lemma blank_part (m : mem) a n q k :
  a <= q -> q + Z.of_nat k <= a + Z.of_nat n -> mapped (m ∪ blank a n) q k.
Proof. intros H1 H2. apply within_mapped. eapply within_sub; [apply within_mapped, blank_mapped|done|done]. Qed.

(** Memory with the array of a heap at 4096. *)
Definition demo_mem : mem := ∅ ∪ blank 4096 (Z.to_nat HEAP_SIZE).

Lemma demo_mem_mapped q k : 4096 <= q -> q + Z.of_nat k <= 4198400 -> mapped demo_mem q k.
Proof. intros H1 H2. apply blank_part; [done|]. unfold HEAP_SIZE. lia. Qed.

Lemma demo_mem_array : mapped demo_mem 4096 (Z.to_nat HEAP_SIZE).
Proof. apply blank_mapped. Qed.

#[global] Opaque demo_mem.
