(* ===== verification/Serial.v ===== *)
(** * Serial: the serial port and the number printers

    [serial.rs] drives COM1 through port reads and writes.  The device is the
    sequence of values successive reads of the line status register return; the
    effect of the code is the sequence of port writes.  The module [HeapHex] is
    the separate printer of [heap.rs]. *)

From S2P Require Import Prelude Memory.

Local Open Scope Z_scope.

(** ** The code *)
Definition COM1_PORT : Z := 0x3F8.

(** Reads of the status register so far, and the port writes. *)
Record port := mkPort { reads : nat; outs : list (Z * Z) }.

Definition outb (p v : Z) (s : port) : port := mkPort (reads s) (outs s ++ [(p, v)]).

Definition serial_init (s : port) : port :=
  outb (COM1_PORT + 4) 0x0B (outb (COM1_PORT + 2) 0xC7 (outb (COM1_PORT + 3) 0x03
    (outb (COM1_PORT + 1) 0x00 (outb (COM1_PORT + 0) 0x01 (outb (COM1_PORT + 3) 0x80
      (outb (COM1_PORT + 1) 0x00 s)))))).

Section device.
  (** [status n] is what the [n]-th read of [COM1_PORT + 5] returns; [fuel] bounds
      the polling of one character. *)
  Context (status : nat -> Z) (fuel : nat).

(** [while (inb(COM1_PORT + 5) & 0x20) == 0 {}]. *)
Fixpoint wait_ready (f : nat) (s : port) : outcome port :=
  match f with
  | O => Timeout
  | S f' =>
      let s' := mkPort (S (reads s)) (outs s) in
      if (status (reads s) .& 0x20)%W =? 0 then wait_ready f' s' else Ret s'
  end.

Definition serial_putchar (c : Z) (s : port) : outcome port :=
  s' ← wait_ready fuel s; Ret (outb COM1_PORT c s').

Fixpoint put_chars (cs : list Z) (s : port) : outcome port :=
  match cs with [] => Ret s | c :: cs' => s' ← serial_putchar c s; put_chars cs' s' end.

(** [serial_write] of the C string at [a]. *)
Definition serial_write (m : mem) (a : Z) (s : port) : outcome port :=
  if a =? 0 then Ret s else cs ← read_cstr m a; put_chars cs s.

(** [serial_write] of an array of the code: up to its first NUL. *)
Definition serial_write_buf (buf : list Z) (s : port) : outcome port := put_chars (until_nul buf) s.

Definition hex_upper (digit : Z) : Z := if digit <? 10 then 48 + digit else 65 + (digit - 10).

(** [for i in 0..16 { buf[2 + i] = ... }]. *)
Fixpoint hex_loop (n i : nat) (value : Z) (buf : list Z) : outcome (list Z) :=
  match n with
  | O => Ret buf
  | S n' =>
      buf' ← arr_set buf (2 + i) (hex_upper ((value >>. (60 - Z.of_nat i * 4)) .& 0xF)%W);
      hex_loop n' (S i) value buf'
  end.

Definition hex_buf (value : Z) : outcome (list Z) :=
  buf ← arr_set (replicate 18 0) 0 48;
  buf ← arr_set buf 1 120;
  buf ← hex_loop 16 0 value buf;
  arr_set buf 17 0.

Definition serial_write_hex (m : mem) (label value : Z) (s : port) : outcome port :=
  s ← serial_write m label s;
  buf ← hex_buf value;
  s ← serial_write_buf buf s;
  serial_write_buf [10; 0] s.

(** [while val > 0 && i > 0 { buf[i] = ...; val /= 10; i -= 1; }]. *)
Fixpoint dec_loop (i : nat) (val : Z) (buf : list Z) : outcome (nat * list Z) :=
  match i with
  | O => Ret (O, buf)
  | S i' =>
      if 0 <? val then buf' ← arr_set buf i (48 + val mod 10); dec_loop i' (val / 10) buf'
      else Ret (i, buf)
  end.

Definition dec_buf (value : Z) : outcome (list Z) :=
  buf ← arr_set (replicate 32 0) 31 0;
  '(i, buf) ← (if value =? 0 then buf ← arr_set buf 30 48; Ret (29%nat, buf) else dec_loop 30 value buf);
  Ret (drop (i + 1) buf).

Definition serial_write_dec (m : mem) (label value : Z) (s : port) : outcome port :=
  s ← serial_write m label s;
  buf ← dec_buf value;
  s ← serial_write_buf buf s;
  serial_write_buf [10; 0] s.
End device.

(** The private printer of [heap.rs]: lower case, no leading zeros. *)
Module HeapHex.
Definition hex_lower (digit : Z) : Z := if digit <? 10 then 48 + digit else 97 + (digit - 10).

(** The loop index is one more than the source's [i], which wraps below 0 after
    the sixteenth digit and is used as [i + 1]. *)
Fixpoint hex_loop (fuel i1 : nat) (v : Z) (buf : list Z) : outcome (list Z) :=
  if v <=? 0 then Ret (drop i1 buf)
  else match fuel, i1 with
       | S f, S i => buf' ← arr_set buf i (hex_lower (v mod 16)); hex_loop f i (v / 16) buf'
       | S _, O => Panic
       | O, _ => Timeout
       end.

Definition serial_write_hex (val : Z) : outcome (list Z) :=
  if val =? 0 then Ret [48] else buf ← hex_loop 17 16 val (replicate 17 0); Ret (until_nul buf).
End HeapHex.

(** ** Delivery *)

(** A working device: within [fuel] reads the transmitter is empty. *)
Definition responsive (status : nat -> Z) (fuel : nat) : Prop :=
  forall n, exists j, (j < fuel)%nat /\ (status (n + j)%nat .& 0x20)%W <> 0.

(** The bytes sent over the data register. *)
Definition sent (s : port) : list Z := omap (fun '(p, v) => if p =? COM1_PORT then Some v else None) (outs s).

Lemma wait_ready_ok status f s j :
  (j < f)%nat -> (status (reads s + j)%nat .& 0x20)%W <> 0 ->
  exists n, wait_ready status f s = Ret (mkPort n (outs s)).
Proof.
  revert s j. induction f as [|f IH]; intros s j Hj Hs; [lia|]. cbn [wait_ready].
  destruct (Z.eqb_spec (status (reads s) .& 0x20)%W 0) as [Hz|]; [|by eexists].
  destruct j as [|j]; [by rewrite Nat.add_0_r in Hs|].
  destruct (IH (mkPort (S (reads s)) (outs s)) j) as [n Hn]; [lia|cbn [reads]; by rewrite Nat.add_succ_comm|].
  by exists n.
Qed.

Lemma put_chars_ok status fuel cs s :
  responsive status fuel ->
  exists s', put_chars status fuel cs s = Ret s' /\ sent s' = sent s ++ cs.
Proof.
  intros Hr. revert s. induction cs as [|c cs IH]; intros s; [exists s; by rewrite app_nil_r|].
  cbn. destruct (Hr (reads s)) as (j & Hj & Hs). unfold serial_putchar.
  destruct (wait_ready_ok status fuel s j Hj Hs) as [n ->]. step_ret.
  destruct (IH (outb COM1_PORT c (mkPort n (outs s)))) as (s' & -> & E). exists s'. split; [done|].
  rewrite E. unfold sent, outb. cbn [outs]. by rewrite omap_app, <- app_assoc.
Qed.

Lemma serial_write_ok status fuel m a l s :
  responsive status fuel -> a <> 0 -> cstr_at m a l ->
  exists s', serial_write status fuel m a s = Ret s' /\ sent s' = sent s ++ l.
Proof.
  intros Hr Ha Hl. unfold serial_write. rewrite (proj2 (Z.eqb_neq _ _)) by done.
  rewrite (read_cstr_ok _ _ _ Hl). step_ret. by apply put_chars_ok.
Qed.

(** ** The decimal printer *)
Lemma dec_loop_ok i val buf ds :
  length buf = 32%nat -> (i <= 30)%nat -> drop (i + 1) buf = ds ++ [0] -> Forall is_digit ds ->
  0 <= val < 10 ^ Z.of_nat i ->
  exists i' buf' ds', dec_loop i val buf = Ret (i', buf') /\ drop (i' + 1) buf' = ds' ++ [0] /\
    Forall is_digit ds' /\ dec_value ds' = val * 10 ^ Z.of_nat (length ds) + dec_value ds /\
    (0 < val \/ ds <> [] -> ds' <> []).
Proof.
  revert val buf ds. induction i as [|i IH]; intros val buf ds Hl Hi Hd Hds Hv; cbn [dec_loop].
  { exists O, buf, ds. assert (val = 0) as -> by (cbn in Hv; lia). split_and!; try done; try lia. intros []; [lia|done]. }
  destruct (Z.ltb_spec 0 val) as [Hpos|Hz].
  2:{ exists (S i), buf, ds. assert (val = 0) as -> by lia. split_and!; try done. intros []; [lia|done]. }
  rewrite arr_set_ok by lia. step_ret. rewrite Nat2Z.inj_succ, Z.pow_succ_r in Hv by lia.
  pose proof (Z.mod_pos_bound val 10). pose proof (Z.div_mod val 10).
  destruct (IH (val / 10) (<[S i := 48 + val mod 10]> buf) (48 + val mod 10 :: ds)) as (i' & buf' & ds' & H1 & H2 & H3 & H4 & H5).
  - by rewrite length_insert.
  - lia.
  - rewrite (drop_S _ (48 + val mod 10)) by (replace (i + 1)%nat with (S i) by lia; rewrite list_lookup_insert_eq by lia; done).
    rewrite drop_insert_lt by lia. replace (S (i + 1)) with (S i + 1)%nat by lia. by rewrite Hd.
  - constructor; [unfold is_digit; lia|done].
  - split; [apply Z.div_pos; lia|]. apply Z.div_lt_upper_bound; lia.
  - exists i', buf', ds'. split_and!; try done.
    + rewrite H4, dec_value_cons. cbn [length]. rewrite Nat2Z.inj_succ, Z.pow_succ_r by lia. nia.
    + intros _. apply H5. by right.
Qed.

Lemma dec_buf_ok value :
  0 <= value < 2 ^ 64 ->
  exists buf ds, dec_buf value = Ret buf /\ until_nul buf = ds /\ Forall is_digit ds /\ ds <> [] /\
    dec_value ds = value.
Proof.
  intros Hv. unfold dec_buf. rewrite arr_set_ok by (rewrite length_replicate; lia). step_ret.
  destruct (Z.eqb_spec value 0) as [->|Hne].
  - eexists _, _. split; [reflexivity|]. split; [reflexivity|]. split; [|split; done].
    cbn. constructor; [unfold is_digit; lia|constructor].
  - destruct (dec_loop_ok 30 value (<[31%nat := 0]> (replicate 32 0)) []) as (i & buf & ds & -> & H1 & H2 & H3 & H4).
    + by rewrite length_insert, length_replicate.
    + lia.
    + reflexivity.
    + constructor.
    + assert (2 ^ 64 < 10 ^ Z.of_nat 30) by reflexivity. lia.
    + step_ret. eexists _, ds. split; [done|]. rewrite H1. split_and!; try done.
      * apply until_nul_app. by apply digits_nonzero.
      * apply H4. left. lia.
      * rewrite H3. cbn. unfold dec_value. cbn. lia.
Qed.

(** ** The hexadecimal printer *)
Definition hex_digit (value : Z) (i : nat) : Z := ((value >>. (60 - Z.of_nat i * 4)) .& 0xF)%W.

Lemma hex_digit_range value i : 0 <= hex_digit value i < 16.
Proof.
  unfold hex_digit. change 0xF with (Z.ones 4). rewrite Z.land_ones by lia. apply Z.mod_pos_bound. done.
Qed.

Lemma hex_loop_ok n i value pre rest :
  length pre = (2 + i)%nat -> (n <= length rest)%nat ->
  hex_loop n i value (pre ++ rest) =
  Ret (pre ++ ((fun j => hex_upper (hex_digit value j)) <$> seq i n) ++ drop n rest).
Proof.
  revert i pre rest. induction n as [|n IH]; intros i pre rest Hp Hr; cbn [hex_loop seq].
  { done. }
  destruct rest as [|x rest]; [cbn in Hr; lia|]. rewrite arr_set_ok by (rewrite length_app; cbn; lia). step_ret.
  replace (<[(2 + i)%nat := _]> (pre ++ x :: rest)) with
    ((pre ++ [hex_upper (hex_digit value i)]) ++ rest).
  2:{ rewrite <- Hp. rewrite insert_app_r_alt, Nat.sub_diag by lia. cbn. by rewrite <- app_assoc. }
  rewrite IH by (rewrite ?length_app; cbn in *; lia). cbn. by rewrite <- app_assoc.
Qed.

Definition unhex (c : Z) : Z := if c <? 58 then c - 48 else c - 55.

Lemma unhex_upper d : 0 <= d < 16 -> unhex (hex_upper d) = d /\ hex_upper d <> 0.
Proof.
  intros H. unfold unhex, hex_upper. destruct (Z.ltb_spec d 10).
  - rewrite (proj2 (Z.ltb_lt _ _)) by lia. lia.
  - rewrite (proj2 (Z.ltb_ge _ _)) by lia. lia.
Qed.

Definition hex_value (ds : list Z) : Z := fold_left (fun acc d => acc * 16 + unhex d) ds 0.

Lemma hex_value_digits value n :
  0 <= value < 2 ^ 64 -> (n <= 16)%nat ->
  hex_value ((fun j => hex_upper (hex_digit value j)) <$> seq 0 n) = value / 2 ^ (64 - 4 * Z.of_nat n).
Proof.
  intros Hv. induction n as [|n IH]; intros Hn.
  { cbn. symmetry. apply Z.div_small. exact Hv. }
  rewrite seq_S, fmap_app. unfold hex_value. rewrite fold_left_app. fold (hex_value ((fun j => hex_upper (hex_digit value j)) <$> seq 0 n)).
  rewrite IH by lia. cbn [fmap list_fmap fold_left Nat.add].
  rewrite (proj1 (unhex_upper _ (hex_digit_range value n))). unfold hex_digit. change 0xF with (Z.ones 4).
  rewrite Z.land_ones, Z.shiftr_div_pow2 by lia.
  replace (64 - 4 * Z.of_nat n) with ((60 - Z.of_nat n * 4) + 4) by lia.
  replace (64 - 4 * Z.of_nat (S n)) with (60 - Z.of_nat n * 4) by lia.
  rewrite Z.pow_add_r, <- Z.div_div by lia. change (2 ^ 4) with 16.
  pose proof (Z.div_mod (value / 2 ^ (60 - Z.of_nat n * 4)) 16). lia.
Qed.

Lemma hex_buf_ok value :
  hex_buf value = Ret (bytes "0x" ++ ((fun j => hex_upper (hex_digit value j)) <$> seq 0 15) ++ [0]).
Proof.
  unfold hex_buf. rewrite arr_set_ok by (rewrite length_replicate; lia). step_ret.
  rewrite arr_set_ok by (rewrite length_insert, length_replicate; lia). step_ret.
  change (<[1%nat:=120]> (<[0%nat:=48]> (replicate 18 0))) with ([48; 120] ++ replicate 16 0).
  rewrite hex_loop_ok by (rewrite ?length_replicate; cbn; lia). step_ret.
  rewrite arr_set_ok by (rewrite !length_app, length_fmap, length_seq, length_drop, length_replicate; cbn; lia).
  reflexivity.
Qed.

(** ** The properties *)

(** A device that is ready at every other read, and a label in memory. *)
Definition demo_status (n : nat) : Z := if Nat.even n then 0x40 else 0x60.

Lemma demo_responsive : responsive demo_status 2.
Proof.
  intros n. unfold demo_status. destruct (Nat.even n) eqn:E.
  - exists 1%nat. split; [lia|]. rewrite Nat.even_add, E. done.
  - exists 0%nat. split; [lia|]. by rewrite Nat.add_0_r, E.
Qed.

Definition demo_label : mem := poke 100 (bytes "x=" ++ [0]) ∅.

(** [serial_write_dec] prints every 64-bit value right: over a device that
    accepts a character after finitely many polls it returns, and sends the
    label, decimal digits that denote the value, and a newline. *)
Theorem serial_write_dec_prints status fuel m label l value s :
  responsive status fuel -> label <> 0 -> cstr_at m label l -> 0 <= value < 2 ^ 64 ->
  exists s' ds, serial_write_dec status fuel m label value s = Ret s' /\
    sent s' = sent s ++ l ++ ds ++ [10] /\ Forall is_digit ds /\ ds <> [] /\ dec_value ds = value.
Proof.
  intros Hr Hl Hs Hv. unfold serial_write_dec.
  destruct (serial_write_ok status fuel m label l s Hr Hl Hs) as (s1 & -> & E1). step_ret.
  destruct (dec_buf_ok value Hv) as (buf & ds & -> & Hd & H1 & H2 & H3). step_ret. unfold serial_write_buf. rewrite Hd.
  destruct (put_chars_ok status fuel ds s1 Hr) as (s2 & -> & E2). step_ret.
  destruct (put_chars_ok status fuel [10] s2 Hr) as (s3 & E & E3). exists s3, ds. split; [exact E|].
  split_and!; try done. by rewrite E3, E2, E1, <- !app_assoc.
Qed.

Lemma serial_write_dec_prints_witness :
  exists s' ds, serial_write_dec demo_status 2 demo_label 100 65535 (mkPort 0 []) = Ret s' /\
    sent s' = bytes "x=" ++ ds ++ [10] /\ dec_value ds = 65535.
Proof.
  destruct (serial_write_dec_prints demo_status 2 demo_label 100 (bytes "x=") 65535 (mkPort 0 []) demo_responsive)
    as (s' & ds & H1 & H2 & _ & _ & H3); [lia| |lia|].
  - apply read_cstr_inv. vm_compute. reflexivity.
  - exists s', ds. split; [exact H1|]. split; [exact H2|exact H3].
Defined.

(** [serial_write_hex] loses the last digit: its terminating NUL overwrites
    the sixteenth one.  It returns, and sends the label, "0x" and 15 digits, which
    denote the value divided by 16. *)
Theorem serial_write_hex_truncates status fuel m label l value s :
  responsive status fuel -> label <> 0 -> cstr_at m label l -> 0 <= value < 2 ^ 64 ->
  exists s' ds, serial_write_hex status fuel m label value s = Ret s' /\
    sent s' = sent s ++ l ++ bytes "0x" ++ ds ++ [10] /\ length ds = 15%nat /\ hex_value ds = value / 16.
Proof.
  intros Hr Hl Hs Hv. unfold serial_write_hex.
  destruct (serial_write_ok status fuel m label l s Hr Hl Hs) as (s1 & -> & E1). step_ret.
  rewrite hex_buf_ok. step_ret. unfold serial_write_buf.
  set (ds := (fun j => hex_upper (hex_digit value j)) <$> seq 0 15).
  assert (until_nul (bytes "0x" ++ ds ++ [0]) = bytes "0x" ++ ds) as ->.
  { rewrite app_assoc. apply until_nul_app. apply Forall_app. split; [by repeat constructor|].
    apply Forall_forall. intros c (j & -> & _)%list_elem_of_fmap. apply unhex_upper, hex_digit_range. }
  destruct (put_chars_ok status fuel (bytes "0x" ++ ds) s1 Hr) as (s2 & -> & E2). step_ret.
  destruct (put_chars_ok status fuel [10] s2 Hr) as (s3 & E & E3). exists s3, ds. split; [exact E|].
  split_and!; [by rewrite E3, E2, E1, <- !app_assoc|done|]. unfold ds. rewrite hex_value_digits by lia. done.
Qed.

Lemma serial_write_hex_truncates_witness :
  exists s' ds, serial_write_hex demo_status 2 demo_label 100 0xDEADBEEF (mkPort 0 []) = Ret s' /\
    sent s' = bytes "x=" ++ bytes "0x" ++ ds ++ [10] /\ hex_value ds = 0xDEADBEE.
Proof.
  destruct (serial_write_hex_truncates demo_status 2 demo_label 100 (bytes "x=") 0xDEADBEEF (mkPort 0 []) demo_responsive)
    as (s' & ds & H1 & H2 & _ & H3); [lia| |lia|].
  - apply read_cstr_inv. vm_compute. reflexivity.
  - exists s', ds. split; [exact H1|]. split; [exact H2|exact H3].
Defined.
