(* ===== verification/Ext2.v ===== *)
(** * Ext2: the front of the ext2 file system, [ext2.rs]

    A flag and a device number in front of the ext2 code in C.  The C functions are a
    parameter: [run_c f] is what a call of [f] does to heap, memory and the state [C]
    of the C code.  The calls are logged, and so is the serial output.  Of the C code
    the layout of its [struct stat] is modelled, which the Rust side reads. *)

From S2P Require Import Prelude Memory Heap Blocks.

Local Open Scope Z_scope.

(** The functions of the C code, with pointers to paths and buffers. *)
Inductive c_fn :=
| C_init (device : Z)
| C_open (path flags : Z)
| C_read (path buf max_len : Z)
| C_write (path buf len : Z)
| C_mkdir (path : Z)
| C_rmdir (path : Z)
| C_unlink (path : Z)
| C_stat (path statbuf : Z).

#[export] Instance c_fn_eq_dec : EqDecision c_fn.
Proof. solve_decision. Defined.

Record Ext2Fs := mkExt2 { mounted : bool; device_id : Z }.

Record FileStat := mkFileStat {
  st_dev : Z; st_ino : Z; st_mode : Z; st_nlink : Z; st_uid : Z; st_gid : Z;
  st_size : Z; st_atime : Z; st_mtime : Z; st_ctime : Z
}.

Definition is_file (st : FileStat) : bool := (st_mode st .& 0xF000)%W =? 0x8000.
Definition is_directory (st : FileStat) : bool := (st_mode st .& 0xF000)%W =? 0x4000.
Definition is_symlink (st : FileStat) : bool := (st_mode st .& 0xF000)%W =? 0xA000.
Definition permissions (st : FileStat) : Z := (st_mode st .& 0x0FFF)%W.

(** Heap, memory, the static [EXT2_FS], the C code, its calls and the serial output. *)
Record ext2 (C : Type) := mkState {
  x_heap : heap;
  x_mem : mem;
  x_fs : Ext2Fs;
  x_c : C;
  x_calls : list c_fn;
  x_serial : list Z
}.
Arguments mkState {C}.
Arguments x_heap {C}.
Arguments x_mem {C}.
Arguments x_fs {C}.
Arguments x_c {C}.
Arguments x_calls {C}.
Arguments x_serial {C}.

#[export] Instance ext2_heap_state C : HeapState (ext2 C).
Proof.
  refine {| st_heap := x_heap; st_mem := x_mem;
            with_hm := fun h m s => mkState h m (x_fs s) (x_c s) (x_calls s) (x_serial s) |}; by intros; try destruct s.
Defined.

(** ** Operations *)
Section operations.

Context {C : Type} (run_c : c_fn -> heap -> mem -> C -> Z * heap * mem * C) (blockdev_get : Z -> C -> Z).

Definition call_c (f : c_fn) : M (ext2 C) Z := fun s =>
  let '(r, h, m, c) := run_c f (x_heap s) (x_mem s) (x_c s) in
  Ret (r, mkState h m (x_fs s) c (x_calls s ++ [f]) (x_serial s)).

Definition serial_write (t : list Z) : M (ext2 C) unit :=
  modify (fun s => mkState (x_heap s) (x_mem s) (x_fs s) (x_c s) (x_calls s) (x_serial s ++ t)).

Definition set_fs (fs : Ext2Fs) : M (ext2 C) unit :=
  modify (fun s => mkState (x_heap s) (x_mem s) fs (x_c s) (x_calls s) (x_serial s)).

Definition hex_digit (d : Z) : Z := if d <? 10 then 48 + d else 97 + (d - 10).

(** [for i in (2..10).rev()]: [i + 1] is [i1] in the first turn. *)
Fixpoint hex_loop (n : nat) (i1 : nat) (val : Z) (buf : list Z) : outcome (list Z) :=
  match n with
  | O => Ret buf
  | S n' =>
      buf ← arr_set buf (pred i1) (hex_digit (val .& 0xF)%W);
      hex_loop n' (pred i1) (val >>. 4)%W buf
  end.

(** The zero byte behind the digits ends the string. *)
Definition serial_write_hex (value : Z) : M (ext2 C) unit :=
  buf ← lift (hex_loop 8 10 value (bytes "0x00000000" ++ [0]));
  serial_write (take 10 buf).

Definition new : Ext2Fs := mkExt2 false 0.

Definition mount (dev : Z) : M (ext2 C) Z :=
  _ ← serial_write (bytes "[EXT2-RS] Mounting ext2 filesystem on device ");
  _ ← serial_write_hex (u64 dev);
  _ ← serial_write [10];
  s ← get;
  let device := blockdev_get dev (x_c s) in
  if device =? 0 then
    _ ← serial_write (bytes "[EXT2-RS] Invalid device" ++ [10]);
    mret (-1)
  else
    result ← call_c (C_init device);
    _ ← (if result =? 0 then
           _ ← set_fs (mkExt2 true dev);
           serial_write (bytes "[EXT2-RS] ext2 filesystem mounted successfully" ++ [10])
         else serial_write (bytes "[EXT2-RS] Failed to mount ext2 filesystem" ++ [10]));
    mret result.

(** [if !self.mounted { return none }]. *)
Definition when_mounted {A} (none : A) (k : M (ext2 C) A) : M (ext2 C) A :=
  s ← get; if negb (mounted (x_fs s)) then mret none else k.

Definition unmount : M (ext2 C) Z :=
  when_mounted (-1) (
    _ ← serial_write (bytes "[EXT2-RS] Unmounting ext2 filesystem" ++ [10]);
    _ ← set_fs (mkExt2 false 0);
    mret 0).

(** Paths are the pointers of their [&str], buffers pointer and length. *)
Definition open (path : Z) : M (ext2 C) Z := when_mounted (-1) (call_c (C_open path 0)).
Definition read (path buf len : Z) : M (ext2 C) Z := when_mounted (-1) (call_c (C_read path buf (i32 len))).
Definition write (path data len : Z) : M (ext2 C) Z := when_mounted (-1) (call_c (C_write path data (i32 len))).
Definition mkdir (path : Z) : M (ext2 C) Z := when_mounted (-1) (call_c (C_mkdir path)).
Definition rmdir (path : Z) : M (ext2 C) Z := when_mounted (-1) (call_c (C_rmdir path)).
Definition unlink (path : Z) : M (ext2 C) Z := when_mounted (-1) (call_c (C_unlink path)).

(** [*stat_buf.add(i)]. *)
Definition word_at (p i : Z) : M (ext2 C) Z := b ← load (p + 8 * i) 8; mret (le_word b).

(** The fields as the Rust side reads them: ten words. *)
Definition read_stat (p : Z) : M (ext2 C) FileStat :=
  dev ← word_at p 0;
  ino ← word_at p 1;
  mode ← word_at p 2;
  nlink ← word_at p 3;
  uid ← word_at p 4;
  gid ← word_at p 5;
  size ← word_at p 6;
  atime ← word_at p 7;
  mtime ← word_at p 8;
  ctime ← word_at p 9;
  mret (mkFileStat dev ino (u16 mode) (u16 nlink) (u16 uid) (u16 gid) size atime mtime ctime).

Definition stat (path : Z) : M (ext2 C) (option FileStat) :=
  when_mounted None (
    stat_buf ← kmalloc 80;
    r ← call_c (C_stat path stat_buf);
    if r =? 0 then
      st ← read_stat stat_buf;
      _ ← kfree stat_buf;
      mret (Some st)
    else
      _ ← kfree stat_buf;
      mret None).

(** The public functions work on the static [EXT2_FS]. *)
Definition ext2_init : M (ext2 C) unit := set_fs new.
Definition ext2_mount (dev : Z) : M (ext2 C) Z := mount dev.
Definition ext2_unmount : M (ext2 C) Z := unmount.
Definition ext2_open (path : Z) : M (ext2 C) Z := open path.
Definition ext2_read (path buf len : Z) : M (ext2 C) Z := read path buf len.
Definition ext2_write (path data len : Z) : M (ext2 C) Z := write path data len.
Definition ext2_mkdir (path : Z) : M (ext2 C) Z := mkdir path.
Definition ext2_rmdir (path : Z) : M (ext2 C) Z := rmdir path.
Definition ext2_unlink (path : Z) : M (ext2 C) Z := unlink path.
Definition ext2_stat (path : Z) : M (ext2 C) (option FileStat) := stat path.

(** A line of the test's report. *)
Definition report (label : string) (value : Z) : M (ext2 C) unit :=
  _ ← serial_write (bytes label);
  _ ← serial_write_hex value;
  serial_write [10].

(** Print the first [n] bytes of the array of 256 bytes at [p]; a zero byte prints
    nothing and an index out of range panics. *)
Fixpoint print_bytes (n : nat) (p : Z) (i : nat) : M (ext2 C) unit :=
  match n with
  | O => mret tt
  | S n' =>
      buf ← load p 256;
      b ← lift (arr_get buf i);
      _ ← serial_write (if b =? 0 then [] else [b]);
      print_bytes n' p (S i)
  end.

(** The literals of the test are at [test_path], [test_data] and [test_dir], its
    array at [read_buf]. *)
Definition ext2_test (test_path test_data test_dir read_buf : Z) : M (ext2 C) unit :=
  _ ← serial_write (bytes "[EXT2-RS] Testing ext2 filesystem functionality" ++ [10]);
  mount_result ← ext2_mount 0;
  _ ← report "[EXT2-RS] Mount result: " (u64 mount_result);
  _ ← (if mount_result =? 0 then
         write_result ← ext2_write test_path test_data 27;
         _ ← report "[EXT2-RS] Write result: " (u64 write_result);
         _ ← store read_buf (replicate 256 0);
         read_result ← ext2_read test_path read_buf 256;
         _ ← report "[EXT2-RS] Read result: " (u64 read_result);
         _ ← (if 0 <? read_result then
                _ ← serial_write (bytes "[EXT2-RS] Read data: ");
                _ ← print_bytes (Z.to_nat read_result) read_buf 0;
                serial_write [10]
              else mret tt);
         mkdir_result ← ext2_mkdir test_dir;
         _ ← report "[EXT2-RS] Mkdir result: " (u64 mkdir_result);
         r ← ext2_stat test_path;
         _ ← match r with
             | Some st => report "[EXT2-RS] File size: " (st_size st)
             | None => mret tt
             end;
         _ ← ext2_unmount;
         mret tt
       else mret tt);
  serial_write (bytes "[EXT2-RS] ext2 filesystem test completed" ++ [10]).

End operations.

(** ** The [struct stat] of the C code

    What [ext2_vfs_stat] stores for an inode: 56 bytes. *)
Record inode := mkInode {
  i_mode : Z; i_uid : Z; i_gid : Z; i_links_count : Z; i_size : Z; i_atime : Z; i_mtime : Z; i_ctime : Z
}.

Definition c_stat (ino : Z) (n : inode) : list Z :=
  le_bytes 8 1 ++ le_bytes 8 ino ++
  le_bytes 2 (i_mode n) ++ le_bytes 2 (i_links_count n) ++ le_bytes 2 (i_uid n) ++ le_bytes 2 (i_gid n) ++
  le_bytes 8 (i_size n) ++ le_bytes 8 (i_atime n) ++ le_bytes 8 (i_mtime n) ++ le_bytes 8 (i_ctime n).

(** ** The front as a machine

    The calls that do not need memory of their own. *)
Inductive file_op :=
| FOpen (path : Z)
| FRead (path buf len : Z)
| FWrite (path data len : Z)
| FMkdir (path : Z)
| FRmdir (path : Z)
| FUnlink (path : Z).

Inductive ext2_op :=
| OInit
| OMount (dev : Z)
| OUnmount
| OFile (f : file_op).

(** The call of the C code behind a file operation. *)
Definition c_call (f : file_op) : c_fn :=
  match f with
  | FOpen path => C_open path 0
  | FRead path buf len => C_read path buf (i32 len)
  | FWrite path data len => C_write path data (i32 len)
  | FMkdir path => C_mkdir path
  | FRmdir path => C_rmdir path
  | FUnlink path => C_unlink path
  end.

Definition mounted_device (fs : Ext2Fs) : option Z := if mounted fs then Some (device_id fs) else None.

Section machine.

Context {C : Type} (run_c : c_fn -> heap -> mem -> C -> Z * heap * mem * C) (blockdev_get : Z -> C -> Z).

(** The specification.  Its state is the mounted device, if any, and the world of the C
    code: heap, memory and the state [C].  [front_step o (dev, w) calls r (dev', w')]: the
    operation [o] makes the C code do [calls], one after the other from [w] to [w'], and
    returns [r]. *)
Abbreviation world := (heap * mem * C)%type.

Definition c_runs (f : c_fn) (w : world) (r : Z) (w' : world) : Prop := run_c f w.1.1 w.1.2 w.2 = (r, w'.1.1, w'.1.2, w'.2).

Inductive front_step : ext2_op -> option Z * world -> list c_fn -> Z -> option Z * world -> Prop :=
| FS_init dev w : front_step OInit (dev, w) [] 0 (None, w)
| FS_mount_no_device dev w d :
    blockdev_get d w.2 = 0 -> front_step (OMount d) (dev, w) [] (-1) (dev, w)
| FS_mount dev w d w' :
    blockdev_get d w.2 <> 0 -> c_runs (C_init (blockdev_get d w.2)) w 0 w' ->
    front_step (OMount d) (dev, w) [C_init (blockdev_get d w.2)] 0 (Some d, w')
| FS_mount_fails dev w d r w' :
    blockdev_get d w.2 <> 0 -> c_runs (C_init (blockdev_get d w.2)) w r w' -> r <> 0 ->
    front_step (OMount d) (dev, w) [C_init (blockdev_get d w.2)] r (dev, w')
| FS_unmount d w : front_step OUnmount (Some d, w) [] 0 (None, w)
| FS_unmount_none w : front_step OUnmount (None, w) [] (-1) (None, w)
| FS_file d w f r w' : c_runs (c_call f) w r w' -> front_step (OFile f) (Some d, w) [c_call f] r (Some d, w')
| FS_file_none w f : front_step (OFile f) (None, w) [] (-1) (None, w).

Inductive front_run : list ext2_op -> option Z * world -> list c_fn -> list Z -> option Z * world -> Prop :=
| FR_nil a : front_run [] a [] [] a
| FR_cons o os a calls r a1 calls' rs a2 :
    front_step o a calls r a1 -> front_run os a1 calls' rs a2 -> front_run (o :: os) a (calls ++ calls') (r :: rs) a2.

(** What the specification sees of a state. *)
Definition front_of (s : ext2 C) : option Z * world := (mounted_device (x_fs s), (x_heap s, x_mem s, x_c s)).

Definition run_file (f : file_op) : M (ext2 C) Z :=
  match f with
  | FOpen path => ext2_open run_c path
  | FRead path buf len => ext2_read run_c path buf len
  | FWrite path data len => ext2_write run_c path data len
  | FMkdir path => ext2_mkdir run_c path
  | FRmdir path => ext2_rmdir run_c path
  | FUnlink path => ext2_unlink run_c path
  end.

Definition run_ext2 (o : ext2_op) : M (ext2 C) Z :=
  match o with
  | OInit => _ ← ext2_init; mret 0
  | OMount dev => ext2_mount run_c blockdev_get dev
  | OUnmount => ext2_unmount
  | OFile f => run_file f
  end.

Fixpoint run_ext2_ops (os : list ext2_op) : M (ext2 C) (list Z) :=
  match os with
  | [] => mret []
  | o :: os => r ← run_ext2 o; rs ← run_ext2_ops os; mret (r :: rs)
  end.

(** The printer keeps inside its buffer. *)
Lemma hex_loop_fits n i1 val buf : (n <= i1)%nat -> (i1 <= length buf)%nat -> exists buf', hex_loop n i1 val buf = Ret buf'.
Proof.
  revert i1 val buf. induction n as [|n IH]; intros i1 val buf H1 H2; cbn [hex_loop]; [by exists buf|].
  rewrite arr_set_ok by lia. cbn [mbind outcome_bind_inst outcome_bind]. apply IH; [lia|]. rewrite length_insert. lia.
Qed.

Lemma serial_write_hex_ok v (s : ext2 C) :
  exists t, serial_write_hex v s = Ret (tt, mkState (x_heap s) (x_mem s) (x_fs s) (x_c s) (x_calls s) (x_serial s ++ t)).
Proof.
  destruct (hex_loop_fits 8 10 v (bytes "0x00000000" ++ [0])) as [buf E]; [lia|cbn; lia|]. exists (take 10 buf).
  unfold serial_write_hex. by rewrite (M_bind_Ret _ _ s buf s) by (unfold lift; by rewrite E).
Qed.

Lemma call_c_ok f (s : ext2 C) :
  exists r w, call_c run_c f s = Ret (r, mkState w.1.1 w.1.2 (x_fs s) w.2 (x_calls s ++ [f]) (x_serial s)) /\ c_runs f (front_of s).2 r w.
Proof. unfold call_c, c_runs. cbn [front_of fst snd]. destruct (run_c _ _ _ _) as [[[r h] m] c]. by exists r, (h, m, c). Qed.

(** What a step has to show. *)
Definition steps (o : ext2_op) (c : M (ext2 C) Z) (s : ext2 C) : Prop :=
  exists r s' calls, c s = Ret (r, s') /\ x_calls s' = x_calls s ++ calls /\ front_step o (front_of s) calls r (front_of s').

Lemma file_step f (s : ext2 C) : steps (OFile f) (run_file f) s.
Proof.
  assert (steps (OFile f) (when_mounted (-1) (call_c run_c (c_call f))) s) as Hw by (
    unfold steps, when_mounted; rewrite (M_bind_Ret _ _ s s s) by done; destruct (mounted (x_fs s)) eqn:Em; cbn [negb];
    [destruct (call_c_ok (c_call f) s) as (r & w & E & Hr); rewrite E; eexists r, _, [c_call f]; split; [reflexivity|]; split; [done|];
     unfold front_of, mounted_device in *; cbn [x_fs x_heap x_mem x_c snd] in *; rewrite Em; destruct w as [[h m] c]; by apply FS_file
    |exists (-1), s, []; rewrite app_nil_r; unfold front_of, mounted_device; rewrite Em; split; [done|]; split; [done|apply FS_file_none]]).
  by destruct f.
Qed.

Lemma mount_step dev (s : ext2 C) : steps (OMount dev) (mount run_c blockdev_get dev) s.
Proof.
  unfold steps, mount. erewrite M_bind_Ret by reflexivity. set (s1 := mkState _ _ _ _ _ _).
  destruct (serial_write_hex_ok (u64 dev) s1) as [t E]. rewrite (M_bind_Ret _ _ _ _ _ E). erewrite M_bind_Ret by reflexivity.
  set (s2 := mkState _ _ _ _ _ _). rewrite (M_bind_Ret _ _ s2 s2 s2) by done. cbn zeta. change (x_c s2) with (x_c s). change (front_of s) with (front_of s2).
  destruct (Z.eqb_spec (blockdev_get dev (x_c s)) 0) as [Hz|Hnz].
  - eexists (-1), _, []. split; [reflexivity|]. cbn [x_calls]. rewrite app_nil_r. split; [done|]. by apply FS_mount_no_device.
  - destruct (call_c_ok (C_init (blockdev_get dev (x_c s))) s2) as (r & [[h m] c] & E2 & Hr). rewrite (M_bind_Ret _ _ _ _ _ E2).
    destruct (Z.eqb_spec r 0) as [->|Er].
    + eexists 0, _, [C_init _]. split; [reflexivity|]. split; [reflexivity|]. exact (FS_mount _ (front_of s2).2 dev (h, m, c) Hnz Hr).
    + eexists r, _, [C_init _]. split; [reflexivity|]. split; [reflexivity|]. exact (FS_mount_fails _ (front_of s2).2 dev r (h, m, c) Hnz Hr Er).
Qed.

Lemma ext2_step o (s : ext2 C) : steps o (run_ext2 o) s.
Proof.
  destruct o as [|dev| |f]; cbn [run_ext2].
  - eexists 0, _, []. split; [reflexivity|]. rewrite app_nil_r. split; [done|]. apply FS_init.
  - apply mount_step.
  - unfold steps, ext2_unmount, unmount, when_mounted. rewrite (M_bind_Ret _ _ s s s) by done. destruct (mounted (x_fs s)) eqn:Em; cbn [negb].
    + eexists 0, _, []. split; [reflexivity|]. rewrite app_nil_r. split; [done|]. unfold front_of, mounted_device. rewrite Em. apply FS_unmount.
    + exists (-1), s, []. rewrite app_nil_r. split; [done|]. split; [done|]. unfold front_of, mounted_device. rewrite Em. apply FS_unmount_none.
  - apply file_step.
Qed.

End machine.

(** ** [stat] *)
Section stat.

Context {C : Type} (run_c : c_fn -> heap -> mem -> C -> Z * heap * mem * C) (heap_base : Z) (Hbase : base_ok heap_base).

(** What is relied on of [ext2_vfs_stat]: it gives back the memory it takes, and
    refuses a null pointer. *)
Record stat_frees (path : Z) : Prop := {
  sf_heap buf h m c r h' m' c' segs :
    run_c (C_stat path buf) h m c = (r, h', m', c') -> heap_inv heap_base h segs -> exists segs', heap_inv heap_base h' segs' /\ live heap_base segs' ≡ₚ live heap_base segs;
  sf_dom buf h m c r h' m' c' : run_c (C_stat path buf) h m c = (r, h', m', c') -> dom m' = dom m;
  sf_null h m c r h' m' c' : run_c (C_stat path 0) h m c = (r, h', m', c') -> r <> 0
}.

(** Word [i] of a list of bytes, and the fields read from ten words. *)
Definition word (l : list Z) (i : nat) : Z := le_word (take 8 (drop (8 * i) l)).

Definition stat_words (l : list Z) : FileStat :=
  mkFileStat (word l 0) (word l 1) (u16 (word l 2)) (u16 (word l 3)) (u16 (word l 4)) (u16 (word l 5)) (word l 6) (word l 7) (word l 8) (word l 9).

Lemma word_at_ok p k l (s : ext2 C) :
  bytes_at (x_mem s) p l -> 0 <= k -> 8 * k + 8 <= Z.of_nat (length l) -> word_at p k s = Ret (word l (Z.to_nat k), s).
Proof.
  intros Hb Hk Hl. rewrite <- (take_drop (8 * Z.to_nat k) l) in Hb. apply bytes_at_app in Hb as [_ Hb].
  rewrite <- (take_drop 8 (drop _ l)) in Hb. apply bytes_at_app in Hb as [Hb _]. apply load_bytes_ok in Hb.
  rewrite !length_take, length_drop in Hb. replace (_ + Z.of_nat _) with (p + 8 * k) in Hb by lia.
  replace (8 `min` _)%nat with 8%nat in Hb by lia. unfold word_at, load, mbind, M_bind_inst. cbn [st_mem ext2_heap_state]. by rewrite Hb.
Qed.

Lemma read_stat_ok p l (s : ext2 C) : bytes_at (x_mem s) p l -> length l = 80%nat -> read_stat p s = Ret (stat_words l, s).
Proof.
  intros Hb Hl. unfold read_stat.
  do 10 (erewrite M_bind_Ret by (apply (word_at_ok _ _ l); [exact Hb|lia|rewrite Hl; lia])). done.
Qed.

(** [stat] always returns and gives its block back; what it returns is what the C
    code left in the block. *)
Lemma stat_ok path (s : ext2 C) segs :
  mounted (x_fs s) = true -> heap_ready heap_base s segs -> stat_frees path ->
  exists buf h1 r h2 m2 c2 res s' segs', run_c (C_stat path buf) h1 (x_mem s) (x_c s) = (r, h2, m2, c2) /\
    (has_room segs 80 -> buf <> 0 /\ mapped (x_mem s) buf 80) /\
    stat run_c path s = Ret (res, s') /\ heap_ready heap_base s' segs' /\ live heap_base segs' ≡ₚ live heap_base segs /\
    x_fs s' = x_fs s /\ x_calls s' = x_calls s ++ [C_stat path buf] /\
    if r =? 0 then exists l, length l = 80%nat /\ bytes_at m2 buf l /\ res = Some (stat_words l) else res = None.
Proof.
  intros Hm Hr [Hheap Hdom Hnull]. assert (owned heap_base segs [] (live heap_base segs)) as Ho by by apply owned_nil.
  destruct (kmalloc_owned heap_base Hbase 80 s segs _ _ Hr Ho) as (buf & h1 & segs1 & E1 & Hr1 & Ho1); [lia..|].
  assert (has_room segs 80 -> buf <> 0) as Hroom.
  { intros Hrm. destruct (kmalloc_room heap_base Hbase (st_heap s) segs 80 (hr_inv _ _ _ Hr) Hrm) as (p & h & E & Hp); [lia..|].
    unfold kmalloc in E1. rewrite E in E1. cbn in E1. by injection E1 as <-. }
  set (s1 := with_hm h1 (st_mem s) s) in *. destruct (run_c (C_stat path buf) h1 (x_mem s) (x_c s)) as [[[r h2] m2] c2] eqn:Ec.
  set (s2 := mkState h2 m2 (x_fs s) c2 (x_calls s ++ [C_stat path buf]) (x_serial s)).
  assert (call_c run_c (C_stat path buf) s1 = Ret (r, s2)) as E2 by (unfold call_c; cbn [s1 with_hm ext2_heap_state x_heap x_mem x_c st_mem]; by rewrite Ec).
  destruct (Hheap _ _ _ _ _ _ _ _ segs1 Ec (hr_inv _ _ _ Hr1)) as (segs2 & Hi2 & Hl2). pose proof (Hdom _ _ _ _ _ _ _ _ Ec) as Hd2.
  assert (heap_ready heap_base s2 segs2) as Hr2.
  { constructor; [exact Hi2|]. cbn. apply within_mapped. rewrite Hd2. apply within_mapped, (hr_mapped _ _ _ Hr). }
  assert (owned heap_base segs2 (if buf =? 0 then [] else [(buf, 80)]) (live heap_base segs)) as Ho2.
  { destruct Ho1 as (bs & Hl & Hf). exists bs. split; [by rewrite Hl2|done]. }
  assert (buf <> 0 -> mapped m2 buf 80) as Hmap.
  { intros Hne. rewrite (proj2 (Z.eqb_neq buf 0)) in Ho2 by done. destruct (owned_regions heap_base s2 segs2 _ _ Hr2 Ho2) as [_ Hin].
    apply Forall_cons in Hin as [Hin _]. by apply within_mapped in Hin. }
  assert (exists h3 segs3, kfree buf s2 = Ret (tt, with_hm h3 (st_mem s2) s2) /\ heap_ready heap_base (with_hm h3 (st_mem s2) s2) segs3 /\
    live heap_base segs3 ≡ₚ live heap_base segs) as (h3 & segs3 & E3 & Hr3 & Hl3).
  { destruct (Z.eqb_spec buf 0) as [->|Hne].
    - exists h2, segs2. split; [done|]. split; [exact Hr2|by apply owned_nil].
    - destruct (kfree_owned heap_base Hbase _ _ s2 segs2 _ _ Hr2 Ho2) as (h3 & segs3 & E3 & Hr3 & Ho3). exists h3, segs3.
      split; [done|]. split; [done|by apply owned_nil]. }
  exists buf, h1, r, h2, m2, c2. unfold stat, when_mounted. rewrite (M_bind_Ret _ _ s s s), Hm by done. cbn [negb].
  rewrite (M_bind_Ret _ _ _ _ _ E1), (M_bind_Ret _ _ _ _ _ E2). destruct (Z.eqb_spec r 0) as [Hr0|Hr0].
  - assert (buf <> 0) as Hne by (intros ->; by apply Hnull in Ec). destruct (mapped_load m2 buf 80) as [l El]; [by apply Hmap|].
    apply load_bytes_inv in El as [Hll Hb]. rewrite (M_bind_Ret _ _ _ _ _ (read_stat_ok buf l s2 Hb Hll)), (M_bind_Ret _ _ _ _ _ E3).
    eexists (Some (stat_words l)), _, segs3. split; [done|]. split; [intros _; split; [done|]; apply within_mapped; rewrite <- Hd2; by apply within_mapped, Hmap|].
    split; [reflexivity|]. split; [done|]. split; [done|]. split; [done|]. split; [done|]. by exists l.
  - rewrite (M_bind_Ret _ _ _ _ _ E3). eexists None, _, segs3. split; [done|].
    split; [|done]. intros Hrm. split; [by apply Hroom|]. apply within_mapped. rewrite <- Hd2. by apply within_mapped, Hmap, Hroom.
Qed.

(** What the words of the C code's structure mean to the reader. *)
Lemma word_le8 l i v : take 8 (drop (8 * i) l) = le_bytes 8 v -> word l i = v mod 2 ^ 64.
Proof. intros E. unfold word. rewrite E. apply (le_word_bytes 8). Qed.

End stat.

(** ** The properties *)

(** C20. The front implements its specification: over every sequence of
    initialisations, mounts, unmounts and file operations, whatever the C code does,
    all calls return.  A mount asks for the block device; without one it returns -1 and
    the C code sees nothing, with one it returns what [ext2_c_init] returned and the
    device is mounted exactly when that was 0.  A file operation while a device is
    mounted is one call of the C function with the caller's pointers, whose result is
    returned and whose effects on heap, memory and the C code's own state are the only
    ones; while none is mounted it returns -1 and the C code sees nothing.  The calls
    the C code sees are those of the specification, in their order. *)
Theorem ext2_front_refines {C} (run_c : c_fn -> heap -> mem -> C -> Z * heap * mem * C) blockdev_get os s :
  exists rs s' calls, run_ext2_ops run_c blockdev_get os s = Ret (rs, s') /\ x_calls s' = x_calls s ++ calls /\
    front_run run_c blockdev_get os (front_of s) calls rs (front_of s').
Proof.
  revert s. induction os as [|o os IH]; intros s; cbn [run_ext2_ops].
  - exists [], s, []. rewrite app_nil_r. split; [done|]. split; [done|constructor].
  - destruct (ext2_step run_c blockdev_get o s) as (r & s1 & c1 & E1 & Hc1 & H1). destruct (IH s1) as (rs & s2 & c2 & E2 & Hc2 & H2).
    rewrite (M_bind_Ret _ _ _ _ _ E1), (M_bind_Ret _ _ _ _ _ E2). exists (r :: rs), s2, (c1 ++ c2). split; [done|].
    split; [by rewrite Hc2, Hc1, app_assoc|]. by econstructor.
Qed.

(** C29. [ext2_stat] never faults and never leaks: with C code that returns what it
    allocates and refuses a null pointer, a call while mounted returns, also when the
    heap is full (the null pointer of the failed allocation goes to the C code, whose
    refusal makes the result [None]), and exactly the blocks of before are allocated
    afterwards; while nothing is mounted the result is [None] and nothing changes. *)
Theorem ext2_stat_returns {C} (run_c : c_fn -> heap -> mem -> C -> Z * heap * mem * C) heap_base path s segs :
  base_ok heap_base -> heap_ready heap_base s segs -> stat_frees run_c heap_base path ->
  exists res s' segs', ext2_stat run_c path s = Ret (res, s') /\ heap_ready heap_base s' segs' /\ live heap_base segs' ≡ₚ live heap_base segs /\
    x_fs s' = x_fs s /\ if mounted (x_fs s) then exists buf, x_calls s' = x_calls s ++ [C_stat path buf] else res = None /\ s' = s.
Proof.
  intros Hb Hr Hf. destruct (mounted (x_fs s)) eqn:Hm.
  - destruct (stat_ok run_c heap_base Hb path s segs Hm Hr Hf) as (buf & _ & _ & _ & _ & _ & res & s' & segs' & _ & _ & E & Hr' & Hl & Hfs & Hc & _).
    exists res, s', segs'. split; [exact E|]. split; [done|]. split; [done|]. split; [done|by exists buf].
  - exists None, s, segs. split; [|done]. unfold ext2_stat, stat, when_mounted. rewrite (M_bind_Ret _ _ s s s), Hm by done. done.
Qed.

(** C code that stores the structure of a fixed inode. *)
Definition demo_inode : inode := mkInode 0x81A4 0 0 1 27 1000 2000 3000.

Definition demo_c (f : c_fn) (h : heap) (m : mem) (c : unit) : Z * heap * mem * unit :=
  match f with
  | C_stat _ buf =>
      if buf =? 0 then (-1, h, m, c)
      else match store_bytes m buf (c_stat 12 demo_inode) with Ret m' => (0, h, m', c) | _ => (-1, h, m, c) end
  | _ => (0, h, m, c)
  end.

Definition demo_ext2 : ext2 unit := mkState (init_heap 4096) demo_mem (mkExt2 true 0) tt [] [].

Lemma demo_ext2_ready : heap_ready 4096 demo_ext2 [(HEAP_SIZE - BLOCK_HEADER, true)].
Proof. constructor; [apply init_heap_inv; exact base_ok_4096|exact demo_mem_array]. Qed.

Lemma demo_c_frees path : stat_frees demo_c 4096 path.
Proof.
  constructor; unfold demo_c.
  - intros buf h m c r h' m' c' segs E Hi. destruct (buf =? 0); [|destruct (store_bytes _ _ _)]; injection E as _ <- _ _; by exists segs.
  - intros buf h m c r h' m' c' E. destruct (buf =? 0); [|destruct (store_bytes _ _ _) eqn:Es]; injection E as _ _ <- _; [done| |done..].
    by eapply store_bytes_dom.
  - intros h m c r h' m' c' E. rewrite Z.eqb_refl in E. by injection E as <- _ _ _.
Qed.

Lemma ext2_stat_returns_witness : exists res s', ext2_stat demo_c 0 demo_ext2 = Ret (res, s').
Proof.
  destruct (ext2_stat_returns demo_c 4096 0 demo_ext2 _ base_ok_4096 demo_ext2_ready (demo_c_frees 0)) as (res & s' & _ & E & _).
  exists res, s'. exact E.
Defined.

Record inode_ok (n : inode) : Prop := {
  io_mode : 0 <= i_mode n < 2 ^ 16;
  io_ctime : 0 <= i_ctime n < 2 ^ 32
}.

(** The first 56 bytes are the structure. *)
Lemma stat_prefix m buf ino n l :
  bytes_at m buf (c_stat ino n) -> bytes_at m buf l -> length l = 80%nat -> l = c_stat ino n ++ drop 56 l.
Proof.
  intros Hc Hb Hl. rewrite <- (take_drop 56 l) at 1. f_equal. assert (length (c_stat ino n) = 56%nat) as Hlen by done.
  apply list_eq_same_length with 56%nat; [done|rewrite length_take; lia|]. intros i x y Hi Hx Hy.
  apply lookup_take_Some in Hx as [Hx _]. apply Hb in Hx. apply Hc in Hy. congruence.
Qed.

(** [ext2_stat] misreads the structure of the C code: that one has four 16-bit
    fields in its third word and takes 56 bytes, while the Rust side reads ten words.
    Device, inode number and mode arrive; the link count is the size, the owner the
    access time and the group the modification time (all cut to 16 bits), the size is
    the time of change, and the times come from memory nobody has written. *)
Theorem ext2_stat_misreads {C} (run_c : c_fn -> heap -> mem -> C -> Z * heap * mem * C) heap_base path s segs ino n :
  base_ok heap_base -> heap_ready heap_base s segs -> stat_frees run_c heap_base path -> has_room segs 80 -> mounted (x_fs s) = true ->
  (forall buf h m c r h' m' c', buf <> 0 -> mapped m buf 80 -> run_c (C_stat path buf) h m c = (r, h', m', c') -> r = 0 /\ bytes_at m' buf (c_stat ino n)) ->
  0 <= ino < 2 ^ 32 -> inode_ok n ->
  exists st s', ext2_stat run_c path s = Ret (Some st, s') /\ st_dev st = 1 /\ st_ino st = ino /\ st_mode st = i_mode n /\
    st_nlink st = u16 (i_size n) /\ st_uid st = u16 (i_atime n) /\ st_gid st = u16 (i_mtime n) /\ st_size st = i_ctime n.
Proof.
  intros Hb Hr Hf Hroom Hm Hc Hino [Hmode Hct].
  destruct (stat_ok run_c heap_base Hb path s segs Hm Hr Hf) as (buf & h1 & r & h2 & m2 & c2 & res & s' & segs' & Ec & Hmap & E & _ & _ & _ & _ & Hres).
  destruct (Hmap Hroom) as [Hne Hmp]. destruct (Hc _ _ _ _ _ _ _ _ Hne Hmp Ec) as [-> Hst]. cbn [Z.eqb] in Hres. destruct Hres as (l & Hl & Hbl & ->).
  pose proof (stat_prefix _ _ _ _ _ Hst Hbl Hl) as El. exists (stat_words l), s'. split; [exact E|]. clear E. rewrite El. generalize (drop 56 l). intros rest.
  assert (forall v, wrap 16 (v mod 2 ^ 64) = u16 v) as Hw.
  { intros v. unfold wrap. change (2 ^ 64) with (2 ^ 16 * 2 ^ 48). rewrite Z.rem_mul_r by lia. rewrite (Z.mul_comm (2 ^ 16)), Z.mod_add by lia. by rewrite Z.mod_mod. }
  cbn [stat_words st_dev st_ino st_mode st_nlink st_uid st_gid st_size].
  rewrite (word_le8 _ 0 1), (word_le8 _ 1 ino), (word_le8 _ 3 (i_size n)), (word_le8 _ 4 (i_atime n)), (word_le8 _ 5 (i_mtime n)), (word_le8 _ 6 (i_ctime n)) by done.
  rewrite !Hw, (Z.mod_small ino), (Z.mod_small (i_ctime n)) by lia. split; [done|]. split; [done|]. split; [|done].
  unfold word. change (take 8 (drop (8 * 2) (c_stat ino n ++ rest))) with
    (le_bytes 2 (i_mode n) ++ le_bytes 2 (i_links_count n) ++ le_bytes 2 (i_uid n) ++ le_bytes 2 (i_gid n)).
  rewrite le_word_app, le_word_bytes, le_bytes_length. unfold wrap. change (2 ^ (8 * Z.of_nat 2)) with (2 ^ 16). rewrite (Z.mul_comm (2 ^ 16)), Z.mod_add, Z.mod_mod by lia. by apply Z.mod_small.
Qed.

Lemma demo_c_stores path buf h m c r h' m' c' :
  buf <> 0 -> mapped m buf 80 -> demo_c (C_stat path buf) h m c = (r, h', m', c') -> r = 0 /\ bytes_at m' buf (c_stat 12 demo_inode).
Proof.
  intros Hne Hm E. unfold demo_c in E. rewrite (proj2 (Z.eqb_neq buf 0)) in E by done.
  destruct (store_bytes_ok m buf (c_stat 12 demo_inode)) as (m1 & Es & Hp).
  - intros i Hi. apply Hm. assert (length (c_stat 12 demo_inode) = 56%nat) as Hlen by done. lia.
  - rewrite Es in E. injection E as <- _ <- _. split; [done|]. by apply bytes_at_patched in Hp.
Qed.

Lemma ext2_stat_misreads_witness : exists st s', ext2_stat demo_c 0 demo_ext2 = Ret (Some st, s') /\ st_nlink st = 27 /\ st_size st = 3000.
Proof.
  destruct (ext2_stat_misreads demo_c 4096 0 demo_ext2 _ 12 demo_inode base_ok_4096 demo_ext2_ready (demo_c_frees 0))
    as (st & s' & E & _ & _ & _ & H1 & _ & _ & H2).
  - apply Exists_cons_hd. cbn. unfold HEAP_SIZE, BLOCK_HEADER. lia.
  - reflexivity.
  - exact (demo_c_stores 0).
  - lia.
  - constructor; cbn; lia.
  - exists st, s'. split; [exact E|]. split; [exact H1|exact H2].
Defined.
