(* ===== verification/Ext2Disk.v ===== *)
(** * The ext2 file system in C, [ext2.c], on the RAM disk of [blockdev.c]

    The state is the disk, what is mounted, and how many heap buffers are live.  Heap
    buffers are lists of bytes; [km n] says what the [n]-th allocation gives, nothing or
    memory with unknown contents, so that every theorem covers every pattern of
    allocation failures.  Structures are byte lists read at the offsets of [ext2.h].  A
    read or write outside a buffer, the use of freed memory and undefined arithmetic are
    [Fault]. *)

From S2P Require Import Prelude Memory.

Local Open Scope Z_scope.

(** ** Data *)
Definition RAMDISK_SIZE : Z := 8 * 1024 * 1024.
Definition BLOCKDEV_SECTOR_SIZE : Z := 512.
Definition MAX_BLOCKDEVS : Z := 4.
Definition EXT2_SUPER_MAGIC : Z := 0xEF53.
Definition EXT2_S_IFDIR : Z := 0x4000.
Definition INODE_BYTES : Z := 124.

Record ext2_fs := mkFs {
  superblock : list Z;
  group_descriptors : list Z;
  block_size : Z;
  inodes_per_group : Z;
  blocks_per_group : Z;
  group_count : Z;
  inode_size : Z;
  first_inode : Z
}.

(** The pointer [mounted_fs]: null, or to a file system, or to memory already freed. *)
Inductive mount := NotMounted | Mounted (fs : ext2_fs) | Dangling.

Record ext2_file := mkFile {
  f_inode_num : Z;
  f_inode : list Z;
  f_position : Z;
  f_size : Z;
  f_buffer : option (list Z);
  f_buffer_block : Z;
  f_buffer_dirty : bool
}.

Record cstate := mkC {
  ramdisk : gmap Z Z;
  blockdev_ready : bool;
  mounted_fs : mount;
  ext2_initialized : bool;
  allocations : nat;
  live : Z;
  output : list (list Z)
}.

Definition with_disk (d : gmap Z Z) (s : cstate) : cstate := mkC d (blockdev_ready s) (mounted_fs s) (ext2_initialized s) (allocations s) (live s) (output s).
Definition with_mount (x : mount) (s : cstate) : cstate := mkC (ramdisk s) (blockdev_ready s) x (ext2_initialized s) (allocations s) (live s) (output s).

(** Bytes of the disk; it starts out zero. *)
Definition disk_bytes (d : gmap Z Z) (off n : Z) : list Z := (fun i => default 0 (d !! (off + i))) <$> seqZ 0 n.

(** ** Buffers *)

(** [n] bytes of a buffer from [off] on, and a little-endian field. *)
Definition slice (off n : Z) (l : list Z) : outcome (list Z) :=
  if (0 <=? off) && (off + n <=? Z.of_nat (length l)) then Ret (take (Z.to_nat n) (drop (Z.to_nat off) l)) else Fault.

Definition field (n off : Z) (l : list Z) : outcome Z := b ← slice off n l; Ret (le_word b).

(** [memcpy]: it copies nothing when the length is 0 or above 1 MiB. *)
Definition memcpy_len (n : Z) : Z := if (n <=? 0) || (0x100000 <? n) then 0 else n.

Definition splice (off : Z) (src dst : list Z) : outcome (list Z) :=
  if (0 <=? off) && (off + Z.of_nat (length src) <=? Z.of_nat (length dst))
  then Ret (take (Z.to_nat off) dst ++ src ++ drop (Z.to_nat off + length src) dst) else Fault.

Section code.

Context (km : nat -> option (Z -> Z)).

Definition vga_print (l : list Z) : M cstate unit :=
  modify (fun s => mkC (ramdisk s) (blockdev_ready s) (mounted_fs s) (ext2_initialized s) (allocations s) (live s) (output s ++ [l])).
Definition serial_write := vga_print.

Definition rust_kmalloc (size : Z) : M cstate (option (list Z)) := fun s =>
  let next l := mkC (ramdisk s) (blockdev_ready s) (mounted_fs s) (ext2_initialized s) (S (allocations s)) l (output s) in
  if size =? 0 then Ret (None, s)
  else match km (allocations s) with
       | None => Ret (None, next (live s))
       | Some junk => Ret (Some (junk <$> seqZ 0 size), next (live s + 1))
       end.

Definition rust_kfree : M cstate unit :=
  modify (fun s => mkC (ramdisk s) (blockdev_ready s) (mounted_fs s) (ext2_initialized s) (allocations s) (live s - 1) (output s)).

(** ** The block device *)
Definition blockdev_init : M cstate unit :=
  _ ← serial_write [];
  _ ← vga_print [];
  _ ← serial_write [];
  modify (fun s => mkC (ramdisk s) true (mounted_fs s) (ext2_initialized s) (allocations s) (live s) (output s)).

(** Only device 0 ever gets its functions. *)
Definition blockdev_get (id : Z) (s : cstate) : option Z :=
  if (id <? 0) || (MAX_BLOCKDEVS <=? id) then None
  else if (id =? 0) && blockdev_ready s then Some id else None.

(** Where the transfer of [count] sectors lies: none when [memcpy] refuses it, which it
    also does when the sum below has wrapped around; before the array is undefined. *)
Definition transfer (sector count : Z) : outcome (option (Z * Z)) :=
  let offset := i32 (sector * BLOCKDEV_SECTOR_SIZE) in
  let n := memcpy_len (i32 (count * BLOCKDEV_SECTOR_SIZE)) in
  if (n =? 0) || (RAMDISK_SIZE <? offset) then Ret None
  else if offset <? 0 then Fault
  else Ret (Some (offset, n)).

Definition out_of_disk (sector count : Z) : bool :=
  RAMDISK_SIZE <? i32 (i32 (sector * BLOCKDEV_SECTOR_SIZE) + i32 (count * BLOCKDEV_SECTOR_SIZE)).

Definition ramdisk_read (sector count : Z) (buf : list Z) : M cstate (Z * list Z) :=
  if out_of_disk sector count then mret (-1, buf)
  else
    t ← lift (transfer sector count);
    match t with
    | None => mret (0, buf)
    | Some (offset, n) => s ← get; buf ← lift (splice 0 (disk_bytes (ramdisk s) offset n) buf); mret (0, buf)
    end.

Definition ramdisk_write (sector count : Z) (buf : list Z) : M cstate Z :=
  if out_of_disk sector count then mret (-1)
  else
    t ← lift (transfer sector count);
    match t with
    | None => mret 0
    | Some (offset, n) =>
        bs ← lift (slice 0 n buf);
        _ ← modify (fun s => with_disk (poke offset bs (ramdisk s)) s);
        mret 0
    end.

(** ** Mounting *)

(** What follows an error after [mounted_fs] has been allocated: it is freed and stays
    set. *)
Definition mount_failed (msg : list Z) (buffers : nat) : M cstate Z :=
  _ ← vga_print msg;
  _ ← serial_write msg;
  _ ← modify (fun s => mkC (ramdisk s) (blockdev_ready s) Dangling (ext2_initialized s) (allocations s) (live s - Z.of_nat buffers) (output s));
  mret (-1).

(** The parameters of the superblock.  A shift of 21 or more overflows [int]; a zero
    divisor traps. *)
Definition fs_parameters (sb : list Z) : outcome ext2_fs :=
  log ← field 4 24 sb;
  ipg ← field 4 40 sb;
  bpg ← field 4 32 sb;
  blocks ← field 4 4 sb;
  isize ← field 2 88 sb;
  first ← field 4 84 sb;
  if (21 <=? log) || (bpg =? 0) then Fault
  else Ret (mkFs sb [] (Z.shiftl 1024 log) ipg bpg (u32 (blocks + bpg - 1) / bpg) isize first).

Definition ext2_init (device : option Z) : M cstate Z :=
  match device with
  | None => _ ← vga_print (line "[EXT2] Invalid device"); mret (-1)
  | Some _ =>
      _ ← vga_print (line "[EXT2] Initializing ext2 filesystem");
      _ ← serial_write (line "[EXT2] Initializing ext2 filesystem");
      ctx ← rust_kmalloc 256;
      match ctx with
      | None =>
          _ ← modify (with_mount NotMounted);
          _ ← vga_print (line "[EXT2] Failed to allocate filesystem context");
          _ ← serial_write (line "[EXT2] Failed to allocate filesystem context");
          mret (-1)
      | Some _ =>
          '(r, sb) ← ramdisk_read 1 1 (replicate 512 0);
          if negb (r =? 0) then mount_failed (line "[EXT2] Failed to read superblock") 1
          else
            let sb := take 216 sb in
            magic ← lift (field 2 56 sb);
            if negb (magic =? EXT2_SUPER_MAGIC) then mount_failed (line "[EXT2] Invalid ext2 magic number") 1
            else
              fs ← lift (fs_parameters sb);
              let gd_size := group_count fs * 32 in
              gds ← rust_kmalloc gd_size;
              match gds with
              | None => mount_failed (line "[EXT2] Failed to allocate group descriptors") 1
              | Some gds =>
                  let gd_blocks := u32 ((gd_size + block_size fs - 1) / block_size fs) in
                  gd_buf ← rust_kmalloc (u32 (gd_blocks * block_size fs));
                  match gd_buf with
                  | None => mount_failed (line "[EXT2] Failed to allocate group descriptor buffer") 2
                  | Some gd_buf =>
                      '(r, gd_buf) ← ramdisk_read 2 (i32 gd_blocks) gd_buf;
                      if negb (r =? 0) then mount_failed (line "[EXT2] Failed to read group descriptors") 3
                      else
                        bs ← lift (slice 0 (memcpy_len gd_size) gd_buf);
                        gds ← lift (splice 0 bs gds);
                        _ ← rust_kfree;
                        _ ← modify (fun s => mkC (ramdisk s) (blockdev_ready s)
                          (Mounted (mkFs (superblock fs) gds (block_size fs) (inodes_per_group fs) (blocks_per_group fs) (group_count fs) (inode_size fs) (first_inode fs)))
                          true (allocations s) (live s) (output s));
                        _ ← vga_print (line "[EXT2] ext2 filesystem initialized successfully");
                        _ ← serial_write (line "[EXT2] ext2 filesystem initialized successfully");
                        mret 0
                  end
              end
      end
  end.

Definition ext2_c_init (device : option Z) : M cstate Z := ext2_init device.

(** ** Blocks and inodes *)
Definition ext2_read_block (fs : ext2_fs) (block_num : Z) (buf : list Z) : M cstate (Z * list Z) :=
  ramdisk_read (i32 (u32 (block_num * (block_size fs / 512)))) (i32 (block_size fs / 512)) buf.

Definition ext2_write_block (fs : ext2_fs) (block_num : Z) (buf : list Z) : M cstate Z :=
  ramdisk_write (i32 (u32 (block_num * (block_size fs / 512)))) (i32 (block_size fs / 512)) buf.

Definition ext2_inode_to_block (fs : ext2_fs) (inode_num : Z) : outcome Z :=
  if inode_num =? 0 then Ret 0
  else if inodes_per_group fs =? 0 then Fault
  else
    let group := (inode_num - 1) / inodes_per_group fs in
    let index := (inode_num - 1) mod inodes_per_group fs in
    if group_count fs <=? group then Ret 0
    else
      inode_table_block ← field 4 (32 * group + 8) (group_descriptors fs);
      Ret (u32 (inode_table_block + u32 (index * inode_size fs) / block_size fs)).

Definition inode_offset (fs : ext2_fs) (inode_num : Z) : Z :=
  u32 ((inode_num - 1) mod inodes_per_group fs * inode_size fs) mod block_size fs.

(** A buffer of one block, filled with block [n]; [None] when that failed. *)
Definition with_block {A} (fs : ext2_fs) (n : Z) (none : A) (k : list Z -> M cstate A) : M cstate A :=
  block_buf ← rust_kmalloc (block_size fs);
  match block_buf with
  | None => mret none
  | Some block_buf =>
      '(r, block_buf) ← ext2_read_block fs n block_buf;
      if negb (r =? 0) then _ ← rust_kfree; mret none
      else a ← k block_buf; _ ← rust_kfree; mret a
  end.

(** The inode read, or nothing and [-1]. *)
Definition ext2_read_inode (fs : ext2_fs) (inode_num : Z) : M cstate (option (list Z)) :=
  if inode_num =? 0 then mret None
  else
    inode_block ← lift (ext2_inode_to_block fs inode_num);
    if inode_block =? 0 then mret None
    else with_block fs inode_block None (fun block_buf =>
      inode ← lift (slice (inode_offset fs inode_num) INODE_BYTES block_buf); mret (Some inode)).

Definition ext2_write_inode (fs : ext2_fs) (inode_num : Z) (inode : list Z) : M cstate Z :=
  if inode_num =? 0 then mret (-1)
  else
    inode_block ← lift (ext2_inode_to_block fs inode_num);
    if inode_block =? 0 then mret (-1)
    else with_block fs inode_block (-1) (fun block_buf =>
      block_buf ← lift (splice (inode_offset fs inode_num) inode block_buf);
      ext2_write_block fs inode_block block_buf).

Definition i_mode (inode : list Z) : outcome Z := field 2 0 inode.
Definition i_size (inode : list Z) : outcome Z := field 4 4 inode.
Definition i_block (inode : list Z) (k : Z) : outcome Z := field 4 (40 + 4 * k) inode.

(** The block number, or [-1]. *)
Definition ext2_get_block_number (fs : ext2_fs) (inode : list Z) (block_index : Z) : M cstate (option Z) :=
  if block_index <? 12 then n ← lift (i_block inode block_index); mret (Some n)
  else if block_index <? u32 (12 + block_size fs / 4) then
    indirect_block ← lift (i_block inode 12);
    if indirect_block =? 0 then mret (Some 0)
    else with_block fs indirect_block None (fun block_array =>
      n ← lift (field 4 (4 * (block_index - 12)) block_array); mret (Some n))
  else mret None.

(** The first group with a free count; [off] is where the count is. *)
Fixpoint first_group (fs : ext2_fs) (off : Z) (n : nat) (group : Z) : outcome (option Z) :=
  match n with
  | O => Ret None
  | S n' => c ← field 2 (32 * group + off) (group_descriptors fs); if 0 <? c then Ret (Some group) else first_group fs off n' (group + 1)
  end.

Definition ext2_alloc_block (fs : ext2_fs) : outcome Z :=
  g ← first_group fs 12 (Z.to_nat (group_count fs)) 0;
  match g with
  | None => Ret 0
  | Some group => t ← field 4 (32 * group + 8) (group_descriptors fs); Ret (u32 (t + inodes_per_group fs))
  end.

Definition ext2_alloc_inode (fs : ext2_fs) : outcome Z :=
  g ← first_group fs 14 (Z.to_nat (group_count fs)) 0;
  match g with None => Ret 0 | Some group => Ret (u32 (group * inodes_per_group fs + 1)) end.

(** ** Paths *)

(** The entries of a directory block from [offset] on; the inode of the name wanted. *)
Fixpoint entry_loop (fuel : nat) (bs : Z) (dir_buf : list Z) (offset : Z) (component : list Z) : outcome (option Z) :=
  match fuel with
  | O => Timeout
  | S f =>
      if negb (offset <? bs) then Ret None
      else
        inode ← field 4 offset dir_buf;
        if inode =? 0 then Ret None
        else
          name_len ← field 1 (offset + 6) dir_buf;
          entry_name ← (if 0 <? name_len then slice (offset + 8) name_len dir_buf else Ret []);
          if (0 <? name_len) && bool_decide (until_nul entry_name = component) then Ret (Some inode)
          else
            rec_len ← field 2 (offset + 4) dir_buf;
            entry_loop f bs dir_buf (u32 (offset + rec_len)) component
  end.

(** The blocks of a directory, with the buffer [dir_buf]: [None] is an error, [Some None]
    that the name is not there. *)
Fixpoint dir_loop (fuel : nat) (fs : ext2_fs) (dir_inode : list Z) (component : list Z) (dir_buf : list Z) (block_index : Z) : M cstate (option (option Z)) :=
  match fuel with
  | O => lift Timeout
  | S f =>
      size ← lift (i_size dir_inode);
      if negb (u32 (block_index * block_size fs) <? size) then mret (Some None)
      else
        bn ← ext2_get_block_number fs dir_inode block_index;
        match bn with
        | None => mret None
        | Some block_num =>
            if block_num =? 0 then mret (Some None)
            else
              '(r, dir_buf) ← ext2_read_block fs block_num dir_buf;
              if negb (r =? 0) then mret None
              else
                found ← lift (entry_loop (S (Z.to_nat (block_size fs))) (block_size fs) dir_buf 0 component);
                match found with
                | Some inode => mret (Some (Some inode))
                | None => dir_loop f fs dir_inode component dir_buf (block_index + 1)
                end
        end
  end.

(** One component looked up in directory [current_inode]. *)
Definition lookup_component (fs : ext2_fs) (current_inode : Z) (component : list Z) : M cstate (option Z) :=
  di ← ext2_read_inode fs current_inode;
  match di with
  | None => mret None
  | Some dir_inode =>
      mode ← lift (i_mode dir_inode);
      if negb (Z.land mode 0xF000 =? EXT2_S_IFDIR) then mret None
      else
        db ← rust_kmalloc (block_size fs);
        match db with
        | None => mret None
        | Some dir_buf =>
            r ← dir_loop (Z.to_nat (14 + block_size fs / 4)) fs dir_inode component dir_buf 0;
            _ ← rust_kfree;
            mret (match r with Some (Some i) => Some i | _ => None end)
        end
  end.

(** Up to [n] bytes before the next slash, and what follows them. *)
Fixpoint next_component (n : nat) (p : list Z) : list Z * list Z :=
  match n, p with
  | S n', c :: p' => if c =? 47 then ([], p) else let (w, r) := next_component n' p' in (c :: w, r)
  | _, _ => ([], p)
  end.

Definition skip_slash (p : list Z) : list Z := match p with c :: p' => if c =? 47 then p' else p | [] => [] end.

Fixpoint path_loop (fuel : nat) (fs : ext2_fs) (current_inode : Z) (p : list Z) : M cstate (option Z) :=
  match fuel with
  | O => lift Timeout
  | S f =>
      match p with
      | [] => mret (Some current_inode)
      | _ =>
          let (component, rest) := next_component 255 p in
          if bool_decide (component = []) then path_loop f fs current_inode (skip_slash rest)
          else
            r ← lookup_component fs current_inode component;
            match r with
            | None => mret None
            | Some inode => path_loop f fs inode (skip_slash rest)
            end
      end
  end.

Definition ext2_path_to_inode (fs : ext2_fs) (path : list Z) : M cstate (option Z) :=
  let p := skip_slash path in path_loop (S (length p)) fs 2 p.

(** ** Files *)

(** The file system behind [mounted_fs], when the code dereferences it. *)
Definition with_fs {A} (none : A) (k : ext2_fs -> M cstate A) : M cstate A :=
  s ← get;
  match mounted_fs s with NotMounted => mret none | Mounted fs => k fs | Dangling => lift Fault end.

Definition ext2_open (path : list Z) : M cstate (option ext2_file) :=
  with_fs None (fun fs =>
    r ← ext2_path_to_inode fs path;
    match r with
    | None => mret None
    | Some inode_num =>
        f ← rust_kmalloc 160;
        match f with
        | None => mret None
        | Some _ =>
            i ← ext2_read_inode fs inode_num;
            match i with
            | None => _ ← rust_kfree; mret None
            | Some inode =>
                size ← lift (i_size inode);
                mret (Some (mkFile inode_num inode 0 size None 0 false))
            end
        end
    end).

Definition ext2_close (fs : ext2_fs) (file : ext2_file) : M cstate Z :=
  _ ← (match f_buffer file with
       | Some buffer => if f_buffer_dirty file then _ ← ext2_write_block fs (f_buffer_block file) buffer; mret tt else mret tt
       | None => mret tt
       end);
  _ ← (match f_buffer file with Some _ => rust_kfree | None => mret tt end);
  _ ← rust_kfree;
  mret 0.

Definition seek (file : ext2_file) (position : Z) : ext2_file :=
  mkFile (f_inode_num file) (f_inode file) position (f_size file) (f_buffer file) (f_buffer_block file) (f_buffer_dirty file).

(** The loop of [ext2_read] with the caller's buffer [dst]; the flag says whether all went
    well. *)
Fixpoint read_loop (fuel : nat) (fs : ext2_fs) (file : ext2_file) (dst : list Z) (count bytes_read : Z) : M cstate (bool * Z * list Z * ext2_file) :=
  match fuel with
  | O => lift Timeout
  | S f =>
      if negb ((bytes_read <? count) && (f_position file <? f_size file)) then mret (true, bytes_read, dst, file)
      else
        let block_index := f_position file / block_size fs in
        let block_offset := f_position file mod block_size fs in
        let n := Z.min (Z.min (block_size fs - block_offset) (count - bytes_read)) (f_size file - f_position file) in
        bn ← ext2_get_block_number fs (f_inode file) block_index;
        match bn with
        | None => mret (false, bytes_read, dst, file)
        | Some block_num =>
            bs ← (if block_num =? 0 then mret (Some (replicate (Z.to_nat (memcpy_len n)) 0))
                  else with_block fs block_num None (fun block_buf => bs ← lift (slice block_offset (memcpy_len n) block_buf); mret (Some bs)));
            match bs with
            | None => mret (false, bytes_read, dst, file)
            | Some bs =>
                dst ← lift (splice bytes_read bs dst);
                read_loop f fs (seek file (f_position file + n)) dst count (bytes_read + n)
            end
        end
  end.

(** The result, the caller's buffer and the file. *)
Definition ext2_read (fs : ext2_fs) (file : ext2_file) (dst : list Z) (count : Z) : M cstate (Z * list Z * ext2_file) :=
  if f_size file <=? f_position file then mret (0, dst, file)
  else
    '(ok, bytes_read, dst, file) ← read_loop (S (Z.to_nat (f_size file - f_position file))) fs file dst count 0;
    mret (if ok : bool then i32 bytes_read else -1, dst, file).

(** [file->inode.i_block[k] = v] and the size. *)
Definition set_inode_word (off v : Z) (inode : list Z) : outcome (list Z) := splice off (le_bytes 4 v) inode.

Fixpoint write_loop (fuel : nat) (fs : ext2_fs) (file : ext2_file) (buf : list Z) (count written : Z) : M cstate (bool * Z * ext2_file) :=
  match fuel with
  | O => lift Timeout
  | S f =>
      if negb (written <? count) then mret (true, written, file)
      else
        let block_index := f_position file / block_size fs in
        let block_offset := f_position file mod block_size fs in
        let n := Z.min (block_size fs - block_offset) (count - written) in
        bn ← ext2_get_block_number fs (f_inode file) block_index;
        match bn with
        | None => mret (false, written, file)
        | Some block_num =>
            '(block_num, inode) ←
              (if block_num =? 0 then
                 b ← lift (ext2_alloc_block fs);
                 inode ← (if (block_index <? 12) && negb (b =? 0) then lift (set_inode_word (40 + 4 * block_index) b (f_inode file)) else mret (f_inode file));
                 mret (b, inode)
               else mret (block_num, f_inode file));
            if block_num =? 0 then mret (false, written, file)
            else
              ok ← with_block fs block_num false (fun block_buf =>
                     bs ← lift (slice written (memcpy_len n) buf);
                     block_buf ← lift (splice block_offset bs block_buf);
                     r ← ext2_write_block fs block_num block_buf;
                     mret (r =? 0));
              if negb ok then mret (false, written, mkFile (f_inode_num file) inode (f_position file) (f_size file) (f_buffer file) (f_buffer_block file) (f_buffer_dirty file))
              else
                let position := u32 (f_position file + n) in
                '(size, inode) ←
                  (if f_size file <? position then inode ← lift (set_inode_word 4 position inode); mret (position, inode) else mret (f_size file, inode));
                write_loop f fs (mkFile (f_inode_num file) inode position size (f_buffer file) (f_buffer_block file) (f_buffer_dirty file)) buf count (written + n)
        end
  end.

(** The result of writing the inode is not looked at. *)
Definition ext2_write (fs : ext2_fs) (file : ext2_file) (buf : list Z) (count : Z) : M cstate (Z * ext2_file) :=
  '(ok, written, file) ← write_loop (S (length buf)) fs file buf count 0;
  if negb ok then mret (-1, file)
  else _ ← ext2_write_inode fs (f_inode_num file) (f_inode file); mret (i32 written, file).

(** ** Creation *)

(** The part before the last slash and the part behind it. *)
Fixpoint last_slash (path : list Z) : option (list Z * list Z) :=
  match path with
  | [] => None
  | c :: p =>
      match last_slash p with
      | Some (a, b) => Some (c :: a, b)
      | None => if c =? 47 then Some ([], p) else None
      end
  end.

(** [filename] is an array of 256 bytes, [parent_path] of 512. *)
Definition split_parent (path : list Z) : outcome (option (list Z * list Z)) :=
  match last_slash path with
  | Some (parent, name) =>
      if (512 <=? length parent)%nat then Ret None
      else if (256 <=? length name)%nat then Fault else Ret (Some (parent, name))
  | None => if (256 <=? length path)%nat then Fault else Ret (Some ([47], path))
  end.

(** The mode and a link count of 1; everything else is zero. *)
Definition new_inode (mode : Z) : list Z := le_bytes 2 mode ++ replicate 24 0 ++ le_bytes 2 1 ++ replicate 96 0.

Definition ext2_create_inode (path : list Z) (mode : Z) : M cstate Z :=
  with_fs (-1) (fun fs =>
    pn ← lift (split_parent path);
    match pn with
    | None => mret (-1)
    | Some (parent_path, _) =>
        pi ← ext2_path_to_inode fs parent_path;
        match pi with
        | None => mret (-1)
        | Some parent_inode =>
            pd ← ext2_read_inode fs parent_inode;
            match pd with
            | None => mret (-1)
            | Some parent_dir =>
                m ← lift (i_mode parent_dir);
                if negb (Z.land m 0xF000 =? EXT2_S_IFDIR) then mret (-1)
                else
                  n ← lift (ext2_alloc_inode fs);
                  if n =? 0 then mret (-1)
                  else
                    r ← ext2_write_inode fs n (new_inode mode);
                    mret (if negb (r =? 0) then -1 else 0)
            end
        end
    end).

(** ** The functions the Rust side calls *)
Definition ext2_vfs_mount (device : option Z) : M cstate Z := ext2_init device.

(** A file opened, used and closed. *)
Definition with_file {A} (path : list Z) (none : A) (k : ext2_fs -> ext2_file -> M cstate (A * ext2_file)) : M cstate A :=
  f ← ext2_open path;
  match f with
  | None => mret none
  | Some file => with_fs none (fun fs => '(a, file) ← k fs file; _ ← ext2_close fs file; mret a)
  end.

Definition ext2_vfs_open (path : list Z) : M cstate Z := with_file path (-1) (fun _ file => mret (0, file)).

Definition ext2_vfs_read (path dst : list Z) (max_len : Z) : M cstate (Z * list Z) :=
  with_file path (-1, dst) (fun fs file => '(r, dst, file) ← ext2_read fs file dst (u64 max_len); mret ((r, dst), file)).

Definition ext2_vfs_write (path buf : list Z) (len : Z) : M cstate Z :=
  with_file path (-1) (fun fs file => ext2_write fs file buf (u64 len)).

Definition ext2_vfs_mkdir (path : list Z) : M cstate Z := ext2_create_inode path (Z.lor EXT2_S_IFDIR 0x1ED).
Definition ext2_vfs_rmdir (path : list Z) : M cstate Z := mret (-1).
Definition ext2_vfs_unlink (path : list Z) : M cstate Z := mret (-1).

(** The fields stored in [struct stat]: device, inode, mode, links, owner, group, size
    and the times of access, change of contents and change of the inode. *)
Definition ext2_vfs_stat (path : list Z) : M cstate (option (list Z)) :=
  with_fs None (fun fs =>
    r ← ext2_path_to_inode fs path;
    match r with
    | None => mret None
    | Some inode_num =>
        i ← ext2_read_inode fs inode_num;
        match i with
        | None => mret None
        | Some n =>
            mode ← lift (field 2 0 n);
            links ← lift (field 2 26 n);
            uid ← lift (field 2 2 n);
            gid ← lift (field 2 24 n);
            size ← lift (field 4 4 n);
            atime ← lift (field 4 8 n);
            mtime ← lift (field 4 16 n);
            ctime ← lift (field 4 12 n);
            mret (Some [1; inode_num; mode; links; uid; gid; size; atime; mtime; ctime])
        end
    end).

End code.

(** ** Buffers come back

    [keeps ro m f]: when [m] returns [a], [f a] more buffers are live, the mounted file
    system is the same, and, if [ro], so is the disk. *)
Definition keeps {A} (ro : bool) (m : M cstate A) (f : A -> Z) : Prop :=
  forall s a s', m s = Ret (a, s') ->
    live s' = live s + f a /\ mounted_fs s' = mounted_fs s /\ (ro = true -> ramdisk s' = ramdisk s).

Abbreviation quiet ro m := (keeps ro m (fun _ => 0)).

Lemma keeps_ret {A} ro (a : A) f : f a = 0 -> keeps ro (mret a) f.
Proof. intros Hf s b s' E. apply mret_inv in E as [<- <-]. split; [lia|done]. Qed.

Lemma keeps_bind {A B} ro (m : M cstate A) (k : A -> M cstate B) f h :
  keeps ro m f -> (forall a, keeps ro (k a) (fun b => h b - f a)) -> keeps ro (a ← m; k a) h.
Proof.
  intros Hm Hk s b s' E. apply M_bind_inv in E as (a & s1 & E1 & E2). destruct (Hm _ _ _ E1) as (L1 & M1 & D1). destruct (Hk _ _ _ _ E2) as (L2 & M2 & D2).
  split; [lia|]. split; [congruence|]. intros Hr. rewrite D2, D1 by done. done.
Qed.

Lemma keeps_ext {A} ro (m : M cstate A) f g : keeps ro m f -> (forall a, f a = g a) -> keeps ro m g.
Proof. intros Hm Hfg s a s' E. rewrite <- Hfg. by apply Hm. Qed.

(** A step that keeps the buffers, in front of any other. *)
Lemma keeps_step {A B} ro (m : M cstate A) (k : A -> M cstate B) h :
  quiet ro m -> (forall a, keeps ro (k a) h) -> keeps ro (a ← m; k a) h.
Proof. intros Hm Hk. eapply keeps_bind; [exact Hm|]. intros a. eapply keeps_ext; [apply Hk|]. intros b. cbn. lia. Qed.

Lemma quiet_lift {A} ro (o : outcome A) : quiet ro (lift o).
Proof. intros s a s' E. unfold lift in E. destruct o; cbn in E; inv_ret; try done. split; [lia|done]. Qed.

Lemma quiet_get ro : quiet ro get.
Proof. intros s a s' E. unfold get in E. inv_ret. split; [lia|done]. Qed.

Lemma keeps_kmalloc km ro size : keeps ro (rust_kmalloc km size) (fun b => match b with Some _ => 1 | None => 0 end).
Proof.
  intros s a s' E. unfold rust_kmalloc in E. destruct (size =? 0); [|destruct (km _)]; inv_ret; cbn; (split; [lia|done]).
Qed.

Lemma keeps_kfree ro : keeps ro rust_kfree (fun _ => -1).
Proof. intros s a s' E. unfold rust_kfree, modify in E. inv_ret. cbn. split; [lia|done]. Qed.


(** A buffer taken, and given back after [k]. *)
Lemma keeps_buffer {A} km ro size (none : A) (k : list Z -> M cstate A) h :
  h none = 0 -> (forall b, keeps ro (k b) (fun a => h a - 1)) ->
  keeps ro (b ← rust_kmalloc km size; match b with None => mret none | Some b => k b end) h.
Proof.
  intros Hn Hk. eapply keeps_bind; [apply keeps_kmalloc|]. intros [b|]; cbn; [apply Hk|]. apply keeps_ret. lia.
Qed.

Lemma keeps_freed {A} ro (a : A) h : h a = -1 -> keeps ro (_ ← rust_kfree; mret a) h.
Proof. intros Ha. eapply keeps_bind; [apply keeps_kfree|]. intros []. apply keeps_ret. lia. Qed.

Create HintDb ext2 discriminated.
#[export] Hint Resolve quiet_lift quiet_get : ext2.

Lemma quiet_mret {A} ro (a : A) : quiet ro (mret a).
Proof. by apply keeps_ret. Qed.
#[export] Hint Resolve quiet_mret : ext2.

Lemma quiet_read sector count buf ro : quiet ro (ramdisk_read sector count buf).
Proof.
  unfold ramdisk_read. destruct (out_of_disk _ _); [auto with ext2|]. apply keeps_step; [auto with ext2|]. intros [[o n]|]; [|auto with ext2].
  apply keeps_step; [auto with ext2|]. intros s. apply keeps_step; auto with ext2.
Qed.
#[export] Hint Resolve quiet_read : ext2.

Lemma quiet_write sector count buf : quiet false (ramdisk_write sector count buf).
Proof.
  unfold ramdisk_write. destruct (out_of_disk _ _); [auto with ext2|]. apply keeps_step; [auto with ext2|]. intros [[o n]|]; [|auto with ext2].
  apply keeps_step; [auto with ext2|]. intros s. apply keeps_step; [|auto with ext2]. intros s1 a s2 E. unfold modify in E. inv_ret. cbn. split; [lia|done].
Qed.
#[export] Hint Resolve quiet_write : ext2.

Lemma quiet_with_block {A} km ro fs n (none : A) k : (forall b, quiet ro (k b)) -> quiet ro (with_block km fs n none k).
Proof.
  intros Hk. unfold with_block. apply keeps_buffer; [done|]. intros b. apply keeps_step; [apply quiet_read|]. intros [r b'].
  destruct (negb _); [by apply keeps_freed|]. apply keeps_step; [apply Hk|]. intros a. by apply keeps_freed.
Qed.

(** Sequences of steps that keep the buffers. *)
Ltac quiet_step :=
  match goal with
  | |- keeps _ (with_block _ _ _ _ _) _ => apply quiet_with_block; intros
  | |- keeps _ (mbind _ _) _ => apply keeps_step; [|intros]
  | |- keeps _ (if ?b then _ else _) _ => destruct b
  | |- keeps _ (let (_, _) := ?p in _) _ => destruct p
  | |- keeps _ (match ?o with None => _ | Some _ => _ end) _ => destruct o
  | |- _ => solve [auto with ext2]
  end.

Ltac solve_quiet := repeat quiet_step.

Lemma quiet_read_inode km ro fs i : quiet ro (ext2_read_inode km fs i).
Proof. unfold ext2_read_inode. solve_quiet. Qed.

Lemma quiet_write_inode km fs i n : quiet false (ext2_write_inode km fs i n).
Proof. unfold ext2_write_inode, ext2_write_block. solve_quiet. Qed.

Lemma quiet_block_number km ro fs n i : quiet ro (ext2_get_block_number km fs n i).
Proof. unfold ext2_get_block_number. solve_quiet. Qed.
#[export] Hint Resolve quiet_read_inode quiet_write_inode quiet_block_number : ext2.

Lemma quiet_dir_loop km ro fs n c : forall fuel buf i, quiet ro (dir_loop km fuel fs n c buf i).
Proof. induction fuel as [|f IH]; intros buf i; cbn [dir_loop]; [auto with ext2|]. unfold ext2_read_block. solve_quiet. Qed.

Lemma quiet_lookup km ro fs i c : quiet ro (lookup_component km fs i c).
Proof.
  unfold lookup_component. apply keeps_step; [auto with ext2|]. intros [n|]; [|auto with ext2]. apply keeps_step; [auto with ext2|]. intros mode.
  destruct (negb _); [auto with ext2|]. apply keeps_buffer; [done|]. intros b. apply keeps_step; [apply quiet_dir_loop|]. intros r. by apply keeps_freed.
Qed.
#[export] Hint Resolve quiet_lookup : ext2.

Lemma quiet_path_loop km ro fs : forall fuel i p, quiet ro (path_loop km fuel fs i p).
Proof.
  induction fuel as [|f IH]; intros i p; cbn [path_loop]; [auto with ext2|]. destruct p as [|c p]; [auto with ext2|].
  destruct (next_component 255 (c :: p)) as [w r]. destruct (bool_decide _); [apply IH|]. apply keeps_step; [auto with ext2|]. intros [j|]; [apply IH|auto with ext2].
Qed.

Lemma quiet_path km ro fs p : quiet ro (ext2_path_to_inode km fs p).
Proof. apply quiet_path_loop. Qed.
#[export] Hint Resolve quiet_path : ext2.

Lemma quiet_read_loop km ro fs : forall fuel file dst count n, quiet ro (read_loop km fuel fs file dst count n).
Proof.
  induction fuel as [|f IH]; intros file dst count n; cbn [read_loop]; [auto with ext2|]. solve_quiet.
Qed.

Lemma quiet_write_loop km fs : forall fuel file buf count n, quiet false (write_loop km fuel fs file buf count n).
Proof.
  induction fuel as [|f IH]; intros file buf count n; cbn [write_loop]; [auto with ext2|]. unfold ext2_write_block. solve_quiet.
Qed.
#[export] Hint Resolve quiet_read_loop quiet_write_loop : ext2.

Lemma quiet_ext2_read km ro fs file dst count : quiet ro (ext2_read km fs file dst count).
Proof. unfold ext2_read. solve_quiet. Qed.

Lemma quiet_ext2_write km fs file buf count : quiet false (ext2_write km fs file buf count).
Proof. unfold ext2_write. solve_quiet. Qed.
#[export] Hint Resolve quiet_ext2_read quiet_ext2_write : ext2.

Lemma quiet_with_fs {A} ro (none : A) k h : h none = 0 -> (forall fs, keeps ro (k fs) h) -> keeps ro (with_fs none k) h.
Proof.
  intros Hn Hk. unfold with_fs. apply keeps_step; [auto with ext2|]. intros s. destruct (mounted_fs s); [by apply keeps_ret|apply Hk|].
  intros s1 a s2 E. done.
Qed.

Definition opened (f : option ext2_file) : Z := match f with Some _ => 1 | None => 0 end.

Lemma keeps_open km ro path : keeps ro (ext2_open km path) opened.
Proof.
  unfold ext2_open. apply quiet_with_fs; [done|]. intros fs. apply keeps_step; [auto with ext2|]. intros [i|]; [|by apply keeps_ret].
  apply keeps_buffer; [done|]. intros b. apply keeps_step; [auto with ext2|]. intros [n|]; [|by apply keeps_freed].
  apply keeps_step; [auto with ext2|]. intros size. by apply keeps_ret.
Qed.

(** A file that has no buffer of its own. *)
Definition unbuffered {A} (m : M cstate (A * ext2_file)) : Prop := forall s a file s', m s = Ret ((a, file), s') -> f_buffer file = None.

Lemma read_loop_unbuffered km fs : forall fuel file dst count n s b n' dst' file' s',
  f_buffer file = None -> read_loop km fuel fs file dst count n s = Ret ((b, n', dst', file'), s') -> f_buffer file' = None.
Proof.
  induction fuel as [|f IH]; intros file dst count n s b n' dst' file' s' Hb E; cbn [read_loop] in E; [done|].
  destruct (negb _); [apply mret_inv in E as [E _]; by injection E as _ _ _ <-|]. apply M_bind_inv in E as (bn & s1 & _ & E). destruct bn as [bn|]; [|apply mret_inv in E as [E _]; by injection E as _ _ _ <-].
  apply M_bind_inv in E as (bs & s2 & _ & E). destruct bs as [bs|]; [|apply mret_inv in E as [E _]; by injection E as _ _ _ <-].
  apply M_bind_inv in E as (d & s3 & _ & E). by apply IH in E.
Qed.

Lemma write_loop_unbuffered km fs : forall fuel file buf count n s b n' file' s',
  f_buffer file = None -> write_loop km fuel fs file buf count n s = Ret ((b, n', file'), s') -> f_buffer file' = None.
Proof.
  induction fuel as [|f IH]; intros file buf count n s b n' file' s' Hb E; cbn [write_loop] in E; [done|].
  destruct (negb _); [apply mret_inv in E as [E _]; by injection E as _ _ <-|]. apply M_bind_inv in E as (bn & s1 & _ & E). destruct bn as [bn|]; [|apply mret_inv in E as [E _]; by injection E as _ _ <-].
  apply M_bind_inv in E as ([b' i'] & s2 & _ & E). destruct (b' =? 0); [apply mret_inv in E as [E _]; by injection E as _ _ <-|].
  apply M_bind_inv in E as (ok & s3 & _ & E). destruct (negb ok); [apply mret_inv in E as [E _]; by injection E as _ _ <-|].
  apply M_bind_inv in E as ([sz i''] & s4 & _ & E). by apply IH in E.
Qed.

Lemma open_unbuffered km path s file s' : ext2_open km path s = Ret (Some file, s') -> f_buffer file = None.
Proof.
  intros E. unfold ext2_open, with_fs in E. apply M_bind_inv in E as (s0 & s1 & _ & E). destruct (mounted_fs s0); [done| |done].
  apply M_bind_inv in E as ([i|] & s2 & _ & E); [|done]. apply M_bind_inv in E as ([b|] & s3 & _ & E); [|done].
  apply M_bind_inv in E as ([n|] & s4 & _ & E); [|apply M_bind_inv in E as ([] & s5 & _ & E); done]. apply M_bind_inv in E as (sz & s5 & _ & E).
  apply mret_inv in E as [E _]. injection E as <-. done.
Qed.

Lemma keeps_with_file {A} km ro path (none : A) k :
  (forall fs file, quiet ro (k fs file)) ->
  (forall fs file s a file' s', f_buffer file = None -> k fs file s = Ret ((a, file'), s') -> f_buffer file' = None) ->
  quiet ro (with_file km path none k).
Proof.
  intros Hk Hb s a s' E. unfold with_file in E. apply M_bind_inv in E as (f & s1 & E1 & E). destruct (keeps_open km ro path _ _ _ E1) as (L1 & M1 & D1).
  destruct f as [file|]; cbn [opened] in L1.
  - pose proof (open_unbuffered _ _ _ _ _ E1) as Hf. unfold with_fs in E. apply M_bind_inv in E as (s1' & s1'' & E0 & E).
    unfold get in E0. injection E0 as <- <-. rewrite M1 in E. destruct (mounted_fs s) as [|fs|] eqn:Em; [exfalso| |done].
    + clear -E1 Em. unfold ext2_open, with_fs, mbind, M_bind_inst, get in E1. cbn [outcome_bind] in E1. by rewrite Em in E1.
    + apply M_bind_inv in E as ([a' file'] & s2 & E2 & E). destruct (Hk _ _ _ _ _ E2) as (L2 & M2 & D2). pose proof (Hb _ _ _ _ _ _ Hf E2) as Hf'.
      apply M_bind_inv in E as (z & s3 & E3 & E). apply mret_inv in E as [-> ->].
      assert (keeps ro (ext2_close fs file') (fun _ => -1)) as Hc.
      { unfold ext2_close. rewrite Hf'. apply keeps_step; [auto with ext2|]. intros _. apply keeps_step; [auto with ext2|]. intros _. by apply keeps_freed. }
      destruct (Hc _ _ _ E3) as (L3 & M3 & D3). split; [lia|]. split; [by rewrite M3, M2, M1|]. intros Hr. rewrite D3, D2, D1 by done. done.
  - apply mret_inv in E as [-> ->]. split; [lia|done].
Qed.

(** The calls of the Rust side and whether they may change the disk. *)
Inductive vfs_call :=
| VOpen (path : list Z)
| VRead (path dst : list Z) (max_len : Z)
| VWrite (path buf : list Z) (len : Z)
| VMkdir (path : list Z)
| VRmdir (path : list Z)
| VUnlink (path : list Z)
| VStat (path : list Z).

Definition reads_only (c : vfs_call) : bool := match c with VWrite _ _ _ | VMkdir _ => false | _ => true end.

Definition vfs_run (km : nat -> option (Z -> Z)) (c : vfs_call) : M cstate Z :=
  match c with
  | VOpen p => ext2_vfs_open km p
  | VRead p dst n => '(r, _) ← ext2_vfs_read km p dst n; mret r
  | VWrite p buf n => ext2_vfs_write km p buf n
  | VMkdir p => ext2_vfs_mkdir km p
  | VRmdir p => ext2_vfs_rmdir p
  | VUnlink p => ext2_vfs_unlink p
  | VStat p => r ← ext2_vfs_stat km p; mret (match r with Some _ => 0 | None => -1 end)
  end.

Lemma quiet_vfs_run km c : quiet (reads_only c) (vfs_run km c).
Proof.
  destruct c as [p|p dst n|p buf n|p|p|p|p]; cbn [vfs_run reads_only].
  - apply keeps_with_file; [solve_quiet|]. intros fs file s a file' s' Hf E. apply mret_inv in E as [E _]. injection E as _ <-. done.
  - apply keeps_step; [|intros [r d]; auto with ext2]. apply keeps_with_file; [intros; solve_quiet|]. intros fs file s a file' s' Hf E.
    apply M_bind_inv in E as ([[r d] f2] & s1 & E1 & E). apply mret_inv in E as [E _]. injection E as _ <-. unfold ext2_read in E1.
    destruct (_ <=? _); [apply mret_inv in E1 as [E1 _]; by injection E1 as _ _ <-|]. apply M_bind_inv in E1 as ([[[ok m] d'] f3] & s2 & E2 & E1).
    apply mret_inv in E1 as [E1 _]. injection E1 as _ _ <-. by eapply read_loop_unbuffered.
  - apply keeps_with_file; [intros; solve_quiet|]. intros fs file s a file' s' Hf E. unfold ext2_write in E.
    apply M_bind_inv in E as ([[ok m] f3] & s2 & E2 & E). pose proof (write_loop_unbuffered _ _ _ _ _ _ _ _ _ _ _ _ Hf E2) as Hf3.
    destruct (negb ok); [apply mret_inv in E as [E _]; by injection E as _ <-|]. apply M_bind_inv in E as (z & s3 & _ & E). apply mret_inv in E as [E _]. by injection E as _ <-.
  - apply quiet_with_fs; [done|]. intros fs. solve_quiet.
  - apply quiet_mret.
  - apply quiet_mret.
  - apply keeps_step; [|auto with ext2]. apply quiet_with_fs; [done|]. intros fs. solve_quiet.
Qed.
