(* ===== verification/Ext2Files.v ===== *)
(** * What files on the ext2 disk contain

    The contents of a file as the blocks of its inode give them, and that reading and
    writing an open file through [Ext2Disk] are reading and writing of those contents. *)

From S2P Require Import Prelude Memory Ext2Disk.

Local Open Scope Z_scope.

(** ** Bytes of the disk *)
Definition dbyte (d : gmap Z Z) (x : Z) : Z := default 0 (d !! x).

Lemma disk_bytes_lookup d off n i : 0 <= i < n -> disk_bytes d off n !! Z.to_nat i = Some (dbyte d (off + i)).
Proof.
  intros Hi. unfold disk_bytes. rewrite list_lookup_fmap, lookup_seqZ_lt by lia. cbn. unfold dbyte. do 3 f_equal. lia.
Qed.

Lemma length_disk_bytes d off n : length (disk_bytes d off n) = Z.to_nat n.
Proof. unfold disk_bytes. by rewrite length_fmap, length_seqZ. Qed.

(** Lists are equal when their bytes are. *)
Lemma list_eq_Z (l l' : list Z) n :
  length l = Z.to_nat n -> length l' = Z.to_nat n -> (forall i, 0 <= i < n -> l !! Z.to_nat i = l' !! Z.to_nat i) -> l = l'.
Proof.
  intros H1 H2 H. apply list_eq. intros i. destruct (decide (i < Z.to_nat n)%nat) as [Hi|Hi].
  - specialize (H (Z.of_nat i) ltac:(lia)). by rewrite Nat2Z.id in H.
  - rewrite !lookup_ge_None_2 by lia. done.
Qed.

Lemma disk_bytes_ext d d' off off' n : (forall i, 0 <= i < n -> dbyte d' (off' + i) = dbyte d (off + i)) -> disk_bytes d' off' n = disk_bytes d off n.
Proof.
  intros H. apply (list_eq_Z _ _ n); [apply length_disk_bytes..|]. intros i Hi. rewrite !disk_bytes_lookup by done. f_equal. by apply H.
Qed.

Lemma slice_disk_bytes d off n o k : 0 <= o -> 0 <= k -> o + k <= n -> slice o k (disk_bytes d off n) = Ret (disk_bytes d (off + o) k).
Proof.
  intros Ho Hk Hn. unfold slice. rewrite length_disk_bytes, (proj2 (Z.leb_le 0 o)), (proj2 (Z.leb_le (o + k) _)) by lia. cbn [andb]. f_equal.
  apply (list_eq_Z _ _ k); [rewrite length_take, length_drop, length_disk_bytes; lia|apply length_disk_bytes|]. intros i Hi.
  rewrite lookup_take_lt, lookup_drop by lia. replace (Z.to_nat o + Z.to_nat i)%nat with (Z.to_nat (o + i)) by lia.
  rewrite !disk_bytes_lookup by lia. by rewrite Z.add_assoc.
Qed.

Lemma splice_ok off (src dst : list Z) :
  0 <= off -> off + Z.of_nat (length src) <= Z.of_nat (length dst) ->
  splice off src dst = Ret (take (Z.to_nat off) dst ++ src ++ drop (Z.to_nat off + length src) dst).
Proof. intros H1 H2. unfold splice. by rewrite (proj2 (Z.leb_le 0 off)), (proj2 (Z.leb_le _ _)) by lia. Qed.

Lemma splice_whole src dst : length src = length dst -> splice 0 src dst = Ret src.
Proof. intros H. rewrite splice_ok by lia. change (Z.to_nat 0) with 0%nat. rewrite take_0, drop_ge, app_nil_r by lia. done. Qed.

(** The bytes of a spliced list. *)
Lemma splice_lookup off (src dst : list Z) i :
  0 <= off -> off + Z.of_nat (length src) <= Z.of_nat (length dst) -> 0 <= i ->
  (take (Z.to_nat off) dst ++ src ++ drop (Z.to_nat off + length src) dst) !! Z.to_nat i =
  if (off <=? i) && (i <? off + Z.of_nat (length src)) then src !! Z.to_nat (i - off) else dst !! Z.to_nat i.
Proof.
  intros Ho Hl Hi. destruct (Z.leb_spec off i); [destruct (Z.ltb_spec i (off + Z.of_nat (length src)))|]; cbn [andb].
  - rewrite lookup_app_r, length_take, lookup_app_l by (rewrite ?length_take; lia). f_equal. lia.
  - rewrite lookup_app_r, length_take, lookup_app_r, lookup_drop by (rewrite ?length_take; lia). f_equal. lia.
  - rewrite lookup_app_l, lookup_take_lt by (rewrite ?length_take; lia). done.
Qed.

Lemma length_splice off (src dst : list Z) :
  0 <= off -> off + Z.of_nat (length src) <= Z.of_nat (length dst) ->
  length (take (Z.to_nat off) dst ++ src ++ drop (Z.to_nat off + length src) dst) = length dst.
Proof. intros H1 H2. rewrite !length_app, length_take, length_drop. lia. Qed.

Lemma poke_dbyte a l d x :
  dbyte (poke a l d) x = if (a <=? x) && (x <? a + Z.of_nat (length l)) then default 0 (l !! Z.to_nat (x - a)) else dbyte d x.
Proof.
  unfold dbyte. destruct (Z.leb_spec a x); [destruct (Z.ltb_spec x (a + Z.of_nat (length l)))|]; cbn [andb].
  - destruct (lookup_lt_is_Some_2 l (Z.to_nat (x - a))) as [b Hb]; [lia|]. rewrite Hb. pose proof (bytes_at_poke a l d _ _ Hb) as E.
    replace (a + Z.of_nat (Z.to_nat (x - a))) with x in E by lia. by rewrite E.
  - rewrite poke_outside by lia. done.
  - rewrite poke_outside by lia. done.
Qed.

(** ** Blocks *)
Record fs_ok (fs : ext2_fs) : Prop := {
  fo_range : 1024 <= block_size fs <= 0x100000;
  fo_sectors : block_size fs mod 512 = 0
}.

(** Block [b] exists; block 0 stands for a hole. *)
Definition on_disk (fs : ext2_fs) (b : Z) : Prop := 0 < b /\ (b + 1) * block_size fs <= RAMDISK_SIZE.

Definition block_bytes (d : gmap Z Z) (fs : ext2_fs) (b : Z) : list Z := disk_bytes d (b * block_size fs) (block_size fs).

Lemma block_sectors fs b :
  fs_ok fs -> on_disk fs b ->
  let sector := i32 (u32 (b * (block_size fs / 512))) in
  let count := i32 (block_size fs / 512) in
  out_of_disk sector count = false /\ transfer sector count = Ret (Some (b * block_size fs, block_size fs)).
Proof.
  intros [Hr Hs] [Hb Hd]. unfold RAMDISK_SIZE in Hd. pose proof (Z.div_mod (block_size fs) 512) as Hdm. set (q := block_size fs / 512) in *.
  assert (b * block_size fs = b * q * 512) as Eb by lia. assert (0 < b * q < 16384) by nia.
  rewrite (wrap_small 32 (b * q)), !swrap_small by lia. unfold out_of_disk, transfer, memcpy_len, BLOCKDEV_SECTOR_SIZE, RAMDISK_SIZE.
  rewrite !(swrap_small 32 (b * q * 512)), !(swrap_small 32 (q * 512)), (swrap_small 32 (b * q * 512 + q * 512)) by lia. split; [apply Z.ltb_ge; lia|].
  rewrite (proj2 (Z.leb_gt (q * 512) 0)), (proj2 (Z.ltb_ge 0x100000 (q * 512))) by lia. cbn [orb].
  rewrite (proj2 (Z.eqb_neq (q * 512) 0)), (proj2 (Z.ltb_ge _ (b * q * 512))), (proj2 (Z.ltb_ge (b * q * 512) 0)) by lia.
  cbn [orb]. do 3 f_equal; lia.
Qed.

Lemma read_block_ok fs b buf s :
  fs_ok fs -> on_disk fs b -> length buf = Z.to_nat (block_size fs) -> ext2_read_block fs b buf s = Ret ((0, block_bytes (ramdisk s) fs b), s).
Proof.
  intros Hf Hb Hl. destruct (block_sectors fs b Hf Hb) as [H1 H2]. unfold ext2_read_block, ramdisk_read. rewrite H1.
  rewrite (M_bind_Ret _ _ s (Some (b * block_size fs, block_size fs)) s) by (unfold lift; by rewrite H2).
  rewrite (M_bind_Ret _ _ s s s) by done. rewrite (M_bind_Ret _ _ s (block_bytes (ramdisk s) fs b) s); [done|].
  unfold lift. rewrite splice_whole; [done|]. by rewrite length_disk_bytes.
Qed.

Lemma write_block_ok fs b buf s :
  fs_ok fs -> on_disk fs b -> length buf = Z.to_nat (block_size fs) ->
  ext2_write_block fs b buf s = Ret (0, with_disk (poke (b * block_size fs) buf (ramdisk s)) s).
Proof.
  intros Hf Hb Hl. pose proof Hf as [Hr _]. destruct (block_sectors fs b Hf Hb) as [H1 H2]. unfold ext2_write_block, ramdisk_write. rewrite H1.
  rewrite (M_bind_Ret _ _ s (Some (b * block_size fs, block_size fs)) s) by (unfold lift; by rewrite H2).
  rewrite (M_bind_Ret _ _ s buf s); [done|]. unfold lift, slice. rewrite (proj2 (Z.leb_le (0 + _) _)) by lia. cbn [Z.leb Z.compare andb outcome_bind].
  change (Z.to_nat 0) with 0%nat. rewrite drop_0, take_ge by lia. done.
Qed.

(** *** A block buffer, used *)
Section allocating.

Context (km : nat -> option (Z -> Z)) (Hkm : forall n, is_Some (km n)).

Lemma kmalloc_gives size s :
  0 < size -> exists b s', rust_kmalloc km size s = Ret (Some b, s') /\ length b = Z.to_nat size /\ ramdisk s' = ramdisk s /\ mounted_fs s' = mounted_fs s.
Proof using Hkm.
  intros Hs. unfold rust_kmalloc. rewrite (proj2 (Z.eqb_neq size 0)) by lia. destruct (Hkm (allocations s)) as [junk ->].
  eexists _, _. split; [done|]. by rewrite length_fmap, length_seqZ.
Qed.

(** What [k] does with the block is what [with_block] does. *)
Lemma with_buffer_ok {A} fs b (none : A) k s :
  fs_ok fs -> on_disk fs b ->
  exists s1, ramdisk s1 = ramdisk s /\ mounted_fs s1 = mounted_fs s /\
    forall a s2, k (block_bytes (ramdisk s) fs b) s1 = Ret (a, s2) ->
    exists s3, with_block km fs b none k s = Ret (a, s3) /\ ramdisk s3 = ramdisk s2 /\ mounted_fs s3 = mounted_fs s2.
Proof using Hkm.
  intros Hf Hb. destruct (kmalloc_gives (block_size fs) s) as (buf & s1 & E1 & Hl & Hd1 & Hm1); [destruct Hf; lia|].
  exists s1. split; [done|]. split; [done|]. intros a s2 Ek. unfold with_block. rewrite (M_bind_Ret _ _ _ _ _ E1).
  rewrite (M_bind_Ret _ _ _ _ _ (read_block_ok fs b buf s1 Hf Hb Hl)). cbn [Z.eqb negb]. rewrite Hd1, (M_bind_Ret _ _ _ _ _ Ek).
  eexists. split; [done|]. done.
Qed.


(** ** The contents of a file *)
Definition word (l : list Z) (off : Z) : Z := le_word (take 4 (drop (Z.to_nat off) l)).

Lemma field_word l off : 0 <= off -> off + 4 <= Z.of_nat (length l) -> field 4 off l = Ret (word l off).
Proof. intros H1 H2. unfold field, slice. by rewrite (proj2 (Z.leb_le 0 off)), (proj2 (Z.leb_le _ _)) by lia. Qed.

(** The block of index [idx]: direct, or in the indirect block. *)
Definition indirect (inode : list Z) : Z := word inode 88.

Definition file_block (d : gmap Z Z) (fs : ext2_fs) (inode : list Z) (idx : Z) : Z :=
  if idx <? 12 then word inode (40 + 4 * idx)
  else if indirect inode =? 0 then 0
  else word (block_bytes d fs (indirect inode)) (4 * (idx - 12)).

Definition file_byte (d : gmap Z Z) (fs : ext2_fs) (inode : list Z) (p : Z) : Z :=
  let b := file_block d fs inode (p / block_size fs) in
  if b =? 0 then 0 else dbyte d (b * block_size fs + p mod block_size fs).

Definition file_bytes (d : gmap Z Z) (fs : ext2_fs) (inode : list Z) (pos n : Z) : list Z := (fun i => file_byte d fs inode (pos + i)) <$> seqZ 0 n.

(** The blocks up to [size] can be read. *)
Definition readable (d : gmap Z Z) (fs : ext2_fs) (inode : list Z) (size : Z) : Prop :=
  length inode = 124%nat /\
  forall idx, 0 <= idx -> idx * block_size fs < size ->
    idx < 12 + block_size fs / 4 /\ (12 <= idx -> indirect inode = 0 \/ on_disk fs (indirect inode)) /\
    (file_block d fs inode idx = 0 \/ on_disk fs (file_block d fs inode idx)).

Lemma get_block_number_ok fs inode idx s :
  fs_ok fs -> length inode = 124%nat -> 0 <= idx < 12 + block_size fs / 4 -> (12 <= idx -> indirect inode = 0 \/ on_disk fs (indirect inode)) ->
  exists s', ext2_get_block_number km fs inode idx s = Ret (Some (file_block (ramdisk s) fs inode idx), s') /\ ramdisk s' = ramdisk s /\ mounted_fs s' = mounted_fs s.
Proof using Hkm.
  intros Hf Hl Hi Hind. pose proof Hf as [Hr _]. unfold ext2_get_block_number, file_block. destruct (Z.ltb_spec idx 12).
  - exists s. rewrite (M_bind_Ret _ _ s (word inode (40 + 4 * idx)) s); [done|]. unfold lift, i_block. by rewrite field_word by lia.
  - assert (block_size fs / 4 <= 0x40000) by (apply Z.div_le_upper_bound; lia). rewrite wrap_small, (proj2 (Z.ltb_lt idx _)) by lia.
    rewrite (M_bind_Ret _ _ s (indirect inode) s); [|unfold lift, i_block, indirect; by rewrite field_word by lia].
    destruct (Z.eqb_spec (indirect inode) 0) as [E0|E0]; [by exists s|]. destruct (Hind ltac:(lia)) as [?|Hon]; [done|].
    destruct (with_buffer_ok fs (indirect inode) None (fun block_array => n ← lift (field 4 (4 * (idx - 12)) block_array); mret (Some n)) s Hf Hon) as (s1 & Hd1 & Hm1 & Hk).
    destruct (Hk (Some (word (block_bytes (ramdisk s) fs (indirect inode)) (4 * (idx - 12)))) s1) as (s3 & E & Hd3 & Hm3).
    + rewrite (M_bind_Ret _ _ s1 (word (block_bytes (ramdisk s) fs (indirect inode)) (4 * (idx - 12))) s1); [done|]. unfold lift.
      rewrite field_word; [done|lia|]. unfold block_bytes. rewrite length_disk_bytes. pose proof (Z.div_mod (block_size fs) 4). pose proof (Z.mod_pos_bound (block_size fs) 4). lia.
    + exists s3. split; [exact E|]. by rewrite Hd3, Hm3.
Qed.

Lemma length_file_bytes d fs inode pos n : length (file_bytes d fs inode pos n) = Z.to_nat n.
Proof. unfold file_bytes. by rewrite length_fmap, length_seqZ. Qed.

Lemma file_bytes_lookup d fs inode pos n i : 0 <= i < n -> file_bytes d fs inode pos n !! Z.to_nat i = Some (file_byte d fs inode (pos + i)).
Proof. intros Hi. unfold file_bytes. rewrite list_lookup_fmap, lookup_seqZ_lt by lia. cbn. do 2 f_equal. lia. Qed.

Lemma file_bytes_app d fs inode pos n k : 0 <= n -> 0 <= k -> file_bytes d fs inode pos (n + k) = file_bytes d fs inode pos n ++ file_bytes d fs inode (pos + n) k.
Proof.
  intros Hn Hk. apply (list_eq_Z _ _ (n + k)); [apply length_file_bytes|rewrite length_app, !length_file_bytes; lia|]. intros i Hi. rewrite file_bytes_lookup by lia.
  destruct (decide (i < n)).
  - rewrite lookup_app_l by (rewrite length_file_bytes; lia). rewrite file_bytes_lookup by lia. done.
  - rewrite lookup_app_r, length_file_bytes by (rewrite length_file_bytes; lia). replace (Z.to_nat i - Z.to_nat n)%nat with (Z.to_nat (i - n)) by lia.
    rewrite file_bytes_lookup by lia. do 2 f_equal. lia.
Qed.

(** The bytes of a file within one block. *)
Lemma same_block bs p i : 0 < bs -> 0 <= i -> p mod bs + i < bs -> (p + i) / bs = p / bs /\ (p + i) mod bs = p mod bs + i.
Proof.
  intros Hbs Hi Hlt. pose proof (Z.div_mod p bs ltac:(lia)). pose proof (Z.mod_pos_bound p bs Hbs). split.
  - symmetry. apply (Z.div_unique _ _ _ (p mod bs + i)); lia.
  - symmetry. apply (Z.mod_unique _ _ (p / bs)); lia.
Qed.

Lemma file_bytes_block d fs inode p n :
  0 < block_size fs -> 0 <= n -> p mod block_size fs + n <= block_size fs ->
  file_bytes d fs inode p n =
  let b := file_block d fs inode (p / block_size fs) in
  if b =? 0 then replicate (Z.to_nat n) 0 else disk_bytes d (b * block_size fs + p mod block_size fs) n.
Proof.
  intros Hbs Hn Hle. apply (list_eq_Z _ _ n); [apply length_file_bytes|cbv zeta; case_match; [apply length_replicate|apply length_disk_bytes]|].
  intros i Hi. rewrite file_bytes_lookup by done. unfold file_byte. destruct (same_block (block_size fs) p i) as [-> ->]; [lia..|]. cbv zeta.
  case_match; [by rewrite lookup_replicate_2 by lia|]. rewrite disk_bytes_lookup by done. by rewrite Z.add_assoc.
Qed.

(** *** Reading *)
Lemma splice_splice off (a b dst dst1 : list Z) :
  0 <= off -> off + Z.of_nat (length a) + Z.of_nat (length b) <= Z.of_nat (length dst) -> splice off a dst = Ret dst1 ->
  splice (off + Z.of_nat (length a)) b dst1 = splice off (a ++ b) dst.
Proof.
  intros Ho Hl E. rewrite splice_ok in E by lia. injection E as <-. rewrite !splice_ok; [|rewrite ?length_splice, ?length_app; lia..]. f_equal.
  apply (list_eq_Z _ _ (Z.of_nat (length dst))); [rewrite !length_splice by (rewrite ?length_splice; lia); lia|rewrite length_splice by (rewrite ?length_app; lia); lia|].
  intros i Hi. rewrite !splice_lookup by (rewrite ?length_splice, ?length_app; lia). rewrite !length_app.
  destruct (Z.leb_spec (off + Z.of_nat (length a)) i), (Z.ltb_spec i (off + Z.of_nat (length a) + Z.of_nat (length b))), (Z.leb_spec off i), (Z.ltb_spec i (off + Z.of_nat (length a)));
    cbn [andb]; rewrite ?(proj2 (Z.ltb_lt i (off + Z.of_nat _))), ?(proj2 (Z.ltb_ge i (off + Z.of_nat (length a + length b)))) by lia; try lia; try done.
  - rewrite lookup_app_r by lia. f_equal. lia.
  - rewrite lookup_app_l by lia. done.
Qed.

Lemma read_loop_ok fs fuel : forall file dst count n s,
  fs_ok fs -> readable (ramdisk s) fs (f_inode file) (f_size file) -> 0 <= f_position file <= f_size file -> 0 <= n <= count ->
  let r := Z.min (count - n) (f_size file - f_position file) in
  n + r <= Z.of_nat (length dst) -> (Z.to_nat r < fuel)%nat ->
  exists dst' s', read_loop km fuel fs file dst count n s = Ret ((true, n + r, dst', seek file (f_position file + r)), s') /\
    splice n (file_bytes (ramdisk s) fs (f_inode file) (f_position file) r) dst = Ret dst' /\ ramdisk s' = ramdisk s /\ mounted_fs s' = mounted_fs s.
Proof using Hkm.
  induction fuel as [|f IH]; intros file dst count n s Hf Hrd Hp Hn r Hl Hfu; [lia|]. cbn [read_loop]. pose proof Hf as [Hbs _].
  destruct ((n <? count) && (f_position file <? f_size file)) eqn:Ec; cbn [negb].
  - set (bs := block_size fs) in *. set (p := f_position file) in *. pose proof (Z.mod_pos_bound p bs ltac:(lia)) as Hm. pose proof (Z.div_mod p bs ltac:(lia)) as Hdm.
    set (k := Z.min (Z.min (bs - p mod bs) (count - n)) (f_size file - p)).
    assert (0 < k <= r /\ p mod bs + k <= bs) as [Hk Hkb] by (unfold k, r; lia). assert (k <= count - n /\ k <= f_size file - p) as [Hkc Hks] by (unfold k; lia).
    assert (Z.min (count - (n + k)) (f_size file - (p + k)) = r - k) as Hrk by (unfold r; fold p; lia). assert (0 <= p / bs) as Hq by (apply Z.div_pos; lia).
    destruct Hrd as [Hil Hrd]. destruct (Hrd (p / bs) Hq ltac:(fold bs; nia)) as (Hi1 & Hi2 & Hi3).
    destruct (get_block_number_ok fs (f_inode file) (p / bs) s) as (s1 & E1 & Hd1 & Hm1); [done|done|split; [exact Hq|exact Hi1]|done|]. rewrite (M_bind_Ret _ _ _ _ _ E1).
    assert (memcpy_len k = k) as Hmk by (unfold memcpy_len; rewrite (proj2 (Z.leb_gt k 0)), (proj2 (Z.ltb_ge _ k)) by lia; done). rewrite Hmk.
    assert (exists s2, (if file_block (ramdisk s) fs (f_inode file) (p / bs) =? 0 then mret (Some (replicate (Z.to_nat k) 0))
       else with_block km fs (file_block (ramdisk s) fs (f_inode file) (p / bs)) None (fun block_buf => x ← lift (slice (p mod bs) k block_buf); mret (Some x))) s1 =
       Ret (Some (file_bytes (ramdisk s) fs (f_inode file) p k), s2) /\ ramdisk s2 = ramdisk s /\ mounted_fs s2 = mounted_fs s) as (s2 & E2 & Hd2 & Hm2).
    { rewrite (file_bytes_block (ramdisk s) fs (f_inode file) p k) by (fold bs; lia). fold bs. cbv zeta. destruct (Z.eqb_spec (file_block (ramdisk s) fs (f_inode file) (p / bs)) 0) as [E0|E0]; [by exists s1|].
      destruct Hi3 as [?|Hon]; [done|]. destruct (with_buffer_ok fs (file_block (ramdisk s) fs (f_inode file) (p / bs)) None (fun block_buf => x ← lift (slice (p mod bs) k block_buf); mret (Some x)) s1 Hf Hon) as (s1' & Hd1' & Hm1' & Hkk).
      destruct (Hkk (Some (disk_bytes (ramdisk s) (file_block (ramdisk s) fs (f_inode file) (p / bs) * bs + p mod bs) k)) s1') as (s3 & E & Hd3 & Hm3).
      - rewrite (M_bind_Ret _ _ s1' (disk_bytes (ramdisk s) (file_block (ramdisk s) fs (f_inode file) (p / bs) * bs + p mod bs) k) s1'); [done|]. unfold lift. rewrite Hd1.
        unfold block_bytes. rewrite slice_disk_bytes by (fold bs; lia). done.
      - exists s3. split; [exact E|]. by rewrite Hd3, Hm3, Hd1', Hm1', Hd1, Hm1. }
    rewrite (M_bind_Ret _ _ _ _ _ E2). set (bts := file_bytes (ramdisk s) fs (f_inode file) p k) in *. assert (length bts = Z.to_nat k) as Hlb by apply length_file_bytes.
    destruct (splice n bts dst) as [dst1| | |] eqn:Es; [|unfold splice in Es; rewrite (proj2 (Z.leb_le 0 n)), (proj2 (Z.leb_le _ _)) in Es by lia; done..].
    rewrite (M_bind_Ret _ _ s2 dst1 s2) by done.
    assert (length dst1 = length dst) as Hld by (rewrite splice_ok in Es by lia; injection Es as <-; rewrite length_splice; [done|lia|lia]).
    destruct (IH (seek file (p + k)) dst1 count (n + k) s2) as (dst' & s' & E & Hs & Hd' & Hm'); cbn [seek f_position f_size f_inode]; fold p; rewrite ?Hrk; [done|by rewrite Hd2; split|lia|lia|lia|lia|].
    cbn [seek f_position f_size f_inode] in E, Hs. fold p in E, Hs. rewrite Hrk in E, Hs. exists dst', s'. rewrite Hd2 in Hs. split; [|split; [|by rewrite Hd', Hm', Hd2, Hm2]].
    + rewrite E. replace (n + k + (r - k)) with (n + r) by lia. replace (p + k + (r - k)) with (p + r) by lia. done.
    + rewrite <- Hs. replace (n + k) with (n + Z.of_nat (length bts)) by lia. rewrite (splice_splice n bts _ dst dst1); [|lia|rewrite Hlb, length_file_bytes; lia|exact Es].
      f_equal. unfold bts. rewrite <- file_bytes_app by lia. f_equal. lia.
  - exists dst, s. assert (r = 0) as -> by lia. rewrite !Z.add_0_r. split; [unfold seek; by destruct file|]. split; [|done].
    unfold file_bytes. rewrite seqZ_nil by lia. cbn [fmap list_fmap]. rewrite splice_ok by (cbn; lia). cbn [length app]. rewrite Nat.add_0_r, take_drop. done.
Qed.

Lemma ext2_read_ok fs file dst count s :
  fs_ok fs -> readable (ramdisk s) fs (f_inode file) (f_size file) -> 0 <= f_position file -> 0 <= count ->
  let r := Z.max 0 (Z.min count (f_size file - f_position file)) in
  r < 2 ^ 31 -> r <= Z.of_nat (length dst) ->
  exists s', ext2_read km fs file dst count s =
      Ret ((r, file_bytes (ramdisk s) fs (f_inode file) (f_position file) r ++ drop (Z.to_nat r) dst, seek file (f_position file + r)), s') /\
    ramdisk s' = ramdisk s /\ mounted_fs s' = mounted_fs s.
Proof using Hkm.
  intros Hf Hrd Hp Hc r Hr Hl. unfold ext2_read. destruct (Z.leb_spec (f_size file) (f_position file)) as [Hge|Hlt].
  - assert (r = 0) as -> by lia. exists s. unfold file_bytes. rewrite seqZ_nil by lia. cbn [fmap list_fmap app]. rewrite Z.add_0_r, drop_0. by destruct file.
  - destruct (read_loop_ok fs (S (Z.to_nat (f_size file - f_position file))) file dst count 0 s) as (dst' & s' & E & Hs & Hd & Hm); [done|done|lia|lia|lia|lia|].
    assert (Z.min (count - 0) (f_size file - f_position file) = r) as Er by lia. rewrite Er in E, Hs. rewrite Z.add_0_l in E. rewrite (M_bind_Ret _ _ _ _ _ E).
    exists s'. rewrite splice_ok in Hs by (rewrite ?length_file_bytes; lia). apply Ret_inj in Hs. subst dst'. change (Z.to_nat 0) with 0%nat. rewrite take_0, length_file_bytes, Nat.add_0_l.
    cbn [app]. rewrite swrap_small by lia. done.
Qed.

(** *** Writing *)

(** The file's first [limit] blocks are its own: on the disk, all different, and none of
    them the indirect block. *)
Record own_blocks (d : gmap Z Z) (fs : ext2_fs) (inode : list Z) (limit : Z) : Prop := {
  ob_limit : limit <= 12 + block_size fs / 4;
  ob_disk : forall idx, 0 <= idx < limit -> on_disk fs (file_block d fs inode idx);
  ob_inj : forall i j, 0 <= i < limit -> 0 <= j < limit -> file_block d fs inode i = file_block d fs inode j -> i = j;
  ob_ind : 12 < limit -> on_disk fs (indirect inode) /\ forall idx, 0 <= idx < limit -> file_block d fs inode idx <> indirect inode
}.

(** Only the bytes from [a] on have changed, to [l]. *)
Definition stored (d d' : gmap Z Z) (a : Z) (l : list Z) : Prop :=
  forall x, dbyte d' x = if (a <=? x) && (x <? a + Z.of_nat (length l)) then default 0 (l !! Z.to_nat (x - a)) else dbyte d x.

Lemma block_apart fs b b' x : 0 < block_size fs -> b <> b' -> b * block_size fs <= x < b * block_size fs + block_size fs -> ~ (b' * block_size fs <= x < b' * block_size fs + block_size fs).
Proof. intros Hbs Hne H1 H2. apply Hne. nia. Qed.

(** Storing in one block of the file keeps which blocks the file has. *)
Lemma file_block_stored d d' fs inode limit b off l idx :
  0 < block_size fs -> own_blocks d fs inode limit -> 0 <= idx < limit -> b <> indirect inode \/ limit <= 12 ->
  stored d d' (b * block_size fs + off) l -> 0 <= off -> off + Z.of_nat (length l) <= block_size fs ->
  file_block d' fs inode idx = file_block d fs inode idx.
Proof.
  intros Hbs [H1 H2 H3 H4] Hi Hor Hs Ho Hl. unfold file_block. destruct (Z.ltb_spec idx 12); [done|]. destruct (indirect inode =? 0); [done|].
  f_equal. unfold block_bytes. apply disk_bytes_ext. intros i Hir. rewrite Hs. destruct Hor as [Hne|]; [|lia].
  destruct (_ && _) eqn:E; [|done]. exfalso. apply (block_apart fs b (indirect inode) (indirect inode * block_size fs + i) Hbs Hne); lia.
Qed.

Lemma own_blocks_stored d d' fs inode limit b off l :
  0 < block_size fs -> own_blocks d fs inode limit -> b <> indirect inode \/ limit <= 12 ->
  stored d d' (b * block_size fs + off) l -> 0 <= off -> off + Z.of_nat (length l) <= block_size fs -> own_blocks d' fs inode limit.
Proof.
  intros Hbs Hob Hor Hs Ho Hl. pose proof (fun idx Hi => file_block_stored d d' fs inode limit b off l idx Hbs Hob Hi Hor Hs Ho Hl) as Hfb. destruct Hob as [H1 H2 H3 H4].
  split; [done| | |].
  - intros idx Hi. rewrite Hfb by done. by apply H2.
  - intros i j Hi Hj. rewrite !Hfb by done. by apply H3.
  - intros Hlim. destruct (H4 Hlim) as [H5 H6]. split; [done|]. intros idx Hi. rewrite Hfb by done. by apply H6.
Qed.

(** The contents after storing [l] in the file at [p], inside one block. *)
Lemma file_byte_stored d d' fs inode limit p l q :
  0 < block_size fs -> own_blocks d fs inode limit -> 0 <= p / block_size fs < limit -> 0 <= q / block_size fs < limit ->
  p mod block_size fs + Z.of_nat (length l) <= block_size fs ->
  stored d d' (file_block d fs inode (p / block_size fs) * block_size fs + p mod block_size fs) l ->
  file_byte d' fs inode q = if (p <=? q) && (q <? p + Z.of_nat (length l)) then default 0 (l !! Z.to_nat (q - p)) else file_byte d fs inode q.
Proof.
  intros Hbs Hob Hp Hq Hl Hs. set (bs := block_size fs) in *. set (b := file_block d fs inode (p / bs)) in *. pose proof (Z.mod_pos_bound p bs Hbs). pose proof (Z.mod_pos_bound q bs Hbs).
  pose proof (Z.div_mod p bs ltac:(lia)) as Dp. pose proof (Z.div_mod q bs ltac:(lia)) as Dq. pose proof Hob as [_ H2 H3 H4].
  assert (file_block d' fs inode (q / bs) = file_block d fs inode (q / bs)) as Eb.
  { eapply (file_block_stored d d' fs inode limit b (p mod bs) l); [done|done|done| |done|lia|done]. destruct (decide (12 < limit)) as [Hlim|]; [left|right; lia]. by apply H4. }
  unfold file_byte. fold bs. rewrite Eb. set (c := file_block d fs inode (q / bs)) in *. destruct (H2 _ Hq) as [Hc0 _]. fold c in Hc0. rewrite (proj2 (Z.eqb_neq c 0)) by lia.
  rewrite Hs. destruct (decide (q / bs = p / bs)) as [E|E].
  - assert (c = b) as -> by (unfold c, b; by rewrite E). rewrite E in Dq.
    replace (b * bs + p mod bs <=? b * bs + q mod bs) with (p <=? q) by (destruct (Z.leb_spec p q), (Z.leb_spec (b * bs + p mod bs) (b * bs + q mod bs)); lia || done).
    replace (b * bs + q mod bs <? b * bs + p mod bs + Z.of_nat (length l)) with (q <? p + Z.of_nat (length l))
      by (destruct (Z.ltb_spec q (p + Z.of_nat (length l))), (Z.ltb_spec (b * bs + q mod bs) (b * bs + p mod bs + Z.of_nat (length l))); lia || done).
    replace (b * bs + q mod bs - (b * bs + p mod bs)) with (q - p) by lia. done.
  - assert (c <> b) as Hcb by (intros Ecb; apply E; by apply (H3 _ _ Hq Hp)).
    assert ((p <=? q) && (q <? p + Z.of_nat (length l)) = false) as ->.
    { apply andb_false_iff. destruct (Z.leb_spec p q); [right|by left]. apply Z.ltb_ge.
      destruct (Z.le_gt_cases (p + Z.of_nat (length l)) q); [done|]. exfalso. apply E. destruct (same_block bs p (q - p)) as [E' _]; [lia..|]. replace (p + (q - p)) with q in E' by lia. done. }
    assert ((b * bs + p mod bs <=? c * bs + q mod bs) && (c * bs + q mod bs <? b * bs + p mod bs + Z.of_nat (length l)) = false) as ->; [|done].
    destruct (_ && _) eqn:Ea; [|done]. exfalso. apply (block_apart fs c b (c * bs + q mod bs) Hbs Hcb); fold bs; lia.
Qed.


(** Inodes that differ in the size at most. *)
Definition same_blocks (i i' : list Z) : Prop := length i' = length i /\ take 4 i' = take 4 i /\ drop 8 i' = drop 8 i.

Lemma same_blocks_word i i' off : same_blocks i i' -> 8 <= off -> word i' off = word i off.
Proof.
  intros (_ & _ & H) Ho. unfold word. replace (Z.to_nat off) with (8 + (Z.to_nat off - 8))%nat by lia. by rewrite <- !drop_drop, H.
Qed.

Lemma same_blocks_file i i' d fs idx : same_blocks i i' -> 0 <= idx -> file_block d fs i' idx = file_block d fs i idx.
Proof.
  intros H Hi. unfold file_block, indirect. rewrite (same_blocks_word i i' 88) by (done || lia). destruct (idx <? 12); [|done]. apply same_blocks_word; [done|lia].
Qed.

Lemma same_blocks_own i i' d fs limit : same_blocks i i' -> own_blocks d fs i limit -> own_blocks d fs i' limit.
Proof.
  intros H [H1 H2 H3 H4]. assert (indirect i' = indirect i) as Ei by (by apply same_blocks_word). split; [done| | |].
  - intros idx Hi. rewrite (same_blocks_file i i') by (done || lia). by apply H2.
  - intros j k Hj Hk. rewrite !(same_blocks_file i i') by (done || lia). by apply H3.
  - intros Hl. rewrite Ei. destruct (H4 Hl) as [H5 H6]. split; [done|]. intros idx Hi. rewrite (same_blocks_file i i') by (done || lia). by apply H6.
Qed.

Lemma set_size_ok inode v :
  length inode = 124%nat -> 0 <= v < 2 ^ 32 ->
  exists inode', set_inode_word 4 v inode = Ret inode' /\ same_blocks inode inode' /\ i_size inode' = Ret v.
Proof.
  intros Hl Hv. unfold set_inode_word. rewrite splice_ok by (rewrite ?le_bytes_length; lia). rewrite le_bytes_length. eexists. split; [done|].
  assert (length (le_bytes 4 v) = 4%nat) as H4 by apply le_bytes_length.
  assert (length (take 4 inode) = 4%nat) as H4' by (rewrite length_take; lia). change (Z.to_nat 4) with 4%nat. split; [split; [|split]|].
  - rewrite !length_app, H4, H4', length_drop. lia.
  - by rewrite take_app_length'.
  - change (4 + 4)%nat with 8%nat. rewrite app_assoc, drop_app_length'; [done|]. rewrite length_app, H4, H4'. done.
  - unfold i_size. rewrite field_word by (rewrite ?length_app, ?H4, ?H4', ?length_drop; lia). f_equal. unfold word. change (Z.to_nat 4) with 4%nat.
    rewrite drop_app_length', take_app_length' by done. rewrite le_word_bytes. by apply Z.mod_small.
Qed.

Lemma same_blocks_trans i i' i'' : same_blocks i i' -> same_blocks i' i'' -> same_blocks i i''.
Proof. intros (H1 & H2 & H3) (H4 & H5 & H6). repeat split; congruence. Qed.

(** One block changed in the buffer and written back. *)
Lemma block_stored fs b off bs s :
  fs_ok fs -> on_disk fs b -> 0 <= off -> off + Z.of_nat (length bs) <= block_size fs ->
  exists blk', splice off bs (block_bytes (ramdisk s) fs b) = Ret blk' /\ length blk' = Z.to_nat (block_size fs) /\
    stored (ramdisk s) (poke (b * block_size fs) blk' (ramdisk s)) (b * block_size fs + off) bs.
Proof.
  intros [Hbs _] Hb Ho Hl. set (blk := block_bytes (ramdisk s) fs b) in *. assert (length blk = Z.to_nat (block_size fs)) as Hlb by apply length_disk_bytes.
  set (blk' := take (Z.to_nat off) blk ++ bs ++ drop (Z.to_nat off + length bs) blk). assert (length blk' = length blk) as Hlb' by (apply length_splice; lia).
  exists blk'. split; [by rewrite splice_ok by lia|]. split; [lia|]. intros x. rewrite poke_dbyte, Hlb', Hlb.
  destruct (Z.leb_spec (b * block_size fs) x), (Z.ltb_spec x (b * block_size fs + Z.of_nat (Z.to_nat (block_size fs)))); cbn [andb].
  - unfold blk'. rewrite splice_lookup by lia. set (i := x - b * block_size fs) in *.
    replace (b * block_size fs + off <=? x) with (off <=? i) by (destruct (Z.leb_spec off i), (Z.leb_spec (b * block_size fs + off) x); lia || done).
    replace (x <? b * block_size fs + off + Z.of_nat (length bs)) with (i <? off + Z.of_nat (length bs))
      by (destruct (Z.ltb_spec i (off + Z.of_nat (length bs))), (Z.ltb_spec x (b * block_size fs + off + Z.of_nat (length bs))); lia || done).
    destruct (_ && _); [do 3 f_equal; lia|]. unfold blk, block_bytes. rewrite disk_bytes_lookup by lia. cbn. f_equal. lia.
  - rewrite (proj2 (Z.ltb_ge x (b * block_size fs + off + _))) by lia. by rewrite andb_false_r.
  - rewrite (proj2 (Z.leb_gt (b * block_size fs + off) x)) by lia. done.
  - rewrite (proj2 (Z.leb_gt (b * block_size fs + off) x)) by lia. done.
Qed.

Lemma modify_block_ok fs b off bs s :
  fs_ok fs -> on_disk fs b -> 0 <= off -> off + Z.of_nat (length bs) <= block_size fs ->
  exists s', (with_block km fs b false (fun block_buf =>
      x ← lift (Ret bs); block_buf ← lift (splice off x block_buf); r ← ext2_write_block fs b block_buf; mret (r =? 0))) s = Ret (true, s') /\
    stored (ramdisk s) (ramdisk s') (b * block_size fs + off) bs /\ mounted_fs s' = mounted_fs s.
Proof using Hkm.
  intros Hf Hb Ho Hl.
  destruct (with_buffer_ok fs b false (fun block_buf => x ← lift (Ret bs); block_buf ← lift (splice off x block_buf); r ← ext2_write_block fs b block_buf; mret (r =? 0)) s Hf Hb)
    as (s1 & Hd1 & Hm1 & Hk).
  destruct (block_stored fs b off bs s1) as (blk' & Es & Hlb & Hst); [done..|]. rewrite Hd1 in Es.
  destruct (Hk true (with_disk (poke (b * block_size fs) blk' (ramdisk s1)) s1)) as (s3 & E & Hd3 & Hm3).
  - rewrite (M_bind_Ret _ _ s1 bs s1) by done. rewrite (M_bind_Ret _ _ s1 blk' s1) by (unfold lift; by rewrite Es).
    rewrite (M_bind_Ret _ _ _ _ _ (write_block_ok fs b blk' s1 Hf Hb ltac:(lia))). done.
  - exists s3. split; [exact E|]. rewrite Hd3, Hm3. cbn [with_disk ramdisk mounted_fs]. rewrite <- Hd1. done.
Qed.

(** What a write of [l] at the position [pos] of a file does. *)
Record wrote (s s' : cstate) (fs : ext2_fs) (inode : list Z) (limit pos : Z) (l : list Z) : Prop := {
  wr_own : own_blocks (ramdisk s') fs inode limit;
  wr_bytes : forall q, 0 <= q / block_size fs < limit ->
    file_byte (ramdisk s') fs inode q = if (pos <=? q) && (q <? pos + Z.of_nat (length l)) then default 0 (l !! Z.to_nat (q - pos)) else file_byte (ramdisk s) fs inode q;
  wr_frame : forall x, (forall idx, 0 <= idx < limit -> ~ (file_block (ramdisk s) fs inode idx * block_size fs <= x < file_block (ramdisk s) fs inode idx * block_size fs + block_size fs)) ->
    dbyte (ramdisk s') x = dbyte (ramdisk s) x;
  wr_blocks : forall idx, 0 <= idx < limit -> file_block (ramdisk s') fs inode idx = file_block (ramdisk s) fs inode idx;
  wr_mount : mounted_fs s' = mounted_fs s
}.

Lemma wrote_nothing s fs inode limit pos : own_blocks (ramdisk s) fs inode limit -> wrote s s fs inode limit pos [].
Proof.
  intros H. split; [done| |done|done|done]. intros q Hq. cbn [length]. destruct (Z.leb_spec pos q), (Z.ltb_spec q (pos + Z.of_nat 0)); cbn [andb]; try done. lia.
Qed.

Lemma wrote_one s s' fs inode limit pos l :
  fs_ok fs -> own_blocks (ramdisk s) fs inode limit -> 0 <= pos / block_size fs < limit -> pos mod block_size fs + Z.of_nat (length l) <= block_size fs ->
  stored (ramdisk s) (ramdisk s') (file_block (ramdisk s) fs inode (pos / block_size fs) * block_size fs + pos mod block_size fs) l -> mounted_fs s' = mounted_fs s ->
  wrote s s' fs inode limit pos l.
Proof.
  intros [Hbs _] Hob Hp Hl Hs Hm. pose proof (Z.mod_pos_bound pos (block_size fs) ltac:(lia)). pose proof Hob as [_ _ _ H4].
  assert (file_block (ramdisk s) fs inode (pos / block_size fs) <> indirect inode \/ limit <= 12) as Hor.
  { destruct (decide (12 < limit)) as [Hlim|]; [left|right; lia]. by apply H4. }
  split; [| | | |done].
  - eapply own_blocks_stored; [| | |exact Hs|lia|done]; [lia|done|done].
  - intros q Hq. apply (file_byte_stored _ _ fs inode limit); try done. lia.
  - intros x Hx. rewrite Hs. destruct (_ && _) eqn:E; [|done]. exfalso. apply (Hx (pos / block_size fs) Hp). lia.
  - intros idx Hi. eapply file_block_stored; [| | | |exact Hs|lia|done]; [lia|done|done|done].
Qed.

Lemma wrote_app s1 s2 s3 fs inode limit pos l r :
  wrote s1 s2 fs inode limit pos l -> wrote s2 s3 fs inode limit (pos + Z.of_nat (length l)) r -> wrote s1 s3 fs inode limit pos (l ++ r).
Proof.
  intros [A1 A2 A3 A4 A5] [B1 B2 B3 B4 B5]. split; [done| | | |congruence].
  - intros q Hq. rewrite B2, A2, length_app by done.
    destruct (Z.leb_spec (pos + Z.of_nat (length l)) q), (Z.ltb_spec q (pos + Z.of_nat (length l) + Z.of_nat (length r))), (Z.leb_spec pos q), (Z.ltb_spec q (pos + Z.of_nat (length l)));
      cbn [andb]; rewrite ?(proj2 (Z.ltb_lt q (pos + Z.of_nat (length l + length r)))), ?(proj2 (Z.ltb_ge q (pos + Z.of_nat (length l + length r)))) by lia; try lia; try done.
    + rewrite lookup_app_r by lia. do 2 f_equal. lia.
    + rewrite lookup_app_l by lia. done.
  - intros x Hx. rewrite B3, A3; [done|done|]. intros idx Hi. rewrite A4 by done. by apply Hx.
  - intros idx Hi. by rewrite B4, A4.
Qed.

Lemma wrote_inode s s' fs i i' limit pos l : same_blocks i i' -> wrote s s' fs i' limit pos l -> wrote s s' fs i limit pos l.
Proof.
  intros H [A1 A2 A3 A4 A5]. assert (forall d idx, 0 <= idx -> file_block d fs i' idx = file_block d fs i idx) as Hfb by (intros; by apply same_blocks_file).
  assert (forall d q, 0 <= q / block_size fs -> file_byte d fs i' q = file_byte d fs i q) as Hby by (intros d q Hq; unfold file_byte; by rewrite Hfb).
  split; [| | | |done].
  - eapply same_blocks_own; [|exact A1]. destruct H as (H1 & H2 & H3). repeat split; congruence.
  - intros q Hq. rewrite <- !Hby by lia. by apply A2.
  - intros x Hx. apply A3. intros idx Hi. rewrite Hfb by lia. by apply Hx.
  - intros idx Hi. rewrite <- !Hfb by lia. by apply A4.
Qed.


(** The file after a write: its place, its size and the size in its inode. *)
Definition moved (file : ext2_file) (inode : list Z) (pos size : Z) : ext2_file :=
  mkFile (f_inode_num file) inode pos size (f_buffer file) (f_buffer_block file) (f_buffer_dirty file).

Lemma write_loop_ok fs limit (buf : list Z) fuel : forall file n s,
  fs_ok fs -> length (f_inode file) = 124%nat -> own_blocks (ramdisk s) fs (f_inode file) limit -> 0 <= f_position file -> 0 <= n <= Z.of_nat (length buf) ->
  let rest := drop (Z.to_nat n) buf in
  let last := f_position file + Z.of_nat (length rest) in
  last <= limit * block_size fs -> last < 2 ^ 32 -> f_position file <= f_size file -> i_size (f_inode file) = Ret (f_size file) -> (length rest < fuel)%nat ->
  exists inode' s', write_loop km fuel fs file buf (Z.of_nat (length buf)) n s = Ret ((true, Z.of_nat (length buf), moved file inode' last (Z.max (f_size file) last)), s') /\
    wrote s s' fs (f_inode file) limit (f_position file) rest /\ same_blocks (f_inode file) inode' /\ i_size inode' = Ret (Z.max (f_size file) last).
Proof using Hkm.
  induction fuel as [|f IH]; intros file n s Hf Hil Hob Hp Hn rest last Hlim H32 Hps Hsz Hfu; [lia|]. cbn [write_loop]. pose proof Hf as [Hbs _].
  assert (length rest = (length buf - Z.to_nat n)%nat) as Hlr by (unfold rest; apply length_drop).
  destruct (Z.ltb_spec n (Z.of_nat (length buf))) as [Hlt|Hge]; cbn [negb].
  - set (bs := block_size fs) in *. set (p := f_position file) in *. pose proof (Z.mod_pos_bound p bs ltac:(lia)) as Hm. pose proof (Z.div_mod p bs ltac:(lia)) as Hdm.
    set (k := Z.min (bs - p mod bs) (Z.of_nat (length buf) - n)). assert (0 < k <= Z.of_nat (length rest) /\ p mod bs + k <= bs) as [Hk Hkb] by (unfold k; lia).
    assert (0 <= p / bs < limit) as Hq by (split; [apply Z.div_pos; lia|apply Z.div_lt_upper_bound; lia]).
    pose proof Hob as [Ob1 Ob2 Ob3 Ob4]. set (b := file_block (ramdisk s) fs (f_inode file) (p / bs)) in *. pose proof (Ob2 _ Hq) as Hon. fold b in Hon.
    destruct (get_block_number_ok fs (f_inode file) (p / bs) s) as (s1 & E1 & Hd1 & Hm1); [done|done|fold bs in Ob1 |- *; lia|intros; right; apply Ob4; lia|].
    rewrite (M_bind_Ret _ _ _ _ _ E1). fold b. assert ((b =? 0) = false) as Hb0 by (destruct Hon; lia). rewrite Hb0.
    rewrite (M_bind_Ret _ _ s1 (b, f_inode file) s1) by done. rewrite Hb0.
    assert (memcpy_len k = k) as Hmk by (unfold memcpy_len; rewrite (proj2 (Z.leb_gt k 0)), (proj2 (Z.ltb_ge _ k)) by lia; done). rewrite Hmk.
    set (l := take (Z.to_nat k) rest). assert (length l = Z.to_nat k) as Hll by (unfold l; rewrite length_take; lia).
    assert (slice n k buf = Ret l) as -> by (unfold slice; by rewrite (proj2 (Z.leb_le 0 n)), (proj2 (Z.leb_le _ _)) by lia).
    destruct (modify_block_ok fs b (p mod bs) l s1) as (s2 & E2 & Hs2 & Hm2); [done|done|lia|fold bs; lia|]. rewrite (M_bind_Ret _ _ _ _ _ E2). cbn [negb].
    rewrite Hd1 in Hs2. assert (wrote s s2 fs (f_inode file) limit p l) as W1 by (apply wrote_one; try done; [fold bs; lia|congruence]).
    rewrite wrap_small by lia.
    assert (exists i1, (if f_size file <? p + k then inode ← lift (set_inode_word 4 (p + k) (f_inode file)); mret (p + k, inode) else mret (f_size file, f_inode file)) s2 =
      Ret ((Z.max (f_size file) (p + k), i1), s2) /\ same_blocks (f_inode file) i1 /\ i_size i1 = Ret (Z.max (f_size file) (p + k))) as (i1 & E3 & Hsb & Hsz1).
    { destruct (Z.ltb_spec (f_size file) (p + k)).
      - destruct (set_size_ok (f_inode file) (p + k)) as (i1 & Ei & Hsb & Hi); [done|lia|]. exists i1. rewrite (M_bind_Ret _ _ s2 i1 s2) by (unfold lift; by rewrite Ei).
        rewrite Z.max_r by lia. done.
      - exists (f_inode file). by rewrite Z.max_l by lia. }
    rewrite (M_bind_Ret _ _ _ _ _ E3). clear E1 E2 E3. fold (moved file i1 (p + k) (Z.max (f_size file) (p + k))).
    assert (drop (Z.to_nat (n + k)) buf = drop (Z.to_nat k) rest) as Hdr by (unfold rest; rewrite drop_drop; f_equal; lia).
    destruct (IH (moved file i1 (p + k) (Z.max (f_size file) (p + k))) (n + k) s2) as (i2 & s' & E & W2 & Hsb2 & Hsz2);
      cbn [moved f_position f_size f_inode]; rewrite ?Hdr, ?length_drop; [done|destruct Hsb; lia|eapply same_blocks_own; [exact Hsb|apply W1]|lia|lia|fold bs; lia|lia|lia|done|lia|].
    cbn [moved f_position f_size f_inode f_inode_num f_buffer f_buffer_block f_buffer_dirty] in E, W2, Hsb2, Hsz2. rewrite Hdr in E, W2, Hsz2. rewrite length_drop in E, Hsz2.
    assert (p + k + Z.of_nat (length rest - Z.to_nat k) = last) as Hla by (unfold last; lia). rewrite Hla in E, Hsz2.
    assert (Z.max (Z.max (f_size file) (p + k)) last = Z.max (f_size file) last) as Hmx by lia. rewrite Hmx in E, Hsz2. exists i2, s'. split; [exact E|]. split; [|split; [by eapply same_blocks_trans|done]].
    rewrite <- (take_drop (Z.to_nat k) rest). fold l. eapply wrote_app; [exact W1|]. rewrite Hll, Z2Nat.id by lia. by eapply wrote_inode.
  - exists (f_inode file), s. assert (rest = []) as Hr0 by (apply nil_length_inv; lia). assert (last = f_position file) as -> by (unfold last; rewrite Hr0; cbn; lia).
    rewrite Hr0, Z.max_l by lia. split; [|split; [by apply wrote_nothing|done]]. replace n with (Z.of_nat (length buf)) by lia. by destruct file.
Qed.


(** *** The inode *)

(** Inode [num] lies in block [b], all of it. *)
Record inode_place (fs : ext2_fs) (num b : Z) : Prop := {
  ip_num : num <> 0;
  ip_block : ext2_inode_to_block fs num = Ret b;
  ip_disk : on_disk fs b;
  ip_offset : inode_offset fs num + INODE_BYTES <= block_size fs
}.

Definition inode_address (fs : ext2_fs) (num b : Z) : Z := b * block_size fs + inode_offset fs num.

Lemma inode_offset_nonneg fs num : fs_ok fs -> 0 <= inode_offset fs num.
Proof. intros [Hbs _]. apply Z.mod_pos_bound. lia. Qed.

Lemma read_inode_ok fs num b s :
  fs_ok fs -> inode_place fs num b ->
  exists s', ext2_read_inode km fs num s = Ret (Some (disk_bytes (ramdisk s) (inode_address fs num b) INODE_BYTES), s') /\ ramdisk s' = ramdisk s /\ mounted_fs s' = mounted_fs s.
Proof using Hkm.
  intros Hf [H1 H2 H3 H4]. pose proof (inode_offset_nonneg fs num Hf). unfold ext2_read_inode. rewrite (proj2 (Z.eqb_neq num 0)) by done.
  rewrite (M_bind_Ret _ _ s b s) by (unfold lift; by rewrite H2). rewrite (proj2 (Z.eqb_neq b 0)) by (destruct H3; lia).
  destruct (with_buffer_ok fs b None (fun block_buf => inode ← lift (slice (inode_offset fs num) INODE_BYTES block_buf); mret (Some inode)) s Hf H3) as (s1 & Hd1 & Hm1 & Hk).
  destruct (Hk (Some (disk_bytes (ramdisk s) (inode_address fs num b) INODE_BYTES)) s1) as (s3 & E & Hd3 & Hm3).
  - rewrite (M_bind_Ret _ _ s1 (disk_bytes (ramdisk s) (inode_address fs num b) INODE_BYTES) s1); [done|]. unfold lift, block_bytes.
    rewrite slice_disk_bytes by (done || lia). done.
  - exists s3. split; [exact E|]. by rewrite Hd3, Hm3.
Qed.

Lemma write_inode_ok fs num b inode s :
  fs_ok fs -> inode_place fs num b -> length inode = 124%nat ->
  exists r s', ext2_write_inode km fs num inode s = Ret (r, s') /\ stored (ramdisk s) (ramdisk s') (inode_address fs num b) inode /\ mounted_fs s' = mounted_fs s.
Proof using Hkm.
  intros Hf [H1 H2 H3 H4] Hl. pose proof (inode_offset_nonneg fs num Hf) as Ho. unfold ext2_write_inode. rewrite (proj2 (Z.eqb_neq num 0)) by done.
  rewrite (M_bind_Ret _ _ s b s) by (unfold lift; by rewrite H2). rewrite (proj2 (Z.eqb_neq b 0)) by (destruct H3; lia).
  unfold INODE_BYTES in H4.
  destruct (with_buffer_ok fs b (-1) (fun block_buf => block_buf ← lift (splice (inode_offset fs num) inode block_buf); ext2_write_block fs b block_buf) s Hf H3) as (s1 & Hd1 & Hm1 & Hk).
  destruct (block_stored fs b (inode_offset fs num) inode s1) as (blk' & Es & Hlb & Hst); [done|done|done|lia|]. rewrite Hd1 in Es.
  destruct (Hk 0 (with_disk (poke (b * block_size fs) blk' (ramdisk s1)) s1)) as (s3 & E & Hd3 & Hm3).
  - rewrite (M_bind_Ret _ _ s1 blk' s1) by (unfold lift; by rewrite Es). by apply write_block_ok.
  - exists 0, s3. split; [exact E|]. rewrite Hd3, Hm3. cbn [with_disk ramdisk mounted_fs]. rewrite <- Hd1. done.
Qed.


(** *** A whole write *)

(** Block [b] of the inode table is none of the file's. *)
Definition apart (d : gmap Z Z) (fs : ext2_fs) (inode : list Z) (limit b : Z) : Prop :=
  (forall idx, 0 <= idx < limit -> file_block d fs inode idx <> b) /\ (b <> indirect inode \/ limit <= 12).

Definition in_file (d : gmap Z Z) (fs : ext2_fs) (inode : list Z) (limit x : Z) : Prop :=
  exists idx, 0 <= idx < limit /\ file_block d fs inode idx * block_size fs <= x < file_block d fs inode idx * block_size fs + block_size fs.

(** The disk [d'] is [d] with [l] at [pos] of the file and with its inode changed to [inode']. *)
Record rewritten (d d' : gmap Z Z) (fs : ext2_fs) (num b : Z) (inode inode' : list Z) (limit pos : Z) (l : list Z) : Prop := {
  rw_own : own_blocks d' fs inode limit;
  rw_bytes : forall q, 0 <= q / block_size fs < limit ->
    file_byte d' fs inode q = if (pos <=? q) && (q <? pos + Z.of_nat (length l)) then default 0 (l !! Z.to_nat (q - pos)) else file_byte d fs inode q;
  rw_inode : disk_bytes d' (inode_address fs num b) INODE_BYTES = inode';
  rw_frame : forall x, ~ in_file d fs inode limit x -> ~ inode_address fs num b <= x < inode_address fs num b + INODE_BYTES -> dbyte d' x = dbyte d x
}.

Lemma wrote_rewritten fs num b inode inode' limit pos l s s1 d' :
  fs_ok fs -> inode_place fs num b -> length inode' = 124%nat -> apart (ramdisk s) fs inode limit b -> wrote s s1 fs inode limit pos l ->
  stored (ramdisk s1) d' (inode_address fs num b) inode' -> rewritten (ramdisk s) d' fs num b inode inode' limit pos l.
Proof.
  intros Hf Hip Hl [Ha1 Ha2] [W1 W2 W3 W4 W5] Hs. pose proof Hf as [Hbs _]. pose proof (inode_offset_nonneg fs num Hf) as Ho. pose proof (ip_offset _ _ _ Hip) as Hoff.
  assert (INODE_BYTES = 124) as Hib by done. unfold inode_address in *. split.
  - eapply own_blocks_stored; [| |exact Ha2|exact Hs| |]; [lia|done|lia|lia].
  - intros q Hq. rewrite <- W2 by done. unfold file_byte. rewrite (file_block_stored (ramdisk s1) d' fs inode limit b (inode_offset fs num) inode'); [|done || lia..].
    destruct (_ =? 0); [done|]. rewrite Hs. rewrite W4 by done. destruct (_ && _) eqn:E; [|done]. exfalso. pose proof (Z.mod_pos_bound q (block_size fs) ltac:(lia)).
    apply (block_apart fs (file_block (ramdisk s) fs inode (q / block_size fs)) b (file_block (ramdisk s) fs inode (q / block_size fs) * block_size fs + q mod block_size fs));
      [lia|by apply Ha1|lia|lia].
  - apply (list_eq_Z _ _ 124); [apply length_disk_bytes|lia|]. intros i Hi. rewrite disk_bytes_lookup by lia. rewrite Hs.
    unfold inode_address. rewrite (proj2 (Z.leb_le _ _)), (proj2 (Z.ltb_lt _ _)) by lia.
    cbn [andb]. replace (b * block_size fs + inode_offset fs num + i - (b * block_size fs + inode_offset fs num)) with i by lia.
    destruct (lookup_lt_is_Some_2 inode' (Z.to_nat i)) as [v Hv]; [lia|]. by rewrite Hv.
  - unfold inode_address. intros x Hx Hx'. rewrite Hs. destruct (_ && _) eqn:E; [exfalso; apply Hx'; lia|]. apply W3. intros idx Hi Hin. apply Hx. by exists idx.
Qed.

Lemma ext2_write_ok fs limit b file (buf : list Z) s :
  let last := f_position file + Z.of_nat (length buf) in
  fs_ok fs -> length (f_inode file) = 124%nat -> own_blocks (ramdisk s) fs (f_inode file) limit -> inode_place fs (f_inode_num file) b ->
  apart (ramdisk s) fs (f_inode file) limit b -> 0 <= f_position file <= f_size file -> i_size (f_inode file) = Ret (f_size file) ->
  last <= limit * block_size fs -> last < 2 ^ 32 -> Z.of_nat (length buf) < 2 ^ 31 ->
  exists inode' s', ext2_write km fs file buf (Z.of_nat (length buf)) s = Ret ((Z.of_nat (length buf), moved file inode' last (Z.max (f_size file) last)), s') /\
    rewritten (ramdisk s) (ramdisk s') fs (f_inode_num file) b (f_inode file) inode' limit (f_position file) buf /\
    same_blocks (f_inode file) inode' /\ i_size inode' = Ret (Z.max (f_size file) last) /\ mounted_fs s' = mounted_fs s.
Proof using Hkm.
  intros last Hf Hil Hob Hip Hap Hp Hsz Hlim H32 H31. unfold ext2_write.
  destruct (write_loop_ok fs limit buf (S (length buf)) file 0 s) as (i' & s1 & E & W & Hsb & Hsz'); change (Z.to_nat 0) with 0%nat; rewrite ?drop_0; try done; try lia.
  change (Z.to_nat 0) with 0%nat in E, W, Hsz'. rewrite drop_0 in E, W, Hsz'. fold last in E, Hsz'. rewrite (M_bind_Ret _ _ _ _ _ E). cbn [negb moved f_inode_num f_inode].
  destruct Hsb as (Hl' & Hsb). destruct (write_inode_ok fs (f_inode_num file) b i' s1) as (r & s2 & E2 & Hst & Hm2); [done|done|lia|].
  rewrite (M_bind_Ret _ _ _ _ _ E2), swrap_small by lia. exists i', s2. split; [done|]. split; [|split; [by split|split; [done|destruct W; congruence]]].
  eapply wrote_rewritten; try done. lia.
Qed.

End allocating.
