(* ===== verification/Ext2Tree.v ===== *)
(** * Paths on the ext2 disk

    What a directory on the disk lists, which inode a path leads to, and that the calls
    the Rust side makes read and write the contents of the file at a path; that no call
    keeps a buffer; and what follows a mount that fails. *)

From S2P Require Import Prelude Memory Ext2Disk Ext2Files.

Local Open Scope Z_scope.

(** ** Directories *)
Abbreviation entries := (list (list Z * Z)).

(** The entries of a directory block from [off] on: a name, its inode and the distance to
    the next entry; the inode 0 ends the list, and so does the end of the block. *)
Inductive entries_at (bs : Z) (blk : list Z) : Z -> entries -> Prop :=
| entries_full off : bs <= off -> entries_at bs blk off []
| entries_end off : off < bs -> field 4 off blk = Ret 0 -> entries_at bs blk off []
| entries_cons off name inode rec es :
    0 <= off < bs -> field 4 off blk = Ret inode -> inode <> 0 -> field 1 (off + 6) blk = Ret (Z.of_nat (length name)) -> name <> [] -> Forall (fun c => c <> 0) name ->
    slice (off + 8) (Z.of_nat (length name)) blk = Ret name -> field 2 (off + 4) blk = Ret rec -> 0 < rec -> off + rec <= bs ->
    entries_at bs blk (off + rec) es -> entries_at bs blk off ((name, inode) :: es).

Fixpoint lookup_name (name : list Z) (es : entries) : option Z :=
  match es with
  | [] => None
  | (n, i) :: es' => if bool_decide (n = name) then Some i else lookup_name name es'
  end.

Lemma lookup_name_app name a b : lookup_name name (a ++ b) = match lookup_name name a with Some i => Some i | None => lookup_name name b end.
Proof. induction a as [|[n i] a IH]; cbn; [done|]. by destruct (bool_decide _). Qed.

Lemma lookup_name_elem name es i : lookup_name name es = Some i -> (name, i) ∈ es.
Proof.
  induction es as [|[n j] es IH]; cbn; [done|]. case_bool_decide as Hn; [intros [= ->]; subst n; left|right; by apply IH].
Qed.

Lemma entry_loop_ok bs blk name : forall off es, entries_at bs blk off es -> bs <= 0x100000 ->
  forall fuel, (Z.to_nat (bs - off) < fuel)%nat -> entry_loop fuel bs blk off name = Ret (lookup_name name es).
Proof.
  induction 1 as [off Hge|off Hlt Hz|off nm inode rec es Ho Hi Hi0 Hl Hne Hnul Hs Hr Hr0 Hle _ IH]; intros Hbs [|f] Hf; try lia; cbn [entry_loop].
  - by rewrite (proj2 (Z.ltb_ge off bs)).
  - rewrite (proj2 (Z.ltb_lt off bs)), Hz by done. done.
  - rewrite (proj2 (Z.ltb_lt off bs)), Hi by lia. cbn [negb]. step_ret. rewrite (proj2 (Z.eqb_neq inode 0)), Hl by done. step_ret.
    assert ((0 <? Z.of_nat (length nm)) = true) as -> by (destruct nm; [done|apply Z.ltb_lt; cbn [length]; lia]). rewrite Hs. step_ret. cbn [andb]. rewrite until_nul_id by done.
    cbn [lookup_name]. case_bool_decide; [done|]. rewrite Hr. step_ret. rewrite wrap_small by lia. apply IH; lia.
Qed.

(** Inode [num] is a directory whose blocks list [blocks]. *)
Record directory_at (d : gmap Z Z) (fs : ext2_fs) (num b : Z) (inode : list Z) (blocks : list entries) : Prop := {
  di_place : inode_place fs num b;
  di_inode : inode = disk_bytes d (inode_address fs num b) INODE_BYTES;
  di_mode : exists mode, i_mode inode = Ret mode /\ Z.land mode 0xF000 = EXT2_S_IFDIR;
  di_size : i_size inode = Ret (Z.of_nat (length blocks) * block_size fs);
  di_limit : Z.of_nat (length blocks) <= 12 + block_size fs / 4 /\ Z.of_nat (length blocks) * block_size fs < 2 ^ 32;
  di_indirect : 12 < Z.of_nat (length blocks) -> on_disk fs (indirect inode);
  di_blocks : forall i es, blocks !! i = Some es ->
    on_disk fs (file_block d fs inode (Z.of_nat i)) /\ entries_at (block_size fs) (block_bytes d fs (file_block d fs inode (Z.of_nat i))) 0 es
}.

Definition directory d fs num blocks : Prop := exists b inode, directory_at d fs num b inode blocks.

(** Inode [num] is something else. *)
Definition leaf (d : gmap Z Z) (fs : ext2_fs) (num : Z) : Prop :=
  exists b mode, inode_place fs num b /\ i_mode (disk_bytes d (inode_address fs num b) INODE_BYTES) = Ret mode /\ Z.land mode 0xF000 <> EXT2_S_IFDIR.

(** The directories of a disk by their inodes. *)
Abbreviation tree := (gmap Z (list entries)).

Definition leaf_of (t : tree) (num : Z) : Prop := t !! num = None /\ exists dir blocks name, t !! dir = Some blocks /\ (name, num) ∈ concat blocks.

Record tree_ok (d : gmap Z Z) (fs : ext2_fs) (t : tree) : Prop := {
  to_root : is_Some (t !! 2);
  to_dirs : forall num blocks, t !! num = Some blocks -> directory d fs num blocks;
  to_leaves : forall num, leaf_of t num -> leaf d fs num
}.

(** ** Paths *)
Fixpoint split_slash (p : list Z) : list (list Z) :=
  match p with
  | [] => [[]]
  | c :: p' => if c =? 47 then [] :: split_slash p' else match split_slash p' with w :: ws => (c :: w) :: ws | [] => [[c]] end
  end.

Definition components (p : list Z) : list (list Z) := filter (fun w => w <> []) (split_slash p).

(** No component is longer than the code's array holds. *)
Definition short_path (p : list Z) : Prop := Forall (fun w : list Z => (length w <= 255)%nat) (split_slash p).

Fixpoint resolve (t : tree) (cur : Z) (ws : list (list Z)) : option Z :=
  match ws with
  | [] => Some cur
  | w :: ws' =>
      match t !! cur with
      | None => None
      | Some blocks => match lookup_name w (concat blocks) with None => None | Some i => resolve t i ws' end
      end
  end.

Section allocating.

Context (km : nat -> option (Z -> Z)) (Hkm : forall n, is_Some (km n)).

(** A directory's blocks are searched in their order. *)
Lemma dir_loop_ok fs d num b inode blocks name fuel : forall idx dir_buf s,
  fs_ok fs -> ramdisk s = d -> directory_at d fs num b inode blocks -> (idx <= length blocks)%nat -> length dir_buf = Z.to_nat (block_size fs) -> (length blocks - idx < fuel)%nat ->
  exists s', dir_loop km fuel fs inode name dir_buf (Z.of_nat idx) s = Ret (Some (lookup_name name (concat (drop idx blocks))), s') /\ ramdisk s' = d /\ mounted_fs s' = mounted_fs s.
Proof using Hkm.
  induction fuel as [|f IH]; intros idx dir_buf s Hf Hd Hdir Hi Hl Hfu; [lia|]. cbn [dir_loop]. pose proof Hf as [Hbs _]. pose proof Hdir as [_ Hin _ Hsz [Hlim H32] Hind Hbl].
  assert (length inode = 124%nat) as Hil by (rewrite Hin; apply length_disk_bytes).
  rewrite (M_bind_Ret _ _ s (Z.of_nat (length blocks) * block_size fs) s) by (unfold lift; by rewrite Hsz). rewrite wrap_small by nia.
  destruct (blocks !! idx) as [es|] eqn:Eb.
  - assert (idx < length blocks)%nat as Hlt by (by apply lookup_lt_Some in Eb). rewrite (proj2 (Z.ltb_lt _ _)) by nia. cbn [negb].
    destruct (Hbl _ _ Eb) as [Hon Hes].
    destruct (get_block_number_ok km Hkm fs inode (Z.of_nat idx) s) as (s1 & E1 & Hd1 & Hm1); [done|done|lia|intros; right; apply Hind; lia|].
    rewrite (M_bind_Ret _ _ _ _ _ E1), Hd. set (n := file_block d fs inode (Z.of_nat idx)) in *. rewrite (proj2 (Z.eqb_neq n 0)) by (destruct Hon; lia).
    rewrite (M_bind_Ret _ _ _ _ _ (read_block_ok fs n dir_buf s1 Hf Hon Hl)). cbn [Z.eqb negb]. rewrite Hd1, Hd.
    rewrite (M_bind_Ret _ _ s1 (lookup_name name es) s1) by (unfold lift; by rewrite (entry_loop_ok _ _ name 0 es) by (done || lia)).
    rewrite (drop_S blocks es idx) by done. cbn [concat]. rewrite lookup_name_app. destruct (lookup_name name es); [exists s1; by rewrite Hd1, Hm1|].
    replace (Z.of_nat idx + 1) with (Z.of_nat (S idx)) by lia. rewrite <- Hm1. apply IH; [done|congruence|done|lia|apply length_disk_bytes|lia].
  - assert (idx = length blocks) as -> by (apply lookup_ge_None in Eb; lia). rewrite (proj2 (Z.ltb_ge _ _)) by lia. cbn [negb]. rewrite drop_all. by exists s.
Qed.

Lemma lookup_component_ok fs t cur name s :
  fs_ok fs -> tree_ok (ramdisk s) fs t -> is_Some (t !! cur) \/ leaf_of t cur ->
  exists s', lookup_component km fs cur name s = Ret (match t !! cur with Some blocks => lookup_name name (concat blocks) | None => None end, s') /\
    ramdisk s' = ramdisk s /\ mounted_fs s' = mounted_fs s.
Proof using Hkm.
  intros Hf Ht Hc. unfold lookup_component. destruct (t !! cur) as [blocks|] eqn:Ec.
  - destruct (to_dirs _ _ _ Ht _ _ Ec) as (b & inode & Hdir). pose proof Hdir as [Hp Hin [mode [Hm Hmd]] _ [Hlim _] _ _].
    destruct (read_inode_ok km Hkm fs cur b s Hf Hp) as (s1 & E1 & Hd1 & Hm1). rewrite (M_bind_Ret _ _ _ _ _ E1). rewrite <- Hin.
    rewrite (M_bind_Ret _ _ s1 mode s1) by (unfold lift; by rewrite Hm). rewrite Hmd, Z.eqb_refl. cbn [negb].
    destruct (kmalloc_gives km Hkm (block_size fs) s1) as (buf & s2 & E2 & Hl & Hd2 & Hm2); [destruct Hf; lia|]. rewrite (M_bind_Ret _ _ _ _ _ E2).
    destruct (dir_loop_ok fs (ramdisk s) cur b inode blocks name (Z.to_nat (14 + block_size fs / 4)) 0 buf s2) as (s3 & E3 & Hd3 & Hm3); [done|congruence|done|lia|done|lia|].
    rewrite (M_bind_Ret _ _ _ _ _ E3). rewrite drop_0. rewrite (M_bind_Ret _ _ s3 tt (mkC (ramdisk s3) (blockdev_ready s3) (mounted_fs s3) (ext2_initialized s3) (allocations s3) (live s3 - 1) (output s3))) by done.
    eexists. split; [by destruct (lookup_name _ _)|]. split; [exact Hd3|cbn; congruence].
  - destruct Hc as [[? ?]|Hlf]; [done|]. destruct (to_leaves _ _ _ Ht _ Hlf) as (b & mode & Hp & Hm & Hmd).
    destruct (read_inode_ok km Hkm fs cur b s Hf Hp) as (s1 & E1 & Hd1 & Hm1). rewrite (M_bind_Ret _ _ _ _ _ E1).
    rewrite (M_bind_Ret _ _ s1 mode s1) by (unfold lift; by rewrite Hm). rewrite (proj2 (Z.eqb_neq _ _)) by done. by exists s1.
Qed.

(** *** Splitting *)
Lemma split_slash_cons p : exists w ws, split_slash p = w :: ws.
Proof. destruct p as [|c p]; cbn; [by eexists _, _|]. destruct (c =? 47); [by eexists _, _|]. destruct (split_slash p); by eexists _, _. Qed.

Lemma next_component_ok n : forall p, (length (default [] (head (split_slash p))) <= n)%nat ->
  exists r, next_component n p = (default [] (head (split_slash p)), r) /\
    ((r = [] /\ split_slash p = [p]) \/ (exists r', r = 47 :: r' /\ split_slash p = default [] (head (split_slash p)) :: split_slash r')) /\
    (length r + length (default [] (head (split_slash p))) = length p)%nat.
Proof.
  induction n as [|n IH]; intros p Hn.
  - assert (p = [] \/ exists p', p = 47 :: p') as [->|[p' ->]].
    { destruct p as [|c p]; [by left|right]. cbn [split_slash] in Hn. destruct (Z.eqb_spec c 47) as [->|]; [by eexists|]. destruct (split_slash p); cbn in Hn; lia. }
    + exists []. cbn. split; [done|]. split; [by left|done].
    + exists (47 :: p'). cbn. split; [done|]. split; [right; by eexists|lia].
  - destruct p as [|c p]; [exists []; cbn; split; [done|split; [by left|done]]|]. cbn [split_slash next_component] in Hn |- *. destruct (Z.eqb_spec c 47) as [->|].
    + exists (47 :: p). cbn. split; [done|]. split; [right; by eexists|lia].
    + destruct (split_slash_cons p) as (w & ws & Ew). rewrite Ew in Hn |- *. cbn in Hn. destruct (IH p) as (r & -> & Hr & Hlen); [rewrite Ew; cbn; lia|].
      rewrite Ew in Hr, Hlen |- *. cbn [head default from_option id] in Hr, Hlen |- *. exists r. split; [done|]. split; [|cbn [length]; cbn [default from_option id head] in Hlen; lia].
      destruct Hr as [[-> Hr]|(r' & -> & Hr)]; [left|right].
      * split; [done|]. by injection Hr as -> ->.
      * exists r'. split; [done|]. by injection Hr as ->.
Qed.

(** The first component taken off. *)
Lemma components_step p : p <> [] -> short_path p ->
  exists w r, next_component 255 p = (w, r) /\ components p = (if bool_decide (w = []) then [] else [w]) ++ components (skip_slash r) /\
    short_path (skip_slash r) /\ (length (skip_slash r) < length p)%nat.
Proof.
  intros Hp Hs. unfold short_path in Hs. destruct (split_slash_cons p) as (w & ws & Ew). destruct (next_component_ok 255 p) as (r & E & Hr & Hlen).
  { rewrite Ew in Hs |- *. by apply Forall_cons in Hs as [Hs _]. }
  rewrite Ew in E, Hr, Hlen. cbn [head default from_option id] in E, Hr, Hlen. exists w, r. split; [done|]. unfold components, short_path. rewrite Ew in Hs |- *.
  destruct Hr as [[-> Hr]|(r' & -> & Hr)].
  - injection Hr as -> ->. cbn [skip_slash split_slash]. rewrite !filter_cons. case_bool_decide; [done|]. rewrite decide_True by done. cbn. split; [done|].
    split; [repeat constructor; cbn; lia|destruct p; [done|cbn; lia]].
  - injection Hr as ->. change (skip_slash (47 :: r')) with r'. apply Forall_cons in Hs as [_ Hs]. rewrite filter_cons. cbn [length] in Hlen.
    split; [case_bool_decide; [by rewrite decide_False by (intros ?; done)|by rewrite decide_True]|]. split; [done|lia].
Qed.

Lemma path_loop_ok fs t fuel : forall cur p s,
  fs_ok fs -> tree_ok (ramdisk s) fs t -> is_Some (t !! cur) \/ leaf_of t cur -> short_path p -> (length p < fuel)%nat ->
  exists s', path_loop km fuel fs cur p s = Ret (resolve t cur (components p), s') /\ ramdisk s' = ramdisk s /\ mounted_fs s' = mounted_fs s.
Proof using Hkm.
  induction fuel as [|f IH]; intros cur p s Hf Ht Hc Hs Hfu; [lia|]. cbn [path_loop]. destruct (decide (p = [])) as [->|Hp]; [by exists s|].
  destruct (components_step p Hp Hs) as (w & r & E & Hcm & Hs' & Hlt). rewrite E, Hcm.
  replace (match p with [] => _ | _ => _ end) with (if bool_decide (w = []) then path_loop km f fs cur (skip_slash r)
    else r0 ← lookup_component km fs cur w; match r0 with None => mret None | Some inode => path_loop km f fs inode (skip_slash r) end) by (by destruct p).
  case_bool_decide as Hw; [apply IH; try done; lia|]. cbn [app resolve].
  destruct (lookup_component_ok fs t cur w s Hf Ht Hc) as (s1 & E1 & Hd1 & Hm1). rewrite (M_bind_Ret _ _ _ _ _ E1).
  destruct (t !! cur) as [blocks|] eqn:Ec; [|by exists s1]. destruct (lookup_name w (concat blocks)) as [i|] eqn:El; [|by exists s1].
  rewrite <- Hd1, <- Hm1. apply IH; [done|by rewrite Hd1| |done|lia]. destruct (t !! i) eqn:Ei; [left; done|right]. split; [done|].
  exists cur, blocks, w. split; [done|]. by apply lookup_name_elem.
Qed.

Lemma components_skip p : components (skip_slash p) = components p /\ (short_path p -> short_path (skip_slash p)).
Proof.
  destruct p as [|c p]; [done|]. cbn [skip_slash]. destruct (c =? 47) eqn:Ec; [|done]. unfold components, short_path. cbn [split_slash]. rewrite Ec. split.
  - rewrite filter_cons. by rewrite decide_False by (intros ?; done).
  - by intros [_ H]%Forall_cons.
Qed.

Lemma path_to_inode_ok fs t path s :
  fs_ok fs -> tree_ok (ramdisk s) fs t -> short_path path ->
  exists s', ext2_path_to_inode km fs path s = Ret (resolve t 2 (components path), s') /\ ramdisk s' = ramdisk s /\ mounted_fs s' = mounted_fs s.
Proof using Hkm.
  intros Hf Ht Hs. destruct (components_skip path) as [<- Hs']. apply path_loop_ok; [done|done|left; apply Ht|by apply Hs'|lia].
Qed.

(** *** Calls on a path *)

(** What [k] does with the open file is what [with_file] does. *)
Lemma with_file_ok {A} fs t path num b size (none : A) k s :
  fs_ok fs -> mounted_fs s = Mounted fs -> tree_ok (ramdisk s) fs t -> short_path path -> resolve t 2 (components path) = Some num -> inode_place fs num b ->
  let inode := disk_bytes (ramdisk s) (inode_address fs num b) INODE_BYTES in
  i_size inode = Ret size ->
  exists s1, ramdisk s1 = ramdisk s /\ mounted_fs s1 = mounted_fs s /\
    forall a file' s2, k fs (mkFile num inode 0 size None 0 false) s1 = Ret ((a, file'), s2) -> f_buffer file' = None ->
    exists s3, with_file km path none k s = Ret (a, s3) /\ ramdisk s3 = ramdisk s2 /\ mounted_fs s3 = mounted_fs s2.
Proof using Hkm.
  intros Hf Hm Ht Hsp Hr Hp inode Hsz. destruct (path_to_inode_ok fs t path s Hf Ht Hsp) as (s1 & E1 & Hd1 & Hm1). rewrite Hr in E1.
  destruct (kmalloc_gives km Hkm 160 s1) as (buf & s2 & E2 & _ & Hd2 & Hm2); [lia|]. destruct (read_inode_ok km Hkm fs num b s2 Hf Hp) as (s3 & E3 & Hd3 & Hm3).
  exists s3. split; [congruence|]. split; [congruence|]. intros a file' s4 Ek Hb. unfold with_file.
  assert (ext2_open km path s = Ret (Some (mkFile num inode 0 size None 0 false), s3)) as Eo.
  { unfold ext2_open, with_fs. rewrite (M_bind_Ret _ _ s s s) by done. rewrite Hm, (M_bind_Ret _ _ _ _ _ E1), (M_bind_Ret _ _ _ _ _ E2), (M_bind_Ret _ _ _ _ _ E3).
    rewrite Hd2, Hd1. fold inode. rewrite (M_bind_Ret _ _ s3 size s3) by (unfold lift; by rewrite Hsz). done. }
  rewrite (M_bind_Ret _ _ _ _ _ Eo). unfold with_fs. rewrite (M_bind_Ret _ _ s3 s3 s3) by done. rewrite Hm3, Hm2, Hm1, Hm, (M_bind_Ret _ _ _ _ _ Ek).
  unfold ext2_close. rewrite Hb. eexists. split; [done|]. done.
Qed.


(** The first [r] bytes of what a file contains. *)
Lemma take_file_bytes d fs inode r n : 0 <= r <= n -> take (Z.to_nat r) (file_bytes d fs inode 0 n) = file_bytes d fs inode 0 r.
Proof.
  intros Hr. replace n with (r + (n - r)) by lia. rewrite file_bytes_app by lia. apply take_app_length'. by rewrite length_file_bytes.
Qed.

Lemma vfs_read_ok fs t path num b size dst count s :
  fs_ok fs -> mounted_fs s = Mounted fs -> tree_ok (ramdisk s) fs t -> short_path path -> resolve t 2 (components path) = Some num -> inode_place fs num b ->
  let inode := disk_bytes (ramdisk s) (inode_address fs num b) INODE_BYTES in
  let r := Z.min count size in
  i_size inode = Ret size -> 0 <= size -> readable (ramdisk s) fs inode size -> 0 <= count < 2 ^ 31 -> r <= Z.of_nat (length dst) ->
  exists s', ext2_vfs_read km path dst count s = Ret ((r, take (Z.to_nat r) (file_bytes (ramdisk s) fs inode 0 size) ++ drop (Z.to_nat r) dst), s') /\
    ramdisk s' = ramdisk s /\ mounted_fs s' = mounted_fs s.
Proof using Hkm.
  intros Hf Hm Ht Hsp Hr Hp inode r Hsz Hs0 Hrd Hc Hl. unfold ext2_vfs_read. rewrite (wrap_small 64 count) by lia.
  destruct (with_file_ok fs t path num b size (-1, dst) (fun fs file => '(r, dst, file) ← ext2_read km fs file dst count; mret ((r, dst), file)) s Hf Hm Ht Hsp Hr Hp Hsz) as (s1 & Hd1 & Hm1 & Hk).
  fold inode in Hk. set (file := mkFile num inode 0 size None 0 false) in *.
  destruct (ext2_read_ok km Hkm fs file dst count s1) as (s2 & E & Hd2 & Hm2); cbn [file f_inode f_position f_size]; [done|by rewrite Hd1|lia|lia|lia|lia|].
  cbn [file f_inode f_position f_size] in E. rewrite Z.sub_0_r, Z.max_r in E by lia. fold r in E. rewrite Hd1 in E. rewrite take_file_bytes by lia.
  destruct (Hk (r, file_bytes (ramdisk s) fs inode 0 r ++ drop (Z.to_nat r) dst) (seek file (0 + r)) s2) as (s3 & E3 & Hd3 & Hm3); [by rewrite (M_bind_Ret _ _ _ _ _ E)|done|].
  exists s3. split; [exact E3|]. by rewrite Hd3, Hm3, Hd2, Hm2.
Qed.

End allocating.








Lemma own_readable d fs inode limit size :
  fs_ok fs -> length inode = 124%nat -> own_blocks d fs inode limit -> size <= limit * block_size fs -> readable d fs inode size.
Proof.
  intros [Hbs _] Hl [H1 H2 H3 H4] Hs. split; [done|]. intros idx Hi Hlt. assert (idx < limit) by nia. split; [lia|]. split; [intros; right; apply H4; lia|]. right. by apply H2.
Qed.

(** C18. Reading by path.  On a mounted disk whose directories are [t], [ext2_vfs_read] of
    a path reads the file that the components of the path lead to from the root: as many
    bytes of its contents as it has and as were asked for, holes as zeros, and the rest of
    the buffer is kept; a path that leads nowhere, or through something that is not a
    directory, gives -1.  The disk and the mount are unchanged.  The allocator is assumed
    to succeed. *)
Theorem ext2_reads_path km fs t path dst count s :
  (forall n, is_Some (km n)) -> fs_ok fs -> mounted_fs s = Mounted fs -> tree_ok (ramdisk s) fs t -> short_path path -> 0 <= count < 2 ^ 31 ->
  match resolve t 2 (components path) with
  | None => exists s', ext2_vfs_read km path dst count s = Ret ((-1, dst), s') /\ ramdisk s' = ramdisk s /\ mounted_fs s' = mounted_fs s
  | Some num =>
      forall b size, inode_place fs num b ->
      let inode := disk_bytes (ramdisk s) (inode_address fs num b) INODE_BYTES in
      let r := Z.min count size in
      i_size inode = Ret size -> 0 <= size -> readable (ramdisk s) fs inode size -> r <= Z.of_nat (length dst) ->
      exists s', ext2_vfs_read km path dst count s = Ret ((r, take (Z.to_nat r) (file_bytes (ramdisk s) fs inode 0 size) ++ drop (Z.to_nat r) dst), s') /\
        ramdisk s' = ramdisk s /\ mounted_fs s' = mounted_fs s
  end.
Proof.
  intros Hkm Hf Hm Ht Hsp Hc. destruct (resolve t 2 (components path)) as [num|] eqn:Er.
  - intros b size Hp inode r Hsz Hs0 Hrd Hl. by apply (vfs_read_ok km Hkm fs t path num).
  - destruct (path_to_inode_ok km Hkm fs t path s Hf Ht Hsp) as (s1 & E1 & Hd1 & Hm1). rewrite Er in E1. exists s1. split; [|done].
    unfold ext2_vfs_read, with_file. rewrite (M_bind_Ret _ _ s None s1); [done|]. unfold ext2_open, with_fs. rewrite (M_bind_Ret _ _ s s s) by done.
    by rewrite Hm, (M_bind_Ret _ _ _ _ _ E1).
Qed.


(** A disk with blocks of 1024 bytes: the inode table in block 5, the root directory in
    block 6 and the file [a] with the bytes [xyz] in block 7. *)
Definition demo_inode (mode size block : Z) : list Z := le_bytes 2 mode ++ [0; 0] ++ le_bytes 4 size ++ replicate 32 0 ++ le_bytes 4 block ++ replicate 80 0.

Definition demo_fs : ext2_fs := mkFs (replicate 216 0) (le_bytes 4 3 ++ le_bytes 4 4 ++ le_bytes 4 5 ++ le_bytes 2 9 ++ le_bytes 2 5 ++ replicate 16 0) 1024 8 64 1 128 11.

Definition demo_disk : gmap Z Z :=
  poke 5248 (demo_inode 0x4000 1024 6) (poke 5376 (demo_inode 0x8000 3 7) (poke 6144 (le_bytes 4 3 ++ le_bytes 2 1024 ++ [1; 1; 97]) (poke 7168 [120; 121; 122] ∅))).

Definition demo_c : cstate := mkC demo_disk true (Mounted demo_fs) true 0 0 [].
Definition demo_km : nat -> option (Z -> Z) := fun _ => Some (fun _ => 7).
Definition demo_tree : tree := {[2 := [[([97], 3)]]]}.

Lemma demo_place num : 1 <= num <= 8 -> inode_place demo_fs num 5.
Proof.
  intros Hn. assert (In num (seqZ 1 8)) as Hin by (apply list_elem_of_In, elem_of_seqZ; lia).
  repeat (destruct Hin as [<-|Hin]; [split; [done|by vm_compute|split; vm_compute; congruence|vm_compute; congruence]|]). done.
Qed.


Lemma demo_fs_ok : fs_ok demo_fs.
Proof. by split. Qed.

Lemma demo_root : directory_at demo_disk demo_fs 2 5 (demo_inode 0x4000 1024 6) [[([97], 3)]].
Proof.
  split; [by apply demo_place|by vm_compute|exists 0x4000; by vm_compute|by vm_compute|by split|done|].
  intros [|i] es He; [|done]. injection He as <-. split; [by split|].
  eapply (entries_cons _ _ 0 [97] 3 1024); [by split|by vm_compute|done|by vm_compute|done|by repeat constructor|by vm_compute|by vm_compute|done|done|]. by apply entries_full.
Qed.

Lemma demo_leaf num : leaf_of demo_tree num -> num = 3.
Proof.
  intros (_ & dir & blocks & name & Ht & Hin). unfold demo_tree in Ht; apply lookup_singleton_Some in Ht as [_ <-]. cbn in Hin. apply list_elem_of_singleton in Hin. congruence.
Qed.

Lemma demo_tree_ok : tree_ok demo_disk demo_fs demo_tree.
Proof.
  split; [by eexists| |].
  - intros num blocks Ht. unfold demo_tree in Ht; apply lookup_singleton_Some in Ht as [<- <-]. eexists _, _. apply demo_root.
  - intros num ->%demo_leaf. exists 5, 0x8000. split; [by apply demo_place|]. by vm_compute.
Qed.



Lemma demo_own : own_blocks demo_disk demo_fs (demo_inode 0x8000 3 7) 1.
Proof.
  split; [done| |intros; lia|intros; lia]. intros i Hi. assert (i = 0) as -> by lia. change (on_disk demo_fs 7). by split.
Qed.

Lemma demo_short : short_path [47; 97].
Proof. repeat constructor; cbn; lia. Qed.

Lemma ext2_reads_path_witness :
  exists s', ext2_vfs_read demo_km [47; 97] (replicate 5 0) 5 demo_c = Ret ((3, [120; 121; 122; 0; 0]), s') /\ ramdisk s' = demo_disk /\ mounted_fs s' = Mounted demo_fs.
Proof.
  pose proof (ext2_reads_path demo_km demo_fs demo_tree [47; 97] (replicate 5 0) 5 demo_c ltac:(by eexists) demo_fs_ok eq_refl demo_tree_ok demo_short ltac:(lia)) as H.
  change (resolve demo_tree 2 (components [47; 97])) with (Some 3) in H. cbv beta iota in H. specialize (H 5 3 (demo_place 3 ltac:(lia))).
  assert (disk_bytes (ramdisk demo_c) (inode_address demo_fs 3 5) INODE_BYTES = demo_inode 0x8000 3 7) as Ei by (by vm_compute).
  cbv zeta in H. rewrite Ei in H. destruct H as (s' & E & H); [by vm_compute|lia|by apply (own_readable _ _ _ 1); [apply demo_fs_ok| |apply demo_own|]|cbn; lia|].
  exists s'. split; [|exact H]. rewrite E. by vm_compute.
Defined.


(** ** No call keeps a buffer *)
Fixpoint run_calls (km : nat -> option (Z -> Z)) (cs : list vfs_call) : M cstate (list Z) :=
  match cs with
  | [] => mret []
  | c :: cs' => r ← vfs_run km c; rs ← run_calls km cs'; mret (r :: rs)
  end.

(** Buffers.  Whichever allocations fail, a sequence of calls that returns leaves as
    many buffers allocated as there were and the file system mounted as it was, and when
    all of them are reads the disk is unchanged. *)
Theorem ext2_calls_leak_nothing km cs s rs s' :
  run_calls km cs s = Ret (rs, s') ->
  length rs = length cs /\ live s' = live s /\ mounted_fs s' = mounted_fs s /\ (forallb reads_only cs = true -> ramdisk s' = ramdisk s).
Proof.
  revert s rs s'. induction cs as [|c cs IH]; intros s rs s' E; cbn [run_calls] in E.
  - apply mret_inv in E as [<- <-]. done.
  - apply M_bind_inv in E as (r & s1 & E1 & E). apply M_bind_inv in E as (rs1 & s2 & E2 & E). apply mret_inv in E as [<- <-].
    destruct (quiet_vfs_run km c _ _ _ E1) as (L1 & M1 & D1). destruct (IH _ _ _ E2) as (L & L2 & M2 & D2). split; [cbn; lia|]. split; [lia|]. split; [congruence|].
    cbn [forallb]. intros [Hc Hcs]%andb_prop. rewrite D2, D1; done.
Qed.

(** The third allocation fails: the first call is cut short and returns -1. *)
Definition demo_km3 : nat -> option (Z -> Z) := fun n => if Nat.eqb n 2 then None else Some (fun _ => 7).

Definition demo_calls : list vfs_call :=
  [VWrite [47; 97] [65] 1; VWrite [47; 97] [66] 1; VRead [47; 97] (replicate 4 0) 4; VMkdir [47; 98]; VStat [47; 98]].

Lemma demo_calls_return : (match run_calls demo_km3 demo_calls demo_c with Ret (rs, _) => rs | _ => [] end) = [-1; 1; 3; 0; -1].
Proof. by vm_compute. Qed.

Lemma ext2_calls_leak_nothing_witness : exists rs s', run_calls demo_km3 demo_calls demo_c = Ret (rs, s') /\ rs = [-1; 1; 3; 0; -1] /\ live s' = 0.
Proof.
  pose proof demo_calls_return as H. destruct (run_calls demo_km3 demo_calls demo_c) as [[rs s']| | |] eqn:E; [|discriminate H..].
  exists rs, s'. split; [reflexivity|]. split; [exact H|]. exact (proj1 (proj2 (ext2_calls_leak_nothing _ _ _ _ _ E))).
Defined.

(** ** Mounting *)

Lemma sector_ok k buf s :
  k = 1 \/ k = 2 -> (512 <= length buf)%nat -> ramdisk_read k 1 buf s = Ret ((0, disk_bytes (ramdisk s) (512 * k) 512 ++ drop 512 buf), s).
Proof.
  intros Hk Hl. unfold ramdisk_read. assert (out_of_disk k 1 = false) as -> by (by destruct Hk as [-> | ->]).
  rewrite (M_bind_Ret _ _ s (Some (512 * k, 512)) s) by (by destruct Hk as [-> | ->]). rewrite (M_bind_Ret _ _ s s s) by done.
  rewrite (M_bind_Ret _ _ s (disk_bytes (ramdisk s) (512 * k) 512 ++ drop 512 buf) s); [done|]. unfold lift.
  rewrite splice_ok by (rewrite ?length_disk_bytes; lia). change (Z.to_nat 0) with 0%nat. by rewrite take_0, length_disk_bytes.
Qed.

Lemma take_disk_bytes d off n k : 0 <= k <= n -> take (Z.to_nat k) (disk_bytes d off n) = disk_bytes d off k.
Proof.
  intros Hk. apply (list_eq_Z _ _ k); [rewrite length_take, length_disk_bytes; lia|apply length_disk_bytes|]. intros i Hi.
  rewrite lookup_take_lt, !disk_bytes_lookup by lia. done.
Qed.

Lemma mount_failed_ok msg n s : exists s', mount_failed msg n s = Ret (-1, s') /\ ramdisk s' = ramdisk s /\ mounted_fs s' = Dangling /\ live s' = live s - Z.of_nat n.
Proof. eexists. split; [done|]. done. Qed.

Definition needs_mount (c : vfs_call) : bool := match c with VRmdir _ | VUnlink _ => false | _ => true end.

Lemma dangling_faults km c s : mounted_fs s = Dangling -> needs_mount c = true -> vfs_run km c s = Fault.
Proof.
  intros Hm Hc. assert (forall A (none : A) k, with_fs none k s = Fault) as Hw by (intros A none k; unfold with_fs, mbind, M_bind_inst, get; cbn; by rewrite Hm).
  assert (forall A B (m : M cstate A) (k : A -> M cstate B), m s = Fault -> (a ← m; k a) s = Fault) as Hb by (intros A B m k E; unfold mbind, M_bind_inst; by rewrite E).
  assert (forall A p (none : A) k, with_file km p none k s = Fault) as Hf by (intros A p none k; apply Hb, Hw).
  destruct c; cbn [vfs_run]; try done; try apply Hf; try (apply Hb; first [apply Hf|apply Hw]). apply Hw.
Qed.

(** The file system with the descriptors [gds]. *)
Definition with_descriptors (fs : ext2_fs) (gds : list Z) : ext2_fs :=
  mkFs (superblock fs) gds (block_size fs) (inodes_per_group fs) (blocks_per_group fs) (group_count fs) (inode_size fs) (first_inode fs).

(** What [ext2_init] does once the magic number is read. *)
Definition mount_descriptors (km : nat -> option (Z -> Z)) (fs : ext2_fs) : M cstate Z :=
  gds ← rust_kmalloc km (group_count fs * 32);
  match gds with
  | None => mount_failed (line "[EXT2] Failed to allocate group descriptors") 1
  | Some gds =>
      gd_buf ← rust_kmalloc km (u32 (u32 ((group_count fs * 32 + block_size fs - 1) / block_size fs) * block_size fs));
      match gd_buf with
      | None => mount_failed (line "[EXT2] Failed to allocate group descriptor buffer") 2
      | Some gd_buf =>
          '(r, gd_buf) ← ramdisk_read 2 (i32 (u32 ((group_count fs * 32 + block_size fs - 1) / block_size fs))) gd_buf;
          if negb (r =? 0) then mount_failed (line "[EXT2] Failed to read group descriptors") 3
          else
            bs ← lift (slice 0 (memcpy_len (group_count fs * 32)) gd_buf);
            gds ← lift (splice 0 bs gds);
            _ ← rust_kfree;
            _ ← modify (fun s => mkC (ramdisk s) (blockdev_ready s) (Mounted (with_descriptors fs gds)) true (allocations s) (live s) (output s));
            _ ← vga_print (line "[EXT2] ext2 filesystem initialized successfully");
            _ ← serial_write (line "[EXT2] ext2 filesystem initialized successfully");
            mret 0
      end
  end.

Lemma mount_reads_superblock km (Hkm : forall n, is_Some (km n)) dev s :
  exists s1, ramdisk s1 = ramdisk s /\ live s1 = live s + 1 /\
    ext2_c_init km (Some dev) s =
    (if negb (le_word (disk_bytes (ramdisk s) 568 2) =? EXT2_SUPER_MAGIC) then mount_failed (line "[EXT2] Invalid ext2 magic number") 1
     else fs ← lift (fs_parameters (disk_bytes (ramdisk s) 512 216)); mount_descriptors km fs) s1.
Proof.
  unfold ext2_c_init, ext2_init. do 2 (erewrite M_bind_Ret by done). cbn [ramdisk blockdev_ready mounted_fs ext2_initialized allocations live output].
  set (s0 := mkC _ _ _ _ _ _ _). unfold rust_kmalloc at 1. destruct (Hkm (allocations s0)) as [junk Hj].
  eassert (rust_kmalloc km 256 s0 = Ret (Some (junk <$> seqZ 0 256), _)) as E1 by (unfold rust_kmalloc; rewrite Hj; reflexivity).
  set (s1 := mkC _ _ _ _ _ _ _) in E1. exists s1. split; [done|]. split; [done|]. unfold rust_kmalloc in E1. rewrite (M_bind_Ret _ _ _ _ _ E1).
  rewrite (M_bind_Ret _ _ _ _ _ (sector_ok 1 (replicate 512 0) s1 (or_introl eq_refl) ltac:(rewrite length_replicate; lia))). cbn [Z.eqb negb].
  assert (take 216 (disk_bytes (ramdisk s1) (512 * 1) 512 ++ drop 512 (replicate 512 0)) = disk_bytes (ramdisk s) 512 216) as ->.
  { rewrite take_app_le by (rewrite length_disk_bytes; lia). apply (take_disk_bytes (ramdisk s) 512 512 216). lia. }
  rewrite (M_bind_Ret _ _ s1 (le_word (disk_bytes (ramdisk s) 568 2)) s1); [done|]. unfold lift, field. by rewrite slice_disk_bytes by lia.
Qed.

Lemma mount_reads_descriptors km (Hkm : forall n, is_Some (km n)) fs s :
  fs_ok fs -> 0 < group_count fs <= 16 ->
  exists s', mount_descriptors km fs s = Ret (0, s') /\ ramdisk s' = ramdisk s /\
    mounted_fs s' = Mounted (with_descriptors fs (disk_bytes (ramdisk s) 1024 (group_count fs * 32))).
Proof.
  intros [Hbs _] Hg. unfold mount_descriptors. set (n := group_count fs * 32) in *. assert (0 < n <= 512) as Hn by lia.
  assert ((n + block_size fs - 1) / block_size fs = 1) as -> by (symmetry; apply (Z.div_unique _ _ _ (n - 1)); lia). rewrite (wrap_small 32 1), Z.mul_1_l, wrap_small, (swrap_small 32 1) by lia.
  destruct (kmalloc_gives km Hkm n s) as (gds & s1 & E1 & Hl1 & Hd1 & Hm1); [lia|]. rewrite (M_bind_Ret _ _ _ _ _ E1).
  destruct (kmalloc_gives km Hkm (block_size fs) s1) as (buf & s2 & E2 & Hl2 & Hd2 & Hm2); [lia|]. rewrite (M_bind_Ret _ _ _ _ _ E2).
  rewrite (M_bind_Ret _ _ _ _ _ (sector_ok 2 buf s2 (or_intror eq_refl) ltac:(lia))). cbn [Z.eqb negb].
  assert (memcpy_len n = n) as -> by (unfold memcpy_len; rewrite (proj2 (Z.leb_gt n 0)), (proj2 (Z.ltb_ge _ n)) by lia; done).
  rewrite (M_bind_Ret _ _ s2 (disk_bytes (ramdisk s) 1024 n) s2).
  2: { unfold lift, slice. rewrite length_app, length_disk_bytes, (proj2 (Z.leb_le (0 + n) _)) by lia. cbn [Z.leb Z.compare andb]. change (Z.to_nat 0) with 0%nat.
    rewrite drop_0, take_app_le by (rewrite length_disk_bytes; lia). rewrite Hd2, Hd1, (take_disk_bytes _ _ 512 n) by lia. done. }
  rewrite (M_bind_Ret _ _ s2 (disk_bytes (ramdisk s) 1024 n) s2) by (unfold lift; by rewrite splice_whole by (rewrite length_disk_bytes; lia)).
  eexists. split; [done|]. cbn. split; [congruence|done].
Qed.

(** Mounting.  [ext2_c_init] takes the superblock from the second sector, bytes 512
    to 1023.  With the magic number there, and at most sixteen groups, it mounts the file
    system of the parameters, with the descriptors from byte 1024 on.  Without it, it
    returns -1 having freed what it allocated, but leaves [mounted_fs] set, and every later
    call that uses the file system is undefined behaviour.  The disk is not changed. *)
Theorem ext2_mount_outcome km dev s :
  let sb := disk_bytes (ramdisk s) 512 216 in
  let magic := le_word (disk_bytes (ramdisk s) 568 2) in
  (forall n, is_Some (km n)) ->
  (magic <> EXT2_SUPER_MAGIC ->
   exists s', ext2_c_init km (Some dev) s = Ret (-1, s') /\ ramdisk s' = ramdisk s /\ live s' = live s /\ forall c, needs_mount c = true -> vfs_run km c s' = Fault) /\
  (forall fs, magic = EXT2_SUPER_MAGIC -> fs_parameters sb = Ret fs -> fs_ok fs -> 0 < group_count fs <= 16 ->
   exists s', ext2_c_init km (Some dev) s = Ret (0, s') /\ ramdisk s' = ramdisk s /\
     mounted_fs s' = Mounted (with_descriptors fs (disk_bytes (ramdisk s) 1024 (group_count fs * 32)))).
Proof.
  intros sb magic Hkm. destruct (mount_reads_superblock km Hkm dev s) as (s1 & Hd1 & Hl1 & E). rewrite E. fold sb magic. split.
  - intros Hne. rewrite (proj2 (Z.eqb_neq _ _)) by done. cbn [negb]. destruct (mount_failed_ok (line "[EXT2] Invalid ext2 magic number") 1 s1) as (s' & E' & Hd & Hm & Hl).
    exists s'. split; [exact E'|]. split; [congruence|]. split; [lia|]. intros c Hc. by apply dangling_faults.
  - intros fs -> Hp Hf Hg. rewrite Z.eqb_refl. cbn [negb]. rewrite (M_bind_Ret _ _ s1 fs s1) by (unfold lift; by rewrite Hp).
    destruct (mount_reads_descriptors km Hkm fs s1 Hf Hg) as (s' & E' & Hd & Hm). exists s'. split; [exact E'|]. by rewrite Hd, Hm, Hd1.
Qed.

(** The superblock and the descriptor of [demo_fs] where [ext2_init] looks for them. *)
Definition demo_superblock : list Z :=
  replicate 4 0 ++ le_bytes 4 64 ++ replicate 16 0 ++ le_bytes 4 0 ++ replicate 4 0 ++ le_bytes 4 64 ++ replicate 4 0 ++ le_bytes 4 8 ++
  replicate 12 0 ++ le_bytes 2 EXT2_SUPER_MAGIC ++ replicate 26 0 ++ le_bytes 4 11 ++ le_bytes 2 128 ++ replicate 126 0.

Definition demo_image : cstate := mkC (poke 512 demo_superblock (poke 1024 (group_descriptors demo_fs) demo_disk)) true NotMounted false 0 0 [].

(** The same superblock at byte 1024, where ext2 keeps it. *)
Definition standard_image : cstate := mkC (poke 1024 demo_superblock ∅) true NotMounted false 0 0 [].

Lemma ext2_mount_outcome_witness :
  (exists s', ext2_c_init demo_km (Some 0) standard_image = Ret (-1, s') /\ vfs_run demo_km (VOpen [47]) s' = Fault) /\
  (exists s', ext2_c_init demo_km (Some 0) demo_image = Ret (0, s') /\ exists fs, mounted_fs s' = Mounted fs /\ block_size fs = 1024 /\ group_descriptors fs = group_descriptors demo_fs).
Proof.
  split.
  - destruct (proj1 (ext2_mount_outcome demo_km 0 standard_image ltac:(by eexists))) as (s' & E & _ & _ & H); [vm_compute; discriminate|]. exists s'. split; [exact E|]. by apply H.
  - destruct (fs_parameters (disk_bytes (ramdisk demo_image) 512 216)) as [fs| | |] eqn:Ep; [|vm_compute in Ep; discriminate Ep..].
    assert (block_size fs = 1024 /\ group_count fs = 1) as [Hb Hg] by (vm_compute in Ep; injection Ep as <-; split; reflexivity).
    destruct (proj2 (ext2_mount_outcome demo_km 0 demo_image ltac:(by eexists)) fs) as (s' & E & _ & Hm); [by vm_compute|exact Ep|split; rewrite Hb; [lia|reflexivity]|lia|].
    exists s'. split; [exact E|]. eexists. split; [exact Hm|]. cbn [with_descriptors block_size group_descriptors]. split; [exact Hb|]. rewrite Hg. by vm_compute.
Defined.

(** ** Files that share a block

    [ext2_alloc_block] marks nothing as used, so the block two files grow by is the same
    one: the second write shows in the first file. *)
Definition demo_two : cstate :=
  mkC (poke 5376 (demo_inode 0x8000 0 0) (poke 5504 (demo_inode 0x8000 0 0) (poke 6144 (le_bytes 4 3 ++ le_bytes 2 12 ++ [1; 1; 97; 0; 0; 0] ++ le_bytes 4 4 ++ le_bytes 2 1012 ++ [1; 1; 98]) demo_disk)))
    true (Mounted demo_fs) true 0 0 [].

Example grown_files_alias :
  (match (_ ← ext2_vfs_write demo_km [47; 97] [65; 65] 2; _ ← ext2_vfs_write demo_km [47; 98] [66] 1; ext2_vfs_read demo_km [47; 97] (replicate 3 0) 3) demo_two with
   | Ret (r, _) => Some r | _ => None end) = Some (2, [66; 65; 0]).
Proof. by vm_compute. Qed.
