(* ===== verification/BTree.v ===== *)
(** * BTree: [alloc::collections::BTreeMap] as the kernel uses it

    The kernel keeps directory entries, processes and sockets in [BTreeMap]s.
    The map is modelled as an association list with strictly increasing keys:
    [get], [contains_key], [insert], [remove] and the iteration order are those
    of the library.  The order of the keys is an interface, [KeyOrder], with
    instances for integers and for strings. *)

From S2P Require Import Prelude.

Local Open Scope Z_scope.

(** What a key type promises: its [Ord] implementation is a total order. *)
Class KeyOrder (K : Type) := {
  key_cmp : K -> K -> comparison;
  key_cmp_eq a b : key_cmp a b = Eq <-> a = b;
  key_cmp_opp a b : key_cmp b a = CompOpp (key_cmp a b);
  key_cmp_trans a b c : key_cmp a b = Lt -> key_cmp b c = Lt -> key_cmp a c = Lt
}.

Definition key_lt {K} `{KeyOrder K} (a b : K) : Prop := key_cmp a b = Lt.

(** ** Operations *)
Section ops.
  Context {K V : Type} `{KeyOrder K}.

Fixpoint bt_get (k : K) (l : list (K * V)) : option V :=
  match l with
  | [] => None
  | (k', v) :: r =>
      match key_cmp k k' with Eq => Some v | Lt => None | Gt => bt_get k r end
  end.

Definition bt_contains (k : K) (l : list (K * V)) : bool :=
  match bt_get k l with Some _ => true | None => false end.

Fixpoint bt_insert (k : K) (v : V) (l : list (K * V)) : list (K * V) :=
  match l with
  | [] => [(k, v)]
  | (k', v') :: r =>
      match key_cmp k k' with
      | Eq => (k, v) :: r
      | Lt => (k, v) :: (k', v') :: r
      | Gt => (k', v') :: bt_insert k v r
      end
  end.

Fixpoint bt_remove (k : K) (l : list (K * V)) : list (K * V) :=
  match l with
  | [] => []
  | (k', v') :: r =>
      match key_cmp k k' with
      | Eq => r
      | Lt => (k', v') :: r
      | Gt => (k', v') :: bt_remove k r
      end
  end.

(** Keys strictly increase. *)
Fixpoint bt_wf (l : list (K * V)) : Prop :=
  match l with
  | [] => True
  | (k, _) :: r => Forall (fun kv => key_lt k kv.1) r /\ bt_wf r
  end.
End ops.

(** ** Laws *)
Section laws.
  Context {K V : Type} `{KeyOrder K}.
  Implicit Types l : list (K * V).

Lemma key_cmp_refl (k : K) : key_cmp k k = Eq.
Proof. by apply key_cmp_eq. Qed.

Lemma key_gt_lt (a b : K) : key_cmp a b = Gt <-> key_lt b a.
Proof. unfold key_lt. rewrite (key_cmp_opp a b). by destruct (key_cmp a b). Qed.

Lemma key_lt_irrefl (a : K) : ~ key_lt a a.
Proof. unfold key_lt. by rewrite key_cmp_refl. Qed.

(** Keys below the first one are absent. *)
Lemma bt_get_below k l : Forall (fun kv => key_lt k kv.1) l -> bt_get k l = None.
Proof. destruct 1 as [|[k' v'] l Hk _]; cbn; [done|]. cbn in Hk. by rewrite Hk. Qed.

Lemma bt_get_elem k v l : bt_wf l -> bt_get k l = Some v <-> (k, v) ∈ l.
Proof.
  induction l as [|[k' v'] l IH]; cbn; [intros _; split; [done|by intros []%not_elem_of_nil]|].
  intros [Hall Hl]. rewrite elem_of_cons. destruct (key_cmp k k') eqn:E.
  - apply key_cmp_eq in E as ->. split; [intros [= ->]; by left|]. intros [[= ->]|Hin]; [done|].
    exfalso. rewrite Forall_forall in Hall. by apply (key_lt_irrefl k'), (Hall _ Hin).
  - split; [done|]. intros [[= -> ->]|Hin]; [by rewrite key_cmp_refl in E|].
    exfalso. rewrite Forall_forall in Hall. apply (key_lt_irrefl k).
    eapply key_cmp_trans; [exact E|]. apply (Hall _ Hin).
  - rewrite (IH Hl). split; [by right|]. intros [[= -> ->]|Hin]; [|done]. by rewrite key_cmp_refl in E.
Qed.

Lemma bt_insert_elem k v l kv : kv ∈ bt_insert k v l -> kv = (k, v) \/ kv ∈ l.
Proof.
  induction l as [|[k' v'] l IH]; cbn.
  - intros ->%list_elem_of_singleton. by left.
  - destruct (key_cmp k k'); rewrite !elem_of_cons; intuition.
Qed.

Lemma bt_remove_elem k l kv : kv ∈ bt_remove k l -> kv ∈ l.
Proof.
  induction l as [|[k' v'] l IH]; cbn; [done|].
  destruct (key_cmp k k'); rewrite ?elem_of_cons; intuition.
Qed.

Lemma bt_insert_wf k v l : bt_wf l -> bt_wf (bt_insert k v l).
Proof.
  induction l as [|[k' v'] l IH]; cbn; [by split|]. intros [Hall Hl]. destruct (key_cmp k k') eqn:E; cbn.
  - apply key_cmp_eq in E as ->. by split.
  - split; [|done]. constructor; [done|]. eapply Forall_impl; [exact Hall|]. intros kv Hkv.
    eapply key_cmp_trans; [exact E|exact Hkv].
  - split; [|by apply IH]. apply Forall_forall. intros kv [->|Hin]%bt_insert_elem; [by apply key_gt_lt|].
    rewrite Forall_forall in Hall. by apply Hall.
Qed.

Lemma bt_remove_wf k l : bt_wf l -> bt_wf (bt_remove k l).
Proof.
  induction l as [|[k' v'] l IH]; cbn; [done|]. intros [Hall Hl]. destruct (key_cmp k k') eqn:E; cbn; try done.
  split; [|by apply IH]. apply Forall_forall. intros kv Hin%bt_remove_elem.
  rewrite Forall_forall in Hall. by apply Hall.
Qed.

Lemma bt_get_insert_eq k v l : bt_get k (bt_insert k v l) = Some v.
Proof.
  induction l as [|[k' v'] l IH]; cbn; [by rewrite key_cmp_refl|].
  destruct (key_cmp k k') eqn:E; cbn; rewrite ?key_cmp_refl, ?E; done.
Qed.

Lemma bt_get_insert_ne k k2 v l : k <> k2 -> bt_wf l -> bt_get k2 (bt_insert k v l) = bt_get k2 l.
Proof.
  intros Hne. assert (key_cmp k2 k <> Eq) as Hc by (rewrite key_cmp_eq; congruence).
  induction l as [|[k' v'] l IH]; cbn.
  - by destruct (key_cmp k2 k) eqn:E.
  - intros [Hall Hl]. destruct (key_cmp k k') eqn:E; cbn.
    + apply key_cmp_eq in E as ->. by destruct (key_cmp k2 k').
    + destruct (key_cmp k2 k) eqn:E2; [done| |done].
      destruct (key_cmp k2 k') eqn:E3; [|done|].
      * apply key_cmp_eq in E3 as ->. unfold key_lt in *.
        exfalso. apply (key_lt_irrefl k). eapply key_cmp_trans; [exact E|exact E2].
      * apply key_gt_lt in E3. exfalso. apply (key_lt_irrefl k). eapply key_cmp_trans; [exact E|].
        eapply key_cmp_trans; [exact E3|exact E2].
    + destruct (key_cmp k2 k'); [done|done|]. by apply IH.
Qed.

Lemma bt_get_remove_eq k l : bt_wf l -> bt_get k (bt_remove k l) = None.
Proof.
  induction l as [|[k' v'] l IH]; cbn; [done|]. intros [Hall Hl]. destruct (key_cmp k k') eqn:E; cbn.
  - apply key_cmp_eq in E as ->. by apply bt_get_below.
  - by rewrite E.
  - rewrite E. by apply IH.
Qed.

Lemma bt_get_remove_ne k k2 l : k <> k2 -> bt_wf l -> bt_get k2 (bt_remove k l) = bt_get k2 l.
Proof.
  intros Hne. assert (key_cmp k2 k <> Eq) as Hc by (rewrite key_cmp_eq; congruence).
  induction l as [|[k' v'] l IH]; cbn; [done|]. intros [Hall Hl]. destruct (key_cmp k k') eqn:E; cbn; [|done|].
  - apply key_cmp_eq in E as ->. destruct (key_cmp k2 k') eqn:E2; [done| |done].
    apply bt_get_below. eapply Forall_impl; [exact Hall|]. intros kv Hkv. eapply key_cmp_trans; [exact E2|exact Hkv].
  - destruct (key_cmp k2 k'); [done|done|]. by apply IH.
Qed.

(** Iteration meets the keys in increasing order. *)
Lemma bt_wf_lookup l i j k k' v v' :
  bt_wf l -> (i < j)%nat -> l !! i = Some (k, v) -> l !! j = Some (k', v') -> key_lt k k'.
Proof.
  revert i j. induction l as [|[a w] l IH]; intros i j; [done|]. intros [Hall Hl] Hij Hi Hj.
  destruct j as [|j]; [lia|]. cbn in Hj. destruct i as [|i]; cbn in Hi.
  - injection Hi as -> ->. rewrite Forall_forall in Hall.
    apply (Hall (k', v')). by apply list_elem_of_lookup_2 in Hj.
  - apply (IH i j); [done|lia|done|done].
Qed.

Lemma bt_contains_true k l : bt_contains k l = true <-> is_Some (bt_get k l).
Proof. unfold bt_contains. destruct (bt_get k l) as [v|]; split; done. Qed.

Lemma bt_contains_false k l : bt_contains k l = false <-> bt_get k l = None.
Proof. unfold bt_contains. by destruct (bt_get k l). Qed.
End laws.

(** ** Key types *)
#[export, program] Instance Z_key_order : KeyOrder Z := {| key_cmp := Z.compare |}.
Next Obligation. apply Z.compare_eq_iff. Qed.
Next Obligation. intros. apply Z.compare_antisym. Qed.
Next Obligation. intros a b c. rewrite !Z.compare_lt_iff. lia. Qed.

(** Strings are compared by their characters, first difference first. *)
Fixpoint str_cmp (a b : list Z) : comparison :=
  match a, b with
  | [], [] => Eq
  | [], _ :: _ => Lt
  | _ :: _, [] => Gt
  | x :: a', y :: b' => match x ?= y with Eq => str_cmp a' b' | c => c end
  end.

#[export, program] Instance str_key_order : KeyOrder (list Z) := {| key_cmp := str_cmp |}.
Next Obligation.
  induction a as [|x a IH]; intros [|y b]; cbn; try done.
  destruct (x ?= y) eqn:E.
  - apply Z.compare_eq in E as ->. rewrite IH. split; congruence.
  - rewrite Z.compare_lt_iff in E. split; [done|]. intros [= H _]. lia.
  - rewrite Z.compare_gt_iff in E. split; [done|]. intros [= H _]. lia.
Qed.
Next Obligation.
  induction a as [|x a IH]; intros [|y b]; cbn; try done.
  rewrite (Z.compare_antisym x y). destruct (x ?= y); cbn; [apply IH|done|done].
Qed.
Next Obligation.
  induction a as [|x a IH]; intros [|y b] [|z c]; cbn; try done.
  destruct (Z.compare_spec x y) as [->|?|?]; [|intros _|done].
  - destruct (y ?= z); [apply IH|done|done].
  - destruct (Z.compare_spec y z) as [->|?|?]; [intros _|intros _|done];
      by rewrite (proj2 (Z.compare_lt_iff x _)) by lia.
Qed.

#[export] Hint Resolve bt_insert_wf bt_remove_wf : shade.
