(* ===== verification/Vfs.v ===== *)
(** * Vfs: the in-memory file system of [vfs.rs]

    A tree of [FileEntry] values under the static [ROOT_FS].  The operations take
    the address of a C string in the byte memory of [Memory], as the code does;
    they return the code's result together with the new tree.  A reference
    [&mut FileEntry] obtained by walking the tree is the path it was found at:
    a write through it is [set_at].

    The specification is a flat file system, a function from paths (lists of
    names) to the type and the contents of what is there; the theorems at the
    end show that the tree implements it. *)

From S2P Require Import Prelude Memory BTree.

Local Open Scope Z_scope.

(** ** The code *)

Abbreviation name := (list Z).
Abbreviation path := (list (list Z)).

Inductive FileType := Regular | Directory.

#[export] Instance FileType_eq_dec : EqDecision FileType.
Proof. solve_decision. Defined.

#[local] Set Warnings "-register-all".

Inductive FileEntry := mkEntry {
  fe_name : name;
  file_type : FileType;
  data : list Z;
  children : list (name * FileEntry)
}.

(** The hexadecimal rendering of the entry's address that both constructors
    compute is never printed. *)
Definition new_file (n : name) : FileEntry := mkEntry n Regular [] [].
Definition new_directory (n : name) : FileEntry := mkEntry n Directory [] [].

Definition with_data (d : list Z) (e : FileEntry) : FileEntry :=
  mkEntry (fe_name e) (file_type e) d (children e).
Definition with_children (c : list (name * FileEntry)) (e : FileEntry) : FileEntry :=
  mkEntry (fe_name e) (file_type e) (data e) c.

(** [static mut ROOT_FS: Option<FileEntry>]. *)
Definition root_fs : Type := option FileEntry.

Definition init : root_fs := Some (new_directory (bytes "/")).

(** [path_str.split('/').filter(|s| !s.is_empty())]. *)
Definition components (s : list Z) : path := filter (fun w => w <> []) (split_char 47 s).

Definition get_path_components (m : mem) (p : Z) : outcome path :=
  if p =? 0 then Ret [] else s ← read_cstr m p; Ret (components s).

(** Walking down: [current = current.children.get_mut(&component)?]. *)
Fixpoint entry_at (e : FileEntry) (p : path) : option FileEntry :=
  match p with
  | [] => Some e
  | k :: p' => c ← bt_get k (children e); entry_at c p'
  end.

(** The tree after [*entry = new] through the reference found at [p]. *)
Fixpoint set_at (e : FileEntry) (p : path) (new : FileEntry) : FileEntry :=
  match p with
  | [] => new
  | k :: p' =>
      match bt_get k (children e) with
      | Some c => with_children (bt_insert k (set_at c p' new) (children e)) e
      | None => e
      end
  end.

Definition find_entry (m : mem) (fs : root_fs) (p : Z) : outcome (option (path * FileEntry)) :=
  match fs with
  | Some root =>
      comps ← get_path_components m p;
      Ret (e ← entry_at root comps; Some (comps, e))
  | None => Ret None
  end.

(** [components.split_last()]. *)
Definition split_last (p : path) : option (name * path) :=
  n ← last p; Some (n, removelast p).

Definition find_parent_and_name (m : mem) (fs : root_fs) (p : Z)
  : outcome (option (path * FileEntry * name)) :=
  comps ← get_path_components m p;
  Ret ('(filename, parent_components) ← split_last comps;
       root ← fs;
       current ← entry_at root parent_components;
       Some (parent_components, current, filename)).

(** The tree in [ROOT_FS] after a write through the reference at [p]. *)
Definition write_back (fs : root_fs) (p : path) (e : FileEntry) : root_fs :=
  root ← fs; Some (set_at root p e).

Definition create_entry (new : name -> FileEntry) (m : mem) (fs : root_fs) (p : Z)
  : outcome (Z * root_fs) :=
  r ← find_parent_and_name m fs p;
  match r with
  | Some (pp, parent, filename) =>
      if bt_contains filename (children parent) then Ret (-17, fs)
      else Ret (0, write_back fs pp
                     (with_children (bt_insert filename (new filename) (children parent)) parent))
  | None => Ret (-2, fs)
  end.

Definition create_file := create_entry new_file.
Definition create_directory := create_entry new_directory.

Definition delete_file (m : mem) (fs : root_fs) (p : Z) : outcome (Z * root_fs) :=
  r ← find_parent_and_name m fs p;
  match r with
  | Some (pp, parent, filename) =>
      if bt_contains filename (children parent)
      then Ret (0, write_back fs pp (with_children (bt_remove filename (children parent)) parent))
      else Ret (-2, fs)
  | None => Ret (-2, fs)
  end.

Definition read_file (m : mem) (fs : root_fs) (p buf max_len : Z) : outcome (Z * mem) :=
  if (buf =? 0) || (max_len <=? 0) then Ret (-22, m)
  else
    r ← find_entry m fs p;
    match r with
    | Some (_, entry) =>
        match file_type entry with
        | Regular =>
            let copy_len := Nat.min (length (data entry)) (Z.to_nat max_len) in
            m' ← store_bytes m buf (take copy_len (data entry));
            Ret (i32 (Z.of_nat copy_len), m')
        | Directory => Ret (-21, m)
        end
    | None => Ret (-2, m)
    end.

(** [Vec::reserve] panics with "capacity overflow" beyond [isize::MAX] bytes. *)
Definition reserve (len : Z) : outcome unit :=
  if 2 ^ 63 - 1 <? len then Panic else Ret tt.

Definition write_file (m : mem) (fs : root_fs) (p buf len : Z) : outcome (Z * root_fs) :=
  if buf =? 0 then Ret (0, fs)
  else
    r ← find_entry m fs p;
    match r with
    | Some (pp, entry) =>
        match file_type entry with
        | Regular =>
            _ ← reserve len;
            bs ← load_bytes m buf (Z.to_nat len);
            Ret (len, write_back fs pp (with_data bs entry))
        | Directory => Ret (0, fs)
        end
    | None => Ret (0, fs)
    end.

(** *** Listing a directory *)

(** What [list_directory] does to the machine, in order. *)
Inductive event :=
| Cli
| Sti
| VgaPrint (s : list Z)
| SerialWrite (s : list Z).

(** [line_buf] and [offset], and the closure [write] that appends a slice when
    it fits. *)
Record linebuf := mkLine { line_buf : list Z; offset : nat }.

Definition write (s : list Z) (b : linebuf) : outcome linebuf :=
  if decide (offset b + length s < length (line_buf b))%nat
  then l ← arr_copy (line_buf b) (offset b) s; Ret (mkLine l (offset b + length s))
  else Ret b.

Fixpoint write_all (ss : list (list Z)) (b : linebuf) : outcome linebuf :=
  match ss with [] => Ret b | s :: ss' => b' ← write s b; write_all ss' b' end.

(** [while temp_size > 0 && i > 0] over [size_buf], from its last byte down. *)
Fixpoint size_digits (i : nat) (temp_size : Z) (acc : list Z) : list Z :=
  match i with
  | O => acc
  | S i' => if 0 <? temp_size then size_digits i' (temp_size / 10) (48 + temp_size mod 10 :: acc) else acc
  end.

Definition size_str (size : Z) : list Z :=
  if size =? 0 then [48] else size_digits 10 size [].

(** The slices written for one child, in order. *)
Definition line_pieces (n : name) (child : FileEntry) : list (list Z) :=
  let size := size_str (Z.of_nat (length (data child))) in
  [[match file_type child with Directory => 100 | Regular => 45 end]; bytes "  ";
   bytes "rwxr-xr-x"; bytes "  "; bytes "1"; bytes "  "; bytes "root"; bytes "  ";
   bytes "root"; bytes "  "]
  ++ replicate (10 - length size) (bytes " ")
  ++ [size; bytes "  "; bytes "Jan  1 00:00"; bytes "  "; utf8 n; [10]].

Definition list_line (n : name) (child : FileEntry) : outcome (list Z) :=
  b ← write_all (line_pieces n child) (mkLine (replicate 256 0) 0);
  l ← arr_set (line_buf b) (offset b) 0;
  Ret (until_nul l).

Definition list_header : list Z :=
  line "Type  Permissions  Links  Owner  Group  Size      Date   Time   Name".
Definition list_separator : list Z :=
  line "----  -----------  -----  -----  -----  ----      ----   ----   ----".

Fixpoint list_lines (cs : list (name * FileEntry)) : outcome (list event) :=
  match cs with
  | [] => Ret []
  | (n, child) :: cs' => l ← list_line n child; ls ← list_lines cs'; Ret (VgaPrint l :: ls)
  end.

Definition list_directory (m : mem) (fs : root_fs) (p : Z) : outcome (Z * list event) :=
  r ← find_entry m fs p;
  match r with
  | Some (_, entry) =>
      match file_type entry with
      | Directory =>
          ls ← list_lines (children entry);
          Ret (0, [Cli; VgaPrint list_header; SerialWrite list_header;
                   VgaPrint list_separator; SerialWrite list_separator] ++ ls ++ [Sti])
      | Regular => Ret (-20, [])
      end
  | None => Ret (-2, [])
  end.

(** *** The C interface *)
Definition rust_vfs_init := init.
Definition rust_vfs_create_file := create_file.
Definition rust_vfs_mkdir := create_directory.
Definition rust_vfs_unlink := delete_file.
Definition rust_vfs_read := read_file.
Definition rust_vfs_write := write_file.
Definition rust_vfs_ls := list_directory.

(** [*stat_ptr.add(i) = v] for consecutive [i]. *)
Fixpoint store_words (m : mem) (a : Z) (vs : list Z) : outcome mem :=
  match vs with [] => Ret m | v :: vs' => m' ← store64 m a v; store_words m' (a + 8) vs' end.

Definition stat_words (p : Z) (entry : FileEntry) : list Z :=
  [1; p; match file_type entry with Directory => 0x41ED | Regular => 0x81A4 end; 1; 0; 0;
   Z.of_nat (length (data entry)); 1640995200; 1640995200; 1640995200].

Definition rust_vfs_stat (m : mem) (fs : root_fs) (p statbuf : Z) : outcome (Z * mem) :=
  if (p =? 0) || (statbuf =? 0) then Ret (-22, m)
  else
    r ← find_entry m fs p;
    match r with
    | Some (_, entry) => m' ← store_words m statbuf (stat_words p entry); Ret (0, m')
    | None => Ret (-2, m)
    end.

(** The address of the root entry, [root_addr], or null. *)
Definition rust_vfs_get_root (root_addr : Z) (fs : root_fs) : Z :=
  match fs with Some _ => root_addr | None => 0 end.

(** ** The specification: a flat file system *)
Definition flat : Type := path -> option (FileType * list Z).

Definition flat_init : flat := fun q => if decide (q = []) then Some (Directory, []) else None.

Definition flat_create (t : FileType) (p : path) (v : flat) : Z * flat :=
  if decide (p = []) then (-2, v)
  else match v (removelast p) with
       | None => (-2, v)
       | Some _ =>
           match v p with
           | Some _ => (-17, v)
           | None => (0, fun q => if decide (q = p) then Some (t, []) else v q)
           end
       end.

Definition flat_delete (p : path) (v : flat) : Z * flat :=
  if decide (p = []) then (-2, v)
  else match v p with
       | None => (-2, v)
       | Some _ => (0, fun q => if decide (p `prefix_of` q) then None else v q)
       end.

Definition flat_write (p : path) (bs : list Z) (v : flat) : Z * flat :=
  match v p with
  | Some (Regular, _) =>
      (Z.of_nat (length bs), fun q => if decide (q = p) then Some (Regular, bs) else v q)
  | _ => (0, v)
  end.

(** What a tree looks like from outside. *)
Definition node (e : FileEntry) : FileType * list Z := (file_type e, data e).

Definition view (root : FileEntry) : flat := fun q => node <$> entry_at root q.

(** ** The invariant of the tree *)

(** A component of a path: not empty, without a slash or a NUL. *)
Definition component_ok (w : name) : Prop := w <> [] /\ Forall (fun c => c <> 47 /\ c <> 0) w.

(** The children of an entry are sorted, stored under their own names, and the
    names can be written in a path. *)
Definition entry_ok (e : FileEntry) : Prop :=
  bt_wf (children e) /\
  forall k c, bt_get k (children e) = Some c -> fe_name c = k /\ component_ok k.

Definition tree_ok (root : FileEntry) : Prop :=
  forall p e, entry_at root p = Some e -> entry_ok e.

(** ** Walking the tree *)
Lemma entry_at_app e p q : entry_at e (p ++ q) = entry_at e p ≫= fun c => entry_at c q.
Proof.
  revert e. induction p as [|k p IH]; intros e; cbn; [done|].
  destruct (bt_get k (children e)); cbn; [apply IH|done].
Qed.

Lemma tree_ok_here e : tree_ok e -> entry_ok e.
Proof. intros H. by apply (H []). Qed.

Lemma tree_ok_at e p c : tree_ok e -> entry_at e p = Some c -> tree_ok c.
Proof. intros H Hp q d Hq. apply (H (p ++ q)). by rewrite entry_at_app, Hp. Qed.

Lemma tree_ok_child e k c : tree_ok e -> bt_get k (children e) = Some c -> tree_ok c.
Proof. intros H Hk. apply (tree_ok_at e [k]); [done|]. cbn. by rewrite Hk. Qed.

Lemma tree_ok_sorted e : tree_ok e -> bt_wf (children e).
Proof. intros H. apply (tree_ok_here e H). Qed.

#[local] Hint Resolve tree_ok_sorted tree_ok_here : shade.

(** A tree is well formed when its root and its subtrees are. *)
Lemma tree_ok_intro e :
  entry_ok e -> (forall k c, bt_get k (children e) = Some c -> tree_ok c) -> tree_ok e.
Proof.
  intros He Hc [|k p] d Hd; cbn in Hd; [by injection Hd as <-|].
  apply bind_Some in Hd as (c & Hk & Hd). by apply (Hc k c Hk p).
Qed.

(** Replacing a child. *)
Lemma insert_child_ok e k c :
  tree_ok e -> tree_ok c -> fe_name c = k -> component_ok k ->
  tree_ok (with_children (bt_insert k c (children e)) e).
Proof.
  intros He Hc Hn Hk. pose proof (tree_ok_here _ He) as [Hs Hch].
  assert (forall k' c', bt_get k' (bt_insert k c (children e)) = Some c' ->
            k' = k /\ c' = c \/ bt_get k' (children e) = Some c') as Hget.
  { intros k' c' H. destruct (decide (k = k')) as [<-|Hne].
    - rewrite bt_get_insert_eq in H. injection H as <-. by left.
    - rewrite bt_get_insert_ne in H by done. by right. }
  apply tree_ok_intro; [split; [cbn; by apply bt_insert_wf|]|]; cbn;
    intros k' c' [[-> ->]|H]%Hget; [done|by apply Hch|done|by apply (tree_ok_child e k')].
Qed.

Lemma remove_child_ok e k :
  tree_ok e -> tree_ok (with_children (bt_remove k (children e)) e).
Proof.
  intros He. pose proof (tree_ok_here _ He) as [Hs Hch].
  assert (forall k' c', bt_get k' (bt_remove k (children e)) = Some c' ->
            bt_get k' (children e) = Some c') as Hget.
  { intros k' c' H. destruct (decide (k = k')) as [<-|Hne].
    - by rewrite bt_get_remove_eq in H.
    - by rewrite bt_get_remove_ne in H. }
  apply tree_ok_intro; [split; [cbn; by apply bt_remove_wf|]|]; cbn; intros k' c' H%Hget;
    [by apply Hch|by apply (tree_ok_child e k')].
Qed.

Lemma with_data_ok e d : tree_ok e -> tree_ok (with_data d e).
Proof.
  intros He. apply tree_ok_intro; [apply (tree_ok_here _ He)|]. intros k c H. by apply (tree_ok_child e k).
Qed.

Lemma set_at_name e p new old :
  entry_at e p = Some old -> fe_name new = fe_name old -> fe_name (set_at e p new) = fe_name e.
Proof.
  destruct p as [|k p]; cbn; [by intros [= ->]|]. intros H _. by destruct (bt_get k (children e)).
Qed.

Lemma set_at_ok e p new old :
  tree_ok e -> entry_at e p = Some old -> tree_ok new -> fe_name new = fe_name old ->
  tree_ok (set_at e p new).
Proof.
  revert e. induction p as [|k p IH]; intros e He Hp Hn Hname; cbn in *; [done|].
  apply bind_Some in Hp as (c & Hk & Hp). rewrite Hk.
  pose proof (tree_ok_here _ He) as [_ Hch]. destruct (Hch k c Hk) as [Hcn Hck].
  apply insert_child_ok; [done| |by erewrite set_at_name|done].
  apply IH; [by apply (tree_ok_child e k)|done..].
Qed.

(** A write through a reference changes the subtree there and nothing else. *)
Lemma view_set_at e p new old q :
  tree_ok e -> entry_at e p = Some old ->
  view (set_at e p new) q =
    (if decide (p `prefix_of` q) then view new (drop (length p) q) else view e q).
Proof.
  revert e q. induction p as [|k p IH]; intros e q He Hp.
  { rewrite decide_True by apply prefix_nil. by rewrite drop_0. }
  cbn in Hp. apply bind_Some in Hp as (c & Hk & Hp). cbn [set_at]. rewrite Hk.
  destruct q as [|k' q].
  { rewrite decide_False by apply prefix_nil_not. done. }
  unfold view. cbn [entry_at children with_children length drop].
  destruct (decide (k = k')) as [<-|Hne].
  - rewrite bt_get_insert_eq, Hk. cbn [mbind option_bind].
    specialize (IH c q (tree_ok_child _ _ _ He Hk) Hp). unfold view in IH. rewrite IH.
    destruct (decide (p `prefix_of` q)) as [Hpq|Hpq].
    + rewrite decide_True by by apply prefix_cons. done.
    + rewrite decide_False; [done|]. by intros ?%prefix_cons_inv_2.
  - rewrite bt_get_insert_ne by auto with shade.
    rewrite decide_False; [done|]. by intros ?%prefix_cons_inv_1.
Qed.

(** What a path names, split at its last component. *)
Lemma split_last_app p n : split_last (p ++ [n]) = Some (n, p).
Proof. unfold split_last. by rewrite last_snoc, removelast_last. Qed.

Lemma prefix_app_drop (p q : path) n :
  (p ++ [n]) `prefix_of` q <-> p `prefix_of` q /\ exists q', drop (length p) q = n :: q'.
Proof.
  split.
  - intros [r ->]. split; [exists ([n] ++ r); by rewrite app_assoc|].
    exists r. by rewrite <- app_assoc, drop_app_length.
  - intros [[r ->] [q' H]]. rewrite drop_app_length in H. exists q'. by rewrite H, <- app_assoc.
Qed.

(** ** Paths *)
Lemma split_char_sep c s t : split_char c (s ++ c :: t) = split_char c s ++ split_char c t.
Proof.
  induction s as [|x s IH]; cbn [app split_char]; [by rewrite Z.eqb_refl|].
  destruct (x =? c); [by rewrite IH|]. rewrite IH.
  pose proof (split_char_nonempty c s). by destruct (split_char c s).
Qed.

(** A slash separates components; several in a row count once. *)
Lemma components_slash s t : components (s ++ 47 :: t) = components s ++ components t.
Proof. unfold components. by rewrite split_char_sep, filter_app. Qed.

Lemma components_ok s : Forall (fun c => c <> 0) s -> Forall component_ok (components s).
Proof.
  intros Hs. apply Forall_forall. intros w [Hne Hw]%list_elem_of_filter. split; [done|].
  pose proof (split_char_Forall _ 47 s Hs) as H1. pose proof (split_char_pieces 47 s) as H2.
  rewrite Forall_forall in H1. rewrite Forall_forall in H2.
  apply Forall_and. split; [by apply H2|by apply H1].
Qed.

(** The absolute path with the given components. *)
Definition render (p : path) : list Z := p ≫= fun w => 47 :: w.

Lemma components_word w : component_ok w -> components w = [w].
Proof.
  intros [Hne Hw]. unfold components. rewrite split_char_no_sep.
  - by rewrite filter_cons_True.
  - eapply Forall_impl; [exact Hw|]. by intros c [? _].
Qed.

Lemma render_cons w p : render (w :: p) = 47 :: w ++ render p.
Proof. done. Qed.

Lemma components_lead t : components (47 :: t) = components t.
Proof. apply (components_slash [] t). Qed.

Lemma components_render p : Forall component_ok p -> components (render p) = p.
Proof.
  induction 1 as [|w p Hw Hp IH]; [done|]. rewrite render_cons, components_lead.
  destruct p as [|w' p]; [by rewrite app_nil_r, components_word|].
  rewrite render_cons, components_lead in IH. rewrite render_cons, components_slash, components_word, IH; done.
Qed.

Lemma get_path_components_ok m p s :
  cstr_at m p s -> p <> 0 -> get_path_components m p = Ret (components s).
Proof.
  intros Hs Hp. unfold get_path_components. rewrite (proj2 (Z.eqb_neq _ _)) by done.
  by rewrite (read_cstr_ok _ _ _ Hs).
Qed.

(** ** The operations implement the flat file system *)
Lemma view_snoc root pp parent n :
  entry_at root pp = Some parent -> view root (pp ++ [n]) = node <$> bt_get n (children parent).
Proof.
  intros H. unfold view. rewrite entry_at_app, H. cbn. by destruct (bt_get n (children parent)).
Qed.

Lemma view_drop root pp parent q :
  entry_at root pp = Some parent -> pp `prefix_of` q -> view root q = view parent (drop (length pp) q).
Proof. intros H [r ->]. rewrite drop_app_length. unfold view. by rewrite entry_at_app, H. Qed.

(** A list of components is empty or has a last one. *)
Lemma path_cases (p : path) : p = [] \/ exists pp n, p = pp ++ [n].
Proof. destruct p as [|n pp _] using rev_ind; [by left|right; by exists pp, n]. Qed.

(** A lone leaf below [n], or nothing. *)
Lemma view_leaf e q : children e = [] -> view e q = if decide (q = []) then Some (node e) else None.
Proof. intros H. destruct q as [|k q]; [done|]. unfold view. cbn. by rewrite H. Qed.

Section ops.
  Context (m : mem) (p : Z) (s : list Z) (Hcstr : cstr_at m p s) (Hp : p <> 0).
  Context (root : FileEntry) (Hroot : tree_ok root).

Lemma find_entry_ok :
  find_entry m (Some root) p = Ret (e ← entry_at root (components s); Some (components s, e)).
Proof. unfold find_entry. by rewrite (get_path_components_ok _ _ _ Hcstr Hp). Qed.

Lemma find_parent_and_name_ok :
  find_parent_and_name m (Some root) p =
  Ret ('(n, pp) ← split_last (components s); e ← entry_at root pp; Some (pp, e, n)).
Proof. unfold find_parent_and_name. by rewrite (get_path_components_ok _ _ _ Hcstr Hp). Qed.

(** An update of the parent's children, seen from outside. *)
Lemma view_update pp parent ch q :
  entry_at root pp = Some parent ->
  view (set_at root pp (with_children ch parent)) q =
  if decide (pp `prefix_of` q) then
    match drop (length pp) q with
    | [] => view root q
    | k :: q' => bt_get k ch ≫= fun c => view c q'
    end
  else view root q.
Proof.
  intros He. rewrite (view_set_at _ _ _ _ _ Hroot He).
  destruct (decide (pp `prefix_of` q)) as [Hq|]; [|done].
  destruct (drop (length pp) q) as [|k q'] eqn:Ed.
  - rewrite (view_drop _ _ _ _ He Hq), Ed. done.
  - unfold view. cbn. by destruct (bt_get k ch).
Qed.

(** A leaf put under a name that was free. *)
Lemma view_new_leaf pp parent n c t q :
  entry_at root pp = Some parent -> bt_get n (children parent) = None ->
  node c = (t, []) -> children c = [] ->
  view (set_at root pp (with_children (bt_insert n c (children parent)) parent)) q =
  if decide (q = pp ++ [n]) then Some (t, []) else view root q.
Proof.
  intros Ep Ec Hn2 Hn3. rewrite (view_update _ _ _ _ Ep).
  pose proof (tree_ok_sorted _ (tree_ok_at _ _ _ Hroot Ep)) as Hs.
  destruct (decide (pp `prefix_of` q)) as [[q' ->]|Hpq].
  2:{ rewrite decide_False; [done|]. intros ->. by apply Hpq, prefix_app_r. }
  rewrite drop_app_length. destruct q' as [|k q'].
  { rewrite decide_False; [done|]. intros Eq%app_inj_1; [|done]. by destruct Eq. }
  rewrite (view_drop _ _ _ (pp ++ k :: q') Ep), drop_app_length by by apply prefix_app_r.
  unfold view at 2. cbn [entry_at]. destruct (decide (n = k)) as [<-|Hne].
  - rewrite bt_get_insert_eq, Ec. cbn [mbind option_bind]. rewrite view_leaf, Hn2 by done.
    destruct (decide (q' = [])) as [->|Hq']; [by rewrite decide_True|].
    rewrite decide_False by (intros [_ [= ->]]%app_inj_1; done). done.
  - rewrite bt_get_insert_ne by done.
    rewrite decide_False by (intros [_ [= ? ?]]%app_inj_1; congruence).
    by destruct (bt_get k (children parent)).
Qed.

(** A name taken away. *)
Lemma view_removed pp parent n q :
  entry_at root pp = Some parent ->
  view (set_at root pp (with_children (bt_remove n (children parent)) parent)) q =
  if decide ((pp ++ [n]) `prefix_of` q) then None else view root q.
Proof.
  intros Ep. rewrite (view_update _ _ _ _ Ep).
  pose proof (tree_ok_sorted _ (tree_ok_at _ _ _ Hroot Ep)) as Hs.
  destruct (decide (pp `prefix_of` q)) as [Hpq|Hpq].
  2:{ rewrite decide_False; [done|]. by intros [? _]%prefix_app_drop. }
  destruct (drop (length pp) q) as [|k q'] eqn:Ed.
  { rewrite decide_False; [done|]. intros [_ [? ?]]%prefix_app_drop. congruence. }
  destruct (decide (n = k)) as [<-|Hne].
  - rewrite bt_get_remove_eq by done. rewrite decide_True; [done|]. apply prefix_app_drop.
    split; [done|by exists q'].
  - rewrite bt_get_remove_ne by done. rewrite decide_False.
    2:{ intros [_ [? ?]]%prefix_app_drop. congruence. }
    rewrite (view_drop _ _ _ q Ep), Ed by done. unfold view. cbn. by destruct (bt_get k (children parent)).
Qed.

Lemma create_entry_spec (new : name -> FileEntry) t :
  (forall n, fe_name (new n) = n /\ node (new n) = (t, []) /\ children (new n) = []) ->
  exists root', create_entry new m (Some root) p =
      Ret ((flat_create t (components s) (view root)).1, Some root') /\
    tree_ok root' /\ forall q, view root' q = (flat_create t (components s) (view root)).2 q.
Proof.
  intros Hnew. unfold create_entry. rewrite find_parent_and_name_ok. step_ret. unfold flat_create.
  pose proof (components_ok s (proj1 Hcstr)) as Hok.
  destruct (path_cases (components s)) as [->|(pp & n & E)]; [by exists root|]. rewrite E in Hok |- *.
  rewrite decide_False by (by destruct pp). rewrite split_last_app, removelast_last. cbn [mbind option_bind].
  destruct (entry_at root pp) as [parent|] eqn:Ep.
  2:{ exists root. assert (view root pp = None) as -> by (unfold view; by rewrite Ep). done. }
  assert (view root pp = Some (node parent)) as -> by (unfold view; by rewrite Ep).
  rewrite (view_snoc _ _ _ n Ep). cbn [mbind option_bind].
  destruct (bt_get n (children parent)) as [c|] eqn:Ec.
  { rewrite (proj2 (bt_contains_true _ _)) by by rewrite Ec. by exists root. }
  rewrite (proj2 (bt_contains_false _ _)) by done. cbn [fmap option_fmap option_map fst snd write_back mbind option_bind].
  destruct (Hnew n) as (Hn1 & Hn2 & Hn3). pose proof (tree_ok_at _ _ _ Hroot Ep) as Hpar.
  eexists. split; [done|]. split.
  - eapply set_at_ok; [done|exact Ep| |done]. apply insert_child_ok; [done| |done|].
    + apply tree_ok_intro; [split|]; rewrite Hn3; done.
    + apply Forall_app in Hok as [_ Hok]. by inversion Hok.
  - intros q. by apply view_new_leaf.
Qed.

Lemma delete_file_spec :
  exists root', delete_file m (Some root) p =
      Ret ((flat_delete (components s) (view root)).1, Some root') /\
    tree_ok root' /\ forall q, view root' q = (flat_delete (components s) (view root)).2 q.
Proof.
  unfold delete_file. rewrite find_parent_and_name_ok. step_ret. unfold flat_delete.
  destruct (path_cases (components s)) as [->|(pp & n & ->)]; [by exists root|].
  rewrite decide_False by (by destruct pp). rewrite split_last_app. cbn [mbind option_bind].
  destruct (entry_at root pp) as [parent|] eqn:Ep.
  2:{ exists root. assert (view root (pp ++ [n]) = None) as ->; [|done].
      unfold view. rewrite entry_at_app, Ep. done. }
  rewrite (view_snoc _ _ _ n Ep). cbn [mbind option_bind].
  destruct (bt_get n (children parent)) as [c|] eqn:Ec.
  2:{ rewrite (proj2 (bt_contains_false _ _)) by done. by exists root. }
  rewrite (proj2 (bt_contains_true _ _)) by by rewrite Ec. eexists. split; [done|]. split.
  - eapply set_at_ok; [done|exact Ep| |done]. apply remove_child_ok. by eapply tree_ok_at.
  - intros q. by apply view_removed.
Qed.

Lemma write_file_spec buf bs :
  buf <> 0 -> bytes_at m buf bs -> Z.of_nat (length bs) < 2 ^ 63 ->
  exists root', write_file m (Some root) p buf (Z.of_nat (length bs)) =
      Ret ((flat_write (components s) bs (view root)).1, Some root') /\
    tree_ok root' /\ forall q, view root' q = (flat_write (components s) bs (view root)).2 q.
Proof.
  intros Hb Hbs Hlen. unfold write_file, flat_write. rewrite (proj2 (Z.eqb_neq _ _)) by done.
  rewrite find_entry_ok. step_ret.
  destruct (entry_at root (components s)) as [e|] eqn:Ee; cbn [mbind option_bind].
  2:{ exists root. assert (view root (components s) = None) as -> by (unfold view; by rewrite Ee). done. }
  assert (view root (components s) = Some (file_type e, data e)) as -> by (unfold view; by rewrite Ee).
  destruct (file_type e) eqn:Et; [|by exists root]. unfold reserve.
  rewrite (proj2 (Z.ltb_ge _ _)) by lia. step_ret. rewrite Nat2Z.id, (load_bytes_ok _ _ _ Hbs). step_ret.
  eexists. split; [done|]. split.
  - eapply set_at_ok; [done|exact Ee| |done]. apply with_data_ok. by eapply tree_ok_at.
  - intros q. cbn [snd]. rewrite (view_set_at _ _ _ _ _ Hroot Ee).
    destruct (decide (components s `prefix_of` q)) as [[q' ->]|Hpq].
    2:{ rewrite decide_False; [done|]. by intros ->. }
    rewrite drop_app_length. destruct q' as [|k q'].
    + rewrite decide_True by by rewrite app_nil_r. unfold view, node. cbn. by rewrite Et.
    + rewrite decide_False by (intros Eq; apply (f_equal length) in Eq; rewrite length_app in Eq; cbn in Eq; lia).
      unfold view. rewrite entry_at_app, Ee. done.
Qed.

Lemma read_file_spec buf max_len :
  buf <> 0 -> 0 < max_len < 2 ^ 31 ->
  (forall t bs, view root (components s) = Some (t, bs) -> t = Regular ->
     mapped m buf (Nat.min (length bs) (Z.to_nat max_len))) ->
  match view root (components s) with
  | None => read_file m (Some root) p buf max_len = Ret (-2, m)
  | Some (Directory, _) => read_file m (Some root) p buf max_len = Ret (-21, m)
  | Some (Regular, bs) => exists m',
      read_file m (Some root) p buf max_len = Ret (Z.min (Z.of_nat (length bs)) max_len, m') /\
      patched m buf (take (Z.to_nat max_len) bs) m'
  end.
Proof.
  intros Hb Hmax Hmap. unfold read_file. rewrite (proj2 (Z.eqb_neq _ _)), (proj2 (Z.leb_gt _ _)) by lia. cbn [orb].
  rewrite find_entry_ok. step_ret. unfold view in *.
  destruct (entry_at root (components s)) as [e|] eqn:Ee; cbn [mbind option_bind fmap option_fmap option_map node] in *; [|done].
  destruct (file_type e) eqn:Et; [|done]. specialize (Hmap _ _ eq_refl Et).
  assert (take (Nat.min (length (data e)) (Z.to_nat max_len)) (data e) = take (Z.to_nat max_len) (data e)) as ->.
  { destruct (Nat.min_spec (length (data e)) (Z.to_nat max_len)) as [[? ->]|[? ->]]; [|done].
    rewrite !take_ge; [done|lia|lia]. }
  destruct (store_bytes_ok m buf (take (Z.to_nat max_len) (data e))) as (m' & -> & Hp').
  { rewrite length_take, Nat.min_comm. done. }
  step_ret. exists m'. split; [|done]. rewrite swrap_small by lia. do 2 f_equal. lia.
Qed.
End ops.

(** ** Sequences of calls *)
Inductive vfs_call :=
| VCreate (p : Z)
| VMkdir (p : Z)
| VUnlink (p : Z)
| VWrite (p buf len : Z).

Definition vfs_run (m : mem) (c : vfs_call) (fs : root_fs) : outcome (Z * root_fs) :=
  match c with
  | VCreate p => rust_vfs_create_file m fs p
  | VMkdir p => rust_vfs_mkdir m fs p
  | VUnlink p => rust_vfs_unlink m fs p
  | VWrite p buf len => rust_vfs_write m fs p buf len
  end.

(** Each call is made with the memory as it is at that time. *)
Fixpoint vfs_runs (cs : list (mem * vfs_call)) (fs : root_fs) : outcome (list Z * root_fs) :=
  match cs with
  | [] => Ret ([], fs)
  | (m, c) :: cs' =>
      '(r, fs1) ← vfs_run m c fs;
      '(rs, fs2) ← vfs_runs cs' fs1;
      Ret (r :: rs, fs2)
  end.

(** The same calls with their arguments read from memory. *)
Inductive flat_call :=
| FCreate (t : FileType) (p : path)
| FDelete (p : path)
| FWrite (p : path) (bs : list Z).

Definition flat_run (c : flat_call) (v : flat) : Z * flat :=
  match c with
  | FCreate t p => flat_create t p v
  | FDelete p => flat_delete p v
  | FWrite p bs => flat_write p bs v
  end.

Fixpoint flat_runs (cs : list flat_call) (v : flat) : list Z * flat :=
  match cs with
  | [] => ([], v)
  | c :: cs' =>
      let '(r, v1) := flat_run c v in
      let '(rs, v2) := flat_runs cs' v1 in (r :: rs, v2)
  end.

Inductive denotes (m : mem) : vfs_call -> flat_call -> Prop :=
| den_create p s : p <> 0 -> cstr_at m p s -> denotes m (VCreate p) (FCreate Regular (components s))
| den_mkdir p s : p <> 0 -> cstr_at m p s -> denotes m (VMkdir p) (FCreate Directory (components s))
| den_unlink p s : p <> 0 -> cstr_at m p s -> denotes m (VUnlink p) (FDelete (components s))
| den_write p s buf bs :
    p <> 0 -> cstr_at m p s -> buf <> 0 -> bytes_at m buf bs -> Z.of_nat (length bs) < 2 ^ 63 ->
    denotes m (VWrite p buf (Z.of_nat (length bs))) (FWrite (components s) bs).

Lemma vfs_run_spec m c fc root :
  denotes m c fc -> tree_ok root ->
  exists root', vfs_run m c (Some root) = Ret ((flat_run fc (view root)).1, Some root') /\
    tree_ok root' /\ forall q, view root' q = (flat_run fc (view root)).2 q.
Proof.
  intros [] Hroot; cbn.
  - by apply create_entry_spec.
  - by apply create_entry_spec.
  - by apply delete_file_spec.
  - by apply write_file_spec.
Qed.

(** Equal flat file systems answer alike. *)
Definition flat_equiv (v w : flat) : Prop := forall q, v q = w q.

Lemma flat_run_proper c v w :
  flat_equiv v w -> (flat_run c v).1 = (flat_run c w).1 /\ flat_equiv (flat_run c v).2 (flat_run c w).2.
Proof.
  intros H. destruct c as [t p|p|p bs]; cbn; unfold flat_create, flat_delete, flat_write; rewrite ?H.
  - destruct (decide (p = [])); [done|]. destruct (w (removelast p)); [|done].
    destruct (w p); [done|]. split; [done|]. intros q. cbn. by rewrite H.
  - destruct (decide (p = [])); [done|]. destruct (w p); [|done]. split; [done|]. intros q. cbn. by rewrite H.
  - destruct (w p) as [[[] ?]|]; try done. split; [done|]. intros q. cbn. by rewrite H.
Qed.

Lemma flat_runs_proper cs v w :
  flat_equiv v w -> (flat_runs cs v).1 = (flat_runs cs w).1 /\ flat_equiv (flat_runs cs v).2 (flat_runs cs w).2.
Proof.
  revert v w. induction cs as [|c cs IH]; intros v w H; [done|]. cbn.
  destruct (flat_run_proper c v w H) as [H1 H2].
  destruct (flat_run c v) as [r v1], (flat_run c w) as [r' w1]. cbn in H1, H2.
  destruct (IH v1 w1 H2) as [H3 H4].
  destruct (flat_runs cs v1) as [rs v2], (flat_runs cs w1) as [rs' w2]. cbn in *. split; [congruence|done].
Qed.

Lemma vfs_runs_spec cs fcs root :
  Forall2 (fun mc fc => denotes mc.1 mc.2 fc) cs fcs -> tree_ok root ->
  exists root', vfs_runs cs (Some root) = Ret ((flat_runs fcs (view root)).1, Some root') /\
    tree_ok root' /\ flat_equiv (view root') (flat_runs fcs (view root)).2.
Proof.
  intros Hcs. revert root. induction Hcs as [|[m c] fc cs fcs Hd _ IH]; intros root Hroot; [by exists root|].
  cbn in *. destruct (vfs_run_spec m c fc root Hd Hroot) as (r1 & -> & Hok1 & Hv1). step_ret.
  destruct (IH r1 Hok1) as (r2 & -> & Hok2 & Hv2). step_ret. exists r2.
  destruct (flat_run fc (view root)) as [r v1]. cbn in Hv1.
  destruct (flat_runs_proper fcs _ _ Hv1) as [E1 E2]. destruct (flat_runs fcs v1) as [rs v2]. cbn in *.
  split_and!; [by rewrite E1|done|]. intros q. by rewrite Hv2, E2.
Qed.

Lemma init_tree_ok : tree_ok (new_directory (bytes "/")).
Proof. by apply tree_ok_intro; [split|]. Qed.

Lemma view_init : flat_equiv (view (new_directory (bytes "/"))) flat_init.
Proof. intros q. unfold flat_init. by rewrite view_leaf. Qed.

(** ** The interface of the clients

    The system calls and the shell see the file system as a value with these
    operations; what they may rely on is stated on the flat view. *)
Class FileSystem (F : Type) := {
  fs_create : mem -> F -> Z -> outcome (Z * F);
  fs_mkdir : mem -> F -> Z -> outcome (Z * F);
  fs_unlink : mem -> F -> Z -> outcome (Z * F);
  fs_write : mem -> F -> Z -> Z -> Z -> outcome (Z * F);
  fs_ls : mem -> F -> Z -> outcome (Z * list event);
  fs_ok : F -> Prop;
  fs_view : F -> flat;
  fs_call_spec m c fc f :
    denotes m c fc -> fs_ok f ->
    exists f', match c with
               | VCreate p => fs_create m f p
               | VMkdir p => fs_mkdir m f p
               | VUnlink p => fs_unlink m f p
               | VWrite p buf len => fs_write m f p buf len
               end = Ret ((flat_run fc (fs_view f)).1, f') /\
      fs_ok f' /\ flat_equiv (fs_view f') (flat_run fc (fs_view f)).2;
  fs_ls_spec m f p s :
    cstr_at m p s -> p <> 0 -> fs_ok f ->
    exists evs, fs_ls m f p =
      Ret (match fs_view f (components s) with
           | Some (Directory, _) => 0
           | Some (Regular, _) => -20
           | None => -2
           end, evs)
}.

(** ** Listing *)
Definition line_ok (b : linebuf) : Prop :=
  length (line_buf b) = 256%nat /\ (offset b <= 255)%nat.

Lemma write_ok s b :
  line_ok b -> exists b', write s b = Ret b' /\ line_ok b' /\
    ((offset b + length s < 256)%nat ->
       offset b' = (offset b + length s)%nat /\
       take (offset b') (line_buf b') = take (offset b) (line_buf b) ++ s).
Proof.
  intros [Hl Ho]. unfold write. rewrite Hl. destruct (decide _) as [Hfit|Hfit].
  2:{ exists b. split; [done|]. split; [done|]. intros; lia. }
  rewrite arr_copy_ok by lia. step_ret. eexists. split; [done|]. cbn. split.
  - split; cbn; [|lia]. rewrite !length_app, length_take, length_drop. lia.
  - intros _. split; [done|]. rewrite app_assoc, take_app_length'; [done|].
    rewrite length_app, length_take. lia.
Qed.

Lemma write_all_ok ss b :
  line_ok b -> exists b', write_all ss b = Ret b' /\ line_ok b' /\
    ((offset b + length (concat ss) < 256)%nat ->
       offset b' = (offset b + length (concat ss))%nat /\
       take (offset b') (line_buf b') = take (offset b) (line_buf b) ++ concat ss).
Proof.
  revert b. induction ss as [|s ss IH]; intros b Hb; cbn.
  { exists b. split; [done|]. split; [done|]. intros _. rewrite app_nil_r. split; [lia|done]. }
  destruct (write_ok s b Hb) as (b1 & -> & Hb1 & H1). step_ret.
  destruct (IH b1 Hb1) as (b2 & -> & Hb2 & H2). exists b2. split; [done|]. split; [done|].
  rewrite length_app. intros Hlen. destruct H1 as [H1a H1b]; [lia|]. destruct H2 as [H2a H2b]; [lia|].
  split; [lia|]. by rewrite H2b, H1b, <- app_assoc.
Qed.

(** A line never overruns its buffer; when it fits it is the text. *)
Lemma list_line_ok n c :
  exists l, list_line n c = Ret l /\
    (Forall (fun x => x <> 0) (concat (line_pieces n c)) ->
     (length (concat (line_pieces n c)) < 256)%nat -> l = concat (line_pieces n c)).
Proof.
  unfold list_line.
  destruct (write_all_ok (line_pieces n c) (mkLine (replicate 256 0) 0)) as (b & -> & [Hl Ho] & H).
  { split; [apply length_replicate|cbn; lia]. }
  step_ret. rewrite arr_set_ok by lia. step_ret. eexists. split; [done|]. intros Hnz Hlen.
  destruct (H Hlen) as [_ H2]. cbn in H2. rewrite insert_take_drop by lia. rewrite H2. by apply until_nul_app.
Qed.

Lemma list_lines_ok cs :
  exists ls, list_lines cs = Ret ls /\ length ls = length cs /\
    forall i n c, cs !! i = Some (n, c) ->
      Forall (fun x => x <> 0) (concat (line_pieces n c)) ->
      (length (concat (line_pieces n c)) < 256)%nat -> ls !! i = Some (VgaPrint (concat (line_pieces n c))).
Proof.
  induction cs as [|[n c] cs (ls & IH1 & IH2 & IH3)]; [by exists []|]. cbn [list_lines].
  destruct (list_line_ok n c) as (l & -> & Hl). step_ret. rewrite IH1. step_ret.
  eexists. split; [done|]. split; [cbn; by rewrite IH2|]. intros [|i] n' c' Hi Hnz Hlen; cbn in Hi |- *.
  - injection Hi as -> ->. by rewrite Hl.
  - by apply IH3.
Qed.

Lemma size_digits_nonzero i n acc :
  0 <= n -> Forall (fun x => x <> 0) acc -> Forall (fun x => x <> 0) (size_digits i n acc).
Proof.
  revert n acc. induction i as [|i IH]; intros n acc Hn Ha; cbn; [done|]. destruct (0 <? n); [|done].
  apply IH; [apply Z.div_pos; lia|]. constructor; [|done]. pose proof (Z.mod_pos_bound n 10). lia.
Qed.

Lemma utf8_nonzero s : Forall (fun x => x <> 47 /\ x <> 0) s -> Forall (fun x => x <> 0) (utf8 s).
Proof.
  induction 1 as [|c s [_ Hc] _ IH]; [constructor|]. cbn. apply Forall_app. split; [|exact IH].
  destruct (Z.ltb_spec c 128); repeat constructor; try done.
  - pose proof (Z.div_pos c 64). lia.
  - pose proof (Z.mod_pos_bound c 64). lia.
Qed.

Lemma line_pieces_nonzero n c :
  Forall (fun x => x <> 47 /\ x <> 0) n -> Forall (fun x => x <> 0) (concat (line_pieces n c)).
Proof.
  intros Hn. unfold line_pieces. rewrite !concat_app.
  apply Forall_app. split; [destruct (file_type c); by repeat constructor|].
  apply Forall_app. split.
  - generalize (10 - length (size_str (Z.of_nat (length (data c)))))%nat as k.
    induction k as [|k IH]; cbn; [constructor|by constructor].
  - cbn. apply Forall_app. split.
    + unfold size_str. destruct (_ =? 0); [by repeat constructor|]. apply size_digits_nonzero; [lia|constructor].
    + repeat (constructor; [done|]). apply Forall_app. split; [by apply utf8_nonzero|by repeat constructor].
Qed.

(** The tree implements the interface. *)
Definition root_ok (fs : root_fs) : Prop := match fs with Some root => tree_ok root | None => False end.
Definition root_view (fs : root_fs) : flat := match fs with Some root => view root | None => fun _ => None end.

#[export, program] Instance tree_file_system : FileSystem root_fs := {|
  fs_create := rust_vfs_create_file;
  fs_mkdir := rust_vfs_mkdir;
  fs_unlink := rust_vfs_unlink;
  fs_write := rust_vfs_write;
  fs_ls := rust_vfs_ls;
  fs_ok := root_ok;
  fs_view := root_view
|}.
Next Obligation.
  intros m c fc [root|] Hd Hok; [|done].
  destruct (vfs_run_spec m c fc root Hd Hok) as (root' & Hr & Hok' & Hv). exists (Some root').
  split; [by destruct c|]. by split.
Qed.
Next Obligation.
  intros m [root|] p s Hs Hp Hok; [|done]. unfold rust_vfs_ls, list_directory. rewrite (find_entry_ok _ _ _ Hs Hp).
  step_ret. cbn [root_view]. unfold view. destruct (entry_at root (components s)) as [e|]; cbn; [|by eexists].
  unfold node. destruct (file_type e); [by eexists|].
  destruct (list_lines_ok (children e)) as (ls & -> & _). by eexists.
Qed.

(** ** The status record *)
Lemma store_words_ok m a vs :
  mapped m a (8 * length vs) -> Forall (fun v => 0 <= v < 2 ^ 64) vs ->
  exists m', store_words m a vs = Ret m' /\ dom m' = dom m /\
    (forall i v, vs !! i = Some v -> load64 m' (a + 8 * Z.of_nat i) = Ret v) /\
    (forall x, x < a \/ a + 8 * Z.of_nat (length vs) <= x -> m' !! x = m !! x).
Proof.
  intros Hm Hvs. revert m a Hm. induction Hvs as [|v vs Hv Hvs IH]; intros m a Hm; cbn [store_words].
  { exists m. by split_and!. }
  cbn [length] in Hm. destruct (store64_ok m a v) as (m1 & -> & Hp).
  { intros i Hi. apply Hm. lia. }
  step_ret. assert (dom m1 = dom m) as Hd.
  { eapply patched_dom; [|exact Hp]. rewrite le_bytes_length. intros i Hi. apply Hm. lia. }
  destruct (IH m1 (a + 8)) as (m2 & -> & Hd2 & Hw & Ho).
  { intros i Hi. apply elem_of_dom. rewrite Hd. apply elem_of_dom.
    replace (a + 8 + Z.of_nat i) with (a + Z.of_nat (8 + i)) by lia. apply Hm. lia. }
  exists m2. split; [done|]. split; [congruence|]. split.
  - intros [|i] w Hi; cbn in Hi.
    + injection Hi as <-. rewrite Z.add_0_r. apply load64_at; [done|].
      apply (bytes_at_ext m1); [by apply bytes_at_patched in Hp|].
      rewrite le_bytes_length. intros x Hx. apply Ho. lia.
    + replace (a + 8 * Z.of_nat (S i)) with (a + 8 + 8 * Z.of_nat i) by lia. by apply Hw.
  - intros x Hx. cbn [length] in Hx. rewrite Ho by lia. eapply patched_outside; [exact Hp|].
    rewrite le_bytes_length. lia.
Qed.

(** ** The properties *)

(** A memory for concrete runs: three paths, a text and room for results. *)
Definition demo_mem : mem :=
  poke 100 (bytes "/etc" ++ [0]) (poke 200 (bytes "//etc/motd" ++ [0])
    (poke 300 (bytes "hello") (poke 400 (replicate 100 0) ∅))).

Definition demo_root (d : list Z) : FileEntry :=
  mkEntry (bytes "/") Directory [] [(bytes "etc", mkEntry (bytes "etc") Regular d [])].

Lemma demo_root_ok d : tree_ok (demo_root d).
Proof.
  apply (insert_child_ok (new_directory (bytes "/")) (bytes "etc") (mkEntry (bytes "etc") Regular d []));
    [apply init_tree_ok|by apply tree_ok_intro; [split|]|done|].
  split; [done|]. by repeat constructor.
Qed.

(** C3. The tree implements the flat file system: started from the empty root
    directory, any sequence of create, mkdir, unlink and write calls whose
    arguments are C strings and buffers in memory returns (no fault, no panic)
    exactly the results of the specification, and leaves a tree whose contents,
    path by path, are those of the specification; the tree keeps its children
    sorted and stored under their own names. *)
Theorem vfs_implements_flat cs fcs :
  Forall2 (fun mc fc => denotes mc.1 mc.2 fc) cs fcs ->
  exists root, vfs_runs cs init = Ret ((flat_runs fcs flat_init).1, Some root) /\
    tree_ok root /\ forall q, view root q = (flat_runs fcs flat_init).2 q.
Proof.
  intros H. destruct (vfs_runs_spec cs fcs _ H init_tree_ok) as (root & Hr & Hok & Hv). exists root.
  destruct (flat_runs_proper fcs _ _ view_init) as [E1 E2]. split_and!; [by rewrite <- E1|done|].
  intros q. by rewrite Hv, E2.
Qed.

Lemma vfs_implements_flat_witness :
  exists root,
    vfs_runs [(demo_mem, VMkdir 100); (demo_mem, VCreate 200); (demo_mem, VWrite 200 300 5);
              (demo_mem, VCreate 200); (demo_mem, VUnlink 100); (demo_mem, VCreate 200)] init
    = Ret ([0; 0; 5; -17; 0; -2], Some root) /\ tree_ok root.
Proof.
  edestruct (vfs_implements_flat
    [(demo_mem, VMkdir 100); (demo_mem, VCreate 200); (demo_mem, VWrite 200 300 5);
     (demo_mem, VCreate 200); (demo_mem, VUnlink 100); (demo_mem, VCreate 200)]) as (root & H1 & H2 & _).
  { assert (cstr_at demo_mem 100 (bytes "/etc")) as He by (apply read_cstr_inv; vm_compute; reflexivity).
    assert (cstr_at demo_mem 200 (bytes "//etc/motd")) as Hm by (apply read_cstr_inv; vm_compute; reflexivity).
    assert (bytes_at demo_mem 300 (bytes "hello")) as Hh by (apply (load_bytes_inv _ _ 5); vm_compute; reflexivity).
    repeat apply Forall2_cons_2; [eapply den_mkdir|eapply den_create|
      eapply (den_write _ 200 _ 300 (bytes "hello"))|eapply den_create|eapply den_unlink|eapply den_create|
      apply Forall2_nil_2]; try eassumption; by vm_compute. }
  exists root. split; [exact H1|exact H2].
Defined.

(** What is written is read back: after a successful write of [bs] to a
    regular file, a read of the same path, through any memory and any path
    string naming the file, returns the first [max_len] bytes of [bs] and writes
    nothing else. *)
Theorem vfs_write_then_read m1 p1 s1 buf1 bs root root' m2 p2 s2 buf2 max_len r :
  tree_ok root -> cstr_at m1 p1 s1 -> p1 <> 0 -> buf1 <> 0 -> bytes_at m1 buf1 bs ->
  Z.of_nat (length bs) < 2 ^ 63 -> r <> 0 ->
  write_file m1 (Some root) p1 buf1 (Z.of_nat (length bs)) = Ret (r, Some root') ->
  cstr_at m2 p2 s2 -> p2 <> 0 -> components s2 = components s1 -> buf2 <> 0 -> 0 < max_len < 2 ^ 31 ->
  mapped m2 buf2 (Z.to_nat max_len) ->
  exists m', read_file m2 (Some root') p2 buf2 max_len = Ret (Z.min (Z.of_nat (length bs)) max_len, m') /\
    patched m2 buf2 (take (Z.to_nat max_len) bs) m'.
Proof.
  intros Hok H1 Hp1 Hb1 Hbs Hlen Hr Hw H2 Hp2 Es Hb2 Hmax Hmap.
  destruct (write_file_spec m1 p1 s1 H1 Hp1 root Hok buf1 bs Hb1 Hbs Hlen) as (root2 & Hw2 & Hok2 & Hv).
  rewrite Hw2 in Hw. injection Hw as E <-. unfold flat_write in E, Hv.
  destruct (view root (components s1)) as [[[] d]|]; cbn in E; [|congruence|congruence].
  specialize (Hv (components s2)). cbn in Hv. rewrite decide_True in Hv by done.
  pose proof (read_file_spec m2 p2 s2 H2 Hp2 root2 buf2 max_len Hb2 Hmax) as R. rewrite Hv in R.
  apply R. intros t bs' [= <- <-] _ i Hi. apply Hmap. lia.
Qed.

Lemma vfs_write_then_read_witness :
  write_file demo_mem (Some (demo_root [])) 100 300 5 = Ret (5, Some (demo_root (bytes "hello"))) /\
  exists m', read_file demo_mem (Some (demo_root (bytes "hello"))) 100 400 3 = Ret (3, m') /\
    patched demo_mem 400 (bytes "hel") m'.
Proof.
  assert (cstr_at demo_mem 100 (bytes "/etc")) as He by (apply read_cstr_inv; vm_compute; reflexivity).
  split; [vm_compute; reflexivity|].
  apply (vfs_write_then_read demo_mem 100 (bytes "/etc") 300 (bytes "hello") (demo_root []) _
    demo_mem 100 (bytes "/etc") 400 3 5 (demo_root_ok [])); try done; try lia.
  - apply (load_bytes_inv _ _ 5). vm_compute. reflexivity.
  - apply (mapped_dec_ok demo_mem 400 3). vm_compute. reflexivity.
Defined.

(** Path strings: the components of a C string are never empty and hold no
    slash; writing a list of such components as an absolute path and splitting it
    gives the list back; and any number of slashes anywhere between two parts
    separates them once, so that trailing and doubled slashes change nothing. *)
Theorem path_components_roundtrip :
  (forall m p comps, get_path_components m p = Ret comps -> Forall component_ok comps) /\
  (forall comps, Forall component_ok comps -> components (render comps) = comps) /\
  (forall s n t, components (s ++ replicate (S n) 47 ++ t) = components s ++ components t).
Proof.
  split_and!.
  - intros m p comps H. unfold get_path_components in H. destruct (p =? 0); [inv_ret; constructor|].
    inv_bind H. inv_ret. apply read_cstr_inv in Hr. apply components_ok, Hr.
  - apply components_render.
  - intros s n t. cbn [replicate app]. rewrite components_slash. f_equal.
    induction n as [|n IH]; cbn [replicate app]; [done|]. by rewrite components_lead.
Qed.

(** Listing a directory always returns 0, whatever the names and sizes in
    it: no line overruns its 256-byte buffer.  The output is framed by disabling
    and enabling interrupts, and after the two header lines there is one line per
    child in the order of the names; a line that fits the buffer is the complete
    text, with the name and the size of that child. *)
Theorem list_directory_output m p s root d :
  cstr_at m p s -> p <> 0 -> tree_ok root -> entry_at root (components s) = Some d ->
  file_type d = Directory ->
  exists ls, list_directory m (Some root) p =
      Ret (0, [Cli; VgaPrint list_header; SerialWrite list_header; VgaPrint list_separator;
               SerialWrite list_separator] ++ ls ++ [Sti]) /\
    length ls = length (children d) /\
    (forall i j n n' c c', (i < j)%nat -> children d !! i = Some (n, c) -> children d !! j = Some (n', c') ->
       key_lt n n') /\
    (forall i n c, children d !! i = Some (n, c) -> (length (concat (line_pieces n c)) < 256)%nat ->
       ls !! i = Some (VgaPrint (concat (line_pieces n c)))).
Proof.
  intros Hs Hp Hroot Hd Ht. unfold list_directory. rewrite (find_entry_ok _ _ _ Hs Hp), Hd. step_ret.
  cbn [mbind option_bind]. rewrite Ht. destruct (list_lines_ok (children d)) as (ls & -> & Hlen & Hls).
  exists ls. pose proof (tree_ok_at _ _ _ Hroot Hd) as Hdok. destruct (tree_ok_here _ Hdok) as [Hwf Hch].
  split; [done|]. split; [done|]. split; [intros i j n n' c c'; by apply bt_wf_lookup|].
  intros i n c Hi Hfit. apply Hls; [done| |done]. apply line_pieces_nonzero.
  apply list_elem_of_lookup_2 in Hi. apply bt_get_elem in Hi; [|done]. by apply Hch in Hi as [_ [_ ?]].
Qed.

Lemma list_directory_output_witness :
  exists ls, list_directory demo_mem (Some (demo_root (bytes "hello"))) 400 =
      Ret (0, [Cli; VgaPrint list_header; SerialWrite list_header; VgaPrint list_separator;
               SerialWrite list_separator] ++ ls ++ [Sti]) /\
    ls !! 0%nat = Some (VgaPrint (line "-  rwxr-xr-x  1  root  root           5  Jan  1 00:00  etc")).
Proof.
  destruct (list_directory_output demo_mem 400 [] (demo_root (bytes "hello")) (demo_root (bytes "hello")))
    as (ls & H1 & _ & _ & H4);
    [apply read_cstr_inv; vm_compute; reflexivity|lia|apply demo_root_ok|reflexivity|reflexivity|].
  - exists ls. split; [exact H1|]. rewrite (H4 0%nat (bytes "etc") (mkEntry (bytes "etc") Regular (bytes "hello") []));
      [reflexivity|reflexivity|]. vm_compute. lia.
Defined.

(** [rust_vfs_stat] of an existing path returns 0 and fills the record: the
    ten words can be read back, among them the mode that tells a directory from
    a regular file and the size of the contents; nothing outside the 80 bytes is
    written.  A path that does not exist gives ENOENT. *)
Theorem vfs_stat_fields m p s root statbuf :
  cstr_at m p s -> 0 < p < 2 ^ 64 -> statbuf <> 0 -> mapped m statbuf 80 ->
  match entry_at root (components s) with
  | None => rust_vfs_stat m (Some root) p statbuf = Ret (-2, m)
  | Some e => Z.of_nat (length (data e)) < 2 ^ 64 ->
      exists m', rust_vfs_stat m (Some root) p statbuf = Ret (0, m') /\
        load64 m' (statbuf + 16) = Ret (if decide (file_type e = Directory) then 0x41ED else 0x81A4) /\
        load64 m' (statbuf + 48) = Ret (Z.of_nat (length (data e))) /\
        (forall i v, stat_words p e !! i = Some v -> load64 m' (statbuf + 8 * Z.of_nat i) = Ret v) /\
        (forall x, x < statbuf \/ statbuf + 80 <= x -> m' !! x = m !! x)
  end.
Proof.
  intros Hs Hp Hb Hm. unfold rust_vfs_stat.
  rewrite (proj2 (Z.eqb_neq p 0)), (proj2 (Z.eqb_neq statbuf 0)) by lia. cbn [orb].
  rewrite (find_entry_ok _ _ _ Hs) by lia. step_ret.
  destruct (entry_at root (components s)) as [e|]; cbn [mbind option_bind]; [|done]. intros Hlen.
  destruct (store_words_ok m statbuf (stat_words p e) Hm) as (m' & -> & _ & Hw & Ho).
  { repeat apply Forall_cons_2; try lia; [by destruct (file_type e)|apply Forall_nil_2]. }
  exists m'. split; [done|]. split; [|split; [|done]].
  - pose proof (Hw 2%nat _ eq_refl) as H2. change (8 * Z.of_nat 2) with 16 in H2. rewrite H2.
    by destruct (file_type e).
  - apply (Hw 6%nat _ eq_refl).
Qed.

Lemma vfs_stat_fields_witness :
  exists m', rust_vfs_stat demo_mem (Some (demo_root (bytes "hello"))) 100 400 = Ret (0, m') /\
    load64 m' 416 = Ret 0x81A4 /\ load64 m' 448 = Ret 5.
Proof.
  destruct (vfs_stat_fields demo_mem 100 (bytes "/etc") (demo_root (bytes "hello")) 400)
    as (m' & H1 & H2 & H3 & _); try lia.
  - apply read_cstr_inv. vm_compute. reflexivity.
  - apply mapped_dec_ok. vm_compute. reflexivity.
  - vm_compute. reflexivity.
  - exists m'. split_and!; assumption.
Defined.

(** A regular file is accepted as the parent of a new entry: creating a file
    or a directory below it succeeds instead of failing with ENOTDIR, and the
    entry can be found there afterwards. *)
Theorem create_below_regular_file m p s root pp n parent :
  cstr_at m p s -> p <> 0 -> tree_ok root -> components s = pp ++ [n] ->
  entry_at root pp = Some parent -> file_type parent = Regular -> bt_get n (children parent) = None ->
  exists root', create_file m (Some root) p = Ret (0, Some root') /\
    view root' pp = view root pp /\ view root' (pp ++ [n]) = Some (Regular, []).
Proof.
  intros Hs Hp Hroot Es Hpar Ht Hn.
  destruct (create_entry_spec m p s Hs Hp root Hroot new_file Regular) as (root' & Hc & _ & Hv); [done|].
  exists root'. unfold create_file. rewrite Hc, !Hv, Es. unfold flat_create.
  rewrite decide_False by (by destruct pp). rewrite removelast_last, (view_snoc _ _ _ n Hpar), Hn.
  assert (view root pp = Some (node parent)) as -> by (unfold view; by rewrite Hpar). cbn.
  split; [done|]. split; [|by rewrite decide_True]. rewrite decide_False; [unfold view; by rewrite Hpar|].
  intros E%(f_equal length). rewrite length_app in E. cbn in E. lia.
Qed.

Lemma create_below_regular_file_witness :
  exists root', create_file demo_mem (Some (demo_root (bytes "hello"))) 200 = Ret (0, Some root') /\
    view root' [bytes "etc"] = Some (Regular, bytes "hello") /\
    view root' [bytes "etc"; bytes "motd"] = Some (Regular, []).
Proof.
  apply (create_below_regular_file demo_mem 200 (bytes "//etc/motd") (demo_root (bytes "hello"))
    [bytes "etc"] (bytes "motd") (mkEntry (bytes "etc") Regular (bytes "hello") []));
    [|lia|apply demo_root_ok|vm_compute; reflexivity|reflexivity..].
  apply read_cstr_inv. vm_compute. reflexivity.
Defined.
