(* ===== verification/Vga.v ===== *)
(** * Vga: the text console of [vga.rs]

    The 80x25 text buffer at 0xB8000, the cursor, the colour and the auto-clear
    flag.  The buffer is the list of its 2000 words; an access beyond it would
    touch other memory and is a fault of the model.  Port writes (the hardware
    cursor) are logged. *)

From S2P Require Import Prelude Memory.

Local Open Scope Z_scope.

(** ** The code *)
Definition VGA_WIDTH : nat := 80.
Definition VGA_HEIGHT : nat := 25.

Record vga := mkVga {
  VGA_BUFFER : list Z;
  CURSOR_X : nat;
  CURSOR_Y : nat;
  CURRENT_COLOR : Z;
  AUTO_CLEAR_ENABLED : bool;
  ports : list (Z * Z)
}.

Definition with_cursor (x y : nat) (v : vga) : vga :=
  mkVga (VGA_BUFFER v) x y (CURRENT_COLOR v) (AUTO_CLEAR_ENABLED v) (ports v).
Definition with_buffer (b : list Z) (v : vga) : vga :=
  mkVga b (CURSOR_X v) (CURSOR_Y v) (CURRENT_COLOR v) (AUTO_CLEAR_ENABLED v) (ports v).
Definition outb (p x : Z) (v : vga) : vga :=
  mkVga (VGA_BUFFER v) (CURSOR_X v) (CURSOR_Y v) (CURRENT_COLOR v) (AUTO_CLEAR_ENABLED v) (ports v ++ [(p, x)]).

(** [ptr::read_volatile] and [ptr::write_volatile] on [VGA_BUFFER.add(pos)]. *)
Definition read_cell (pos : nat) (v : vga) : outcome Z := deref (VGA_BUFFER v !! pos).

Definition write_cell (pos : nat) (x : Z) (v : vga) : outcome vga :=
  if decide (pos < length (VGA_BUFFER v))%nat then Ret (with_buffer (<[pos := x]> (VGA_BUFFER v)) v) else Fault.

(** [(CURRENT_COLOR as u16) << 8 | c as u16]. *)
Definition cell (color c : Z) : Z := ((color <<. 8) .| c)%W.

Definition update_cursor (v : vga) : vga :=
  let pos := Z.of_nat (CURSOR_Y v * VGA_WIDTH + CURSOR_X v) in
  outb 0x3D5 ((pos >>. 8) .& 0xFF)%W (outb 0x3D4 0x0E (outb 0x3D5 (pos .& 0xFF)%W (outb 0x3D4 0x0F v))).

Definition verify_vga_buffer (v : vga) : outcome bool := _ ← read_cell 0 v; Ret true.

Definition ensure_vga_buffer_mapped (v : vga) : outcome vga :=
  original ← read_cell 0 v; write_cell 0 original v.

Definition is_scrolling_safe (v : vga) : outcome bool :=
  if decide (VGA_HEIGHT - 1 <= CURSOR_Y v)%nat then verify_vga_buffer v else Ret true.

(** [for i in i0..i0 + n { write(i, x) }]. *)
Fixpoint fill (n i : nat) (x : Z) (v : vga) : outcome vga :=
  match n with O => Ret v | S n' => v' ← write_cell i x v; fill n' (S i) x v' end.

Definition clear (v : vga) : outcome vga :=
  v ← fill (VGA_WIDTH * VGA_HEIGHT) 0 0x0F20 v; Ret (update_cursor (with_cursor 0 0 v)).

Definition scroll_up_safe (v : vga) : outcome vga :=
  v ← fill (VGA_WIDTH * VGA_HEIGHT) 0 (cell (CURRENT_COLOR v) 32) v;
  Ret (update_cursor (with_cursor 0 0 v)).

(** One row: [for x in 0..VGA_WIDTH], from column [x]. *)
Fixpoint scroll_row (n x y : nat) (v : vga) : outcome vga :=
  match n with
  | O => Ret v
  | S n' =>
      let src_pos := (y * VGA_WIDTH + x)%nat in
      let dst_pos := ((y - 1) * VGA_WIDTH + x)%nat in
      v' ← (if decide (src_pos < VGA_WIDTH * VGA_HEIGHT /\ dst_pos < VGA_WIDTH * VGA_HEIGHT)%nat
            then entry ← read_cell src_pos v; write_cell dst_pos entry v
            else Ret v);
      scroll_row n' (S x) y v'
  end.

(** [for y in 1..VGA_HEIGHT], from row [y]. *)
Fixpoint scroll_rows (n y : nat) (v : vga) : outcome vga :=
  match n with O => Ret v | S n' => v' ← scroll_row VGA_WIDTH 0 y v; scroll_rows n' (S y) v' end.

Definition scroll_up (v : vga) : outcome vga :=
  ok ← verify_vga_buffer v;
  if negb ok then Ret v
  else
    v ← scroll_rows (VGA_HEIGHT - 1) 1 v;
    fill VGA_WIDTH ((VGA_HEIGHT - 1) * VGA_WIDTH) (cell (CURRENT_COLOR v) 32) v.

Definition auto_clear_if_needed (v : vga) : outcome vga :=
  if negb (AUTO_CLEAR_ENABLED v) then
    safe ← is_scrolling_safe v;
    if safe : bool then v' ← scroll_up v; Ret (with_cursor (CURSOR_X v') (VGA_HEIGHT - 1) v')
    else scroll_up_safe v
  else if decide (VGA_HEIGHT - 1 <= CURSOR_Y v)%nat then
    v' ← clear v; Ret (update_cursor (with_cursor 0 0 v'))
  else Ret v.

Definition set_auto_clear (b : bool) (v : vga) : vga :=
  mkVga (VGA_BUFFER v) (CURSOR_X v) (CURSOR_Y v) (CURRENT_COLOR v) b (ports v).
Definition enable_auto_clear := set_auto_clear true.
Definition disable_auto_clear := set_auto_clear false.
Definition is_auto_clear_enabled (v : vga) : bool := AUTO_CLEAR_ENABLED v.

Definition set_color (color : Z) (v : vga) : vga :=
  mkVga (VGA_BUFFER v) (CURSOR_X v) (CURSOR_Y v) color (AUTO_CLEAR_ENABLED v) (ports v).

Definition enable_cursor (cursor_start cursor_end : Z) (v : vga) : vga :=
  outb 0x3D5 (cursor_end .& 0x1F)%W (outb 0x3D4 0x0B (outb 0x3D5 (cursor_start .& 0x1F)%W (outb 0x3D4 0x0A v))).

Definition disable_cursor (v : vga) : vga := outb 0x3D5 0x20 (outb 0x3D4 0x0A v).

Definition rust_vga_init (v : vga) : outcome vga :=
  v ← ensure_vga_buffer_mapped v;
  v ← clear v;
  Ret (update_cursor (enable_cursor 14 15 (set_color 0x0F v))).

(** [CURSOR_X = 0; CURSOR_Y += 1; if CURSOR_Y >= VGA_HEIGHT { ... }]. *)
Definition next_line (v : vga) : outcome vga :=
  let v := with_cursor 0 (CURSOR_Y v + 1) v in
  if decide (VGA_HEIGHT <= CURSOR_Y v)%nat then auto_clear_if_needed v else Ret v.

Definition print_char (c : Z) (v : vga) : outcome vga :=
  if c =? 10 then v ← next_line v; Ret (update_cursor v)
  else if c =? 13 then Ret (update_cursor (with_cursor 0 (CURSOR_Y v) v))
  else if c =? 8 then
    if decide (0 < CURSOR_X v)%nat then
      let v := with_cursor (CURSOR_X v - 1) (CURSOR_Y v) v in
      let pos := (CURSOR_Y v * VGA_WIDTH + CURSOR_X v)%nat in
      v ← (if decide (pos < VGA_WIDTH * VGA_HEIGHT)%nat then write_cell pos (cell (CURRENT_COLOR v) 32) v else Ret v);
      Ret (update_cursor v)
    else Ret v
  else
    v ← (if decide (VGA_WIDTH <= CURSOR_X v)%nat then next_line v else Ret v);
    if decide (CURSOR_Y v < VGA_HEIGHT /\ CURSOR_X v < VGA_WIDTH)%nat then
      let pos := (CURSOR_Y v * VGA_WIDTH + CURSOR_X v)%nat in
      if decide (pos < VGA_WIDTH * VGA_HEIGHT)%nat then
        v ← write_cell pos (cell (CURRENT_COLOR v) c) v;
        Ret (update_cursor (with_cursor (CURSOR_X v + 1) (CURSOR_Y v) v))
      else Ret v
    else Ret v.

Fixpoint print_chars (cs : list Z) (v : vga) : outcome vga :=
  match cs with [] => Ret v | c :: cs' => v' ← print_char c v; print_chars cs' v' end.

Definition print_string (m : mem) (text : Z) (v : vga) : outcome vga :=
  if text =? 0 then Ret v else cs ← read_cstr m text; print_chars cs v.

(** [hex_chars[digit]] for the digits from the highest one down. *)
Fixpoint print_hex_loop (n : nat) (value : Z) (v : vga) : outcome vga :=
  match n with
  | O => Ret v
  | S i =>
      c ← arr_get (bytes "0123456789ABCDEF") (Z.to_nat ((value >>. (Z.of_nat i * 4)) .& 0xF)%W);
      v' ← print_char c v;
      print_hex_loop i value v'
  end.

Definition print_hex (value : Z) (v : vga) : outcome vga :=
  v ← print_chars (bytes "0x") v; print_hex_loop 16 value v.

Definition print_dec (value : Z) (v : vga) : outcome vga :=
  if value =? 0 then print_char 48 v
  else ds ← digit_loop 20 value; print_chars (rev ds) v.

Definition get_cursor_position (v : vga) : nat * nat := (CURSOR_X v, CURSOR_Y v).

Definition set_cursor_position (x y : nat) (v : vga) : vga :=
  update_cursor (with_cursor (Nat.min x (VGA_WIDTH - 1)) (Nat.min y (VGA_HEIGHT - 1)) v).

(** [rust_vga_print] gives up after 4097 characters. *)
Fixpoint vga_print_loop (n : nat) (m : mem) (s : Z) (v : vga) : outcome vga :=
  match n with
  | O => Ret v
  | S n' =>
      ch ← load8 m s;
      if ch =? 0 then Ret v else v' ← print_char ch v; vga_print_loop n' m (s + 1) v'
  end.

Definition rust_vga_print (m : mem) (s : Z) (v : vga) : outcome vga :=
  if s =? 0 then Ret v else vga_print_loop 4097 m s v.

(** *** The C interface *)
Definition vga_print := print_string.
Definition vga_putchar := print_char.
Definition vga_clear := clear.
Definition vga_set_color := set_color.
Definition rust_vga_clear := clear.
Definition rust_vga_set_color := set_color.
Definition vga_enable_cursor := enable_cursor.
Definition vga_disable_cursor := disable_cursor.
Definition vga_update_cursor := update_cursor.
Definition rust_vga_enable_auto_clear := enable_auto_clear.
Definition rust_vga_disable_auto_clear := disable_auto_clear.
Definition rust_vga_is_auto_clear_enabled := is_auto_clear_enabled.
Definition vga_set_cursor_position := set_cursor_position.

(** ** The buffer *)
Lemma write_cell_ok pos x v :
  (pos < length (VGA_BUFFER v))%nat -> write_cell pos x v = Ret (with_buffer (<[pos := x]> (VGA_BUFFER v)) v).
Proof. intros H. unfold write_cell. by rewrite decide_True. Qed.

Lemma fill_ok n i x v :
  (i + n <= length (VGA_BUFFER v))%nat ->
  fill n i x v = Ret (with_buffer (take i (VGA_BUFFER v) ++ replicate n x ++ drop (i + n) (VGA_BUFFER v)) v).
Proof.
  revert i v. induction n as [|n IH]; intros i v H; cbn [fill].
  { rewrite Nat.add_0_r. cbn. rewrite take_drop. by destruct v. }
  rewrite write_cell_ok by lia. step_ret. rewrite IH by (cbn; rewrite length_insert; lia). f_equal.
  unfold with_buffer. cbn [VGA_BUFFER CURSOR_X CURSOR_Y CURRENT_COLOR AUTO_CLEAR_ENABLED ports]. f_equal.
  rewrite (take_S_r _ _ x) by (rewrite list_lookup_insert_eq by lia; done).
  rewrite take_insert_ge, drop_insert_lt by lia. rewrite <- app_assoc. cbn. by replace (i + S n)%nat with (S (i + n)) by lia.
Qed.

(** Moving one row up, from column [x] on, cell by cell. *)
Lemma scroll_row_ok n x y v :
  length (VGA_BUFFER v) = 2000%nat -> (x + n = 80)%nat -> (1 <= y <= 24)%nat ->
  exists b, scroll_row n x y v = Ret (with_buffer b v) /\ length b = 2000%nat /\
    forall p, b !! p = if decide ((y - 1) * 80 + x <= p < y * 80)%nat
                       then VGA_BUFFER v !! (p + 80)%nat else VGA_BUFFER v !! p.
Proof.
  revert x v. induction n as [|n IH]; intros x v Hl Hx Hy; cbn [scroll_row].
  { exists (VGA_BUFFER v). split; [by destruct v|]. split; [done|]. intros p. rewrite decide_False by lia. done. }
  unfold VGA_WIDTH, VGA_HEIGHT. rewrite decide_True by lia.
  destruct (lookup_lt_is_Some_2 (VGA_BUFFER v) (y * 80 + x)) as [e He]; [lia|].
  unfold read_cell. rewrite He. cbn [deref]. step_ret. rewrite write_cell_ok by lia. step_ret.
  destruct (IH (S x) (with_buffer (<[((y - 1) * 80 + x)%nat:=e]> (VGA_BUFFER v)) v)) as (b & -> & Hb & Hp).
  - cbn. by rewrite length_insert.
  - lia.
  - done.
  - exists b. split; [done|]. split; [done|]. intros p. rewrite Hp. cbn [VGA_BUFFER with_buffer].
    destruct (decide (p = (y - 1) * 80 + x)%nat) as [->|Hne].
    + rewrite decide_False, decide_True by lia. rewrite list_lookup_insert_eq by lia.
      rewrite <- He. f_equal. lia.
    + repeat case_decide; try lia; by rewrite list_lookup_insert_ne by lia.
Qed.

Lemma scroll_rows_ok n y v :
  length (VGA_BUFFER v) = 2000%nat -> (y + n = 25)%nat -> (1 <= y)%nat ->
  exists b, scroll_rows n y v = Ret (with_buffer b v) /\ length b = 2000%nat /\
    forall p, b !! p = if decide ((y - 1) * 80 <= p < 24 * 80)%nat
                       then VGA_BUFFER v !! (p + 80)%nat else VGA_BUFFER v !! p.
Proof.
  revert y v. induction n as [|n IH]; intros y v Hl Hn Hy; cbn [scroll_rows].
  { exists (VGA_BUFFER v). split; [by destruct v|]. split; [done|]. intros p. rewrite decide_False by lia. done. }
  destruct (scroll_row_ok 80 0 y v Hl) as (b1 & E1 & Hl1 & Hp1); [lia|lia|].
  unfold VGA_WIDTH. rewrite E1. step_ret.
  destruct (IH (S y) (with_buffer b1 v)) as (b & -> & Hb & Hp); [done|lia|lia|].
  exists b. split; [done|]. split; [done|]. intros p. rewrite Hp. cbn [VGA_BUFFER with_buffer]. rewrite !Hp1.
  repeat case_decide; try lia; done.
Qed.

Lemma scroll_up_ok v :
  length (VGA_BUFFER v) = 2000%nat ->
  scroll_up v = Ret (with_buffer (drop 80 (VGA_BUFFER v) ++ replicate 80 (cell (CURRENT_COLOR v) 32)) v).
Proof.
  intros Hl. unfold scroll_up, verify_vga_buffer, read_cell.
  destruct (lookup_lt_is_Some_2 (VGA_BUFFER v) 0) as [e ->]; [lia|]. cbn [deref negb]. step_ret.
  destruct (scroll_rows_ok (VGA_HEIGHT - 1) 1 v Hl) as (b & -> & Hb & Hp); [done|done|]. step_ret. cbn [negb].
  rewrite fill_ok by (cbn [VGA_BUFFER with_buffer]; unfold VGA_WIDTH, VGA_HEIGHT; lia). f_equal. unfold with_buffer.
  cbn [VGA_BUFFER CURSOR_X CURSOR_Y CURRENT_COLOR AUTO_CLEAR_ENABLED ports]. f_equal.
  rewrite (drop_ge b), app_nil_r by (unfold VGA_WIDTH, VGA_HEIGHT; lia).
  f_equal. apply list_eq. intros p. unfold VGA_HEIGHT, VGA_WIDTH. change ((25 - 1) * 80)%nat with 1920%nat.
  destruct (decide (p < 1920)%nat) as [Hlt|Hge].
  - rewrite lookup_take_lt by lia. rewrite lookup_drop, Hp, decide_True by lia. f_equal. lia.
  - rewrite !lookup_ge_None_2; [done|rewrite length_drop; lia|rewrite length_take; lia].
Qed.

(** ** The hardware cursor: what the controller holds after the port writes *)
Definition crtc_step (s : Z * Z * Z) (w : Z * Z) : Z * Z * Z :=
  let '(idx, lo, hi) := s in
  if w.1 =? 0x3D4 then (w.2, lo, hi)
  else if w.1 =? 0x3D5 then if idx =? 0x0F then (idx, w.2, hi) else if idx =? 0x0E then (idx, lo, w.2) else s
  else s.

Definition hw_cursor (v : vga) : Z :=
  let '(_, lo, hi) := fold_left crtc_step (ports v) (0, 0, 0) in hi * 256 + lo.

Definition cursor_pos (v : vga) : Z := Z.of_nat (CURSOR_Y v * VGA_WIDTH + CURSOR_X v).

Lemma hw_update v : (cursor_pos v < 2 ^ 16) -> hw_cursor (update_cursor v) = cursor_pos v.
Proof.
  intros H. unfold hw_cursor, update_cursor, outb. cbn [ports CURSOR_X CURSOR_Y]. fold (cursor_pos v).
  rewrite !fold_left_app. destruct (fold_left crtc_step (ports v) (0, 0, 0)) as [[idx lo] hi]. cbn.
  change 255 with (Z.ones 8). rewrite !Z.land_ones, Z.shiftr_div_pow2 by lia.
  assert (0 <= cursor_pos v) by (unfold cursor_pos; lia).
  rewrite (Z.mod_small (cursor_pos v / 2 ^ 8)).
  - pose proof (Z.div_mod (cursor_pos v) (2 ^ 8)). lia.
  - split; [apply Z.div_pos; lia|]. apply Z.div_lt_upper_bound; lia.
Qed.

(** ** The invariant *)
Record vga_ok (v : vga) : Prop := {
  ok_buffer : length (VGA_BUFFER v) = 2000%nat;
  ok_x : (CURSOR_X v <= 80)%nat;
  ok_y : (CURSOR_Y v < 25)%nat
}.

(** ... and the hardware cursor is where the software cursor is. *)
Definition vga_synced (v : vga) : Prop := vga_ok v /\ hw_cursor v = cursor_pos v.

Lemma synced_update v : vga_ok v -> vga_synced (update_cursor v).
Proof.
  intros [Hb Hx Hy]. split; [by split|]. rewrite hw_update; [done|]. unfold cursor_pos, VGA_WIDTH. lia.
Qed.

Lemma clear_ok v :
  length (VGA_BUFFER v) = 2000%nat ->
  clear v = Ret (update_cursor (with_cursor 0 0 (with_buffer (replicate 2000 0x0F20) v))).
Proof.
  intros Hl. unfold clear. rewrite fill_ok by (rewrite Hl; unfold VGA_WIDTH, VGA_HEIGHT; lia). step_ret.
  rewrite drop_ge by (rewrite Hl; unfold VGA_WIDTH, VGA_HEIGHT; lia). rewrite take_0, app_nil_r. done.
Qed.

(** Fields of states built by the operations. *)
Ltac vga_fields :=
  cbn [VGA_BUFFER CURSOR_X CURSOR_Y CURRENT_COLOR AUTO_CLEAR_ENABLED ports with_cursor with_buffer update_cursor
       outb set_color set_auto_clear enable_cursor set_cursor_position].

(** The line the cursor goes to when it leaves the bottom of the screen. *)
Definition bottom (v : vga) : vga :=
  if AUTO_CLEAR_ENABLED v
  then update_cursor (update_cursor (with_cursor 0 0 (with_buffer (replicate 2000 0x0F20) v)))
  else with_cursor 0 24 (with_buffer (drop 80 (VGA_BUFFER v) ++ replicate 80 (cell (CURRENT_COLOR v) 32)) v).

Lemma next_line_spec v :
  vga_ok v ->
  next_line v = Ret (if decide (CURSOR_Y v < 24)%nat then with_cursor 0 (CURSOR_Y v + 1) v
                     else bottom (with_cursor 0 (CURSOR_Y v + 1) v)).
Proof.
  intros [Hb Hx Hy]. unfold next_line. cbn [CURSOR_Y with_cursor]. unfold VGA_HEIGHT.
  destruct (decide (CURSOR_Y v < 24)%nat); [by rewrite decide_False by lia|]. rewrite decide_True by lia.
  unfold auto_clear_if_needed, bottom. cbn [AUTO_CLEAR_ENABLED with_cursor].
  destruct (AUTO_CLEAR_ENABLED v) eqn:Ea; cbn [negb].
  - rewrite decide_True by (vga_fields; unfold VGA_HEIGHT; lia). by rewrite clear_ok by done.
  - unfold is_scrolling_safe. rewrite decide_True by (vga_fields; unfold VGA_HEIGHT; lia).
    unfold verify_vga_buffer, read_cell. vga_fields.
    destruct (lookup_lt_is_Some_2 (VGA_BUFFER v) 0) as [e ->]; [lia|]. cbn [deref]. step_ret.
    rewrite scroll_up_ok by done. done.
Qed.

Lemma bottom_ok v : length (VGA_BUFFER v) = 2000%nat -> vga_ok (bottom v).
Proof.
  intros Hb. unfold bottom. destruct (AUTO_CLEAR_ENABLED v); split; vga_fields; try lia;
    rewrite ?length_app, ?length_drop, ?length_replicate; lia.
Qed.

Lemma next_line_ok v : vga_ok v -> exists v', next_line v = Ret v' /\ vga_ok v' /\ CURSOR_X v' = 0%nat.
Proof.
  intros Hok. rewrite next_line_spec by done. eexists. split; [done|]. destruct Hok as [Hb Hx Hy].
  destruct (decide _); [split; [split; vga_fields; done || lia|done]|].
  split; [by apply bottom_ok|]. unfold bottom. by destruct (AUTO_CLEAR_ENABLED _).
Qed.

(** A character that is put into the buffer. *)
Definition printable (c : Z) : Prop := c <> 10 /\ c <> 13 /\ c <> 8.

Lemma print_char_here c v :
  vga_ok v -> printable c -> (CURSOR_X v < 80)%nat ->
  print_char c v = Ret (update_cursor (with_cursor (CURSOR_X v + 1) (CURSOR_Y v)
    (with_buffer (<[(CURSOR_Y v * 80 + CURSOR_X v)%nat := cell (CURRENT_COLOR v) c]> (VGA_BUFFER v)) v))).
Proof.
  intros [Hb Hx Hy] (H1 & H2 & H3) Hlt. unfold print_char, VGA_WIDTH, VGA_HEIGHT.
  rewrite !(proj2 (Z.eqb_neq _ _)) by done. rewrite decide_False by lia. step_ret.
  rewrite !decide_True by lia. rewrite write_cell_ok by lia. done.
Qed.

Lemma print_char_ok c v :
  vga_synced v -> exists v', print_char c v = Ret v' /\ vga_synced v'.
Proof.
  intros [Hok Hhw]. unfold print_char. destruct (c =? 10) eqn:E1.
  { destruct (next_line_ok v Hok) as (v' & -> & Hok' & _). step_ret. eexists. split; [done|]. by apply synced_update. }
  destruct (c =? 13) eqn:E2.
  { eexists. split; [done|]. apply synced_update. destruct Hok. split; vga_fields; lia || done. }
  destruct (c =? 8) eqn:E3.
  { destruct (decide (0 < CURSOR_X v)%nat); [|by exists v]. destruct Hok as [Hb Hx Hy].
    cbn [CURSOR_Y CURSOR_X with_cursor CURRENT_COLOR]. unfold VGA_WIDTH, VGA_HEIGHT. rewrite decide_True by lia.
    rewrite write_cell_ok by (cbn; lia). step_ret. eexists. split; [done|]. apply synced_update.
    split; vga_fields; rewrite ?length_insert; lia. }
  assert (exists v1, (if decide (VGA_WIDTH <= CURSOR_X v)%nat then next_line v else Ret v) = Ret v1 /\
            vga_ok v1 /\ (CURSOR_X v1 < 80)%nat) as (v1 & -> & Hok1 & Hx1).
  { unfold VGA_WIDTH. destruct (decide _); [|exists v; split_and!; try done; lia].
    destruct (next_line_ok v Hok) as (v' & -> & Hok' & Hx'). exists v'. split_and!; try done. lia. }
  step_ret. destruct Hok1 as [Hb1 _ Hy1]. unfold VGA_WIDTH, VGA_HEIGHT. rewrite !decide_True by lia.
  rewrite write_cell_ok by lia. step_ret. eexists. split; [done|]. apply synced_update.
  split; vga_fields; rewrite ?length_insert; done || lia.
Qed.

Lemma print_chars_ok cs v : vga_synced v -> exists v', print_chars cs v = Ret v' /\ vga_synced v'.
Proof.
  revert v. induction cs as [|c cs IH]; intros v Hv; [by exists v|]. cbn [print_chars].
  destruct (print_char_ok c v Hv) as (v1 & -> & H1). step_ret. by apply IH.
Qed.

(** ** The properties *)

(** The console at boot, with whatever the firmware left in the buffer. *)
Definition boot (b : list Z) : vga := mkVga b 0 0 0x0F true [].

Lemma rust_vga_init_ok b : length b = 2000%nat -> exists v, rust_vga_init (boot b) = Ret v /\ vga_synced v /\ CURSOR_X v = 0%nat.
Proof.
  intros Hb. unfold rust_vga_init, ensure_vga_buffer_mapped, read_cell. cbn [VGA_BUFFER boot].
  destruct (lookup_lt_is_Some_2 b 0) as [e He]; [lia|]. rewrite He. cbn [deref]. step_ret.
  rewrite write_cell_ok by (cbn; lia). step_ret. rewrite clear_ok by (cbn; rewrite length_insert; done). step_ret.
  eexists. split; [done|]. split; [|done]. apply synced_update.
  split; vga_fields; [by rewrite length_replicate|lia|lia].
Qed.

(** Uses of the console in any order. *)
Inductive console : vga -> Prop :=
| con_init b v : length b = 2000%nat -> rust_vga_init (boot b) = Ret v -> console v
| con_print v cs v' : console v -> print_chars cs v = Ret v' -> console v'
| con_clear v v' : console v -> clear v = Ret v' -> console v'
| con_color v c : console v -> console (set_color c v)
| con_auto v b : console v -> console (set_auto_clear b v)
| con_cursor v x y : console v -> console (set_cursor_position x y v).

Lemma console_synced v : console v -> vga_synced v.
Proof.
  induction 1 as [b v Hb H|v cs v' _ IH H|v v' _ [[Hl _ _] _] H|v c _ IH|v b _ IH|v x y _ [Hok _]].
  - destruct (rust_vga_init_ok b Hb) as (v' & E & Hs & _). rewrite E in H. by apply Ret_inj in H as <-.
  - destruct (print_chars_ok cs v IH) as (v2 & E & Hs). rewrite E in H. by injection H as <-.
  - rewrite clear_ok in H by done. apply Ret_inj in H as <-. apply synced_update.
    split; vga_fields; [by rewrite length_replicate|lia|lia].
  - destruct IH as [[] ?]. split; [by split|done].
  - destruct IH as [[] ?]. split; [by split|done].
  - apply synced_update. destruct Hok. split; vga_fields; unfold VGA_WIDTH, VGA_HEIGHT; done || lia.
Qed.

(** The console never writes outside its buffer: after the initialisation,
    printing any sequence of bytes, control characters included, with any
    settings of colour, auto-clear and cursor position in between, returns and keeps
    the 2000 cells.  The cursor is in one of the 25 rows, in one of the 80 columns or
    just behind the last, where it waits after a full row until the next character,
    and the hardware cursor is where the software cursor is: on one of the cells 0 to
    1999, except behind the last column of the last row, where it is at 2000. *)
Theorem console_safe v cs :
  console v ->
  exists v', print_chars cs v = Ret v' /\ length (VGA_BUFFER v') = 2000%nat /\
    (CURSOR_X v' <= 80)%nat /\ (CURSOR_Y v' < 25)%nat /\ hw_cursor v' = cursor_pos v' /\
    (if bool_decide (CURSOR_X v' = 80%nat /\ CURSOR_Y v' = 24%nat) then hw_cursor v' = 2000 else 0 <= hw_cursor v' < 2000).
Proof.
  intros H. destruct (print_chars_ok cs v (console_synced v H)) as (v' & E & [[] Hh]). exists v'. repeat (split; [done|]).
  rewrite Hh. unfold cursor_pos, VGA_WIDTH. case_bool_decide as Hc; lia.
Qed.

Lemma console_safe_witness :
  exists v v', rust_vga_init (boot (replicate 2000 0)) = Ret v /\ print_chars (line "hello, world") v = Ret v' /\
    hw_cursor v' = cursor_pos v'.
Proof.
  destruct (rust_vga_init_ok (replicate 2000 0)) as (v & E & _); [apply length_replicate|].
  destruct (console_safe v (line "hello, world")) as (v' & H1 & _ & _ & _ & H2 & _).
  { apply (con_init (replicate 2000 0) v); [apply length_replicate|exact E]. }
  exists v, v'. split; [exact E|]. split; [exact H1|exact H2].
Defined.

Lemma print_text cs v :
  vga_ok v -> Forall printable cs -> (CURSOR_X v + length cs <= 80)%nat ->
  exists v', print_chars cs v = Ret v' /\ CURSOR_X v' = (CURSOR_X v + length cs)%nat /\ CURSOR_Y v' = CURSOR_Y v /\
    CURRENT_COLOR v' = CURRENT_COLOR v /\
    VGA_BUFFER v' = take (CURSOR_Y v * 80 + CURSOR_X v) (VGA_BUFFER v) ++ (cell (CURRENT_COLOR v) <$> cs) ++
                    drop (CURSOR_Y v * 80 + CURSOR_X v + length cs) (VGA_BUFFER v).
Proof.
  intros Hok Hcs. revert v Hok. induction Hcs as [|c cs Hc _ IH]; intros v Hok Hx; cbn [length print_chars fmap list_fmap].
  { exists v. split; [done|]. rewrite !Nat.add_0_r. cbn. by rewrite take_drop. }
  cbn [length] in Hx. rewrite print_char_here by (done || lia). step_ret. destruct Hok as [Hb _ Hy].
  set (b1 := <[_ := _]> _).
  destruct (IH (update_cursor (with_cursor (CURSOR_X v + 1) (CURSOR_Y v) (with_buffer b1 v))))
    as (v' & -> & H1 & H2 & H3 & H4).
  - split; vga_fields; [unfold b1; by rewrite length_insert|lia|done].
  - vga_fields. lia.
  - exists v'. split; [done|]. vga_fields. revert H1 H2 H3 H4. vga_fields. intros -> -> -> ->.
    split_and!; try done; [lia|]. unfold b1.
    replace (CURSOR_Y v * 80 + (CURSOR_X v + 1))%nat with (S (CURSOR_Y v * 80 + CURSOR_X v)) by lia.
    rewrite (take_S_r _ _ (cell (CURRENT_COLOR v) c)) by (rewrite list_lookup_insert_eq by lia; done).
    rewrite take_insert_ge, drop_insert_lt by lia. rewrite <- app_assoc. cbn. do 3 f_equal. f_equal. lia.
Qed.

(** Printing text that fits on the current line puts exactly its characters,
    in the current colour, into the cells from the cursor on, leaves every other
    cell alone, and moves the cursor behind the text. *)
Theorem print_text_shows v cs :
  console v -> Forall printable cs -> (CURSOR_X v + length cs <= 80)%nat ->
  exists v', print_chars cs v = Ret v' /\ CURSOR_X v' = (CURSOR_X v + length cs)%nat /\ CURSOR_Y v' = CURSOR_Y v /\
    VGA_BUFFER v' = take (CURSOR_Y v * 80 + CURSOR_X v) (VGA_BUFFER v) ++ (cell (CURRENT_COLOR v) <$> cs) ++
                    drop (CURSOR_Y v * 80 + CURSOR_X v + length cs) (VGA_BUFFER v).
Proof.
  intros H Hcs Hx. destruct (print_text cs v (proj1 (console_synced v H)) Hcs Hx) as (v' & H1 & H2 & H3 & _ & H4).
  by exists v'.
Qed.

Lemma print_text_shows_witness :
  exists v v', rust_vga_init (boot (replicate 2000 0)) = Ret v /\ print_chars (bytes "ok") v = Ret v' /\
    CURSOR_Y v' = CURSOR_Y v.
Proof.
  destruct (rust_vga_init_ok (replicate 2000 0)) as (v & E & _ & Hx); [apply length_replicate|].
  destruct (print_text_shows v (bytes "ok")) as (v' & H1 & _ & H2 & _).
  - apply (con_init (replicate 2000 0) v); [apply length_replicate|exact E].
  - by repeat constructor.
  - rewrite Hx. cbn. lia.
  - exists v, v'. split; [exact E|]. split; [exact H1|exact H2].
Defined.

(** A newline on the last line: with auto-clear disabled the screen scrolls,
    every line moves up by one and the last one becomes blank, with the cursor at
    its start; with auto-clear enabled, the default, the whole screen is erased
    and the cursor returns to the top. *)
Theorem newline_at_bottom v :
  console v -> CURSOR_Y v = 24%nat ->
  exists v', print_char 10 v = Ret v' /\ CURSOR_X v' = 0%nat /\
    if AUTO_CLEAR_ENABLED v then VGA_BUFFER v' = replicate 2000 0x0F20 /\ CURSOR_Y v' = 0%nat
    else VGA_BUFFER v' = drop 80 (VGA_BUFFER v) ++ replicate 80 (cell (CURRENT_COLOR v) 32) /\ CURSOR_Y v' = 24%nat.
Proof.
  intros H Hy. destruct (console_synced v H) as [Hok _]. unfold print_char. cbn [Z.eqb Pos.eqb].
  rewrite next_line_spec by done. rewrite decide_False by lia. step_ret. eexists. split; [reflexivity|].
  unfold bottom. vga_fields. destruct (AUTO_CLEAR_ENABLED v); vga_fields; done.
Qed.

Lemma newline_at_bottom_witness :
  exists v v', console v /\ CURSOR_Y v = 24%nat /\ print_char 10 v = Ret v' /\ CURSOR_X v' = 0%nat.
Proof.
  destruct (rust_vga_init_ok (replicate 2000 0)) as (v & E & _); [apply length_replicate|].
  assert (console (set_cursor_position 0 24 (set_auto_clear false v))) as Hc.
  { apply con_cursor, con_auto, (con_init (replicate 2000 0) v); [apply length_replicate|exact E]. }
  destruct (newline_at_bottom _ Hc) as (v' & H1 & H2 & _); [reflexivity|].
  exists (set_cursor_position 0 24 (set_auto_clear false v)), v'.
  split; [exact Hc|]. split; [reflexivity|]. split; [exact H1|exact H2].
Defined.
