(* ===== verification/Keyboard.v ===== *)
(** * Keyboard: the input queue of [keyboard.rs]

    Scancodes arrive from the interrupt handler, are translated with the US
    QWERTY table and queued; [get_char] takes them out.  The static [Option]
    that holds the queue and the initialisation flag are both kept.  The
    messages about dropped characters on the serial port are left out. *)

From S2P Require Import Prelude.

Local Open Scope Z_scope.

(** ** The code *)
Definition SCANCODE_TO_ASCII : list Z :=
  [0; 27] ++ bytes "1234567890-=" ++ [8]
  ++ [9] ++ bytes "qwertyuiop[]" ++ [10]
  ++ [0] ++ bytes "asdfghjkl;'`"
  ++ [0] ++ bytes "\zxcvbnm,./"
  ++ [0] ++ bytes "*"
  ++ [0] ++ bytes " "
  ++ [0]
  ++ replicate 10 0
  ++ [0; 0; 0; 0; 0] ++ bytes "-"
  ++ [0; 0; 0] ++ bytes "+"
  ++ [0; 0; 0; 0; 0]
  ++ replicate 44 0.

Record keyboard := mkKeyboard {
  KEYBOARD_BUFFER : option (list Z);
  KEYBOARD_INITIALIZED : bool
}.

(** The statics before [rust_keyboard_init]. *)
Definition keyboard_boot : keyboard := mkKeyboard None false.

Definition rust_keyboard_init (_ : keyboard) : keyboard := mkKeyboard (Some []) true.

Definition scancode_to_ascii (scancode : Z) : outcome (option Z) :=
  if scancode <? Z.of_nat (length SCANCODE_TO_ASCII) then
    ascii ← arr_get SCANCODE_TO_ASCII (Z.to_nat scancode);
    Ret (if negb (ascii =? 0) then Some ascii else None)
  else Ret None.

(** The body shared by the interrupt handler and [rust_keyboard_put_scancode]. *)
Definition rust_keyboard_put_scancode (k : keyboard) (scancode : Z) : outcome keyboard :=
  if (scancode .& 0x80)%W =? 0 then
    ascii ← scancode_to_ascii scancode;
    match ascii, KEYBOARD_BUFFER k with
    | Some ascii, Some buffer =>
        if decide (length buffer < 256)%nat
        then Ret (mkKeyboard (Some (buffer ++ [ascii])) (KEYBOARD_INITIALIZED k))
        else Ret k
    | _, _ => Ret k
    end
  else Ret k.

(** [inb] returns what the controller holds at [KEYBOARD_DATA_PORT]. *)
Definition handle_keyboard_interrupt (inb : Z -> Z) (k : keyboard) : outcome keyboard :=
  rust_keyboard_put_scancode k (inb 0x60).

Definition get_char (k : keyboard) : Z * keyboard :=
  if negb (KEYBOARD_INITIALIZED k) then (-1, k)
  else match KEYBOARD_BUFFER k with
       | Some (ch :: buffer) => (ch, mkKeyboard (Some buffer) (KEYBOARD_INITIALIZED k))
       | _ => (-1, k)
       end.

Definition clear_buffer (k : keyboard) : keyboard :=
  if negb (KEYBOARD_INITIALIZED k) then k
  else match KEYBOARD_BUFFER k with
       | Some _ => mkKeyboard (Some []) (KEYBOARD_INITIALIZED k)
       | None => k
       end.

Definition buffer_has_data (k : keyboard) : bool :=
  if negb (KEYBOARD_INITIALIZED k) then false
  else match KEYBOARD_BUFFER k with Some (_ :: _) => true | _ => false end.

Definition rust_keyboard_get_char := get_char.
Definition rust_keyboard_clear_buffer := clear_buffer.
Definition rust_keyboard_handle_interrupt := handle_keyboard_interrupt.

(** ** Runs *)
Fixpoint put_all (k : keyboard) (scs : list Z) : outcome keyboard :=
  match scs with [] => Ret k | s :: scs' => k' ← rust_keyboard_put_scancode k s; put_all k' scs' end.

Fixpoint get_n (n : nat) (k : keyboard) : list Z * keyboard :=
  match n with
  | O => ([], k)
  | S n' => let '(c, k1) := get_char k in let '(cs, k2) := get_n n' k1 in (c :: cs, k2)
  end.

(** The character a key press stands for; releases and other keys have none. *)
Definition key_char (scancode : Z) : option Z :=
  if scancode <? 128
  then match SCANCODE_TO_ASCII !! Z.to_nat scancode with
       | Some 0 | None => None
       | Some c => Some c
       end
  else None.

Lemma scancode_table_length : length SCANCODE_TO_ASCII = 128%nat.
Proof. reflexivity. Qed.

(** Bit 7 of a byte. *)
Lemma release_bit s : 0 <= s < 256 -> ((s .& 0x80)%W =? 0) = (s <? 128).
Proof.
  intros H. apply eqb_prop.
  apply (byte_cases (fun s => Bool.eqb ((s .& 0x80)%W =? 0) (s <? 128))); [reflexivity|done].
Qed.

Lemma scancode_to_ascii_ok s : 0 <= s < 128 -> scancode_to_ascii s = Ret (key_char s).
Proof.
  intros H. unfold scancode_to_ascii, key_char. rewrite scancode_table_length.
  change (Z.of_nat 128) with 128. rewrite (proj2 (Z.ltb_lt _ _)) by lia.
  destruct (lookup_lt_is_Some_2 SCANCODE_TO_ASCII (Z.to_nat s)) as [c Hc].
  { rewrite scancode_table_length. lia. }
  unfold arr_get. rewrite Hc. cbn. by destruct c.
Qed.

(** One scancode: a key with a character is appended while there is room. *)
Lemma put_scancode_ok q s :
  0 <= s < 256 ->
  rust_keyboard_put_scancode (mkKeyboard (Some q) true) s =
  Ret (mkKeyboard (Some match key_char s with
                        | Some c => if decide (length q < 256)%nat then q ++ [c] else q
                        | None => q
                        end) true).
Proof.
  intros H. unfold rust_keyboard_put_scancode. rewrite release_bit by done.
  destruct (Z.ltb_spec s 128) as [Hlt|Hge].
  - rewrite scancode_to_ascii_ok by lia. step_ret. destruct (key_char s); [|done].
    cbn [KEYBOARD_BUFFER KEYBOARD_INITIALIZED]. by destruct (decide _).
  - unfold key_char. by rewrite (proj2 (Z.ltb_ge _ _)) by lia.
Qed.

Lemma put_all_ok scs q :
  Forall is_u8 scs -> (length q <= 256)%nat ->
  put_all (mkKeyboard (Some q) true) scs =
  Ret (mkKeyboard (Some (take 256 (q ++ omap key_char scs))) true).
Proof.
  intros H. revert q. induction H as [|s scs Hs _ IH]; intros q Hq; cbn [put_all].
  { cbn. rewrite app_nil_r, take_ge by lia. done. }
  rewrite put_scancode_ok by apply Hs. step_ret. cbn [omap list_omap].
  destruct (key_char s) as [c|]; [|by apply IH]. destruct (decide _) as [Hlt|Hge].
  - rewrite IH by (rewrite length_app; cbn; lia). by rewrite <- app_assoc.
  - rewrite IH by done. rewrite !take_app, !(take_ge q) by lia.
    replace (256 - length q)%nat with 0%nat by lia. done.
Qed.

Lemma get_n_ok n q :
  get_n n (mkKeyboard (Some q) true) =
  (take n q ++ replicate (n - length q) (-1), mkKeyboard (Some (drop n q)) true).
Proof.
  revert q. induction n as [|n IH]; intros q; [done|]. destruct q as [|c q]; cbn.
  - rewrite IH. cbn. rewrite take_nil, drop_nil, Nat.sub_0_r. done.
  - rewrite IH. done.
Qed.

(** ** The properties *)

(** C34. The queue delivers what was typed: after any sequence of scancodes the
    calls of [get_char] return the characters of the key presses in the order of
    the presses, the first 256 of them when nobody reads in between, and then -1;
    key releases and keys without a character leave no trace. *)
Theorem keyboard_fifo k scs n :
  Forall is_u8 scs ->
  exists k', put_all (rust_keyboard_init k) scs = Ret k' /\
    (get_n n k').1 =
      take n (take 256 (omap key_char scs)) ++ replicate (n - length (take 256 (omap key_char scs))) (-1).
Proof.
  intros H. eexists. split; [apply put_all_ok; [done|cbn; lia]|]. by rewrite get_n_ok.
Qed.

Lemma keyboard_fifo_witness :
  exists k', put_all (rust_keyboard_init keyboard_boot) [0x23; 0xA3; 0x2A; 0x17] = Ret k' /\
    (get_n 3 k').1 = bytes "hi" ++ [-1].
Proof.
  destruct (keyboard_fifo keyboard_boot [0x23; 0xA3; 0x2A; 0x17] 3) as (k' & H1 & H2).
  { by repeat constructor. }
  exists k'. split; [exact H1|]. rewrite H2. reflexivity.
Defined.

(** Runs: interrupts, injected scancodes, reads and clears in any order. *)
Inductive kb_reach : keyboard -> Prop :=
| kb_boot : kb_reach keyboard_boot
| kb_init k : kb_reach k -> kb_reach (rust_keyboard_init k)
| kb_put k s k' : kb_reach k -> is_u8 s -> rust_keyboard_put_scancode k s = Ret k' -> kb_reach k'
| kb_irq k inb k' : kb_reach k -> is_u8 (inb 0x60) -> handle_keyboard_interrupt inb k = Ret k' -> kb_reach k'
| kb_get k : kb_reach k -> kb_reach (get_char k).2
| kb_clear k : kb_reach k -> kb_reach (clear_buffer k).

Definition queue_ok (k : keyboard) : Prop :=
  match KEYBOARD_BUFFER k with
  | Some q => KEYBOARD_INITIALIZED k = true /\ (length q <= 256)%nat /\ Forall (fun c => 0 < c < 256) q
  | None => KEYBOARD_INITIALIZED k = false
  end.

Lemma key_char_byte s c : key_char s = Some c -> 0 < c < 256.
Proof.
  unfold key_char. destruct (s <? 128); [|done].
  destruct (SCANCODE_TO_ASCII !! Z.to_nat s) as [x|] eqn:E; [|done]. intros Hc.
  assert (forallb (fun x => (0 <=? x) && (x <? 256)) SCANCODE_TO_ASCII = true) as F by reflexivity.
  rewrite forallb_forall in F. apply list_elem_of_lookup_2, list_elem_of_In, F in E.
  destruct x; [done| |done]. injection Hc as <-. lia.
Qed.

Lemma put_queue_ok k s k' : queue_ok k -> is_u8 s -> rust_keyboard_put_scancode k s = Ret k' -> queue_ok k'.
Proof.
  intros Hk Hs H. destruct k as [[q|] i]; cbn in Hk.
  - destruct Hk as (-> & Hl & Hq). rewrite put_scancode_ok in H by apply Hs. inv_ret. cbn.
    destruct (key_char s) as [c|] eqn:E; [|done]. destruct (decide _) as [Hlt|]; [|done].
    split; [done|]. rewrite length_app. cbn. split; [lia|]. apply Forall_app. split; [done|].
    constructor; [by eapply key_char_byte|done].
  - subst i. unfold rust_keyboard_put_scancode in H. destruct (_ =? 0); [|by inv_ret].
    inv_bind H. destruct r; cbn in H; by inv_ret.
Qed.

(** Whatever the interrupt handler, the readers and the clearing of the
    buffer do in whatever order, the queue never grows beyond 256 characters,
    every queued character is a non-zero byte (so that [get_char] can tell it
    from "nothing there"), and before the initialisation nothing is delivered. *)
Theorem keyboard_bounded k :
  kb_reach k ->
  match KEYBOARD_BUFFER k with
  | Some q => KEYBOARD_INITIALIZED k = true /\ (length q <= 256)%nat /\ Forall (fun c => 0 < c < 256) q
  | None => KEYBOARD_INITIALIZED k = false /\ (get_char k).1 = -1 /\ buffer_has_data k = false
  end.
Proof.
  intros H. assert (queue_ok k) as Hk.
  { induction H as [|k|k s k' _ IH Hs Hp|k inb k' _ IH Hs Hp|k _ IH|k _ IH]; try done.
    - split_and!; [done|cbn; lia|constructor].
    - by eapply put_queue_ok.
    - by eapply put_queue_ok.
    - destruct k as [[[|c q]|] []]; cbn in *; try done. destruct IH as (_ & Hl & Hq).
      apply Forall_cons in Hq as [_ Hq]. split_and!; [done|lia|done].
    - destruct k as [[q|] []]; cbn in *; try done. split_and!; [done|lia|constructor]. }
  destruct k as [[q|] i]; cbn in *; [done|]. by subst i.
Qed.

Lemma keyboard_bounded_witness :
  exists k, kb_reach k /\ KEYBOARD_BUFFER k = Some (bytes "h") /\ (length (bytes "h") <= 256)%nat.
Proof.
  exists (mkKeyboard (Some (bytes "h")) true).
  assert (kb_reach (mkKeyboard (Some (bytes "h")) true)) as H.
  { apply (kb_put (rust_keyboard_init keyboard_boot) 0x23); [apply kb_init, kb_boot|by vm_compute|reflexivity]. }
  split; [exact H|]. split; [reflexivity|]. apply (keyboard_bounded _ H).
Defined.
