(* ===== verification/Tasks.v ===== *)
(** * Tasks: the task table and the scheduler

    [lib.rs.template] (copied to [lib.rs] by the build) holds the table [TASKS],
    the circular list through the [next] fields and the calls that create and
    end tasks; [scheduler.rs] holds [rust_scheduler_tick].  A task pointer is an
    index into [TASKS]; the stacks are represented by their addresses only, which
    is all this code uses of them.  [task_switch] is assembly: it stores the stack
    pointer of the processor, an argument here, in the old task. *)

From S2P Require Import Prelude.

Local Open Scope Z_scope.

(** ** The code *)
Record Task := mkTask {
  rsp : Z;
  rip : Z;
  state : Z;
  id : Z;
  user_mode : Z;
  priority : Z;
  cr3 : Z;
  next : option nat
}.

Definition TASK_READY : Z := 1.
Definition TASK_TERMINATED : Z := 3.

Record sched := mkSched {
  TASKS : list Task;
  current : option nat;
  NUM_TASKS : Z
}.

Definition RUST_MAX_TASKS : nat := 16.

(** The statics at boot. *)
Definition boot : sched :=
  mkSched (replicate RUST_MAX_TASKS (mkTask 0 0 TASK_TERMINATED (-1) 0 0 0 None)) None 0.

Definition set_rsp (r : Z) (t : Task) : Task :=
  mkTask r (rip t) (state t) (id t) (user_mode t) (priority t) (cr3 t) (next t).
Definition set_state (x : Z) (t : Task) : Task :=
  mkTask (rsp t) (rip t) x (id t) (user_mode t) (priority t) (cr3 t) (next t).
Definition set_next (n : option nat) (t : Task) : Task :=
  mkTask (rsp t) (rip t) (state t) (id t) (user_mode t) (priority t) (cr3 t) n.

(** A field read through a task pointer, and an assignment through one. *)
Definition task_at (s : sched) (p : nat) : outcome Task := deref (TASKS s !! p).

Definition with_task (p : nat) (f : Task -> Task) (s : sched) : outcome sched :=
  t ← task_at s p; Ret (mkSched (<[p := f t]> (TASKS s)) (current s) (NUM_TASKS s)).

Definition with_current (c : option nat) (s : sched) : sched := mkSched (TASKS s) c (NUM_TASKS s).

Definition rust_task_init (s : sched) : sched :=
  mkSched ((fun t => mkTask (rsp t) (rip t) TASK_TERMINATED (-1) (user_mode t) (priority t) (cr3 t) None)
             <$> TASKS s) None 0.

(** [for i in 0..RUST_MAX_TASKS { if TASKS[i].state == 3 ... }]. *)
Fixpoint free_slot (ts : list Task) (i : nat) (n : nat) : outcome (option nat) :=
  match n with
  | O => Ret None
  | S n' =>
      t ← arr_get ts i;
      if state t =? TASK_TERMINATED then Ret (Some i) else free_slot ts (S i) n'
  end.

(** [size_of::<Task>()] and the address of the last byte of [TASKS[i].stack],
    with the array at [tasks_base]. *)
Definition TASK_SIZE : Z := 16432.
Definition stack_top (tasks_base : Z) (i : nat) : Z :=
  u64 (tasks_base + Z.of_nat i * TASK_SIZE + 16 + 16383).

Definition rust_task_create (tasks_base : Z) (s : sched) (entry : Z) : outcome (Z * sched) :=
  slot ← free_slot (TASKS s) 0 RUST_MAX_TASKS;
  match slot with
  | None => Ret (-1, s)
  | Some i =>
      s1 ← with_task i (fun t => mkTask (stack_top tasks_base i) entry TASK_READY (Z.of_nat i)
                                   (user_mode t) (priority t) (cr3 t) (next t)) s;
      s2 ← match current s1 with
           | None => s' ← with_task i (set_next (Some i)) s1; Ret (with_current (Some i) s')
           | Some c =>
               t ← task_at s1 c;
               let nxt := next t in
               s' ← with_task c (set_next (Some i)) s1;
               with_task i (set_next nxt) s'
           end;
      Ret (Z.of_nat i, mkSched (TASKS s2) (current s2) (i32 (NUM_TASKS s2 + 1)))
  end.

Definition rust_task_create_user : Z := -1.

(** The [loop] of [rust_scheduler_tick]: one round through the ring. *)
Fixpoint tick_loop (fuel : nat) (ts : list Task) (cur t : nat) (best : option nat) (best_priority : Z)
  : outcome (option nat) :=
  match fuel with
  | O => Timeout
  | S f =>
      task ← deref (ts !! t);
      let better := (state task =? TASK_READY) && (priority task <? best_priority) in
      let best' := if better then Some t else best in
      let best_priority' := if better then priority task else best_priority in
      t' ← deref (next task);
      if (t' =? cur)%nat then Ret best' else tick_loop f ts cur t' best' best_priority'
  end.

(** [task_switch] stores [cpu_rsp] in the task that was running; the second
    component is the stack pointer loaded, if there was a switch. *)
Definition rust_scheduler_tick (cpu_rsp : Z) (s : sched) : outcome (option Z * sched) :=
  match current s with
  | None => Ret (None, s)
  | Some c =>
      best ← tick_loop (S (length (TASKS s))) (TASKS s) c c None (2 ^ 31 - 1);
      match best with
      | Some b =>
          if (b =? c)%nat then Ret (None, s)
          else
            t ← task_at s b;
            s' ← with_task c (set_rsp cpu_rsp) (with_current (Some b) s);
            Ret (Some (rsp t), s')
      | None => Ret (None, s)
      end
  end.

Definition rust_task_yield := rust_scheduler_tick.
Definition rust_task_schedule := rust_scheduler_tick.

Definition rust_task_exit (cpu_rsp : Z) (s : sched) : outcome (option Z * sched) :=
  match current s with
  | None => Ret (None, s)
  | Some c => s' ← with_task c (set_state TASK_TERMINATED) s; rust_scheduler_tick cpu_rsp s'
  end.

(** ** The ring *)

(** Each task of [l] points to the following one, the last one to [e]. *)
Fixpoint linked (ts : list Task) (l : list nat) (e : nat) : Prop :=
  match l with
  | [] => True
  | a :: l' => (exists t, ts !! a = Some t /\ next t = Some (hd e l')) /\ linked ts l' e
  end.

(** The tasks in the ring, starting with the current one. *)
Record ring_ok (s : sched) (ring : list nat) : Prop := {
  ring_len : length (TASKS s) = RUST_MAX_TASKS;
  ring_prio : Forall (fun t => is_u8 (priority t)) (TASKS s);
  ring_cur : current s = head ring;
  ring_nodup : NoDup ring;
  ring_linked : linked (TASKS s) ring (hd O ring);
  ring_in : forall i t, i ∉ ring -> TASKS s !! i = Some t -> state t = TASK_TERMINATED
}.

(** ** The specification of a tick: the first task of the ring, starting with the
    current one, among the ready tasks of the smallest priority value. *)
Definition ready (ts : list Task) (i : nat) : Prop :=
  match ts !! i with Some t => state t = TASK_READY | None => False end.

#[export] Instance ready_dec ts i : Decision (ready ts i).
Proof. unfold ready. destruct (ts !! i); apply _. Defined.

Definition prio (ts : list Task) (i : nat) : Z :=
  match ts !! i with Some t => priority t | None => 0 end.

Definition picks (ts : list Task) (ring : list nat) (b : nat) : Prop :=
  exists l1 l2, ring = l1 ++ b :: l2 /\ ready ts b /\
    (forall x, x ∈ l1 -> ready ts x -> prio ts b < prio ts x) /\
    (forall x, x ∈ l2 -> ready ts x -> prio ts b <= prio ts x).

(** ** One round *)
Lemma linked_app ts l r e : linked ts (l ++ r) e <-> linked ts l (hd e r) /\ linked ts r e.
Proof.
  induction l as [|a l IH]; cbn; [tauto|]. rewrite IH.
  replace (hd e (l ++ r)) with (hd (hd e r) l) by by destruct l. tauto.
Qed.

Lemma linked_insert ts l e i t :
  i ∉ l -> linked (<[i := t]> ts) l e <-> linked ts l e.
Proof.
  induction l as [|a l IH]; cbn; [done|]. intros [Hne Hni]%not_elem_of_cons.
  rewrite IH by done. by rewrite list_lookup_insert_ne by done.
Qed.

(** Which task the loop holds after the tasks of [l]. *)
Fixpoint best_of (ts : list Task) (l : list nat) (best : option nat) (bp : Z) : option nat :=
  match l with
  | [] => best
  | a :: l' =>
      match ts !! a with
      | Some t => if (state t =? TASK_READY) && (priority t <? bp)
                  then best_of ts l' (Some a) (priority t) else best_of ts l' best bp
      | None => best_of ts l' best bp
      end
  end.

Lemma tick_loop_ok fuel ts cur t l best bp :
  linked ts (t :: l) cur -> cur ∉ l -> (length l < fuel)%nat ->
  tick_loop fuel ts cur t best bp = Ret (best_of ts (t :: l) best bp).
Proof.
  revert t l best bp. induction fuel as [|f IH]; intros t l best bp Hl Hc Hf; [lia|].
  destruct Hl as [(tk & Ht & Hn) Hl]. cbn [tick_loop]. rewrite Ht. cbn [deref]. step_ret. rewrite Hn. cbn [deref]. step_ret.
  cbn [best_of]. rewrite Ht. destruct l as [|u l].
  - cbn [hd]. rewrite Nat.eqb_refl. by destruct (_ && _).
  - apply not_elem_of_cons in Hc as [Hne Hc]. cbn [hd]. rewrite (proj2 (Nat.eqb_neq _ _)) by done.
    cbn [length] in Hf. rewrite (IH u l) by (done || lia). by destruct (_ && _).
Qed.

Lemma best_of_spec ts l best bp :
  (forall i t, ts !! i = Some t -> is_u8 (priority t)) ->
  (best_of ts l best bp = best /\ forall x, x ∈ l -> ready ts x -> bp <= prio ts x) \/
  (exists l1 b l2, l = l1 ++ b :: l2 /\ best_of ts l best bp = Some b /\ ready ts b /\ prio ts b < bp /\
    (forall x, x ∈ l1 -> ready ts x -> prio ts b < prio ts x) /\
    (forall x, x ∈ l2 -> ready ts x -> prio ts b <= prio ts x)).
Proof.
  intros Hp. revert best bp. induction l as [|a l IH]; intros best bp.
  { left. split; [done|]. by intros x []%not_elem_of_nil. }
  destruct (decide (ready ts a /\ prio ts a < bp)) as [[Hra Hlt]|Hno].
  - pose proof Hra as Hr. unfold ready in Hr. destruct (ts !! a) as [t|] eqn:Ht; [|done].
    assert (prio ts a = priority t) as Ep by (unfold prio; by rewrite Ht). rewrite Ep in Hlt.
    cbn. rewrite Ht, Hr. cbn. rewrite (proj2 (Z.ltb_lt _ _)) by done. right.
    destruct (IH (Some a) (priority t)) as [[E H]|(l1 & b & l2 & -> & E & Hb & Hbp & H1 & H2)].
    + exists [], a, l. rewrite Ep. split_and!; try done. by intros x []%not_elem_of_nil.
    + exists (a :: l1), b, l2. split_and!; try done; [lia|].
      intros x [->|Hx]%elem_of_cons; [lia|by apply H1].
  - assert (best_of ts (a :: l) best bp = best_of ts l best bp) as ->.
    { cbn. destruct (ts !! a) as [t|] eqn:Ht; [|done].
      destruct (Z.eqb_spec (state t) TASK_READY), (Z.ltb_spec (priority t) bp); cbn; try done.
      exfalso. apply Hno. unfold ready, prio. by rewrite Ht. }
    assert (ready ts a -> bp <= prio ts a) as Ha by (intros; destruct (decide (prio ts a < bp)); [tauto|lia]).
    destruct (IH best bp) as [[E H]|(l1 & b & l2 & -> & E & Hb & Hbp & H1 & H2)].
    + left. split; [done|]. intros x [->|Hx]%elem_of_cons; [done|by apply H].
    + right. exists (a :: l1), b, l2. split_and!; try done. intros x [->|Hx]%elem_of_cons Hxr; [|by apply H1].
      specialize (Ha Hxr). lia.
Qed.

Lemma linked_set ts l e i t t' :
  ts !! i = Some t -> next t' = next t -> linked ts l e -> linked (<[i := t']> ts) l e.
Proof.
  intros Hi En. induction l as [|a l IH]; cbn; [done|]. intros [(u & Hu & Hn) Hl]. split; [|by apply IH].
  destruct (decide (i = a)) as [<-|Hne].
  - exists t'. rewrite list_lookup_insert_eq by by eapply lookup_lt_Some. split; [done|]. congruence.
  - exists u. by rewrite list_lookup_insert_ne.
Qed.

Lemma linked_lookup ts l e i : linked ts l e -> i ∈ l -> exists t, ts !! i = Some t.
Proof.
  induction l as [|a l IH]; [by intros _ []%not_elem_of_nil|]. intros [(t & Ht & _) Hl] [->|Hi]%elem_of_cons;
    [by exists t|by apply IH].
Qed.

Lemma ring_bound s ring : ring_ok s ring -> (length ring <= RUST_MAX_TASKS)%nat.
Proof.
  intros [Hlen _ _ Hnd Hlk _]. rewrite <- Hlen, <- (length_seq (length (TASKS s)) 0).
  apply submseteq_length, NoDup_submseteq; [done|]. intros i Hi. apply elem_of_seq.
  destruct (linked_lookup _ _ _ _ Hlk Hi) as [t Ht]. apply lookup_lt_Some in Ht. lia.
Qed.

Lemma ring_prio_lookup s ring i t : ring_ok s ring -> TASKS s !! i = Some t -> is_u8 (priority t).
Proof. intros Hr Ht. eapply (Forall_lookup_1 _ _ _ _ (ring_prio _ _ Hr)), Ht. Qed.

(** Changing fields other than [next], [priority] and [state] of one task. *)
Lemma ring_ok_set s ring i t t' c :
  ring_ok s ring -> TASKS s !! i = Some t -> next t' = next t -> priority t' = priority t ->
  state t' = state t -> forall ring', ring' ≡ₚ ring -> head ring' = c -> linked (TASKS s) ring' (hd O ring') ->
  ring_ok (mkSched (<[i := t']> (TASKS s)) c (NUM_TASKS s)) ring'.
Proof.
  intros Hr Ht En Ep Es ring' HP Hc Hl. split; cbn.
  - rewrite length_insert. apply Hr.
  - apply Forall_insert; [apply Hr|]. rewrite Ep. by eapply ring_prio_lookup.
  - done.
  - rewrite HP. apply Hr.
  - by eapply linked_set.
  - intros j u. rewrite HP. intros Hj Hu. destruct (decide (i = j)) as [<-|Hne].
    + rewrite list_lookup_insert_eq in Hu by by eapply lookup_lt_Some. injection Hu as <-.
      rewrite Es. by eapply (ring_in _ _ Hr).
    + rewrite list_lookup_insert_ne in Hu by done. by eapply (ring_in _ _ Hr).
Qed.

Lemma rotate ts l1 b l2 c :
  linked ts (c :: l1 ++ b :: l2) c -> linked ts (b :: l2 ++ c :: l1) b.
Proof.
  rewrite (app_comm_cons l1), linked_app. intros [H1 H2].
  rewrite (app_comm_cons l2). apply linked_app. split; [exact H2|exact H1].
Qed.

Lemma ring_rotation (b c : nat) l1 l2 : b :: l2 ++ c :: l1 ≡ₚ c :: l1 ++ b :: l2.
Proof. rewrite (app_comm_cons l2), (app_comm_cons l1). apply Permutation_app_comm. Qed.

Lemma switch_ok s c l1 b l2 cpu_rsp tc :
  ring_ok s (c :: l1 ++ b :: l2) -> TASKS s !! c = Some tc ->
  ring_ok (mkSched (<[c := set_rsp cpu_rsp tc]> (TASKS s)) (Some b) (NUM_TASKS s)) (b :: l2 ++ c :: l1).
Proof.
  intros Hr Htc. eapply (ring_ok_set s); [exact Hr|exact Htc|done..|apply ring_rotation|done|].
  apply rotate, Hr.
Qed.

Lemma tick_spec cpu_rsp s ring :
  ring_ok s ring ->
  exists sw s' ring', rust_scheduler_tick cpu_rsp s = Ret (sw, s') /\ ring_ok s' ring' /\ ring' ≡ₚ ring /\
    NUM_TASKS s' = NUM_TASKS s /\
    (forall i, state <$> TASKS s' !! i = state <$> TASKS s !! i) /\
    ((s' = s /\ sw = None /\ forall x, x ∈ ring -> ~ ready (TASKS s) x) \/
     (exists b t, picks (TASKS s) ring b /\ TASKS s !! b = Some t /\ current s' = Some b /\
        sw = (if decide (current s = Some b) then None else Some (rsp t)) /\
        (current s = Some b -> s' = s))).
Proof.
  intros Hr. unfold rust_scheduler_tick. rewrite (ring_cur _ _ Hr).
  destruct ring as [|c l]; cbn [head].
  { exists None, s, []. split_and!; try done. left. split_and!; try done. by intros x []%not_elem_of_nil. }
  pose proof (ring_linked _ _ Hr) as Hlk. cbn [hd] in Hlk. pose proof (ring_nodup _ _ Hr) as Hnd.
  apply NoDup_cons in Hnd as Hnd'. destruct Hnd' as [Hc _].
  rewrite (tick_loop_ok _ _ _ _ l) by (done || (pose proof (ring_bound _ _ Hr) as B; cbn in B; rewrite (ring_len _ _ Hr); lia)).
  step_ret. destruct (best_of_spec (TASKS s) (c :: l) None (2 ^ 31 - 1)) as [[-> Hno]|(l1 & b & l2 & E & -> & Hb & _ & H1 & H2)].
  { intros i t. by apply ring_prio_lookup with (ring := c :: l). }
  { exists None, s, (c :: l). split_and!; try done. left. split_and!; try done. intros x Hx Hrd.
    specialize (Hno x Hx Hrd). unfold ready in Hrd. unfold prio in Hno.
    destruct (TASKS s !! x) as [t|] eqn:Ex; [|done]. eapply ring_prio_lookup in Ex; [|done]. unfold is_u8 in Ex. lia. }
  assert (picks (TASKS s) (c :: l) b) as Hpick by (exists l1, l2; by rewrite E).
  assert (b ∈ c :: l) as Hbin by (rewrite E; apply elem_of_app; right; left).
  destruct (linked_lookup _ _ _ _ Hlk Hbin) as [t Ht]. destruct (Nat.eqb_spec b c) as [->|Hne].
  { exists None, s, (c :: l). split_and!; try done. right. exists c, t. split_and!; try done.
    - apply Hr.
    - by rewrite decide_True. }
  destruct (linked_lookup _ _ _ c Hlk ltac:(left)) as [tc Htc].
  unfold task_at. rewrite Ht. cbn [deref]. step_ret. unfold with_task, task_at. cbn [TASKS with_current]. rewrite Htc. step_ret. cbn [deref]. step_ret.
  destruct l1 as [|c' l1]; [by injection E|]. injection E as <- ->.
  eexists _, _, (b :: l2 ++ c :: l1). split; [reflexivity|]. split; [exact (switch_ok s c l1 b l2 cpu_rsp tc Hr Htc)|].
  split; [apply ring_rotation|]. split; [done|]. split.
  - intros i. cbn. destruct (decide (c = i)) as [<-|Hi]; [|by rewrite list_lookup_insert_ne].
    rewrite list_lookup_insert_eq by (by eapply lookup_lt_Some). by rewrite Htc.
  - right. exists b, t. split_and!; try done; [by rewrite decide_False by congruence|congruence].
Qed.

(** ** Creating and ending tasks *)
Lemma free_slot_ok ts i n :
  (i + n <= length ts)%nat ->
  (exists j t, free_slot ts i n = Ret (Some j) /\ ts !! j = Some t /\ state t = TASK_TERMINATED) \/
  (free_slot ts i n = Ret None /\
   forall j t, (i <= j < i + n)%nat -> ts !! j = Some t -> state t <> TASK_TERMINATED).
Proof.
  revert i. induction n as [|n IH]; intros i Hn; cbn.
  { right. split; [done|]. intros; lia. }
  destruct (lookup_lt_is_Some_2 ts i ltac:(lia)) as [t Ht]. unfold arr_get. rewrite Ht. cbn [checked]. step_ret.
  destruct (Z.eqb_spec (state t) TASK_TERMINATED); [left; by exists i, t|].
  destruct (IH (S i) ltac:(lia)) as [H|[H1 H2]]; [by left|right]. split; [done|].
  intros j u Hj Hu. destruct (decide (j = i)) as [->|]; [congruence|]. apply (H2 j); [lia|done].
Qed.

(** No task of the ring has ended. *)
Definition alive (s : sched) (ring : list nat) : Prop :=
  forall i t, i ∈ ring -> TASKS s !! i = Some t -> state t <> TASK_TERMINATED.

(** The task table after a new task is linked in behind the current one. *)
Lemma create_ring_ok s c l i tc ti tc' ti' :
  ring_ok s (c :: l) -> i ∉ c :: l -> TASKS s !! c = Some tc -> TASKS s !! i = Some ti ->
  tc' = set_next (Some i) tc -> next ti' = next tc -> priority ti' = priority ti ->
  ring_ok (mkSched (<[i := ti']> (<[c := tc']> (<[i := set_next (next ti) ti']> (TASKS s)))) (Some c)
             (i32 (NUM_TASKS s + 1))) (c :: i :: l).
Proof.
  intros Hr Hi Htc Hti -> En Ep. pose proof (ring_linked _ _ Hr) as Hlk. cbn [hd] in Hlk.
  pose proof (ring_nodup _ _ Hr) as [Hcl Hnd]%NoDup_cons. apply not_elem_of_cons in Hi as [Hic Hil].
  assert (c < length (TASKS s) /\ i < length (TASKS s))%nat as [Hclt Hilt] by (split; by eapply lookup_lt_Some).
  destruct Hlk as [(tc2 & Htc2 & Hn2) Hlk]. assert (tc2 = tc) as -> by congruence.
  split; cbn -[linked].
  - rewrite !length_insert. apply Hr.
  - pose proof (ring_prio_lookup _ _ _ _ Hr Htc). pose proof (ring_prio_lookup _ _ _ _ Hr Hti) as Hpi.
    rewrite <- Ep in Hpi. repeat apply Forall_insert; try done. apply Hr.
  - done.
  - repeat (apply NoDup_cons; split); [|done|done]. by intros [->|?]%elem_of_cons.
  - cbn [linked hd]. split_and!.
    + exists (set_next (Some i) tc). rewrite list_lookup_insert_ne, list_lookup_insert_eq; try done.
      by rewrite length_insert.
    + exists ti'. rewrite list_lookup_insert_eq by by rewrite !length_insert. split; [done|]. by rewrite En.
    + by rewrite !linked_insert.
  - intros j t Hj Ht. apply not_elem_of_cons in Hj as [Hjc Hj]. apply not_elem_of_cons in Hj as [Hji Hjl].
    rewrite !list_lookup_insert_ne in Ht by done. eapply (ring_in _ _ Hr); [|exact Ht].
    by apply not_elem_of_cons.
Qed.

(** The fields the new task gets. *)
Definition new_task (tasks_base entry : Z) (i : nat) (n : option nat) (t : Task) : Task :=
  mkTask (stack_top tasks_base i) entry TASK_READY (Z.of_nat i) (user_mode t) (priority t) (cr3 t) n.

Section create.
  Context (tasks_base entry : Z) (s : sched) (i : nat) (t : Task).
  Context (Hslot : free_slot (TASKS s) 0 RUST_MAX_TASKS = Ret (Some i)) (Ht : TASKS s !! i = Some t).

Lemma create_first :
  current s = None ->
  rust_task_create tasks_base s entry =
  Ret (Z.of_nat i, mkSched (<[i := new_task tasks_base entry i (Some i) t]> (TASKS s)) (Some i)
                     (i32 (NUM_TASKS s + 1))).
Proof.
  intros Hc. assert (i < length (TASKS s))%nat as Hilt by by eapply lookup_lt_Some.
  unfold rust_task_create. rewrite Hslot. step_ret. unfold with_task, task_at. rewrite Ht. cbn [deref]. step_ret.
  cbn [TASKS current NUM_TASKS]. rewrite Hc. rewrite list_lookup_insert_eq by done. cbn [deref]. step_ret.
  cbn [TASKS current NUM_TASKS with_current]. by rewrite list_insert_insert_eq.
Qed.

Lemma create_behind c tc :
  current s = Some c -> TASKS s !! c = Some tc -> i <> c ->
  rust_task_create tasks_base s entry =
  Ret (Z.of_nat i, mkSched (<[i := new_task tasks_base entry i (next tc) t]>
                     (<[c := set_next (Some i) tc]> (<[i := new_task tasks_base entry i (next t) t]> (TASKS s))))
                     (Some c) (i32 (NUM_TASKS s + 1))).
Proof.
  intros Hc Htc Hic. assert (i < length (TASKS s))%nat as Hilt by by eapply lookup_lt_Some.
  unfold rust_task_create. rewrite Hslot. step_ret. unfold with_task, task_at. rewrite Ht. cbn [deref]. step_ret.
  cbn [TASKS current NUM_TASKS]. rewrite Hc, list_lookup_insert_ne, Htc by done. cbn [deref]. step_ret.
  cbn [TASKS current NUM_TASKS]. rewrite list_lookup_insert_ne by done.
  rewrite list_lookup_insert_eq by done. cbn [deref]. by step_ret.
Qed.
End create.

(** A ready task put in one slot. *)
Lemma alive_set s ring i t' c n :
  alive s ring -> state t' = TASK_READY -> (i < length (TASKS s))%nat ->
  alive (mkSched (<[i := t']> (TASKS s)) c n) (i :: ring).
Proof.
  intros Ha Hst Hlt j u Hj Hu. cbn in Hu. destruct (decide (i = j)) as [<-|Hji].
  - rewrite list_lookup_insert_eq in Hu by done. injection Hu as <-. by rewrite Hst.
  - rewrite list_lookup_insert_ne in Hu by done. apply elem_of_cons in Hj as [->|Hj]; [done|]. by apply (Ha j).
Qed.

Lemma alive_same s s' ring :
  (forall i, state <$> TASKS s' !! i = state <$> TASKS s !! i) -> alive s ring -> alive s' ring.
Proof.
  intros He Ha i t Hi Ht. specialize (He i). rewrite Ht in He. destruct (TASKS s !! i) as [u|] eqn:Eu; [|done].
  injection He as ->. by apply (Ha i).
Qed.

Lemma no_slot_full s ring :
  ring_ok s ring -> (forall j t, (0 <= j < 0 + RUST_MAX_TASKS)%nat -> TASKS s !! j = Some t -> state t <> TASK_TERMINATED) ->
  length ring = RUST_MAX_TASKS.
Proof.
  intros Hr Hall. apply Nat.le_antisymm; [by eapply ring_bound|].
  rewrite <- (length_seq RUST_MAX_TASKS 0). apply submseteq_length, NoDup_submseteq; [apply NoDup_seq|].
  pose proof (ring_len _ _ Hr). intros j [_ Hj]%elem_of_seq.
  destruct (lookup_lt_is_Some_2 (TASKS s) j ltac:(lia)) as [u Hu].
  destruct (decide (j ∈ ring)) as [|Hn]; [done|]. exfalso. apply (Hall j u ltac:(lia) Hu).
  by eapply (ring_in _ _ Hr).
Qed.

Lemma first_ring_ok s i t t' n :
  ring_ok s [] -> TASKS s !! i = Some t -> next t' = Some i -> priority t' = priority t ->
  ring_ok (mkSched (<[i := t']> (TASKS s)) (Some i) n) [i].
Proof.
  intros Hr Ht Hn Hp. assert (i < length (TASKS s))%nat as Hilt by by eapply lookup_lt_Some.
  split; cbn -[linked].
  - rewrite length_insert. apply Hr.
  - apply Forall_insert; [apply Hr|]. rewrite Hp. by apply (ring_prio_lookup _ _ _ _ Hr Ht).
  - done.
  - apply NoDup_singleton.
  - split; [|done]. exists t'. by rewrite list_lookup_insert_eq.
  - intros j u Hj%not_elem_of_cons Hu. rewrite list_lookup_insert_ne in Hu by (symmetry; tauto).
    apply (ring_in _ _ Hr j u); [apply not_elem_of_nil|done].
Qed.

Lemma create_spec tasks_base s ring entry :
  ring_ok s ring -> alive s ring -> 0 <= NUM_TASKS s < 2 ^ 31 - 1 ->
  (exists i s' ring', rust_task_create tasks_base s entry = Ret (Z.of_nat i, s') /\ (i ∉ ring) /\
     ring_ok s' ring' /\ alive s' ring' /\ ring' ≡ₚ (i :: ring) /\ NUM_TASKS s' = NUM_TASKS s + 1 /\
     current s' = Some (default i (current s)) /\
     (exists t n, TASKS s !! i = Some t /\ TASKS s' !! i = Some (new_task tasks_base entry i n t))) \/
  (rust_task_create tasks_base s entry = Ret (-1, s) /\ length ring = RUST_MAX_TASKS).
Proof.
  intros Hr Ha Hnum. pose proof (ring_len _ _ Hr) as Hlen.
  destruct (free_slot_ok (TASKS s) 0 RUST_MAX_TASKS) as [(i & t & Hs & Ht & Hst)|[Hs Hall]]; [lia| |].
  2:{ right. unfold rust_task_create. rewrite Hs. split; [done|]. by apply (no_slot_full s). }
  left. exists i. assert (i ∉ ring) as Hi by (intros Hin; by apply (Ha i t Hin Ht)).
  assert (i < length (TASKS s))%nat as Hilt by by eapply lookup_lt_Some.
  assert (i32 (NUM_TASKS s + 1) = NUM_TASKS s + 1) as En by (apply swrap_small; lia).
  pose proof (ring_cur _ _ Hr) as Hcur. destruct ring as [|c l]; cbn [head] in Hcur.
  - rewrite (create_first _ _ s i t Hs Ht Hcur). eexists _, [i]. split; [reflexivity|]. rewrite Hcur.
    split; [done|]. split; [by apply (first_ring_ok s i t)|]. split; [by apply (alive_set s [])|].
    split_and!; try done. exists t. eexists. split; [done|]. cbn. by rewrite list_lookup_insert_eq.
  - destruct (linked_lookup _ _ _ c (ring_linked _ _ Hr) ltac:(left)) as [tc Htc].
    apply not_elem_of_cons in Hi as Hi'. destruct Hi' as [Hic Hil].
    rewrite (create_behind _ _ s i t Hs Ht c tc Hcur Htc Hic). eexists _, (c :: i :: l). split; [reflexivity|].
    rewrite Hcur. split; [done|]. split; [by eapply (create_ring_ok s c l i tc t)|]. split.
    + apply (alive_same (mkSched (<[i := new_task tasks_base entry i (next tc) t]> (TASKS s)) (Some c) 0)).
      * intros j. cbn. destruct (decide (i = j)) as [<-|]; [by rewrite !list_lookup_insert_eq by (by rewrite ?length_insert)|].
        rewrite !(list_lookup_insert_ne _ i) by done. destruct (decide (c = j)) as [<-|]; [|by rewrite !list_lookup_insert_ne].
        rewrite list_lookup_insert_eq by (rewrite length_insert; by eapply lookup_lt_Some). by rewrite Htc.
      * intros j u Hj. apply (alive_set s (c :: l)); [done|done|done|].
        rewrite !elem_of_cons in Hj |- *. tauto.
    + split_and!; try done; [apply Permutation_swap|]. exists t. eexists. split; [done|]. cbn.
      by rewrite list_lookup_insert_eq by by rewrite !length_insert.
Qed.

Lemma init_ring_ok s :
  length (TASKS s) = RUST_MAX_TASKS -> Forall (fun t => is_u8 (priority t)) (TASKS s) ->
  ring_ok (rust_task_init s) [].
Proof.
  intros Hl Hp. split; cbn; try done.
  - by rewrite length_fmap.
  - apply Forall_fmap. eapply Forall_impl; [exact Hp|]. done.
  - constructor.
  - intros i t _ Ht. rewrite list_lookup_fmap in Ht. destruct (TASKS s !! i); [|done]. by injection Ht as <-.
Qed.

Lemma exit_ring_ok s c l t :
  ring_ok s (c :: l) -> TASKS s !! c = Some t ->
  ring_ok (mkSched (<[c := set_state TASK_TERMINATED t]> (TASKS s)) (current s) (NUM_TASKS s)) (c :: l).
Proof.
  intros Hr Ht. split; cbn -[linked]; [| |apply Hr|apply Hr| |].
  - rewrite length_insert. apply Hr.
  - apply Forall_insert; [apply Hr|]. by apply (ring_prio_lookup _ _ _ _ Hr Ht).
  - eapply linked_set; [exact Ht|done|apply Hr].
  - intros j u Hj Hu. rewrite list_lookup_insert_ne in Hu by (intros ->; apply Hj; left).
    by apply (ring_in _ _ Hr j u).
Qed.

Lemma exit_spec cpu_rsp s ring :
  ring_ok s ring ->
  exists sw s' ring', rust_task_exit cpu_rsp s = Ret (sw, s') /\ ring_ok s' ring' /\ ring' ≡ₚ ring /\
    NUM_TASKS s' = NUM_TASKS s.
Proof.
  intros Hr. unfold rust_task_exit. rewrite (ring_cur _ _ Hr). destruct ring as [|c l]; cbn [head].
  { by exists None, s, []. }
  destruct (linked_lookup _ _ _ c (ring_linked _ _ Hr) ltac:(left)) as [t Ht].
  unfold with_task, task_at. rewrite Ht. cbn [deref]. step_ret.
  destruct (tick_spec cpu_rsp _ _ (exit_ring_ok _ _ _ _ Hr Ht)) as (sw & s' & ring' & H1 & H2 & H3 & H4 & _).
  by exists sw, s', ring'.
Qed.

(** Runs of the task calls.  The flag tells whether no task has ended since the
    last initialisation; tasks are created only then. *)
Inductive sched_reach : bool -> sched -> Prop :=
| reach_boot : sched_reach true boot
| reach_init b s : sched_reach b s -> sched_reach true (rust_task_init s)
| reach_create base entry s r s' :
    sched_reach true s -> rust_task_create base s entry = Ret (r, s') -> sched_reach true s'
| reach_tick b cpu_rsp s sw s' :
    sched_reach b s -> rust_scheduler_tick cpu_rsp s = Ret (sw, s') -> sched_reach b s'
| reach_exit b cpu_rsp s sw s' :
    sched_reach b s -> rust_task_exit cpu_rsp s = Ret (sw, s') -> sched_reach false s'.

Lemma sched_reach_inv b s :
  sched_reach b s ->
  exists ring, ring_ok s ring /\ (b = true -> alive s ring) /\ NUM_TASKS s = Z.of_nat (length ring).
Proof.
  induction 1 as [|b s _ (ring & Hr & _ & _)|base entry s r s' _ (ring & Hr & Ha & Hn) Hc
                 |b cpu s sw s' _ (ring & Hr & Ha & Hn) Ht|b cpu s sw s' _ (ring & Hr & _ & Hn) Ht].
  - exists []. split; [by apply (init_ring_ok boot); [|apply Forall_replicate]|].
    split; [|done]. by intros _ i t []%not_elem_of_nil.
  - exists []. split; [apply init_ring_ok; apply Hr|]. split; [|done]. by intros _ i t []%not_elem_of_nil.
  - pose proof (ring_bound _ _ Hr) as Hb. unfold RUST_MAX_TASKS in Hb.
    destruct (create_spec base s ring entry Hr (Ha eq_refl)) as
      [(i & s2 & ring2 & H1 & _ & H2 & H3 & H4 & H5 & _)|[H1 _]]; [lia| |];
      rewrite H1 in Hc; injection Hc as <- <-; [|by exists ring].
    exists ring2. split_and!; try done. rewrite H4. cbn [length]. lia.
  - destruct (tick_spec cpu s ring Hr) as (sw2 & s2 & ring2 & H1 & H2 & H3 & H4 & H5 & _).
    rewrite H1 in Ht. injection Ht as <- <-. exists ring2. split; [done|]. split; [|rewrite H3; lia].
    intros Hb. apply (alive_same s); [done|]. intros i t Hi. rewrite H3 in Hi. by apply (Ha Hb).
  - destruct (exit_spec cpu s ring Hr) as (sw2 & s2 & ring2 & H1 & H2 & H3 & H4).
    rewrite H1 in Ht. injection Ht as <- <-. exists ring2. split; [done|]. split; [done|]. rewrite H3. lia.
Qed.

(** ** The properties *)

(** C21. In every run in which no task is created after one has ended, the
    [next] fields form one ring through all created tasks, starting at the
    current one, and the tick returns: it leaves the state alone when no task is
    ready, and otherwise the current task is the first, in ring order from the
    old current one, of the ready tasks with the smallest priority value; the
    ring keeps its members. *)
Theorem scheduler_tick_picks b s cpu_rsp :
  sched_reach b s ->
  exists ring sw s' ring', ring_ok s ring /\ NUM_TASKS s = Z.of_nat (length ring) /\
    rust_scheduler_tick cpu_rsp s = Ret (sw, s') /\ ring_ok s' ring' /\ ring' ≡ₚ ring /\
    ((s' = s /\ sw = None /\ forall x, x ∈ ring -> ~ ready (TASKS s) x) \/
     (exists b t, picks (TASKS s) ring b /\ TASKS s !! b = Some t /\ current s' = Some b /\
        sw = (if decide (current s = Some b) then None else Some (rsp t)) /\
        (current s = Some b -> s' = s))).
Proof.
  intros H. destruct (sched_reach_inv _ _ H) as (ring & Hr & _ & Hn).
  destruct (tick_spec cpu_rsp s ring Hr) as (sw & s' & ring' & H1 & H2 & H3 & _ & _ & H4).
  by exists ring, sw, s', ring'.
Qed.

(** The tables of the concrete runs below: two tasks created after boot, and
    the first of them ended. *)
Definition two_tasks : outcome (Z * sched) :=
  '(_, s) ← rust_task_create 0x100000 (rust_task_init boot) 0x1000; rust_task_create 0x100000 s 0x2000.

Definition one_ended : outcome (option Z * sched) :=
  '(_, s) ← two_tasks; rust_task_exit 0x5000 s.

Lemma two_tasks_reach s : two_tasks = Ret (1, s) -> sched_reach true s.
Proof.
  unfold two_tasks. intros H. inv_bind H. destruct r as [r s1].
  eapply reach_create; [|exact H]. eapply reach_create; [|exact Hr]. apply (reach_init true), reach_boot.
Qed.

Lemma scheduler_tick_picks_witness :
  exists s ring sw s' ring', two_tasks = Ret (1, s) /\ ring_ok s ring /\
    rust_scheduler_tick 0 s = Ret (sw, s') /\ ring_ok s' ring' /\ ring' ≡ₚ ring.
Proof.
  eexists. edestruct (scheduler_tick_picks true) as (ring & sw & s' & ring' & H1 & _ & H2 & H3 & H4 & _);
    [eapply two_tasks_reach; vm_compute; reflexivity|].
  exists ring, sw, s', ring'. split; [vm_compute; reflexivity|]. split; [exact H1|]. split; [exact H2|].
  split; [exact H3|exact H4].
Defined.

(** Creating a task, while none has ended, fills a free slot with a ready
    task that starts at [entry] with its own stack, links it into the ring
    without disturbing the others, and returns its index; it fails with -1, and
    changes nothing, only when all 16 slots are in use. *)
Theorem task_create_links tasks_base s entry :
  sched_reach true s ->
  exists ring, ring_ok s ring /\
  ((exists i s' ring', rust_task_create tasks_base s entry = Ret (Z.of_nat i, s') /\ (i ∉ ring) /\
     ring_ok s' ring' /\ ring' ≡ₚ (i :: ring) /\ NUM_TASKS s' = NUM_TASKS s + 1 /\
     current s' = Some (default i (current s)) /\
     (exists t n, TASKS s !! i = Some t /\ TASKS s' !! i = Some (new_task tasks_base entry i n t))) \/
   (rust_task_create tasks_base s entry = Ret (-1, s) /\ length ring = RUST_MAX_TASKS)).
Proof.
  intros H. destruct (sched_reach_inv _ _ H) as (ring & Hr & Ha & Hn). exists ring. split; [done|].
  pose proof (ring_bound _ _ Hr) as Hb. unfold RUST_MAX_TASKS in Hb.
  destruct (create_spec tasks_base s ring entry Hr (Ha eq_refl)) as
      [(i & s2 & ring2 & H1 & H2 & H3 & _ & H4 & H5 & H6 & H7)|H1]; [lia| |by right].
  left. by exists i, s2, ring2.
Qed.

Lemma task_create_links_witness :
  exists s ring, two_tasks = Ret (1, s) /\ ring_ok s ring.
Proof.
  pose proof (fun s => task_create_links 0x100000 s 0x3000) as L. eexists. edestruct L as (ring & H1 & _);
    [eapply two_tasks_reach; vm_compute; reflexivity|].
  exists ring. split; [vm_compute; reflexivity|exact H1].
Defined.

(** Reusing the slot of an ended task breaks the ring.  Two tasks are
    created, the first one ends (the second one becomes current) and a third one
    is created: it gets the slot of the ended task, which is still linked, and
    then points to itself, so that the round of the next tick never comes back to
    the current task, however long it runs. *)
Theorem task_slot_reuse_hangs :
  exists s s', one_ended = Ret (Some (stack_top 0x100000 1), s) /\ current s = Some 1%nat /\
    rust_task_create 0x100000 s 0x3000 = Ret (0, s') /\
    forall fuel, tick_loop fuel (TASKS s') 1 1 None (2 ^ 31 - 1) = Timeout.
Proof.
  eexists _, _. split; [vm_compute; reflexivity|]. split; [reflexivity|]. split; [vm_compute; reflexivity|].
  cbn [TASKS]. match goal with |- forall fuel, tick_loop fuel ?l _ _ _ _ = _ => set (ts := l) end.
  assert (forall fuel best bp, tick_loop fuel ts 1 0 best bp = Timeout) as Hself.
  { induction fuel as [|fuel IH]; intros best bp; [done|]. cbn [tick_loop]. change (ts !! 0%nat) with (head ts).
    cbn. destruct (_ <? _); apply IH. }
  intros [|fuel]; [done|]. cbn. apply Hself.
Qed.

(** A tick never moves on while the current task is ready and no ready task
    has a smaller priority value: in particular tasks of equal priority, as
    [rust_task_create] makes them, do not take turns, and [rust_task_yield] is
    the identity. *)
Theorem yield_keeps_current b s cpu_rsp c :
  sched_reach b s -> current s = Some c -> ready (TASKS s) c ->
  (forall x, ready (TASKS s) x -> prio (TASKS s) c <= prio (TASKS s) x) ->
  rust_task_yield cpu_rsp s = Ret (None, s).
Proof.
  intros H Hc Hrd Hmin. destruct (sched_reach_inv _ _ H) as (ring & Hr & _).
  destruct (tick_spec cpu_rsp s ring Hr) as (sw & s' & ring' & H1 & _ & _ & _ & _ & H2).
  unfold rust_task_yield. rewrite H1. pose proof (ring_cur _ _ Hr) as Hcur. rewrite Hc in Hcur.
  destruct ring as [|c' l]; [done|]. cbn in Hcur. injection Hcur as <-.
  destruct H2 as [(-> & -> & _)|(bst & t & (l1 & l2 & E & Hb & Hl1 & _) & Ht & Hc' & -> & Hsame)]; [done|].
  destruct l1 as [|c' l1].
  - injection E as -> ->. rewrite Hsame by done. by rewrite decide_True.
  - injection E as <- ->. specialize (Hl1 c ltac:(left) Hrd). specialize (Hmin bst Hb). lia.
Qed.

Lemma yield_keeps_current_witness :
  exists s, two_tasks = Ret (1, s) /\ NUM_TASKS s = 2 /\ rust_task_yield 0x7000 s = Ret (None, s).
Proof.
  eexists. split; [vm_compute; reflexivity|]. split; [reflexivity|].
  eapply (yield_keeps_current true _ _ 0%nat).
  - apply two_tasks_reach. vm_compute. reflexivity.
  - reflexivity.
  - reflexivity.
  - intros x Hx. unfold ready in Hx. change (prio _ 0) with 0. unfold prio.
    do 2 (destruct x as [|x]; [cbn; lia|]). cbn in Hx |- *.
    do 14 (destruct x as [|x]; [cbn in *; lia|]). done.
Defined.
