(* ===== verification/Process.v ===== *)
(** * Process: process control blocks and memory access checks

    The process manager of [process.rs]: the control block with its register
    context, memory regions and descriptor table, creation, lookup, termination
    and the access check the system calls rely on.  The statics are the
    [Option<ProcessManager>] threaded through the [rust_process_*] calls.

    The control block's fields are grouped in sub-records the way the source
    groups them by comments.  [ProcessTable] is the interface of the system calls
    to this component. *)

From S2P Require Import Prelude.

Local Open Scope Z_scope.

(** ** Data *)
Inductive ProcessState := Ready | Running | Blocked | Zombie | Terminated.
Inductive PrivilegeLevel := Kernel | User.
Inductive MemoryRegionType := Code | Data | Stack | Heap | Shared.

#[export] Instance ProcessState_eq_dec : EqDecision ProcessState.
Proof. solve_decision. Defined.
#[export] Instance PrivilegeLevel_eq_dec : EqDecision PrivilegeLevel.
Proof. solve_decision. Defined.

Record MemoryRegion := mkRegion {
  start_addr : Z;
  end_addr : Z;
  permissions : Z;
  region_type : MemoryRegionType
}.

(** "CPU context (saved registers)". *)
Record Context := mkContext {
  rax : Z; rbx : Z; rcx : Z; rdx : Z;
  rsi : Z; rdi : Z; rbp : Z; rsp : Z;
  r8 : Z; r9 : Z; r10 : Z; r11 : Z;
  r12 : Z; r13 : Z; r14 : Z; r15 : Z;
  rip : Z; rflags : Z;
  cs : Z; ds : Z; es : Z; fs : Z; gs : Z; ss : Z
}.

(** "Memory management". *)
Record Space := mkSpace {
  page_directory : Z;
  memory_regions : list MemoryRegion;
  heap_start : Z;
  heap_end : Z;
  stack_start : Z;
  stack_end : Z
}.

(** "File descriptors" and "Process timing". *)
Record Files := mkFiles {
  fd_table : list (option Z);
  cwd : list Z
}.

Record Timing := mkTiming {
  creation_time : Z;
  cpu_time : Z;
  priority : Z
}.

Record ProcessControlBlock := mkPCB {
  pid : Z;
  parent_pid : Z;
  state : ProcessState;
  privilege_level : PrivilegeLevel;
  context : Context;
  space : Space;
  files : Files;
  timing : Timing;
  exit_code : Z
}.

Record ProcessManager := mkPM {
  processes : list ProcessControlBlock;
  current_pid : Z;
  next_pid : Z
}.

(** ** Operations *)
Definition new_pcb (p parent : Z) (pl : PrivilegeLevel) : ProcessControlBlock :=
  mkPCB p parent Ready pl
    (mkContext 0 0 0 0 0 0 0 0 0 0 0 0 0 0 0 0 0 0x202
       (match pl with Kernel => 0x08 | User => 0x1B end)
       (match pl with Kernel => 0x10 | User => 0x23 end)
       0 0 0
       (match pl with Kernel => 0x10 | User => 0x23 end))
    (mkSpace 0 [] 0 0 0 0)
    (mkFiles (replicate 256 None) (replicate 256 0))
    (mkTiming 0 0 0) 0.

Definition with_space (s : Space) (b : ProcessControlBlock) : ProcessControlBlock :=
  mkPCB (pid b) (parent_pid b) (state b) (privilege_level b) (context b) s (files b) (timing b) (exit_code b).
Definition with_files (f : Files) (b : ProcessControlBlock) : ProcessControlBlock :=
  mkPCB (pid b) (parent_pid b) (state b) (privilege_level b) (context b) (space b) f (timing b) (exit_code b).
Definition with_exit (st : ProcessState) (code : Z) (b : ProcessControlBlock) : ProcessControlBlock :=
  mkPCB (pid b) (parent_pid b) st (privilege_level b) (context b) (space b) (files b) (timing b) code.

(** [pcb.stack_start = ...; pcb.stack_end = ...; pcb.rsp = ...]. *)
Definition set_stack (lo hi sp : Z) (b : ProcessControlBlock) : ProcessControlBlock :=
  let c := context b in
  let c' := mkContext (rax c) (rbx c) (rcx c) (rdx c) (rsi c) (rdi c) (rbp c) sp
              (r8 c) (r9 c) (r10 c) (r11 c) (r12 c) (r13 c) (r14 c) (r15 c)
              (rip c) (rflags c) (cs c) (ds c) (es c) (fs c) (gs c) (ss c) in
  let s := space b in
  mkPCB (pid b) (parent_pid b) (state b) (privilege_level b) c'
    (mkSpace (page_directory s) (memory_regions s) (heap_start s) (heap_end s) lo hi)
    (files b) (timing b) (exit_code b).

Definition add_memory_region (r : MemoryRegion) (b : ProcessControlBlock) : ProcessControlBlock :=
  let s := space b in
  with_space (mkSpace (page_directory s) (memory_regions s ++ [r]) (heap_start s) (heap_end s)
                (stack_start s) (stack_end s)) b.

(** The first region that contains the address decides. *)
Fixpoint check_regions (rs : list MemoryRegion) (addr access_type : Z) : bool :=
  match rs with
  | [] => false
  | r :: rs' =>
      if (start_addr r <=? addr) && (addr <? end_addr r)
      then negb ((permissions r .& access_type)%W =? 0)
      else check_regions rs' addr access_type
  end.

Definition check_memory_access (b : ProcessControlBlock) (addr access_type : Z) : bool :=
  check_regions (memory_regions (space b)) addr access_type.

Definition new_manager : ProcessManager := mkPM [] 0 1.

(** "Set up initial memory regions based on privilege level". *)
Definition initial_regions (pl : PrivilegeLevel) (b : ProcessControlBlock) : ProcessControlBlock :=
  match pl with
  | Kernel => add_memory_region (mkRegion 0 0xFFFFFFFFFFFFFFFF 7 Code) b
  | User =>
      set_stack 0x7FFFFFF00000 0x800000000000 0x7FFFFFFFF000
        (add_memory_region (mkRegion 0x7FFFFFF00000 0x800000000000 3 Stack)
          (add_memory_region (mkRegion 0x800000 0xC00000 3 Data)
            (add_memory_region (mkRegion 0x400000 0x800000 5 Code) b)))
  end.

(** [cwd[0] = b'/'; cwd[1] = 0] and the three standard descriptors. *)
Definition initial_files (b : ProcessControlBlock) : ProcessControlBlock :=
  with_files (mkFiles (<[2%nat := Some 2]> (<[1%nat := Some 1]> (<[0%nat := Some 0]> (fd_table (files b)))))
                (<[1%nat := 0]> (<[0%nat := 47]> (cwd (files b))))) b.

(** The message both [create_process] and [terminate_process] build in a
    64-byte array (and do not print). *)
Definition pid_message (prefix : string) (p : Z) : outcome (list Z) :=
  msg ← push_all 64 (bytes prefix) [];
  ds ← dec_digits 10 p;
  let msg := push_all_guarded 64 ds msg in
  msg ← push 64 10 msg;
  push 64 0 msg.

Definition create_process (pm : ProcessManager) (parent : Z) (pl : PrivilegeLevel)
  : outcome (Z * ProcessManager) :=
  let p := next_pid pm in
  let pcb := initial_files (initial_regions pl (new_pcb p parent pl)) in
  let pm' := mkPM (processes pm ++ [pcb]) (current_pid pm) (u32 (next_pid pm + 1)) in
  _ ← pid_message "[PROCESS] Created process PID=" p;
  Ret (p, pm').

(** [self.processes.iter_mut().find(|p| p.pid == pid)]. *)
Fixpoint find_pid (ps : list ProcessControlBlock) (p : Z) : option ProcessControlBlock :=
  match ps with
  | [] => None
  | b :: ps' => if pid b =? p then Some b else find_pid ps' p
  end.

Definition get_process (pm : ProcessManager) (p : Z) : option ProcessControlBlock :=
  find_pid (processes pm) p.

Definition get_current_process (pm : ProcessManager) : option ProcessControlBlock :=
  if current_pid pm =? 0 then None else get_process pm (current_pid pm).

Definition set_current_process (pm : ProcessManager) (p : Z) : ProcessManager :=
  mkPM (processes pm) p (next_pid pm).

(** A write through the reference [find] returned: the first match changes. *)
Fixpoint update_pid (ps : list ProcessControlBlock) (p : Z) (f : ProcessControlBlock -> ProcessControlBlock)
  : list ProcessControlBlock :=
  match ps with
  | [] => []
  | b :: ps' => if pid b =? p then f b :: ps' else b :: update_pid ps' p f
  end.

Definition terminate_process (pm : ProcessManager) (p code : Z) : outcome ProcessManager :=
  match get_process pm p with
  | Some _ =>
      _ ← pid_message "[PROCESS] Terminated PID=" p;
      Ret (mkPM (update_pid (processes pm) p (with_exit Terminated code)) (current_pid pm) (next_pid pm))
  | None => Ret pm
  end.

(** One row of [list_processes], built in a 128-byte array (and not printed). *)
Definition process_row (b : ProcessControlBlock) : outcome (list Z) :=
  ds ← dec_digits 10 (pid b);
  msg ← push 128 9 (push_all_guarded 128 ds []);
  ds' ← dec_digits 10 (parent_pid b);
  msg ← push 128 9 (push_all_guarded 128 ds' msg);
  let state_str := match state b with
    | Ready => bytes "Ready     " | Running => bytes "Running   " | Blocked => bytes "Blocked   "
    | Zombie => bytes "Zombie    " | Terminated => bytes "Terminated" end in
  let priv_str := match privilege_level b with Kernel => bytes "Kernel " | User => bytes "User   " end in
  push 128 0 (push_all_guarded 128 priv_str (push_all_guarded 128 state_str msg)).

Fixpoint process_rows (ps : list ProcessControlBlock) : outcome (list (list Z)) :=
  match ps with [] => Ret [] | b :: ps' => r ← process_row b; rs ← process_rows ps'; Ret (r :: rs) end.

(** What goes to the serial port. *)
Definition list_processes (pm : ProcessManager) : outcome (list (list Z)) :=
  _ ← process_rows (processes pm);
  Ret [line "[PROCESS] Process List:";
       bytes "PID" ++ [9] ++ bytes "PPID" ++ [9] ++ bytes "State" ++ [9; 9] ++ line "Privilege"].

(** *** The global manager and the C interface *)
Definition process_manager : Type := option ProcessManager.

Definition rust_process_init : outcome process_manager :=
  '(init_pid, pm) ← create_process new_manager 0 Kernel;
  Ret (Some (set_current_process pm init_pid)).

Definition rust_process_create (g : process_manager) (parent : Z) (is_kernel : bool)
  : outcome (Z * process_manager) :=
  match g with
  | Some pm =>
      '(p, pm') ← create_process pm parent (if is_kernel then Kernel else User);
      Ret (p, Some pm')
  | None => Ret (0, None)
  end.

Definition rust_process_terminate (g : process_manager) (p code : Z) : outcome process_manager :=
  match g with
  | Some pm => pm' ← terminate_process pm p code; Ret (Some pm')
  | None => Ret None
  end.

Definition rust_process_list (g : process_manager) : outcome (list (list Z)) :=
  match g with Some pm => list_processes pm | None => Ret [] end.

Definition rust_process_check_access (g : process_manager) (p addr access_type : Z) : bool :=
  match g with
  | Some pm => match get_process pm p with
               | Some process => check_memory_access process addr access_type
               | None => false
               end
  | None => false
  end.

Definition rust_process_get_current_pid (g : process_manager) : Z :=
  match g with Some pm => current_pid pm | None => 0 end.

(** ** The interface of the system calls

    A process table answers the current pid, creates and terminates processes and
    checks accesses; what it promises is stated on [proc_info], the part of a
    control block its clients can observe. *)
Record proc_info := mkInfo {
  info_parent : Z;
  info_state : ProcessState;
  info_privilege : PrivilegeLevel;
  info_exit : Z
}.

(** What a process of each privilege level may access; 1 reads, 2 writes,
    4 executes, and several bits ask for any of them. *)
Definition access_spec (pl : PrivilegeLevel) (addr access_type : Z) : bool :=
  let asks bits := negb ((bits .& access_type)%W =? 0) in
  match pl with
  | Kernel => bool_decide (0 <= addr < 2 ^ 64 - 1) && asks 7
  | User => bool_decide (0x400000 <= addr < 0x800000) && asks 5 ||
            bool_decide (0x800000 <= addr < 0xC00000 \/ 0x7FFFFFF00000 <= addr < 0x800000000000) && asks 3
  end.

Class ProcessTable (P : Type) := {
  pt_current : P -> Z;
  pt_check : P -> Z -> Z -> Z -> bool;
  pt_create : P -> Z -> bool -> outcome (Z * P);
  pt_terminate : P -> Z -> Z -> outcome P;
  pt_ok : P -> Prop;
  pt_room : P -> Prop;
  pt_view : P -> Z -> option proc_info;
  pt_check_spec g p addr a :
    pt_ok g -> pt_check g p addr a =
      match pt_view g p with Some i => access_spec (info_privilege i) addr a | None => false end;
  pt_create_spec g parent k :
    pt_ok g -> pt_room g ->
    exists n g', pt_create g parent k = Ret (n, g') /\ pt_ok g' /\ 0 < n < 2 ^ 32 /\ pt_view g n = None /\
      pt_current g' = pt_current g /\
      (forall q, pt_view g' q =
         if decide (q = n) then Some (mkInfo parent Ready (if k then Kernel else User) 0) else pt_view g q);
  pt_terminate_spec g p code :
    pt_ok g -> exists g', pt_terminate g p code = Ret g' /\ pt_ok g' /\ pt_current g' = pt_current g /\
      (forall q, pt_view g' q =
         if decide (q = p)
         then (fun i => mkInfo (info_parent i) Terminated (info_privilege i) code) <$> pt_view g q
         else pt_view g q)
}.

(** ** The manager is such a table *)
Definition info (b : ProcessControlBlock) : proc_info :=
  mkInfo (parent_pid b) (state b) (privilege_level b) (exit_code b).

Definition manager_view (g : process_manager) (p : Z) : option proc_info :=
  pm ← g; info <$> get_process pm p.

Definition regions_of (pl : PrivilegeLevel) : list MemoryRegion :=
  memory_regions (space (initial_regions pl (new_pcb 0 0 pl))).

(** Pids are pairwise different, below the next one, and every process has the
    regions of its privilege level. *)
Record manager_ok (pm : ProcessManager) : Prop := {
  ok_pids : NoDup (pid <$> processes pm);
  ok_range : Forall (fun b => 0 < pid b < next_pid pm) (processes pm);
  ok_next : 0 < next_pid pm < 2 ^ 32;
  ok_regions : Forall (fun b => memory_regions (space b) = regions_of (privilege_level b)) (processes pm)
}.

Definition global_ok (g : process_manager) : Prop :=
  match g with Some pm => manager_ok pm | None => False end.

(** Room for one more process without wrapping the pid counter. *)
Definition global_room (g : process_manager) : Prop :=
  match g with Some pm => next_pid pm < 2 ^ 32 - 1 | None => False end.

Lemma check_access_spec pl addr a :
  check_regions (regions_of pl) addr a = access_spec pl addr a.
Proof.
  destruct pl; cbn [regions_of initial_regions add_memory_region with_space set_stack space memory_regions new_pcb app
                    check_regions start_addr end_addr permissions]; unfold access_spec.
  - destruct (Z.leb_spec 0 addr), (Z.ltb_spec addr 0xFFFFFFFFFFFFFFFF);
      cbn [andb]; [rewrite bool_decide_true by lia; done|rewrite bool_decide_false by lia; done..].
  - destruct (Z.leb_spec 0x400000 addr), (Z.ltb_spec addr 0x800000), (Z.leb_spec 0x800000 addr),
      (Z.ltb_spec addr 0xC00000), (Z.leb_spec 0x7FFFFFF00000 addr), (Z.ltb_spec addr 0x800000000000);
      cbn [andb]; try lia;
      repeat ((rewrite bool_decide_true by lia) || (rewrite bool_decide_false by lia)); cbn; by rewrite ?orb_false_r.
Qed.

Lemma find_pid_app ps b p :
  find_pid (ps ++ [b]) p = match find_pid ps p with Some x => Some x | None => if pid b =? p then Some b else None end.
Proof. induction ps as [|c ps IH]; cbn; [done|]. by destruct (pid c =? p). Qed.

Lemma find_pid_none ps p : find_pid ps p = None <-> p ∉ pid <$> ps.
Proof.
  induction ps as [|b ps IH]; cbn; [split; [intros _; apply not_elem_of_nil|done]|].
  rewrite not_elem_of_cons. destruct (Z.eqb_spec (pid b) p); split; [done|intros [? _]; congruence| |].
  - rewrite IH. split; [congruence|done].
  - rewrite IH. by intros [_ ?].
Qed.

Lemma find_pid_elem ps p b : find_pid ps p = Some b -> b ∈ ps /\ pid b = p.
Proof.
  induction ps as [|c ps IH]; cbn; [done|]. destruct (Z.eqb_spec (pid c) p).
  - intros [= ->]. split; [left|done].
  - intros H. apply IH in H as [H ?]. split; [by right|done].
Qed.

Lemma update_pid_pids ps p st code : pid <$> update_pid ps p (with_exit st code) = pid <$> ps.
Proof. induction ps as [|b ps IH]; cbn; [done|]. destruct (pid b =? p); cbn; [done|]. by rewrite IH. Qed.

Lemma update_pid_Forall (Q : ProcessControlBlock -> Prop) ps p st code :
  (forall b, Q b -> Q (with_exit st code b)) -> Forall Q ps -> Forall Q (update_pid ps p (with_exit st code)).
Proof.
  intros HQ. induction 1 as [|b ps Hb Hps IH]; cbn; [done|]. destruct (pid b =? p); constructor; auto.
Qed.

Lemma find_update_pid ps p st code q :
  find_pid (update_pid ps p (with_exit st code)) q =
  if decide (q = p) then with_exit st code <$> find_pid ps q else find_pid ps q.
Proof.
  induction ps as [|b ps IH]; cbn; [by destruct (decide _)|].
  destruct (Z.eqb_spec (pid b) p) as [Hp|Hp]; cbn; destruct (Z.eqb_spec (pid b) q) as [Hq|Hq]; cbn.
  - by rewrite decide_True by congruence.
  - by rewrite decide_False by congruence.
  - by rewrite decide_False by congruence.
  - apply IH.
Qed.

Lemma pid_message_ok prefix p :
  (length (bytes prefix) <= 50)%nat -> 0 <= p < 10 ^ 10 -> exists msg, pid_message prefix p = Ret msg.
Proof.
  intros Hl Hp. unfold pid_message. rewrite push_all_ok by (cbn; lia). step_ret. cbn [app].
  destruct (dec_digits_ok 10 p) as (ds & -> & Hd & _); [lia|done|]. step_ret.
  rewrite push_all_guarded_ok by lia. unfold push. rewrite decide_True by (rewrite length_app; lia). step_ret.
  rewrite decide_True; [by eexists|]. rewrite !length_app. cbn. lia.
Qed.

Lemma create_process_ok pm parent pl :
  manager_ok pm -> next_pid pm < 2 ^ 32 - 1 ->
  exists pm', create_process pm parent pl = Ret (next_pid pm, pm') /\ manager_ok pm' /\
    current_pid pm' = current_pid pm /\ next_pid pm' = next_pid pm + 1 /\
    get_process pm (next_pid pm) = None /\
    (forall q, info <$> get_process pm' q =
       if decide (q = next_pid pm) then Some (mkInfo parent Ready pl 0) else info <$> get_process pm q).
Proof.
  intros [Hnd Hrange Hnext Hreg] Hroom. unfold create_process.
  destruct (pid_message_ok "[PROCESS] Created process PID=" (next_pid pm)) as [msg ->]; [cbn; lia|lia|]. step_ret.
  rewrite wrap_small by lia. set (b := initial_files _).
  assert (pid b = next_pid pm) as Hb by (unfold b; by destruct pl).
  assert (next_pid pm ∉ pid <$> processes pm) as Hfresh.
  { intros (c & E & Hc)%list_elem_of_fmap. rewrite Forall_forall in Hrange. specialize (Hrange c Hc). lia. }
  eexists. split; [done|]. split; [split; cbn|].
  - rewrite fmap_app. apply NoDup_app. split; [done|]. split; [|apply NoDup_singleton].
    intros x Hx ->%list_elem_of_singleton. by rewrite Hb in Hx.
  - apply Forall_app. split; [|constructor; [rewrite Hb; lia|done]].
    eapply Forall_impl; [exact Hrange|]. cbn. lia.
  - lia.
  - apply Forall_app. split; [done|]. constructor; [|done]. unfold b. by destruct pl.
  - split_and!; try done; [by apply find_pid_none|]. intros q. unfold get_process. cbn [processes].
    rewrite find_pid_app, Hb. destruct (Z.eqb_spec (next_pid pm) q) as [<-|Hq].
    + rewrite decide_True, (proj2 (find_pid_none _ _) Hfresh) by done. cbn. unfold info, b. by destruct pl.
    + rewrite decide_False by done. by destruct (find_pid (processes pm) q).
Qed.

Lemma terminate_process_ok pm p code :
  manager_ok pm ->
  exists pm', terminate_process pm p code = Ret pm' /\ manager_ok pm' /\
    current_pid pm' = current_pid pm /\ next_pid pm' = next_pid pm /\
    (forall q, get_process pm' q =
       if decide (q = p) then with_exit Terminated code <$> get_process pm q else get_process pm q).
Proof.
  intros [Hnd Hrange Hnext Hreg]. unfold terminate_process. destruct (get_process pm p) as [b|] eqn:Ep.
  2:{ exists pm. split_and!; try done. intros q. destruct (decide (q = p)) as [->|]; [by rewrite Ep|done]. }
  apply find_pid_elem in Ep as [Hb Hpid]. rewrite Forall_forall in Hrange. specialize (Hrange b Hb) as Hbr.
  destruct (pid_message_ok "[PROCESS] Terminated PID=" p) as [msg ->]; [cbn; lia|lia|]. step_ret.
  eexists. split; [done|]. split; [split; cbn|]; try done.
  - by rewrite update_pid_pids.
  - apply update_pid_Forall; [done|]. by apply Forall_forall.
  - by apply update_pid_Forall.
  - split_and!; try done. intros q. apply find_update_pid.
Qed.

#[export, program] Instance manager_table : ProcessTable process_manager := {|
  pt_current := rust_process_get_current_pid;
  pt_check := rust_process_check_access;
  pt_create := rust_process_create;
  pt_terminate := rust_process_terminate;
  pt_ok := global_ok;
  pt_room := global_room;
  pt_view := manager_view
|}.
Next Obligation.
  intros [pm|] p addr a Hok; [|done]. cbn. destruct (get_process pm p) as [b|] eqn:Eb; cbn; [|done].
  apply find_pid_elem in Eb as [Hb _]. pose proof (ok_regions _ Hok) as Hr. rewrite Forall_forall in Hr.
  unfold check_memory_access. rewrite (Hr b Hb). apply check_access_spec.
Qed.
Next Obligation.
  intros [pm|] parent k Hok Hroom; [|done]. cbn in Hroom.
  destruct (create_process_ok pm parent (if k then Kernel else User) Hok Hroom) as (pm' & H1 & H2 & H3 & H4 & H5 & H6).
  exists (next_pid pm), (Some pm'). unfold rust_process_create. rewrite H1. step_ret. pose proof (ok_next _ Hok).
  split_and!; try done; try lia. unfold manager_view. cbn. by rewrite H5.
Qed.
Next Obligation.
  intros [pm|] p code Hok; [|done].
  destruct (terminate_process_ok pm p code Hok) as (pm' & H1 & H2 & H3 & _ & H4).
  exists (Some pm'). unfold rust_process_terminate. rewrite H1. step_ret. split_and!; try done. intros q. unfold manager_view. cbn [mbind option_bind].
  rewrite H4. destruct (decide (q = p)); [|done]. by destruct (get_process pm q).
Qed.

Lemma rust_process_init_ok :
  exists pm, rust_process_init = Ret (Some pm) /\ manager_ok pm /\ current_pid pm = 1 /\ next_pid pm = 2 /\
    manager_view (Some pm) 1 = Some (mkInfo 0 Ready Kernel 0).
Proof.
  unfold rust_process_init.
  destruct (create_process_ok new_manager 0 Kernel) as (pm & -> & Hok & _ & H1 & _ & H2).
  { split; try done; constructor. }
  { done. }
  step_ret. exists (set_current_process pm 1). split; [done|]. split; [by destruct Hok|].
  split; [done|]. split; [done|]. apply (H2 1).
Qed.

(** ** The properties *)

(** Runs of the process calls after [rust_process_init]; the counter is the
    number of processes created. *)
Inductive pm_reach : Z -> process_manager -> Prop :=
| pm_init g : rust_process_init = Ret g -> pm_reach 1 g
| pm_create n g parent k p g' :
    pm_reach n g -> rust_process_create g parent k = Ret (p, g') -> pm_reach (n + 1) g'
| pm_terminate n g p code g' :
    pm_reach n g -> rust_process_terminate g p code = Ret g' -> pm_reach n g'.

Lemma pm_reach_ok n g :
  pm_reach n g -> n < 2 ^ 32 - 2 -> exists pm, g = Some pm /\ manager_ok pm /\ next_pid pm = n + 1.
Proof.
  induction 1 as [g H|n g parent k p g' _ IH H|n g p code g' _ IH H]; intros Hn.
  - destruct rust_process_init_ok as (pm & E & Hok & _ & Hnext & _). rewrite E in H. injection H as <-.
    by exists pm.
  - destruct IH as (pm & -> & Hok & Hnext); [lia|]. unfold rust_process_create in H.
    destruct (create_process_ok pm parent (if k then Kernel else User) Hok ltac:(lia)) as (pm' & E & Hok' & _ & Hn' & _).
    rewrite E in H. injection H as <- <-. exists pm'. split_and!; [done|done|lia].
  - destruct IH as (pm & -> & Hok & Hnext); [lia|]. unfold rust_process_terminate in H.
    destruct (terminate_process_ok pm p code Hok) as (pm' & E & Hok' & _ & Hn' & _).
    rewrite E in H. injection H as <-. exists pm'. split_and!; [done|done|lia].
Qed.

(** C32. Process identifiers are never shared: after [rust_process_init] and any
    calls that create and terminate processes, with fewer than 2^32 - 2 creations,
    all processes of the table have different non-zero pids, the next creation
    returns a pid no process has, and it leaves every other process as it was. *)
Theorem pids_unique n g parent k :
  pm_reach n g -> n < 2 ^ 32 - 2 ->
  exists pm p g', g = Some pm /\ NoDup (pid <$> processes pm) /\ Forall (fun b => pid b <> 0) (processes pm) /\
    rust_process_create g parent k = Ret (p, g') /\ manager_view g p = None /\
    manager_view g' p = Some (mkInfo parent Ready (if k then Kernel else User) 0) /\
    (forall q, q <> p -> manager_view g' q = manager_view g q).
Proof.
  intros H Hn. destruct (pm_reach_ok n g H Hn) as (pm & -> & Hok & Hnext).
  destruct (pt_create_spec (Some pm) parent k) as (p & g' & H1 & _ & H2 & H3 & _ & H4); [done|cbn; lia|].
  exists pm, p, g'. split; [done|]. split; [apply Hok|]. split.
  - eapply Forall_impl; [apply (ok_range _ Hok)|]. cbn. lia.
  - split_and!; try done.
    + specialize (H4 p). cbn in H4. rewrite H4. by rewrite decide_True.
    + intros q Hq. specialize (H4 q). cbn in H4. rewrite H4. by rewrite decide_False.
Qed.

Lemma pids_unique_witness :
  exists g p g', rust_process_init = Ret g /\ rust_process_create g 1 false = Ret (p, g') /\
    manager_view g' p = Some (mkInfo 1 Ready User 0).
Proof.
  destruct rust_process_init_ok as (pm & E & _).
  destruct (pids_unique 1 (Some pm) 1 false (pm_init _ E)) as (pm2 & p & g' & _ & _ & _ & H1 & _ & H2 & _); [lia|].
  exists (Some pm), p, g'. split; [exact E|]. split; [exact H1|exact H2].
Defined.

(** C22. A user process is confined: in every reachable table the access check
    lets a user process read only the code, data and stack regions, write only
    the data and stack regions and execute only the code region; so no address is
    both writable and executable, and nothing below 4 MiB, between 12 MiB and the
    stack, or in the upper half of the address space can be touched.  An unknown
    pid may access nothing. *)
Theorem user_access_confined n g p i addr :
  pm_reach n g -> n < 2 ^ 32 - 2 -> manager_view g p = Some i -> info_privilege i = User ->
  (rust_process_check_access g p addr 1 = true <->
     0x400000 <= addr < 0xC00000 \/ 0x7FFFFFF00000 <= addr < 0x800000000000) /\
  (rust_process_check_access g p addr 2 = true <->
     0x800000 <= addr < 0xC00000 \/ 0x7FFFFFF00000 <= addr < 0x800000000000) /\
  (rust_process_check_access g p addr 4 = true <-> 0x400000 <= addr < 0x800000) /\
  (forall q a, manager_view g q = None -> rust_process_check_access g q addr a = false).
Proof.
  intros H Hn Hv Hu. destruct (pm_reach_ok n g H Hn) as (pm & -> & Hok & _).
  pose proof (fun a => pt_check_spec (Some pm) p addr a Hok) as Hc. cbn [pt_check manager_table pt_view] in Hc.
  rewrite Hv in Hc. rewrite !Hc, Hu. unfold access_spec. cbn [Z.land Pos.land Z.eqb negb].
  rewrite ?andb_true_r, ?andb_false_r, ?orb_false_r, ?orb_false_l.
  split_and!.
  - rewrite orb_true_iff, !bool_decide_eq_true. lia.
  - apply bool_decide_eq_true.
  - apply bool_decide_eq_true.
  - intros q a Hq. pose proof (pt_check_spec (Some pm) q addr a Hok) as Hc'.
    cbn [pt_check manager_table pt_view] in Hc'. by rewrite Hq in Hc'.
Qed.

Lemma user_access_confined_witness :
  exists g, pm_reach 2 g /\
    (rust_process_check_access g 2 0xB8000 2 = true <->
     0x800000 <= 0xB8000 < 0xC00000 \/ 0x7FFFFFF00000 <= 0xB8000 < 0x800000000000).
Proof.
  destruct rust_process_init_ok as (pm & E & Hok & _ & Hnext & _).
  destruct (create_process_ok pm 1 User Hok) as (pm2 & E2 & _ & _ & _ & _ & Hv); [lia|].
  assert (pm_reach 2 (Some pm2)) as Hr.
  { apply (pm_create 1 (Some pm) 1 false (next_pid pm)); [exact (pm_init _ E)|].
    unfold rust_process_create. rewrite E2. reflexivity. }
  exists (Some pm2). split; [exact Hr|].
  apply (user_access_confined 2 (Some pm2) 2 (mkInfo 1 Ready User 0) 0xB8000 Hr); [lia| |reflexivity].
  specialize (Hv 2). rewrite Hnext in Hv. exact Hv.
Defined.

(** The kernel process is not given all memory: its single region excludes
    the last byte of the address space, for every kind of access. *)
Theorem kernel_last_byte_denied n g p i a :
  pm_reach n g -> n < 2 ^ 32 - 2 -> manager_view g p = Some i -> info_privilege i = Kernel ->
  rust_process_check_access g p (2 ^ 64 - 1) a = false /\
  forall addr, 0 <= addr < 2 ^ 64 - 1 -> rust_process_check_access g p addr 7 = true.
Proof.
  intros H Hn Hv Hk. destruct (pm_reach_ok n g H Hn) as (pm & -> & Hok & _).
  pose proof (fun addr a => pt_check_spec (Some pm) p addr a Hok) as Hc. cbn [pt_check manager_table pt_view] in Hc.
  rewrite Hv in Hc. split.
  - rewrite Hc, Hk. unfold access_spec. by rewrite bool_decide_false by lia.
  - intros addr Ha. rewrite Hc, Hk. unfold access_spec. by rewrite bool_decide_true by lia.
Qed.

Lemma kernel_last_byte_denied_witness :
  exists g, rust_process_init = Ret g /\ rust_process_check_access g 1 (2 ^ 64 - 1) 1 = false.
Proof.
  destruct rust_process_init_ok as (pm & E & _ & _ & _ & Hv). exists (Some pm). split; [exact E|].
  apply (kernel_last_byte_denied 1 (Some pm) 1 (mkInfo 0 Ready Kernel 0) 1 (pm_init _ E)); [lia|exact Hv|reflexivity].
Defined.
