(* ===== verification/Syscalls.v ===== *)
(** * Syscalls: the system call handler of [syscalls.rs]

    The handler and every system call it dispatches to, over a kernel state of
    byte memory, file system, process table and serial output.  File system and
    processes are reached through the interfaces [FileSystem] and [ProcessTable];
    the theorems are proved against them and instantiated with the components of
    [Vfs] and [Process] in the witnesses. *)

From S2P Require Import Prelude Memory BTree Vfs Process.

Local Open Scope Z_scope.

(** ** Numbers and error codes *)
Definition SYS_READ : Z := 0.
Definition SYS_WRITE : Z := 1.
Definition SYS_OPEN : Z := 2.
Definition SYS_CLOSE : Z := 3.
Definition SYS_MMAP : Z := 9.
Definition SYS_MUNMAP : Z := 11.
Definition SYS_BRK : Z := 12.
Definition SYS_ACCESS : Z := 21.
Definition SYS_SCHED_YIELD : Z := 24.
Definition SYS_GETPID : Z := 39.
Definition SYS_FORK : Z := 57.
Definition SYS_EXECVE : Z := 59.
Definition SYS_EXIT : Z := 60.
Definition SYS_WAIT4 : Z := 61.
Definition SYS_KILL : Z := 62.
Definition SYS_UNAME : Z := 63.
Definition SYS_GETCWD : Z := 79.
Definition SYS_CHDIR : Z := 80.
Definition SYS_MKDIR : Z := 83.
Definition SYS_RMDIR : Z := 84.
Definition SYS_CREAT : Z := 85.
Definition SYS_UNLINK : Z := 87.
Definition SYS_GETTIMEOFDAY : Z := 96.

Definition ENOENT : Z := -2.
Definition ENOEXEC : Z := -8.
Definition EBADF : Z := -9.
Definition ECHILD : Z := -10.
Definition ENOMEM : Z := -12.
Definition EACCES : Z := -13.
Definition EFAULT : Z := -14.
Definition EEXIST : Z := -17.
Definition EINVAL : Z := -22.

(** ** State *)
Record kernel (P F : Type) := mkKernel {
  k_mem : mem;
  k_fs : F;
  k_procs : P;
  k_serial : list (list Z)
}.
Arguments mkKernel {P F}.
Arguments k_mem {P F}.
Arguments k_fs {P F}.
Arguments k_procs {P F}.
Arguments k_serial {P F}.

Section syscalls.
  Context {P F : Type} `{!ProcessTable P} `{!FileSystem F}.
  Implicit Types k : kernel P F.

Definition serial_write (s : list Z) : M (kernel P F) unit :=
  modify (fun k => mkKernel (k_mem k) (k_fs k) (k_procs k) (k_serial k ++ [s])).

Definition current_pid : M (kernel P F) Z := fun k => Ret (pt_current (k_procs k), k).

Definition check_access (p addr access_type : Z) : M (kernel P F) bool :=
  fun k => Ret (pt_check (k_procs k) p addr access_type, k).

Definition process_terminate (p code : Z) : M (kernel P F) unit :=
  fun k => g ← pt_terminate (k_procs k) p code; Ret (tt, mkKernel (k_mem k) (k_fs k) g (k_serial k)).

Definition process_create (parent : Z) (is_kernel : bool) : M (kernel P F) Z :=
  fun k => '(n, g) ← pt_create (k_procs k) parent is_kernel;
           Ret (n, mkKernel (k_mem k) (k_fs k) g (k_serial k)).

(** A call of the file system, and one that only prints. *)
Definition vfs_op (op : mem -> F -> Z -> outcome (Z * F)) (p : Z) : M (kernel P F) Z :=
  fun k => '(r, f) ← op (k_mem k) (k_fs k) p; Ret (r, mkKernel (k_mem k) f (k_procs k) (k_serial k)).

Definition vfs_ls (p : Z) : M (kernel P F) Z :=
  fun k => '(r, _) ← fs_ls (k_mem k) (k_fs k) p; Ret (r, k).

(** Writes to user memory. *)
Definition poke_mem (a : Z) (bs : list Z) : M (kernel P F) unit :=
  fun k => m ← store_bytes (k_mem k) a bs; Ret (tt, mkKernel m (k_fs k) (k_procs k) (k_serial k)).

(** [for i in 0..count { let byte = *buf.add(i); if byte == 0 { break; } }]. *)
Fixpoint scan_bytes (m : mem) (a : Z) (n : nat) : outcome unit :=
  match n with
  | O => Ret tt
  | S n' => b ← load8 m a; if b =? 0 then Ret tt else scan_bytes m (a + 1) n'
  end.

(** ** The system calls *)
Definition sys_read (fd buf count : Z) : M (kernel P F) Z :=
  if (buf =? 0) || (count =? 0) then mret EINVAL
  else
    pid ← current_pid;
    ok ← check_access pid buf 2;
    if negb ok then mret EFAULT
    else mret (if fd =? 0 then 0 else EBADF).

Definition sys_write (fd buf count : Z) : M (kernel P F) Z :=
  if (buf =? 0) || (count =? 0) then mret EINVAL
  else
    pid ← current_pid;
    ok ← check_access pid buf 1;
    if negb ok then mret EFAULT
    else if (fd =? 1) || (fd =? 2) then
      k ← get;
      _ ← lift (scan_bytes (k_mem k) buf (Z.to_nat count));
      _ ← serial_write (line "[SYSCALL] sys_write to stdout/stderr");
      mret (i64 count)
    else mret EBADF.

Definition sys_open (pathname : Z) : M (kernel P F) Z :=
  if pathname =? 0 then mret EINVAL
  else
    pid ← current_pid;
    ok ← check_access pid pathname 1;
    if negb ok then mret EFAULT
    else _ ← serial_write (line "[SYSCALL] sys_open - not fully implemented"); mret 3.

Definition sys_close (fd : Z) : M (kernel P F) Z :=
  if (0 <=? fd) && (fd <=? 2) then mret EBADF
  else _ ← serial_write (line "[SYSCALL] sys_close - not fully implemented"); mret 0.

Definition sys_getpid : M (kernel P F) Z := current_pid.

Definition sys_exit (status : Z) : M (kernel P F) Z :=
  pid ← current_pid;
  _ ← process_terminate pid status;
  _ ← serial_write (line "[SYSCALL] Process exited");
  mret 0.

Definition sys_fork : M (kernel P F) Z :=
  pid ← current_pid;
  new_pid ← process_create pid false;
  mret (if new_pid =? 0 then ENOMEM else new_pid).

Definition sys_execve (filename : Z) : M (kernel P F) Z :=
  if filename =? 0 then mret EINVAL
  else _ ← serial_write (line "[SYSCALL] sys_execve - not fully implemented"); mret ENOEXEC.

Definition sys_wait4 : M (kernel P F) Z :=
  _ ← serial_write (line "[SYSCALL] sys_wait4 - not fully implemented"); mret ECHILD.

Definition sys_kill (pid sig : Z) : M (kernel P F) Z :=
  if pid <=? 0 then mret EINVAL
  else
    _ ← process_terminate (u32 pid) sig;
    _ ← serial_write (line "[SYSCALL] sys_kill - process terminated");
    mret 0.

Definition sys_chdir (path : Z) : M (kernel P F) Z :=
  if path =? 0 then mret EINVAL
  else
    result ← vfs_ls path;
    if result =? 0 then _ ← serial_write (line "[SYSCALL] sys_chdir - success"); mret 0
    else mret ENOENT.

Definition sys_getcwd (buf size : Z) : M (kernel P F) Z :=
  if (buf =? 0) || (size =? 0) then mret EINVAL
  else
    _ ← poke_mem buf [47];
    _ ← poke_mem (buf + 1) [0];
    mret (i64 buf).

Definition sys_mkdir (pathname : Z) : M (kernel P F) Z :=
  if pathname =? 0 then mret EINVAL
  else result ← vfs_op fs_mkdir pathname; mret (if result =? 0 then 0 else EEXIST).

Definition sys_rmdir (pathname : Z) : M (kernel P F) Z :=
  if pathname =? 0 then mret EINVAL
  else result ← vfs_op fs_unlink pathname; mret (if result =? 0 then 0 else ENOENT).

Definition sys_unlink (pathname : Z) : M (kernel P F) Z :=
  if pathname =? 0 then mret EINVAL
  else result ← vfs_op fs_unlink pathname; mret (if result =? 0 then 0 else ENOENT).

Definition sys_creat (pathname : Z) : M (kernel P F) Z :=
  if pathname =? 0 then mret EINVAL
  else
    result ← vfs_op fs_create pathname;
    mret (if (result =? 0) || (result =? -17) then 3 else EACCES).

Definition sys_access (pathname : Z) : M (kernel P F) Z :=
  mret (if pathname =? 0 then EINVAL else 0).

Definition sys_brk (addr : Z) : M (kernel P F) Z :=
  _ ← serial_write (line "[SYSCALL] sys_brk - not fully implemented"); mret (i64 addr).

Definition sys_mmap : M (kernel P F) Z :=
  _ ← serial_write (line "[SYSCALL] sys_mmap - not fully implemented"); mret ENOMEM.

Definition sys_munmap : M (kernel P F) Z :=
  _ ← serial_write (line "[SYSCALL] sys_munmap - not fully implemented"); mret 0.

Definition uname_info : list Z :=
  bytes "ShadeOS" ++ replicate 9 0 ++ bytes "shadeos" ++ replicate 9 0 ++
  bytes "1.0.0" ++ replicate 12 0 ++ bytes "#1 SMP" ++ replicate 10 0 ++ bytes "x86_64" ++ replicate 10 0.

Definition sys_uname (buf : Z) : M (kernel P F) Z :=
  if buf =? 0 then mret EINVAL else _ ← poke_mem buf uname_info; mret 0.

Definition sys_gettimeofday (tv : Z) : M (kernel P F) Z :=
  if tv =? 0 then mret EINVAL
  else
    _ ← poke_mem tv (le_bytes 8 1640995200);
    _ ← poke_mem (tv + 8) (le_bytes 8 0);
    mret 0.

Definition sys_sched_yield : M (kernel P F) Z :=
  _ ← serial_write (line "[SYSCALL] sys_sched_yield - yielding CPU"); mret 0.

(** ** The handler *)

(** The log line, built in a 128-byte array; [digits] has room for 10 digits. *)
Definition syscall_log (pid syscall_num : Z) : outcome (list Z) :=
  msg ← push_all 128 (bytes "[SYSCALL] PID=") [];
  ds ← dec_digits 10 pid;
  msg ← push_all 128 (bytes " syscall=") (push_all_guarded 128 ds msg);
  ds' ← dec_digits 10 syscall_num;
  msg ← push 128 10 (push_all_guarded 128 ds' msg);
  push 128 0 msg.

Definition dispatch (n arg1 arg2 arg3 arg4 arg5 arg6 : Z) : M (kernel P F) Z :=
  if n =? SYS_READ then sys_read (i32 arg1) arg2 arg3
  else if n =? SYS_WRITE then sys_write (i32 arg1) arg2 arg3
  else if n =? SYS_OPEN then sys_open arg1
  else if n =? SYS_CLOSE then sys_close (i32 arg1)
  else if n =? SYS_GETPID then sys_getpid
  else if n =? SYS_EXIT then sys_exit (i32 arg1)
  else if n =? SYS_FORK then sys_fork
  else if n =? SYS_EXECVE then sys_execve arg1
  else if n =? SYS_WAIT4 then sys_wait4
  else if n =? SYS_KILL then sys_kill (i32 arg1) (i32 arg2)
  else if n =? SYS_CHDIR then sys_chdir arg1
  else if n =? SYS_GETCWD then sys_getcwd arg1 arg2
  else if n =? SYS_MKDIR then sys_mkdir arg1
  else if n =? SYS_RMDIR then sys_rmdir arg1
  else if n =? SYS_UNLINK then sys_unlink arg1
  else if n =? SYS_CREAT then sys_creat arg1
  else if n =? SYS_ACCESS then sys_access arg1
  else if n =? SYS_BRK then sys_brk arg1
  else if n =? SYS_MMAP then sys_mmap
  else if n =? SYS_MUNMAP then sys_munmap
  else if n =? SYS_UNAME then sys_uname arg1
  else if n =? SYS_GETTIMEOFDAY then sys_gettimeofday arg1
  else if n =? SYS_SCHED_YIELD then sys_sched_yield
  else _ ← serial_write (line "[SYSCALL] Unimplemented system call"); mret EINVAL.

Definition rust_syscall_handler (n arg1 arg2 arg3 arg4 arg5 arg6 : Z) : M (kernel P F) Z :=
  pid ← current_pid;
  msg ← lift (syscall_log pid n);
  _ ← serial_write (until_nul msg);
  dispatch n arg1 arg2 arg3 arg4 arg5 arg6.

Definition rust_syscall_init : M (kernel P F) unit :=
  serial_write (line "[SYSCALL] Initializing system calls").
End syscalls.

(** ** Lemmas *)

(** Which call a concrete number is dispatched to. *)
Ltac dispatch_call :=
  cbn [dispatch SYS_READ SYS_WRITE SYS_OPEN SYS_CLOSE SYS_GETPID SYS_EXIT SYS_FORK SYS_EXECVE SYS_WAIT4 SYS_KILL
       SYS_CHDIR SYS_GETCWD SYS_MKDIR SYS_RMDIR SYS_UNLINK SYS_CREAT SYS_ACCESS SYS_BRK SYS_MMAP SYS_MUNMAP SYS_UNAME
       SYS_GETTIMEOFDAY SYS_SCHED_YIELD Z.eqb Pos.eqb] in *.

Section facts.
  Context {P F : Type} `{!ProcessTable P} `{!FileSystem F}.
  Implicit Types k : kernel P F.

(** The invariant of the kernel state. *)
Record kernel_ok k : Prop := {
  kernel_procs : pt_ok (k_procs k);
  kernel_fs : fs_ok (k_fs k);
  kernel_pid : 0 <= pt_current (k_procs k) < 2 ^ 32
}.

(** The state with one more line on the serial port. *)
Definition logged (l : list Z) k : kernel P F :=
  mkKernel (k_mem k) (k_fs k) (k_procs k) (k_serial k ++ [l]).

Lemma syscall_log_ok pid n :
  0 <= pid < 10 ^ 10 -> 0 <= n < 10 ^ 10 ->
  exists ds ds', dec_value ds = pid /\ dec_value ds' = n /\ Forall is_digit ds /\ Forall is_digit ds' /\
    syscall_log pid n = Ret (bytes "[SYSCALL] PID=" ++ ds ++ bytes " syscall=" ++ ds' ++ [10; 0]).
Proof.
  intros Hp Hn. unfold syscall_log. rewrite push_all_ok by (cbn; lia). step_ret.
  destruct (dec_digits_ok 10 pid) as (ds & -> & Hl & Hd & Hv); [lia|done|]. step_ret.
  rewrite push_all_guarded_ok by (cbn; lia). rewrite push_all_ok by (rewrite !length_app; cbn; lia). step_ret.
  destruct (dec_digits_ok 10 n) as (ds' & -> & Hl' & Hd' & Hv'); [lia|done|]. step_ret.
  rewrite push_all_guarded_ok by (rewrite !length_app; cbn; lia). unfold push.
  rewrite decide_True by (rewrite !length_app; cbn; lia). step_ret.
  rewrite decide_True by (rewrite !length_app; cbn; lia). exists ds, ds'. split_and!; try done.
  by rewrite <- !app_assoc.
Qed.

(** The handler is its log line followed by the call. *)
Lemma handler_dispatch k n a1 a2 a3 a4 a5 a6 :
  kernel_ok k -> 0 <= n < 10 ^ 10 ->
  exists l, rust_syscall_handler n a1 a2 a3 a4 a5 a6 k = dispatch n a1 a2 a3 a4 a5 a6 (logged l k).
Proof.
  intros Hk Hn. destruct (syscall_log_ok (pt_current (k_procs k)) n) as (ds & ds' & _ & _ & _ & _ & Hl).
  { pose proof (kernel_pid _ Hk). lia. }
  { done. }
  eexists. unfold rust_syscall_handler, current_pid, serial_write. step_m. rewrite Hl. step_m. reflexivity.
Qed.

Lemma kernel_ok_logged k l : kernel_ok k -> kernel_ok (logged l k).
Proof. by intros []. Qed.

(** The flat call a file system call number stands for, and its result code. *)
Definition file_call (n : Z) (p : path) : flat_call :=
  if n =? SYS_MKDIR then FCreate Directory p
  else if n =? SYS_CREAT then FCreate Regular p else FDelete p.

Definition file_code (n code : Z) : Z :=
  if n =? SYS_MKDIR then if code =? 0 then 0 else EEXIST
  else if n =? SYS_CREAT then if (code =? 0) || (code =? -17) then 3 else EACCES
  else if code =? 0 then 0 else ENOENT.

Lemma vfs_op_ok op c fc p k :
  denotes (k_mem k) c fc -> fs_ok (k_fs k) ->
  match c with
  | VCreate q => op = fs_create /\ p = q
  | VMkdir q => op = fs_mkdir /\ p = q
  | VUnlink q => op = fs_unlink /\ p = q
  | VWrite _ _ _ => False
  end ->
  exists f', vfs_op op p k = Ret ((flat_run fc (fs_view (k_fs k))).1, mkKernel (k_mem k) f' (k_procs k) (k_serial k)) /\
    fs_ok f' /\ flat_equiv (fs_view f') (flat_run fc (fs_view (k_fs k))).2.
Proof.
  intros Hd Hok Hc. destruct (fs_call_spec (k_mem k) c fc (k_fs k) Hd Hok) as (f' & H & Hok' & Hv).
  exists f'. unfold vfs_op. destruct c; try done; destruct Hc as [-> ->]; rewrite H; done.
Qed.

Lemma file_dispatch k n p s a2 a3 a4 a5 a6 :
  kernel_ok k -> cstr_at (k_mem k) p s -> p <> 0 ->
  n = SYS_MKDIR \/ n = SYS_RMDIR \/ n = SYS_UNLINK \/ n = SYS_CREAT ->
  exists k', dispatch n p a2 a3 a4 a5 a6 k =
      Ret (file_code n (flat_run (file_call n (components s)) (fs_view (k_fs k))).1, k') /\
    k_mem k' = k_mem k /\ k_procs k' = k_procs k /\ fs_ok (k_fs k') /\
    flat_equiv (fs_view (k_fs k')) (flat_run (file_call n (components s)) (fs_view (k_fs k))).2.
Proof.
  intros [Hp Hf _] Hs Hne Hn. apply Z.eqb_neq in Hne as Hz.
  destruct Hn as [-> | [-> | [-> | -> ] ] ]; dispatch_call;
    unfold sys_mkdir, sys_rmdir, sys_unlink, sys_creat; rewrite Hz; step_m.
  - destruct (vfs_op_ok fs_mkdir (VMkdir p) _ p k (den_mkdir _ p s Hne Hs) Hf) as (f' & -> & H1 & H2); [done|].
    step_m. eexists. split; [done|]. by split_and!.
  - destruct (vfs_op_ok fs_unlink (VUnlink p) _ p k (den_unlink _ p s Hne Hs) Hf) as (f' & -> & H1 & H2); [done|].
    step_m. eexists. split; [done|]. by split_and!.
  - destruct (vfs_op_ok fs_unlink (VUnlink p) _ p k (den_unlink _ p s Hne Hs) Hf) as (f' & -> & H1 & H2); [done|].
    step_m. eexists. split; [done|]. by split_and!.
  - destruct (vfs_op_ok fs_create (VCreate p) _ p k (den_create _ p s Hne Hs) Hf) as (f' & -> & H1 & H2); [done|].
    step_m. eexists. split; [done|]. by split_and!.
Qed.
End facts.

(** ** The properties *)

(** A kernel for concrete runs: the initial process and one user process, which
    is current; the file system of [demo_root]. *)
Definition demo_procs : process_manager :=
  match rust_process_init with
  | Ret g => match rust_process_create g 1 false with
             | Ret (_, Some pm) => Some (set_current_process pm 2)
             | _ => None
             end
  | _ => None
  end.

Definition demo_kernel : kernel process_manager root_fs :=
  mkKernel demo_mem (Some (demo_root [])) demo_procs [].

Lemma demo_procs_ok : global_ok demo_procs /\ rust_process_get_current_pid demo_procs = 2.
Proof.
  unfold demo_procs. destruct rust_process_init_ok as (pm & -> & Hok & _ & Hn & _).
  destruct (create_process_ok pm 1 User Hok) as (pm' & E & Hok' & _); [lia|].
  unfold rust_process_create. rewrite E. step_ret. split; [by destruct Hok'|done].
Qed.

Lemma demo_kernel_ok : kernel_ok demo_kernel.
Proof.
  destruct demo_procs_ok as [H1 H2]. split; [exact H1|apply demo_root_ok|].
  cbn [k_procs demo_kernel pt_current manager_table]. rewrite H2. lia.
Qed.

(** C12. The file system calls implement the flat file system: for a path that is
    a C string in memory, mkdir, rmdir, unlink and creat return (no fault, no
    panic); the contents afterwards are those of the specification, the processes
    and the memory are unchanged, and the result is the specification's code, as
    far as the handler passes it on. *)
Theorem file_syscalls_implement_flat {P F} `{!ProcessTable P} `{!FileSystem F} (k : kernel P F)
  n p s a2 a3 a4 a5 a6 :
  kernel_ok k -> cstr_at (k_mem k) p s -> p <> 0 ->
  n = SYS_MKDIR \/ n = SYS_RMDIR \/ n = SYS_UNLINK \/ n = SYS_CREAT ->
  exists k', rust_syscall_handler n p a2 a3 a4 a5 a6 k =
      Ret (file_code n (flat_run (file_call n (components s)) (fs_view (k_fs k))).1, k') /\
    k_mem k' = k_mem k /\ k_procs k' = k_procs k /\ kernel_ok k' /\
    flat_equiv (fs_view (k_fs k')) (flat_run (file_call n (components s)) (fs_view (k_fs k))).2.
Proof.
  intros Hk Hs Hp Hn. destruct (handler_dispatch k n p a2 a3 a4 a5 a6 Hk) as [l ->].
  { destruct Hn as [-> | [-> | [-> | -> ] ] ]; done. }
  destruct (file_dispatch (logged l k) n p s a2 a3 a4 a5 a6) as (k' & H1 & H2 & H3 & H4 & H5);
    [by apply kernel_ok_logged|done..|]. exists k'. split_and!; try done.
  split; [rewrite H3; apply Hk|done|rewrite H3; apply Hk].
Qed.

Lemma file_syscalls_implement_flat_witness :
  exists k', rust_syscall_handler SYS_CREAT 100 0 0 0 0 0 demo_kernel = Ret (3, k') /\ kernel_ok k'.
Proof.
  destruct (file_syscalls_implement_flat demo_kernel SYS_CREAT 100 (bytes "/etc") 0 0 0 0 0 demo_kernel_ok)
    as (k' & H1 & _ & _ & H2 & _).
  - apply read_cstr_inv. vm_compute. reflexivity.
  - lia.
  - right; right; right. reflexivity.
  - exists k'. split; [exact H1|exact H2].
Defined.

(** [sys_mkdir] reports every failure as EEXIST: when the parent of the new
    directory does not exist the caller is told that the directory exists. *)
Theorem mkdir_missing_parent_is_eexist {P F} `{!ProcessTable P} `{!FileSystem F} (k : kernel P F)
  p s a2 a3 a4 a5 a6 :
  kernel_ok k -> cstr_at (k_mem k) p s -> p <> 0 -> components s <> [] ->
  fs_view (k_fs k) (removelast (components s)) = None ->
  exists k', rust_syscall_handler SYS_MKDIR p a2 a3 a4 a5 a6 k = Ret (EEXIST, k') /\
    flat_equiv (fs_view (k_fs k')) (fs_view (k_fs k)).
Proof.
  intros Hk Hs Hp Hc Hpar. destruct (handler_dispatch k SYS_MKDIR p a2 a3 a4 a5 a6 Hk) as [l ->]; [done|].
  destruct (file_dispatch (logged l k) SYS_MKDIR p s a2 a3 a4 a5 a6) as (k' & H1 & _ & _ & _ & H5);
    [by apply kernel_ok_logged|done|done|by left|]. exists k'. rewrite H1. revert H5.
  cbn [k_fs logged file_call flat_run SYS_MKDIR Z.eqb Pos.eqb]. unfold flat_create.
  rewrite decide_False, Hpar by done. done.
Qed.

Lemma mkdir_missing_parent_is_eexist_witness :
  exists k', rust_syscall_handler SYS_MKDIR 500 0 0 0 0 0
      (mkKernel (poke 500 (bytes "/no/dir" ++ [0]) ∅) (Some (demo_root [])) demo_procs []) = Ret (EEXIST, k').
Proof.
  destruct (mkdir_missing_parent_is_eexist
    (mkKernel (poke 500 (bytes "/no/dir" ++ [0]) ∅) (Some (demo_root [])) demo_procs []) 500 (bytes "/no/dir") 0 0 0 0 0)
    as (k' & H1 & _).
  - pose proof demo_kernel_ok as [H1 H2 H3]. split; [exact H1|exact H2|exact H3].
  - apply read_cstr_inv. vm_compute. reflexivity.
  - lia.
  - vm_compute. discriminate.
  - vm_compute. reflexivity.
  - exists k'. exact H1.
Defined.

(** C33. fork creates one user process whose parent is the caller, with a pid
    nobody has, returns that pid, and changes nothing else. *)
Theorem fork_creates_child {P F} `{!ProcessTable P} `{!FileSystem F} (k : kernel P F) a1 a2 a3 a4 a5 a6 :
  kernel_ok k -> pt_room (k_procs k) ->
  exists child k', rust_syscall_handler SYS_FORK a1 a2 a3 a4 a5 a6 k = Ret (child, k') /\
    0 < child /\ pt_view (k_procs k) child = None /\ kernel_ok k' /\
    pt_view (k_procs k') child = Some (mkInfo (pt_current (k_procs k)) Ready User 0) /\
    (forall q, q <> child -> pt_view (k_procs k') q = pt_view (k_procs k) q) /\
    k_mem k' = k_mem k /\ k_fs k' = k_fs k.
Proof.
  intros Hk Hroom. destruct (handler_dispatch k SYS_FORK a1 a2 a3 a4 a5 a6 Hk) as [l ->]; [done|].
  destruct (pt_create_spec (k_procs k) (pt_current (k_procs k)) false) as (c & g & H1 & H2 & H3 & H4 & H5 & H6);
    [apply Hk|done|].
  dispatch_call.
  unfold sys_fork, current_pid, process_create. step_m. cbn [k_procs logged]. rewrite H1. step_m.
  rewrite (proj2 (Z.eqb_neq c 0)) by lia. eexists _, _. split; [done|]. split; [lia|]. split; [done|].
  split; [split; cbn; [done|apply Hk|rewrite H5; apply Hk]|]. cbn. split; [by rewrite H6, decide_True|].
  split; [|done]. intros q Hq. by rewrite H6, decide_False.
Qed.

Lemma fork_creates_child_witness :
  exists child k', rust_syscall_handler SYS_FORK 0 0 0 0 0 0 demo_kernel = Ret (child, k') /\
    pt_view (k_procs k') child = Some (mkInfo 2 Ready User 0).
Proof.
  destruct (fork_creates_child demo_kernel 0 0 0 0 0 0 demo_kernel_ok) as (c & k' & H1 & _ & _ & _ & H2 & _).
  { vm_compute. reflexivity. }
  exists c, k'. split; [exact H1|exact H2].
Defined.

(** exit terminates the calling process with the given status, and kill with
    a positive pid terminates that process, whoever asks; every other process,
    the files and the memory stay as they are, and both calls return 0. *)
Theorem exit_kill_terminate {P F} `{!ProcessTable P} `{!FileSystem F} (k : kernel P F) n a1 a2 a3 a4 a5 a6 :
  kernel_ok k -> (n = SYS_EXIT \/ n = SYS_KILL /\ 0 < i32 a1) ->
  let target := if n =? SYS_EXIT then pt_current (k_procs k) else u32 (i32 a1) in
  let code := if n =? SYS_EXIT then i32 a1 else i32 a2 in
  exists k', rust_syscall_handler n a1 a2 a3 a4 a5 a6 k = Ret (0, k') /\ kernel_ok k' /\
    k_mem k' = k_mem k /\ k_fs k' = k_fs k /\
    forall q, pt_view (k_procs k') q =
      if decide (q = target)
      then (fun i => mkInfo (info_parent i) Terminated (info_privilege i) code) <$> pt_view (k_procs k) q
      else pt_view (k_procs k) q.
Proof.
  intros Hk Hn target code. destruct (handler_dispatch k n a1 a2 a3 a4 a5 a6 Hk) as [l ->].
  { destruct Hn as [->|[-> _]]; done. }
  destruct (pt_terminate_spec (k_procs k) target code) as (g & H1 & H2 & H3 & H4); [apply Hk|].
  destruct Hn as [->|[-> Hpos]];
    dispatch_call; unfold sys_exit, sys_kill, current_pid, process_terminate, serial_write;
    [|rewrite (proj2 (Z.leb_gt _ _)) by done]; step_m; cbn [k_procs logged]; fold target; fold code;
    rewrite H1; step_m; (eexists; split; [done|]); (split; [split; cbn; [done|apply Hk|rewrite H3; apply Hk]|]); done.
Qed.

Lemma exit_kill_terminate_witness :
  exists k', rust_syscall_handler SYS_EXIT 7 0 0 0 0 0 demo_kernel = Ret (0, k') /\
    pt_view (k_procs k') 2 = Some (mkInfo 1 Terminated User 7).
Proof.
  destruct (exit_kill_terminate demo_kernel SYS_EXIT 7 0 0 0 0 0 demo_kernel_ok) as (k' & H1 & _ & _ & _ & H2).
  { left. reflexivity. }
  exists k'. split; [exact H1|]. rewrite H2. vm_compute. reflexivity.
Defined.

(** read, write and open refuse memory the caller has no right to: when the
    current process may not access the buffer (or the path) the call returns
    EFAULT and changes nothing but the serial log. *)
Theorem inaccessible_buffer_is_efault {P F} `{!ProcessTable P} `{!FileSystem F} (k : kernel P F)
  n a1 a2 a3 a4 a5 a6 i :
  kernel_ok k -> pt_view (k_procs k) (pt_current (k_procs k)) = Some i ->
  (n = SYS_READ /\ a2 <> 0 /\ a3 <> 0 /\ access_spec (info_privilege i) a2 2 = false \/
   n = SYS_WRITE /\ a2 <> 0 /\ a3 <> 0 /\ access_spec (info_privilege i) a2 1 = false \/
   n = SYS_OPEN /\ a1 <> 0 /\ access_spec (info_privilege i) a1 1 = false) ->
  exists l, rust_syscall_handler n a1 a2 a3 a4 a5 a6 k = Ret (EFAULT, logged l k).
Proof.
  intros Hk Hv Hn. pose proof (fun addr a => pt_check_spec (k_procs k) (pt_current (k_procs k)) addr a (kernel_procs _ Hk)) as Hc.
  rewrite Hv in Hc.
  destruct (handler_dispatch k n a1 a2 a3 a4 a5 a6 Hk) as [l Hl]; [destruct Hn as [[-> _]|[[-> _]|[-> _]]]; done|].
  exists l. rewrite Hl. clear Hl.
  destruct Hn as [(-> & H1 & H2 & H3)|[(-> & H1 & H2 & H3)|(-> & H1 & H3)]];
    dispatch_call; unfold sys_read, sys_write, sys_open, current_pid, check_access;
    repeat rewrite (proj2 (Z.eqb_neq _ 0)) by done; cbn [orb]; step_m; cbn [k_procs logged];
    rewrite Hc, H3; done.
Qed.

Lemma inaccessible_buffer_is_efault_witness :
  exists l, rust_syscall_handler SYS_READ 0 0xB8000 16 0 0 0 demo_kernel = Ret (EFAULT, logged l demo_kernel).
Proof.
  apply (inaccessible_buffer_is_efault demo_kernel SYS_READ 0 0xB8000 16 0 0 0 (mkInfo 1 Ready User 0) demo_kernel_ok).
  - vm_compute. reflexivity.
  - left. split; [reflexivity|]. split; [lia|]. split; [lia|]. reflexivity.
Defined.

(** uname writes wherever the caller says: no access check is made, so that a
    process that may not write a byte of the buffer, a user process naming kernel
    memory for instance, has 81 bytes there overwritten and is told it worked. *)
Theorem uname_writes_unchecked {P F} `{!ProcessTable P} `{!FileSystem F} (k : kernel P F) buf a2 a3 a4 a5 a6 i :
  kernel_ok k -> pt_view (k_procs k) (pt_current (k_procs k)) = Some i ->
  buf <> 0 -> mapped (k_mem k) buf 81 ->
  (forall x, buf <= x < buf + 81 -> access_spec (info_privilege i) x 2 = false) ->
  exists k', rust_syscall_handler SYS_UNAME buf a2 a3 a4 a5 a6 k = Ret (0, k') /\
    patched (k_mem k) buf uname_info (k_mem k').
Proof.
  intros Hk Hv Hb Hm _. destruct (handler_dispatch k SYS_UNAME buf a2 a3 a4 a5 a6 Hk) as [l ->]; [done|].
  destruct (store_bytes_ok (k_mem k) buf uname_info Hm) as (m' & H1 & H2).
  exists (mkKernel m' (k_fs k) (k_procs k) (k_serial k ++ [l])). split; [|exact H2].
  dispatch_call. unfold sys_uname, poke_mem. rewrite (proj2 (Z.eqb_neq _ _)) by done. step_m.
  cbn [k_mem logged]. rewrite H1. step_m. reflexivity.
Qed.

Lemma uname_writes_unchecked_witness :
  exists k', rust_syscall_handler SYS_UNAME 0xB8000 0 0 0 0 0
      (mkKernel (poke 0xB8000 (replicate 81 32) ∅) (Some (demo_root [])) demo_procs []) = Ret (0, k') /\
    k_mem k' !! 0xB8000 = Some 83.
Proof.
  destruct (uname_writes_unchecked (mkKernel (poke 0xB8000 (replicate 81 32) ∅) (Some (demo_root [])) demo_procs [])
    0xB8000 0 0 0 0 0 (mkInfo 1 Ready User 0)) as (k' & H1 & H2).
  - pose proof demo_kernel_ok as [H1 H2 H3]. split; [exact H1|exact H2|exact H3].
  - vm_compute. reflexivity.
  - lia.
  - apply mapped_dec_ok. vm_compute. reflexivity.
  - intros x Hx. unfold access_spec. cbn [info_privilege]. rewrite !bool_decide_false by lia. reflexivity.
  - exists k'. split; [exact H1|]. rewrite (H2 0xB8000). reflexivity.
Defined.

(** A system call number of 10^10 or more stops the kernel: the log line is
    formatted before the number is looked at, its digit buffer has room for 10
    digits, and the eleventh one panics, whatever the other arguments are. *)
Theorem huge_syscall_number_panics {P F} `{!ProcessTable P} `{!FileSystem F} (k : kernel P F)
  n a1 a2 a3 a4 a5 a6 :
  kernel_ok k -> 10 ^ 10 <= n -> rust_syscall_handler n a1 a2 a3 a4 a5 a6 k = Panic.
Proof.
  intros Hk Hn. unfold rust_syscall_handler, current_pid, syscall_log. step_m.
  rewrite push_all_ok by (cbn; lia). cbn [outcome_bind].
  destruct (dec_digits_ok 10 (pt_current (k_procs k))) as (ds & -> & Hl & _); [lia| |].
  { pose proof (kernel_pid _ Hk). lia. }
  cbn [outcome_bind]. rewrite push_all_guarded_ok by (cbn; lia).
  rewrite push_all_ok by (rewrite !length_app; cbn; lia). cbn [outcome_bind].
  by rewrite dec_digits_overflow.
Qed.

Lemma huge_syscall_number_panics_witness :
  rust_syscall_handler 10000000000 0 0 0 0 0 0 demo_kernel = Panic.
Proof. apply (huge_syscall_number_panics demo_kernel 10000000000 0 0 0 0 0 0 demo_kernel_ok). lia. Defined.
