(* ===== verification/Elf.v ===== *)
(** * Elf: the program loader of [elf.rs]

    [rust_elf_load] reads a file into a 4 KiB buffer on its stack, checks the ELF
    header, copies the loadable segments into blocks of the kernel heap, applies
    relocations for shared objects and allocates a stack.  Structures are read
    from the byte memory field by field at their packed offsets; the allocator is
    the one of [Heap] and the file system the one of [Vfs].  The rest is the
    symbol table of the dynamic linker.

    [rust_paging_new_pml4] belongs to the paging code in C; its result is an
    argument.  The serial diagnostics are left out. *)

From S2P Require Import Prelude Memory Heap BTree Vfs.

Local Open Scope Z_scope.

(** ** Constants and structures *)
Definition ELFMAG : list Z := [0x7F; 69; 76; 70].
Definition ELFCLASS64 : Z := 2.
Definition ELFDATA2LSB : Z := 1.
Definition EV_CURRENT : Z := 1.
Definition ET_EXEC : Z := 2.
Definition ET_DYN : Z := 3.
Definition EM_X86_64 : Z := 62.
Definition PT_LOAD : Z := 1.
Definition PT_DYNAMIC : Z := 2.

Definition DT_NULL : Z := 0.
Definition DT_NEEDED : Z := 1.
Definition DT_PLTGOT : Z := 3.
Definition DT_HASH : Z := 4.
Definition DT_STRTAB : Z := 5.
Definition DT_SYMTAB : Z := 6.
Definition DT_RELA : Z := 7.

Definition R_X86_64_64 : Z := 1.
Definition R_X86_64_GLOB_DAT : Z := 6.
Definition R_X86_64_JUMP_SLOT : Z := 7.
Definition R_X86_64_RELATIVE : Z := 8.

Definition STB_GLOBAL : Z := 1.
Definition STB_WEAK : Z := 2.
Definition STT_OBJECT : Z := 1.
Definition STT_FUNC : Z := 2.

Record Elf64_Ehdr := mkEhdr {
  e_ident : list Z; e_type : Z; e_machine : Z; e_version : Z; e_entry : Z; e_phoff : Z; e_shoff : Z;
  e_flags : Z; e_ehsize : Z; e_phentsize : Z; e_phnum : Z; e_shentsize : Z; e_shnum : Z; e_shstrndx : Z
}.

Record Elf64_Phdr := mkPhdr {
  p_type : Z; p_flags : Z; p_offset : Z; p_vaddr : Z; p_paddr : Z; p_filesz : Z; p_memsz : Z; p_align : Z
}.

Record Elf64_Sym := mkSym {
  st_name : Z; st_info : Z; st_other : Z; st_shndx : Z; st_value : Z; st_size : Z
}.

Record Elf64_Rela := mkRela { r_offset : Z; r_info : Z; r_addend : Z }.

Record Elf64_Dyn := mkDyn { d_tag : Z; d_val : Z }.

Record DynamicContext := mkDynCtx {
  base_addr : Z;
  dynamic : option Z;
  strtab : option Z;
  symtab : option Z;
  relocations : list Z;
  needed_libs : list (list Z);
  plt_got : option Z;
  hash_table : option Z
}.

(** ** Decoding *)

(** The field of [n] bytes at offset [o] of the packed structure [bs]. *)
Definition field (bs : list Z) (o n : nat) : Z := le_word (take n (drop o bs)).

Definition decode_ehdr (b : list Z) : Elf64_Ehdr :=
  mkEhdr (take 16 b) (field b 16 2) (field b 18 2) (field b 20 4) (field b 24 8) (field b 32 8) (field b 40 8)
    (field b 48 4) (field b 52 2) (field b 54 2) (field b 56 2) (field b 58 2) (field b 60 2) (field b 62 2).

Definition decode_phdr (b : list Z) : Elf64_Phdr :=
  mkPhdr (field b 0 4) (field b 4 4) (field b 8 8) (field b 16 8) (field b 24 8) (field b 32 8) (field b 40 8) (field b 48 8).

Definition decode_sym (b : list Z) : Elf64_Sym :=
  mkSym (field b 0 4) (field b 4 1) (field b 5 1) (field b 6 2) (field b 8 8) (field b 16 8).

Definition decode_rela (b : list Z) : Elf64_Rela :=
  mkRela (field b 0 8) (field b 8 8) (i64 (field b 16 8)).

Definition decode_dyn (b : list Z) : Elf64_Dyn := mkDyn (i64 (field b 0 8)) (field b 8 8).

(** [&*(p as *const T)]. *)
Definition load_ehdr (m : mem) (p : Z) : outcome Elf64_Ehdr := b ← load_bytes m p 64; Ret (decode_ehdr b).
Definition load_phdr (m : mem) (p : Z) : outcome Elf64_Phdr := b ← load_bytes m p 56; Ret (decode_phdr b).
Definition load_sym (m : mem) (p : Z) : outcome Elf64_Sym := b ← load_bytes m p 24; Ret (decode_sym b).
Definition load_rela (m : mem) (p : Z) : outcome Elf64_Rela := b ← load_bytes m p 24; Ret (decode_rela b).
Definition load_dyn (m : mem) (p : Z) : outcome Elf64_Dyn := b ← load_bytes m p 16; Ret (decode_dyn b).

(** ** State *)
Record elf := mkElf {
  elf_mem : mem;
  elf_heap : heap;
  GLOBAL_SYMBOLS : list (list Z * Z);
  LOADED_LIBRARIES : list (list Z * DynamicContext)
}.

Definition with_mem (m : mem) (s : elf) : elf := mkElf m (elf_heap s) (GLOBAL_SYMBOLS s) (LOADED_LIBRARIES s).
Definition with_heap (h : heap) (s : elf) : elf := mkElf (elf_mem s) h (GLOBAL_SYMBOLS s) (LOADED_LIBRARIES s).
Definition with_symbols (g : list (list Z * Z)) (s : elf) : elf :=
  mkElf (elf_mem s) (elf_heap s) g (LOADED_LIBRARIES s).

Definition kmalloc (size : Z) (s : elf) : outcome (Z * elf) :=
  '(p, h) ← rust_kmalloc (elf_heap s) size; Ret (p, with_heap h s).

(** ** The symbol table *)
Definition rust_elf_init_dynamic_linking (s : elf) : elf := mkElf (elf_mem s) (elf_heap s) [] [].

Definition get_symbol_name (m : mem) (tab name_offset : Z) : outcome (list Z) := read_cstr m (tab + name_offset).

Definition get_relocation_type (info : Z) : Z := u32 (info .& 0xFFFFFFFF)%W.
Definition get_relocation_symbol (info : Z) : Z := u32 (info >>. 32)%W.

(** The linear search through one library's symbols: every turn reads 24 more
    mapped bytes, which bounds the turns. *)
Fixpoint search_symbols (fuel : nat) (m : mem) (ctx : DynamicContext) (sym_ptr tab : Z) (n : list Z)
  : outcome (option Z) :=
  match fuel with
  | O => Timeout
  | S f =>
      sym ← load_sym m sym_ptr;
      if st_name sym =? 0 then Ret None
      else
        nm ← get_symbol_name m tab (st_name sym);
        let binding := ((st_info sym >>. 4) .& 0xF)%W in
        let symbol_type := (st_info sym .& 0xF)%W in
        if bool_decide (nm = n) && ((binding =? STB_GLOBAL) || (binding =? STB_WEAK)) &&
           ((symbol_type =? STT_FUNC) || (symbol_type =? STT_OBJECT))
        then Ret (Some (u64 (base_addr ctx + st_value sym)))
        else search_symbols f m ctx (sym_ptr + 24) tab n
  end.

Fixpoint search_libraries (m : mem) (libs : list (list Z * DynamicContext)) (n : list Z) : outcome (option Z) :=
  match libs with
  | [] => Ret None
  | (_, ctx) :: libs' =>
      r ← match symtab ctx, strtab ctx with
          | Some st, Some tab => search_symbols (S (size m)) m ctx st tab n
          | _, _ => Ret None
          end;
      match r with Some a => Ret (Some a) | None => search_libraries m libs' n end
  end.

Definition resolve_symbol (n : list Z) (s : elf) : outcome (option Z * elf) :=
  match bt_get n (GLOBAL_SYMBOLS s) with
  | Some a => Ret (Some a, s)
  | None =>
      r ← search_libraries (elf_mem s) (LOADED_LIBRARIES s) n;
      match r with
      | Some a => Ret (Some a, with_symbols (bt_insert n a (GLOBAL_SYMBOLS s)) s)
      | None => Ret (None, s)
      end
  end.

Definition rust_elf_resolve_symbol (p : Z) (s : elf) : outcome (Z * elf) :=
  n ← read_cstr (elf_mem s) p;
  '(r, s') ← resolve_symbol n s;
  Ret (default 0 r, s').

Definition rust_elf_add_symbol (p address : Z) (s : elf) : outcome elf :=
  n ← read_cstr (elf_mem s) p; Ret (with_symbols (bt_insert n address (GLOBAL_SYMBOLS s)) s).

Definition rust_elf_get_loaded_library_count (s : elf) : Z := u32 (Z.of_nat (length (LOADED_LIBRARIES s))).
Definition rust_elf_get_global_symbol_count (s : elf) : Z := u32 (Z.of_nat (length (GLOBAL_SYMBOLS s))).

Definition rust_elf_load_shared_library (p : Z) (s : elf) : outcome Z :=
  n ← read_cstr (elf_mem s) p;
  Ret (match bt_get n (LOADED_LIBRARIES s) with Some ctx => base_addr ctx | None => 0 end).

Definition load_shared_library (_ : list Z) : option DynamicContext := None.

(** ** Dynamic section and relocations *)

(** [format!("lib{}", n)]. *)
Definition lib_name (n : nat) : outcome (list Z) := ds ← dec_digits 20 (Z.of_nat n); Ret (bytes "lib" ++ ds).

Fixpoint dynamic_loop (fuel : nat) (m : mem) (dyn_ptr : Z) (ctx : DynamicContext) : outcome DynamicContext :=
  match fuel with
  | O => Timeout
  | S f =>
      e ← load_dyn m dyn_ptr;
      let at_base := u64 (base_addr ctx + d_val e) in
      if d_tag e =? DT_NULL then Ret ctx
      else
        ctx' ←
          (if d_tag e =? DT_NEEDED then
             n ← lib_name (length (needed_libs ctx));
             Ret (mkDynCtx (base_addr ctx) (dynamic ctx) (strtab ctx) (symtab ctx) (relocations ctx)
                    (needed_libs ctx ++ [n]) (plt_got ctx) (hash_table ctx))
           else if d_tag e =? DT_STRTAB then
             Ret (mkDynCtx (base_addr ctx) (dynamic ctx) (Some at_base) (symtab ctx) (relocations ctx)
                    (needed_libs ctx) (plt_got ctx) (hash_table ctx))
           else if d_tag e =? DT_SYMTAB then
             Ret (mkDynCtx (base_addr ctx) (dynamic ctx) (strtab ctx) (Some at_base) (relocations ctx)
                    (needed_libs ctx) (plt_got ctx) (hash_table ctx))
           else if d_tag e =? DT_RELA then
             Ret (mkDynCtx (base_addr ctx) (dynamic ctx) (strtab ctx) (symtab ctx) (relocations ctx ++ [at_base])
                    (needed_libs ctx) (plt_got ctx) (hash_table ctx))
           else if d_tag e =? DT_PLTGOT then
             Ret (mkDynCtx (base_addr ctx) (dynamic ctx) (strtab ctx) (symtab ctx) (relocations ctx)
                    (needed_libs ctx) (Some at_base) (hash_table ctx))
           else if d_tag e =? DT_HASH then
             Ret (mkDynCtx (base_addr ctx) (dynamic ctx) (strtab ctx) (symtab ctx) (relocations ctx)
                    (needed_libs ctx) (plt_got ctx) (Some at_base))
           else Ret ctx);
        dynamic_loop f m (dyn_ptr + 16) ctx'
  end.

Definition process_dynamic_section (m : mem) (dyn base : Z) : outcome DynamicContext :=
  dynamic_loop (S (size m)) m dyn (mkDynCtx base (Some dyn) None None [] [] None None).

(** [*(target_addr as *mut u64) = value]. *)
Definition poke64 (a v : Z) (s : elf) : outcome elf := m ← store64 (elf_mem s) a v; Ret (with_mem m s).

(** The branch shared by the three relocations that name a symbol; [addend] is
    added to the resolved address. *)
Definition symbol_relocation (ctx : DynamicContext) (rela : Elf64_Rela) (addend : Z) (s : elf) : outcome elf :=
  match symtab ctx, strtab ctx with
  | Some st, Some tab =>
      sym ← load_sym (elf_mem s) (st + 24 * get_relocation_symbol (r_info rela));
      n ← get_symbol_name (elf_mem s) tab (st_name sym);
      '(r, s') ← resolve_symbol n s;
      match r with
      | Some a => poke64 (u64 (base_addr ctx + r_offset rela)) (u64 (a + addend)) s'
      | None => Ret s'
      end
  | _, _ => Ret s
  end.

Definition apply_relocation (ctx : DynamicContext) (rela : Elf64_Rela) (s : elf) : outcome elf :=
  let t := get_relocation_type (r_info rela) in
  if t =? R_X86_64_RELATIVE then
    poke64 (u64 (base_addr ctx + r_offset rela)) (u64 (base_addr ctx + u64 (r_addend rela))) s
  else if t =? R_X86_64_GLOB_DAT then symbol_relocation ctx rela 0 s
  else if t =? R_X86_64_JUMP_SLOT then symbol_relocation ctx rela 0 s
  else if t =? R_X86_64_64 then symbol_relocation ctx rela (u64 (r_addend rela)) s
  else Ret s.

Fixpoint rela_loop (fuel : nat) (ctx : DynamicContext) (p : Z) (s : elf) : outcome elf :=
  match fuel with
  | O => Timeout
  | S f =>
      rela ← load_rela (elf_mem s) p;
      if (r_offset rela =? 0) && (r_info rela =? 0) then Ret s
      else s' ← apply_relocation ctx rela s; rela_loop f ctx (p + 24) s'
  end.

Fixpoint apply_all (ctx : DynamicContext) (ps : list Z) (s : elf) : outcome elf :=
  match ps with
  | [] => Ret s
  | p :: ps' => s' ← rela_loop (S (size (elf_mem s))) ctx p s; apply_all ctx ps' s'
  end.

Definition apply_relocations (ctx : DynamicContext) (s : elf) : outcome elf := apply_all ctx (relocations ctx) s.

(** ** Loading *)

(** "Validate ELF magic", class, data, version, type, machine: the code of the
    first check that fails, 0 when all pass. *)
Definition check_header (e : Elf64_Ehdr) : Z :=
  if negb (bool_decide (take 4 (e_ident e) = ELFMAG)) then -2
  else if negb (default 0 (e_ident e !! 4%nat) =? ELFCLASS64) then -3
  else if negb (default 0 (e_ident e !! 5%nat) =? ELFDATA2LSB) then -4
  else if negb (default 0 (e_ident e !! 6%nat) =? EV_CURRENT) then -5
  else if negb (e_type e =? ET_EXEC) && negb (e_type e =? ET_DYN) then -6
  else if negb (e_machine e =? EM_X86_64) then -7
  else 0.

(** The length of the local buffer. *)
Definition BUF_LEN : nat := 4096.

Lemma BUF_LEN_Z : Z.of_nat BUF_LEN = 4096.
Proof. vm_compute. reflexivity. Qed.

#[global] Opaque BUF_LEN.

(** The address of program header [i]. *)
Definition phdr_addr (buf phoff phentsize : Z) (i : nat) : Z := u64 (buf + phoff + Z.of_nat i * phentsize).

(** First pass: the last PT_DYNAMIC header wins. *)
Fixpoint find_dynamic (n i : nat) (m : mem) (buf phoff phentsize : Z) (found : option Elf64_Phdr)
  : outcome (option Elf64_Phdr) :=
  match n with
  | O => Ret found
  | S n' =>
      ph ← load_phdr m (phdr_addr buf phoff phentsize i);
      find_dynamic n' (S i) m buf phoff phentsize (if p_type ph =? PT_DYNAMIC then Some ph else found)
  end.

(** The DT_NEEDED entries, up to DT_NULL. *)
Fixpoint needed_loop (fuel : nat) (m : mem) (p : Z) (libs : list Z) : outcome (list Z) :=
  match fuel with
  | O => Timeout
  | S f =>
      e ← load_dyn m p;
      if d_tag e =? DT_NULL then Ret libs
      else needed_loop f m (p + 16) (if d_tag e =? DT_NEEDED then libs ++ [d_val e] else libs)
  end.

Definition scan_needed (m : mem) (buf read_len : Z) (dyn : option Elf64_Phdr) : outcome (list Z) :=
  match dyn with
  | Some ph =>
      if u64 (p_offset ph + p_filesz ph) <=? read_len
      then needed_loop (S (size m)) m (buf + p_offset ph) [] else Ret []
  | None => Ret []
  end.

(** The body of the PT_LOAD branch: the result is a code and the address of the
    segment's block. *)
Definition load_segment (buf read_len : Z) (ph : Elf64_Phdr) (s : elf) : outcome (Z * Z * elf) :=
  if read_len <? u64 (p_offset ph + p_filesz ph) then Ret (-21, 0, s)
  else
    '(seg_mem, s) ← kmalloc (p_memsz ph) s;
    if seg_mem =? 0 then Ret (-9, 0, s)
    else
      m ← copy_nonoverlapping (elf_mem s) (buf + p_offset ph) seg_mem (Z.to_nat (p_filesz ph));
      m ← (if p_filesz ph <? p_memsz ph
           then write_bytes m (seg_mem + p_filesz ph) 0 (Z.to_nat (p_memsz ph - p_filesz ph)) else Ret m);
      Ret (0, seg_mem, with_mem m s).

(** Second pass. *)
Fixpoint load_segments (n i : nat) (buf phoff phentsize read_len : Z) (s : elf) : outcome (Z * elf) :=
  match n with
  | O => Ret (0, s)
  | S n' =>
      ph ← load_phdr (elf_mem s) (phdr_addr buf phoff phentsize i);
      if p_type ph =? PT_LOAD then
        '(code, _, s) ← load_segment buf read_len ph s;
        if code =? 0 then load_segments n' (S i) buf phoff phentsize read_len s else Ret (code, s)
      else load_segments n' (S i) buf phoff phentsize read_len s
  end.

(** [buf] is the address of the local array, [new_pml4] the result of
    [rust_paging_new_pml4]. *)
Definition rust_elf_load (fs : root_fs) (buf new_pml4 path_ptr : Z) (s : elf) : outcome (Z * elf) :=
  m ← write_bytes (elf_mem s) buf 0 BUF_LEN;
  '(read_len, m) ← rust_vfs_read m fs path_ptr buf 4096;
  let s := with_mem m s in
  if read_len <? 64 then Ret (-1, s)
  else if 4096 <? read_len then Ret (-20, s)
  else
    ehdr ← load_ehdr m buf;
    if negb (check_header ehdr =? 0) then Ret (check_header ehdr, s)
    else
      let is_shared_object := e_type ehdr =? ET_DYN in
      let base := if is_shared_object then 0x400000 else 0 in
      let phnum := Z.to_nat (e_phnum ehdr) in
      if read_len <? u64 (e_phoff ehdr + e_phnum ehdr * e_phentsize ehdr) then Ret (-8, s)
      else if new_pml4 =? 0 then Ret (-11, s)
      else
        dyn ← find_dynamic phnum 0 m buf (e_phoff ehdr) (e_phentsize ehdr) None;
        _ ← scan_needed m buf read_len dyn;
        '(code, s) ← load_segments phnum 0 buf (e_phoff ehdr) (e_phentsize ehdr) read_len s;
        if negb (code =? 0) then Ret (code, s)
        else
          s ← match dyn with
              | Some ph => if is_shared_object then
                             ctx ← process_dynamic_section (elf_mem s) (buf + p_offset ph) base;
                             apply_relocations ctx s
                           else Ret s
              | None => Ret s
              end;
          '(user_stack, s) ← kmalloc 0x8000 s;
          if user_stack =? 0 then Ret (-10, s) else Ret (0, s).

(** [switch_to_user_mode] pushes the frame [iretq] pops; the result is the stack
    pointer handed to [enter_user_mode]. *)
Definition switch_to_user_mode (entry stack_top : Z) (s : elf) : outcome (Z * elf) :=
  s ← poke64 (u64 (stack_top - 8)) 0x20 s;
  s ← poke64 (u64 (stack_top - 16)) stack_top s;
  s ← poke64 (u64 (stack_top - 24)) 0x202 s;
  s ← poke64 (u64 (stack_top - 32)) 0x18 s;
  s ← poke64 (u64 (stack_top - 40)) entry s;
  Ret (u64 (stack_top - 40), s).

(** ** The loops over tables end *)

(** A loop that reads [k > 0] more bytes in every turn needs as many mapped bytes
    as it has turns, so it cannot use up a fuel above the size of memory. *)
Lemma mapped_turn m p k f :
  mapped m p k -> (0 < k)%nat -> mapped m (p + Z.of_nat k) f -> mapped m p (S f).
Proof.
  intros H1 Hk H2 i Hi. destruct (decide (i < k)%nat) as [|Hge]; [by apply H1|].
  replace (p + Z.of_nat i) with (p + Z.of_nat k + Z.of_nat (i - k)) by lia. apply H2. lia.
Qed.

Lemma load_bytes_mapped m p k l : load_bytes m p k = Ret l -> mapped m p k.
Proof. intros H. apply load_bytes_inv in H as [<- H]. by apply bytes_at_mapped. Qed.

(** One turn of a loop over a table of entries of [k] bytes. *)
Ltac table_turn k b :=
  let Hk := fresh in let E := fresh in
  match goal with
  | H : context [load_bytes ?m ?p k] |- mapped _ _ (S _) =>
      pose proof (load_bytes_ends m p k) as Hk; destruct (load_bytes m p k) as [b| | |] eqn:E; try done; step_ret_in H;
      eapply (mapped_turn m p k); [eapply load_bytes_mapped; eassumption|lia|]
  end.

Lemma search_symbols_fuel fuel m ctx p tab n :
  search_symbols fuel m ctx p tab n = Timeout -> mapped m p fuel.
Proof.
  revert p. induction fuel as [|f IH]; intros p H; [intros i Hi; lia|]. cbn [search_symbols] in H.
  unfold load_sym in H. table_turn 24%nat b. apply IH.
  destruct (_ =? 0); [done|]. pose proof (read_cstr_no_timeout m (tab + st_name (decode_sym b))) as Hc.
  unfold get_symbol_name in H. destruct (read_cstr m _) as [nm| | |]; try done. step_ret_in H.
  by destruct (_ && _).
Qed.

Lemma resolve_symbol_ends n s : ends (resolve_symbol n s).
Proof.
  unfold resolve_symbol. destruct (bt_get n _); [apply ends_Ret|]. apply ends_bind.
  - induction (LOADED_LIBRARIES s) as [|[k ctx] l IH]; cbn [search_libraries]; [apply ends_Ret|].
    apply ends_bind.
    + destruct (symtab ctx), (strtab ctx); try apply ends_Ret.
      intros H. apply search_symbols_fuel, mapped_size in H. lia.
    + intros [a|] _; [apply ends_Ret|done].
  - intros [a|] _; apply ends_Ret.
Qed.

Lemma resolve_symbol_mem n s r s' : resolve_symbol n s = Ret (r, s') -> elf_mem s' = elf_mem s.
Proof.
  unfold resolve_symbol. destruct (bt_get n _); [by intros [= _ <-]|].
  destruct (search_libraries _ _ _) as [[a|]| | |]; try done; by intros [= _ <-].
Qed.

Lemma dynamic_loop_fuel fuel m p ctx : dynamic_loop fuel m p ctx = Timeout -> mapped m p fuel.
Proof.
  revert p ctx. induction fuel as [|f IH]; intros p ctx H; [intros i Hi; lia|]. cbn [dynamic_loop] in H.
  unfold load_dyn in H. table_turn 16%nat b. destruct (_ =? DT_NULL); [done|].
  unfold lib_name in H. pose proof (dec_digits_ends 20 (Z.of_nat (length (needed_libs ctx)))) as Hd.
  destruct (dec_digits _ _); try (destruct (_ =? DT_NEEDED); done);
    repeat match type of H with context [if ?b then _ else _] => destruct b end; step_ret_in H;
    first [discriminate H|eapply IH; exact H].
Qed.

Lemma needed_loop_fuel fuel m p libs : needed_loop fuel m p libs = Timeout -> mapped m p fuel.
Proof.
  revert p libs. induction fuel as [|f IH]; intros p libs H; [intros i Hi; lia|]. cbn [needed_loop] in H.
  unfold load_dyn in H. table_turn 16%nat b. destruct (_ =? DT_NULL); [done|]. by eapply IH.
Qed.

Lemma poke64_ends a v s : ends (poke64 a v s).
Proof. apply ends_bind; [apply store_bytes_ends|]. intros m _. apply ends_Ret. Qed.

Lemma poke64_dom a v s s' : poke64 a v s = Ret s' -> dom (elf_mem s') = dom (elf_mem s).
Proof.
  unfold poke64. destruct (store64 _ _ _) as [m| | |] eqn:E; try done. intros [= <-]. by eapply store_bytes_dom.
Qed.

Lemma symbol_relocation_ends ctx rela a s : ends (symbol_relocation ctx rela a s).
Proof.
  unfold symbol_relocation. destruct (symtab ctx), (strtab ctx); try apply ends_Ret.
  apply ends_bind; [apply ends_bind; [apply load_bytes_ends|intros; apply ends_Ret]|]. intros sym _.
  apply ends_bind; [apply read_cstr_no_timeout|]. intros n _. apply ends_bind; [apply resolve_symbol_ends|].
  intros [[b|] s'] _; [apply poke64_ends|apply ends_Ret].
Qed.

Lemma symbol_relocation_dom ctx rela a s s' :
  symbol_relocation ctx rela a s = Ret s' -> dom (elf_mem s') = dom (elf_mem s).
Proof.
  unfold symbol_relocation. destruct (symtab ctx), (strtab ctx); try (by intros [= <-]).
  destruct (load_sym _ _) as [sym| | |]; try done. step_ret.
  destruct (get_symbol_name _ _ _) as [n| | |]; try done. step_ret.
  destruct (resolve_symbol n s) as [[r s1]| | |] eqn:E; try done. step_ret.
  apply resolve_symbol_mem in E. rewrite <- E. destruct r; [apply poke64_dom|by intros [= <-]].
Qed.

Lemma apply_relocation_ends ctx rela s : ends (apply_relocation ctx rela s).
Proof.
  unfold apply_relocation. repeat destruct (_ =? _); auto using poke64_ends, symbol_relocation_ends, ends_Ret.
Qed.

Lemma apply_relocation_dom ctx rela s s' :
  apply_relocation ctx rela s = Ret s' -> dom (elf_mem s') = dom (elf_mem s).
Proof.
  unfold apply_relocation.
  repeat destruct (_ =? _); eauto using poke64_dom, symbol_relocation_dom. by intros [= <-].
Qed.

Lemma rela_loop_fuel fuel ctx p s : rela_loop fuel ctx p s = Timeout -> mapped (elf_mem s) p fuel.
Proof.
  revert p s. induction fuel as [|f IH]; intros p s H; [intros i Hi; lia|]. cbn [rela_loop] in H.
  unfold load_rela in H. table_turn 24%nat b. destruct (_ && _); [done|].
  pose proof (apply_relocation_ends ctx (decode_rela b) s) as Ha.
  destruct (apply_relocation _ _ _) as [s'| | |] eqn:E; try done. step_ret_in H.
  apply apply_relocation_dom in E. apply IH in H. intros i Hi. apply elem_of_dom. rewrite <- E.
  by apply elem_of_dom, H.
Qed.

Lemma apply_relocations_ends ctx s : ends (apply_relocations ctx s).
Proof.
  unfold apply_relocations. revert s. induction (relocations ctx) as [|p ps IH]; intros s; [apply ends_Ret|].
  cbn [apply_all]. apply ends_bind; [|intros s' _; apply IH].
  intros H. apply rela_loop_fuel, mapped_size in H. lia.
Qed.

(** ** What a segment looks like in memory *)
Definition image (file : list Z) (ph : Elf64_Phdr) : list Z :=
  take (Z.to_nat (p_filesz ph)) (drop (Z.to_nat (p_offset ph)) file) ++
  replicate (Z.to_nat (p_memsz ph - p_filesz ph)) 0.

(** A segment whose contents lie in the file and fit its memory. *)
Record segment_ok (file : list Z) (ph : Elf64_Phdr) : Prop := {
  seg_off : 0 <= p_offset ph;
  seg_file : 0 <= p_filesz ph;
  seg_in_file : p_offset ph + p_filesz ph <= Z.of_nat (length file);
  seg_fits : p_filesz ph <= p_memsz ph;
  seg_mem : 0 < p_memsz ph;
  seg_no_wrap : p_memsz ph + 15 < 2 ^ 64
}.

Lemma image_length file ph : segment_ok file ph -> length (image file ph) = Z.to_nat (p_memsz ph).
Proof.
  intros []. unfold image. rewrite length_app, length_replicate, length_take, length_drop. lia.
Qed.

Lemma mapped_mono m a n b k : mapped m a n -> a <= b -> b + Z.of_nat k <= a + Z.of_nat n -> mapped m b k.
Proof.
  intros H H1 H2 i Hi. replace (b + Z.of_nat i) with (a + Z.of_nat (Z.to_nat (b + Z.of_nat i - a))) by lia.
  apply H. lia.
Qed.

Lemma bytes_at_sub m a l o n :
  bytes_at m a l -> (o + n <= length l)%nat -> bytes_at m (a + Z.of_nat o) (take n (drop o l)).
Proof.
  intros H Hl i x Hi. apply lookup_take_Some in Hi as [Hi Hn]. rewrite lookup_drop in Hi.
  replace (a + Z.of_nat o + Z.of_nat i) with (a + Z.of_nat (o + i)) by lia. by apply H.
Qed.

(** Writes elsewhere keep a byte sequence. *)
Lemma bytes_at_frame m m' a l b n :
  bytes_at m a l -> (forall x, x < b \/ b + n <= x -> m' !! x = m !! x) ->
  a + Z.of_nat (length l) <= b \/ b + n <= a -> bytes_at m' a l.
Proof. intros H Hf Hd. apply (bytes_at_ext m); [done|]. intros x Hx. apply Hf. lia. Qed.

(** Copying the file part and clearing the rest writes the image. *)
Lemma fill_segment m buf p file ph :
  bytes_at m buf file -> segment_ok file ph -> mapped m p (Z.to_nat (p_memsz ph)) ->
  exists m' m'', copy_nonoverlapping m (buf + p_offset ph) p (Z.to_nat (p_filesz ph)) = Ret m' /\
    (if p_filesz ph <? p_memsz ph
     then write_bytes m' (p + p_filesz ph) 0 (Z.to_nat (p_memsz ph - p_filesz ph)) else Ret m') = Ret m'' /\
    bytes_at m'' p (image file ph) /\ dom m'' = dom m /\
    (forall x, x < p \/ p + p_memsz ph <= x -> m'' !! x = m !! x).
Proof.
  intros Hf [Hoff Hfile Hin Hfit Hmem Hw] Hmap. set (d := take (Z.to_nat (p_filesz ph)) (drop (Z.to_nat (p_offset ph)) file)).
  assert (length d = Z.to_nat (p_filesz ph)) as Hld by (unfold d; rewrite length_take, length_drop; lia).
  assert (load_bytes m (buf + p_offset ph) (Z.to_nat (p_filesz ph)) = Ret d) as Hl.
  { rewrite <- Hld. apply load_bytes_ok. rewrite <- (Z2Nat.id (p_offset ph)) by lia. apply bytes_at_sub; [done|lia]. }
  destruct (store_bytes_ok m p d) as (m' & Hs & Hp); [apply (mapped_mono _ _ _ _ _ Hmap); lia|].
  exists m'. unfold copy_nonoverlapping. rewrite Hl. step_ret. rewrite Hs.
  assert (dom m' = dom m) as Hdom.
  { eapply patched_dom; [|exact Hp]. apply (mapped_mono _ _ _ _ _ Hmap); lia. }
  unfold write_bytes. destruct (Z.ltb_spec (p_filesz ph) (p_memsz ph)) as [Hlt|Hge].
  - destruct (store_bytes_ok m' (p + p_filesz ph) (replicate (Z.to_nat (p_memsz ph - p_filesz ph)) 0)) as (m'' & Hs' & Hp').
    { rewrite length_replicate. intros i Hi. apply elem_of_dom. rewrite Hdom. apply elem_of_dom.
      apply (mapped_mono _ _ _ (p + p_filesz ph) (Z.to_nat (p_memsz ph - p_filesz ph)) Hmap); lia. }
    exists m''. split; [done|]. split; [done|]. split; [|split].
    + unfold image. fold d. apply bytes_at_app. split.
      * apply bytes_at_patched in Hp. apply (bytes_at_ext m'); [done|]. intros x Hx.
        eapply patched_outside; [exact Hp'|]. lia.
      * rewrite Hld, Z2Nat.id by lia. by apply bytes_at_patched in Hp'.
    + rewrite <- Hdom. eapply patched_dom; [|exact Hp']. rewrite length_replicate. intros i Hi. apply elem_of_dom.
      rewrite Hdom. apply elem_of_dom. apply (mapped_mono _ _ _ (p + p_filesz ph) (Z.to_nat (p_memsz ph - p_filesz ph)) Hmap); lia.
    + intros x Hx. rewrite (patched_outside _ _ _ _ x Hp') by (rewrite length_replicate; lia).
      apply (patched_outside _ _ _ _ x Hp). lia.
  - exists m'. split; [done|]. split; [done|]. split; [|split; [done|]].
    + unfold image. fold d. replace (Z.to_nat (p_memsz ph - p_filesz ph)) with 0%nat by lia. rewrite app_nil_r.
      by apply bytes_at_patched in Hp.
    + intros x Hx. apply (patched_outside _ _ _ _ x Hp). lia.
Qed.

(** ** Loading the segments of a file *)
Section loading.

Context (heap_base : Z) (Hbase : base_ok heap_base) (buf : Z) (file : list Z).
Context (Hfile : Z.of_nat (length file) <= 4096) (Hbuf : 0 < buf /\ buf + 4096 < 2 ^ 64).
Context (Hapart : buf + 4096 <= heap_base \/ heap_base + HEAP_SIZE <= buf).

(** The heap is well formed and mapped, the buffer holds the file. *)
Record ready (s : elf) (segs : list seg) : Prop := {
  ready_heap : heap_inv heap_base (elf_heap s) segs;
  ready_mapped : mapped (elf_mem s) heap_base (Z.to_nat HEAP_SIZE);
  ready_file : bytes_at (elf_mem s) buf file
}.

(** What a step of the loader may do: allocate the [blocks], write only inside
    them, and leave the rest of the state. *)
Record extends (s : elf) (segs : list seg) (s' : elf) (segs' : list seg) (blocks : list (Z * Z)) : Prop := {
  ext_live : live heap_base segs' ≡ₚ blocks ++ live heap_base segs;
  ext_frame : forall x, (forall p sz, (p, sz) ∈ blocks -> x < p \/ p + sz <= x) -> elf_mem s' !! x = elf_mem s !! x;
  ext_symbols : GLOBAL_SYMBOLS s' = GLOBAL_SYMBOLS s;
  ext_libraries : LOADED_LIBRARIES s' = LOADED_LIBRARIES s
}.

Lemma extends_refl s segs : extends s segs s segs [].
Proof. by constructor. Qed.

Lemma extends_trans s1 g1 s2 g2 s3 g3 b1 b2 :
  extends s1 g1 s2 g2 b1 -> extends s2 g2 s3 g3 b2 -> extends s1 g1 s3 g3 (b1 ++ b2).
Proof.
  intros [L1 F1 S1 B1] [L2 F2 S2 B2]. constructor; [| |congruence|congruence].
  - rewrite L2, L1, !app_assoc. apply Permutation_app_tail, Permutation_app_comm.
  - intros x Hx. rewrite F2, F1; [done| |]; intros p sz Hp; apply (Hx p sz), elem_of_app; [by left|by right].
Qed.

Lemma live_in_heap s segs p sz :
  ready s segs -> (p, sz) ∈ live heap_base segs -> heap_base < p /\ p + sz <= heap_base + HEAP_SIZE /\ 0 <= sz.
Proof.
  intros [Hi _ _] Hp. apply live_bound in Hp; [|apply Hi]. rewrite (inv_span _ _ _ Hi) in Hp.
  unfold BLOCK_HEADER in Hp. lia.
Qed.

(** Blocks allocated later do not disturb the ones held before. *)
Lemma extends_keeps s segs s' segs' blocks p sz l :
  ready s' segs' -> extends s segs s' segs' blocks -> (p, sz) ∈ live heap_base segs ->
  NoDup (live heap_base segs') -> Z.of_nat (length l) <= sz ->
  bytes_at (elf_mem s) p l -> bytes_at (elf_mem s') p l.
Proof.
  intros Hr [Hl Hf _ _] Hp Hnd Hlen Hb. apply (bytes_at_ext (elf_mem s)); [done|]. intros x Hx. apply Hf.
  intros q t Hq. rewrite Hl in Hnd. apply NoDup_app in Hnd as (_ & Hd & _).
  destruct (live_sep heap_base segs' p sz q t) as [E|H].
  - apply Hr.
  - rewrite Hl. apply elem_of_app. by right.
  - rewrite Hl. apply elem_of_app. by left.
  - injection E as <- <-. by destruct (Hd _ Hq).
  - unfold BLOCK_HEADER in H. lia.
Qed.

(** [kmalloc] hands out a block of the heap or fails without effect. *)
Lemma kmalloc_ready s segs n :
  ready s segs -> 0 < n -> n + 15 < 2 ^ 64 ->
  exists p s', kmalloc n s = Ret (p, s') /\ elf_mem s' = elf_mem s /\
    ((p = 0 /\ (malloc_segs heap_base n segs).1 = 0 /\ ready s' segs /\ extends s segs s' segs []) \/
     (p <> 0 /\ exists segs' sz, n <= sz /\ ready s' segs' /\ extends s segs s' segs' [(p, sz)])).
Proof.
  intros Hr Hn Hn2. destruct (kmalloc_cases _ Hbase (elf_heap s) segs n) as (p & h' & Hk & Hc); [apply Hr|done|done|].
  unfold kmalloc. rewrite Hk. step_ret. eexists _, _. split; [reflexivity|]. split; [done|]. destruct Hr as [_ Hm Hf].
  destruct Hc as [(E & En & Hi)|(E & segs' & sz & Hsz & Hi & Hl)].
  - left. split; [done|]. split; [done|]. split; by constructor.
  - right. split; [done|]. exists segs', sz. split; [done|]. split; by constructor.
Qed.

(** The block of a segment holds its image. *)
Definition placed (m : mem) (ph : Elf64_Phdr) (b : Z * Z) : Prop :=
  p_memsz ph <= b.2 /\ bytes_at m b.1 (image file ph).

(** [load_segment] places the segment, or returns -9 with the state as it was. *)
Lemma load_segment_ready s segs ph :
  ready s segs -> segment_ok file ph ->
  exists code p s' segs' blocks, load_segment buf (Z.of_nat (length file)) ph s = Ret (code, p, s') /\
    ready s' segs' /\ extends s segs s' segs' blocks /\
    ((code = -9 /\ (malloc_segs heap_base (p_memsz ph) segs').1 = 0) \/ (code = 0 /\ exists b, blocks = [b] /\ placed (elf_mem s') ph b)).
Proof.
  intros Hr Hok. pose proof Hok as [Hoff Hf Hin Hfit Hm Hw]. unfold load_segment. rewrite wrap_small by lia.
  destruct (Z.ltb_spec (Z.of_nat (length file)) (p_offset ph + p_filesz ph)) as [|_]; [lia|].
  destruct (kmalloc_ready s segs (p_memsz ph) Hr) as (p & s1 & -> & Em & [(-> & Hnull & Hr1 & He)|(Hp & segs' & sz & Hsz & Hr1 & He)]);
    [lia|lia| |]; step_ret.
  { exists (-9), 0, s1, segs, []. split; [done|]. split; [done|]. split; [done|]. by left. }
  destruct (Z.eqb_spec p 0) as [|_]; [done|].
  assert ((p, sz) ∈ live heap_base segs') as Hin'.
  { rewrite (ext_live _ _ _ _ _ He). apply elem_of_app. left. by apply list_elem_of_singleton. }
  pose proof (live_in_heap _ _ _ _ Hr1 Hin') as Hb.
  destruct (fill_segment (elf_mem s1) buf p file ph) as (m' & m'' & Hc & Hz & Hi & Hd & Hfr).
  { apply Hr1. } { done. } { apply (mapped_mono _ _ _ _ _ (ready_mapped _ _ Hr1)); lia. }
  rewrite Hc. step_ret. rewrite Hz. step_ret. eexists _, _, _, segs', [(p, sz)]. split; [reflexivity|].
  split; [|split].
  - destruct Hr1 as [H1 H2 H3]. constructor; [done| |].
    + intros i Hlt. apply elem_of_dom. cbn [elf_mem with_mem]. rewrite Hd. by apply elem_of_dom, H2.
    + eapply bytes_at_frame; [exact H3|exact Hfr|]. lia.
  - destruct He as [L F S1 S2]. constructor; [done| |done|done]. intros x Hx. cbn [elf_mem with_mem].
    rewrite Hfr; [by apply F|]. specialize (Hx p sz). rewrite list_elem_of_singleton in Hx. specialize (Hx eq_refl). lia.
  - right. split; [done|]. by exists (p, sz).
Qed.

(** Later steps keep what is placed. *)
Lemma placed_keeps s segs s' segs' blocks ph b :
  ready s' segs' -> extends s segs s' segs' blocks -> b ∈ live heap_base segs -> segment_ok file ph ->
  placed (elf_mem s) ph b -> placed (elf_mem s') ph b.
Proof.
  intros Hr He Hb Hok [H1 H2]. split; [done|]. destruct b as [p sz].
  eapply extends_keeps; [exact Hr|exact He|exact Hb| | |exact H2].
  - eapply live_NoDup. apply Hr.
  - rewrite image_length by done. cbn [snd] in H1. pose proof (seg_mem _ _ Hok). lia.
Qed.

Context (phoff phentsize : Z) (Hoff : 0 <= phoff) (Hent : 0 <= phentsize).

(** Program header [i] of the file, and the loadable ones from [i] on. *)
Definition phdr_at (i : nat) : Elf64_Phdr :=
  decode_phdr (take 56 (drop (Z.to_nat (phoff + Z.of_nat i * phentsize)) file)).

Definition loadable (n i : nat) : list Elf64_Phdr :=
  filter (fun ph => p_type ph = PT_LOAD) (map phdr_at (seq i n)).

Definition header_in (i : nat) : Prop := phoff + Z.of_nat i * phentsize + 56 <= Z.of_nat (length file).

Definition header_ok (i : nat) : Prop :=
  header_in i /\
  (p_type (phdr_at i) = PT_LOAD -> segment_ok file (phdr_at i)).

Lemma load_phdr_ready m i :
  bytes_at m buf file -> header_in i -> load_phdr m (phdr_addr buf phoff phentsize i) = Ret (phdr_at i).
Proof.
  unfold header_in. intros Hb Hlen. unfold load_phdr, phdr_addr. rewrite wrap_small by nia.
  replace (buf + phoff + Z.of_nat i * phentsize) with (buf + Z.of_nat (Z.to_nat (phoff + Z.of_nat i * phentsize))) by nia.
  pose proof (load_bytes_ok m _ _ (bytes_at_sub m buf file (Z.to_nat (phoff + Z.of_nat i * phentsize)) 56 Hb ltac:(nia))) as L.
  rewrite length_take, length_drop in L. replace (_ `min` _)%nat with 56%nat in L by nia. by rewrite L.
Qed.

Lemma find_dynamic_none n i m :
  bytes_at m buf file -> (forall j, (i <= j < i + n)%nat -> header_in j /\ p_type (phdr_at j) <> PT_DYNAMIC) ->
  find_dynamic n i m buf phoff phentsize None = Ret None.
Proof.
  intros Hb. revert i. induction n as [|n IH]; intros i H; [done|]. cbn [find_dynamic].
  destruct (H i) as [Hi Hd]; [lia|]. rewrite load_phdr_ready by done. step_ret.
  destruct (Z.eqb_spec (p_type (phdr_at i)) PT_DYNAMIC); [done|]. apply IH. intros j Hj. apply H. lia.
Qed.

Lemma loadable_S n i :
  loadable (S n) i = (if p_type (phdr_at i) =? PT_LOAD then [phdr_at i] else []) ++ loadable n (S i).
Proof.
  unfold loadable. cbn [seq map]. rewrite filter_cons.
  destruct (Z.eqb_spec (p_type (phdr_at i)) PT_LOAD); by destruct (decide _).
Qed.

(** The second pass places every loadable segment in a block of its own. *)
Lemma load_segments_ready n i s segs :
  ready s segs -> (forall j, (i <= j < i + n)%nat -> header_ok j) ->
  exists code s' segs' blocks,
    load_segments n i buf phoff phentsize (Z.of_nat (length file)) s = Ret (code, s') /\
    ready s' segs' /\ extends s segs s' segs' blocks /\
    ((code = -9 /\ exists ph, ph ∈ loadable n i /\ (malloc_segs heap_base (p_memsz ph) segs').1 = 0) \/
     (code = 0 /\ Forall2 (placed (elf_mem s')) (loadable n i) blocks)).
Proof.
  revert i s segs. induction n as [|n IH]; intros i s segs Hr H.
  { exists 0, s, segs, []. split; [done|]. split; [done|]. split; [apply extends_refl|]. right. by split. }
  cbn [load_segments]. pose proof (H i ltac:(lia)) as Hi.
  rewrite load_phdr_ready by (apply Hr || apply Hi). step_ret. rewrite loadable_S.
  assert (forall j, (S i <= j < S i + n)%nat -> header_ok j) as H' by (intros j Hj; apply H; lia).
  destruct (Z.eqb_spec (p_type (phdr_at i)) PT_LOAD) as [Et|_]; [|by apply IH].
  destruct Hi as [_ Hok]. specialize (Hok Et).
  destruct (load_segment_ready s segs (phdr_at i) Hr Hok) as (c & p & s1 & g1 & b1 & -> & Hr1 & He1 & Hc). step_ret.
  destruct Hc as [[-> Hn]|[-> (b & -> & Hp)]].
  { exists (-9), s1, g1, b1. split; [done|]. split; [done|]. split; [done|]. left. split; [done|].
    exists (phdr_at i). split; [|done]. apply elem_of_app. left. by apply list_elem_of_singleton. }
  destruct (IH (S i) s1 g1 Hr1 H') as (c & s2 & g2 & b2 & -> & Hr2 & He2 & Hc).
  exists c, s2, g2, ([b] ++ b2). split; [done|]. split; [done|]. split; [by eapply extends_trans|].
  destruct Hc as [(-> & ph & Hph & Hn)|[-> Hc]].
  { left. split; [done|]. exists ph. split; [|done]. apply elem_of_app. by right. }
  right. split; [done|]. constructor; [|done].
  eapply placed_keeps; [exact Hr2|exact He2| |exact Hok|exact Hp].
  rewrite (ext_live _ _ _ _ _ He1). apply elem_of_app. left. by apply list_elem_of_singleton.
Qed.

Lemma load_segments_app n1 n2 i len s :
  load_segments (n1 + n2) i buf phoff phentsize len s =
    ('(code, s1) ← load_segments n1 i buf phoff phentsize len s;
     if code =? 0 then load_segments n2 (i + n1) buf phoff phentsize len s1 else Ret (code, s1)).
Proof.
  revert i s. induction n1 as [|n1 IH]; intros i s; cbn [Nat.add load_segments]; [step_ret; by rewrite Nat.add_0_r|].
  destruct (load_phdr _ _) as [ph| | |]; try done. step_ret. rewrite <- Nat.add_succ_comm.
  destruct (p_type ph =? PT_LOAD); [|apply IH]. destruct (load_segment _ _ _ _) as [[[code b] s1]| | |]; try done. step_ret.
  destruct (code =? 0) eqn:Ec; [apply IH|]. step_ret. by rewrite Ec.
Qed.

(** The first segment that is not in the file ends the second pass. *)
Lemma load_segments_outside n k s segs :
  ready s segs -> (k < n)%nat -> (forall j, (j < k)%nat -> header_ok j) -> header_in k -> p_type (phdr_at k) = PT_LOAD ->
  Z.of_nat (length file) < u64 (p_offset (phdr_at k) + p_filesz (phdr_at k)) ->
  exists code s' segs' blocks,
    load_segments n 0 buf phoff phentsize (Z.of_nat (length file)) s = Ret (code, s') /\
    ready s' segs' /\ extends s segs s' segs' blocks /\
    ((code = -9 /\ exists ph, ph ∈ loadable k 0 /\ (malloc_segs heap_base (p_memsz ph) segs').1 = 0) \/
     (code = -21 /\ Forall2 (placed (elf_mem s')) (loadable k 0) blocks)).
Proof.
  intros Hr Hk H Hin Ht Hout. replace n with (k + S (n - k - 1))%nat by lia. rewrite load_segments_app.
  destruct (load_segments_ready k 0 s segs Hr) as (code & s1 & segs1 & blocks & -> & Hr1 & He & Hc); [intros j Hj; apply H; lia|].
  step_ret. destruct Hc as [[-> Hno]|[-> Hp]]; [exists (-9), s1, segs1, blocks; split; [done|]; split; [done|]; split; [done|]; by left|].
  exists (-21), s1, segs1, blocks. cbn [Z.eqb load_segments]. change (0 + k)%nat with k.
  rewrite load_phdr_ready by (apply Hr1 || done). step_ret. rewrite Ht. cbn [Z.eqb PT_LOAD]. unfold load_segment. rewrite (proj2 (Z.ltb_lt _ _)) by done. step_ret.
  split; [done|]. split; [done|]. split; [done|]. by right.
Qed.

End loading.

(** ** Reading the file *)

(** The surroundings of a call: [path] holds the string [str], the local buffer
    and the heap array are mapped and apart from each other and from the string. *)
Record call_ok (heap_base buf path : Z) (str : list Z) (m : mem) : Prop := {
  call_base : base_ok heap_base;
  call_buf : 0 < buf /\ buf + 4096 < 2 ^ 64;
  call_apart : buf + 4096 <= heap_base \/ heap_base + HEAP_SIZE <= buf;
  call_buf_mapped : mapped m buf BUF_LEN;
  call_heap_mapped : mapped m heap_base (Z.to_nat HEAP_SIZE);
  call_path : cstr_at m path str;
  call_path_nz : path <> 0;
  call_path_apart : path + Z.of_nat (length str) < buf \/ buf + 4096 <= path
}.

Lemma cstr_at_frame m m' p s a n :
  cstr_at m p s -> (forall x, x < a \/ a + n <= x -> m' !! x = m !! x) ->
  p + Z.of_nat (length s) < a \/ a + n <= p -> cstr_at m' p s.
Proof.
  intros [H1 H2] Hf Hd. split; [done|]. eapply bytes_at_frame; [exact H2|exact Hf|].
  rewrite length_app. cbn [length]. lia.
Qed.

(** A buffer of [n] bytes is cleared, then receives at most [n] bytes of a
    regular file. *)
Lemma clear_and_read n buf path str m root :
  (0 < n)%nat -> Z.of_nat n < 2 ^ 31 -> 0 < buf -> mapped m buf n -> cstr_at m path str -> path <> 0 ->
  path + Z.of_nat (length str) < buf \/ buf + Z.of_nat n <= path -> tree_ok root ->
  exists m1 r m2, write_bytes m buf 0 n = Ret m1 /\
    rust_vfs_read m1 (Some root) path buf (Z.of_nat n) = Ret (r, m2) /\ dom m2 = dom m /\
    (forall x, x < buf \/ buf + Z.of_nat n <= x -> m2 !! x = m !! x) /\
    match view root (components str) with
    | Some (Regular, bs) => r = Z.of_nat (length (take n bs)) /\ bytes_at m2 buf (take n bs)
    | _ => r < 0
    end.
Proof.
  intros Hn Hn2 Hb Hm Hp Hp0 Hd Hroot.
  destruct (store_bytes_ok m buf (replicate n 0)) as (m1 & H1 & P1); [by rewrite length_replicate|].
  assert (dom m1 = dom m) as D1 by (eapply patched_dom; [|exact P1]; by rewrite length_replicate).
  assert (forall x, x < buf \/ buf + Z.of_nat n <= x -> m1 !! x = m !! x) as F1.
  { intros x Hx. apply (patched_outside _ _ _ _ x P1). by rewrite length_replicate. }
  assert (mapped m1 buf n) as M1.
  { intros i Hi. apply elem_of_dom. rewrite D1. by apply elem_of_dom, Hm. }
  pose proof (read_file_spec m1 path str (cstr_at_frame _ _ _ _ _ _ Hp F1 Hd) Hp0 root buf (Z.of_nat n)
                ltac:(lia) ltac:(lia)) as R.
  exists m1. unfold write_bytes. rewrite Nat2Z.id in *. unfold rust_vfs_read.
  destruct (view root (components str)) as [[[] bs]|].
  - destruct R as (m2 & R & P2); [intros t l _ _; apply (mapped_mono _ _ _ _ _ M1); lia|].
    exists (Z.min (Z.of_nat (length bs)) (Z.of_nat n)), m2. split; [done|]. split; [done|]. split; [|split; [|split]].
    + rewrite <- D1. eapply patched_dom; [|exact P2]. rewrite length_take. apply (mapped_mono _ _ _ _ _ M1); lia.
    + intros x Hx. rewrite <- F1 by done. apply (patched_outside _ _ _ _ x P2). rewrite length_take. lia.
    + rewrite length_take. lia.
    + by apply bytes_at_patched in P2.
  - exists (-21), m1. split; [done|]. split; [apply R; congruence|]. split; [done|]. by split.
  - exists (-2), m1. split; [done|]. split; [apply R; congruence|]. split; [done|]. by split.
Qed.

Lemma read_image heap_base buf path str m root :
  call_ok heap_base buf path str m -> tree_ok root ->
  exists m1 r m2, write_bytes m buf 0 BUF_LEN = Ret m1 /\
    rust_vfs_read m1 (Some root) path buf 4096 = Ret (r, m2) /\ dom m2 = dom m /\
    (forall x, x < buf \/ buf + 4096 <= x -> m2 !! x = m !! x) /\
    match view root (components str) with
    | Some (Regular, bs) => r = Z.of_nat (length (take BUF_LEN bs)) /\ bytes_at m2 buf (take BUF_LEN bs)
    | _ => r < 0
    end.
Proof.
  intros [_ Hb _ Hm _ Hp Hp0 Hd] Hroot.
  pose proof BUF_LEN_Z as E. rewrite <- E in Hd |- *.
  apply clear_and_read; try assumption; lia.
Qed.

Lemma le_word_bound l : Forall is_u8 l -> 0 <= le_word l.
Proof. induction 1 as [|x l Hx _ IH]; cbn; [lia|]. unfold is_u8 in Hx. lia. Qed.

Lemma field_bound b o n : Forall is_u8 b -> 0 <= field b o n.
Proof. intros H. by apply le_word_bound, Forall_take, Forall_drop. Qed.

(** The header that the first 64 bytes spell. *)
Definition ehdr_of (file : list Z) : Elf64_Ehdr := decode_ehdr (take 64 file).

Lemma load_ehdr_of m buf file :
  bytes_at m buf file -> (64 <= length file)%nat -> load_ehdr m buf = Ret (ehdr_of file).
Proof.
  intros H Hl. unfold load_ehdr. pose proof (load_bytes_ok m _ _ (bytes_at_sub m buf file 0 64 H Hl)) as L.
  rewrite drop_0, Z.add_0_r, length_take, Nat.min_l in L by done. by rewrite L.
Qed.

Lemma take_BUF_LEN (l : list Z) : Z.of_nat (length (take BUF_LEN l)) <= 4096.
Proof. rewrite length_take. pose proof BUF_LEN_Z. lia. Qed.

(** The file the loader sees: the first 4096 bytes, with a program header table
    that lies inside them, loadable segments that fit, and no dynamic section. *)
Record static_image (file : list Z) : Prop := {
  img_bytes : Forall is_u8 file;
  img_len : 64 <= Z.of_nat (length file);
  img_valid : check_header (ehdr_of file) = 0;
  img_table : e_phoff (ehdr_of file) + e_phnum (ehdr_of file) * e_phentsize (ehdr_of file) <= Z.of_nat (length file);
  img_headers : forall i, (i < Z.to_nat (e_phnum (ehdr_of file)))%nat ->
    header_ok file (e_phoff (ehdr_of file)) (e_phentsize (ehdr_of file)) i /\
    p_type (phdr_at file (e_phoff (ehdr_of file)) (e_phentsize (ehdr_of file)) i) <> PT_DYNAMIC
}.

(** The PT_LOAD headers of a file. *)
Definition loads (file : list Z) : list Elf64_Phdr :=
  loadable file (e_phoff (ehdr_of file)) (e_phentsize (ehdr_of file)) (Z.to_nat (e_phnum (ehdr_of file))) 0.

(** ** A file to load: one segment of four bytes in the file and ten in memory. *)
Definition demo_file : list Z :=
  [127; 69; 76; 70; 2; 1; 1; 0] ++ replicate 8 0 ++ le_bytes 2 2 ++ le_bytes 2 62 ++ le_bytes 4 1 ++
  le_bytes 8 0x400000 ++ le_bytes 8 64 ++ le_bytes 8 0 ++ le_bytes 4 0 ++ le_bytes 2 64 ++ le_bytes 2 56 ++
  le_bytes 2 1 ++ le_bytes 2 0 ++ le_bytes 2 0 ++ le_bytes 2 0 ++
  le_bytes 4 1 ++ le_bytes 4 5 ++ le_bytes 8 120 ++ le_bytes 8 0x400000 ++ le_bytes 8 0x400000 ++
  le_bytes 8 4 ++ le_bytes 8 10 ++ le_bytes 8 4096 ++ [104; 105; 33; 10].

(** The heap array at 4096 and the local buffer behind it. *)
Definition demo_elf_mem : mem := demo_mem ∪ blank 4096 (Z.to_nat (HEAP_SIZE + 4096)).

Definition demo_elf : elf := mkElf demo_elf_mem (init_heap 4096) [] [].

Lemma demo_call_ok : call_ok 4096 (4096 + HEAP_SIZE) 100 (bytes "/etc") demo_elf_mem.
Proof.
  pose proof BUF_LEN_Z. assert (0 < HEAP_SIZE < 2 ^ 32) by done.
  constructor; [exact base_ok_4096|lia|lia| | | |lia|vm_compute; by left].
  - eapply mapped_mono; [apply blank_mapped|lia|lia].
  - eapply mapped_mono; [apply blank_mapped|lia|lia].
  - assert (cstr_at demo_mem 100 (bytes "/etc")) as [H1 H2] by (apply read_cstr_inv; vm_compute; reflexivity).
    split; [exact H1|]. by apply bytes_at_blank.
Qed.

Lemma take_short (l : list Z) : Z.of_nat (length l) <= 4096 -> take BUF_LEN l = l.
Proof. intros H. pose proof BUF_LEN_Z. apply take_ge. lia. Qed.

Lemma demo_file_ok : static_image demo_file.
Proof.
  constructor.
  - apply (Forall_impl (fun z => (0 <=? z) && (z <? 256) = true)); [|intros z Hz; unfold is_u8; lia].
    apply Forall_forall. intros z Hz. apply list_elem_of_In in Hz. revert z Hz. apply forallb_forall.
    vm_compute. reflexivity.
  - vm_compute. discriminate.
  - vm_compute. reflexivity.
  - vm_compute. discriminate.
  - intros i Hi. change (Z.to_nat _) with 1%nat in Hi. assert (i = 0%nat) as -> by lia.
    split; [split; [vm_compute; discriminate|intros _; by constructor]|vm_compute; discriminate].
Qed.

(** ** Which files are refused

    The checks on the bytes of the file in the order of the loader, each with its
    code; words are little endian. *)
Definition elf_verdict (file : list Z) (new_pml4 : Z) : option Z :=
  let word o n := le_word (take n (drop o file)) in
  if Z.of_nat (length file) <? 64 then Some (-1)
  else if negb (bool_decide (take 4 file = [0x7F; 69; 76; 70])) then Some (-2)
  else if negb (word 4%nat 1%nat =? 2) then Some (-3)
  else if negb (word 5%nat 1%nat =? 1) then Some (-4)
  else if negb (word 6%nat 1%nat =? 1) then Some (-5)
  else if negb ((word 16%nat 2%nat =? 2) || (word 16%nat 2%nat =? 3)) then Some (-6)
  else if negb (word 18%nat 2%nat =? 62) then Some (-7)
  else if Z.of_nat (length file) <? (word 32%nat 8%nat + word 56%nat 2%nat * word 54%nat 2%nat) mod 2 ^ 64 then Some (-8)
  else if new_pml4 =? 0 then Some (-11)
  else None.

Lemma field_take o n k l : (o + n <= k)%nat -> field (take k l) o n = field l o n.
Proof. intros H. unfold field. rewrite !take_drop_commute, take_take. do 3 f_equal. lia. Qed.

Lemma ident_byte i l : (i < 16)%nat -> default 0 (take 16 (take 64 l) !! i) = field l i 1.
Proof.
  intros H. rewrite take_take, lookup_take_lt by lia. unfold field. rewrite <- (Nat.add_0_r i) at 1. rewrite <- lookup_drop.
  destruct (drop i l) as [|x r]; [done|]. rewrite firstn_cons, take_0. cbn -[Z.mul]. unfold id. lia.
Qed.

(** The header that fails a check has the code of that check. *)
Lemma check_header_verdict file new_pml4 :
  64 <= Z.of_nat (length file) ->
  elf_verdict file new_pml4 =
    (if negb (check_header (ehdr_of file) =? 0) then Some (check_header (ehdr_of file))
     else if Z.of_nat (length file) <? u64 (e_phoff (ehdr_of file) + e_phnum (ehdr_of file) * e_phentsize (ehdr_of file)) then Some (-8)
     else if new_pml4 =? 0 then Some (-11) else None).
Proof.
  intros Hl. unfold elf_verdict. rewrite (proj2 (Z.ltb_ge _ 64)) by done.
  repeat change (le_word (take ?n (drop ?o file))) with (field file o n).
  unfold check_header, ehdr_of, decode_ehdr, ELFMAG, ELFCLASS64, ELFDATA2LSB, EV_CURRENT, ET_EXEC, ET_DYN, EM_X86_64.
  cbn [e_ident e_type e_machine e_phoff e_phnum e_phentsize].
  rewrite !ident_byte, !field_take, !take_take by lia. cbn [Nat.min]. rewrite <- negb_orb.
  destruct (bool_decide _); [cbn [negb]|done]. do 5 (destruct (_ =? _); [cbn [negb orb]|]; try done).
  all: try (destruct (field file 16 2 =? 3); [cbn [negb orb]|done]; destruct (field file 18 2 =? 62); done).
  all: destruct (field file 18 2 =? 62); done.
Qed.



Lemma ehdr_bounds file : Forall is_u8 file ->
  0 <= e_phoff (ehdr_of file) /\ 0 <= e_phnum (ehdr_of file) /\ 0 <= e_phentsize (ehdr_of file).
Proof.
  intros Hu8. pose proof (Forall_take is_u8 64 _ Hu8) as Hu.
  split; [by apply field_bound|]. split; by apply field_bound.
Qed.

Lemma static_fields file : static_image file ->
  0 <= e_phoff (ehdr_of file) /\ 0 <= e_phnum (ehdr_of file) /\ 0 <= e_phentsize (ehdr_of file).
Proof. intros [Hu8 _ _ _ _]. by apply ehdr_bounds. Qed.

(** A file that passes the checks, with readable program headers none of which is a
    dynamic section: the second pass runs on the file's bytes, then the stack is
    allocated. *)
Lemma elf_load_checked heap_base buf path str s root new_pml4 segs bs :
  let file := take BUF_LEN bs in
  let e := ehdr_of file in
  call_ok heap_base buf path str (elf_mem s) -> tree_ok root ->
  view root (components str) = Some (Regular, bs) -> Forall is_u8 file -> elf_verdict file new_pml4 = None ->
  (forall i, (i < Z.to_nat (e_phnum e))%nat ->
     header_in file (e_phoff e) (e_phentsize e) i /\ p_type (phdr_at file (e_phoff e) (e_phentsize e) i) <> PT_DYNAMIC) ->
  heap_inv heap_base (elf_heap s) segs ->
  exists m2, ready heap_base buf file (with_mem m2 s) segs /\
    (forall x, x < buf \/ buf + 4096 <= x -> m2 !! x = elf_mem s !! x) /\
    rust_elf_load (Some root) buf new_pml4 path s =
    ('(code, s) ← load_segments (Z.to_nat (e_phnum e)) 0 buf (e_phoff e) (e_phentsize e) (Z.of_nat (length file)) (with_mem m2 s);
     if negb (code =? 0) then Ret (code, s)
     else '(user_stack, s) ← kmalloc 0x8000 s; if user_stack =? 0 then Ret (-10, s) else Ret (0, s)).
Proof.
  intros file e Hc Hroot Hv Hu8 Hver Hph Hinv. destruct (ehdr_bounds _ Hu8) as (Ho & Hn & He). fold e in Ho, Hn, He.
  assert (64 <= Z.of_nat (length file)) as H64.
  { unfold elf_verdict in Hver. destruct (Z.ltb_spec (Z.of_nat (length file)) 64); [done|lia]. }
  rewrite check_header_verdict in Hver by done. fold e in Hver.
  destruct (Z.eqb_spec (check_header e) 0) as [Hok|]; cbn [negb] in Hver; [|done].
  destruct (_ <? u64 _) eqn:Htab; [done|]. destruct (Z.eqb_spec new_pml4 0) as [|Hpml]; [done|].
  destruct (read_image _ _ _ _ _ _ Hc Hroot) as (m1 & r & m2 & Hw & Hr & Hdom & Hf & Hb). rewrite Hv in Hb.
  destruct Hb as [-> Hb]. pose proof (take_BUF_LEN bs) as Hl. fold file in Hr, Hb, Hl.
  exists m2. split.
  { constructor; [done| |done]. intros i Hi. apply elem_of_dom. cbn [elf_mem with_mem]. rewrite Hdom.
    by apply elem_of_dom, Hc. }
  split; [done|]. unfold rust_elf_load. rewrite Hw. step_ret. rewrite Hr. step_ret.
  rewrite (proj2 (Z.ltb_ge _ 64)), (proj2 (Z.ltb_ge 4096 _)) by lia.
  rewrite (load_ehdr_of _ _ _ Hb) by lia. step_ret. fold e. rewrite Hok. cbn [negb Z.eqb].
  rewrite Htab, (proj2 (Z.eqb_neq new_pml4 0)) by done.
  rewrite (find_dynamic_none buf file Hl (call_buf _ _ _ _ _ Hc) _ _ Ho He _ 0 m2 Hb) by (intros j Hj; apply Hph; lia).
  done.
Qed.

(** A valid static file passes the checks. *)
Lemma static_verdict file new_pml4 : static_image file -> new_pml4 <> 0 -> Z.of_nat (length file) < 2 ^ 64 -> elf_verdict file new_pml4 = None.
Proof.
  intros Himg Hp Hl. destruct (static_fields _ Himg) as (Ho & Hn & He). destruct Himg as [_ H64 Hok Htab _].
  rewrite check_header_verdict by done. rewrite Hok. cbn [Z.eqb negb]. rewrite wrap_small by nia.
  rewrite (proj2 (Z.ltb_ge _ (_ + _))), (proj2 (Z.eqb_neq new_pml4 0)) by lia. done.
Qed.

Lemma elf_load_static heap_base buf path str s root new_pml4 segs bs :
  let file := take BUF_LEN bs in
  call_ok heap_base buf path str (elf_mem s) -> tree_ok root ->
  view root (components str) = Some (Regular, bs) -> static_image file ->
  new_pml4 <> 0 -> heap_inv heap_base (elf_heap s) segs ->
  exists m2, ready heap_base buf file (with_mem m2 s) segs /\
    (forall x, x < buf \/ buf + 4096 <= x -> m2 !! x = elf_mem s !! x) /\
    rust_elf_load (Some root) buf new_pml4 path s =
    ('(code, s) ← load_segments (Z.to_nat (e_phnum (ehdr_of file))) 0 buf (e_phoff (ehdr_of file))
                    (e_phentsize (ehdr_of file)) (Z.of_nat (length file)) (with_mem m2 s);
     if negb (code =? 0) then Ret (code, s)
     else '(user_stack, s) ← kmalloc 0x8000 s; if user_stack =? 0 then Ret (-10, s) else Ret (0, s)).
Proof.
  intros file Hc Hroot Hv Himg Hpml Hinv. eapply elf_load_checked; [exact Hc|done|done|apply Himg| | |done].
  - apply static_verdict; [done|done|]. pose proof (take_BUF_LEN bs). unfold file. lia.
  - intros i Hi. destruct (img_headers _ Himg i Hi) as [[H1 _] H2]. by split.
Qed.

(** C10. [rust_elf_load] on a valid file without a dynamic section: it returns,
    and a result of 0 means that every PT_LOAD segment has a heap block of its own
    holding the segment's bytes from the file followed by zeros up to its memory
    size, with 32 KiB more for the stack. The failures -9 and -10 occur only when
    the heap has no room for a segment or for the stack. In every case the blocks
    are the only new allocations, and no memory changes outside them and the local
    buffer. *)
Theorem rust_elf_load_places heap_base buf path str s root new_pml4 segs bs :
  call_ok heap_base buf path str (elf_mem s) -> tree_ok root ->
  view root (components str) = Some (Regular, bs) -> static_image (take BUF_LEN bs) ->
  new_pml4 <> 0 -> heap_inv heap_base (elf_heap s) segs ->
  exists code s' segs' blocks,
    rust_elf_load (Some root) buf new_pml4 path s = Ret (code, s') /\
    heap_inv heap_base (elf_heap s') segs' /\
    live heap_base segs' ≡ₚ blocks ++ live heap_base segs /\
    (forall x, x < buf \/ buf + 4096 <= x -> (forall p sz, (p, sz) ∈ blocks -> x < p \/ p + sz <= x) ->
       elf_mem s' !! x = elf_mem s !! x) /\
    ((code = 0 /\ exists seg_blocks stack, blocks = seg_blocks ++ [stack] /\ 0x8000 <= stack.2 /\
        Forall2 (placed (take BUF_LEN bs) (elf_mem s')) (loads (take BUF_LEN bs)) seg_blocks) \/
     (code = -9 /\ exists ph, ph ∈ loads (take BUF_LEN bs) /\ (malloc_segs heap_base (p_memsz ph) segs').1 = 0) \/
     (code = -10 /\ (malloc_segs heap_base 0x8000 segs').1 = 0)).
Proof.
  intros Hc Hroot Hv Himg Hpml Hinv. destruct (static_fields _ Himg) as (Ho & Hn & He).
  destruct (elf_load_static _ _ _ _ _ _ _ _ _ Hc Hroot Hv Himg Hpml Hinv) as (m2 & Hready & Hf & ->).
  pose proof (take_BUF_LEN bs) as Hl. pose proof (call_base _ _ _ _ _ Hc) as Hbase.
  destruct (load_segments_ready heap_base Hbase buf _ Hl (call_buf _ _ _ _ _ Hc) (call_apart _ _ _ _ _ Hc) _ _ Ho He
    (Z.to_nat (e_phnum (ehdr_of (take BUF_LEN bs)))) 0 _ _ Hready) as (code & s1 & g1 & b1 & -> & Hr1 & He1 & Hcode).
  { intros j Hj. apply (img_headers _ Himg). lia. }
  step_ret. destruct Hcode as [(-> & ph & Hin & Hnull)|(-> & Hpl)].
  { exists (-9), s1, g1, b1. destruct He1 as [L F _ _]. split; [done|]. split; [apply Hr1|]. split; [done|]. split.
    - intros x Hx Hx2. rewrite F by done. by apply Hf.
    - right; left. split; [done|]. by exists ph. }
  cbn [negb Z.eqb]. step_ret.
  destruct (kmalloc_ready heap_base Hbase buf _ s1 g1 0x8000 Hr1)
    as (p & s2 & -> & Em & [(-> & Hnull & Hr2 & He2)|(Hp & g2 & sz & Hsz & Hr2 & He2)]); [lia|lia| |]; step_ret.
  - exists (-10), s2, g1, b1. split; [done|]. destruct He1 as [L F _ _]. split; [apply Hr2|]. split; [done|]. split.
    + intros x Hx Hx2. rewrite Em, F by done. by apply Hf.
    + by right; right.
  - destruct (Z.eqb_spec p 0) as [|_]; [done|]. exists 0, s2, g2, (b1 ++ [(p, sz)]).
    assert (extends heap_base (with_mem m2 s) segs s2 g2 (b1 ++ [(p, sz)])) as [L F _ _] by (eapply extends_trans; eassumption).
    split; [done|]. split; [apply Hr2|]. split; [done|]. split.
    + intros x Hx Hx2. rewrite F by done. by apply Hf.
    + left. split; [done|]. exists b1, (p, sz). rewrite Em. by split.
Qed.

Lemma rust_elf_load_places_witness :
  exists code s' segs', rust_elf_load (Some (demo_root demo_file)) (4096 + HEAP_SIZE) 1 100 demo_elf = Ret (code, s') /\
    heap_inv 4096 (elf_heap s') segs' /\ (code = 0 \/ code = -9 \/ code = -10).
Proof.
  pose proof (rust_elf_load_places 4096 (4096 + HEAP_SIZE) 100 (bytes "/etc") demo_elf
    (demo_root demo_file) 1 [(HEAP_SIZE - BLOCK_HEADER, true)] demo_file demo_call_ok (demo_root_ok _)) as H.
  rewrite take_short in H by (vm_compute; discriminate).
  destruct H as (code & s' & segs' & blocks & H1 & H2 & _ & _ & H3);
    [reflexivity|exact demo_file_ok|lia|apply init_heap_inv; exact base_ok_4096|].
  exists code, s', segs'. split; [exact H1|]. split; [exact H2|].
  destruct H3 as [[H3 _]|[[H3 _]|[H3 _]]]; [left|right; left|right; right]; exact H3.
Defined.

(** [rust_elf_load] refuses a segment that is not in the file. The file passes the
    checks, its program headers lie in it and none is a dynamic section; header
    [k] is the first PT_LOAD header whose contents are not within the bytes read, in
    64-bit arithmetic. Then the code is -21, unless the heap has no room for an
    earlier segment and it is -9. The segments before it have been placed, each in a
    block of its own: these blocks stay allocated, there are no others, and no
    memory changes outside them and the local buffer. *)
Theorem rust_elf_load_out_of_file heap_base buf path str s root new_pml4 segs bs k :
  let file := take BUF_LEN bs in
  let phdr := phdr_at file (e_phoff (ehdr_of file)) (e_phentsize (ehdr_of file)) in
  let phnum := Z.to_nat (e_phnum (ehdr_of file)) in
  call_ok heap_base buf path str (elf_mem s) -> tree_ok root ->
  view root (components str) = Some (Regular, bs) -> Forall is_u8 file -> elf_verdict file new_pml4 = None ->
  heap_inv heap_base (elf_heap s) segs ->
  (forall i, (i < phnum)%nat -> header_in file (e_phoff (ehdr_of file)) (e_phentsize (ehdr_of file)) i /\ p_type (phdr i) <> 2) ->
  (k < phnum)%nat -> (forall i, (i < k)%nat -> p_type (phdr i) = 1 -> segment_ok file (phdr i)) ->
  p_type (phdr k) = 1 -> Z.of_nat (length file) < (p_offset (phdr k) + p_filesz (phdr k)) mod 2 ^ 64 ->
  let earlier := filter (fun ph => p_type ph = 1) (phdr <$> seq 0 k) in
  exists code s' segs' blocks,
    rust_elf_load (Some root) buf new_pml4 path s = Ret (code, s') /\
    heap_inv heap_base (elf_heap s') segs' /\
    live heap_base segs' ≡ₚ blocks ++ live heap_base segs /\
    (forall x, x < buf \/ buf + 4096 <= x -> (forall p sz, (p, sz) ∈ blocks -> x < p \/ p + sz <= x) ->
       elf_mem s' !! x = elf_mem s !! x) /\
    ((code = -21 /\ Forall2 (placed file (elf_mem s')) earlier blocks) \/
     (code = -9 /\ exists ph, ph ∈ earlier /\ (malloc_segs heap_base (p_memsz ph) segs').1 = 0)).
Proof.
  intros file phdr phnum Hc Hroot Hv Hu8 Hver Hinv Hph Hk Hok Ht Hout earlier. destruct (ehdr_bounds _ Hu8) as (Ho & _ & He).
  destruct (elf_load_checked _ _ _ _ _ _ _ _ _ Hc Hroot Hv Hu8 Hver Hph Hinv) as (m2 & Hready & Hf & ->).
  destruct (load_segments_outside heap_base (call_base _ _ _ _ _ Hc) buf file (take_BUF_LEN bs) (call_buf _ _ _ _ _ Hc) (call_apart _ _ _ _ _ Hc)
    _ _ Ho He phnum k (with_mem m2 s) segs Hready Hk) as (code & s1 & g1 & b1 & E & Hr1 & [L F _ _] & Hcode); [|apply Hph, Hk|exact Ht|exact Hout|].
  { intros j Hj. split; [apply Hph; lia|by apply Hok]. }
  fold file phnum. rewrite E. step_ret. exists code, s1, g1, b1. split; [by destruct Hcode as [[-> _]|[-> _]]|].
  split; [apply Hr1|]. split; [done|]. split; [intros x Hx Hx2; rewrite F by done; by apply Hf|].
  destruct Hcode as [[-> Hno]|[-> Hp]]; [by right|by left].
Qed.

(** The file with a segment of 400 bytes. *)
Definition demo_overlong : list Z := <[96%nat := 144]> (<[97%nat := 1]> demo_file).

Lemma rust_elf_load_out_of_file_witness :
  exists s', rust_elf_load (Some (demo_root demo_overlong)) (4096 + HEAP_SIZE) 1 100 demo_elf = Ret (-21, s').
Proof.
  pose proof (rust_elf_load_out_of_file 4096 (4096 + HEAP_SIZE) 100 (bytes "/etc") demo_elf
    (demo_root demo_overlong) 1 [(HEAP_SIZE - BLOCK_HEADER, true)] demo_overlong 0 demo_call_ok (demo_root_ok _) eq_refl) as H.
  rewrite take_short in H by (vm_compute; discriminate). cbv zeta in H.
  destruct H as (code & s' & segs' & blocks & H1 & _ & _ & _ & H2).
  - apply (Forall_impl (fun z => (0 <=? z) && (z <? 256) = true)); [|intros z Hz; unfold is_u8; lia].
    apply Forall_forall. intros z Hz. apply list_elem_of_In in Hz. revert z Hz. apply forallb_forall. vm_compute. reflexivity.
  - vm_compute. reflexivity.
  - apply init_heap_inv; exact base_ok_4096.
  - intros i Hi. change (Z.to_nat _) with 1%nat in Hi. assert (i = 0%nat) as -> by lia. split; vm_compute; discriminate.
  - apply Nat.lt_0_1.
  - intros i Hi. lia.
  - vm_compute. reflexivity.
  - vm_compute. reflexivity.
  - exists s'. destruct H2 as [[-> _]|(_ & ph & Hph & _)]; [exact H1|]. apply list_elem_of_In in Hph. destruct Hph.
Defined.

(** The dynamic-linking loops, which the code ends only at a terminating
    entry, always end: reading the dynamic section, collecting the needed
    libraries, resolving a symbol and applying relocations each end in a result or
    in a fault on an unmapped address, whatever the tables hold. *)
Lemma dynamic_linking_ends :
  (forall m dyn base, process_dynamic_section m dyn base <> Timeout) /\
  (forall m buf len dyn, scan_needed m buf len dyn <> Timeout) /\
  (forall n s, resolve_symbol n s <> Timeout) /\
  (forall ctx s, apply_relocations ctx s <> Timeout).
Proof.
  split; [|split; [|split; [exact resolve_symbol_ends|exact apply_relocations_ends]]].
  - intros m dyn base H. apply dynamic_loop_fuel, mapped_size in H. lia.
  - intros m buf len [ph|]; cbn [scan_needed]; [|discriminate]. destruct (_ <=? _); [|discriminate].
    intros H. apply needed_loop_fuel, mapped_size in H. lia.
Qed.

(** The symbol table: after [rust_elf_add_symbol] a name resolves to the
    address it was given, in place of any earlier one, and every other name
    resolves as before; a name found in a library is entered in the table, so that
    resolving it again gives the same address without a change of state. *)
Theorem symbols_resolve p n a s :
  cstr_at (elf_mem s) p n -> bt_wf (GLOBAL_SYMBOLS s) ->
  exists s', rust_elf_add_symbol p a s = Ret s' /\ bt_wf (GLOBAL_SYMBOLS s') /\
    (forall q, cstr_at (elf_mem s) q n -> rust_elf_resolve_symbol q s' = Ret (a, s')) /\
    (forall q n', cstr_at (elf_mem s) q n' -> n' <> n ->
       (r ← rust_elf_resolve_symbol q s'; Ret r.1) = (r ← rust_elf_resolve_symbol q s; Ret r.1)) /\
    (forall n' b s1, resolve_symbol n' s = Ret (Some b, s1) ->
       bt_wf (GLOBAL_SYMBOLS s1) /\ resolve_symbol n' s1 = Ret (Some b, s1)).
Proof.
  intros Hp Hwf. unfold rust_elf_add_symbol. rewrite (read_cstr_ok _ _ _ Hp). step_ret.
  eexists. split; [reflexivity|]. split; [by apply bt_insert_wf|]. split; [|split].
  - intros q Hq. unfold rust_elf_resolve_symbol. cbn [elf_mem with_symbols]. rewrite (read_cstr_ok _ _ _ Hq). step_ret.
    unfold resolve_symbol. cbn [GLOBAL_SYMBOLS with_symbols]. by rewrite bt_get_insert_eq.
  - intros q n' Hq Hne. unfold rust_elf_resolve_symbol. cbn [elf_mem with_symbols]. rewrite (read_cstr_ok _ _ _ Hq). step_ret.
    unfold resolve_symbol. cbn [GLOBAL_SYMBOLS LOADED_LIBRARIES elf_mem with_symbols]. rewrite bt_get_insert_ne by done.
    destruct (bt_get n' _); [done|]. by destruct (search_libraries _ _ _) as [[]| | |].
  - intros n' b s1 H. unfold resolve_symbol in H. destruct (bt_get n' (GLOBAL_SYMBOLS s)) as [c|] eqn:E.
    { apply Ret_inj in H. injection H as <- <-. split; [done|]. unfold resolve_symbol. by rewrite E. }
    destruct (search_libraries _ _ _) as [[c|]| | |]; [|discriminate..]. step_ret.
    apply Ret_inj in H. injection H as <- <-. split; [by apply bt_insert_wf|].
    unfold resolve_symbol. cbn [GLOBAL_SYMBOLS with_symbols]. by rewrite bt_get_insert_eq.
Qed.

Lemma symbols_resolve_witness :
  exists s', rust_elf_add_symbol 100 0x5000 (mkElf demo_mem (init_heap 4096) [] []) = Ret s' /\
    rust_elf_resolve_symbol 100 s' = Ret (0x5000, s').
Proof.
  assert (cstr_at demo_mem 100 (bytes "/etc")) as Hc by (apply read_cstr_inv; vm_compute; reflexivity).
  destruct (symbols_resolve 100 (bytes "/etc") 0x5000 (mkElf demo_mem (init_heap 4096) [] []) Hc) as (s' & H1 & _ & H2 & _);
    [constructor|].
  exists s'. split; [exact H1|]. exact (H2 100 Hc).
Defined.

(** A PT_LOAD header whose file size exceeds its memory size is accepted as
    long as its bytes lie in the file: the block is allocated for the memory size,
    yet all the file bytes are copied, so those past the memory size land behind
    the block, on the next header or allocation of the heap. *)
Theorem oversized_segment_overruns heap_base buf file s segs ph p s1 :
  ready heap_base buf file s segs -> buf + Z.of_nat (length file) <= heap_base \/ heap_base + HEAP_SIZE <= buf ->
  0 <= p_offset ph -> 0 < p_memsz ph < p_filesz ph -> p_offset ph + p_filesz ph <= Z.of_nat (length file) ->
  Z.of_nat (length file) <= 4096 ->
  kmalloc (p_memsz ph) s = Ret (p, s1) -> p <> 0 ->
  heap_base <= p /\ p + p_filesz ph <= heap_base + HEAP_SIZE ->
  exists s', load_segment buf (Z.of_nat (length file)) ph s = Ret (0, p, s') /\ elf_heap s' = elf_heap s1 /\
    forall i x, file !! (Z.to_nat (p_offset ph) + i)%nat = Some x -> p_memsz ph <= Z.of_nat i < p_filesz ph ->
      elf_mem s' !! (p + Z.of_nat i) = Some x.
Proof.
  intros [_ Hmap Hf] Hapart Ho Hm Hin Hl Hk Hp Hr. unfold load_segment. rewrite wrap_small by lia.
  rewrite (proj2 (Z.ltb_ge _ (p_offset ph + _))), Hk by lia. step_ret. rewrite (proj2 (Z.eqb_neq p 0)) by done.
  assert (elf_mem s1 = elf_mem s) as ->.
  { unfold kmalloc in Hk. destruct (rust_kmalloc _ _) as [[q h]| | |]; [|discriminate..].
    apply Ret_inj in Hk. injection Hk as <- <-. done. }
  assert (Z.of_nat (Z.to_nat (p_offset ph)) = p_offset ph) as Eo by lia.
  pose proof (load_bytes_ok _ _ _ (bytes_at_sub (elf_mem s) buf file (Z.to_nat (p_offset ph)) (Z.to_nat (p_filesz ph)) Hf
    ltac:(lia))) as L.
  rewrite length_take, length_drop, Nat.min_l, Eo in L by lia. unfold copy_nonoverlapping. rewrite L. step_ret.
  destruct (store_bytes_ok (elf_mem s) p (take (Z.to_nat (p_filesz ph)) (drop (Z.to_nat (p_offset ph)) file)))
    as (m' & -> & Hpt); [rewrite length_take; apply (mapped_mono _ _ _ _ _ Hmap); lia|].
  step_ret. rewrite (proj2 (Z.ltb_ge (p_filesz ph) _)) by lia. step_ret. eexists. split; [reflexivity|]. split; [done|].
  intros i x Hi Hlt. apply bytes_at_patched in Hpt. apply Hpt. rewrite lookup_take_lt, lookup_drop by lia. done.
Qed.

(** The same file with 40 bytes in the file for the ten in memory. *)
Definition demo_phdr : Elf64_Phdr := mkPhdr PT_LOAD 5 80 0x400000 0x400000 40 10 4096.

Definition demo_loading : elf :=
  mkElf (poke (4096 + HEAP_SIZE) demo_file demo_mem ∪ blank 4096 (Z.to_nat (HEAP_SIZE + 4096))) (init_heap 4096) [] [].

Lemma demo_ready : ready 4096 (4096 + HEAP_SIZE) demo_file demo_loading [(HEAP_SIZE - BLOCK_HEADER, true)].
Proof.
  constructor; [apply init_heap_inv; exact base_ok_4096| |].
  - assert (0 < HEAP_SIZE) by done. eapply mapped_mono; [apply blank_mapped|lia|lia].
  - apply bytes_at_blank, (load_bytes_inv _ _ 124). vm_compute. reflexivity.
Qed.

Lemma oversized_segment_overruns_witness :
  exists h s', rust_kmalloc (init_heap 4096) 10 = Ret (4144, h) /\
    load_segment (4096 + HEAP_SIZE) 124 demo_phdr demo_loading = Ret (0, 4144, s') /\
    is_Some (blocks (elf_heap s') !! 4160) /\ elf_mem s' !! 4160 = Some 4.
Proof.
  assert (exists h, rust_kmalloc (init_heap 4096) 10 = Ret (4144, h) /\ is_Some (blocks h !! 4160)) as (h & Hk & Hh).
  { eexists. split; [vm_compute; reflexivity|]. vm_compute. eexists. reflexivity. }
  assert (kmalloc 10 demo_loading = Ret (4144, with_heap h demo_loading)) as Hk2.
  { unfold kmalloc. change (elf_heap demo_loading) with (init_heap 4096). rewrite Hk. reflexivity. }
  destruct (oversized_segment_overruns 4096 (4096 + HEAP_SIZE) demo_file demo_loading _ demo_phdr 4144
    (with_heap h demo_loading) demo_ready)
    as (s' & H1 & H2 & H3); [|cbn; lia|cbn; lia|vm_compute; discriminate|vm_compute; discriminate|exact Hk2|lia|
                              split; vm_compute; discriminate|].
  { right. lia. }
  exists h, s'. split; [exact Hk|]. split; [exact H1|]. split; [rewrite H2; exact Hh|].
  apply (H3 16%nat 4); [vm_compute; reflexivity|cbn; lia].
Defined.
