(* ===== verification/ElfLink.v ===== *)
(** * What the dynamic linker of [elf.rs] makes of the tables of a shared object

    [process_dynamic_section] reads entries of a tag and a value up to a null
    entry, [apply_relocations] tables of relocations up to a null entry.  Here the
    tables are lists, laid out in memory as the ELF format says, and the results are
    described on the lists: which addresses the section gives, and which words the
    relocations write. *)

From S2P Require Import Prelude Memory Heap BTree Vfs Elf.

Local Open Scope Z_scope.

(** ** Words in packed structures *)
Lemma field_at (l r : list Z) (o n : nat) v :
  length l = o -> 0 <= v < 2 ^ (8 * Z.of_nat n) -> field (l ++ le_bytes n v ++ r) o n = v.
Proof.
  intros Hl Hv. unfold field. rewrite drop_app_length' by done. rewrite take_app_length' by by rewrite le_bytes_length.
  rewrite le_word_bytes. by apply Z.mod_small.
Qed.

Lemma load_packed m p l : bytes_at m p l -> load_bytes m p (length l) = Ret l.
Proof. apply load_bytes_ok. Qed.

(** A loop over [n] entries of [k] bytes and a null entry has fuel to spare. *)
Lemma table_fuel m p k n l : bytes_at m p l -> length l = (k * S n)%nat -> (0 < k)%nat -> (n < S (size m))%nat.
Proof. intros Hb Hl Hk. pose proof (mapped_size _ _ _ (bytes_at_mapped _ _ _ Hb)) as Hs. rewrite Hl in Hs. nia. Qed.

(** ** The dynamic section *)

(** An entry of the section, and the section with its null entry. *)
Definition dyn_entry (e : Z * Z) : list Z := le_bytes 8 (u64 e.1) ++ le_bytes 8 e.2.

Definition dyn_section (es : list (Z * Z)) (junk : Z) : list Z := concat (dyn_entry <$> es) ++ dyn_entry (0, junk).

Definition entry_ok (e : Z * Z) : Prop := e.1 <> 0 /\ - 2 ^ 63 <= e.1 < 2 ^ 63 /\ 0 <= e.2 < 2 ^ 64.

(** The addresses that entries with tag [t] stand for. *)
Definition addresses (base t : Z) (es : list (Z * Z)) : list Z := (fun e => u64 (base + e.2)) <$> filter (fun e => e.1 = t) es.

Definition newest (old : option Z) (l : list Z) : option Z := match last l with Some a => Some a | None => old end.

Lemma dyn_entry_length e : length (dyn_entry e) = 16%nat.
Proof. unfold dyn_entry. by rewrite length_app, !le_bytes_length. Qed.

Lemma i64_u64 v : - 2 ^ 63 <= v < 2 ^ 63 -> i64 (u64 v) = v.
Proof.
  intros H. unfold swrap at 1, wrap. rewrite Z.add_mod_idemp_l by done. fold (swrap 64 v). by apply swrap_small.
Qed.

Lemma load_dyn_entry m p t v :
  - 2 ^ 63 <= t < 2 ^ 63 -> 0 <= v < 2 ^ 64 -> bytes_at m p (dyn_entry (t, v)) -> load_dyn m p = Ret (mkDyn t v).
Proof.
  intros Ht Hv Hb. apply load_packed in Hb. rewrite dyn_entry_length in Hb. unfold load_dyn. rewrite Hb. step_ret.
  unfold decode_dyn, dyn_entry. cbn [fst snd].
  assert (field (le_bytes 8 (u64 t) ++ le_bytes 8 v) 0 8 = u64 t) as -> by (apply (field_at [] (le_bytes 8 v)); [done|apply (wrap_range 64); lia]).
  assert (field (le_bytes 8 (u64 t) ++ le_bytes 8 v) 8 8 = v) as ->.
  { rewrite <- (app_nil_r (le_bytes 8 v)). apply field_at; [apply le_bytes_length|done]. }
  by rewrite i64_u64.
Qed.

Lemma newest_none l : newest None l = last l.
Proof. unfold newest. by destruct (last l). Qed.

Lemma newest_cons old a l : newest old (a :: l) = newest (Some a) l.
Proof. unfold newest. rewrite last_cons. by destruct (last l). Qed.

(** The names "lib0", "lib1", ... of the needed libraries. *)
Definition numbered (i : nat) (name : list Z) : Prop :=
  exists ds, name = bytes "lib" ++ ds /\ Forall is_digit ds /\ dec_value ds = Z.of_nat i.

Lemma lib_name_ok i : Z.of_nat i < 2 ^ 64 -> exists name, lib_name i = Ret name /\ numbered i name.
Proof.
  intros Hi. destruct (dec_digits_ok 20 (Z.of_nat i)) as (ds & E & _ & Hd & Hv); [lia|cbn; lia|].
  exists (bytes "lib" ++ ds). unfold lib_name. rewrite E. split; [done|]. by exists ds.
Qed.

(** What the entries add to what is known. *)
Definition described (ctx : DynamicContext) (es : list (Z * Z)) (ctx' : DynamicContext) : Prop :=
  base_addr ctx' = base_addr ctx /\ dynamic ctx' = dynamic ctx /\
  strtab ctx' = newest (strtab ctx) (addresses (base_addr ctx) 5 es) /\
  symtab ctx' = newest (symtab ctx) (addresses (base_addr ctx) 6 es) /\
  plt_got ctx' = newest (plt_got ctx) (addresses (base_addr ctx) 3 es) /\
  hash_table ctx' = newest (hash_table ctx) (addresses (base_addr ctx) 4 es) /\
  relocations ctx' = relocations ctx ++ addresses (base_addr ctx) 7 es /\
  exists names, needed_libs ctx' = needed_libs ctx ++ names /\
    Forall2 numbered (seq (length (needed_libs ctx)) (length (filter (fun e : Z * Z => e.1 = 1) es))) names.

Lemma addresses_cons base t e es :
  addresses base t (e :: es) = (if e.1 =? t then [u64 (base + e.2)] else []) ++ addresses base t es.
Proof. unfold addresses. rewrite filter_cons. destruct (Z.eqb_spec e.1 t); by destruct (decide _). Qed.

(** One entry, with [name] for the library if it names one. *)
Definition dyn_step (name : list Z) (t v : Z) (ctx : DynamicContext) : DynamicContext :=
  let a := u64 (base_addr ctx + v) in
  mkDynCtx (base_addr ctx) (dynamic ctx)
    (if t =? 5 then Some a else strtab ctx) (if t =? 6 then Some a else symtab ctx)
    (relocations ctx ++ if t =? 7 then [a] else []) (needed_libs ctx ++ if t =? 1 then [name] else [])
    (if t =? 3 then Some a else plt_got ctx) (if t =? 4 then Some a else hash_table ctx).

Lemma newest_if (b : bool) old a l : newest (if b then Some a else old) l = newest old ((if b then [a] else []) ++ l).
Proof. destruct b; cbn [app]; [by rewrite newest_cons|done]. Qed.

Lemma described_step ctx t v name es ctx' :
  numbered (length (needed_libs ctx)) name -> described (dyn_step name t v ctx) es ctx' -> described ctx ((t, v) :: es) ctx'.
Proof.
  intros Hn (H1 & H2 & H3 & H4 & H5 & H6 & H7 & names & H8 & H9). unfold described.
  cbn [dyn_step base_addr dynamic strtab symtab relocations needed_libs plt_got hash_table] in *.
  rewrite newest_if in H3, H4, H5, H6. rewrite <- app_assoc in H7, H8. rewrite !addresses_cons. cbn [fst snd].
  repeat (split; [done|]). exists ((if t =? 1 then [name] else []) ++ names). split; [done|]. rewrite filter_cons. cbn [fst].
  destruct (Z.eqb_spec t 1); destruct (decide _); try done; cbn [app length seq] in *; rewrite ?app_nil_r in H9; [|done].
  rewrite length_app in H9. cbn [length] in H9. rewrite Nat.add_1_r in H9. by constructor.
Qed.

Lemma dynamic_loop_step fuel m p ctx t v name :
  - 2 ^ 63 <= t < 2 ^ 63 -> 0 <= v < 2 ^ 64 -> t <> 0 -> bytes_at m p (dyn_entry (t, v)) -> lib_name (length (needed_libs ctx)) = Ret name ->
  dynamic_loop (S fuel) m p ctx = dynamic_loop fuel m (p + 16) (dyn_step name t v ctx).
Proof.
  intros H1 H2 H3 Hb En. cbn [dynamic_loop]. rewrite (load_dyn_entry m p t v) by done. step_ret. cbn [d_tag d_val].
  unfold DT_NULL, DT_NEEDED, DT_STRTAB, DT_SYMTAB, DT_RELA, DT_PLTGOT, DT_HASH, dyn_step. rewrite (proj2 (Z.eqb_neq t 0)) by done.
  destruct ctx as [base dyn stab sym rel libs got hash]. cbn [base_addr dynamic strtab symtab relocations needed_libs plt_got hash_table] in *.
  destruct (Z.eqb_spec t 1) as [->|]; [rewrite En; step_ret; cbn; by rewrite app_nil_r|].
  destruct (Z.eqb_spec t 5) as [->|]; [step_ret; cbn; by rewrite !app_nil_r|].
  destruct (Z.eqb_spec t 6) as [->|]; [step_ret; cbn; by rewrite !app_nil_r|].
  destruct (Z.eqb_spec t 7) as [->|]; [step_ret; cbn; by rewrite !app_nil_r|].
  destruct (Z.eqb_spec t 3) as [->|]; [step_ret; cbn; by rewrite !app_nil_r|].
  destruct (Z.eqb_spec t 4) as [->|]; step_ret; by rewrite !app_nil_r.
Qed.

Lemma dynamic_loop_ok fuel m p ctx es junk :
  bytes_at m p (dyn_section es junk) -> Forall entry_ok es -> (length es < fuel)%nat -> 0 <= junk < 2 ^ 64 ->
  Z.of_nat (length (needed_libs ctx) + length es) < 2 ^ 64 ->
  exists ctx', dynamic_loop fuel m p ctx = Ret ctx' /\ described ctx es ctx'.
Proof.
  intros Hb Hes Hf Hj. revert fuel p ctx Hb Hf. induction Hes as [|[t v] es (Ht & Ht64 & Hv) Hes IH]; intros [|fuel] p ctx Hb Hf Hlen;
    cbn [length] in *; try lia.
  { cbn [dynamic_loop]. rewrite (load_dyn_entry m p 0 junk) by (done || lia). step_ret. exists ctx. split; [done|].
    unfold described, newest. cbn. rewrite !app_nil_r. repeat (split; [done|]). exists []. by rewrite app_nil_r. }
  unfold dyn_section in Hb. cbn [fmap list_fmap concat] in Hb. rewrite <- app_assoc in Hb. apply bytes_at_app in Hb as [He Hb].
  rewrite dyn_entry_length in Hb. cbn [fst snd] in *. destruct (lib_name_ok (length (needed_libs ctx))) as (name & En & Hname); [lia|].
  rewrite (dynamic_loop_step fuel m p ctx t v name) by done.
  destruct (IH fuel (p + 16) (dyn_step name t v ctx) Hb) as (ctx' & E & Hd); [lia| |exists ctx'; split; [done|by eapply described_step]].
  cbn [dyn_step needed_libs]. rewrite length_app. destruct (t =? 1); cbn [length]; lia.
Qed.

(** ** Relocations *)

(** An entry of a relocation table, and a table with its null entry. *)
Definition rela_entry (r : Elf64_Rela) : list Z := le_bytes 8 (r_offset r) ++ le_bytes 8 (r_info r) ++ le_bytes 8 (u64 (r_addend r)).

Definition rela_table (rs : list Elf64_Rela) : list Z := concat (rela_entry <$> rs) ++ rela_entry (mkRela 0 0 0).

Record rela_ok (r : Elf64_Rela) : Prop := {
  rela_offset : 0 <= r_offset r < 2 ^ 64;
  rela_info : 0 <= r_info r < 2 ^ 64;
  rela_addend : - 2 ^ 63 <= r_addend r < 2 ^ 63;
  rela_not_null : r_offset r <> 0 \/ r_info r <> 0
}.

(** The type is the lower half of the information word, the number of the symbol the
    upper half. *)
Definition rela_type (r : Elf64_Rela) : Z := r_info r mod 2 ^ 32.
Definition rela_symbol (r : Elf64_Rela) : Z := r_info r / 2 ^ 32.

Definition names_symbol (r : Elf64_Rela) : bool := (rela_type r =? 6) || (rela_type r =? 7) || (rela_type r =? 1).

(** The word a relocation writes, if it writes one: the base and the addend
    (RELATIVE, 8), the address of the symbol (GLOB_DAT and JUMP_SLOT, 6 and 7), or
    that and the addend (64, 1). *)
Definition rela_value (base : Z) (address : Z -> option Z) (r : Elf64_Rela) : option Z :=
  if rela_type r =? 8 then Some ((base + r_addend r) mod 2 ^ 64)
  else if (rela_type r =? 6) || (rela_type r =? 7) then (fun a => a mod 2 ^ 64) <$> address (rela_symbol r)
  else if rela_type r =? 1 then (fun a => (a + r_addend r) mod 2 ^ 64) <$> address (rela_symbol r)
  else None.

Definition rela_target (base : Z) (r : Elf64_Rela) : Z := (base + r_offset r) mod 2 ^ 64.

Definition relocate (base : Z) (address : Z -> option Z) (m : mem) (r : Elf64_Rela) : mem :=
  match rela_value base address r with
  | Some v => poke (rela_target base r) (le_bytes 8 v) m
  | None => m
  end.

Lemma poke_insert a l b x (m : mem) : b < a -> poke a l (<[b := x]> m) = <[b := x]> (poke a l m).
Proof.
  revert a. induction l as [|y l IH]; intros a Hlt; cbn [poke]; [done|]. rewrite IH by lia. by apply insert_insert_ne; lia.
Qed.

Lemma store_bytes_poke m a l : mapped m a (length l) -> store_bytes m a l = Ret (poke a l m).
Proof.
  revert m a. induction l as [|b l IH]; intros m a H; cbn [store_bytes poke]; [done|].
  apply mapped_S in H as [[b0 Hb0] H]. unfold store8. rewrite Hb0. step_ret. rewrite IH; [by rewrite poke_insert by lia|].
  intros i Hi. rewrite lookup_insert_ne by lia. by apply H.
Qed.

Lemma poke64_ok a v s : mapped (elf_mem s) a 8 -> poke64 a v s = Ret (with_mem (poke a (le_bytes 8 (u64 v)) (elf_mem s)) s).
Proof. intros H. unfold poke64, store64. by rewrite store_bytes_poke by (by rewrite le_bytes_length). Qed.

Lemma poke_dom a l (m : mem) : mapped m a (length l) -> dom (poke a l m) = dom m.
Proof. intros H. apply (store_bytes_dom m a l). by apply store_bytes_poke. Qed.

Lemma load_rela_entry m p r :
  0 <= r_offset r < 2 ^ 64 -> 0 <= r_info r < 2 ^ 64 -> - 2 ^ 63 <= r_addend r < 2 ^ 63 -> bytes_at m p (rela_entry r) -> load_rela m p = Ret r.
Proof.
  intros H1 H2 H3 Hb. apply load_packed in Hb. unfold load_rela.
  assert (length (rela_entry r) = 24%nat) as Hl by (unfold rela_entry; rewrite !length_app, !le_bytes_length; done).
  rewrite Hl in Hb. rewrite Hb. step_ret. destruct r as [o i a]. unfold decode_rela, rela_entry. cbn [r_offset r_info r_addend] in *.
  assert (field (le_bytes 8 o ++ le_bytes 8 i ++ le_bytes 8 (u64 a)) 0 8 = o) as -> by by apply (field_at []).
  assert (field (le_bytes 8 o ++ le_bytes 8 i ++ le_bytes 8 (u64 a)) 8 8 = i) as -> by (apply field_at; [apply le_bytes_length|done]).
  assert (field (le_bytes 8 o ++ le_bytes 8 i ++ le_bytes 8 (u64 a)) 16 8 = u64 a) as ->; [|by rewrite i64_u64].
  rewrite app_assoc, <- (app_nil_r (le_bytes 8 (u64 a))). apply field_at; [by rewrite length_app, !le_bytes_length|apply (wrap_range 64); lia].
Qed.

Lemma rela_type_ok r : rela_ok r -> get_relocation_type (r_info r) = rela_type r /\ get_relocation_symbol (r_info r) = rela_symbol r.
Proof.
  intros [_ Hi _ _]. unfold get_relocation_type, get_relocation_symbol, rela_type, rela_symbol, wrap. split.
  - change 0xFFFFFFFF with (Z.ones 32). rewrite Z.land_ones by lia. by apply Z.mod_mod.
  - rewrite Z.shiftr_div_pow2 by lia. apply Z.mod_small. split; [apply Z.div_pos; lia|]. apply Z.div_lt_upper_bound; lia.
Qed.

(** *** Tables that the relocations leave alone *)
Section tables.

Context (tables : Z -> Prop) (ctx : DynamicContext) (st tab : Z) (Hst : symtab ctx = Some st) (Htab : strtab ctx = Some tab).

(** The bytes [l] are at [p], in the tables. *)
Definition table_at (m : mem) (p : Z) (l : list Z) : Prop :=
  bytes_at m p l /\ forall x, p <= x < p + Z.of_nat (length l) -> tables x.

(** Symbol number [i] is called [n]: an entry of 24 bytes that begins with the
    place of the name in the string table. *)
Definition symbol_at (m : mem) (i : Z) (n : list Z) : Prop :=
  exists o others, 0 <= o < 2 ^ 32 /\ length others = 20%nat /\ Forall (fun c => c <> 0) n /\
    table_at m (st + 24 * i) (le_bytes 4 o ++ others) /\ table_at m (tab + o) (n ++ [0]).

Definition writable (m : mem) (a : Z) : Prop := mapped m a 8 /\ forall x, a <= x < a + 8 -> ~ tables x.

(** What a relocation relies on. *)
Definition rela_ready (name : Z -> list Z) (m : mem) (r : Elf64_Rela) : Prop :=
  rela_ok r /\ writable m (rela_target (base_addr ctx) r) /\
  (names_symbol r = true -> symbol_at m (rela_symbol r) (name (rela_symbol r))).

(** The memory may have changed outside the tables. *)
Definition tables_kept (m m' : mem) : Prop := dom m' = dom m /\ forall x, tables x -> m' !! x = m !! x.

Lemma tables_kept_trans m1 m2 m3 : tables_kept m1 m2 -> tables_kept m2 m3 -> tables_kept m1 m3.
Proof. intros [D1 K1] [D2 K2]. split; [congruence|]. intros x Hx. by rewrite K2, K1. Qed.

Lemma table_kept m m' p l : tables_kept m m' -> table_at m p l -> table_at m' p l.
Proof.
  intros [_ Hk] [Hb Ht]. split; [|done]. intros i x Hi. rewrite Hk; [by apply Hb|]. apply Ht.
  apply lookup_lt_Some in Hi. lia.
Qed.

Lemma rela_ready_kept name m m' r : tables_kept m m' -> rela_ready name m r -> rela_ready name m' r.
Proof.
  intros Hk (H1 & [H2 H3] & H4). split; [done|]. split; [split; [|done]|].
  - intros i Hi. apply elem_of_dom. rewrite (proj1 Hk). by apply elem_of_dom, H2.
  - intros Hn. destruct (H4 Hn) as (o & others & Ho & Hl & Hz & T1 & T2). exists o, others. eauto 10 using table_kept.
Qed.

Lemma relocate_keeps address m r : writable m (rela_target (base_addr ctx) r) -> tables_kept m (relocate (base_addr ctx) address m r).
Proof.
  intros [Hm Ht]. unfold relocate. destruct (rela_value _ _ _) as [v|]; [|by split]. split.
  - apply poke_dom. by rewrite le_bytes_length.
  - intros x Hx. apply poke_outside. rewrite le_bytes_length.
    destruct (decide (rela_target (base_addr ctx) r <= x < rela_target (base_addr ctx) r + 8)); [by destruct (Ht x)|lia].
Qed.

(** The address of a symbol, when no library is loaded. *)
Definition address_of (name : Z -> list Z) (s : elf) (i : Z) : option Z := bt_get (name i) (GLOBAL_SYMBOLS s).

Lemma symbol_relocation_ok name r addend s :
  rela_ok r -> LOADED_LIBRARIES s = [] -> writable (elf_mem s) (rela_target (base_addr ctx) r) ->
  symbol_at (elf_mem s) (rela_symbol r) (name (rela_symbol r)) ->
  symbol_relocation ctx r addend s =
    Ret (with_mem (match address_of name s (rela_symbol r) with
                   | Some a => poke (rela_target (base_addr ctx) r) (le_bytes 8 ((a + addend) mod 2 ^ 64)) (elf_mem s)
                   | None => elf_mem s
                   end) s).
Proof.
  intros Hr Hlib [Hm _] (o & others & Ho & Hl & Hz & [T1 _] & [T2 _]). unfold symbol_relocation. rewrite Hst, Htab.
  rewrite (proj2 (rela_type_ok r Hr)). apply load_packed in T1. rewrite length_app, le_bytes_length, Hl in T1.
  change (4 + 20)%nat with 24%nat in T1. unfold load_sym.
  rewrite T1. step_ret. assert (st_name (decode_sym (le_bytes 4 o ++ others)) = o) as -> by by apply (field_at []).
  unfold get_symbol_name. rewrite (read_cstr_ok _ _ (name (rela_symbol r))) by by split. step_ret.
  unfold resolve_symbol, address_of. rewrite Hlib. destruct (bt_get _ _) as [a|]; step_ret; [|by destruct s].
  change (u64 (base_addr ctx + r_offset r)) with (rela_target (base_addr ctx) r). rewrite poke64_ok by done.
  unfold wrap. by rewrite Z.mod_mod.
Qed.

Lemma apply_relocation_ok name r s :
  LOADED_LIBRARIES s = [] -> rela_ready name (elf_mem s) r ->
  apply_relocation ctx r s = Ret (with_mem (relocate (base_addr ctx) (address_of name s) (elf_mem s) r) s).
Proof.
  intros Hlib (Hr & Hw & Hsym). unfold apply_relocation, relocate, rela_value. rewrite (proj1 (rela_type_ok r Hr)).
  unfold R_X86_64_RELATIVE, R_X86_64_GLOB_DAT, R_X86_64_JUMP_SLOT, R_X86_64_64, names_symbol in *.
  destruct (rela_type r =? 8).
  { change (u64 (base_addr ctx + r_offset r)) with (rela_target (base_addr ctx) r). rewrite poke64_ok by apply Hw.
    unfold wrap. by rewrite Z.mod_mod, Z.add_mod_idemp_r. }
  destruct (rela_type r =? 6); [|destruct (rela_type r =? 7)]; cbn [orb] in *.
  - rewrite (symbol_relocation_ok name) by auto. destruct (address_of _ _ _) as [a|]; cbn; by rewrite ?Z.add_0_r.
  - rewrite (symbol_relocation_ok name) by auto. destruct (address_of _ _ _) as [a|]; cbn; by rewrite ?Z.add_0_r.
  - destruct (rela_type r =? 1); [|by destruct s]. rewrite (symbol_relocation_ok name) by auto.
    destruct (address_of _ _ _) as [a|]; cbn [fmap option_fmap option_map]; [|done]. unfold wrap. by rewrite Z.add_mod_idemp_r.
Qed.

Lemma rela_loop_ok name fuel p rs s :
  LOADED_LIBRARIES s = [] -> table_at (elf_mem s) p (rela_table rs) -> Forall (rela_ready name (elf_mem s)) rs -> (length rs < fuel)%nat ->
  rela_loop fuel ctx p s = Ret (with_mem (fold_left (relocate (base_addr ctx) (address_of name s)) rs (elf_mem s)) s) /\
  tables_kept (elf_mem s) (fold_left (relocate (base_addr ctx) (address_of name s)) rs (elf_mem s)).
Proof.
  revert fuel p s. induction rs as [|r rs IH]; intros [|fuel] p s Hlib Ht Hrs Hf; cbn [length fold_left] in *; try lia; cbn [rela_loop].
  { destruct Ht as [Hb _]. apply (load_rela_entry _ p (mkRela 0 0 0)) in Hb; [|cbn [r_offset r_info r_addend]; lia..].
    rewrite Hb. step_ret. cbn. split; [by destruct s|by split]. }
  apply Forall_cons in Hrs as [Hr Hrs]. destruct Ht as [Hb Hin]. unfold rela_table in Hb, Hin. cbn [fmap list_fmap concat] in Hb, Hin.
  rewrite <- app_assoc in Hb, Hin. apply bytes_at_app in Hb as [He Hb].
  assert (length (rela_entry r) = 24%nat) as Hl by (unfold rela_entry; rewrite !length_app, !le_bytes_length; done). rewrite Hl in Hb.
  destruct Hr as (Hok & Hw & Hsym). rewrite (load_rela_entry _ p r) by (done || apply Hok). step_ret.
  assert ((r_offset r =? 0) && (r_info r =? 0) = false) as -> by (destruct (rela_not_null _ Hok); lia).
  rewrite (apply_relocation_ok name r s Hlib (conj Hok (conj Hw Hsym))). step_ret.
  pose proof (relocate_keeps (address_of name s) (elf_mem s) r Hw) as Hk. set (m1 := relocate _ _ _ _) in *.
  destruct (IH fuel (p + 24) (with_mem m1 s)) as [E Hk2]; [done| | |lia|].
  - apply (table_kept (elf_mem s)); [done|]. split; [exact Hb|]. intros x Hx. apply Hin. rewrite length_app, Hl. unfold rela_table in Hx. lia.
  - eapply Forall_impl; [exact Hrs|]. intros r' Hr'. by eapply rela_ready_kept.
  - rewrite E. split; [done|]. exact (tables_kept_trans _ _ _ Hk Hk2).
Qed.

End tables.

Lemma apply_all_ok tables ctx st tab name ts s :
  symtab ctx = Some st -> strtab ctx = Some tab -> LOADED_LIBRARIES s = [] ->
  Forall (fun t => table_at tables (elf_mem s) t.1 (rela_table t.2)) ts ->
  Forall (rela_ready tables ctx st tab name (elf_mem s)) (concat ts.*2) ->
  apply_all ctx ts.*1 s = Ret (with_mem (fold_left (relocate (base_addr ctx) (address_of name s)) (concat ts.*2) (elf_mem s)) s).
Proof.
  intros Hst Htab. revert s. induction ts as [|[p rs] ts IH]; intros s Hlib Hts Hrs; cbn [fmap list_fmap fst snd concat apply_all] in *; [by destruct s|].
  apply Forall_cons in Hts as [Ht Hts]. apply Forall_app in Hrs as [Hr Hrs]. cbn [fst snd] in Ht.
  assert (forall r, length (rela_entry r) = 24%nat) as H24 by (intros r; unfold rela_entry; rewrite !length_app, !le_bytes_length; done).
  assert (length (rela_table rs) = (24 * S (length rs))%nat) as Hlen.
  { unfold rela_table. rewrite length_app, H24. clear -H24. induction rs as [|r rs IH]; cbn [fmap list_fmap concat length]; [done|].
    rewrite length_app, H24. fold (fmap (M := list) rela_entry rs). lia. }
  destruct (rela_loop_ok tables ctx st tab Hst Htab name (S (size (elf_mem s))) p rs s Hlib Ht Hr) as [E Hk].
  { eapply table_fuel; [apply Ht|exact Hlen|lia]. }
  rewrite E. step_ret. set (m1 := fold_left _ rs _) in *. rewrite (IH (with_mem m1 s)); [|done| |].
  - rewrite fold_left_app. done.
  - eapply Forall_impl; [exact Hts|]. intros t Ht'. by eapply table_kept.
  - eapply Forall_impl; [exact Hrs|]. intros r Hr'. by eapply rela_ready_kept.
Qed.

(** ** Theorems *)

(** C28. The dynamic section is read as the ELF format says.  For entries with non-zero
    tags followed by a null entry, whatever comes behind it, [process_dynamic_section]
    returns: the string table, the symbol table, the PLT/GOT and the hash table are at
    the base plus the value of the last entry with tag 5, 6, 3 or 4, and unknown
    without one; every entry with tag 7 gives a relocation table, in order; every
    entry with tag 1 gives a library, and these are called lib0, lib1 and so on. *)
Theorem dynamic_section_decoded m dyn base es junk :
  bytes_at m dyn (dyn_section es junk) -> Forall entry_ok es -> 0 <= junk < 2 ^ 64 -> Z.of_nat (length es) < 2 ^ 64 ->
  exists ctx, process_dynamic_section m dyn base = Ret ctx /\ base_addr ctx = base /\ dynamic ctx = Some dyn /\
    strtab ctx = last (addresses base 5 es) /\ symtab ctx = last (addresses base 6 es) /\
    plt_got ctx = last (addresses base 3 es) /\ hash_table ctx = last (addresses base 4 es) /\
    relocations ctx = addresses base 7 es /\
    Forall2 numbered (seq 0 (length (filter (fun e : Z * Z => e.1 = 1) es))) (needed_libs ctx).
Proof.
  intros Hb Hes Hj Hlen. unfold process_dynamic_section.
  destruct (dynamic_loop_ok (S (size m)) m dyn (mkDynCtx base (Some dyn) None None [] [] None None) es junk Hb Hes)
    as (ctx & E & H1 & H2 & H3 & H4 & H5 & H6 & H7 & names & H8 & H9); [|done|cbn; lia|].
  - assert (length (concat (dyn_entry <$> es)) = (16 * length es)%nat) as Hl.
    { clear. induction es as [|e es IH]; cbn [fmap list_fmap concat length]; [done|]. rewrite length_app, dyn_entry_length.
      fold (fmap (M := list) dyn_entry es). lia. }
    eapply (table_fuel m dyn 16); [exact Hb| |lia]. unfold dyn_section. rewrite length_app, Hl, dyn_entry_length. lia.
  - cbn [base_addr dynamic strtab symtab relocations needed_libs plt_got hash_table app length] in H1, H2, H3, H4, H5, H6, H7, H8, H9.
    subst names. exists ctx. rewrite !newest_none in *. done.
Qed.

(** A section with a needed library, two relocation tables, a string table that is
    given twice, and a null entry. *)
Definition demo_entries : list (Z * Z) := [(1, 16); (5, 0x100); (7, 0x200); (6, 0x300); (5, 0x400); (7, 0x500); (10, 9)].

Lemma dynamic_section_decoded_witness :
  exists ctx, process_dynamic_section (poke 1000 (dyn_section demo_entries 7) ∅) 1000 0x400000 = Ret ctx /\
    strtab ctx = Some 0x400400 /\ symtab ctx = Some 0x400300 /\ relocations ctx = [0x400200; 0x400500].
Proof.
  destruct (dynamic_section_decoded (poke 1000 (dyn_section demo_entries 7) ∅) 1000 0x400000 demo_entries 7)
    as (ctx & E & _ & _ & H1 & H2 & _ & _ & H3 & _).
  - apply bytes_at_poke.
  - unfold demo_entries, entry_ok. repeat (constructor; [cbn; lia|]). constructor.
  - lia.
  - vm_compute. reflexivity.
  - exists ctx. split; [exact E|]. split; [exact H1|]. split; [exact H2|exact H3].
Defined.

(** C19. Relocations write the words they should, and nothing else.  The relocation
    tables end in a null entry; the tables of relocations and symbols and the strings
    lie apart from the words that are relocated, and no library is loaded, as the code
    never loads one.  Then [apply_relocations] returns; it has gone through the
    entries of all tables in order and changed only memory: a RELATIVE entry puts the
    base and the addend at the base and the offset, GLOB_DAT and JUMP_SLOT the address
    the global table has for the symbol's name, 64 that address and the addend, all in
    64-bit arithmetic; entries of other types and symbols that are not found change
    nothing. *)
Theorem relocations_applied (tables : Z -> Prop) ctx st tab name ts s :
  symtab ctx = Some st -> strtab ctx = Some tab -> LOADED_LIBRARIES s = [] -> relocations ctx = ts.*1 ->
  Forall (fun t => table_at tables (elf_mem s) t.1 (rela_table t.2)) ts ->
  Forall (rela_ready tables ctx st tab name (elf_mem s)) (concat ts.*2) ->
  apply_relocations ctx s =
    Ret (with_mem (fold_left (relocate (base_addr ctx) (fun i => bt_get (name i) (GLOBAL_SYMBOLS s))) (concat ts.*2) (elf_mem s)) s).
Proof.
  intros Hst Htab Hlib Hts Ht Hr. unfold apply_relocations. rewrite Hts. by apply (apply_all_ok tables ctx st tab name).
Qed.

(** Two relocations, of the words at 5000 and 5008, the second with the address of the
    symbol "f". *)
Definition demo_relas : list Elf64_Rela := [mkRela 4744 8 0x20; mkRela 4752 (2 ^ 32 + 6) 0].

Definition demo_link_mem : mem :=
  poke 1000 (rela_table demo_relas) (poke 3024 (le_bytes 4 5 ++ replicate 20 0) (poke 4005 [102; 0] (∅ ∪ blank 5000 16))).

Definition demo_link : elf := mkElf demo_link_mem (init_heap 4096) [([102], 0x500)] [].

Definition demo_link_ctx : DynamicContext := mkDynCtx 256 None (Some 4000) (Some 3000) [1000] [] None None.

Lemma relocations_applied_witness :
  exists s', apply_relocations demo_link_ctx demo_link = Ret s' /\
    load64 (elf_mem s') 5000 = Ret (256 + 0x20) /\ load64 (elf_mem s') 5008 = Ret 0x500.
Proof.
  eexists. split.
  - apply (relocations_applied (fun x => 1000 <= x < 4500) demo_link_ctx 3000 4000 (fun _ => [102]) [(1000, demo_relas)] demo_link);
      try reflexivity.
    + constructor; [|constructor]. split; [apply bytes_at_load; vm_compute; reflexivity|]. intros x Hx. cbn in Hx. lia.
    + assert (forall a, 5000 <= a -> a <= 5008 -> writable (fun x => 1000 <= x < 4500) demo_link_mem a) as Hw.
      { intros a H1 H2. split; [|intros x Hx; lia]. intros i Hi. unfold demo_link_mem.
        rewrite !poke_outside by (vm_compute length; lia). 
        replace (a + Z.of_nat i) with (5000 + Z.of_nat (Z.to_nat (a + Z.of_nat i - 5000))) by lia. apply blank_mapped. lia. }
      constructor; [|constructor; [|constructor]].
      * split; [constructor; cbn; lia|]. split; [apply Hw; vm_compute; discriminate|discriminate].
      * split; [constructor; cbn; lia|]. split; [apply Hw; vm_compute; discriminate|]. intros _. change (rela_symbol _) with 1. exists 5, (replicate 20 0).
        split; [lia|]. split; [reflexivity|]. split; [constructor; [discriminate|constructor]|].
        split; (split; [apply bytes_at_load; vm_compute; reflexivity|intros x Hx; cbn in Hx; lia]).
  - split; vm_compute; reflexivity.
Defined.
