(* ===== verification/ElfTest.v ===== *)
(** * The number printers and the self-test of [elf.rs]

    [serial_write_hex] and [serial_write_dec] of elf.rs build a number in a local
    array and send it up to its first NUL; here they return the text sent.  The
    self-test enters four symbols, resolves three names and prints what it finds.
    The messages of the functions it calls are left out, as in [Elf]. *)

From S2P Require Import Prelude Memory Heap Serial BTree Vfs Elf.

Local Open Scope Z_scope.

(** ** The code *)

(** [for i in 0..16 { if i < buf.len() - 3 { buf[2 + i] = ... } }]: the array has 18
    bytes. *)
Fixpoint elf_hex_loop (n i : nat) (val : Z) (buf : list Z) : outcome (list Z) :=
  match n with
  | O => Ret buf
  | S n' =>
      buf ← (if (i <? 15)%nat
             then arr_set buf (2 + i) (hex_upper ((val >>. (60 - Z.of_nat i * 4)) .& 0xF)%W)
             else Ret buf);
      elf_hex_loop n' (S i) val buf
  end.

Definition elf_write_hex (val : Z) : outcome (list Z) :=
  buf ← arr_set (replicate 18 0) 0 48;
  buf ← arr_set buf 1 120;
  buf ← elf_hex_loop 16 0 val buf;
  buf ← arr_set buf 17 0;
  Ret (until_nul buf).

(** [while tmp > 0 { buf[i] = ...; tmp /= 10; i += 1; }]: a write past the array
    ends the loop at the latest. *)
Fixpoint elf_dec_loop (fuel i : nat) (tmp : Z) (buf : list Z) : outcome (nat * list Z) :=
  if tmp <=? 0 then Ret (i, buf)
  else match fuel with
       | O => Timeout
       | S f => buf ← arr_set buf i (48 + tmp mod 10); elf_dec_loop f (S i) (tmp / 10) buf
       end.

(** [for j in 0..i/2 { if j < buf.len() - 3 { swap buf[j] and buf[i-1-j] } }]. *)
Fixpoint elf_reverse (n j i : nat) (buf : list Z) : outcome (list Z) :=
  match n with
  | O => Ret buf
  | S n' =>
      buf ← (if (j <? 18)%nat then
               t ← arr_get buf j;
               u ← arr_get buf (i - 1 - j);
               buf ← arr_set buf j u;
               arr_set buf (i - 1 - j) t
             else Ret buf);
      elf_reverse n' (S j) i buf
  end.

Definition elf_write_dec (val : Z) : outcome (list Z) :=
  '(i, buf) ← (if val =? 0 then buf ← arr_set (replicate 21 0) 0 48; Ret (1%nat, buf)
               else
                 '(i, buf) ← elf_dec_loop 22 0 val (replicate 21 0);
                 buf ← elf_reverse (i / 2) 0 i buf;
                 Ret (i, buf));
  buf ← arr_set buf i 0;
  Ret (until_nul buf).

(** The addresses of the names in the self-test. *)
Record test_names := mkNames {
  n_printf : Z;
  n_malloc : Z;
  n_free : Z;
  n_strlen : Z;
  n_unknown : Z
}.

(** The text the test sends, and the state it leaves. *)
Definition rust_elf_test_dynamic_linking (ns : test_names) (s : elf) : outcome (list Z * elf) :=
  s ← rust_elf_add_symbol (n_printf ns) 0x1000 s;
  s ← rust_elf_add_symbol (n_malloc ns) 0x2000 s;
  s ← rust_elf_add_symbol (n_free ns) 0x3000 s;
  s ← rust_elf_add_symbol (n_strlen ns) 0x4000 s;
  '(printf_addr, s) ← rust_elf_resolve_symbol (n_printf ns) s;
  '(malloc_addr, s) ← rust_elf_resolve_symbol (n_malloc ns) s;
  '(unknown_addr, s) ← rust_elf_resolve_symbol (n_unknown ns) s;
  t1 ← elf_write_hex printf_addr;
  t2 ← elf_write_hex malloc_addr;
  t3 ← elf_write_hex unknown_addr;
  t4 ← elf_write_dec (rust_elf_get_loaded_library_count s);
  t5 ← elf_write_dec (rust_elf_get_global_symbol_count s);
  Ret (line "[ELF] Testing dynamic linking capabilities" ++
       bytes "[ELF] printf resolved to: " ++ t1 ++ [10] ++
       bytes "[ELF] malloc resolved to: " ++ t2 ++ [10] ++
       bytes "[ELF] unknown_function resolved to: " ++ t3 ++ [10] ++
       bytes "[ELF] Loaded libraries: " ++ t4 ++ [10] ++
       bytes "[ELF] Global symbols: " ++ t5 ++ [10] ++
       line "[ELF] Dynamic linking test completed", s).

(** ** The printers *)
Lemma elf_hex_loop_eq n i v buf : (i + n <= 15)%nat -> elf_hex_loop n i v buf = hex_loop n i v buf.
Proof.
  revert i buf. induction n as [|n IH]; intros i buf H; cbn [elf_hex_loop hex_loop]; [done|].
  rewrite (proj2 (Nat.ltb_lt i 15)) by lia. destruct (arr_set _ _ _); [|done..]. step_ret. apply IH. lia.
Qed.

Lemma elf_hex_loop_last n i v buf :
  (i + n = 15)%nat -> elf_hex_loop (S n) i v buf = elf_hex_loop n i v buf.
Proof.
  revert i buf. induction n as [|n IH]; intros i buf H.
  - cbn [elf_hex_loop]. rewrite (proj2 (Nat.ltb_ge i 15)) by lia. done.
  - cbn [elf_hex_loop]. destruct (if (i <? 15)%nat then _ else _) as [b| | |]; [|done..]. step_ret. apply IH. lia.
Qed.

Lemma elf_write_hex_text v :
  elf_write_hex v = Ret (bytes "0x" ++ ((fun j => hex_upper (hex_digit v j)) <$> seq 0 15)).
Proof.
  unfold elf_write_hex. rewrite arr_set_ok by (rewrite length_replicate; lia). step_ret.
  rewrite arr_set_ok by (rewrite length_insert, length_replicate; lia). step_ret.
  change (<[1%nat:=120]> (<[0%nat:=48]> (replicate 18 0))) with ([48; 120] ++ replicate 16 0).
  rewrite elf_hex_loop_last, elf_hex_loop_eq, hex_loop_ok by (rewrite ?length_replicate; cbn; lia). step_ret.
  rewrite arr_set_ok by (rewrite !length_app, length_fmap, length_seq, length_drop, length_replicate; cbn; lia). step_ret. f_equal.
  rewrite app_assoc. rewrite insert_app_r_alt by (rewrite length_app, length_fmap, length_seq; cbn; lia).
  apply until_nul_app. apply Forall_app. split; [by repeat constructor|].
  apply Forall_forall. intros c (j & -> & _)%list_elem_of_fmap. apply unhex_upper, hex_digit_range.
Qed.

Lemma elf_dec_loop_ok room v ds fuel pre z :
  digit_loop room v = Ret ds -> (length ds <= fuel)%nat -> (length ds <= z)%nat ->
  elf_dec_loop fuel (length pre) v (pre ++ replicate z 0) = Ret ((length pre + length ds)%nat, pre ++ ds ++ replicate (z - length ds) 0).
Proof.
  revert v ds fuel pre z. induction room as [|room IH]; intros v ds fuel pre z E Hf Hz; cbn [digit_loop] in E.
  - destruct (v <=? 0) eqn:Ev; [|done]. apply Ret_inj in E as <-. destruct fuel; cbn [elf_dec_loop]; rewrite Ev; cbn [length app]; by rewrite Nat.add_0_r, Nat.sub_0_r.
  - destruct (v <=? 0) eqn:Ev.
    { apply Ret_inj in E as <-. destruct fuel; cbn [elf_dec_loop]; rewrite Ev; cbn [length app]; by rewrite Nat.add_0_r, Nat.sub_0_r. }
    inv_bind E. apply Ret_inj in E as <-. cbn [length] in Hf, Hz. destruct fuel as [|f]; [lia|]. cbn [elf_dec_loop]. rewrite Ev.
    destruct z as [|z]; [lia|]. rewrite arr_set_ok by (rewrite length_app, length_replicate; lia). step_ret.
    rewrite insert_app_r_alt, Nat.sub_diag by lia. cbn [replicate].
    change (<[0%nat:=48 + v mod 10]> (0 :: replicate z 0)) with ([48 + v mod 10] ++ replicate z 0). rewrite app_assoc.
    replace (S (length pre)) with (length (pre ++ [48 + v mod 10])) by (rewrite length_app; cbn; lia).
    rewrite (IH _ r f (pre ++ [48 + v mod 10]) z Hr) by lia. rewrite length_app. cbn [length]. f_equal. f_equal; [lia|].
    rewrite <- app_assoc. done.
Qed.

(** The loop that reverses the first [i] bytes, from its turn [j] on. *)
Lemma elf_reverse_ok n j i buf :
  (n + j = i / 2)%nat -> (i <= length buf)%nat -> (i <= 36)%nat ->
  exists buf', elf_reverse n j i buf = Ret buf' /\ length buf' = length buf /\
    forall k, buf' !! k = if decide (j <= k < i - j)%nat then buf !! (i - 1 - k)%nat else buf !! k.
Proof.
  revert j buf. induction n as [|n IH]; intros j buf Hn Hl Hi; cbn [elf_reverse]; pose proof (Nat.div_mod_eq i 2); pose proof (Nat.mod_upper_bound i 2 ltac:(lia)).
  - exists buf. split; [done|]. split; [done|]. intros k. destruct (decide _) as [Hk|]; [|done]. f_equal. lia.
  - rewrite (proj2 (Nat.ltb_lt j 18)) by lia.
    destruct (lookup_lt_is_Some_2 buf j) as [t Ht]; [lia|]. destruct (lookup_lt_is_Some_2 buf (i - 1 - j)) as [u Hu]; [lia|].
    rewrite (arr_get_ok _ _ _ Ht). step_ret. rewrite (arr_get_ok _ _ _ Hu). step_ret. rewrite arr_set_ok by lia. step_ret.
    rewrite arr_set_ok by (rewrite length_insert; lia). step_ret.
    destruct (IH (S j) (<[(i - 1 - j)%nat:=t]> (<[j:=u]> buf))) as (buf' & E & Hl' & Hb); [lia|by rewrite !length_insert|done|].
    exists buf'. rewrite !length_insert in Hl'. split; [done|]. split; [done|]. intros k. rewrite Hb.
    destruct (decide (S j <= k < i - S j)%nat) as [H1|H1].
    + rewrite decide_True, !list_lookup_insert_ne by lia. done.
    + destruct (decide (k = (i - 1 - j)%nat)) as [->|]; [rewrite list_lookup_insert_eq, decide_True by (rewrite ?length_insert; lia); rewrite <- Ht; f_equal; lia|].
      rewrite list_lookup_insert_ne by lia. destruct (decide (k = j)) as [->|]; [rewrite list_lookup_insert_eq, decide_True by lia; rewrite <- Hu; f_equal; lia|].
      rewrite list_lookup_insert_ne, decide_False by lia. done.
Qed.

Lemma elf_write_dec_text v :
  0 <= v < 2 ^ 64 -> exists ds, elf_write_dec v = Ret ds /\ Forall is_digit ds /\ ds <> [] /\ dec_value ds = v.
Proof.
  intros Hv. unfold elf_write_dec. destruct (Z.eqb_spec v 0) as [->|Hne].
  { exists [48]. split; [reflexivity|]. split; [by repeat constructor|done]. }
  destruct (digit_loop_ok 20 v) as (ds & E & Hl & Hd & Hnil & Hval); [assert (2 ^ 64 < 10 ^ Z.of_nat 20) by reflexivity; lia|].
  pose proof (elf_dec_loop_ok 20 v ds 22 [] 21 E ltac:(lia) ltac:(lia)) as El. cbn [length app Nat.add] in El. rewrite El. step_ret.
  destruct (elf_reverse_ok (length ds / 2) 0 (length ds) (ds ++ replicate (21 - length ds) 0)) as (buf & Er & Hlb & Hb);
    [lia|rewrite length_app; lia|lia|]. rewrite Er. step_ret.
  assert (buf = rev ds ++ replicate (21 - length ds) 0) as ->.
  { apply list_eq. intros k. rewrite Hb. destruct (decide _) as [Hk|Hk].
    - rewrite !lookup_app_l by (rewrite ?length_rev; lia). rewrite rev_alt. change (rev_append ds []) with (reverse ds). rewrite reverse_lookup by lia. f_equal. lia.
    - rewrite !lookup_app_r by (rewrite ?length_rev; lia). by rewrite length_rev. }
  rewrite arr_set_ok by (rewrite length_app, length_rev, length_replicate; lia). step_ret.
  exists (rev ds). assert (Forall is_digit (rev ds)) as Hdr by by apply Forall_rev. split.
  - f_equal. rewrite insert_app_r_alt by (rewrite length_rev; lia). rewrite length_rev, Nat.sub_diag.
    destruct (21 - length ds)%nat eqn:En; [lia|]. cbn [replicate]. change (<[0%nat:=0]> (0 :: replicate n 0)) with (0 :: replicate n 0). by apply until_nul_app, digits_nonzero.
  - split; [done|]. split.
    + intros Hr. apply (f_equal length) in Hr. rewrite length_rev in Hr. destruct ds; [by specialize (Hnil eq_refl)|done].
    + unfold dec_value. rewrite <- fold_left_rev_right, rev_involutive. done.
Qed.

(** ** Symbols *)
Lemma add_symbol_eq p n a s : cstr_at (elf_mem s) p n -> rust_elf_add_symbol p a s = Ret (with_symbols (bt_insert n a (GLOBAL_SYMBOLS s)) s).
Proof. intros H. unfold rust_elf_add_symbol. by rewrite (read_cstr_ok _ _ _ H). Qed.

Lemma resolve_symbol_eq p n s :
  cstr_at (elf_mem s) p n -> LOADED_LIBRARIES s = [] -> rust_elf_resolve_symbol p s = Ret (default 0 (bt_get n (GLOBAL_SYMBOLS s)), s).
Proof.
  intros H Hl. unfold rust_elf_resolve_symbol, resolve_symbol. rewrite (read_cstr_ok _ _ _ H), Hl. step_ret.
  by destruct (bt_get n (GLOBAL_SYMBOLS s)).
Qed.

(** ** The properties *)

(** The number printers of elf.rs: a decimal print of a 64-bit value keeps inside its
    array and sends digits that denote the value; a hexadecimal print loses the last
    digit, because the check against the length of the array skips it: it sends "0x"
    and 15 digits of the value divided by 16. *)
Theorem elf_printers v :
  0 <= v < 2 ^ 64 ->
  (exists ds, elf_write_dec v = Ret ds /\ Forall is_digit ds /\ ds <> [] /\ dec_value ds = v) /\
  (exists ds, elf_write_hex v = Ret (bytes "0x" ++ ds) /\ length ds = 15%nat /\ hex_value ds = v / 16).
Proof.
  intros Hv. split; [by apply elf_write_dec_text|]. eexists. split; [apply elf_write_hex_text|]. split; [done|].
  by rewrite hex_value_digits by lia.
Qed.

Lemma elf_printers_witness : exists ds, elf_write_dec 65535 = Ret ds /\ dec_value ds = 65535.
Proof. destruct (elf_printers 65535) as [(ds & H1 & _ & _ & H2) _]; [lia|]. exists ds. split; [exact H1|exact H2]. Defined.

(** The self-test passes on a fresh linker: it returns, leaves exactly its four
    symbols in the table, and reports the addresses of the two it knows (without their
    last digit), address 0 for the unknown name, no libraries and four symbols. *)
Theorem elf_self_test ns s :
  cstr_at (elf_mem s) (n_printf ns) (bytes "printf") -> cstr_at (elf_mem s) (n_malloc ns) (bytes "malloc") ->
  cstr_at (elf_mem s) (n_free ns) (bytes "free") -> cstr_at (elf_mem s) (n_strlen ns) (bytes "strlen") ->
  cstr_at (elf_mem s) (n_unknown ns) (bytes "unknown_function") ->
  rust_elf_test_dynamic_linking ns (rust_elf_init_dynamic_linking s) =
  Ret (line "[ELF] Testing dynamic linking capabilities" ++
       line "[ELF] printf resolved to: 0x000000000000100" ++
       line "[ELF] malloc resolved to: 0x000000000000200" ++
       line "[ELF] unknown_function resolved to: 0x000000000000000" ++
       line "[ELF] Loaded libraries: 0" ++
       line "[ELF] Global symbols: 4" ++
       line "[ELF] Dynamic linking test completed",
       mkElf (elf_mem s) (elf_heap s)
         [(bytes "free", 0x3000); (bytes "malloc", 0x2000); (bytes "printf", 0x1000); (bytes "strlen", 0x4000)] []).
Proof.
  intros H1 H2 H3 H4 H5. unfold rust_elf_test_dynamic_linking.
  do 4 (erewrite add_symbol_eq by eassumption; step_ret).
  set (st := mkElf (elf_mem s) (elf_heap s) [(bytes "free", 0x3000); (bytes "malloc", 0x2000); (bytes "printf", 0x1000); (bytes "strlen", 0x4000)] []).
  match goal with |- context [rust_elf_resolve_symbol (n_printf ns) ?t] => change t with st end.
  rewrite (resolve_symbol_eq _ _ st H1) by reflexivity. step_ret. rewrite (resolve_symbol_eq _ _ st H2) by reflexivity. step_ret.
  rewrite (resolve_symbol_eq _ _ st H5) by reflexivity. step_ret. reflexivity.
Qed.
