(* ===== verification/Root.v ===== *)
(** * The crate root, [lib.rs.template]

    The global allocator that serves Rust's collections from the kernel heap, the
    panic handler and the entry point called from C.  (The task functions of the file
    are in [Tasks]; its other exported functions forward to those of [Elf] and
    [Ext2].) *)

From S2P Require Import Prelude Memory Heap Blocks Keyboard BTree Vfs Elf Ext2.

Local Open Scope Z_scope.

(** ** The code *)

(** [core::alloc::Layout]. *)
Record Layout := mkLayout { layout_size : Z; layout_align : Z }.

(** [impl GlobalAlloc for KernelAllocator]. *)
Definition alloc (layout : Layout) (h : heap) : outcome (Z * heap) := rust_kmalloc h (layout_size layout).
Definition dealloc (ptr : Z) (_ : Layout) (h : heap) : outcome heap := rust_kfree h ptr.

(** The panic handler prints the line number in a local array of 20 bytes. *)
Definition panic_line (n : Z) : outcome (list Z) :=
  ds ← dec_digits 20 n;
  buf ← arr_copy (replicate 20 48) 0 ds;
  buf ← arr_set buf (length ds) 32;
  buf ← arr_set buf (S (length ds)) 0;
  Ret (until_nul buf).

(** [PanicInfo]: the place, as the address of the file name and a line number, and
    the pieces of the message as [write!] hands them to [write_str], by their
    addresses. *)
Record PanicInfo := mkPanicInfo {
  location : option (Z * Z);
  message : list Z
}.

Fixpoint write_pieces (m : mem) (ps : list Z) : outcome (list Z) :=
  match ps with
  | [] => Ret []
  | p :: ps' => t ← read_cstr m p; ts ← write_pieces m ps'; Ret (t ++ ts)
  end.

(** What [panic] sends before it stops: [serial_write] takes each text up to the next
    NUL in memory.  [msg] and [colon] are the addresses of the literals, which have
    none. *)
Definition panic (m : mem) (msg colon : Z) (info : PanicInfo) : outcome (list Z) :=
  t1 ← read_cstr m msg;
  t2 ← match location info with
       | Some (file, n) =>
           f ← read_cstr m file;
           c ← read_cstr m colon;
           l ← panic_line n;
           Ret (f ++ c ++ l)
       | None => Ret []
       end;
  t3 ← write_pieces m (message info);
  Ret (t1 ++ t2 ++ t3 ++ [10]).

(** The statics the entry point initialises. *)
Record statics := mkStatics { st_keyboard : keyboard; st_elf : elf; st_ext2 : Ext2Fs }.

Definition rust_entry_point (s : statics) : statics :=
  mkStatics (rust_keyboard_init (st_keyboard s)) (rust_elf_init_dynamic_linking (st_elf s)) new.

(** ** Clients of the allocator *)

(** What Rust guarantees of a layout it passes: a positive size, an alignment that is
    a power of two, and no overflow when the size is rounded up to it. *)
Record layout_ok (l : Layout) : Prop := {
  lo_size : 0 < layout_size l;
  lo_align : exists k, 0 <= k /\ layout_align l = 2 ^ k;
  lo_fits : layout_size l + layout_align l - 1 < 2 ^ 63
}.

(** The heaps of a kernel whose collections hold the blocks [held]. *)
Inductive served (heap_base : Z) : heap -> list (Z * Layout) -> Prop :=
| served_init : served heap_base (init_heap heap_base) []
| served_alloc h held l p h' :
    served heap_base h held -> layout_ok l -> alloc l h = Ret (p, h') ->
    served heap_base h' (if p =? 0 then held else (p, l) :: held)
| served_dealloc h held held' p l h' :
    served heap_base h held -> held ≡ₚ (p, l) :: held' -> dealloc p l h = Ret h' -> served heap_base h' held'.

(** Each block held is the beginning of an allocation. *)
Definition backed (b : Z * Layout) (r : Z * Z) : Prop := b.1 = r.1 /\ layout_size b.2 <= r.2.

Section allocator.

Context (heap_base : Z) (Hbase : base_ok heap_base).

Lemma live_aligned segs p sz : Forall seg_ok segs -> (p, sz) ∈ live heap_base segs -> (16 | p).
Proof.
  intros Hok Hin. apply live_split in Hin as (l & r & -> & ->). apply Forall_app in Hok as [Hl _].
  destruct Hbase as (_ & Hb16 & _). apply Z.divide_add_r; [|by exists 3].
  apply Z.divide_add_r; [done|by apply span_aligned].
Qed.

Lemma served_inv h held :
  served heap_base h held ->
  exists segs bs, heap_inv heap_base h segs /\ live heap_base segs ≡ₚ bs /\ Forall2 backed held bs /\ Forall (fun b => layout_ok b.2) held.
Proof.
  induction 1 as [|h held l p h' _ (segs & bs & Hi & Hl & Hf & Ho) Hlo E|h held held' p l h' _ (segs & bs & Hi & Hl & Hf & Ho) Hp E].
  - exists [(HEAP_SIZE - BLOCK_HEADER, true)], []. split; [apply init_heap_inv|]. done.
  - destruct Hlo as [H1 (k & Hk & Ha) H2]. assert (0 < 2 ^ k) by by apply Z.pow_pos_nonneg.
    destruct (kmalloc_cases heap_base Hbase h segs (layout_size l) Hi) as (q & h1 & Ek & Hc); [done|lia|].
    unfold alloc in E. rewrite Ek in E. injection E as <- <-. destruct Hc as [(-> & _ & Hi')|(Hq & segs' & sz & Hsz & Hi' & Hl')].
    + exists segs, bs. done.
    + rewrite (proj2 (Z.eqb_neq q 0)) by done. exists segs', ((q, sz) :: bs). split; [done|]. split; [by rewrite Hl', Hl|].
      split; constructor; try done. constructor; [done|by exists k|done].
  - destruct (Permutation_Forall2 Hp Hf) as (bs' & Hp' & Hf'). inversion Hf' as [|? [q sz] ? bs1 [E1 _] Hf1]; subst. cbn in E1. subst q.
    rewrite Hp' in Hl. destruct (kfree_removes heap_base Hbase h segs p sz bs1 Hi Hl) as (h1 & segs' & Ek & Hi' & Hl').
    unfold dealloc in E. rewrite Ek in E. apply Ret_inj in E as <-. exists segs', bs1. split; [done|]. split; [done|]. split; [done|].
    rewrite Hp in Ho. by apply Forall_cons in Ho as [_ Ho].
Qed.

(** The blocks held are aligned to 16, lie in the array and share no byte. *)
Lemma served_blocks h held :
  served heap_base h held ->
  (forall p l, (p, l) ∈ held -> (16 | p) /\ heap_base <= p /\ p + layout_size l <= heap_base + HEAP_SIZE) /\
  apart ((fun b => (b.1, layout_size b.2)) <$> held).
Proof.
  intros Hs. destruct (served_inv h held Hs) as (segs & bs & Hi & Hl & Hf & _). pose proof (inv_sizes _ _ _ Hi) as Hok. split.
  - intros p l Hin. apply list_elem_of_lookup in Hin as [i Hh]. destruct (Forall2_lookup_l _ _ _ _ _ Hf Hh) as ([q sz] & Hb & [E1 E2]). cbn in E1, E2. subst q.
    assert ((p, sz) ∈ live heap_base segs) as Hp by (rewrite Hl; by eapply list_elem_of_lookup_2). split; [by eapply live_aligned|].
    destruct (live_bound _ _ _ _ Hok Hp) as (B1 & B2 & _). rewrite (inv_span _ _ _ Hi) in B2. unfold BLOCK_HEADER in B1. lia.
  - pose proof (live_NoDup heap_base segs Hok) as Hnd. rewrite Hl in Hnd. intros i j p a q b Hij Ei Ej.
    rewrite list_lookup_fmap in Ei, Ej. apply fmap_Some in Ei as ([p1 l1] & Hi1 & [= -> ->]). apply fmap_Some in Ej as ([q1 l2] & Hj1 & [= -> ->]).
    destruct (Forall2_lookup_l _ _ _ _ _ Hf Hi1) as ([p2 s1] & Hb1 & [E1 E2]). destruct (Forall2_lookup_l _ _ _ _ _ Hf Hj1) as ([q2 s2] & Hb2 & [E3 E4]).
    cbn in *. subst p2 q2. destruct (live_sep heap_base segs p1 s1 q1 s2) as [E|[E|E]]; [done|rewrite Hl; by eapply list_elem_of_lookup_2..| | |].
    + rewrite E in Hb1. by destruct Hij; eapply NoDup_lookup.
    + unfold BLOCK_HEADER in E. lia.
    + unfold BLOCK_HEADER in E. lia.
Qed.

End allocator.

(** ** The properties *)

(** The global allocator keeps the contract of Rust's allocation interface for
    alignments up to 16: in every state the kernel's collections can bring it to, each
    block held is aligned as its layout asks and lies in the array, no two blocks held
    share a byte, a further allocation with any valid layout returns, and so does
    giving back any block held. *)
Theorem kernel_allocator_contract heap_base h held :
  base_ok heap_base -> served heap_base h held ->
  (forall p l, (p, l) ∈ held -> layout_align l <= 16 ->
     (layout_align l | p) /\ heap_base <= p /\ p + layout_size l <= heap_base + HEAP_SIZE) /\
  apart ((fun b => (b.1, layout_size b.2)) <$> held) /\
  (forall l, layout_ok l -> exists r, alloc l h = Ret r) /\
  (forall p l, (p, l) ∈ held -> exists h', dealloc p l h = Ret h').
Proof.
  intros Hb Hs. destruct (served_inv heap_base Hb h held Hs) as (segs & bs & Hi & Hl & Hf & Ho).
  destruct (served_blocks heap_base Hb h held Hs) as [H1 H2]. split; [|split; [done|split]].
  - intros p l Hin Ha. destruct (H1 p l Hin) as (Hd & Hr). split; [|done]. etrans; [|exact Hd].
    eapply Forall_forall in Ho; [|exact Hin]. destruct Ho as [_ (k & Hk & Ek) _]. cbn in Ek. rewrite Ek in Ha |- *.
    change 16 with (2 ^ 4) in *. apply Z.pow_le_mono_r_iff in Ha; [|lia..]. exists (2 ^ (4 - k)). rewrite <- Z.pow_add_r by lia. f_equal. lia.
  - intros l [L1 (k & Hk & Ek) L3]. pose proof (Z.pow_pos_nonneg 2 k). destruct (malloc_segs_spec _ Hb h segs (layout_size l) Hi) as (h' & E & _); [lia|].
    by eexists.
  - intros p l Hin. apply list_elem_of_lookup in Hin as [i Hh]. destruct (Forall2_lookup_l _ _ _ _ _ Hf Hh) as ([q sz] & Hbs & [E1 _]). cbn in E1. subst q.
    destruct (kfree_live heap_base Hb h segs p sz Hi) as (h' & _ & E & _); [rewrite Hl; by eapply list_elem_of_lookup_2|]. by exists h'.
Qed.

Lemma kernel_allocator_contract_witness :
  exists h, served 4096 h [(4144, mkLayout 100 8)] /\ (8 | 4144).
Proof.
  destruct (malloc_segs_spec 4096 base_ok_4096 _ _ 100 (init_heap_inv 4096)) as (h & E & _); [lia|].
  assert (served 4096 h [(4144, mkLayout 100 8)]) as Hs.
  { apply (served_alloc 4096 (init_heap 4096) [] (mkLayout 100 8) 4144 h); [constructor| |exact E].
    constructor; cbn; [lia|by exists 3|lia]. }
  exists h. split; [exact Hs|]. destruct (kernel_allocator_contract 4096 h _ base_ok_4096 Hs) as [H _].
  apply (H 4144 (mkLayout 100 8)); [left|cbn; lia].
Defined.

(** The alignment of a layout is ignored: wherever the array lies, a client that asks
    for two blocks of 32 bytes aligned to 64 holds one that is not. *)
Theorem kernel_allocator_misaligns heap_base :
  base_ok heap_base ->
  exists h p q, served heap_base h [(q, mkLayout 32 64); (p, mkLayout 32 64)] /\ ~ ((64 | p) /\ (64 | q)).
Proof.
  intros Hb. assert (layout_ok (mkLayout 32 64)) as Hlo by (constructor; cbn; [lia|by exists 6|lia]). pose proof Hb as (Hb0 & _).
  destruct (malloc_segs_spec _ Hb _ _ 32 (init_heap_inv heap_base)) as (h1 & E1 & Hi1); [lia|].
  destruct (malloc_segs_spec _ Hb h1 _ 32 Hi1) as (h2 & E2 & _); [lia|].
  change (malloc_segs heap_base 32 [(HEAP_SIZE - BLOCK_HEADER, true)]) with (heap_base + BLOCK_HEADER, [(32, false); (4194176, true)]) in *.
  cbn [fst snd] in *. set (p := heap_base + BLOCK_HEADER) in *.
  change (malloc_segs heap_base 32 [(32, false); (4194176, true)]).1 with (heap_base + seg_len (32, false) + BLOCK_HEADER) in E2.
  set (q := heap_base + seg_len (32, false) + BLOCK_HEADER) in *. exists h2, p, q. split.
  - replace [(q, mkLayout 32 64); (p, mkLayout 32 64)] with (if q =? 0 then [(p, mkLayout 32 64)] else [(q, mkLayout 32 64); (p, mkLayout 32 64)]).
    2:{ rewrite (proj2 (Z.eqb_neq q 0)); [done|]. unfold q, seg_len, BLOCK_HEADER. cbn [fst]. lia. }
    apply (served_alloc _ h1); [|done|exact E2]. replace [(p, mkLayout 32 64)] with (if p =? 0 then [] else [(p, mkLayout 32 64)]).
    2:{ rewrite (proj2 (Z.eqb_neq p 0)); [done|]. unfold p, BLOCK_HEADER. lia. }
    apply (served_alloc _ (init_heap heap_base)); [constructor|done|exact E1].
  - intros [[a Ha] [b Hb']]. unfold p, q, seg_len, BLOCK_HEADER in *. cbn [fst] in *. lia.
Qed.

(** The panic report: with a message, a file name and a separator that end in a NUL
    somewhere in memory, the handler sends each of them up to there (the literals of
    the source have no NUL of their own, so whatever follows them is sent too), the
    line number in decimal and a newline. *)
Theorem panic_reports m msg colon file n pieces t f c ts :
  cstr_at m msg t -> cstr_at m file f -> cstr_at m colon c -> Forall2 (cstr_at m) pieces ts -> 0 <= n < 2 ^ 32 ->
  exists ds, panic m msg colon (mkPanicInfo (Some (file, n)) pieces) = Ret (t ++ (f ++ c ++ ds ++ [32]) ++ concat ts ++ [10]) /\
    Forall is_digit ds /\ dec_value ds = n.
Proof.
  intros Ht Hf Hc Hp Hn. destruct (dec_digits_ok 10 n) as (ds & E & Hl & Hd & Hv); [lia|change (10 ^ Z.of_nat 10) with 10000000000; lia|].
  assert (dec_digits 20 n = Ret ds) as E20 by (apply (dec_digits_more 10); [lia|done]).
  assert (panic_line n = Ret (ds ++ [32])) as El.
  { unfold panic_line. rewrite E20. step_ret. rewrite arr_copy_ok by (rewrite length_replicate; lia). step_ret. rewrite take_0. cbn [Nat.add app].
    rewrite drop_replicate, arr_set_ok by (rewrite ?length_app, ?length_replicate; lia). step_ret.
    rewrite insert_app_r_alt, Nat.sub_diag by lia. destruct (20 - length ds)%nat as [|[|k]] eqn:Ek; [lia..|]. cbn [replicate].
    change (<[0%nat:=32]> (48 :: 48 :: replicate k 48)) with ([32] ++ 48 :: replicate k 48). rewrite app_assoc.
    rewrite arr_set_ok by (rewrite !length_app; cbn; lia). step_ret. rewrite insert_app_r_alt by (rewrite length_app; cbn; lia).
    replace (S (length ds) - length (ds ++ [32%Z]))%nat with 0%nat by (rewrite length_app; cbn; lia). f_equal. apply until_nul_app.
    apply Forall_app. split; [by apply digits_nonzero|by repeat constructor]. }
  exists ds. split; [|done]. unfold panic. cbn [location message]. rewrite (read_cstr_ok _ _ _ Ht). step_ret.
  rewrite (read_cstr_ok _ _ _ Hf). step_ret. rewrite (read_cstr_ok _ _ _ Hc). step_ret. rewrite El. step_ret.
  assert (write_pieces m pieces = Ret (concat ts)) as ->; [|done]. clear -Hp. induction Hp as [|p t' ps ts Hp _ IH]; cbn [write_pieces concat]; [done|].
  rewrite (read_cstr_ok _ _ _ Hp). step_ret. by rewrite IH.
Qed.
