(* ===== verification/ShellText.v ===== *)
(** * The shell's text handling

    The part of kernel-rs/src/bash.rs that works on byte arrays: the string
    utilities (lines 51-145), the line editor [read_line], the splitting of a
    command line into arguments [parse_command_heap] and [get_arg_heap], the
    prompt, decimal numbers and dotted-quad addresses.

    Arrays keep their length; a NUL ends the string inside. *)

From S2P Require Import Prelude.

Local Open Scope Z_scope.

(** ** Utilities *)

(** What [print_str] sends to the serial line and the screen: the first 1023
    bytes, which the C side reads up to a NUL. *)
Definition print_str (s : list Z) : list Z := until_nul (take 1023 s).

(** The digits [print_int] prints. *)
Definition print_int (n : Z) : outcome (list Z) := ds ← dec_digits 32 n; Ret (print_str (ds ++ [0])).

Definition get_str (bs : list Z) : list Z := until_nul bs.

Definition str_eq (a b : list Z) : bool := bool_decide (get_str a = get_str b).

Definition copy_str (dest src : list Z) : list Z :=
  match dest with
  | [] => []
  | _ => let len := Nat.min (length dest - 1) (length src) in take len src ++ [0] ++ drop (S len) dest
  end.

Definition str_append (dest src : list Z) : list Z :=
  let dest_len := length (get_str dest) in
  let remaining := (length dest - (dest_len + 1))%nat in
  let copy_len := Nat.min remaining (length src) in
  if (dest_len + copy_len <? length dest)%nat
  then take dest_len dest ++ take copy_len src ++ [0] ++ drop (dest_len + copy_len + 1) dest
  else dest.

(** [find_byte]: the position of the first occurrence. *)
Fixpoint find_byte (haystack : list Z) (needle : Z) : option nat :=
  match haystack with
  | [] => None
  | b :: l => if b =? needle then Some 0%nat else S <$> find_byte l needle
  end.

Definition is_digit_char (c : Z) : bool := (48 <=? c) && (c <=? 57).

(** The digits at the front: the value, which wraps at 32 bits, and how many. *)
Fixpoint parse_digits (acc : Z) (k : nat) (s : list Z) : Z * nat :=
  match s with
  | c :: s' => if is_digit_char c then parse_digits (i32 (acc * 10 + (c - 48))) (S k) s' else (acc, k)
  | [] => (acc, k)
  end.

Definition parse_int (s : list Z) : option Z :=
  match s with
  | [] => None
  | c :: s' =>
      let negative := c =? 45 in
      let '(result, i) := parse_digits 0 (if negative then 1 else 0) (if negative then s' else s) in
      if (i =? 0)%nat || ((i =? 1)%nat && negative) then None
      else Some (if negative then i32 (- result) else result)
  end.

Definition MAX_CMD_LEN : nat := 1024.
Definition MAX_PATH_LEN : nat := 256.
Definition MAX_ENV_VARS : nat := 50.
Definition MAX_ALIASES : nat := 20.
Definition MAX_HISTORY : nat := 10.
Definition MAX_ARGS : nat := 32.

(** ** Arguments *)
Definition is_blank (c : Z) : bool := (c =? 32) || (c =? 9).
Definition is_quote (c : Z) : bool := (c =? 34) || (c =? 39).

Fixpoint skip_blanks (l : list Z) : list Z :=
  match l with
  | c :: l' => if is_blank c then skip_blanks l' else l
  | [] => []
  end.

Record parser := mkParser {
  argc : nat;
  arg_start : nat;
  in_quotes : bool;
  quote_char : Z;
  buffer_pos : nat;
  args_buffer : list Z
}.

(** [args_buffer[buffer_pos] = c; buffer_pos += 1]. *)
Definition put_char (c : Z) (p : parser) : outcome parser :=
  b ← arr_set (args_buffer p) (buffer_pos p) c;
  Ret (mkParser (argc p) (arg_start p) (in_quotes p) (quote_char p) (S (buffer_pos p)) b).

(** "End of argument". *)
Definition end_arg (p : parser) : outcome parser :=
  if (arg_start p <? buffer_pos p)%nat then
    p' ← put_char 0 p;
    Ret (mkParser (S (argc p')) (buffer_pos p') (in_quotes p') (quote_char p') (buffer_pos p') (args_buffer p'))
  else Ret p.

Definition set_quotes (q : bool) (c : Z) (p : parser) : parser :=
  mkParser (argc p) (arg_start p) q c (buffer_pos p) (args_buffer p).

(** One character outside the blanks that separate arguments. *)
Definition parse_char (ch : Z) (p : parser) : outcome parser :=
  if is_quote ch then
    Ret (if negb (in_quotes p) then set_quotes true ch p
         else if ch =? quote_char p then set_quotes false (quote_char p) p else p)
  else put_char ch p.

(** The loop; every turn takes at least one character, so its length plus one is
    fuel enough. *)
Fixpoint parse_loop (fuel : nat) (line : list Z) (p : parser) : outcome parser :=
  match fuel with
  | O => Timeout
  | S f =>
      match line with
      | [] => Ret p
      | ch :: rest =>
          if (argc p <? MAX_ARGS)%nat && (buffer_pos p <? length (args_buffer p) - 64)%nat then
            if negb (in_quotes p) && is_blank ch
            then p' ← end_arg p; parse_loop f (skip_blanks line) p'
            else p' ← parse_char ch p; parse_loop f rest p'
          else Ret p
      end
  end.

Definition parse_command_heap (command_line buffer : list Z) : outcome (nat * list Z) :=
  let line := skip_blanks command_line in
  p ← parse_loop (S (length line)) line (mkParser 0 0 false 0 0 buffer);
  if (arg_start p <? buffer_pos p)%nat && (argc p <? MAX_ARGS)%nat then
    b ← arr_set (args_buffer p) (buffer_pos p) 0;
    Ret (S (argc p), b)
  else Ret (argc p, args_buffer p).

(** Skip [n] strings of the buffer: what is left and how many were skipped. *)
Fixpoint skip_args (n : nat) (b : list Z) : list Z :=
  match n with
  | O => b
  | S n' => skip_args n' (drop (S (length (until_nul b))) b)
  end.

Definition get_arg_heap (b : list Z) (n : nat) : list Z := until_nul (skip_args n b).

(** ** The line editor

    [read_line] takes the characters the keyboard delivers one after the other;
    -1 and 0 mean that there is none yet.  The state is the array and the number of
    characters in it; [None] when the keys given do not end the line. *)
Definition BACKSPACE_ECHO : list Z := [8; 32; 8].

Record editor := mkEditor { ed_buffer : list Z; ed_pos : nat; ed_echo : list Z }.

(** One key other than Enter. *)
Definition edit_key (ch : Z) (e : editor) : outcome editor :=
  if (ch =? 8) || (ch =? 127) then
    if (0 <? ed_pos e)%nat then
      b ← arr_set (ed_buffer e) (ed_pos e - 1) 0;
      Ret (mkEditor b (ed_pos e - 1) (ed_echo e ++ BACKSPACE_ECHO))
    else Ret e
  else if (32 <=? ch) && (ch <? 127) && (ed_pos e <? length (ed_buffer e) - 1)%nat then
    b ← arr_set (ed_buffer e) (ed_pos e) ch;
    Ret (mkEditor b (S (ed_pos e)) (ed_echo e ++ [ch]))
  else Ret e.

Fixpoint read_line_loop (keys : list Z) (e : editor) : outcome (option (list Z * list Z * list Z)) :=
  match keys with
  | [] => Ret None
  | c :: keys' =>
      if (c =? -1) || (c =? 0) then read_line_loop keys' e
      else
        let ch := u8 c in
        if (ch =? 10) || (ch =? 13) then
          b ← arr_set (ed_buffer e) (ed_pos e) 0;
          Ret (Some (b, ed_echo e ++ print_str [10], keys'))
        else e' ← edit_key ch e; read_line_loop keys' e'
  end.

(** The result is the array, the echo on the screen and the keys not yet read. *)
Definition read_line (keys : list Z) : outcome (option (list Z * list Z * list Z)) :=
  read_line_loop keys (mkEditor (replicate MAX_CMD_LEN 0) 0 []).

(** ** Prompt *)

(** The closure [copy]: bytes beyond position 63 are dropped. *)
Fixpoint prompt_copy (src prompt : list Z) : list Z :=
  match src with
  | [] => prompt
  | b :: src' => prompt_copy src' (if (length prompt <? 63)%nat then prompt ++ [b] else prompt)
  end.

(** The 64 bytes [update_prompt] stores. *)
Definition update_prompt (cwd : list Z) : list Z :=
  let text := prompt_copy (bytes "$ ") (prompt_copy (get_str cwd) (prompt_copy (bytes "root@shadeos:") [])) in
  text ++ replicate (64 - length text) 0.

(** ** Dotted-quad addresses *)

(** The parse in [cmd_ping_heap] and [cmd_httpget_heap]: the parts read so far,
    the value of the current one and whether it has a digit. *)
Fixpoint ipv4_loop (host : list Z) (ip : list Z) (val : Z) (saw_digit : bool) : option (list Z * Z * bool) :=
  match host with
  | [] => Some (ip, val, saw_digit)
  | b :: host' =>
      if is_digit_char b then
        let val' := u32 (val * 10 + (b - 48)) in
        if 255 <? val' then None else ipv4_loop host' ip val' true
      else if b =? 46 then
        if (4 <=? length ip)%nat || negb saw_digit then None
        else ipv4_loop host' (ip ++ [u8 val]) 0 false
      else None
  end.

Definition parse_ipv4 (host : list Z) : option (list Z) :=
  '(ip, val, saw_digit) ← ipv4_loop host [] 0 false;
  if negb (length ip =? 3)%nat || negb saw_digit then None else Some (ip ++ [u8 val]).

(** The digits of one byte. *)
Definition octet (num : Z) : list Z :=
  if 100 <=? num then [48 + num / 100; 48 + (num / 10) mod 10; 48 + num mod 10]
  else if 10 <=? num then [48 + num / 10; 48 + num mod 10]
  else [48 + num].

(** What the calls of [print_ip] print, put together. *)
Fixpoint print_ip (ip : list Z) : list Z :=
  match ip with
  | [] => []
  | [num] => octet num
  | num :: ip' => octet num ++ [46] ++ print_ip ip'
  end.

Definition hex_digit_char (n : Z) : Z := if n <? 10 then 48 + n else 97 + n - 10.

Fixpoint print_mac (mac : list Z) : list Z :=
  match mac with
  | [] => []
  | [b] => [hex_digit_char (b >>. 4)%W; hex_digit_char (b .& 0xF)%W]
  | b :: mac' => [hex_digit_char (b >>. 4)%W; hex_digit_char (b .& 0xF)%W; 58] ++ print_mac mac'
  end.

(** [print_ip_padded]: the address padded with blanks to [width]. *)
Definition print_ip_padded (ip : list Z) (width : nat) : list Z :=
  print_ip ip ++ replicate (width - length (print_ip ip)) 32.

(** ** The words of a command line

    The reference for the argument splitting: blanks outside quotes separate
    words, quotes are dropped, and so is the other quote inside quotes; words
    without a character do not count. *)
Definition flush (cur : list Z) : list (list Z) := match cur with [] => [] | _ => [cur] end.

Fixpoint words (q : option Z) (cur l : list Z) : list (list Z) :=
  match l with
  | [] => flush cur
  | c :: l' =>
      match q with
      | None => if is_blank c then flush cur ++ words None [] l'
                else if is_quote c then words (Some c) cur l' else words None (cur ++ [c]) l'
      | Some d => if is_quote c then (if c =? d then words None cur l' else words q cur l')
                  else words q (cur ++ [c]) l'
      end
  end.

Definition shell_words (l : list Z) : list (list Z) := words None [] l.

(** ** Arguments in the buffer *)

(** Words one after the other, each ended by a NUL. *)
Definition encode (ws : list (list Z)) : list Z := ws ≫= fun w => w ++ [0].

Lemma encode_app ws vs : encode (ws ++ vs) = encode ws ++ encode vs.
Proof. apply bind_app. Qed.

Lemma encode_snoc ws w : encode (ws ++ [w]) = encode ws ++ w ++ [0].
Proof. rewrite encode_app. cbn. by rewrite app_nil_r. Qed.

Lemma drop_S_app (v : list Z) c r : drop (S (length v)) (v ++ c :: r) = r.
Proof. induction v as [|x v IH]; cbn; [by rewrite drop_0|exact IH]. Qed.

Lemma get_arg_encode ws rest i w :
  Forall (Forall (fun c => c <> 0)) ws -> ws !! i = Some w -> get_arg_heap (encode ws ++ rest) i = w.
Proof.
  unfold get_arg_heap. intros H. revert i. induction H as [|v ws Hv Hws IH]; intros i Hi; [done|].
  cbn [encode mbind list_bind]. rewrite <- !app_assoc. destruct i as [|i]; cbn in Hi.
  - injection Hi as ->. cbn [skip_args app]. by apply until_nul_app.
  - cbn [skip_args app]. rewrite until_nul_app by done. cbn [app].
    rewrite drop_S_app. by apply IH.
Qed.

Lemma words_skip l : words None [] (skip_blanks l) = words None [] l.
Proof. induction l as [|c l IH]; [done|]. cbn. destruct (is_blank c) eqn:E; [by rewrite IH|]. cbn. by rewrite E. Qed.

Lemma skip_blanks_le l : (length (skip_blanks l) <= length l)%nat.
Proof. induction l as [|c l IH]; cbn; [lia|]. destruct (is_blank c); cbn; lia. Qed.

Lemma skip_blanks_Forall P l : Forall P l -> Forall P (skip_blanks l).
Proof. induction 1 as [|c l Hc Hl IH]; cbn; [done|]. destruct (is_blank c); [done|by constructor]. Qed.

(** The state of the parser: the finished words, the current one, the quotes. *)
Record parsed (cap : nat) (ws : list (list Z)) (cur : list Z) (q : option Z) (p : parser) : Prop := {
  ps_text : exists rest, args_buffer p = encode ws ++ cur ++ rest;
  ps_start : arg_start p = length (encode ws);
  ps_pos : buffer_pos p = (length (encode ws) + length cur)%nat;
  ps_argc : argc p = length ws;
  ps_len : length (args_buffer p) = cap;
  ps_quote : match q with None => in_quotes p = false | Some d => in_quotes p = true /\ quote_char p = d end
}.

(** A byte written at the end of a prefix. *)
Lemma arr_set_prefix (pre : list Z) x rest :
  (0 < length rest)%nat -> exists rest', arr_set (pre ++ rest) (length pre) x = Ret (pre ++ x :: rest') /\
    length (pre ++ x :: rest') = length (pre ++ rest).
Proof.
  intros H. destruct rest as [|y rest]; [cbn in H; lia|]. exists rest. unfold arr_set.
  rewrite decide_True by (rewrite length_app; cbn; lia). rewrite insert_app_r_alt, Nat.sub_diag by lia. cbn.
  split; [done|]. rewrite !length_app. done.
Qed.

Lemma put_char_ok cap ws cur q p c :
  parsed cap ws cur q p -> (buffer_pos p < cap)%nat ->
  exists b rest, put_char c p = Ret (mkParser (argc p) (arg_start p) (in_quotes p) (quote_char p) (S (buffer_pos p)) b) /\
    b = encode ws ++ cur ++ c :: rest /\ length b = cap.
Proof.
  intros [[rest Ht] _ Hp _ Hl _] Hlt. unfold put_char. rewrite Ht, app_assoc in *.
  replace (buffer_pos p) with (length (encode ws ++ cur)) in * by (rewrite length_app; lia).
  destruct (arr_set_prefix (encode ws ++ cur) c rest) as (rest' & -> & E).
  { rewrite length_app in Hl. lia. }
  eexists _, rest'. split; [reflexivity|]. rewrite <- app_assoc. split; [done|]. rewrite app_assoc. congruence.
Qed.

Lemma put_char_parsed cap ws cur q p c :
  parsed cap ws cur q p -> (buffer_pos p < cap)%nat ->
  exists p', put_char c p = Ret p' /\ parsed cap ws (cur ++ [c]) q p'.
Proof.
  intros H Hlt. destruct (put_char_ok _ _ _ _ _ c H Hlt) as (b & rest & E & -> & Hl). eexists. split; [exact E|].
  destruct H as [_ H2 H3 H4 _ H6]. constructor; cbn; [|done| |done|done|done].
  - exists rest. by rewrite <- app_assoc.
  - rewrite length_app. cbn. lia.
Qed.

Lemma end_arg_parsed cap ws cur q p :
  parsed cap ws cur q p -> (buffer_pos p < cap)%nat ->
  exists p', end_arg p = Ret p' /\ parsed cap (ws ++ flush cur) [] q p'.
Proof.
  intros H Hlt. unfold end_arg. pose proof H as [Ht H2 H3 H4 H5 H6].
  destruct (Nat.ltb_spec (arg_start p) (buffer_pos p)) as [Hc|Hc].
  - destruct (put_char_ok _ _ _ _ _ 0 H Hlt) as (b & rest & -> & -> & Hl). step_ret. eexists. split; [reflexivity|].
    destruct cur as [|c cur]; [cbn in *; lia|]. cbn [flush]. constructor; cbn [argc arg_start in_quotes quote_char buffer_pos args_buffer].
    + exists rest. rewrite encode_snoc, <- !app_assoc. done.
    + rewrite encode_snoc, !length_app. cbn [length] in *. lia.
    + rewrite encode_snoc, !length_app. cbn [length] in *. lia.
    + rewrite length_app. cbn. lia.
    + done.
    + done.
  - assert (cur = []) as -> by (apply length_zero_iff_nil; lia). exists p. split; [done|]. cbn. by rewrite app_nil_r.
Qed.

(** [parse_char] follows the reference on one character. *)
Lemma parse_char_parsed cap ws cur q p c l :
  parsed cap ws cur q p -> (buffer_pos p < cap)%nat -> negb (in_quotes p) && is_blank c = false ->
  exists p' q' cur', parse_char c p = Ret p' /\ parsed cap ws cur' q' p' /\
    (length cur' <= S (length cur))%nat /\ (forall d, d ∈ cur' -> d ∈ cur \/ d = c) /\
    words q cur (c :: l) = words q' cur' l.
Proof.
  intros H Hlt Hb. unfold parse_char. pose proof H as [H1 H2 H3 H4 H5 H6]. cbn [words].
  destruct (is_quote c) eqn:Eq.
  - destruct q as [d|].
    + destruct H6 as [Hq Hd]. rewrite Hq, Hd. cbn [negb]. destruct (c =? d).
      * eexists _, None, cur. split; [reflexivity|]. split; [by constructor|]. split; [lia|]. by split; [left|].
      * exists p, (Some d), cur. split; [done|]. split; [done|]. split; [lia|]. by split; [left|].
    + rewrite H6 in *. cbn [negb andb] in *. rewrite Hb. eexists _, (Some c), cur. split; [reflexivity|].
      split; [by constructor|]. split; [lia|]. by split; [left|].
  - destruct (put_char_parsed _ _ _ _ _ c H Hlt) as (p' & -> & Hp'). exists p', q, (cur ++ [c]).
    split; [done|]. split; [done|]. split; [rewrite length_app; cbn; lia|]. split.
    + intros d. rewrite elem_of_app, list_elem_of_singleton. done.
    + destruct q as [d|]; [done|]. rewrite H6 in Hb. cbn [negb andb] in Hb. by rewrite Hb.
Qed.

Abbreviation nonzero := (Forall (fun c => c <> 0)).

Lemma flush_nonzero cur : nonzero cur -> Forall nonzero (flush cur).
Proof. intros H. destruct cur; cbn; [constructor|]. by constructor. Qed.

(** The loop parses the words, up to the 32nd. *)
Lemma parse_loop_parsed cap fuel l ws cur q p :
  parsed cap ws cur q p -> (length l < fuel)%nat -> (buffer_pos p + length l + 64 < cap)%nat ->
  Forall nonzero ws -> nonzero cur -> nonzero l -> (length ws <= 32)%nat ->
  exists p' ws' cur' q', parse_loop fuel l p = Ret p' /\ parsed cap ws' cur' q' p' /\
    Forall nonzero ws' /\ nonzero cur' /\ (length ws' <= 32)%nat /\ (buffer_pos p' + 64 < cap)%nat /\
    take 32 (ws' ++ flush cur') = take 32 (ws ++ words q cur l).
Proof.
  revert l ws cur q p. induction fuel as [|f IH]; intros l ws cur q p H Hf Hcap Hws Hcur Hl H32; [lia|].
  destruct l as [|c l]; cbn [parse_loop].
  { exists p, ws, cur, q. cbn in Hcap. repeat (split; [done||lia|]). done. }
  pose proof H as [H1 H2 H3 H4 H5 H6]. cbn [length] in Hf, Hcap. apply Forall_cons in Hl as [Hc Hl].
  rewrite H5, H4. unfold MAX_ARGS. destruct (Nat.ltb_spec (length ws) 32) as [Hlt|Hge]; cbn [andb].
  2:{ exists p, ws, cur, q. repeat (split; [done||lia|]). rewrite !take_app_le by lia. done. }
  rewrite (proj2 (Nat.ltb_lt _ _)) by lia. destruct (negb (in_quotes p) && is_blank c) eqn:Eb.
  - apply andb_prop in Eb as [Eq Eb]. destruct q as [d|]; [by destruct H6 as [H6 _]; rewrite H6 in Eq|].
    destruct (end_arg_parsed _ _ _ _ _ H) as (p1 & -> & Hp1); [lia|]. step_ret. cbn [skip_blanks]. rewrite Eb.
    pose proof (skip_blanks_le l). pose proof (ps_pos _ _ _ _ _ Hp1) as E1.
    assert (buffer_pos p1 <= S (buffer_pos p))%nat.
    { rewrite E1, encode_app, length_app. cbn [length]. destruct cur as [|x cur]; cbn [flush encode mbind list_bind length]; [lia|].
      rewrite app_nil_r, length_app. cbn [length] in *. lia. }
    destruct (IH (skip_blanks l) _ _ _ _ Hp1) as (p' & ws' & cur' & q' & E & R1 & R2 & R3 & R4 & R5 & R6);
      [lia|lia|by apply Forall_app; split; [|apply flush_nonzero]|done|by apply skip_blanks_Forall| |].
    { rewrite length_app. destruct cur; cbn; lia. }
    exists p', ws', cur', q'. repeat (split; [done|]). rewrite R6, words_skip, <- app_assoc. cbn [words]. by rewrite Eb.
  - destruct (parse_char_parsed _ _ _ _ _ c l H) as (p1 & q1 & cur1 & -> & Hp1 & Hlen & Hin & ->); [lia|done|]. step_ret.
    pose proof (ps_pos _ _ _ _ _ Hp1). apply (IH l _ _ _ _ Hp1); [lia|lia|done| |done|done].
    apply Forall_forall. intros d Hd. destruct (Hin d Hd) as [Hd'| ->]; [|done]. by eapply Forall_forall in Hcur.
Qed.

(** [parse_command_heap] stores the first 32 words. *)
Lemma parse_command_words cmd buffer :
  nonzero cmd -> (length cmd + 64 < length buffer)%nat ->
  let ws := take 32 (shell_words cmd) in
  exists rest, parse_command_heap cmd buffer = Ret (length ws, encode ws ++ rest) /\ Forall nonzero ws /\
    length (encode ws ++ rest) = length buffer.
Proof.
  intros Hnz Hlen. pose proof (skip_blanks_le cmd). unfold parse_command_heap, shell_words.
  destruct (parse_loop_parsed (length buffer) (S (length (skip_blanks cmd))) (skip_blanks cmd) [] [] None
    (mkParser 0 0 false 0 0 buffer)) as (p & ws & cur & q & -> & Hp & Hw & Hc & H32 & Hpos & Ht);
    [by constructor; try done; exists buffer|lia|cbn; lia|constructor|constructor|by apply skip_blanks_Forall|cbn; lia|].
  cbn [app] in Ht. rewrite words_skip in Ht. rewrite <- Ht. step_ret. pose proof Hp as [[rest E1] E2 E3 E4 E5 _].
  rewrite E2, E3, E4. unfold MAX_ARGS.
  destruct (Nat.ltb_spec (length ws) 32) as [Hlt|Hge]; cbn [andb]; rewrite ?andb_false_r, ?andb_true_r.
  - rewrite take_ge by (rewrite length_app; destruct cur; cbn; lia).
    destruct cur as [|c cur]; cbn [flush].
    + rewrite app_nil_r, (proj2 (Nat.ltb_ge _ _)) by (cbn; lia). exists rest. rewrite <- E5, E1. done.
    + rewrite (proj2 (Nat.ltb_lt _ _)) by (cbn; lia). rewrite E1, app_assoc, <- length_app.
      destruct (arr_set_prefix (encode ws ++ c :: cur) 0 rest) as (rest' & -> & E).
      { rewrite E1, !length_app in E5. cbn in *. lia. }
      step_ret. exists rest'. rewrite encode_snoc, length_app, Nat.add_1_r. rewrite <- !app_assoc in *.
      split; [done|]. split; [apply Forall_app; split; [done|by apply (flush_nonzero (c :: cur))]|]. rewrite <- E5, E1, <- E. done.
  - rewrite take_app_le, take_ge by lia. exists (cur ++ rest). rewrite <- E5, E1. done.
Qed.

(** ** Words without blanks and quotes *)
Definition plain (c : Z) : Prop := is_blank c = false /\ is_quote c = false.

Lemma words_plain w cur l : Forall plain w -> words None cur (w ++ l) = words None (cur ++ w) l.
Proof.
  intros H. revert cur. induction H as [|c w [Hb Hq] _ IH]; intros cur; cbn; [by rewrite app_nil_r|].
  rewrite Hb, Hq, IH, <- app_assoc. done.
Qed.

Lemma words_join ws :
  Forall (fun w => w <> [] /\ Forall plain w) ws -> shell_words (ws ≫= fun w => w ++ [32]) = ws.
Proof.
  unfold shell_words. induction 1 as [|w ws [Hne Hw] _ IH]; [done|]. cbn [mbind list_bind].
  rewrite <- app_assoc, words_plain by done. cbn [app words is_blank orb Z.eqb Pos.eqb]. rewrite IH.
  by destruct w.
Qed.

(** ** The line editor *)

(** The line a sequence of keys leaves: printable characters are appended while
    there is room, backspace and delete take the last one away. *)
Definition type_key (l : list Z) (k : Z) : list Z :=
  if (k =? -1) || (k =? 0) then l
  else if (u8 k =? 8) || (u8 k =? 127) then removelast l
  else if (32 <=? u8 k) && (u8 k <? 127) && (length l <? 1023)%nat then l ++ [u8 k] else l.

Definition typed (keys : list Z) : list Z := fold_left type_key keys [].

Definition enter (k : Z) : Prop := k <> -1 /\ k <> 0 /\ (u8 k = 10 \/ u8 k = 13).

(** The array holds the line and zeros. *)
Definition edits (l : list Z) (e : editor) : Prop :=
  ed_pos e = length l /\ (length l <= 1023)%nat /\ ed_buffer e = l ++ replicate (1024 - length l) 0 /\
  Forall (fun c => 32 <= c < 127) l.

Lemma arr_set_zeros (l : list Z) n x :
  (0 < n)%nat -> arr_set (l ++ replicate n 0) (length l) x = Ret ((l ++ [x]) ++ replicate (n - 1) 0).
Proof.
  intros H. unfold arr_set. rewrite length_app, length_replicate, decide_True by lia.
  rewrite insert_app_r_alt, Nat.sub_diag by lia. destruct n; [lia|]. cbn. rewrite Nat.sub_0_r, <- app_assoc. done.
Qed.

Lemma edit_key_edits k l e :
  k <> -1 -> k <> 0 -> edits l e -> exists e', edit_key (u8 k) e = Ret e' /\ edits (type_key l k) e'.
Proof.
  intros Hk1 Hk0 (Hp & Hl & Hb & Hr). unfold edit_key, type_key.
  rewrite (proj2 (Z.eqb_neq k (-1))), (proj2 (Z.eqb_neq k 0)) by done. cbn [orb].
  destruct ((u8 k =? 8) || (u8 k =? 127)).
  - rewrite Hp. destruct (Nat.ltb_spec 0 (length l)) as [H0|H0].
    + destruct (exists_last (l := l)) as (l' & x & ->); [by intros ->; cbn in H0; lia|].
      rewrite removelast_last, length_app, Hb in *. cbn [length] in *.
      replace (length l' + 1 - 1)%nat with (length l') by lia. rewrite <- app_assoc.
      unfold arr_set. rewrite decide_True by (rewrite !length_app; cbn; lia).
      rewrite insert_app_r_alt, Nat.sub_diag by lia. cbn. eexists. split; [reflexivity|].
      apply Forall_app in Hr as [Hr _]. split; [done|]. split; [lia|]. split; [|done]. cbn. f_equal.
      replace (1024 - length l')%nat with (S (1024 - (length l' + 1))) by lia. done.
    + destruct l; [|cbn in H0; lia]. exists e. by split.
  - rewrite Hp, Hb, length_app, length_replicate.
    replace (length l + (1024 - length l) - 1)%nat with 1023%nat by lia.
    destruct ((32 <=? u8 k) && (u8 k <? 127) && (length l <? 1023)%nat) eqn:E.
    + apply andb_prop in E as [E E3]. apply andb_prop in E as [E1 E2].
      apply Z.leb_le in E1. apply Z.ltb_lt in E2. apply Nat.ltb_lt in E3.
      rewrite arr_set_zeros by lia. step_ret. eexists. split; [reflexivity|]. unfold edits. cbn [ed_pos ed_buffer].
      rewrite length_app. cbn [length]. split; [lia|]. split; [lia|]. split; [f_equal; f_equal; lia|].
      apply Forall_app. split; [done|]. by constructor.
    + exists e. by split.
Qed.

Lemma read_line_edits keys k rest l e :
  Forall (fun k => ~ enter k) keys -> enter k -> edits l e ->
  exists b echo, read_line_loop (keys ++ k :: rest) e = Ret (Some (b, echo, rest)) /\
    b = fold_left type_key keys l ++ replicate (1024 - length (fold_left type_key keys l)) 0 /\
    (length (fold_left type_key keys l) <= 1023)%nat /\ Forall (fun c => 32 <= c < 127) (fold_left type_key keys l).
Proof.
  intros H Hk. revert l e. induction H as [|k' keys Hk' _ IH]; intros l e He; cbn [app read_line_loop fold_left].
  - destruct Hk as (H1 & H2 & H3). rewrite (proj2 (Z.eqb_neq k (-1))), (proj2 (Z.eqb_neq k 0)) by done. cbn [orb].
    replace ((u8 k =? 10) || (u8 k =? 13)) with true
      by (destruct H3 as [-> | -> ]; done). destruct He as (Hp & Hl & Hb & Hr). rewrite Hp, Hb, arr_set_zeros by lia.
    step_ret. eexists _, _. split; [reflexivity|]. split; [|done]. rewrite <- app_assoc. f_equal.
    replace (1024 - length l)%nat with (S (1024 - length l - 1)) at 2 by lia. done.
  - destruct ((k' =? -1) || (k' =? 0)) eqn:E.
    + replace (type_key l k') with l by (unfold type_key; by rewrite E). by apply IH.
    + apply orb_false_elim in E as [E1 E2]. apply Z.eqb_neq in E1, E2.
      replace ((u8 k' =? 10) || (u8 k' =? 13)) with false
        by (symmetry; apply orb_false_intro; apply Z.eqb_neq; intros E; apply Hk'; by split; [|split; [|auto]]).
      destruct (edit_key_edits k' l e E1 E2 He) as (e' & -> & He'). step_ret. by apply IH.
Qed.

(** ** Numbers and addresses *)
Lemma ipv4_digit d rest ip val :
  0 <= d <= 9 -> 0 <= val -> val * 10 + d <= 255 -> forall b,
  ipv4_loop ((48 + d) :: rest) ip val b = ipv4_loop rest ip (val * 10 + d) true.
Proof.
  intros Hd Hv Hs b. cbn [ipv4_loop]. unfold is_digit_char.
  rewrite (proj2 (Z.leb_le _ _)), (proj2 (Z.leb_le (48 + d) 57)) by lia. cbn [andb].
  replace (48 + d - 48) with d by lia. rewrite wrap_small by lia. by rewrite (proj2 (Z.ltb_ge _ _)) by lia.
Qed.

Lemma ipv4_octet n rest ip : is_u8 n -> ipv4_loop (octet n ++ rest) ip 0 false = ipv4_loop rest ip n true.
Proof.
  unfold is_u8. intros Hn. unfold octet. pose proof (Z.div_mod n 10). pose proof (Z.mod_pos_bound n 10).
  pose proof (Z.div_mod (n / 10) 10). pose proof (Z.mod_pos_bound (n / 10) 10).
  assert (n / 100 = n / 10 / 10) by (rewrite Z.div_div by lia; done). destruct (Z.leb_spec 100 n); [|destruct (Z.leb_spec 10 n)]; cbn [app].
  - rewrite !ipv4_digit by lia. f_equal. lia.
  - rewrite !ipv4_digit by lia. f_equal. lia.
  - rewrite ipv4_digit by lia. done.
Qed.

Lemma ipv4_dot n rest ip :
  is_u8 n -> (length ip < 4)%nat -> ipv4_loop (46 :: rest) ip n true = ipv4_loop rest (ip ++ [n]) 0 false.
Proof.
  unfold is_u8. intros Hn Hl. cbn [ipv4_loop is_digit_char andb Z.leb Z.compare Pos.compare Pos.compare_cont Z.eqb Pos.eqb].
  rewrite (proj2 (Nat.leb_gt _ _)) by done. cbn [orb negb]. by rewrite wrap_small by lia.
Qed.

Lemma ipv4_loop_bytes host ip val b ip' val' b' :
  ipv4_loop host ip val b = Some (ip', val', b') -> Forall is_u8 ip -> is_u8 val -> Forall is_u8 ip' /\ is_u8 val'.
Proof.
  revert ip val b. induction host as [|c host IH]; intros ip val b H Hip Hv; cbn [ipv4_loop] in H.
  - by injection H as <- <- <-.
  - destruct (is_digit_char c) eqn:Ed.
    + destruct (Z.ltb_spec 255 (u32 (val * 10 + (c - 48)))) as [|Hle]; [done|]. eapply IH; [exact H|done|].
      pose proof (wrap_range 32 (val * 10 + (c - 48))). unfold is_u8. lia.
    + destruct (c =? 46); [|done]. destruct (_ || _); [done|]. eapply IH; [exact H| |unfold is_u8; lia].
      apply Forall_app. split; [done|]. constructor; [|constructor]. apply (wrap_range 8 val). lia.
Qed.

Lemma parse_digits_value ds acc k :
  Forall (fun d => 48 <= d <= 57) ds -> 0 <= acc ->
  fold_left (fun acc d => acc * 10 + (d - 48)) ds acc < 2 ^ 31 ->
  parse_digits acc k ds = (fold_left (fun acc d => acc * 10 + (d - 48)) ds acc, (k + length ds)%nat).
Proof.
  intros H. revert acc k. induction H as [|d ds Hd Hds IH]; intros acc k Ha Hlt; cbn [parse_digits fold_left] in *.
  { by rewrite Nat.add_0_r. }
  unfold is_digit_char. rewrite (proj2 (Z.leb_le _ _)), (proj2 (Z.leb_le d 57)) by lia. cbn [andb].
  assert (acc * 10 + (d - 48) <= fold_left (fun acc d => acc * 10 + (d - 48)) ds (acc * 10 + (d - 48))) as Hmono.
  { assert (0 <= acc * 10 + (d - 48)) as Hp by lia. clear - Hds Hp. revert Hp. generalize (acc * 10 + (d - 48)) as a.
    induction Hds as [|x ds Hx _ IH]; intros a Ha; cbn [fold_left]; [lia|].
    specialize (IH (a * 10 + (x - 48)) ltac:(lia)). lia. }
  rewrite swrap_small by lia. rewrite IH by lia. cbn [length]. f_equal. lia.
Qed.

(** The shell's numbers and addresses survive a round trip: an address
    printed by [print_ip] is read back by the parser of [ping] and [httpget], which
    accepts nothing but four bytes; a number printed by [print_int] and its
    negation are read back by [parse_int]. *)
Theorem numbers_roundtrip :
  (forall a b c d, is_u8 a -> is_u8 b -> is_u8 c -> is_u8 d -> parse_ipv4 (print_ip [a; b; c; d]) = Some [a; b; c; d]) /\
  (forall host ip, parse_ipv4 host = Some ip -> length ip = 4%nat /\ Forall is_u8 ip) /\
  (forall n, 0 <= n < 2 ^ 31 -> exists ds, print_int n = Ret ds /\ parse_int ds = Some n /\ parse_int (45 :: ds) = Some (- n)).
Proof.
  split; [|split].
  - intros a b c d Ha Hb Hc Hd. unfold parse_ipv4. cbn [print_ip].
    repeat (rewrite ipv4_octet by done; cbn [app]; rewrite ipv4_dot by (done || (cbn; lia))).
    rewrite <- (app_nil_r (octet d)), ipv4_octet by done. cbn [app ipv4_loop mbind option_bind length Nat.eqb negb orb].
    rewrite wrap_small by exact Hd. done.
  - intros host ip H. unfold parse_ipv4 in H. destruct (ipv4_loop host [] 0 false) as [[[l v] b]|] eqn:E; [|done].
    cbn [mbind option_bind] in H. apply ipv4_loop_bytes in E as [E1 E2]; [|done|unfold is_u8; lia].
    destruct (Nat.eqb_spec (length l) 3); [|done]. destruct b; [|done]. injection H as <-. rewrite length_app. cbn.
    split; [lia|]. apply Forall_app. split; [done|]. constructor; [|constructor]. apply (wrap_range 8 v). lia.
  - intros n Hn. unfold print_int. destruct (dec_digits_ok 32 n) as (ds & -> & Hl & Hd & Hv); [lia|cbn; lia|].
    step_ret. exists ds.
    assert (Forall (fun d => 48 <= d <= 57) ds) as Hd' by (eapply Forall_impl; [exact Hd|]; unfold is_digit; lia).
    split.
    + f_equal. unfold print_str. rewrite take_ge by (rewrite length_app; cbn; lia). apply until_nul_app.
      eapply Forall_impl; [exact Hd'|]. cbn. lia.
    + unfold dec_value in Hv. destruct ds as [|d ds]; [cbn in Hl; lia|]. unfold parse_int.
      assert (d <> 45) by (apply Forall_cons in Hd' as [? _]; lia). rewrite (proj2 (Z.eqb_neq d 45)) by done.
      cbn [Z.eqb Pos.eqb]. rewrite !(parse_digits_value (d :: ds)) by (done || lia). rewrite Hv.
      cbn [length Nat.add Nat.eqb orb andb]. rewrite swrap_small by lia. by rewrite andb_false_r.
Qed.

(** C35. Arguments: for every command line of at most 1023 bytes,
    [parse_command_heap] returns (no write leaves the 2048-byte buffer) the number
    of words, at most 32, and [get_arg_heap] reads back each of them; words that
    contain no blank and no quote and are separated by blanks are read back as they
    were typed. *)
Theorem arguments_roundtrip cmd buffer :
  nonzero cmd -> (length cmd <= 1023)%nat -> length buffer = 2048%nat ->
  exists b, parse_command_heap cmd buffer = Ret (Nat.min 32 (length (shell_words cmd)), b) /\ length b = 2048%nat /\
    (forall i w, (i < 32)%nat -> shell_words cmd !! i = Some w -> get_arg_heap b i = w) /\
    (forall ws, Forall (fun w => w <> [] /\ Forall plain w) ws -> cmd = (ws ≫= fun w => w ++ [32]) -> shell_words cmd = ws).
Proof.
  intros Hnz Hl Hb. destruct (parse_command_words cmd buffer Hnz) as (rest & -> & Hw & Hlen); [lia|].
  eexists. split; [by rewrite length_take|]. split; [congruence|]. split.
  - intros i w Hi Hlook. apply get_arg_encode; [done|]. by rewrite lookup_take_lt.
  - intros ws Hws ->. by apply words_join.
Qed.

Lemma arguments_roundtrip_witness :
  exists b, parse_command_heap (bytes "mkdir  'a b' c") (replicate 2048 7) = Ret (3%nat, b) /\
    get_arg_heap b 1 = bytes "a b".
Proof.
  destruct (arguments_roundtrip (bytes "mkdir  'a b' c") (replicate 2048 7)) as (b & H1 & _ & H2 & _).
  - repeat (constructor; [discriminate|]). constructor.
  - cbn. lia.
  - apply length_replicate.
  - exists b. split; [exact H1|]. apply H2; [lia|reflexivity].
Defined.

(** Line editing: whatever keys arrive before Enter, [read_line] returns
    (no write leaves the buffer) the line they leave: printable characters in order,
    at most 1023, with each backspace taking back the last one; the rest of the
    1024-byte buffer is zero and the later keys are left for the next line. *)
Theorem read_line_returns keys k rest :
  Forall (fun k => ~ enter k) keys -> enter k ->
  exists b echo, read_line (keys ++ k :: rest) = Ret (Some (b, echo, rest)) /\
    get_str b = typed keys /\ length b = 1024%nat /\ (length (typed keys) <= 1023)%nat /\
    Forall (fun c => 32 <= c < 127) (typed keys).
Proof.
  intros Hks Hk. unfold read_line, typed.
  destruct (read_line_edits keys k rest [] (mkEditor (replicate MAX_CMD_LEN 0) 0 []) Hks Hk)
    as (b & echo & -> & -> & Hl & Hr).
  { split; [reflexivity|]. split; [cbn; lia|]. split; [reflexivity|constructor]. }
  eexists _, _. split; [reflexivity|]. split; [|split; [|split; [exact Hl|exact Hr]]].
  - unfold get_str. replace (1024 - _)%nat with (S (1023 - length (fold_left type_key keys []))) by lia.
    cbn [replicate]. apply until_nul_app. eapply Forall_impl; [exact Hr|]. cbn. lia.
  - rewrite length_app, length_replicate. lia.
Qed.

Lemma read_line_returns_witness :
  exists b echo, read_line [108; 120; 8; -1; 115; 13; 99] = Ret (Some (b, echo, [99])) /\ get_str b = bytes "ls".
Proof.
  destruct (read_line_returns [108; 120; 8; -1; 115] 13 [99]) as (b & echo & H1 & H2 & _).
  - repeat (constructor; [intros (? & ? & [H|H]); vm_compute in H; lia|]). constructor.
  - split; [lia|]. split; [lia|]. right. reflexivity.
  - exists b, echo. split; [exact H1|exact H2].
Defined.
