(* ===== verification/ShellTables.v ===== *)
(** * The shell's tables

    The environment variables, the aliases and the command history of
    kernel-rs/src/bash.rs (lines 147-380): fixed arrays allocated once, with a
    count of the entries in use.  A table is [None] when its pointer is null.  The
    specification of the environment is a function from names to values, that of
    the history the last ten commands. *)

From S2P Require Import Prelude ShellText.

Local Open Scope Z_scope.

(** ** Data *)
Record EnvVar := mkEnvVar { ev_name : list Z; ev_value : list Z }.
Record Alias := mkAlias { al_name : list Z; al_command : list Z }.

Record BashShell := mkShell {
  cwd : list Z;
  env_vars : option (list EnvVar);
  env_count : nat;
  aliases : option (list Alias);
  alias_count : nat;
  history : option (list (list Z));
  history_count : nat;
  history_pos : nat;
  last_exit_code : Z;
  prompt : list Z
}.

Definition with_env (vs : list EnvVar) (n : nat) (s : BashShell) : BashShell :=
  mkShell (cwd s) (Some vs) n (aliases s) (alias_count s) (history s) (history_count s) (history_pos s)
    (last_exit_code s) (prompt s).
Definition with_aliases (l : list Alias) (n : nat) (s : BashShell) : BashShell :=
  mkShell (cwd s) (env_vars s) (env_count s) (Some l) n (history s) (history_count s) (history_pos s)
    (last_exit_code s) (prompt s).
Definition with_history (h : list (list Z)) (n : nat) (s : BashShell) : BashShell :=
  mkShell (cwd s) (env_vars s) (env_count s) (aliases s) (alias_count s) (Some h) n n (last_exit_code s) (prompt s).
Definition with_cwd (c : list Z) (s : BashShell) : BashShell :=
  mkShell c (env_vars s) (env_count s) (aliases s) (alias_count s) (history s) (history_count s) (history_pos s)
    (last_exit_code s) (prompt s).
Definition with_exit (c : Z) (s : BashShell) : BashShell :=
  mkShell (cwd s) (env_vars s) (env_count s) (aliases s) (alias_count s) (history s) (history_count s)
    (history_pos s) c (prompt s).
Definition with_prompt (p : list Z) (s : BashShell) : BashShell :=
  mkShell (cwd s) (env_vars s) (env_count s) (aliases s) (alias_count s) (history s) (history_count s)
    (history_pos s) (last_exit_code s) p.

(** [BashShell::new] once the three tables are allocated and cleared. *)
Definition new_shell : BashShell :=
  mkShell ([47; 0] ++ replicate (MAX_PATH_LEN - 2) 0)
    (Some (replicate MAX_ENV_VARS (mkEnvVar (replicate 64 0) (replicate 256 0)))) 0
    (Some (replicate MAX_ALIASES (mkAlias (replicate 32 0) (replicate 256 0)))) 0
    (Some (replicate MAX_HISTORY (replicate MAX_CMD_LEN 0))) 0 0 0 (replicate 64 0).

(** ** Environment *)

(** The comparison of a stored name with [name], byte by byte up to a NUL. *)
Fixpoint match_name (stored name : list Z) : bool :=
  match stored with
  | [] => true
  | b :: stored' =>
      let c := hd 0 name in
      if negb (b =? c) then false else if c =? 0 then true else match_name stored' (tl name)
  end.

Fixpoint find_env (vs : list EnvVar) (name : list Z) : option nat :=
  match vs with
  | [] => None
  | v :: vs' => if match_name (ev_name v) name then Some 0%nat else S <$> find_env vs' name
  end.

(** "Copy name", "Copy value": up to and including the NUL, or to the end of the
    array. *)
Fixpoint copy_nul (dest src : list Z) : list Z :=
  match dest with
  | [] => []
  | _ :: dest' => let c := hd 0 src in if c =? 0 then 0 :: dest' else c :: copy_nul dest' (tl src)
  end.

Definition set_env (name value : list Z) (s : BashShell) : BashShell :=
  match env_vars s with
  | None => s
  | Some vs =>
      let found := find_env (take (env_count s) vs) name in
      let index := default (env_count s) found in
      let count := match found with
                   | None => if (env_count s <? MAX_ENV_VARS)%nat then S (env_count s) else env_count s
                   | Some _ => env_count s
                   end in
      let vs' := if (index <? MAX_ENV_VARS)%nat
                 then alter (fun v => mkEnvVar (copy_nul (ev_name v) name) (copy_nul (ev_value v) value)) index vs
                 else vs in
      with_env vs' count s
  end.

Fixpoint search_env (vs : list EnvVar) (name : list Z) : option (list Z) :=
  match vs with
  | [] => None
  | v :: vs' => if str_eq (ev_name v) name then Some (get_str (ev_value v)) else search_env vs' name
  end.

Definition get_env (name : list Z) (s : BashShell) : option (list Z) :=
  vs ← env_vars s; search_env (take (env_count s) vs) name.

(** ** Aliases *)
Definition set_alias (name command : list Z) (s : BashShell) : BashShell :=
  match aliases s with
  | None => s
  | Some l =>
      if (alias_count s <? MAX_ALIASES)%nat
      then with_aliases (alter (fun a => mkAlias (copy_str (al_name a) name) (copy_str (al_command a) command))
                           (alias_count s) l) (S (alias_count s)) s
      else s
  end.

Fixpoint search_alias (l : list Alias) (name : list Z) : option (list Z) :=
  match l with
  | [] => None
  | a :: l' => if str_eq (al_name a) name then Some (get_str (al_command a)) else search_alias l' name
  end.

Definition get_alias (name : list Z) (s : BashShell) : option (list Z) :=
  l ← aliases s; search_alias (take (alias_count s) l) name.

(** ** History *)

(** "Shift history": entry [i + 1] is copied over entry [i]. *)
Definition shift_entry (h : list (list Z)) (i : nat) : list (list Z) :=
  match h !! S i with Some e => <[i := e]> h | None => h end.

Definition shift_history (h : list (list Z)) : list (list Z) := fold_left shift_entry (seq 0 (MAX_HISTORY - 1)) h.

Definition add_to_history (command : list Z) (s : BashShell) : BashShell :=
  match history s with
  | None => s
  | Some h =>
      if (history_count s <? MAX_HISTORY)%nat
      then with_history (alter (fun e => copy_str e command) (history_count s) h) (S (history_count s)) s
      else with_history (alter (fun e => copy_str e command) (MAX_HISTORY - 1)%nat (shift_history h)) (history_count s) s
  end.

(** ** Strings in arrays *)
Lemma match_name_spec stored name :
  nonzero name -> (length name < length stored)%nat -> match_name stored name = bool_decide (until_nul stored = name).
Proof.
  intros H. revert stored. induction H as [|c name Hc _ IH]; intros [|b stored] Hl; cbn [length] in Hl; try lia;
    cbn [match_name hd tl until_nul].
  - destruct (Z.eqb_spec b 0) as [->|Hb]; cbn; [by rewrite bool_decide_true|]. by rewrite bool_decide_false.
  - rewrite (proj2 (Z.eqb_neq c 0)) by done. destruct (Z.eqb_spec b c) as [->|Hb]; cbn [negb].
    + rewrite (proj2 (Z.eqb_neq c 0)), IH by (done || lia). apply bool_decide_ext. split; congruence.
    + symmetry. apply bool_decide_false. destruct (b =? 0); congruence.
Qed.

Lemma copy_nul_get dest src : nonzero src -> (length src < length dest)%nat -> get_str (copy_nul dest src) = src.
Proof.
  intros H. unfold get_str. revert dest. induction H as [|c src Hc _ IH]; intros [|d dest] Hl; cbn [length] in Hl; try lia;
    cbn [copy_nul hd tl].
  - done.
  - rewrite (proj2 (Z.eqb_neq c 0)) by done. cbn [until_nul]. rewrite (proj2 (Z.eqb_neq c 0)), IH by (done || lia). done.
Qed.

Lemma copy_nul_length dest src : length (copy_nul dest src) = length dest.
Proof.
  revert src. induction dest as [|d dest IH]; intros src; cbn [copy_nul]; [done|].
  destruct (_ =? 0); cbn [length]; [done|]. by rewrite IH.
Qed.

Lemma copy_str_length dest src : length (copy_str dest src) = length dest.
Proof.
  destruct dest as [|d dest]; [done|]. unfold copy_str. rewrite !length_app, length_take, length_drop. cbn [length]. lia.
Qed.

Lemma copy_str_get dest src :
  nonzero src -> (0 < length dest)%nat -> get_str (copy_str dest src) = take (length dest - 1) src.
Proof.
  intros H Hl. destruct dest as [|d dest]; [cbn in Hl; lia|]. unfold copy_str, get_str. cbn [app].
  rewrite until_nul_app by by apply Forall_take. destruct (Nat.min_spec (length (d :: dest) - 1) (length src)) as [[? ->]|[? ->]];
    [done|]. by rewrite !take_ge by lia.
Qed.

Lemma nonzero_get_str s : nonzero s -> get_str s = s.
Proof.
  unfold get_str. induction 1 as [|c s Hc _ IH]; [done|]. cbn. rewrite (proj2 (Z.eqb_neq c 0)) by done. by rewrite IH.
Qed.

(** ** The environment as a function *)
Record env_ok (s : BashShell) : Prop := {
  env_table : exists vs, env_vars s = Some vs /\ length vs = MAX_ENV_VARS /\
    Forall (fun v => length (ev_name v) = 64%nat /\ length (ev_value v) = 256%nat) vs;
  env_bound : (env_count s <= MAX_ENV_VARS)%nat
}.

Lemma find_env_spec vs name :
  nonzero name -> (length name < 64)%nat -> Forall (fun v => length (ev_name v) = 64%nat /\ length (ev_value v) = 256%nat) vs ->
  match find_env vs name with
  | Some i => exists v, vs !! i = Some v /\ get_str (ev_name v) = name /\
      forall j w, (j < i)%nat -> vs !! j = Some w -> get_str (ev_name w) <> name
  | None => forall j w, vs !! j = Some w -> get_str (ev_name w) <> name
  end.
Proof.
  intros Hn Hl. induction 1 as [|v vs [Hv _] _ IH]; cbn [find_env]; [intros j w Hj; by rewrite lookup_nil in Hj|].
  rewrite match_name_spec by (done || lia). destruct (bool_decide_reflect (until_nul (ev_name v) = name)) as [E|E].
  - exists v. split; [done|]. split; [done|]. intros; lia.
  - destruct (find_env vs name) as [i|]; cbn [fmap option_fmap option_map].
    + destruct IH as (w & H1 & H2 & H3). exists w. split; [done|]. split; [done|].
      intros [|j] u Hj Hu; [by injection Hu as <-|]. apply (H3 j); [lia|done].
    + intros [|j] u Hu; [by injection Hu as <-|]. by apply (IH j).
Qed.

Lemma search_env_skip l v r name :
  get_str name <> get_str (ev_name v) -> search_env (l ++ v :: r) name = search_env (l ++ r) name.
Proof.
  intros H. induction l as [|w l IH]; cbn [search_env app]; [|by rewrite IH].
  unfold str_eq. by rewrite bool_decide_false by congruence.
Qed.

Lemma search_env_first l v r name :
  get_str name = get_str (ev_name v) -> Forall (fun w => get_str (ev_name w) <> get_str name) l ->
  search_env (l ++ v :: r) name = Some (get_str (ev_value v)).
Proof.
  intros H. induction 1 as [|w l Hw _ IH]; cbn [search_env app]; unfold str_eq.
  - by rewrite bool_decide_true by done.
  - by rewrite bool_decide_false.
Qed.

Lemma set_env_ok name value s : env_ok s -> env_ok (set_env name value s).
Proof.
  intros [(vs & E & Hl & Hf) Hb]. unfold set_env. rewrite E. split; cbn [env_vars env_count with_env].
  - eexists. split; [reflexivity|]. destruct (_ <? _)%nat; [|done]. rewrite length_alter. split; [done|].
    apply Forall_alter; [done|]. intros v _ [H1 H2]. cbn. by rewrite !copy_nul_length.
  - destruct (find_env _ _); [done|]. destruct (Nat.ltb_spec (env_count s) MAX_ENV_VARS); lia.
Qed.

(** The entries in use after [set_env]: one is replaced, or one is added. *)
Lemma set_env_entries name value s :
  env_ok s -> nonzero name -> nonzero value -> (length name < 64)%nat -> (length value < 256)%nat ->
  exists vs vs', env_vars s = Some vs /\ env_vars (set_env name value s) = Some vs' /\
    ((env_count s = MAX_ENV_VARS /\ Forall (fun w => get_str (ev_name w) <> name) (take (env_count s) vs) /\
      take (env_count (set_env name value s)) vs' = take (env_count s) vs) \/
     exists l v r old, get_str (ev_name v) = name /\ get_str (ev_value v) = value /\
       Forall (fun w => get_str (ev_name w) <> name) l /\
       Forall (fun w => get_str (ev_name w) = name) old /\ (old = [] -> (env_count s < MAX_ENV_VARS)%nat) /\
       take (env_count s) vs = l ++ old ++ r /\ take (env_count (set_env name value s)) vs' = l ++ v :: r).
Proof.
  intros [(vs & E & Hl & Hf) Hb] Hn Hv Hln Hlv. exists vs. unfold set_env. rewrite E. eexists. split; [done|].
  split; [reflexivity|]. cbn [env_count with_env].
  pose proof (find_env_spec (take (env_count s) vs) name Hn Hln (Forall_take _ _ _ Hf)) as F.
  destruct (find_env _ _) as [i|]; cbn [default from_option id].
  - right. destruct F as (v & Hi & Hname & Hbefore). pose proof (take_drop_middle _ _ _ Hi) as Hsplit.
    set (f := fun v => mkEnvVar _ _). pose proof (lookup_lt_Some _ _ _ Hi) as Hlt. rewrite length_take in Hlt.
    assert (length (take i (take (env_count s) vs)) = i) as Hli by (rewrite !length_take; lia).
    rewrite (proj2 (Nat.ltb_lt i _)) by lia. apply (Forall_take _ (env_count s)) in Hf.
    eapply Forall_lookup in Hf as [F1 F2]; [|exact Hi].
    exists (take i (take (env_count s) vs)), (f v), (drop (S i) (take (env_count s) vs)), [v].
    cbn [f ev_name ev_value]. rewrite !copy_nul_get by (done || lia).
    split; [done|]. split; [done|]. split; [|split; [by repeat constructor|split; [done|split; [done|]]]].
    + apply Forall_lookup. intros j w [Hj Hji]%lookup_take_Some. by apply (Hbefore j).
    + rewrite take_alter_lt by lia. rewrite <- Hsplit at 1. rewrite alter_app_r_alt by lia. by rewrite Hli, Nat.sub_diag.
  - destruct (Nat.ltb_spec (env_count s) MAX_ENV_VARS) as [Hlt|Hge].
    + right. destruct (lookup_lt_is_Some_2 vs (env_count s)) as [v Hv']; [lia|].
      set (f := fun v => mkEnvVar _ _). eapply Forall_lookup in Hf as [F1 F2]; [|exact Hv'].
      exists (take (env_count s) vs), (f v), [], []. cbn [f ev_name ev_value]. rewrite !copy_nul_get by (done || lia).
      split; [done|]. split; [done|]. split; [apply Forall_lookup; intros j w Hj; by apply (F j)|].
      split; [constructor|]. split; [done|]. rewrite app_nil_r. split; [done|].
      assert (alter f (env_count s) vs !! env_count s = Some (f v)) as Hf by by rewrite list_lookup_alter_eq, Hv'.
      rewrite (take_S_r _ _ _ Hf). by rewrite take_alter_ge by lia.
    + left. split; [lia|]. split; [apply Forall_lookup; intros j w Hj; by apply (F j)|done].
Qed.

Lemma search_env_none l name : Forall (fun w => get_str (ev_name w) <> get_str name) l -> search_env l name = None.
Proof. induction 1 as [|w l Hw _ IH]; [done|]. cbn. unfold str_eq. by rewrite bool_decide_false. Qed.

(** The environment is a map: after [set_env] a name (of fewer than 64 bytes,
    with a value of fewer than 256) has the new value and every other name the value
    it had; a new name is refused, without any change, only when all 50 entries are
    in use. *)
Theorem environment_is_map name value s :
  env_ok s -> nonzero name -> nonzero value -> (length name < 64)%nat -> (length value < 256)%nat ->
  env_ok (set_env name value s) /\
  (forall m, get_str m <> name -> get_env m (set_env name value s) = get_env m s) /\
  (get_env name (set_env name value s) =
   if decide (env_count s = MAX_ENV_VARS /\ get_env name s = None) then None else Some value).
Proof.
  intros Hok Hn Hv Hln Hlv. split; [by apply set_env_ok|].
  destruct (set_env_entries name value s Hok Hn Hv Hln Hlv) as (vs & vs' & E & E' & H).
  unfold get_env. rewrite E, E'. cbn [mbind option_bind]. pose proof (nonzero_get_str _ Hn) as Hg.
  destruct H as [(Hfull & Hne & ->)|(l & v & r & old & N1 & N2 & Hl & Hold & Hroom & -> & ->)].
  - split; [done|]. rewrite search_env_none by by rewrite Hg. by rewrite decide_True.
  - split.
    + intros m Hm. rewrite search_env_skip by congruence. clear Hroom. induction Hold as [|w old Hw _ IH]; [done|].
      cbn [app]. rewrite search_env_skip by congruence. exact IH.
    + rewrite search_env_first by (rewrite Hg; done || (eapply Forall_impl; [exact Hl|done])).
      rewrite N2. destruct old as [|w old]; [rewrite decide_False; [done|]; intros [H _]; specialize (Hroom eq_refl); lia|].
      apply Forall_cons in Hold as [Hw _]. cbn [app]. rewrite search_env_first by (rewrite Hg; done || (eapply Forall_impl; [exact Hl|done])).
      rewrite decide_False; [done|]. by intros [_ ?].
Qed.

Lemma new_env_ok : env_ok new_shell.
Proof.
  split; [|cbn; lia]. eexists. split; [reflexivity|]. split; [reflexivity|].
  apply Forall_replicate. split; reflexivity.
Qed.

Lemma environment_is_map_witness :
  get_env (bytes "PWD") (set_env (bytes "PWD") (bytes "/tmp") new_shell) = Some (bytes "/tmp").
Proof.
  destruct (environment_is_map (bytes "PWD") (bytes "/tmp") new_shell new_env_ok) as (_ & _ & H).
  - repeat (constructor; [discriminate|]). constructor.
  - repeat (constructor; [discriminate|]). constructor.
  - cbn. lia.
  - cbn. lia.
  - rewrite H. reflexivity.
Defined.

Lemma set_env_cwd name value s : cwd (set_env name value s) = cwd s.
Proof. unfold set_env. by destruct (env_vars s). Qed.

(** ** Aliases *)
Record alias_ok (s : BashShell) : Prop := {
  alias_table : exists l, aliases s = Some l /\ length l = MAX_ALIASES /\
    Forall (fun a => length (al_name a) = 32%nat /\ length (al_command a) = 256%nat) l;
  alias_bound : (alias_count s <= MAX_ALIASES)%nat
}.

Lemma search_alias_app l r name :
  search_alias (l ++ r) name = match search_alias l name with Some c => Some c | None => search_alias r name end.
Proof. induction l as [|a l IH]; cbn; [done|]. by destruct (str_eq _ _). Qed.

(** The entries in use after [set_alias]: one more at the end. *)
Lemma set_alias_entries name command s :
  alias_ok s -> nonzero name -> nonzero command -> (length name < 32)%nat -> (length command < 256)%nat ->
  (alias_count s < MAX_ALIASES)%nat ->
  exists l l' a, aliases s = Some l /\ aliases (set_alias name command s) = Some l' /\
    take (alias_count (set_alias name command s)) l' = take (alias_count s) l ++ [a] /\
    get_str (al_name a) = name /\ get_str (al_command a) = command.
Proof.
  intros [(l & E & Hl & Hf) Hb] Hn Hc Hln Hlc Hlt. exists l. unfold set_alias. rewrite E, (proj2 (Nat.ltb_lt _ _)) by done.
  cbn [aliases alias_count with_aliases]. destruct (lookup_lt_is_Some_2 l (alias_count s)) as [a Ha]; [lia|].
  eapply Forall_lookup in Hf as [F1 F2]; [|exact Ha]. eexists _, _. split; [done|]. split; [reflexivity|].
  set (f := fun a => mkAlias _ _).
  assert (alter f (alias_count s) l !! alias_count s = Some (f a)) as Hfa by by rewrite list_lookup_alter_eq, Ha.
  rewrite (take_S_r _ _ _ Hfa), take_alter_ge by lia. split; [done|]. cbn [f al_name al_command].
  rewrite !copy_str_get, F1, F2 by (done || lia). by rewrite !take_ge by lia.
Qed.

Lemma set_alias_ok name command s : alias_ok s -> alias_ok (set_alias name command s).
Proof.
  intros [(l & E & Hl & Hf) Hb]. unfold set_alias. rewrite E.
  destruct (Nat.ltb_spec (alias_count s) MAX_ALIASES); [|by constructor; [exists l|]].
  constructor; cbn [aliases alias_count with_aliases]; [|lia]. eexists. split; [reflexivity|]. rewrite length_alter.
  split; [done|]. apply Forall_alter; [done|]. intros a _ [H1 H2]. cbn. by rewrite !copy_str_length.
Qed.

(** Aliases are never replaced: [set_alias] defines a name that has no alias
    yet, as long as fewer than 20 are in use, and leaves every other name as it was;
    a name that has an alias keeps it, although a second entry is used up. *)
Theorem alias_first_wins name command s :
  alias_ok s -> nonzero name -> nonzero command -> (length name < 32)%nat -> (length command < 256)%nat ->
  alias_ok (set_alias name command s) /\
  (forall m, get_str m <> name -> get_alias m (set_alias name command s) = get_alias m s) /\
  get_alias name (set_alias name command s) =
    match get_alias name s with
    | Some c => Some c
    | None => if (alias_count s <? MAX_ALIASES)%nat then Some command else None
    end.
Proof.
  intros Hok Hn Hc Hln Hlc. split; [by apply set_alias_ok|]. pose proof (nonzero_get_str _ Hn) as Hg.
  destruct (Nat.ltb_spec (alias_count s) MAX_ALIASES) as [Hlt|Hge].
  - destruct (set_alias_entries name command s Hok Hn Hc Hln Hlc Hlt) as (l & l' & a & E & E' & Ht & N1 & N2).
    unfold get_alias. rewrite E, E'. cbn [mbind option_bind]. rewrite Ht. split.
    + intros m Hm. rewrite search_alias_app. destruct (search_alias _ m); [done|]. cbn. unfold str_eq.
      by rewrite bool_decide_false by congruence.
    + rewrite search_alias_app. destruct (search_alias _ name); [done|]. cbn. unfold str_eq.
      by rewrite bool_decide_true, N2 by congruence.
  - assert (set_alias name command s = s) as ->.
    { unfold set_alias. destruct (aliases s); [|done]. by rewrite (proj2 (Nat.ltb_ge _ _)). }
    split; [done|]. by destruct (get_alias name s).
Qed.

Lemma new_alias_ok : alias_ok new_shell.
Proof.
  split; [|cbn; lia]. eexists. split; [reflexivity|]. split; [reflexivity|]. apply Forall_replicate. split; reflexivity.
Qed.

Lemma alias_first_wins_witness :
  get_alias (bytes "ll") (set_alias (bytes "ll") (bytes "rm") (set_alias (bytes "ll") (bytes "ls") new_shell)) =
  Some (bytes "ls").
Proof.
  destruct (alias_first_wins (bytes "ll") (bytes "rm") (set_alias (bytes "ll") (bytes "ls") new_shell)) as (_ & _ & H).
  - apply set_alias_ok, new_alias_ok.
  - repeat (constructor; [discriminate|]). constructor.
  - repeat (constructor; [discriminate|]). constructor.
  - cbn. lia.
  - cbn. lia.
  - rewrite H. reflexivity.
Defined.

(** ** History *)
Record history_ok (s : BashShell) : Prop := {
  hist_table : exists h, history s = Some h /\ length h = MAX_HISTORY /\ Forall (fun e => length e = MAX_CMD_LEN) h;
  hist_bound : (history_count s <= MAX_HISTORY)%nat
}.

(** The commands in the history, oldest first. *)
Definition recent (s : BashShell) : list (list Z) :=
  match history s with Some h => get_str <$> take (history_count s) h | None => [] end.

Definition last_n {A} (n : nat) (l : list A) : list A := drop (length l - n) l.

Lemma shift_history_spec h : length h = MAX_HISTORY -> exists x, x ∈ h /\ shift_history h = drop 1 h ++ [x].
Proof.
  intros H. do 10 (destruct h as [|? h]; [discriminate H|]). destruct h; [|discriminate H].
  eexists. split; [|reflexivity]. rewrite !elem_of_cons. tauto.
Qed.

Lemma last_n_snoc {A} n (l : list A) x : (0 < n)%nat -> last_n n (last_n n l ++ [x]) = last_n n (l ++ [x]).
Proof.
  intros Hn. unfold last_n. rewrite !length_app, length_drop. cbn [length].
  rewrite (drop_app_le _ [x]) by (rewrite length_drop; lia). rewrite drop_drop.
  rewrite (drop_app_le l) by lia. do 2 f_equal. lia.
Qed.

Lemma add_to_history_ok command s :
  history_ok s -> nonzero command ->
  history_ok (add_to_history command s) /\ recent (add_to_history command s) = last_n 10 (recent s ++ [take 1023 command]) /\
  history_pos (add_to_history command s) = history_count (add_to_history command s).
Proof.
  intros [(h & E & Hl & Hf) Hb] Hc. unfold add_to_history, recent. rewrite E. unfold last_n.
  rewrite length_app, length_fmap, length_take. cbn [length].
  destruct (Nat.ltb_spec (history_count s) MAX_HISTORY) as [Hlt|Hge]; cbn [history history_count history_pos with_history].
  - destruct (lookup_lt_is_Some_2 h (history_count s)) as [e He]; [lia|]. unfold MAX_HISTORY in *.
    replace (_ - 10)%nat with 0%nat by lia. rewrite drop_0. split; [|split; [|done]].
    + split; cbn; [|unfold MAX_HISTORY; lia]. eexists. split; [reflexivity|]. rewrite length_alter. split; [done|].
      apply Forall_alter; [done|]. intros x _ Hx. by rewrite copy_str_length.
    + set (f := fun e => copy_str e command).
      assert (alter f (history_count s) h !! history_count s = Some (f e)) as Hfe by by rewrite list_lookup_alter_eq, He.
      rewrite (take_S_r _ _ _ Hfe), take_alter_ge, fmap_app by lia. cbn [fmap list_fmap]. unfold f.
      eapply Forall_lookup in Hf; [|exact He]. rewrite copy_str_get by (done || (rewrite Hf; unfold MAX_CMD_LEN; lia)).
      by rewrite Hf.
  - destruct (shift_history_spec h Hl) as (x & Hx & Ex).
    eapply Forall_forall in Hx as Hxl; [|exact Hf]. rewrite Ex. unfold MAX_HISTORY in *.
    assert (history_count s = 10)%nat as -> by lia. rewrite Hl. change (10 `min` 10 + 1 - 10)%nat with 1%nat.
    assert (length (drop 1 h) = 9)%nat as Hd by (rewrite length_drop; lia).
    rewrite alter_app_r_alt by lia. rewrite Hd. change (10 - 1 - 9)%nat with 0%nat. cbn [alter list_alter].
    split; [|split; [|done]].
    + split; cbn; [|unfold MAX_HISTORY; lia]. eexists. split; [reflexivity|]. split; [rewrite length_app, Hd; done|].
      apply Forall_app. split; [by apply Forall_drop|]. constructor; [|constructor]. by rewrite copy_str_length.
    + rewrite !take_ge by (rewrite ?length_app, ?Hd; cbn; lia). rewrite fmap_app, fmap_drop, drop_app_le by (rewrite length_fmap; lia).
      cbn [fmap list_fmap]. rewrite copy_str_get by (done || (rewrite Hxl; unfold MAX_CMD_LEN; lia)). by rewrite Hxl.
Qed.

(** The history keeps the last ten commands: after any sequence of commands
    the entries in use are, in order, the last ten of them, each cut to 1023 bytes,
    and the position is behind the newest. *)
Theorem history_keeps_last_ten cs :
  Forall nonzero cs ->
  recent (fold_left (fun s c => add_to_history c s) cs new_shell) = last_n 10 (take 1023 <$> cs) /\
  history_pos (fold_left (fun s c => add_to_history c s) cs new_shell) = Nat.min 10 (length cs).
Proof.
  intros H. assert (forall s l, history_ok s -> recent s = last_n 10 l -> history_pos s = history_count s ->
    history_count s = length (recent s) ->
    recent (fold_left (fun s c => add_to_history c s) cs s) = last_n 10 (l ++ (take 1023 <$> cs)) /\
    history_pos (fold_left (fun s c => add_to_history c s) cs s) = Nat.min 10 (length (l ++ cs))) as K.
  { induction H as [|c cs Hc _ IH]; intros s l Hok Hr Hp Hn; cbn [fold_left fmap list_fmap].
    - rewrite !app_nil_r. split; [done|]. rewrite Hp, Hn, Hr. unfold last_n. rewrite length_drop. lia.
    - destruct (add_to_history_ok c s Hok Hc) as (Hok' & Hr' & Hp').
      destruct (IH _ (l ++ [take 1023 c]) Hok') as [R1 R2]; [rewrite Hr', Hr; by apply last_n_snoc; lia|done| |].
      + destruct Hok' as [(h & E & Hl & _) Hb]. unfold recent.
        rewrite E, length_fmap, length_take, Hl. unfold MAX_HISTORY in *. lia.
      + rewrite <- app_assoc in R1. split; [exact R1|]. rewrite R2, !length_app. cbn [length]. lia. }
  apply (K new_shell []).
  - split; [|cbn; lia]. eexists. split; [reflexivity|]. split; [reflexivity|]. apply Forall_replicate. apply length_replicate.
  - reflexivity.
  - reflexivity.
  - reflexivity.
Qed.

Lemma history_keeps_last_ten_witness :
  recent (fold_left (fun s c => add_to_history c s) [bytes "ls"; bytes "pwd"] new_shell) = [bytes "ls"; bytes "pwd"].
Proof.
  destruct (history_keeps_last_ten [bytes "ls"; bytes "pwd"]) as [H _].
  - repeat (constructor; [repeat (constructor; [discriminate|]); constructor|]). constructor.
  - rewrite H. reflexivity.
Defined.
