(* ===== verification/ShellFiles.v ===== *)
(** * The shell's commands on files and on its own state

    The state of the shell seen from a command, and the commands of
    kernel-rs/src/bash.rs that work on the file system (cd, ls, cat, mkdir, touch,
    rm, mv; lines 838-1104 and 1289-1367) or on the tables (export, alias, env,
    history, pwd, exit; lines 811-818, 910-922, 1106-1154 and 2564-2593).

    Path and file buffers are arrays in the stack frame of a command; [frame] is
    the address of the frame, which the calls into the file system get. *)

From S2P Require Import Prelude Memory Heap BTree Vfs ShellText ShellTables.

Local Open Scope Z_scope.

(** ** State *)

(** What a command puts out: text on both the serial line and the screen, text on
    the screen alone, a cleared screen, a directory listing, the process list. *)
Inductive shell_event :=
| Printed (s : list Z)
| Echoed (s : list Z)
| Cleared
| Listed (es : list event)
| ProcessesListed.

Record world := mkWorld {
  shell : BashShell;
  w_fs : root_fs;
  w_heap : heap;
  w_mem : mem;
  auto_clear : bool;
  output : list shell_event
}.

Definition with_shell (f : BashShell -> BashShell) (w : world) : world :=
  mkWorld (f (shell w)) (w_fs w) (w_heap w) (w_mem w) (auto_clear w) (output w).
Definition with_fs (fs : root_fs) (w : world) : world :=
  mkWorld (shell w) fs (w_heap w) (w_mem w) (auto_clear w) (output w).
Definition with_event (e : shell_event) (w : world) : world :=
  mkWorld (shell w) (w_fs w) (w_heap w) (w_mem w) (auto_clear w) (output w ++ [e]).
Definition with_auto_clear (b : bool) (w : world) : world :=
  mkWorld (shell w) (w_fs w) (w_heap w) (w_mem w) b (output w).

Definition print (s : list Z) : M world unit := modify (with_event (Printed (print_str s))).
Definition exit_code (c : Z) : M world unit := modify (with_shell (with_exit c)).

Definition skip : M world unit := mret tt.

Definition print_number (n : Z) : M world unit := ds ← lift (print_int n); modify (with_event (Printed ds)).

(** ** Calls into the file system *)

(** Arrays at addresses of the stack frame. *)
Definition locals (l : list (Z * list Z)) : mem := foldr (fun '(a, bs) m => poke a bs m) ∅ l.

Definition call_vfs (op : mem -> root_fs -> Z -> outcome (Z * root_fs)) (frame : Z) (path : list Z) : M world Z :=
  fun w => '(r, fs) ← op (locals [(frame, path)]) (w_fs w) frame; Ret (r, with_fs fs w).

(** The 4096-byte buffer of [cat] and [mv] lies behind the path arrays. *)
Definition file_buffer (frame : Z) : Z := frame + 512.

Definition FILE_BUF : nat := 4096.

Lemma FILE_BUF_Z : Z.of_nat FILE_BUF = 4096.
Proof. vm_compute. reflexivity. Qed.

#[global] Opaque FILE_BUF.

Definition vfs_load_n (size : nat) (frame : Z) (path : list Z) : M world (Z * list Z) :=
  fun w =>
    '(n, m) ← rust_vfs_read (locals [(frame, path); (file_buffer frame, replicate size 0)]) (w_fs w) frame
                (file_buffer frame) (Z.of_nat size - 1);
    b ← load_bytes m (file_buffer frame) size;
    Ret ((n, b), w).

Definition vfs_load : Z -> list Z -> M world (Z * list Z) := vfs_load_n FILE_BUF.

Definition vfs_store (frame : Z) (path buffer : list Z) (len : Z) : M world Z :=
  fun w =>
    '(r, fs) ← rust_vfs_write (locals [(frame, path); (file_buffer frame, buffer)]) (w_fs w) frame (file_buffer frame) len;
    Ret (r, with_fs fs w).

(** The path a command works on: absolute as given, otherwise below the current
    directory. *)
Definition starts_with_slash (p : list Z) : bool := match p with c :: _ => c =? 47 | [] => false end.

Definition below (dir path : list Z) : list Z :=
  let a := copy_str (replicate MAX_PATH_LEN 0) dir in
  let a := if negb (bool_decide (dir = [47])) then str_append a [47] else a in
  str_append a path.

Definition abs_path (cwd path : list Z) : list Z :=
  if starts_with_slash path then copy_str (replicate MAX_PATH_LEN 0) path else below (get_str cwd) path.

(** ** cd *)

(** The last slash of a path. *)
Fixpoint rfind_slash (l : list Z) : option nat :=
  match l with
  | [] => None
  | c :: l' => match rfind_slash l' with Some i => Some (S i) | None => if c =? 47 then Some 0%nat else None end
  end.

Definition empty_path : list Z := replicate MAX_PATH_LEN 0.

Definition cd_target (cwd path : list Z) : list Z :=
  if starts_with_slash path then copy_str empty_path path
  else
    let cwd_str := get_str cwd in
    if bool_decide (path = bytes "..") then
      if (1 <? length cwd_str)%nat then
        match rfind_slash cwd_str with
        | Some last_slash => if (0 <? last_slash)%nat then copy_str empty_path (take last_slash cwd_str)
                             else copy_str empty_path [47]
        | None => empty_path
        end
      else copy_str empty_path [47]
    else if bool_decide (path = bytes ".") then copy_str empty_path cwd_str
    else below cwd_str path.

(** The temporary file that tells whether the directory exists. *)
Definition cd_probe (target : list Z) : list Z :=
  let t := copy_str empty_path (get_str target) in
  let t := if negb (bool_decide (get_str target = [47])) then str_append t [47] else t in
  str_append t (bytes ".__gemini_cd_check").

Definition cmd_cd_heap (frame : Z) (args : list Z) (argc : nat) : M world unit :=
  w ← get;
  let path := if (1 <? argc)%nat then get_arg_heap args 1 else default [47] (get_env (bytes "HOME") (shell w)) in
  match path with
  | [] => exit_code 0
  | _ =>
      let new_path_abs := cd_target (cwd (shell w)) path in
      let temp_file_path := cd_probe new_path_abs in
      result ← call_vfs rust_vfs_create_file frame temp_file_path;
      if result =? 0 then
        _ ← call_vfs rust_vfs_unlink frame temp_file_path;
        _ ← modify (with_shell (fun s => with_cwd (copy_str (cwd s) (get_str new_path_abs)) s));
        _ ← modify (with_shell (fun s => set_env (bytes "PWD") (get_str (cwd s)) s));
        exit_code 0
      else
        _ ← print (bytes "cd: ");
        _ ← print path;
        _ ← print (line ": No such file or directory");
        exit_code 1
  end.

(** ** Files *)
Definition cmd_pwd_heap (args : list Z) (argc : nat) : M world unit :=
  w ← get;
  match get_str (cwd (shell w)) with
  | [] =>
      _ ← modify (with_shell (fun s => with_cwd (<[1%nat := 0]> (<[0%nat := 47]> (cwd s))) s));
      _ ← print (line "/");
      exit_code 0
  | cwd_str =>
      _ ← print cwd_str;
      _ ← print [10];
      exit_code 0
  end.

Definition ls_path (cwd path : list Z) : list Z :=
  if starts_with_slash path then copy_str empty_path path
  else if bool_decide (path = bytes ".") then copy_str empty_path (get_str cwd)
  else below (get_str cwd) path.

Definition cmd_ls_heap (frame : Z) (args : list Z) (argc : nat) : M world unit :=
  fun w =>
    let path := if (1 <? argc)%nat then get_arg_heap args 1 else bytes "." in
    '(result, es) ← rust_vfs_ls (locals [(frame, ls_path (cwd (shell w)) path)]) (w_fs w) frame;
    Ret (tt, with_shell (with_exit (if result =? 0 then 0 else 1)) (with_event (Listed es) w)).

Definition cmd_cat_heap (frame : Z) (args : list Z) (argc : nat) : M world unit :=
  if (argc <? 2)%nat then
    _ ← print (line "Usage: cat <file>");
    exit_code 1
  else
    w ← get;
    let filename := get_arg_heap args 1 in
    '(bytes_read, buffer) ← vfs_load frame (abs_path (cwd (shell w)) filename);
    if 0 <? bytes_read then
      buffer ← lift (arr_set buffer (Z.to_nat bytes_read) 0);
      _ ← print (take (S (Z.to_nat bytes_read)) buffer);
      exit_code 0
    else
      _ ← print (bytes "cat: ");
      _ ← print filename;
      _ ← print (line ": No such file or directory");
      exit_code 1.

Fixpoint echo_loop (args : list Z) (n i : nat) : M world unit :=
  match n with
  | O => skip
  | S n' =>
      _ ← (if (1 <? i)%nat then print [32] else skip);
      _ ← print (get_arg_heap args i);
      echo_loop args n' (S i)
  end.

Definition cmd_echo_heap (args : list Z) (argc : nat) : M world unit :=
  _ ← echo_loop args (argc - 1) 1;
  _ ← print [10];
  exit_code 0.

(** The shape [mkdir], [touch] and [rm] share: one path, one call, a message when
    it fails. *)
Definition path_command (op : mem -> root_fs -> Z -> outcome (Z * root_fs)) (usage before after : list Z)
    (frame : Z) (args : list Z) (argc : nat) : M world unit :=
  if (argc <? 2)%nat then
    _ ← print usage;
    exit_code 1
  else
    w ← get;
    let arg := get_arg_heap args 1 in
    result ← call_vfs op frame (abs_path (cwd (shell w)) arg);
    if result =? 0 then exit_code 0
    else
      _ ← print before;
      _ ← print arg;
      _ ← print after;
      exit_code 1.

Definition cmd_mkdir_heap :=
  path_command rust_vfs_mkdir (line "Usage: mkdir <directory>") (bytes "mkdir: cannot create directory '") (line "'").
Definition cmd_touch_heap :=
  path_command rust_vfs_create_file (line "Usage: touch <file>") (bytes "touch: cannot touch '") (line "'").
Definition cmd_rm_heap :=
  path_command rust_vfs_unlink (line "Usage: rm <file>") (bytes "rm: cannot remove '") (line "': No such file or directory").

(** The two failures of the write in [mv]. *)
Definition mv_failed (source dest reason : list Z) : M world unit :=
  _ ← print (bytes "mv: cannot move '");
  _ ← print source;
  _ ← print (bytes "' to '");
  _ ← print dest;
  _ ← print reason;
  exit_code 1.

(** The end of [mv]: remove the original. *)
Definition mv_unlink (frame : Z) (source source_path : list Z) : M world unit :=
  r ← call_vfs rust_vfs_unlink frame source_path;
  if negb (r =? 0) then
    _ ← print (bytes "mv: failed to remove original file '");
    _ ← print source;
    _ ← print (line "'");
    exit_code 1
  else exit_code 0.

Definition cmd_mv_heap (frame : Z) (args : list Z) (argc : nat) : M world unit :=
  if (argc <? 3)%nat then
    _ ← print (line "Usage: mv <source> <destination>");
    exit_code 1
  else
    w ← get;
    let source := get_arg_heap args 1 in
    let dest := get_arg_heap args 2 in
    let source_path := abs_path (cwd (shell w)) source in
    let dest_path := abs_path (cwd (shell w)) dest in
    '(bytes_read, buffer) ← vfs_load frame source_path;
    if bytes_read <=? 0 then
      _ ← print (bytes "mv: cannot stat '");
      _ ← print source;
      _ ← print (line "': No such file or directory");
      exit_code 1
    else
      write_result ← vfs_store frame dest_path buffer bytes_read;
      if negb (write_result =? bytes_read) then
        r ← call_vfs rust_vfs_create_file frame dest_path;
        if r =? 0 then
          write_result2 ← vfs_store frame dest_path buffer bytes_read;
          if negb (write_result2 =? bytes_read) then mv_failed source dest (line "': Write failed")
          else mv_unlink frame source source_path
        else mv_failed source dest (line "': Cannot create file")
      else mv_unlink frame source source_path.

(** ** The shell's own state *)
Definition cmd_exit_heap (args : list Z) (argc : nat) : M world unit :=
  w ← get;
  let code := if (1 <? argc)%nat then default 0 (parse_int (get_arg_heap args 1)) else last_exit_code (shell w) in
  _ ← print (line "Goodbye!");
  exit_code code.

(** [name=value], split at the first [=]. *)
Definition assignment (a : list Z) : option (list Z * list Z) :=
  eq_pos ← find_byte a 61; Some (take eq_pos a, drop (S eq_pos) a).

Definition cmd_export_heap (args : list Z) (argc : nat) : M world unit :=
  if (argc <? 2)%nat then
    _ ← print (line "Usage: export VAR=value");
    exit_code 1
  else
    match assignment (get_arg_heap args 1) with
    | Some (name, value) => _ ← modify (with_shell (set_env name value)); exit_code 0
    | None => _ ← print (line "export: invalid assignment"); exit_code 1
    end.

Fixpoint print_aliases (l : list Alias) : M world unit :=
  match l with
  | [] => skip
  | a :: l' =>
      _ ← print (bytes "alias ");
      _ ← print (get_str (al_name a));
      _ ← print (bytes "='");
      _ ← print (get_str (al_command a));
      _ ← print (line "'");
      print_aliases l'
  end.

Definition cmd_alias_heap (args : list Z) (argc : nat) : M world unit :=
  if (argc <? 2)%nat then
    w ← get;
    _ ← match aliases (shell w) with Some l => print_aliases (take (alias_count (shell w)) l) | None => skip end;
    exit_code 0
  else
    match assignment (get_arg_heap args 1) with
    | Some (name, command) => _ ← modify (with_shell (set_alias name command)); exit_code 0
    | None => _ ← print (line "alias: invalid assignment"); exit_code 1
    end.

Fixpoint print_env (l : list EnvVar) : M world unit :=
  match l with
  | [] => skip
  | v :: l' =>
      _ ← print (get_str (ev_name v));
      _ ← print (bytes "=");
      _ ← print (get_str (ev_value v));
      _ ← print [10];
      print_env l'
  end.

Definition cmd_env : M world unit :=
  w ← get;
  _ ← match env_vars (shell w) with Some l => print_env (take (env_count (shell w)) l) | None => skip end;
  exit_code 0.

Fixpoint print_history (l : list (list Z)) (i : Z) : M world unit :=
  match l with
  | [] => skip
  | e :: l' =>
      _ ← print_number (i + 1);
      _ ← print (bytes "  ");
      _ ← print (get_str e);
      _ ← print [10];
      print_history l' (i + 1)
  end.

Definition cmd_history : M world unit :=
  w ← get;
  _ ← match history (shell w) with Some h => print_history (take (history_count (shell w)) h) 0 | None => skip end;
  exit_code 0.

(** ** Commands leave the heap alone and end

    A command is tame when it ends (in a result, a panic or a fault) and does not
    touch the kernel heap. *)
Definition tame {A} (c : M world A) : Prop :=
  forall w, ends (c w) /\ forall a w', c w = Ret (a, w') -> w_heap w' = w_heap w /\ w_mem w' = w_mem w.

Lemma tame_mret {A} (a : A) : tame (mret a).
Proof. intros w. split; [discriminate|]. intros b w' H. by injection H as <- <-. Qed.

Lemma tame_get : tame get.
Proof. intros w. split; [discriminate|]. intros b w' H. by injection H as <- <-. Qed.

Lemma tame_bind {A B} (c : M world A) (k : A -> M world B) : tame c -> (forall a, tame (k a)) -> tame (a ← c; k a).
Proof.
  intros Hc Hk w. destruct (Hc w) as [H1 H2]. unfold mbind, M_bind_inst.
  destruct (c w) as [[a w1]| | |]; cbn [outcome_bind]; try done.
  destruct (H2 a w1 eq_refl) as [E1 E2]. destruct (Hk a w1) as [H3 H4]. split; [done|].
  intros b w' H. destruct (H4 b w' H) as [E3 E4]. split; congruence.
Qed.

Lemma tame_modify f : (forall w, w_heap (f w) = w_heap w /\ w_mem (f w) = w_mem w) -> tame (modify f).
Proof. intros Hf w. split; [discriminate|]. intros b w' H. injection H as _ <-. apply Hf. Qed.

Lemma tame_lift {A} (o : outcome A) : ends o -> tame (lift o).
Proof.
  intros Ho w. unfold lift. destruct o; cbn; split; try done. intros b w' H. by injection H as _ <-.
Qed.

Lemma tame_print s : tame (print s).
Proof. by apply tame_modify. Qed.

Lemma tame_exit_code c : tame (exit_code c).
Proof. by apply tame_modify. Qed.

Lemma tame_print_number n : tame (print_number n).
Proof.
  unfold print_number. apply tame_bind; [apply tame_lift; unfold print_int; solve_ends|].
  intros ds. by apply tame_modify.
Qed.

Create HintDb tame discriminated.
#[export] Hint Constants Opaque : tame.
#[export] Hint Resolve tame_mret tame_get tame_print tame_exit_code tame_print_number : tame.

(** Follow the control flow of a command. *)
Ltac tame_step :=
  lazymatch goal with
  | |- tame (_ ≫= _) => apply tame_bind; [|intros ?]
  | |- tame (modify _) => apply tame_modify; done
  | |- tame (lift _) => apply tame_lift
  | |- tame (let '(_, _) := ?x in _) => destruct x
  | |- tame (match ?x with _ => _ end) => destruct x
  | |- ends _ => ends_step
  | |- _ => solve [auto with tame]
  end.
Ltac solve_tame := repeat tame_step.

(** Calls into the file system. *)
Lemma create_entry_ends new m fs p : ends (create_entry new m fs p).
Proof. unfold create_entry, find_parent_and_name, get_path_components. solve_ends. Qed.

Lemma delete_file_ends m fs p : ends (delete_file m fs p).
Proof. unfold delete_file, find_parent_and_name, get_path_components. solve_ends. Qed.

Lemma read_file_ends m fs p buf n : ends (read_file m fs p buf n).
Proof. unfold read_file, find_entry, get_path_components. solve_ends. Qed.

Lemma write_file_ends m fs p buf n : ends (write_file m fs p buf n).
Proof. unfold write_file, reserve, find_entry, get_path_components. solve_ends. Qed.

Lemma write_all_ends ss b : ends (write_all ss b).
Proof.
  revert b. induction ss as [|s ss IH]; intros b; cbn [write_all]; [apply ends_Ret|].
  apply ends_bind; [unfold write; solve_ends|]. intros b' _. apply IH.
Qed.

Lemma list_lines_ends cs : ends (list_lines cs).
Proof.
  pose proof write_all_ends. induction cs as [|[n c] l IH]; cbn [list_lines]; [apply ends_Ret|].
  unfold list_line. solve_ends.
Qed.

Lemma list_directory_ends m fs p : ends (list_directory m fs p).
Proof. unfold list_directory, find_entry, get_path_components. pose proof list_lines_ends. solve_ends. Qed.

#[export] Hint Resolve create_entry_ends delete_file_ends read_file_ends write_file_ends list_directory_ends : ends.

Lemma tame_call_vfs op frame path : (forall m fs p, ends (op m fs p)) -> tame (call_vfs op frame path).
Proof.
  intros H w. unfold call_vfs. specialize (H (locals [(frame, path)]) (w_fs w) frame).
  destruct (op _ _ _) as [[r fs]| | |]; cbn; split; try done. intros a w' E. by injection E as _ <-.
Qed.

Lemma tame_vfs_load frame path : tame (vfs_load frame path).
Proof.
  unfold vfs_load. generalize FILE_BUF as size. intros size w. unfold vfs_load_n, rust_vfs_read. split; [solve_ends|]. intros a w' H. inv_bind H. destruct r as [n m]. inv_bind H. apply Ret_inj in H.
  injection H as _ <-. done.
Qed.

Lemma tame_vfs_store frame path b n : tame (vfs_store frame path b n).
Proof.
  intros w. unfold vfs_store. split; [unfold rust_vfs_write; solve_ends|]. intros a w' H.
  destruct (rust_vfs_write _ _ _ _ _) as [[r fs]| | |]; try done. by injection H as _ <-.
Qed.

#[export] Hint Resolve tame_vfs_load tame_vfs_store : tame.
#[export] Hint Extern 1 (tame (call_vfs _ _ _)) => apply tame_call_vfs; intros; apply create_entry_ends : tame.
#[export] Hint Extern 1 (tame (call_vfs _ _ _)) => apply tame_call_vfs; intros; apply delete_file_ends : tame.
#[export] Hint Extern 1 (tame skip) => apply tame_mret : tame.

Lemma tame_cd frame args argc : tame (cmd_cd_heap frame args argc).
Proof. unfold cmd_cd_heap. solve_tame. Qed.

Lemma tame_pwd args argc : tame (cmd_pwd_heap args argc).
Proof. unfold cmd_pwd_heap. solve_tame. Qed.

Lemma tame_ls frame args argc : tame (cmd_ls_heap frame args argc).
Proof.
  intros w. unfold cmd_ls_heap. split; [unfold rust_vfs_ls; solve_ends|]. intros a w' H.
  destruct (rust_vfs_ls _ _ _) as [[r es]| | |]; try done. by injection H as _ <-.
Qed.

Lemma tame_cat frame args argc : tame (cmd_cat_heap frame args argc).
Proof. unfold cmd_cat_heap. solve_tame. Qed.

Lemma tame_echo args argc : tame (cmd_echo_heap args argc).
Proof.
  assert (forall n i, tame (echo_loop args n i)).
  { induction n as [|n IH]; intros i; cbn [echo_loop]; solve_tame. }
  unfold cmd_echo_heap. solve_tame.
Qed.

Lemma tame_path_command op u b a frame args argc :
  (forall m fs p, ends (op m fs p)) -> tame (path_command op u b a frame args argc).
Proof. intros H. unfold path_command. pose proof (tame_call_vfs op). solve_tame. Qed.

Lemma tame_mv frame args argc : tame (cmd_mv_heap frame args argc).
Proof. unfold cmd_mv_heap, mv_unlink, mv_failed. solve_tame. Qed.

Lemma tame_exit args argc : tame (cmd_exit_heap args argc).
Proof. unfold cmd_exit_heap. solve_tame. Qed.

Lemma tame_export args argc : tame (cmd_export_heap args argc).
Proof. unfold cmd_export_heap. solve_tame. Qed.

Lemma tame_alias args argc : tame (cmd_alias_heap args argc).
Proof.
  assert (forall l, tame (print_aliases l)) by (induction l; cbn [print_aliases]; solve_tame).
  unfold cmd_alias_heap. solve_tame.
Qed.

Lemma tame_env : tame cmd_env.
Proof.
  assert (forall l, tame (print_env l)) by (induction l; cbn [print_env]; solve_tame).
  unfold cmd_env. solve_tame.
Qed.

Lemma tame_history : tame cmd_history.
Proof.
  assert (forall l i, tame (print_history l i)) by (induction l; intros i; cbn [print_history]; solve_tame).
  unfold cmd_history. solve_tame.
Qed.

#[export] Hint Resolve tame_cd tame_pwd tame_ls tame_cat tame_echo tame_mv tame_exit tame_export tame_alias tame_env
  tame_history : tame.

(** ** Paths *)

(** A NUL-terminated array splits into its string and the rest. *)
Lemma get_str_split l : (length (get_str l) < length l)%nat -> exists r, l = get_str l ++ 0 :: r.
Proof.
  unfold get_str. induction l as [|c l IH]; cbn; [lia|]. destruct (Z.eqb_spec c 0) as [->|Hc]; cbn; [by exists l|].
  intros H. destruct IH as [r Hr]; [lia|]. exists r. by f_equal.
Qed.

Lemma get_str_app d r : nonzero d -> get_str (d ++ 0 :: r) = d.
Proof. apply until_nul_app. Qed.

Lemma str_append_get dest src :
  nonzero src -> (length (get_str dest) + length src < length dest)%nat ->
  get_str (str_append dest src) = get_str dest ++ src /\ length (str_append dest src) = length dest.
Proof.
  intros Hs Hl. destruct (get_str_split dest) as [r E]; [lia|]. unfold str_append.
  rewrite Nat.min_r, (proj2 (Nat.ltb_lt _ _)), (take_ge src) by lia.
  assert (take (length (get_str dest)) dest = get_str dest) as ->.
  { rewrite E at 2. by rewrite take_app_length. }
  rewrite app_assoc. cbn [app]. split.
  - apply get_str_app. apply Forall_app. split; [apply until_nul_nonzero|done].
  - rewrite !length_app. cbn [length]. rewrite length_drop. lia.
Qed.

Lemma copy_path_get src :
  nonzero src -> (length src <= 255)%nat -> get_str (copy_str empty_path src) = src /\ length (copy_str empty_path src) = 256%nat.
Proof.
  intros Hs Hl. rewrite copy_str_length. split; [|reflexivity]. rewrite copy_str_get by (done || (cbn; lia)).
  apply take_ge. exact Hl.
Qed.

Lemma below_get dir path :
  nonzero dir -> nonzero path -> (length dir + 1 + length path <= 255)%nat ->
  get_str (below dir path) = dir ++ (if bool_decide (dir = [47]) then [] else [47]) ++ path /\
  length (below dir path) = 256%nat.
Proof.
  intros Hd Hp Hl. unfold below. fold empty_path. destruct (copy_path_get dir Hd) as [E1 L1]; [lia|].
  destruct (bool_decide (dir = [47])); cbn [negb app].
  - destruct (str_append_get (copy_str empty_path dir) path Hp) as [E2 L2]; [rewrite E1; lia|].
    by rewrite E2, E1, L2.
  - destruct (str_append_get (copy_str empty_path dir) [47]) as [E2 L2]; [by apply Forall_singleton|rewrite E1; cbn [length]; lia|].
    destruct (str_append_get (str_append (copy_str empty_path dir) [47]) path Hp) as [E3 L3].
    { rewrite E2, E1, length_app. cbn [length]. lia. }
    rewrite E3, E2, E1, L3, L2, <- app_assoc. done.
Qed.

(** What a command's argument names, as a path of the file system. *)
Definition resolve (cwd arg : list Z) : path :=
  if starts_with_slash arg then components arg else components (get_str cwd) ++ components arg.

(** The argument and the current directory fit into 255 bytes. *)
Definition fits (cwd arg : list Z) : Prop := nonzero arg /\ (length (get_str cwd) + 1 + length arg <= 255)%nat.

Lemma abs_path_ok cwd arg :
  fits cwd arg ->
  components (get_str (abs_path cwd arg)) = resolve cwd arg /\ (length (get_str (abs_path cwd arg)) < 256)%nat /\
  length (abs_path cwd arg) = 256%nat.
Proof.
  intros [Ha Hl]. unfold abs_path, resolve. destruct (starts_with_slash arg).
  - fold empty_path. destruct (copy_path_get arg Ha) as [-> ->]; [lia|]. split; [done|]. lia.
  - destruct (below_get (get_str cwd) arg) as [-> ->]; [apply until_nul_nonzero|done|done|].
    split; [|split; [|done]].
    + destruct (bool_decide_reflect (get_str cwd = [47])) as [->|_]; cbn [app].
      * by rewrite components_lead.
      * by rewrite components_slash.
    + destruct (bool_decide _); rewrite !length_app; cbn [length]; lia.
Qed.

(** The path array in the frame is a C string. *)
Lemma locals_path frame a rest :
  (length (get_str a) < length a)%nat -> cstr_at (locals ((frame, a) :: rest)) frame (get_str a).
Proof.
  intros H. destruct (get_str_split a H) as [r E]. split; [apply until_nul_nonzero|]. cbn [locals foldr].
  intros i x Hi. apply bytes_at_poke. rewrite E. replace (get_str a ++ 0 :: r) with ((get_str a ++ [0]) ++ r) by by rewrite <- app_assoc.
  by apply lookup_app_l_Some.
Qed.

(** ** The file commands implement the flat file system *)

(** An operation on a path that behaves as [F] on the flat view. *)
Definition implements (op : mem -> root_fs -> Z -> outcome (Z * root_fs)) (F : path -> flat -> Z * flat) : Prop :=
  forall m p s root, cstr_at m p s -> p <> 0 -> tree_ok root ->
  exists root', op m (Some root) p = Ret ((F (components s) (view root)).1, Some root') /\ tree_ok root' /\
    forall q, view root' q = (F (components s) (view root)).2 q.

Lemma create_file_implements : implements rust_vfs_create_file (flat_create Regular).
Proof. intros m p s root Hc Hp Hr. by apply (create_entry_spec m p s Hc Hp root Hr new_file). Qed.

Lemma mkdir_implements : implements rust_vfs_mkdir (flat_create Directory).
Proof. intros m p s root Hc Hp Hr. by apply (create_entry_spec m p s Hc Hp root Hr new_directory). Qed.

Lemma unlink_implements : implements rust_vfs_unlink flat_delete.
Proof. intros m p s root Hc Hp Hr. by apply (delete_file_spec m p s Hc Hp root Hr). Qed.

Lemma call_vfs_ok op F frame cwd arg w root :
  implements op F -> frame <> 0 -> w_fs w = Some root -> tree_ok root -> fits cwd arg ->
  exists root', call_vfs op frame (abs_path cwd arg) w =
      Ret ((F (resolve cwd arg) (view root)).1, with_fs (Some root') w) /\ tree_ok root' /\
    forall q, view root' q = (F (resolve cwd arg) (view root)).2 q.
Proof.
  intros Hop Hf E Hr Hfit. destruct (abs_path_ok cwd arg Hfit) as (Ec & H1 & H2). unfold call_vfs. rewrite E.
  destruct (Hop (locals [(frame, abs_path cwd arg)]) frame (get_str (abs_path cwd arg)) root) as (root' & -> & Hok & Hv);
    [apply locals_path; lia|done|done|].
  rewrite Ec in *. step_ret. by exists root'.
Qed.

Lemma path_command_ok op F u b a frame args argc w root :
  implements op F -> frame <> 0 -> w_fs w = Some root -> tree_ok root -> (2 <= argc)%nat ->
  fits (cwd (shell w)) (get_arg_heap args 1) ->
  exists w' root', path_command op u b a frame args argc w = Ret (tt, w') /\ w_fs w' = Some root' /\ tree_ok root' /\
    (forall q, view root' q = (F (resolve (cwd (shell w)) (get_arg_heap args 1)) (view root)).2 q) /\
    shell w' = with_exit (if (F (resolve (cwd (shell w)) (get_arg_heap args 1)) (view root)).1 =? 0 then 0 else 1) (shell w).
Proof.
  intros Hop Hf E Hr Ha Hfit. unfold path_command. rewrite (proj2 (Nat.ltb_ge _ _)) by done.
  destruct (call_vfs_ok op F frame _ _ w root Hop Hf E Hr Hfit) as (root' & Ec & Hok & Hv).
  unfold mbind at 1, M_bind_inst at 1, get. cbn [outcome_bind]. unfold mbind at 1, M_bind_inst at 1. rewrite Ec. cbn [outcome_bind].
  destruct (_ =? 0); eexists _, root'; (split; [reflexivity|]); by split.
Qed.

(** C23. The shell's file commands work on the file system: with an argument that
    fits a path buffer, mkdir, touch and rm return and have the effect of creating
    a directory, creating a file or deleting at the path the argument names
    (absolute, or below the current directory), and the exit code is 0 exactly when
    that succeeds. *)
Theorem shell_file_commands frame args argc w root :
  frame <> 0 -> w_fs w = Some root -> tree_ok root -> (2 <= argc)%nat -> fits (cwd (shell w)) (get_arg_heap args 1) ->
  let p := resolve (cwd (shell w)) (get_arg_heap args 1) in
  let done (r : outcome (unit * world)) (spec : Z * flat) :=
    exists w' root', r = Ret (tt, w') /\ w_fs w' = Some root' /\ tree_ok root' /\
      (forall q, view root' q = spec.2 q) /\ shell w' = with_exit (if spec.1 =? 0 then 0 else 1) (shell w) in
  done (cmd_mkdir_heap frame args argc w) (flat_create Directory p (view root)) /\
  done (cmd_touch_heap frame args argc w) (flat_create Regular p (view root)) /\
  done (cmd_rm_heap frame args argc w) (flat_delete p (view root)).
Proof.
  intros Hf E Hr Ha Hfit p done. split; [|split].
  - by apply path_command_ok; [apply mkdir_implements|..].
  - by apply path_command_ok; [apply create_file_implements|..].
  - by apply (path_command_ok _ flat_delete); [apply unlink_implements|..].
Qed.

Definition demo_world : world := mkWorld new_shell (Some (demo_root (bytes "hello"))) (init_heap 4096) ∅ false [].

Lemma shell_file_commands_witness :
  exists w' root', cmd_rm_heap 64 (encode [bytes "rm"; bytes "etc"]) 2 demo_world = Ret (tt, w') /\
    w_fs w' = Some root' /\ tree_ok root' /\ view root' [bytes "etc"] = None /\ last_exit_code (shell w') = 0.
Proof.
  destruct (shell_file_commands 64 (encode [bytes "rm"; bytes "etc"]) 2 demo_world (demo_root (bytes "hello")))
    as (_ & _ & w' & root' & H1 & H2 & H3 & H4 & H5).
  - discriminate.
  - reflexivity.
  - apply demo_root_ok.
  - lia.
  - split; [repeat (constructor; [discriminate|]); constructor|vm_compute; lia].
  - exists w', root'. split; [exact H1|]. split; [exact H2|]. split; [exact H3|]. split.
    + rewrite H4. reflexivity.
    + rewrite H5. reflexivity.
Defined.

(** ** Changing the directory *)
Definition probe_name : list Z := bytes ".__gemini_cd_check".

Lemma probe_ok target :
  (length (get_str target) + 1 + length probe_name <= 255)%nat ->
  components (get_str (cd_probe target)) = components (get_str target) ++ [probe_name] /\
  (length (get_str (cd_probe target)) < length (cd_probe target))%nat.
Proof.
  intros Hl. assert (cd_probe target = below (get_str target) probe_name) as -> by done.
  assert (nonzero probe_name) as Hn by (repeat (constructor; [discriminate|]); constructor).
  destruct (below_get (get_str target) probe_name) as [-> ->]; [apply until_nul_nonzero|done|done|].
  split; [|destruct (bool_decide _); rewrite !length_app; cbn [length]; lia].
  destruct (bool_decide_reflect (get_str target = [47])) as [->|_]; cbn [app]; [done|]. by rewrite components_slash.
Qed.

(** Creating the probe and deleting it again leaves the file system as it was. *)
Lemma probe_restores root d n :
  view root d <> None -> view root (d ++ [n]) = None ->
  forall q, (flat_delete (d ++ [n]) (flat_create Regular (d ++ [n]) (view root)).2).2 q = view root q.
Proof.
  intros Hd Hn q. unfold flat_create. rewrite decide_False by by destruct d. rewrite removelast_last.
  destruct (view root d) as [x|] eqn:Ed; [|done]. rewrite Hn. cbn [fst snd]. unfold flat_delete.
  rewrite decide_False by by destruct d. rewrite decide_True by done. cbn [snd].
  destruct (decide ((d ++ [n]) `prefix_of` q)) as [[r ->]|Hp].
  - unfold view in *. rewrite entry_at_app. by destruct (entry_at root (d ++ [n])).
  - rewrite decide_False; [done|]. intros ->. by apply Hp.
Qed.

Lemma flat_create_zero root d n :
  (flat_create Regular (d ++ [n]) (view root)).1 = 0 <-> view root d <> None /\ view root (d ++ [n]) = None.
Proof.
  unfold flat_create. rewrite decide_False by by destruct d. rewrite removelast_last.
  destruct (view root d); [destruct (view root (d ++ [n]))|]; cbn; (split; [done|by intros [? ?]]).
Qed.

Lemma flat_create_fails root d n :
  (flat_create Regular (d ++ [n]) (view root)).1 <> 0 -> (flat_create Regular (d ++ [n]) (view root)).2 = view root.
Proof.
  unfold flat_create. rewrite decide_False by by destruct d. destruct (view root _); [|done].
  by destruct (view root (d ++ [n])).
Qed.

Lemma call_probe op F frame target w root :
  implements op F -> frame <> 0 -> w_fs w = Some root -> tree_ok root ->
  (length (get_str target) + 1 + length probe_name <= 255)%nat ->
  exists root', call_vfs op frame (cd_probe target) w =
      Ret ((F (components (get_str target) ++ [probe_name]) (view root)).1, with_fs (Some root') w) /\ tree_ok root' /\
    forall q, view root' q = (F (components (get_str target) ++ [probe_name]) (view root)).2 q.
Proof.
  intros Hop Hf E Hr Hl. destruct (probe_ok target Hl) as [Ec Hlen]. unfold call_vfs. rewrite E.
  destruct (Hop (locals [(frame, cd_probe target)]) frame (get_str (cd_probe target)) root) as (root' & -> & Hok & Hv);
    [by apply locals_path|done|done|].
  rewrite Ec in *. step_ret. by exists root'.
Qed.

Lemma nonempty_match {A X} (l : list A) (x y : X) : l <> [] -> match l with [] => x | _ :: _ => y end = y.
Proof. by destruct l. Qed.

(** C39. [cd] with an argument: it succeeds exactly when the target exists and holds
    no entry with the name of the probe file; then the current directory and PWD are
    the target and the exit code is 0; otherwise nothing but the exit code changes.
    In both cases the file system is left as it was.  Nothing in the condition asks
    the target to be a directory. *)
Theorem cd_moves frame args argc w root :
  let path := get_arg_heap args 1 in
  let target := get_str (cd_target (cwd (shell w)) path) in
  frame <> 0 -> w_fs w = Some root -> tree_ok root -> (2 <= argc)%nat -> path <> [] ->
  (length target + 1 + length probe_name <= 255)%nat -> length (cwd (shell w)) = MAX_PATH_LEN ->
  exists w' root', cmd_cd_heap frame args argc w = Ret (tt, w') /\ w_fs w' = Some root' /\ tree_ok root' /\
    (forall q, view root' q = view root q) /\
    (view root (components target) <> None /\ view root (components target ++ [probe_name]) = None ->
       get_str (cwd (shell w')) = target /\ last_exit_code (shell w') = 0 /\
       shell w' = with_exit 0 (set_env (bytes "PWD") target (with_cwd (cwd (shell w')) (shell w)))) /\
    (view root (components target) = None \/ view root (components target ++ [probe_name]) <> None ->
       shell w' = with_exit 1 (shell w)).
Proof.
  intros path target Hf E Hr Ha Hne Hl Hcwd. unfold cmd_cd_heap. step_m. rewrite (proj2 (Nat.ltb_lt 1 argc)) by lia.
  fold path. rewrite (nonempty_match path) by done.
  destruct (call_probe rust_vfs_create_file _ frame (cd_target (cwd (shell w)) path) w root create_file_implements Hf E Hr Hl)
    as (r1 & E1 & Hok1 & Hv1).
  rewrite E1. cbn [outcome_bind]. fold target in E1, Hv1 |- *.
  destruct (Z.eqb_spec (flat_create Regular (components target ++ [probe_name]) (view root)).1 0) as [Ez|Ez].
  - pose proof (proj1 (flat_create_zero _ _ _) Ez) as [Hd Hn].
    destruct (call_probe rust_vfs_unlink _ frame (cd_target (cwd (shell w)) path) (with_fs (Some r1) w) r1 unlink_implements Hf eq_refl Hok1 Hl)
      as (r2 & E2 & Hok2 & Hv2).
    rewrite E2. cbn [outcome_bind]. unfold exit_code, modify. cbn [outcome_bind].
    assert (get_str (copy_str (cwd (shell w)) target) = target) as Hg.
    { unfold MAX_PATH_LEN in Hcwd. rewrite copy_str_get by (apply until_nul_nonzero || lia). apply take_ge. lia. }
    eexists _, r2. split; [reflexivity|]. cbn [shell w_fs with_shell with_fs]. split; [done|]. split; [done|]. split.
    { intros q. rewrite Hv2. fold target. rewrite <- (probe_restores root _ probe_name Hd Hn q).
      unfold flat_delete. rewrite !decide_False by by destruct (components target). rewrite Hv1.
      destruct ((flat_create _ _ _).2 (_ ++ _)); cbn [snd]; [|apply Hv1]. destruct (decide _); [done|apply Hv1]. }
    cbn [cwd with_cwd with_exit last_exit_code]. rewrite Hg. split.
    + intros _. by rewrite set_env_cwd.
    + intros [?|?]; congruence.
  - unfold print, exit_code, modify. cbn [outcome_bind]. eexists _, r1. split; [reflexivity|].
    cbn [shell w_fs with_shell with_fs with_event]. split; [done|]. split; [done|]. split.
    { intros q. rewrite Hv1. by rewrite flat_create_fails. }
    split; [|done]. intros Hc. by apply flat_create_zero in Hc.
Qed.

Lemma cd_moves_witness :
  exists w' root', cmd_cd_heap 64 (encode [bytes "cd"; bytes "etc"]) 2 demo_world = Ret (tt, w') /\
    w_fs w' = Some root' /\ get_str (cwd (shell w')) = bytes "/etc" /\ last_exit_code (shell w') = 0.
Proof.
  destruct (cd_moves 64 (encode [bytes "cd"; bytes "etc"]) 2 demo_world (demo_root (bytes "hello")))
    as (w' & root' & H1 & H2 & _ & _ & H3 & _).
  - discriminate.
  - reflexivity.
  - apply demo_root_ok.
  - lia.
  - discriminate.
  - vm_compute. lia.
  - reflexivity.
  - destruct H3 as (H3 & H4 & _); [split; [vm_compute; discriminate|reflexivity]|].
    exists w', root'. split; [exact H1|]. split; [exact H2|]. split; [rewrite H3; reflexivity|exact H4].
Defined.

(** ** Moving a file *)
(** Reading a file of fewer than [n] bytes into a buffer of [n]. *)
Lemma read_into m p s root buf n max bs :
  cstr_at m p s -> p <> 0 -> tree_ok root -> buf <> 0 -> 0 < max < 2 ^ 31 -> mapped m buf n ->
  view root (components s) = Some (Regular, bs) -> Z.of_nat (length bs) <= max -> (length bs <= n)%nat ->
  exists m' b, read_file m (Some root) p buf max = Ret (Z.of_nat (length bs), m') /\ load_bytes m' buf n = Ret b /\
    take (length bs) b = bs.
Proof.
  intros Hc Hne Hr Hbuf Hmax Hm Hv Hl Hn. pose proof (read_file_spec m p s Hc Hne root buf max Hbuf Hmax) as R.
  rewrite Hv in R. destruct R as (m' & R & P).
  { intros t l [= <- <-] _. intros i Hi. apply Hm. lia. }
  rewrite Z.min_l in R by lia. rewrite (take_ge bs) in P by lia.
  destruct (mapped_load m' buf n) as [b Hb].
  { intros i Hi. apply elem_of_dom. rewrite (patched_dom m buf bs m'); [by apply elem_of_dom, Hm| |done].
    intros j Hj. apply Hm. lia. }
  exists m', b. split; [done|]. split; [done|]. apply load_bytes_inv in Hb as [Lb Hb]. apply bytes_at_patched in P.
  apply list_eq. intros i. destruct (decide (i < length bs)%nat) as [Hi|Hi].
  - rewrite lookup_take_lt by done. destruct (lookup_lt_is_Some_2 bs i Hi) as [x Hx].
    destruct (lookup_lt_is_Some_2 b i) as [y Hy]; [lia|]. rewrite Hx, Hy. pose proof (P i x Hx). pose proof (Hb i y Hy). congruence.
  - rewrite lookup_take_ge by lia. symmetry. apply lookup_ge_None_2. lia.
Qed.

(** A second array of the frame, behind the path. *)
Lemma locals_buffer frame a l : length a = 256%nat -> bytes_at (locals [(frame, a); (file_buffer frame, l)]) (file_buffer frame) l.
Proof.
  intros H i x Hi. cbn [locals foldr]. rewrite poke_outside by (unfold file_buffer; rewrite H; lia). by apply bytes_at_poke.
Qed.

Lemma vfs_load_ok frame cwd arg w root bs :
  0 < frame -> w_fs w = Some root -> tree_ok root -> fits cwd arg -> view root (resolve cwd arg) = Some (Regular, bs) ->
  Z.of_nat (length bs) <= 4095 ->
  exists b, vfs_load frame (abs_path cwd arg) w = Ret ((Z.of_nat (length bs), b), w) /\ take (length bs) b = bs.
Proof.
  unfold vfs_load. pose proof FILE_BUF_Z as HB. revert HB. generalize FILE_BUF as size. intros size HB.
  intros Hf E Hr Hfit Hv Hl. destruct (abs_path_ok cwd arg Hfit) as (Ec & H1 & H2). unfold vfs_load_n. rewrite E.
  rewrite <- Ec in Hv.
  destruct (read_into (locals [(frame, abs_path cwd arg); (file_buffer frame, replicate size 0)]) frame
    (get_str (abs_path cwd arg)) root (file_buffer frame) size (Z.of_nat size - 1) bs) as (m' & b & R1 & R2 & R3);
    [apply locals_path; lia|lia|done|unfold file_buffer; lia|lia| |done|lia|lia|].
  { rewrite <- (length_replicate size 0) at 2. by apply bytes_at_mapped, locals_buffer. }
  unfold rust_vfs_read. rewrite R1. step_ret. rewrite R2. step_ret. by exists b.
Qed.

Lemma vfs_store_ok frame cwd arg b bs w root :
  0 < frame -> w_fs w = Some root -> tree_ok root -> fits cwd arg -> take (length bs) b = bs -> Z.of_nat (length bs) <= 4095 ->
  exists root', vfs_store frame (abs_path cwd arg) b (Z.of_nat (length bs)) w =
      Ret ((flat_write (resolve cwd arg) bs (view root)).1, with_fs (Some root') w) /\ tree_ok root' /\
    forall q, view root' q = (flat_write (resolve cwd arg) bs (view root)).2 q.
Proof.
  intros Hf E Hr Hfit Hb Hl. destruct (abs_path_ok cwd arg Hfit) as (Ec & H1 & H2). unfold vfs_store. rewrite E.
  assert (length (get_str (abs_path cwd arg)) < length (abs_path cwd arg))%nat as Hlt by lia.
  assert (frame <> 0) as Hne by lia. set (m := locals _).
  assert (bytes_at m (file_buffer frame) bs) as Hbs.
  { intros i x Hi. apply locals_buffer; [done|]. rewrite <- Hb in Hi. by apply lookup_take_Some in Hi as [Hi _]. }
  pose proof (write_file_spec m frame (get_str (abs_path cwd arg)) (locals_path frame _ _ Hlt) Hne root Hr
    (file_buffer frame) bs) as R.
  rewrite Ec in R. destruct R as (root' & R & Hok & Hv); [unfold file_buffer; lia|done|lia|].
  unfold rust_vfs_write. rewrite R. step_ret. by exists root'.
Qed.

(** The file system after a move. *)
Definition flat_move (s d : path) (bs : list Z) (v : flat) : flat :=
  fun q => if decide (q = d) then Some (Regular, bs) else if decide (s `prefix_of` q) then None else v q.

(** Removing the original at the end of [mv], when the copy is in place. *)
Lemma mv_unlink_ok frame source cwd arg w root root0 d bs :
  0 < frame -> w_fs w = Some root -> tree_ok root -> fits cwd arg -> resolve cwd arg <> [] ->
  view root0 (resolve cwd arg) <> None -> ~ resolve cwd arg `prefix_of` d ->
  (forall q, view root q = if decide (q = d) then Some (Regular, bs) else view root0 q) ->
  exists root', mv_unlink frame source (abs_path cwd arg) w = Ret (tt, with_shell (with_exit 0) (with_fs (Some root') w)) /\
    tree_ok root' /\ forall q, view root' q = flat_move (resolve cwd arg) d bs (view root0) q.
Proof.
  intros Hf E Hr Hfit Hne Hs Hp Hv.
  destruct (call_vfs_ok _ _ frame cwd arg w root unlink_implements ltac:(lia) E Hr Hfit) as (root' & E1 & Hok & Hv').
  assert (resolve cwd arg <> d) as Hsd by (intros <-; by apply Hp).
  unfold flat_delete in E1, Hv'. rewrite decide_False in E1, Hv' by done. rewrite Hv, decide_False in E1, Hv' by done.
  destruct (view root0 (resolve cwd arg)) as [x|] eqn:Ex; [|done]. cbn [fst snd] in E1, Hv'.
  exists root'. split.
  - unfold mv_unlink, mbind, M_bind_inst. rewrite E1. done.
  - split; [done|]. intros q. rewrite Hv', Hv. unfold flat_move.
    destruct (decide (resolve cwd arg `prefix_of` q)), (decide (q = d)) as [->|]; done.
Qed.

(** The two ways of writing the destination. *)
Lemma mv_write_ok frame cwd arg b bs w root :
  0 < frame -> w_fs w = Some root -> tree_ok root -> fits cwd arg -> take (length bs) b = bs ->
  Z.of_nat (length bs) <= 4095 -> (exists old, view root (resolve cwd arg) = Some (Regular, old)) ->
  exists root', vfs_store frame (abs_path cwd arg) b (Z.of_nat (length bs)) w =
      Ret (Z.of_nat (length bs), with_fs (Some root') w) /\ tree_ok root' /\
    forall q, view root' q = if decide (q = resolve cwd arg) then Some (Regular, bs) else view root q.
Proof.
  intros Hf E Hr Hfit Hb Hl [old Ho].
  destruct (vfs_store_ok frame cwd arg b bs w root Hf E Hr Hfit Hb Hl) as (root' & E1 & Hok & Hv).
  unfold flat_write in E1, Hv. rewrite Ho in E1, Hv. by exists root'.
Qed.

Lemma mv_create_ok frame cwd arg w root :
  0 < frame -> w_fs w = Some root -> tree_ok root -> fits cwd arg -> resolve cwd arg <> [] ->
  view root (resolve cwd arg) = None -> view root (removelast (resolve cwd arg)) <> None ->
  exists root', call_vfs rust_vfs_create_file frame (abs_path cwd arg) w = Ret (0, with_fs (Some root') w) /\ tree_ok root' /\
    forall q, view root' q = if decide (q = resolve cwd arg) then Some (Regular, []) else view root q.
Proof.
  intros Hf E Hr Hfit Hne Hn Hp.
  destruct (call_vfs_ok _ _ frame cwd arg w root create_file_implements ltac:(lia) E Hr Hfit) as (root' & E1 & Hok & Hv).
  unfold flat_create in E1, Hv. rewrite decide_False in E1, Hv by done.
  destruct (view root (removelast _)); [|done]. rewrite Hn in E1, Hv. by exists root'.
Qed.

(** A file that is not empty, to a file or to a new name. *)
Lemma mv_moves_ok frame args argc w root bs :
  let s := resolve (cwd (shell w)) (get_arg_heap args 1) in
  let d := resolve (cwd (shell w)) (get_arg_heap args 2) in
  0 < frame -> w_fs w = Some root -> tree_ok root -> (3 <= argc)%nat ->
  fits (cwd (shell w)) (get_arg_heap args 1) -> fits (cwd (shell w)) (get_arg_heap args 2) ->
  view root s = Some (Regular, bs) -> 0 < Z.of_nat (length bs) <= 4095 -> ~ s `prefix_of` d ->
  (exists old, view root d = Some (Regular, old)) \/ (view root d = None /\ d <> [] /\ view root (removelast d) <> None) ->
  exists w' root', cmd_mv_heap frame args argc w = Ret (tt, w') /\ w_fs w' = Some root' /\ tree_ok root' /\
    (forall q, view root' q = flat_move s d bs (view root) q) /\ shell w' = with_exit 0 (shell w).
Proof.
  intros s d Hf E Hr Ha Hfs Hfd Hs Hl Hp Hd. unfold cmd_mv_heap. rewrite (proj2 (Nat.ltb_ge _ _)) by done.
  assert (s <> []) as Hsne by (intros Es; apply Hp; rewrite Es; apply prefix_nil).
  assert (view root s <> None) as Hsn by (by rewrite Hs).
  destruct (vfs_load_ok frame _ _ w root bs Hf E Hr Hfs Hs) as (b & E1 & Hb); [lia|].
  unfold mbind, M_bind_inst. cbn [get outcome_bind]. rewrite E1. cbn [outcome_bind].
  rewrite (proj2 (Z.leb_gt _ 0)) by lia. destruct Hd as [Hold|(Hnone & Hdne & Hpar)].
  - destruct (mv_write_ok frame _ _ b bs w root Hf E Hr Hfd Hb) as (r1 & E2 & Hok1 & Hv1); [lia|done|].
    rewrite E2. cbn [outcome_bind]. rewrite Z.eqb_refl. cbn [negb].
    destruct (mv_unlink_ok frame (get_arg_heap args 1) _ _ (with_fs (Some r1) w) r1 root d bs Hf eq_refl Hok1 Hfs Hsne Hsn Hp Hv1)
      as (r2 & -> & Hok2 & Hv2).
    eexists _, r2. split; [reflexivity|]. by split.
  - destruct (vfs_store_ok frame _ _ b bs w root Hf E Hr Hfd Hb) as (r1 & E2 & Hok1 & Hv1); [lia|].
    fold d in E2, Hv1. unfold flat_write in E2, Hv1. rewrite Hnone in E2, Hv1. cbn [fst snd] in E2, Hv1.
    rewrite E2. cbn [outcome_bind]. rewrite (proj2 (Z.eqb_neq 0 _)) by lia. cbn [negb].
    destruct (mv_create_ok frame _ _ (with_fs (Some r1) w) r1 Hf eq_refl Hok1 Hfd Hdne) as (r2 & E3 & Hok2 & Hv2);
      [by rewrite Hv1|by rewrite Hv1|].
    rewrite E3. cbn [outcome_bind Z.eqb].
    destruct (mv_write_ok frame _ _ b bs (with_fs (Some r2) (with_fs (Some r1) w)) r2 Hf eq_refl Hok2 Hfd Hb) as (r3 & E4 & Hok3 & Hv3);
      [lia|exists []; by rewrite Hv2, decide_True|].
    rewrite E4. cbn [outcome_bind]. rewrite Z.eqb_refl. cbn [negb].
    destruct (mv_unlink_ok frame (get_arg_heap args 1) _ _ (with_fs (Some r3) (with_fs (Some r2) (with_fs (Some r1) w))) r3 root d bs
      Hf eq_refl Hok3 Hfs Hsne Hsn Hp) as (r4 & -> & Hok4 & Hv4).
    { intros q. rewrite Hv3, Hv2, Hv1. fold d. by destruct (decide (q = d)). }
    eexists _, r4. split; [reflexivity|]. by split.
Qed.

(** [mv] of a file of at most 4095 bytes, when the destination is a file, or
    does not exist and its parent does, and the source is neither the destination nor
    a prefix of it.  An empty file is reported as missing: the file system stays as
    it was and the exit code is 1.  Otherwise the destination holds the bytes, the
    source is gone and with it every path below it, all other paths are as they
    were, and the exit code is 0. *)
Theorem mv_moves frame args argc w root bs :
  let s := resolve (cwd (shell w)) (get_arg_heap args 1) in
  let d := resolve (cwd (shell w)) (get_arg_heap args 2) in
  0 < frame -> w_fs w = Some root -> tree_ok root -> (3 <= argc)%nat ->
  fits (cwd (shell w)) (get_arg_heap args 1) -> fits (cwd (shell w)) (get_arg_heap args 2) ->
  view root s = Some (Regular, bs) -> Z.of_nat (length bs) <= 4095 -> ~ s `prefix_of` d ->
  (exists old, view root d = Some (Regular, old)) \/ (view root d = None /\ d <> [] /\ view root (removelast d) <> None) ->
  exists w' root', cmd_mv_heap frame args argc w = Ret (tt, w') /\ w_fs w' = Some root' /\ tree_ok root' /\
    (forall q, view root' q =
       if decide (bs = []) then view root q
       else if decide (q = d) then Some (Regular, bs) else if decide (s `prefix_of` q) then None else view root q) /\
    shell w' = with_exit (if decide (bs = []) then 1 else 0) (shell w).
Proof.
  intros s d Hf E Hr Ha Hfs Hfd Hs Hl Hp Hd. destruct (decide (bs = [])) as [->|Hne].
  - destruct (vfs_load_ok frame _ _ w root [] Hf E Hr Hfs Hs Hl) as (b & E1 & _). unfold cmd_mv_heap.
    rewrite (proj2 (Nat.ltb_ge _ _)) by done. unfold mbind, M_bind_inst. cbn [get outcome_bind]. rewrite E1.
    eexists _, root. by split.
  - apply mv_moves_ok; try done. split; [|done]. destruct bs; [done|cbn; lia].
Qed.

Lemma mv_moves_witness :
  exists w' root', cmd_mv_heap 64 (encode [bytes "mv"; bytes "etc"; bytes "new"]) 3 demo_world = Ret (tt, w') /\
    w_fs w' = Some root' /\ view root' [bytes "new"] = Some (Regular, bytes "hello") /\ view root' [bytes "etc"] = None.
Proof.
  destruct (mv_moves 64 (encode [bytes "mv"; bytes "etc"; bytes "new"]) 3 demo_world (demo_root (bytes "hello")) (bytes "hello"))
    as (w' & root' & H1 & H2 & _ & H3 & _).
  - lia.
  - reflexivity.
  - apply demo_root_ok.
  - lia.
  - split; [repeat (constructor; [discriminate|]); constructor|vm_compute; lia].
  - split; [repeat (constructor; [discriminate|]); constructor|vm_compute; lia].
  - reflexivity.
  - vm_compute. discriminate.
  - apply (bool_decide_unpack _). vm_compute. exact I.
  - right. split; [reflexivity|]. split; [discriminate|vm_compute; discriminate].
  - exists w', root'. split; [exact H1|]. split; [exact H2|]. split; rewrite H3; reflexivity.
Defined.

(** Moving a file onto itself deletes it: when source and destination name the
    same file of 1 to 4095 bytes, [mv] writes the bytes back, then removes the file,
    and reports success. *)
Theorem mv_onto_itself_deletes frame args argc w root bs :
  let s := resolve (cwd (shell w)) (get_arg_heap args 1) in
  0 < frame -> w_fs w = Some root -> tree_ok root -> (3 <= argc)%nat ->
  fits (cwd (shell w)) (get_arg_heap args 1) -> fits (cwd (shell w)) (get_arg_heap args 2) ->
  resolve (cwd (shell w)) (get_arg_heap args 2) = s -> s <> [] ->
  view root s = Some (Regular, bs) -> 0 < Z.of_nat (length bs) <= 4095 ->
  exists w' root', cmd_mv_heap frame args argc w = Ret (tt, w') /\ w_fs w' = Some root' /\
    (forall q, view root' q = if decide (s `prefix_of` q) then None else view root q) /\ last_exit_code (shell w') = 0.
Proof.
  intros s Hf E Hr Ha Hfs Hfd Hsd Hsne Hs Hl. unfold cmd_mv_heap. rewrite (proj2 (Nat.ltb_ge _ _)) by done.
  destruct (vfs_load_ok frame _ _ w root bs Hf E Hr Hfs Hs) as (b & E1 & Hb); [lia|].
  unfold mv_unlink, mbind, M_bind_inst. cbn [get outcome_bind]. rewrite E1. cbn [outcome_bind].
  rewrite (proj2 (Z.leb_gt _ 0)) by lia.
  destruct (mv_write_ok frame _ _ b bs w root Hf E Hr Hfd Hb) as (r1 & E2 & Hok1 & Hv1); [lia|rewrite Hsd; by exists bs|].
  rewrite E2. cbn [outcome_bind]. rewrite Z.eqb_refl. cbn [negb]. rewrite Hsd in Hv1.
  destruct (call_vfs_ok _ _ frame _ _ (with_fs (Some r1) w) r1 unlink_implements ltac:(lia) eq_refl Hok1 Hfs)
    as (r2 & E3 & Hok2 & Hv2).
  fold s in E3, Hv2. unfold flat_delete in E3, Hv2. rewrite decide_False in E3, Hv2 by done.
  rewrite Hv1, decide_True in E3, Hv2 by done. cbn [fst snd] in E3, Hv2. rewrite E3. cbn [outcome_bind Z.eqb negb].
  eexists _, r2. split; [reflexivity|]. split; [done|]. split; [|done]. intros q. rewrite Hv2, Hv1.
  destruct (decide (s `prefix_of` q)) as [|Hp]; [done|]. rewrite decide_False; [done|]. intros ->. by apply Hp.
Qed.

Lemma mv_onto_itself_deletes_witness :
  exists w' root', cmd_mv_heap 64 (encode [bytes "mv"; bytes "etc"; bytes "/etc"]) 3 demo_world = Ret (tt, w') /\
    w_fs w' = Some root' /\ view root' [bytes "etc"] = None.
Proof.
  destruct (mv_onto_itself_deletes 64 (encode [bytes "mv"; bytes "etc"; bytes "/etc"]) 3 demo_world
    (demo_root (bytes "hello")) (bytes "hello")) as (w' & root' & H1 & H2 & H3 & _).
  - lia.
  - reflexivity.
  - apply demo_root_ok.
  - lia.
  - split; [repeat (constructor; [discriminate|]); constructor|vm_compute; lia].
  - split; [repeat (constructor; [discriminate|]); constructor|vm_compute; lia].
  - reflexivity.
  - discriminate.
  - reflexivity.
  - split; [reflexivity|vm_compute; discriminate].
  - exists w', root'. split; [exact H1|]. split; [exact H2|]. rewrite H3. reflexivity.
Defined.
