(* ===== verification/ShellCommands.v ===== *)
(** * The shell's other commands

    The commands of kernel-rs/src/bash.rs that only print: those "recognized but
    not yet implemented" (lines 1203-1540 and 1690-2522), the ones that report on
    the system (lines 2524-3021) and the network commands [ping] and [httpget]
    (lines 1542-1688).

    What they ask the rest of the system is the record [machine]: the timer, the
    physical memory, the clock, the network.  [load_text] stands for the three
    load averages as printed with two decimals. *)

From S2P Require Import Prelude ShellText ShellTables ShellFiles.

Local Open Scope Z_scope.

Record machine := mkMachine {
  timer_get_ticks : Z;
  timer_get_seconds : Z;
  load_text : list Z;
  rtc_get_date : Z * Z * Z * Z * Z * Z;
  pmm_total_memory : Z;
  pmm_free_memory : Z;
  net_get_config : Z * list Z * list Z * list Z * list Z;
  net_icmp_ping : list Z -> Z -> Z;
  sock_socket : Z;
  sock_connect : Z -> list Z -> Z -> Z;
  sock_send : Z -> list Z -> Z;
  sock_recv : Z -> nat -> list Z
}.

(** ** Commands that print a message *)

(** A command with a minimal number of arguments that is not implemented. *)
Definition usage_stub (need : nat) (usage msg : string) (args : list Z) (argc : nat) : M world unit :=
  if (argc <? need)%nat then
    _ ← print (line usage);
    exit_code 1
  else
    _ ← print (line msg);
    exit_code 1.

Definition message (code : Z) (msg : string) (args : list Z) (argc : nat) : M world unit :=
  _ ← print (line msg);
  exit_code code.

Definition cmd_umount_heap := usage_stub 2 "Usage: umount <mountpoint>" "umount: not implemented".
Definition cmd_grep_heap := usage_stub 3 "Usage: grep <pattern> <file>" "grep: not implemented".
Definition cmd_find_heap := usage_stub 2 "Usage: find <path> [options]" "find: not implemented".
Definition cmd_wc_heap := usage_stub 2 "Usage: wc <file>" "wc: not implemented".
Definition cmd_head_heap := usage_stub 2 "Usage: head <file>" "head: not implemented".
Definition cmd_tail_heap := usage_stub 2 "Usage: tail <file>" "tail: not implemented".
Definition cmd_cp_heap := usage_stub 3 "Usage: cp <source> <destination>" "cp: not implemented".
Definition cmd_chmod_heap := usage_stub 3 "Usage: chmod <mode> <file>" "chmod: not implemented".
Definition cmd_chown_heap := usage_stub 3 "Usage: chown <owner> <file>" "chown: not implemented".
Definition cmd_ln_heap := usage_stub 3 "Usage: ln <target> <link>" "ln: not implemented".
Definition cmd_du_heap := message 1 "du: not implemented".
Definition cmd_sort_heap := usage_stub 2 "Usage: sort <file>" "sort: not implemented".
Definition cmd_uniq_heap := usage_stub 2 "Usage: uniq <file>" "uniq: not implemented".
Definition cmd_cut_heap := usage_stub 2 "Usage: cut [options] <file>" "cut: not implemented".
Definition cmd_tr_heap := usage_stub 3 "Usage: tr <set1> <set2>" "tr: not implemented".
Definition cmd_sed_heap := usage_stub 2 "Usage: sed <script> [file]" "sed: not implemented".
Definition cmd_awk_heap := usage_stub 2 "Usage: awk <program> [file]" "awk: not implemented".
Definition cmd_tar_heap := usage_stub 2 "Usage: tar [options] <archive> [files...]" "tar: not implemented".
Definition cmd_gzip_heap := usage_stub 2 "Usage: gzip <file>" "gzip: not implemented".
Definition cmd_gunzip_heap := usage_stub 2 "Usage: gunzip <file>" "gunzip: not implemented".
Definition cmd_wget_heap := usage_stub 2 "Usage: wget <url>" "wget: not implemented".
Definition cmd_curl_heap := message 1 "curl: not implemented, use httpget <ip> [path]".
Definition cmd_ssh_heap := usage_stub 2 "Usage: ssh <host>" "ssh: not implemented".
Definition cmd_scp_heap := usage_stub 3 "Usage: scp <source> <destination>" "scp: not implemented".
Definition cmd_rsync_heap := usage_stub 3 "Usage: rsync <source> <destination>" "rsync: not implemented".
Definition cmd_strace_heap := usage_stub 2 "Usage: strace <command>" "strace: not implemented".
Definition cmd_gdb_heap := usage_stub 2 "Usage: gdb <program>" "gdb: not implemented".
Definition cmd_valgrind_heap := usage_stub 2 "Usage: valgrind <program>" "valgrind: not implemented".
Definition cmd_make_heap := message 1 "make: not implemented".
Definition cmd_gcc_heap := usage_stub 2 "Usage: gcc <source>" "gcc: not implemented".
Definition cmd_gpp_heap := usage_stub 2 "Usage: g++ <source>" "g++: not implemented".
Definition cmd_ld_heap := usage_stub 2 "Usage: ld <object>" "ld: not implemented".
Definition cmd_ar_heap := usage_stub 3 "Usage: ar <options> <archive> <files...>" "ar: not implemented".
Definition cmd_nm_heap := usage_stub 2 "Usage: nm <object>" "nm: not implemented".
Definition cmd_objdump_heap := usage_stub 2 "Usage: objdump <object>" "objdump: not implemented".
Definition cmd_readelf_heap := usage_stub 2 "Usage: readelf <elf>" "readelf: not implemented".
Definition cmd_strings_heap := usage_stub 2 "Usage: strings <file>" "strings: not implemented".
Definition cmd_hexdump_heap := usage_stub 2 "Usage: hexdump <file>" "hexdump: not implemented".
Definition cmd_od_heap := usage_stub 2 "Usage: od <file>" "od: not implemented".
Definition cmd_xxd_heap := usage_stub 2 "Usage: xxd <file>" "xxd: not implemented".
Definition cmd_base64_heap := usage_stub 2 "Usage: base64 <file>" "base64: not implemented".
Definition cmd_md5sum_heap := usage_stub 2 "Usage: md5sum <file>" "md5sum: not implemented".
Definition cmd_sha1sum_heap := usage_stub 2 "Usage: sha1sum <file>" "sha1sum: not implemented".
Definition cmd_sha256sum_heap := usage_stub 2 "Usage: sha256sum <file>" "sha256sum: not implemented".
Definition cmd_openssl_heap := usage_stub 2 "Usage: openssl <command> [args...]" "openssl: not implemented".
Definition cmd_gpg_heap := usage_stub 2 "Usage: gpg [options] <file>" "gpg: not implemented".
Definition cmd_vim_heap := message 1 "vim: not implemented".
Definition cmd_nano_heap := message 1 "nano: not implemented".
Definition cmd_emacs_heap := message 1 "emacs: not implemented".
Definition cmd_less_heap := usage_stub 2 "Usage: less <file>" "less: not implemented".
Definition cmd_more_heap := usage_stub 2 "Usage: more <file>" "more: not implemented".
Definition cmd_man_heap := usage_stub 2 "Usage: man <command>" "man: not implemented".
Definition cmd_info_heap := usage_stub 2 "Usage: info <topic>" "info: not implemented".
Definition cmd_apropos_heap := usage_stub 2 "Usage: apropos <keyword>" "apropos: not implemented".
Definition cmd_whatis_heap := usage_stub 2 "Usage: whatis <command>" "whatis: not implemented".
Definition cmd_locate_heap := usage_stub 2 "Usage: locate <pattern>" "locate: not implemented".
Definition cmd_crontab_heap := message 1 "crontab: not implemented".
Definition cmd_at_heap := usage_stub 2 "Usage: at <time>" "at: not implemented".
Definition cmd_batch_heap := message 1 "batch: not implemented".
Definition cmd_nohup_heap := usage_stub 2 "Usage: nohup <command>" "nohup: not implemented".
Definition cmd_screen_heap := message 1 "screen: not implemented".
Definition cmd_tmux_heap := message 1 "tmux: not implemented".
Definition cmd_bg_heap := message 1 "bg: not implemented".
Definition cmd_fg_heap := message 1 "fg: not implemented".
Definition cmd_disown_heap := message 1 "disown: not implemented".
Definition cmd_su_heap := message 1 "su: not implemented".
Definition cmd_sudo_heap := usage_stub 2 "Usage: sudo <command>" "sudo: not implemented".
Definition cmd_passwd_heap := message 1 "passwd: not implemented".
Definition cmd_useradd_heap := usage_stub 2 "Usage: useradd <username>" "useradd: not implemented".
Definition cmd_userdel_heap := usage_stub 2 "Usage: userdel <username>" "userdel: not implemented".
Definition cmd_usermod_heap := usage_stub 2 "Usage: usermod [options] <username>" "usermod: not implemented".
Definition cmd_groupadd_heap := usage_stub 2 "Usage: groupadd <groupname>" "groupadd: not implemented".
Definition cmd_groupdel_heap := usage_stub 2 "Usage: groupdel <groupname>" "groupdel: not implemented".
Definition cmd_groupmod_heap := usage_stub 2 "Usage: groupmod [options] <groupname>" "groupmod: not implemented".
Definition cmd_id_heap := message 0 "uid=0(root) gid=0(root) groups=0(root)".
Definition cmd_groups_heap := message 0 "root".
Definition cmd_newgrp_heap := usage_stub 2 "Usage: newgrp <group>" "newgrp: not implemented".
Definition cmd_chgrp_heap := usage_stub 3 "Usage: chgrp <group> <file>" "chgrp: not implemented".
Definition cmd_expr_heap := usage_stub 2 "Usage: expr <expression>" "expr: not implemented".
Definition cmd_bc_heap := message 1 "bc: not implemented".
Definition cmd_dc_heap := message 1 "dc: not implemented".
Definition cmd_factor_heap := usage_stub 2 "Usage: factor <number>" "factor: not implemented".
Definition cmd_sleep_heap := usage_stub 2 "Usage: sleep <seconds>" "sleep: not implemented".
Definition cmd_timeout_heap := usage_stub 3 "Usage: timeout <duration> <command>" "timeout: not implemented".
Definition cmd_watch_heap := usage_stub 2 "Usage: watch <command>" "watch: not implemented".
Definition cmd_time_heap := usage_stub 2 "Usage: time <command>" "time: not implemented".
Definition cmd_tee_heap := usage_stub 2 "Usage: tee <file>" "tee: not implemented".
Definition cmd_xargs_heap := usage_stub 2 "Usage: xargs <command>" "xargs: not implemented".
Definition cmd_parallel_heap := usage_stub 2 "Usage: parallel <command>" "parallel: not implemented".
Definition cmd_whoami := message 0 "root".
Definition cmd_uname := message 0 "ShadeOS".
Definition cmd_device := message 0 "will tell next time".
Definition cmd_mount := message 0 "ramfs on / type ramfs (rw,relatime)".
Definition cmd_netstat := message 0 "Active Internet connections (w/o servers)".
Definition cmd_htop := message 1 "htop: not implemented".
Definition cmd_iotop := message 1 "iotop: not implemented".
Definition cmd_lsof := message 1 "lsof: not implemented".
Definition cmd_updatedb := message 1 "updatedb: not implemented".
Definition cmd_jobs := message 0 "No active jobs".

Fixpoint print_lines (ls : list string) : M world unit :=
  match ls with [] => skip | l :: ls' => _ ← print (line l); print_lines ls' end.

Definition cmd_df (args : list Z) (argc : nat) : M world unit :=
  _ ← print_lines ["Filesystem     1K-blocks  Used Available Use% Mounted on";
                   "ramfs             16384     0     16384   0% /"];
  exit_code 0.

Definition cmd_test_http (args : list Z) (argc : nat) : M world unit := exit_code 0.
Definition cmd_true (args : list Z) (argc : nat) : M world unit := exit_code 0.
Definition cmd_false (args : list Z) (argc : nat) : M world unit := exit_code 1.

Definition cmd_umask_heap (args : list Z) (argc : nat) : M world unit :=
  if (1 <? argc)%nat then
    _ ← print (line "umask: not implemented");
    exit_code 1
  else
    _ ← print (line "0022");
    exit_code 0.

Definition cmd_test_heap (args : list Z) (argc : nat) : M world unit :=
  if (argc <? 2)%nat then exit_code 1
  else
    _ ← print (line "test: not implemented");
    exit_code 1.

Definition cmd_kill_heap (args : list Z) (argc : nat) : M world unit :=
  if (argc <? 2)%nat then
    _ ← print (line "Usage: kill <pid>");
    exit_code 1
  else
    match parse_int (get_arg_heap args 1) with
    | Some _ => _ ← print (line "kill: process termination not implemented"); exit_code 1
    | None => _ ← print (line "kill: invalid PID"); exit_code 1
    end.

Definition builtins : list string :=
  ["help"; "exit"; "cd"; "pwd"; "ls"; "cat"; "echo"; "mkdir"; "touch"; "rm"; "env"; "export"; "alias"; "history";
   "clear"; "date"; "uptime"; "ps"; "kill"; "which"; "whoami"; "uname"; "free"; "df"; "mount"; "umount"].

Definition cmd_which_heap (args : list Z) (argc : nat) : M world unit :=
  if (argc <? 2)%nat then
    _ ← print (line "Usage: which <command>");
    exit_code 1
  else
    let command := get_arg_heap args 1 in
    if existsb (fun b => str_eq command (bytes b)) builtins then
      _ ← print command;
      _ ← print (line ": shell builtin");
      exit_code 0
    else
      _ ← print command;
      _ ← print (line ": not found");
      exit_code 1.

Fixpoint yes_loop (n : nat) (text : list Z) : M world unit :=
  match n with O => skip | S n' => _ ← print text; _ ← print [10]; yes_loop n' text end.

Definition cmd_yes_heap (args : list Z) (argc : nat) : M world unit :=
  _ ← yes_loop 10 (if (1 <? argc)%nat then get_arg_heap args 1 else bytes "y");
  _ ← print (line "... (stopped after 10 iterations)");
  exit_code 0.

(** [for i in start..=end]: [n] numbers from [i] on, each printed as an unsigned
    word. *)
Fixpoint seq_loop (n : nat) (i : Z) : M world unit :=
  match n with O => skip | S n' => _ ← print_number (usize i); _ ← print [10]; seq_loop n' (i + 1) end.

Definition cmd_seq_heap (args : list Z) (argc : nat) : M world unit :=
  if (argc <? 2)%nat then
    _ ← print (line "Usage: seq <last> or seq <first> <last>");
    exit_code 1
  else
    let first := default 1 (parse_int (get_arg_heap args 1)) in
    let '(start, last) := if (argc =? 2)%nat then (1, first) else (first, default 1 (parse_int (get_arg_heap args 2))) in
    _ ← seq_loop (Z.to_nat (last - start + 1)) start;
    exit_code 0.

Fixpoint test_args_loop (args : list Z) (n i : nat) : M world unit :=
  match n with
  | O => skip
  | S n' =>
      _ ← print (bytes "  arg[");
      _ ← print_number (Z.of_nat i);
      _ ← print (bytes "]=");
      let arg := get_arg_heap args i in
      _ ← print (bytes "'");
      _ ← print arg;
      _ ← print (bytes "' (len=");
      _ ← print_number (Z.of_nat (length arg));
      _ ← print (line ")");
      test_args_loop args n' (S i)
  end.

Definition cmd_test_args_heap (args : list Z) (argc : nat) : M world unit :=
  _ ← print (bytes "test_args: argc=");
  _ ← print_number (Z.of_nat argc);
  _ ← print [10];
  _ ← test_args_loop args argc 0;
  exit_code 0.

(** ** Reports *)
Fixpoint print_all (ls : list (list Z)) : M world unit :=
  match ls with [] => skip | l :: ls' => _ ← print l; print_all ls' end.

Definition help_text : list (list Z) :=
  [line "ShadeOS Bash-compatible Shell - Available Commands:" ++ [10];
   line "File Operations:";
   line "  ls [path]          - List directory contents";
   line "  cat <file>         - Display file contents";
   line "  mkdir <dir>        - Create directory";
   line "  touch <file>       - Create empty file";
   line "  rm <file>          - Remove file";
   line "  cp <src> <dst>     - Copy file (not implemented)";
   line "  mv <src> <dst>     - Move file (not implemented)";
   [10] ++ line "Navigation:";
   line "  cd [path]          - Change directory";
   line "  pwd                - Print working directory";
   line "...";
   [10] ++ line "System:";
   line "  ps                 - List processes";
   line "  kill <pid>         - Terminate process";
   line "  free               - Show memory usage";
   line "  df                 - Show disk usage";
   line "  mount              - Show mounted filesystems";
   line "  uname              - System information";
   [10] ++ line "Environment:";
   line "  env                - Show environment variables";
   line "  export VAR=val     - Set environment variable";
   line "  alias name=cmd     - Create command alias";
   line "  history            - Show command history";
   [10] ++ line "Utilities:";
   line "  echo <text>        - Print text";
   line "  clear              - Clear screen";
   line "  date               - Show current date/time";
   line "  uptime             - Show system uptime";
   line "  which <cmd>        - Locate command";
   line "  whoami             - Show current user";
   line "  help               - Show this help";
   line "  exit [code]        - Exit shell";
   [10] ++ line "Note: Many advanced commands are recognized but not yet implemented."].

Definition cmd_help (args : list Z) (argc : nat) : M world unit :=
  _ ← print_all help_text;
  exit_code 0.

Definition cmd_clear (args : list Z) (argc : nat) : M world unit :=
  _ ← print [27; 91; 50; 74; 27; 91; 72];
  _ ← modify (with_event Cleared);
  exit_code 0.

Definition cmd_vga_heap (args : list Z) (argc : nat) : M world unit :=
  if (argc <? 2)%nat then
    _ ← print_lines ["Usage: vga <command> [args]"; "Commands:";
                     "  auto-clear on|off    - Enable/disable auto-clear on screen overflow";
                     "  status               - Show current VGA settings"];
    exit_code 1
  else
    let command := get_arg_heap args 1 in
    if str_eq command (bytes "auto-clear") then
      if (argc <? 3)%nat then
        _ ← print (line "Usage: vga auto-clear on|off");
        exit_code 1
      else
        let arg := get_arg_heap args 2 in
        if str_eq arg (bytes "on") then
          _ ← modify (with_auto_clear true);
          _ ← print (line "Auto-clear enabled");
          exit_code 0
        else if str_eq arg (bytes "off") then
          _ ← modify (with_auto_clear false);
          _ ← print (line "Auto-clear disabled");
          exit_code 0
        else
          _ ← print (line "Invalid argument. Use 'on' or 'off'");
          exit_code 1
    else if str_eq command (bytes "status") then
      w ← get;
      _ ← print (line "VGA Status:");
      _ ← print (bytes "  Auto-clear: ");
      _ ← print (line (if auto_clear w then "enabled" else "disabled"));
      exit_code 0
    else
      _ ← print (bytes "Unknown command: ");
      _ ← print command;
      _ ← print [10];
      exit_code 1.

(** [format!] of a number: plain, and with two digits at least. *)
Definition fmt_dec (n : Z) : outcome (list Z) :=
  ds ← dec_digits 20 (Z.abs n); Ret (if n <? 0 then 45 :: ds else ds).

Definition fmt_02 (n : Z) : outcome (list Z) :=
  ds ← dec_digits 20 (Z.abs n);
  Ret (if n <? 0 then 45 :: ds else replicate (2 - length ds) 48 ++ ds).

Definition cmd_date (mc : machine) (args : list Z) (argc : nat) : M world unit :=
  let '(year, month, day, hour, minute, second) := rtc_get_date mc in
  d ← lift (fmt_dec day); mo ← lift (fmt_dec month); y ← lift (fmt_dec year);
  h ← lift (fmt_02 hour); mi ← lift (fmt_02 minute); s ← lift (fmt_02 second);
  _ ← print (d ++ [45] ++ mo ++ [45] ++ y ++ [32] ++ h ++ [58] ++ mi ++ [58] ++ s ++ [10]);
  exit_code 0.

Definition uptime_text (secs : Z) : outcome (list Z) :=
  let days := secs / 86400 in
  let hours := secs mod 86400 / 3600 in
  let minutes := secs mod 3600 / 60 in
  h ← fmt_02 hours; mi ← fmt_02 minutes;
  if 0 <? days then
    d ← fmt_dec days;
    Ret (d ++ bytes " day" ++ (if 1 <? days then [115] else []) ++ bytes ", " ++ h ++ [58] ++ mi)
  else if 0 <? hours then Ret (h ++ [58] ++ mi)
  else if 0 <? minutes then m1 ← fmt_dec minutes; Ret (m1 ++ bytes " min")
  else s ← fmt_dec (secs mod 60); Ret (s ++ bytes " sec").

(** The exit code is not set. *)
Definition cmd_uptime (mc : machine) (args : list Z) (argc : nat) : M world unit :=
  t ← lift (uptime_text (timer_get_seconds mc));
  print (bytes " up " ++ t ++ bytes ",  1 user,  load average: " ++ load_text mc ++ [10]).

Definition cmd_ps (args : list Z) (argc : nat) : M world unit :=
  _ ← print (line "  PID TTY          TIME CMD");
  _ ← modify (with_event ProcessesListed);
  exit_code 0.

Definition cmd_free (mc : machine) (args : list Z) (argc : nat) : M world unit :=
  let total_mem := pmm_total_memory mc in
  let free_mem := pmm_free_memory mc in
  let used_mem := u64 (total_mem - free_mem) in
  _ ← print (line "              total        used        free      shared  buff/cache   available");
  _ ← print (bytes "Mem:        ");
  _ ← print_number (total_mem / 1024);
  _ ← print (bytes "      ");
  _ ← print_number (used_mem / 1024);
  _ ← print (bytes "      ");
  _ ← print_number (free_mem / 1024);
  _ ← print (bytes "           0           0      ");
  _ ← print_number (free_mem / 1024);
  _ ← print [10];
  exit_code 0.

Definition print_two_digits (n : Z) : M world unit := _ ← (if n <? 10 then print [48] else skip); print_number n.

Definition format_uptime (ticks : Z) : M world unit :=
  let seconds := ticks / 100 in
  let days := seconds / 86400 in
  let hours := seconds mod 86400 / 3600 in
  let minutes := seconds mod 3600 / 60 in
  let secs := seconds mod 60 in
  _ ← print (bytes "up ");
  if 0 <? days then
    _ ← print_number days; _ ← print (bytes " days, "); _ ← print_number hours; _ ← print [58];
    _ ← print_two_digits minutes; _ ← print [58]; print_two_digits secs
  else if 0 <? hours then
    _ ← print_number hours; _ ← print [58]; _ ← print_two_digits minutes; _ ← print [58]; print_two_digits secs
  else if 0 <? minutes then _ ← print_number minutes; _ ← print [58]; print_two_digits secs
  else _ ← print_number secs; print (bytes " seconds").

Definition cmd_top (mc : machine) (args : list Z) (argc : nat) : M world unit :=
  _ ← print (bytes "top - ");
  _ ← format_uptime (timer_get_ticks mc);
  _ ← print (line ",  1 user,  load average: 0.00, 0.00, 0.00");
  exit_code 0.

(** ** Network *)
Definition some_byte (ip : list Z) : bool := existsb (fun b => negb (b =? 0)) ip.

Definition cmd_ifconfig (mc : machine) (args : list Z) (argc : nat) : M world unit :=
  let '(result, ip, netmask, gateway, mac) := net_get_config mc in
  _ ← (if result =? 1 then
         _ ← print (line "eth0: flags=4163<UP,BROADCAST,RUNNING,MULTICAST>  mtu 1500");
         _ ← print (bytes "        inet ");
         _ ← print (print_ip ip);
         _ ← print (bytes "  netmask ");
         _ ← print (print_ip netmask);
         _ ← print [10];
         _ ← print (bytes "        ether ");
         _ ← print (print_mac mac);
         _ ← print (line "  txqueuelen 1000  (Ethernet)");
         _ ← (if some_byte gateway then
                _ ← print (bytes "        gateway ");
                _ ← print (print_ip gateway);
                print [10]
              else skip);
         print [10]
       else if result =? 0 then print (line "eth0: network not configured" ++ [10])
       else print (line "eth0: error reading network configuration" ++ [10]));
  _ ← print_lines ["lo: flags=73<UP,LOOPBACK,RUNNING>  mtu 65536";
                   "        inet 127.0.0.1  netmask 255.0.0.0";
                   "        loop  txqueuelen 1000  (Local Loopback)"];
  exit_code 0.

Definition cmd_route (mc : machine) (args : list Z) (argc : nat) : M world unit :=
  let '(result, ip, netmask, gateway, mac) := net_get_config mc in
  _ ← print_lines ["Kernel IP routing table";
                   "Destination     Gateway         Genmask         Flags Metric Ref    Use Iface"];
  _ ← (if (result =? 1) && some_byte gateway then
         _ ← print (bytes "0.0.0.0         ");
         _ ← print (print_ip_padded gateway 16);
         _ ← print (line "0.0.0.0         UG    0      0        0 eth0");
         _ ← print (print_ip_padded (zip_with Z.land ip netmask) 16);
         _ ← print (bytes "0.0.0.0         ");
         _ ← print (print_ip_padded netmask 16);
         print (line "U     0      0        0 eth0")
       else skip);
  _ ← print (line "127.0.0.0       0.0.0.0         255.0.0.0       U     0      0        0 lo");
  exit_code 0.

Definition cmd_nslookup_heap (args : list Z) (argc : nat) : M world unit :=
  if (argc <? 2)%nat then
    _ ← print (line "usage: nslookup <hostname>");
    exit_code 1
  else
    _ ← print_all
      [line "nslookup: DNS resolution not yet implemented in ShadeOS";
       [10] ++ line "DNS feature is planned for a future release.";
       line "For now, use IP addresses directly:";
       line "  - Google DNS: 8.8.8.8, 8.8.4.4";
       line "  - Cloudflare: 1.1.1.1, 1.0.0.1";
       line "  - Quad9:      9.9.9.9";
       [10] ++ line "Example: ping 8.8.8.8";
       line "Example: httpget 142.250.185.46 /"];
    exit_code 1.

Definition cmd_ping_heap (mc : machine) (args : list Z) (argc : nat) : M world unit :=
  if (argc <? 2)%nat then
    _ ← print (line "Usage: ping <ipv4> [timeout_ms]");
    exit_code 1
  else
    let host := get_arg_heap args 1 in
    match parse_ipv4 host with
    | None => _ ← print (line "ping: invalid ip"); exit_code 1
    | Some ip =>
        let timeout_ms := if (2 <? argc)%nat then default 1000 (parse_int (get_arg_heap args 2)) else 1000 in
        let rtt := net_icmp_ping mc ip timeout_ms in
        if 0 <=? rtt then
          _ ← print (bytes "64 bytes from ");
          _ ← print host;
          _ ← print (bytes ": icmp_seq=0 ttl=64 time=");
          _ ← print_number rtt;
          _ ← print (line " ms");
          exit_code 0
        else
          _ ← print (line "Request timeout for icmp_seq 0");
          exit_code 1
    end.

Definition is_letter (b : Z) : bool := ((97 <=? b) && (b <=? 122)) || ((65 <=? b) && (b <=? 90)).

Definition dns_text : list (list Z) :=
  [line "httpget: DNS resolution not yet implemented";
   line "Common public DNS servers to try:";
   line "  Google DNS:     8.8.8.8 or 8.8.4.4";
   line "  Cloudflare DNS: 1.1.1.1 or 1.0.0.1";
   line "  Quad9 DNS:      9.9.9.9";
   [10] ++ line "For now, please use: httpget <ip_address> [path]";
   line "Example: httpget 142.250.185.46 /"].

(** The request, cut off at 256 bytes. *)
Definition http_request (path host : list Z) : list Z :=
  take 256 (bytes "GET " ++ filter (fun b => b <> 0) path ++ bytes " HTTP/1.0" ++ [13; 10] ++ bytes "Host: " ++
            filter (fun b => b <> 0) host ++ [13; 10] ++ bytes "Connection: close" ++ [13; 10; 13; 10]).

(** The polling loop: the number of bytes received. *)
Fixpoint recv_loop (mc : machine) (s : Z) (n i : nat) (total : Z) : M world Z :=
  match n with
  | O => mret total
  | S n' =>
      let data := sock_recv mc s i in
      match data with
      | [] => recv_loop mc s n' (S i) total
      | _ =>
          _ ← (if (2048 <? length data)%nat then lift Panic else print data);
          recv_loop mc s n' (S i) (total + Z.of_nat (length data))
      end
  end.

Definition httpget_failed (reason : string) : M world unit := _ ← print (line reason); exit_code 1.

Definition cmd_httpget_heap (mc : machine) (args : list Z) (argc : nat) : M world unit :=
  if (argc <? 2)%nat then httpget_failed "usage: httpget <ipv4|hostname> [path]"
  else
    let host := get_arg_heap args 1 in
    let path := if (2 <? argc)%nat then get_arg_heap args 2 else [47] in
    if existsb is_letter host then
      _ ← print_all dns_text;
      exit_code 1
    else
      match parse_ipv4 host with
      | None => httpget_failed "httpget: invalid ip"
      | Some ip =>
          let s := sock_socket mc in
          if s <? 0 then httpget_failed "httpget: socket failed"
          else if negb (sock_connect mc s ip 80 =? 0) then httpget_failed "httpget: connect failed"
          else if sock_send mc s (http_request path host) <=? 0 then httpget_failed "httpget: send failed"
          else
            total ← recv_loop mc s 50 0 0;
            _ ← print [10];
            exit_code (if 0 <? total then 0 else 1)
      end.

(** ** The commands are tame *)
Lemma tame_usage_stub need usage msg args argc : tame (usage_stub need usage msg args argc).
Proof. unfold usage_stub. solve_tame. Qed.

Lemma tame_message code msg args argc : tame (message code msg args argc).
Proof. unfold message. solve_tame. Qed.

Lemma tame_print_lines ls : tame (print_lines ls).
Proof. induction ls; cbn [print_lines]; solve_tame. Qed.

Lemma tame_print_all ls : tame (print_all ls).
Proof. induction ls; cbn [print_all]; solve_tame. Qed.

#[export] Hint Resolve tame_print_lines tame_print_all : tame.

Lemma tame_yes args argc : tame (cmd_yes_heap args argc).
Proof.
  assert (forall n t, tame (yes_loop n t)) by (induction n; intros t; cbn [yes_loop]; solve_tame).
  unfold cmd_yes_heap. solve_tame.
Qed.

Lemma tame_seq args argc : tame (cmd_seq_heap args argc).
Proof.
  assert (forall n i, tame (seq_loop n i)) by (induction n; intros i; cbn [seq_loop]; solve_tame).
  unfold cmd_seq_heap. destruct (argc <? 2)%nat; [solve_tame|]. cbn zeta. destruct (argc =? 2)%nat; solve_tame.
Qed.

Lemma tame_test_args args argc : tame (cmd_test_args_heap args argc).
Proof.
  assert (forall n i, tame (test_args_loop args n i)) by (induction n; intros i; cbn [test_args_loop]; solve_tame).
  unfold cmd_test_args_heap. solve_tame.
Qed.

Lemma fmt_dec_ends n : ends (fmt_dec n).
Proof. unfold fmt_dec. solve_ends. Qed.

Lemma fmt_02_ends n : ends (fmt_02 n).
Proof. unfold fmt_02. solve_ends. Qed.

#[export] Hint Resolve fmt_dec_ends fmt_02_ends : ends.

Lemma tame_date mc args argc : tame (cmd_date mc args argc).
Proof. unfold cmd_date. destruct (rtc_get_date mc) as [[[[[y mo] d] h] mi] s]. solve_tame. Qed.

Lemma tame_uptime mc args argc : tame (cmd_uptime mc args argc).
Proof. unfold cmd_uptime, uptime_text. solve_tame. Qed.

Lemma tame_top mc args argc : tame (cmd_top mc args argc).
Proof. unfold cmd_top, format_uptime, print_two_digits. solve_tame. Qed.

Lemma tame_httpget mc args argc : tame (cmd_httpget_heap mc args argc).
Proof.
  assert (forall n s i t, tame (recv_loop mc s n i t)).
  { induction n; intros s i t; cbn [recv_loop]; solve_tame. }
  unfold cmd_httpget_heap, httpget_failed. solve_tame.
Qed.

#[export] Hint Resolve tame_yes tame_seq tame_test_args tame_date tame_uptime tame_top tame_httpget : tame.
