(* ===== verification/ShellExec.v ===== *)
(** * Running commands

    [execute_command] and a turn of the shell's main loop (kernel-rs/src/bash.rs,
    lines 192-231, 418-454, 507-710 and 3051-3067): trim the line, split it into the
    argument buffer allocated for it, follow an alias or run the built-in command,
    and free the buffers.

    The buffers come from the kernel heap: [w_heap] is its block list, [w_mem] the
    memory the blocks lie in. *)

From S2P Require Import Prelude Memory Heap Blocks BTree Vfs ShellText ShellTables ShellFiles ShellCommands.

Local Open Scope Z_scope.

Definition with_heap_mem (h : heap) (m : mem) (w : world) : world :=
  mkWorld (shell w) (w_fs w) h m (auto_clear w) (output w).

(** The shell allocates its buffers with the operations of [Blocks]. *)
#[export] Instance world_heap_state : HeapState world.
Proof. refine {| st_heap := w_heap; st_mem := w_mem; with_hm := with_heap_mem |}; by intros; try destruct s. Defined.

(** ** Trimming *)
Fixpoint position_nonblank (l : list Z) : option nat :=
  match l with
  | [] => None
  | c :: l' => if negb (is_blank c) then Some 0%nat else S <$> position_nonblank l'
  end.

Fixpoint rposition_nonblank (l : list Z) : option nat :=
  match l with
  | [] => None
  | c :: l' =>
      match rposition_nonblank l' with
      | Some i => Some (S i)
      | None => if negb (is_blank c) then Some 0%nat else None
      end
  end.

(** [&l[start..=end]]. *)
Definition slice_incl (l : list Z) (first last : nat) : outcome (list Z) :=
  if decide (first <= S last)%nat then
    if decide (last < length l)%nat then Ret (take (S last - first) (drop first l)) else Panic
  else Panic.

(** ** Built-in commands *)
Definition command_table (mc : machine) (frame : Z) : list (string * (list Z -> nat -> M world unit)) :=
  [("help", cmd_help); ("exit", cmd_exit_heap); ("cd", cmd_cd_heap frame); ("pwd", cmd_pwd_heap);
   ("ls", cmd_ls_heap frame); ("cat", cmd_cat_heap frame); ("echo", cmd_echo_heap);
   ("mkdir", cmd_mkdir_heap frame); ("touch", cmd_touch_heap frame); ("rm", cmd_rm_heap frame);
   ("env", (fun _ _ => cmd_env)); ("export", cmd_export_heap); ("alias", cmd_alias_heap);
   ("history", (fun _ _ => cmd_history)); ("clear", cmd_clear); ("date", cmd_date mc);
   ("uptime", cmd_uptime mc); ("ps", cmd_ps); ("kill", cmd_kill_heap); ("which", cmd_which_heap);
   ("whoami", cmd_whoami); ("uname", cmd_uname); ("free", cmd_free mc); ("df", cmd_df);
   ("mv", cmd_mv_heap frame); ("ifconfig", cmd_ifconfig mc); ("ipconfig", cmd_ifconfig mc);
   ("route", cmd_route mc); ("nslookup", cmd_nslookup_heap); ("dig", cmd_nslookup_heap);
   ("host", cmd_nslookup_heap); ("htop", cmd_htop); ("lspci", cmd_device); ("mount", cmd_mount);
   ("ssh", cmd_ssh_heap); ("scp", cmd_scp_heap); ("rsync", cmd_rsync_heap); ("top", cmd_top mc);
   ("iotop", cmd_iotop); ("lsof", cmd_lsof); ("chmod", cmd_chmod_heap); ("chown", cmd_chown_heap);
   ("ln", cmd_ln_heap); ("du", cmd_du_heap); ("sort", cmd_sort_heap); ("uniq", cmd_uniq_heap);
   ("cut", cmd_cut_heap); ("tr", cmd_tr_heap); ("sed", cmd_sed_heap); ("awk", cmd_awk_heap);
   ("tar", cmd_tar_heap); ("gzip", cmd_gzip_heap); ("gunzip", cmd_gunzip_heap); ("wget", cmd_wget_heap);
   ("curl", cmd_curl_heap); ("ping", cmd_ping_heap mc); ("httpget", cmd_httpget_heap mc);
   ("netstat", cmd_netstat); ("strace", cmd_strace_heap); ("gdb", cmd_gdb_heap);
   ("valgrind", cmd_valgrind_heap); ("make", cmd_make_heap); ("gcc", cmd_gcc_heap); ("g++", cmd_gpp_heap);
   ("ld", cmd_ld_heap); ("ar", cmd_ar_heap); ("nm", cmd_nm_heap); ("objdump", cmd_objdump_heap);
   ("readelf", cmd_readelf_heap); ("strings", cmd_strings_heap); ("hexdump", cmd_hexdump_heap);
   ("od", cmd_od_heap); ("xxd", cmd_xxd_heap); ("base64", cmd_base64_heap); ("md5sum", cmd_md5sum_heap);
   ("sha1sum", cmd_sha1sum_heap); ("sha256sum", cmd_sha256sum_heap); ("openssl", cmd_openssl_heap);
   ("gpg", cmd_gpg_heap); ("vim", cmd_vim_heap); ("nano", cmd_nano_heap); ("emacs", cmd_emacs_heap);
   ("less", cmd_less_heap); ("more", cmd_more_heap); ("man", cmd_man_heap); ("info", cmd_info_heap);
   ("apropos", cmd_apropos_heap); ("whatis", cmd_whatis_heap); ("locate", cmd_locate_heap);
   ("updatedb", cmd_updatedb); ("crontab", cmd_crontab_heap); ("at", cmd_at_heap); ("batch", cmd_batch_heap);
   ("nohup", cmd_nohup_heap); ("screen", cmd_screen_heap); ("tmux", cmd_tmux_heap); ("jobs", cmd_jobs);
   ("bg", cmd_bg_heap); ("fg", cmd_fg_heap); ("disown", cmd_disown_heap); ("su", cmd_su_heap);
   ("sudo", cmd_sudo_heap); ("passwd", cmd_passwd_heap); ("useradd", cmd_useradd_heap);
   ("userdel", cmd_userdel_heap); ("usermod", cmd_usermod_heap); ("groupadd", cmd_groupadd_heap);
   ("groupdel", cmd_groupdel_heap); ("groupmod", cmd_groupmod_heap); ("id", cmd_id_heap);
   ("groups", cmd_groups_heap); ("newgrp", cmd_newgrp_heap); ("chgrp", cmd_chgrp_heap);
   ("umask", cmd_umask_heap); ("test", cmd_test_http); ("[", cmd_test_heap); ("true", cmd_true);
   ("false", cmd_false); ("yes", cmd_yes_heap); ("seq", cmd_seq_heap); ("expr", cmd_expr_heap);
   ("bc", cmd_bc_heap); ("dc", cmd_dc_heap); ("factor", cmd_factor_heap); ("sleep", cmd_sleep_heap);
   ("timeout", cmd_timeout_heap); ("watch", cmd_watch_heap); ("time", cmd_time_heap); ("tee", cmd_tee_heap);
   ("xargs", cmd_xargs_heap); ("parallel", cmd_parallel_heap); ("test_args", cmd_test_args_heap);
   ("vga", cmd_vga_heap)].

Fixpoint find_command {A} (l : list (string * A)) (cmd : list Z) : option A :=
  match l with
  | [] => None
  | (n, f) :: l' => if bool_decide (cmd = bytes n) then Some f else find_command l' cmd
  end.

Definition run_builtin (mc : machine) (frame : Z) (cmd args : list Z) (argc : nat) : M world unit :=
  match find_command (command_table mc frame) cmd with
  | Some f => f args argc
  | None =>
      _ ← print (bytes "bash: ");
      _ ← print cmd;
      _ ← print (line ": command not found");
      exit_code 127
  end.

(** The buffer for the arguments and the one for an alias. *)
Definition ARGS_LEN : nat := 64 * MAX_ARGS.
Definition ALIAS_LEN : nat := 256.

Lemma buffer_lengths : Z.of_nat ARGS_LEN = 2048 /\ Z.of_nat ALIAS_LEN = 256.
Proof. split; reflexivity. Qed.

#[global] Opaque ARGS_LEN ALIAS_LEN.

(** With the arguments in their buffer: follow an alias with [exec] or run the
    built-in command, then free the buffers. *)
Definition run_command (exec : list Z -> M world unit) (mc : machine) (frame args_ptr : Z) (args : list Z) (argc : nat)
  : M world unit :=
  let cmd := get_arg_heap args 0 in
  alias_buf ← kmalloc (Z.of_nat ALIAS_LEN);
  w ← get;
  match (if alias_buf =? 0 then None else get_alias cmd (shell w)) with
  | Some alias_cmd =>
      _ ← store alias_buf (take 255 alias_cmd ++ [0]);
      alias_slice ← load alias_buf ALIAS_LEN;
      _ ← exec (get_str alias_slice);
      _ ← kfree alias_buf;
      kfree args_ptr
  | None =>
      _ ← (if alias_buf =? 0 then skip else kfree alias_buf);
      _ ← run_builtin mc frame cmd args argc;
      kfree args_ptr
  end.

(** The fuel bounds the nesting of aliases. *)
Fixpoint execute_command (mc : machine) (frame : Z) (fuel : nat) (command_line : list Z) : M world unit :=
  match fuel with
  | O => lift Timeout
  | S f =>
      let start := default 0%nat (position_nonblank command_line) in
      let last := default 0%nat (rposition_nonblank command_line) in
      if (last <? start)%nat then skip
      else
        trimmed ← lift (slice_incl command_line start last);
        args_ptr ← kmalloc (Z.of_nat ARGS_LEN);
        if args_ptr =? 0 then skip
        else
          stale ← load args_ptr ARGS_LEN;
          '(argc, args) ← lift (parse_command_heap trimmed stale);
          _ ← store args_ptr args;
          if (argc =? 0)%nat then kfree args_ptr
          else run_command (execute_command mc frame f) mc frame args_ptr args argc
  end.

(** ** Entry points *)

(** [rust_bash_execute], once the shell is initialised: run the C string. *)
Definition rust_bash_execute (mc : machine) (frame : Z) (fuel : nat) (command : Z) : M world unit :=
  if command =? 0 then skip
  else
    w ← get;
    cmd ← lift (read_cstr (w_mem w) command);
    execute_command mc frame fuel cmd.

(** The memory of the three tables. *)
Definition ENV_SIZE : Z := 320 * 50.
Definition ALIAS_SIZE : Z := 288 * 20.
Definition HISTORY_SIZE : Z := 1024 * 10.

(** [BashShell::new]: allocate and clear the tables, whose addresses are returned. *)
Definition BashShell_new : M world (Z * Z * Z) :=
  env_ptr ← kmalloc ENV_SIZE;
  alias_ptr ← kmalloc ALIAS_SIZE;
  history_ptr ← kmalloc HISTORY_SIZE;
  if (env_ptr =? 0) || (alias_ptr =? 0) || (history_ptr =? 0) then lift Panic
  else
    _ ← store env_ptr (replicate (Z.to_nat ENV_SIZE) 0);
    _ ← store alias_ptr (replicate (Z.to_nat ALIAS_SIZE) 0);
    _ ← store history_ptr (replicate (Z.to_nat HISTORY_SIZE) 0);
    _ ← modify (with_shell (fun _ => new_shell));
    mret (env_ptr, alias_ptr, history_ptr).

(** The trimmed input of the main loop; empty when there are only blanks. *)
Definition trim (input : list Z) : outcome (list Z) :=
  match position_nonblank input with
  | Some start => slice_incl input start (default start (rposition_nonblank input))
  | None => Ret []
  end.

(** One turn of [run]: prompt, line, history, command.  The result is the keys
    left, [None] when the line is not finished. *)
Definition run_turn (mc : machine) (frame : Z) (fuel : nat) (keys : list Z) : M world (option (list Z)) :=
  _ ← modify (with_shell (fun s => with_prompt (update_prompt (cwd s)) s));
  w ← get;
  _ ← print (get_str (prompt (shell w)));
  r ← lift (read_line keys);
  match r with
  | None => mret None
  | Some (input, echo, rest) =>
      _ ← modify (with_event (Echoed echo));
      trimmed ← lift (trim (get_str input));
      _ ← match trimmed with
          | [] => skip
          | _ =>
              _ ← modify (with_shell (add_to_history trimmed));
              execute_command mc frame fuel trimmed
          end;
      mret (Some rest)
  end.

(** ** Every command is tame *)
Ltac head_of c := match c with ?f _ => head_of f | _ => c end.

Ltac tame_command :=
  first [solve [auto with tame]
        |lazymatch goal with |- tame ?c => let h := head_of c in unfold h end;
         lazymatch goal with
         | |- tame (usage_stub _ _ _ _ _) => apply tame_usage_stub
         | |- tame (message _ _ _ _) => apply tame_message
         | |- tame (path_command _ _ _ _ _ _ _) =>
             apply tame_path_command; intros; first [apply create_entry_ends|apply delete_file_ends]
         | |- _ => solve_tame
         end].

Lemma command_table_tame mc frame :
  Forall (fun nf => forall args argc, tame (nf.2 args argc)) (command_table mc frame).
Proof.
  unfold command_table. repeat (apply Forall_cons; split; [intros args argc; cbn [snd]; tame_command|]).
  constructor.
Qed.

Lemma run_builtin_tame mc frame cmd args argc : tame (run_builtin mc frame cmd args argc).
Proof.
  unfold run_builtin. destruct (find_command _ cmd) as [f|] eqn:E; [|solve_tame].
  pose proof (command_table_tame mc frame) as H. revert f E. induction H as [|[n g] l Hg _ IH]; intros f E; [done|].
  cbn [find_command] in E. destruct (bool_decide _); [|by apply IH]. injection E as <-. apply Hg.
Qed.

(** ** The buffers of a command *)
Section buffers.

Context (heap_base : Z) (Hbase : base_ok heap_base).

Abbreviation heap_ready := (Blocks.heap_ready heap_base).

(** The same blocks are handed out. *)
Definition same_live (segs segs' : list seg) : Prop := live heap_base segs' ≡ₚ live heap_base segs.

#[local] Instance same_live_refl : Reflexive same_live.
Proof. intros segs. unfold same_live. reflexivity. Qed.

(** Freeing the block allocated last restores the blocks. *)
Lemma kfree_restores w segs segs1 segs' p sz :
  heap_ready w segs' -> live heap_base segs1 ≡ₚ (p, sz) :: live heap_base segs -> same_live segs1 segs' ->
  exists w' segs'', kfree p w = Ret (tt, w') /\ heap_ready w' segs'' /\ same_live segs segs''.
Proof.
  intros Hr Hl Hsame. unfold same_live in *.
  destruct (kfree_ok heap_base Hbase w segs' p sz (live heap_base segs) Hr) as (h & segs'' & E & Hr' & Hl'); [by rewrite Hsame|].
  by eexists _, segs''.
Qed.

(** What a run may do: use up the fuel only if that many pairs of buffers fit into
    the heap, and otherwise return with the blocks it found. *)
Definition settles (fuel : nat) (segs : list seg) (o : outcome (unit * world)) : Prop :=
  (o = Timeout -> live_size heap_base segs + 2304 * Z.of_nat fuel <= HEAP_SIZE) /\
  (forall w', o = Ret (tt, w') -> exists segs', heap_ready w' segs' /\ same_live segs segs').

Lemma settles_Ret fuel segs segs' w : heap_ready w segs' -> same_live segs segs' -> settles fuel segs (Ret (tt, w)).
Proof. intros Hr Hs. split; [done|]. intros w' E. apply Ret_inj in E. injection E as <-. by exists segs'. Qed.

Lemma settles_Panic fuel segs : settles fuel segs Panic.
Proof. by split. Qed.

(** The last step of [execute_command]: free the argument buffer. *)
Lemma settles_kfree fuel w segs segs1 segs' p sz :
  heap_ready w segs' -> live heap_base segs1 ≡ₚ (p, sz) :: live heap_base segs ->
  same_live segs1 segs' -> settles fuel segs (kfree p w).
Proof.
  intros H1 H3 H4. destruct (kfree_restores _ _ _ _ _ _ H1 H3 H4) as (w' & segs'' & -> & Hr & Hs).
  by eapply settles_Ret.
Qed.

(** A built-in command between the allocation and the end. *)
Lemma settles_builtin fuel (c : M world unit) w segs segs1 segs' p sz :
  tame c -> heap_ready w segs' -> live heap_base segs1 ≡ₚ (p, sz) :: live heap_base segs ->
  same_live segs1 segs' -> settles fuel segs ((_ ← c; kfree p) w).
Proof.
  intros Hc H1 H3 H4. destruct (Hc w) as [He Hk]. unfold mbind, M_bind_inst.
  destruct (c w) as [[[] w1]| | |]; cbn [outcome_bind]; [|by split|by split|done].
  destruct (Hk tt w1 eq_refl) as [E1 E2]. by eapply settles_kfree; [eapply heap_ready_same| |].
Qed.

Lemma slice_incl_sub l a b r : slice_incl l a b = Ret r -> (length r <= length l)%nat /\ forall c, c ∈ r -> c ∈ l.
Proof.
  unfold slice_incl. do 2 (destruct (decide _); [|done]). intros H. apply Ret_inj in H as <-. split.
  - rewrite length_take, length_drop. lia.
  - intros c Hc. apply elem_of_take in Hc as (i & Hc & _). rewrite lookup_drop in Hc. by eapply list_elem_of_lookup_2.
Qed.

Lemma slice_incl_ends l a b : ends (slice_incl l a b).
Proof. unfold slice_incl. solve_ends. Qed.

Lemma get_str_short l : (length (get_str l) <= length l)%nat.
Proof. unfold get_str. induction l as [|c l IH]; cbn; [lia|]. destruct (c =? 0); cbn; lia. Qed.

(** The part after the arguments are parsed. *)
Lemma run_command_settles exec mc frame fuel w2 segs segs1 p1 s1 args argc :
  (forall line w segs, heap_ready w segs -> nonzero line -> (length line <= 1023)%nat ->
     settles fuel segs (exec line w)) ->
  heap_ready w2 segs1 -> live heap_base segs1 ≡ₚ (p1, s1) :: live heap_base segs -> 2048 <= s1 ->
  settles (S fuel) segs (run_command exec mc frame p1 args argc w2).
Proof.
  destruct buffer_lengths as [LA LB]. intros Hexec Hr2 Hl1 Hs1. unfold run_command. step_m.
  destruct (kmalloc_ok heap_base Hbase (Z.of_nat ALIAS_LEN) w2 segs1 Hr2) as (p2 & h3 & E5 & Hc2); [lia|lia|]. rewrite E5.
  cbn [outcome_bind]. set (w3 := with_hm h3 _ w2) in *.
  pose proof (run_builtin_tame mc frame (get_arg_heap args 0) args argc) as Htame.
  destruct Hc2 as [[-> Hr3]|(Hp2 & segs2 & s2 & Hs2 & Hr3 & Hl2)].
  { cbn [Z.eqb]. eapply (settles_builtin (S fuel)); [exact Htame|exact Hr3|exact Hl1|reflexivity]. }
  rewrite (proj2 (Z.eqb_neq p2 0)) by done.
  destruct (get_alias _ _) as [alias_cmd|].
  - assert ((p2, s2) ∈ live heap_base segs2) as Hin2 by (rewrite Hl2; left).
    destruct (store_ok heap_base w3 segs2 p2 s2 (take 255 alias_cmd ++ [0]) Hr3 Hin2) as (m4 & E6 & Hr4 & _).
    { rewrite length_app, length_take. cbn [length]. lia. }
    rewrite E6. cbn [outcome_bind]. set (w4 := with_hm _ m4 w3) in *.
    destruct (load_ok heap_base w4 segs2 p2 s2 ALIAS_LEN Hr4 Hin2 Hs2) as (b & E7 & Hb). rewrite E7. cbn [outcome_bind].
    pose proof (get_str_short b). destruct (Hexec (get_str b) w4 segs2 Hr4) as [Ht Hret]; [apply until_nul_nonzero|lia|].
    destruct (exec (get_str b) w4) as [[[] w5]| | |]; cbn [outcome_bind]; [|by split|by split|].
    2:{ split; [|done]. intros _. specialize (Ht eq_refl).
        rewrite (live_size_add heap_base _ _ _ _ Hl2), (live_size_add heap_base _ _ _ _ Hl1) in Ht. lia. }
    destruct (Hret w5 eq_refl) as (segs5 & Hr5 & Hs5).
    destruct (kfree_restores _ _ _ _ _ _ Hr5 Hl2 Hs5) as (w6 & segs6 & E8 & Hr6 & Hs6). rewrite E8.
    cbn [outcome_bind]. eapply settles_kfree; [exact Hr6|exact Hl1|exact Hs6].
  - destruct (kfree_restores w3 segs1 segs2 segs2 p2 s2 Hr3 Hl2) as (w6 & segs6 & E8 & Hr6 & Hs6); [reflexivity|].
    rewrite E8. cbn [outcome_bind].
    eapply (settles_builtin (S fuel) _ _ _ segs1 segs6); [exact Htame|exact Hr6|exact Hl1|exact Hs6].
Qed.

Lemma execute_settles mc frame fuel line w segs :
  heap_ready w segs -> nonzero line -> (length line <= 1023)%nat ->
  settles fuel segs (execute_command mc frame fuel line w).
Proof.
  destruct buffer_lengths as [LA LB]. revert line w segs. induction fuel as [|f IH]; intros line w segs Hr Hnz Hlen.
  { split; [|done]. intros _. pose proof (live_size_bound heap_base _ _ (hr_inv _ _ _ Hr)). lia. }
  cbn [execute_command]. destruct (_ <? _)%nat; [by apply (settles_Ret _ _ segs)|].
  step_m. pose proof (slice_incl_ends line) as Hends.
  destruct (slice_incl line _ _) as [trimmed| | |] eqn:Es; [|by split|by split|by destruct (Hends _ _ Es)].
  apply slice_incl_sub in Es as [Hl Hin]. clear Hends. cbn [outcome_bind].
  destruct (kmalloc_ok heap_base Hbase (Z.of_nat ARGS_LEN) w segs Hr) as (p1 & h1 & E1 & Hc1); [lia|lia|]. rewrite E1.
  cbn [outcome_bind]. set (w1 := with_hm h1 _ w) in *.
  destruct Hc1 as [[-> Hr1]|(Hp1 & segs1 & s1 & Hs1 & Hr1 & Hl1)]; [by apply (settles_Ret _ _ segs)|].
  rewrite (proj2 (Z.eqb_neq p1 0)) by done.
  assert ((p1, s1) ∈ live heap_base segs1) as Hin1 by (rewrite Hl1; left).
  destruct (load_ok heap_base w1 segs1 p1 s1 ARGS_LEN Hr1 Hin1 Hs1) as (stale & E2 & Hstale). rewrite E2. cbn [outcome_bind].
  destruct (parse_command_words trimmed stale) as (rest & E3 & _ & Hargs); [|lia|].
  { apply Forall_forall. intros c Hc. by eapply Forall_forall in Hnz; [|apply Hin]. }
  rewrite E3. cbn [outcome_bind]. set (argc := length _). set (args := encode _ ++ rest) in *.
  destruct (store_ok heap_base w1 segs1 p1 s1 args Hr1 Hin1) as (m2 & E4 & Hr2 & _); [lia|]. rewrite E4. cbn [outcome_bind].
  destruct (argc =? 0)%nat; [by eapply settles_kfree|].
  eapply run_command_settles; [|exact Hr2|exact Hl1|lia]. intros line' w' segs' H1 H2 H3. by apply IH.
Qed.

End buffers.

(** ** Properties *)

(** C9. Running a command line of at most 1023 bytes ends and gives back its
    memory: with an alias nesting bound of 1821, which the 4 MiB heap cannot exceed
    as every level holds 2304 bytes of it, the run is not cut off (whatever the
    aliases are, one naming itself included), and when it returns exactly the blocks
    allocated before are allocated. *)
Theorem execute_command_settles heap_base mc frame fuel line w segs :
  base_ok heap_base -> heap_ready heap_base w segs -> nonzero line -> (length line <= 1023)%nat -> (1821 <= fuel)%nat ->
  execute_command mc frame fuel line w <> Timeout /\
  (forall w', execute_command mc frame fuel line w = Ret (tt, w') ->
     exists segs', heap_ready heap_base w' segs' /\ forall b, b ∈ live heap_base segs' <-> b ∈ live heap_base segs).
Proof.
  intros Hbase Hr Hnz Hl Hf. destruct (execute_settles heap_base Hbase mc frame fuel line w segs Hr Hnz Hl) as [H1 H2].
  split; cycle 1.
  { intros w' E. destruct (H2 w' E) as (segs' & Hr' & Hs'). exists segs'. split; [done|]. intros b. unfold same_live in Hs'. by rewrite Hs'. }
  intros Ht. specialize (H1 Ht). pose proof (live_size_bound heap_base _ _ (hr_inv _ _ _ Hr)).
  unfold HEAP_SIZE in *. lia.
Qed.

Definition demo_machine : machine :=
  mkMachine 0 0 [] (2025, 1, 1, 0, 0, 0) (2 ^ 24) (2 ^ 23) (0, [0; 0; 0; 0], [0; 0; 0; 0], [0; 0; 0; 0], [0; 0; 0; 0; 0; 0])
    (fun _ _ => -1) (-1) (fun _ _ _ => -1) (fun _ _ => -1) (fun _ _ => []).

Definition demo_shell_world : world :=
  mkWorld (set_alias (bytes "ls") (bytes "ls /") new_shell) (Some (demo_root (bytes "hello"))) (init_heap 4096)
    (∅ ∪ blank 4096 (Z.to_nat HEAP_SIZE)) false [].

Lemma demo_heap_ready : heap_ready 4096 demo_shell_world [(HEAP_SIZE - BLOCK_HEADER, true)].
Proof. constructor; [apply init_heap_inv; exact base_ok_4096|apply blank_mapped]. Qed.

Lemma execute_command_settles_witness :
  execute_command demo_machine 64 1821 (bytes "ls") demo_shell_world <> Timeout.
Proof.
  apply (execute_command_settles 4096 demo_machine 64 1821 (bytes "ls") demo_shell_world _ base_ok_4096 demo_heap_ready).
  - repeat (constructor; [discriminate|]). constructor.
  - cbn. lia.
  - lia.
Defined.

(** A fresh shell with the first 2500 bytes of the heap mapped. *)
Definition fresh_world : world :=
  mkWorld new_shell (Some (demo_root [])) (init_heap 4096) (blank 4096 2500) false [].

(** An alias for nothing brings the kernel down: in a fresh shell the command
    [alias x=] followed by the command [x] panics, because the empty command line,
    which passes the check [start > end], is sliced as [0..=0]; so does the empty
    string given to [rust_bash_execute]. *)
Theorem empty_alias_panics mc frame fuel :
  (_ ← execute_command mc frame (S fuel) (bytes "alias x="); execute_command mc frame (S (S fuel)) (bytes "x")) fresh_world
    = Panic /\
  (forall w, execute_command mc frame (S fuel) [] w = Panic).
Proof. split; [vm_compute; reflexivity|reflexivity]. Qed.
