(* ===== verification/ShellRun.v ===== *)
(** * The shell as it runs

    The entry points of bash.rs around the turn of [ShellExec]: [rust_bash_init],
    which empties the keyboard queue and allocates the tables, [rust_bash_run] with
    the greeting and the endless loop of [run], and [Drop].

    The loop is given by the keys that arrive: it takes turns until they are used up
    and then waits in [read_line]. *)

From S2P Require Import Prelude Memory Heap Blocks BTree Vfs Keyboard ShellText ShellTables ShellFiles ShellCommands ShellExec.

Local Open Scope Z_scope.

(** What [run] asks of the hardware before its loop. *)
Inductive console_event :=
| ScreenCleared
| ColorSet (color : Z)
| InterruptsOn.

(** The shell's world, the keyboard queue, the static [BASH_SHELL] (its tables, when
    there is a shell) and the events above. *)
Record console := mkConsole {
  con_world : world;
  con_keyboard : keyboard;
  BASH_SHELL : option (Z * Z * Z);
  con_events : list console_event
}.

Definition with_world (w : world) (c : console) : console :=
  mkConsole w (con_keyboard c) (BASH_SHELL c) (con_events c).
Definition with_keyboard (k : keyboard) (c : console) : console :=
  mkConsole (con_world c) k (BASH_SHELL c) (con_events c).
Definition with_bash (b : option (Z * Z * Z)) (c : console) : console :=
  mkConsole (con_world c) (con_keyboard c) b (con_events c).
Definition with_console_event (e : console_event) (c : console) : console :=
  mkConsole (con_world c) (con_keyboard c) (BASH_SHELL c) (con_events c ++ [e]).

(** Code that works on the shell's world only. *)
Definition on_world {A} (c : M world A) : M console A := fun s =>
  '(a, w) ← c (con_world s); Ret (a, with_world w s).

(** [while rust_keyboard_get_char() != -1 {}]. *)
Fixpoint drain (fuel : nat) (k : keyboard) : outcome keyboard :=
  match fuel with
  | O => Timeout
  | S f => let '(c, k') := rust_keyboard_get_char k in if c =? -1 then Ret k' else drain f k'
  end.

(** Every turn takes a character out of the queue. *)
Definition queued (k : keyboard) : nat := length (default [] (KEYBOARD_BUFFER k)).

(** [Drop for BashShell]: the tables that are not null are freed. *)
Definition bash_drop (tables : Z * Z * Z) : M world unit :=
  let '(env_vars, aliases, history) := tables in
  _ ← (if env_vars =? 0 then skip else kfree env_vars);
  _ ← (if aliases =? 0 then skip else kfree aliases);
  if history =? 0 then skip else kfree history.

(** The assignment to [BASH_SHELL] drops the shell that was there. *)
Definition rust_bash_init : M console unit :=
  s ← get;
  k ← lift (drain (S (queued (con_keyboard s))) (con_keyboard s));
  _ ← modify (with_keyboard k);
  tables ← on_world BashShell_new;
  _ ← match BASH_SHELL s with Some old => on_world (bash_drop old) | None => mret tt end;
  modify (with_bash (Some tables)).

Section loop.

Context (mc : machine) (frame : Z) (fuel : nat).

(** The loop of [run]: [n] bounds the turns. *)
Fixpoint run_loop (n : nat) (keys : list Z) : M world unit :=
  match n with
  | O => lift Timeout
  | S n' =>
      r ← run_turn mc frame fuel keys;
      match r with
      | Some rest => run_loop n' rest
      | None => skip
      end
  end.

(** [run]: the greeting, then a turn for every line; each takes a key at least. *)
Definition run (keys : list Z) : M console unit :=
  _ ← modify (with_console_event ScreenCleared);
  _ ← modify (fun s => with_keyboard (rust_keyboard_clear_buffer (con_keyboard s)) s);
  _ ← modify (with_console_event (ColorSet 0x0E));
  _ ← on_world (print (line "ShadeOS boot complete. Welcome!"));
  _ ← modify (with_console_event (ColorSet 0x0F));
  _ ← modify (with_console_event InterruptsOn);
  on_world (run_loop (S (length keys)) keys).

Definition rust_bash_run (keys : list Z) : M console unit :=
  s ← get; match BASH_SHELL s with Some _ => run keys | None => mret tt end.

End loop.

(** The shell's entry points in sequence. *)
Inductive console_op :=
| Init
| Run (keys : list Z).

Fixpoint run_console (mc : machine) (frame : Z) (fuel : nat) (ops : list console_op) : M console unit :=
  match ops with
  | [] => mret tt
  | Init :: ops' => _ ← rust_bash_init; run_console mc frame fuel ops'
  | Run keys :: ops' => _ ← rust_bash_run mc frame fuel keys; run_console mc frame fuel ops'
  end.

Lemma on_world_bind {A B} (c : M world A) (k : A -> M console B) s :
  (a ← on_world c; k a) s = ('(a, w) ← c (con_world s); k a (with_world w s)).
Proof. unfold on_world, mbind, M_bind_inst. by destruct (c (con_world s)) as [[a w]| | |]. Qed.

(** ** Draining the queue *)
Lemma drain_ends f k : (queued k < f)%nat -> ends (drain f k).
Proof.
  revert k. induction f as [|f IH]; intros [b i] Hf; [lia|]. cbn [drain]. unfold rust_keyboard_get_char, get_char.
  destruct i; cbn [negb KEYBOARD_INITIALIZED KEYBOARD_BUFFER]; [|done]. destruct b as [[|c q]|]; [done| |done].
  destruct (c =? -1); [done|]. apply IH. unfold queued in *. cbn in *. lia.
Qed.

(** ** Turns *)

(** A finished line: its text fits, has no NUL inside, and a key was taken. *)
Lemma read_line_loop_line keys l e b echo rest :
  edits l e -> read_line_loop keys e = Ret (Some (b, echo, rest)) ->
  (length (get_str b) <= 1023)%nat /\ nonzero (get_str b) /\ (length rest < length keys)%nat.
Proof.
  revert l e. induction keys as [|k keys IH]; intros l e He E; cbn [read_line_loop] in E; [done|].
  destruct ((k =? -1) || (k =? 0)) eqn:Ek.
  { destruct (IH l e He E) as (H1 & H2 & H3). split; [done|]. split; [done|]. cbn. lia. }
  apply orb_false_elim in Ek as [E1 E2]. apply Z.eqb_neq in E1, E2.
  destruct ((u8 k =? 10) || (u8 k =? 13)).
  - destruct He as (Hp & Hl & Hb & Hr). rewrite Hp, Hb, arr_set_zeros in E by lia. step_ret_in E.
    injection E as <- _ <-. unfold get_str. rewrite <- app_assoc. cbn [app].
    rewrite until_nul_app by (eapply Forall_impl; [exact Hr|]; cbn; lia). split; [done|]. split; [|cbn; lia].
    eapply Forall_impl; [exact Hr|]. cbn. lia.
  - destruct (edit_key_edits k l e E1 E2 He) as (e' & E' & He'). rewrite E' in E. step_ret_in E.
    destruct (IH _ _ He' E) as (H1 & H2 & H3). split; [done|]. split; [done|]. cbn. lia.
Qed.

Lemma read_line_line keys b echo rest :
  read_line keys = Ret (Some (b, echo, rest)) ->
  (length (get_str b) <= 1023)%nat /\ nonzero (get_str b) /\ (length rest < length keys)%nat.
Proof.
  apply read_line_loop_line with (l := []). split; [reflexivity|]. split; [cbn; lia|]. split; [reflexivity|constructor].
Qed.

Lemma read_line_ends keys : ends (read_line keys).
Proof.
  unfold read_line. generalize (mkEditor (replicate MAX_CMD_LEN 0) 0 []). induction keys as [|k keys IH]; intros e; cbn [read_line_loop]; [done|].
  destruct (_ || _); [apply IH|]. destruct (_ || _); [solve_ends|]. apply ends_bind; [unfold edit_key; solve_ends|]. intros e' _. apply IH.
Qed.

Lemma trim_line l t : trim l = Ret t -> nonzero l -> (length l <= 1023)%nat -> nonzero t /\ (length t <= 1023)%nat.
Proof.
  unfold trim. intros E Hn Hl. destruct (position_nonblank l); [|apply Ret_inj in E as <-; split; [constructor|cbn; lia]].
  apply slice_incl_sub in E as [H1 H2]. split; [|lia]. apply Forall_forall. intros c Hc. eapply Forall_forall in Hn; [exact Hn|by apply H2].
Qed.

Lemma trim_ends l : ends (trim l).
Proof. unfold trim. destruct (position_nonblank l); [apply slice_incl_ends|apply ends_Ret]. Qed.

Section session.

Context (heap_base : Z) (Hbase : base_ok heap_base) (mc : machine) (frame : Z).

(** A turn that is not cut off, leaves the blocks as they were and uses up a key. *)
Lemma run_turn_settles keys w segs :
  heap_ready heap_base w segs ->
  run_turn mc frame 1821 keys w <> Timeout /\
  forall r w', run_turn mc frame 1821 keys w = Ret (r, w') ->
    (exists segs', heap_ready heap_base w' segs' /\ live heap_base segs' ≡ₚ live heap_base segs) /\
    (forall rest, r = Some rest -> (length rest < length keys)%nat).
Proof.
  intros Hr. unfold run_turn. erewrite M_bind_Ret by reflexivity. set (w1 := with_shell _ w).
  erewrite (M_bind_Ret get _ w1) by reflexivity. erewrite M_bind_Ret by reflexivity. set (w2 := with_event _ w1).
  assert (heap_ready heap_base w2 segs) as Hr2 by (by eapply heap_ready_same; [exact Hr| |]).
  pose proof (read_line_ends keys) as He. destruct (read_line keys) as [r| | |] eqn:El; [|by split..|done].
  erewrite M_bind_Ret by reflexivity. destruct r as [[[input echo] rest]|].
  2:{ split; [done|]. intros r w' E. apply mret_inv in E as [<- <-]. split; [by exists segs|done]. }
  apply read_line_line in El as (H1 & H2 & H3). erewrite M_bind_Ret by reflexivity. set (w3 := with_event _ w2).
  assert (heap_ready heap_base w3 segs) as Hr3 by (by eapply heap_ready_same; [exact Hr2| |]).
  pose proof (trim_ends (get_str input)) as Ht. destruct (trim (get_str input)) as [t| | |] eqn:Et; [|by split..|done].
  erewrite M_bind_Ret by reflexivity. destruct (trim_line _ _ Et H2 H1) as [Hnz Hlen]. destruct t as [|c t].
  { split; [done|]. intros r w' E. apply M_bind_inv in E as ([] & w4 & E4 & E). apply mret_inv in E4 as [_ <-].
    apply mret_inv in E as [<- <-]. split; [by exists segs|]. intros rest' E. by injection E as <-. }
  set (line := c :: t) in *. set (w4 := with_shell (add_to_history line) w3).
  assert (heap_ready heap_base w4 segs) as Hr4 by (by eapply heap_ready_same; [exact Hr3| |]).
  destruct (execute_settles heap_base Hbase mc frame 1821 line w4 segs Hr4 Hnz Hlen) as [Hnt Hret].
  change ((_ ← (_ ← modify (with_shell (add_to_history line)); execute_command mc frame 1821 line); mret (Some rest)) w3)
    with ((_ ← execute_command mc frame 1821 line; (mret (Some rest) : M world _)) w4).
  pose proof (live_size_bound heap_base _ _ (hr_inv _ _ _ Hr4)) as Hb. unfold mbind, M_bind_inst.
  destruct (execute_command mc frame 1821 line w4) as [[[] w5]| | |]; cbn [outcome_bind]; [|by split..|].
  - split; [done|]. intros r w' E. apply mret_inv in E as [<- <-]. destruct (Hret w5 eq_refl) as (segs' & H5 & H6).
    split; [by exists segs'|]. intros rest' E. by injection E as <-.
  - specialize (Hnt eq_refl). unfold HEAP_SIZE in *. lia.
Qed.

Lemma run_loop_settles n keys w segs :
  heap_ready heap_base w segs -> (length keys < n)%nat ->
  run_loop mc frame 1821 n keys w <> Timeout /\
  forall w', run_loop mc frame 1821 n keys w = Ret (tt, w') ->
    exists segs', heap_ready heap_base w' segs' /\ live heap_base segs' ≡ₚ live heap_base segs.
Proof.
  revert keys w segs. induction n as [|n IH]; intros keys w segs Hr Hn; [lia|]. cbn [run_loop].
  destruct (run_turn_settles keys w segs Hr) as [Hnt Hret]. unfold mbind, M_bind_inst.
  destruct (run_turn mc frame 1821 keys w) as [[r w1]| | |]; cbn [outcome_bind]; [|by split..|done].
  destruct (Hret r w1 eq_refl) as [(segs1 & Hr1 & Hl1) Hrest]. destruct r as [rest|].
  - specialize (Hrest rest eq_refl). destruct (IH rest w1 segs1 Hr1) as [H1 H2]; [lia|]. split; [done|].
    intros w' E. destruct (H2 w' E) as (segs' & Hr' & Hl'). exists segs'. split; [done|]. by rewrite Hl', Hl1.
  - split; [done|]. intros w' E. apply mret_inv in E as [_ <-]. by exists segs1.
Qed.

(** ** The tables *)

(** The blocks of the shell, when there is one. *)
Definition table_regions (b : option (Z * Z * Z)) : list (Z * Z) :=
  match b with
  | Some (env_vars, aliases, history) => [(env_vars, ENV_SIZE); (aliases, ALIAS_SIZE); (history, HISTORY_SIZE)]
  | None => []
  end.

(** The heap is well formed, and the shell has its tables besides the blocks [rest]
    of others. *)
Definition shell_owns (c : console) (rest : list (Z * Z)) : Prop :=
  exists segs, heap_ready heap_base (con_world c) segs /\ owned heap_base segs (table_regions (BASH_SHELL c)) rest.

(** A run that is not cut off and, if it returns, leaves a state with [P]. *)
Definition settled {A} (P : A -> world -> Prop) (o : outcome (A * world)) : Prop :=
  o <> Timeout /\ forall a w', o = Ret (a, w') -> P a w'.

Lemma BashShell_new_settles w segs rs rest :
  heap_ready heap_base w segs -> owned heap_base segs rs rest ->
  settled (fun t w' => exists segs', heap_ready heap_base w' segs' /\ owned heap_base segs' (table_regions (Some t) ++ rs) rest)
    (BashShell_new w).
Proof.
  intros Hr Ho. unfold BashShell_new.
  destruct (kmalloc_owned heap_base Hbase ENV_SIZE w segs rs rest Hr Ho) as (p1 & h1 & segs1 & E1 & Hr1 & Ho1); [done..|].
  rewrite (M_bind_Ret _ _ _ _ _ E1).
  destruct (kmalloc_owned heap_base Hbase ALIAS_SIZE _ _ _ _ Hr1 Ho1) as (p2 & h2 & segs2 & E2 & Hr2 & Ho2); [done..|].
  rewrite (M_bind_Ret _ _ _ _ _ E2).
  destruct (kmalloc_owned heap_base Hbase HISTORY_SIZE _ _ _ _ Hr2 Ho2) as (p3 & h3 & segs3 & E3 & Hr3 & Ho3); [done..|].
  rewrite (M_bind_Ret _ _ _ _ _ E3). clear E1 E2 E3 Hr1 Hr2 Ho1 Ho2. set (w3 := with_hm h3 _ _) in *. clearbody w3.
  destruct (p1 =? 0); [done|]. destruct (p2 =? 0); [done|]. destruct (p3 =? 0); [done|]. cbn [orb].
  assert (forall p n w, heap_ready heap_base w segs3 -> (p, n) ∈ [(p3, HISTORY_SIZE); (p2, ALIAS_SIZE); (p1, ENV_SIZE)] -> 0 <= n ->
    exists w', store p (replicate (Z.to_nat n) 0) w = Ret (tt, w') /\ heap_ready heap_base w' segs3) as Hst.
  { intros p n w' Hrw Hin Hn. destruct Ho3 as (bs & Hl & Hf).
    assert ((p, n) ∈ (p3, HISTORY_SIZE) :: (p2, ALIAS_SIZE) :: (p1, ENV_SIZE) :: rs) as Hin'.
    { rewrite !elem_of_cons in Hin |- *. destruct Hin as [?|[?|[?|Hin]]]; [auto..|by apply not_elem_of_nil in Hin]. }
    apply list_elem_of_lookup in Hin' as [i Hi]. destruct (Forall2_lookup_l _ _ _ _ _ Hf Hi) as ([q sz] & Hb & Hq & Hsz). cbn in Hq, Hsz. subst q.
    destruct (store_ok heap_base w' segs3 p sz (replicate (Z.to_nat n) 0) Hrw) as (m & E & Hr' & _).
    - rewrite Hl. apply elem_of_app. left. by eapply list_elem_of_lookup_2.
    - rewrite length_replicate. lia.
    - eexists. split; [exact E|done]. }
  destruct (Hst p1 ENV_SIZE w3 Hr3) as (w4 & E4 & Hr4); [by do 2 right; left|done|]. rewrite (M_bind_Ret _ _ _ _ _ E4).
  destruct (Hst p2 ALIAS_SIZE w4 Hr4) as (w5 & E5 & Hr5); [by right; left|done|]. rewrite (M_bind_Ret _ _ _ _ _ E5).
  destruct (Hst p3 HISTORY_SIZE w5 Hr5) as (w6 & E6 & Hr6); [by left|done|]. rewrite (M_bind_Ret _ _ _ _ _ E6).
  erewrite M_bind_Ret by reflexivity. split; [done|]. intros t w' E. apply mret_inv in E as [<- <-]. exists segs3.
  split; [by eapply heap_ready_same; [exact Hr6| |]|]. eapply owned_perm; [|exact Ho3]. cbn [table_regions app].
  exact (Permutation_app_tail rs (Permutation_sym (Permutation_rev [(p1, ENV_SIZE); (p2, ALIAS_SIZE); (p3, HISTORY_SIZE)]))).
Qed.

Lemma bash_drop_frees t w segs rs rest :
  heap_ready heap_base w segs -> owned heap_base segs (table_regions (Some t) ++ rs) rest ->
  exists w' segs', bash_drop t w = Ret (tt, w') /\ heap_ready heap_base w' segs' /\ owned heap_base segs' rs rest.
Proof.
  destruct t as [[p1 p2] p3]. cbn [table_regions app]. intros Hr Ho.
  assert (forall p n w segs rs, heap_ready heap_base w segs -> owned heap_base segs ((p, n) :: rs) rest ->
    exists w' segs', (if p =? 0 then skip else kfree p) w = Ret (tt, w') /\ heap_ready heap_base w' segs' /\ owned heap_base segs' rs rest) as Hk.
  { clear -Hbase. intros p n w segs rs Hr Ho. destruct (owned_bound heap_base w segs _ _ p n Hr Ho) as [Hp _]; [by left|].
    destruct Hbase as [Hb _]. rewrite (proj2 (Z.eqb_neq p 0)) by lia.
    destruct (kfree_owned heap_base Hbase p n w segs rs rest Hr Ho) as (h & segs' & E & Hr' & Ho'). by eexists _, segs'. }
  unfold bash_drop. destruct (Hk p1 _ _ _ _ Hr Ho) as (w1 & segs1 & E1 & Hr1 & Ho1). rewrite (M_bind_Ret _ _ _ _ _ E1).
  destruct (Hk p2 _ _ _ _ Hr1 Ho1) as (w2 & segs2 & E2 & Hr2 & Ho2). rewrite (M_bind_Ret _ _ _ _ _ E2).
  exact (Hk p3 _ _ _ _ Hr2 Ho2).
Qed.

(** Each entry point keeps what the shell owns. *)
Definition console_settled (rest : list (Z * Z)) (o : outcome (unit * console)) : Prop :=
  o <> Timeout /\ forall c', o = Ret (tt, c') -> shell_owns c' rest.

Lemma console_settled_bind rest (a b : M console unit) c :
  console_settled rest (a c) -> (forall c1, shell_owns c1 rest -> console_settled rest (b c1)) -> console_settled rest ((_ ← a; b) c).
Proof.
  intros [H1 H2] Hb. unfold mbind, M_bind_inst. destruct (a c) as [[[] c1]| | |]; cbn [outcome_bind]; [|by split..|done]. by apply Hb, H2.
Qed.

Lemma rust_bash_init_settles c rest : shell_owns c rest -> console_settled rest (rust_bash_init c).
Proof.
  intros (segs & Hr & Ho). unfold rust_bash_init. rewrite (M_bind_Ret get _ c c c) by done.
  pose proof (drain_ends (S (queued (con_keyboard c))) (con_keyboard c)) as Hd. destruct (drain _ _) as [k| | |]; [|by split..|by destruct Hd; [lia|]].
  erewrite M_bind_Ret by reflexivity. erewrite M_bind_Ret by reflexivity.
  destruct (BashShell_new_settles (con_world c) segs _ _ Hr Ho) as [H1 H2]. rewrite on_world_bind.
  cbn [with_keyboard con_world]. destruct (BashShell_new (con_world c)) as [[t w1]| | |]; step_ret; [|by split..|done].
  destruct (H2 t w1 eq_refl) as (segs1 & Hr1 & Ho1). destruct (BASH_SHELL c) as [old|] eqn:Eb.
  - assert (owned heap_base segs1 (table_regions (Some old) ++ table_regions (Some t)) rest) as Ho2 by (eapply owned_perm; [apply Permutation_app_comm|exact Ho1]).
    destruct (bash_drop_frees old w1 segs1 _ _ Hr1 Ho2) as (w2 & segs2 & E2 & Hr2 & Ho3).
    erewrite M_bind_Ret by (unfold on_world; cbn [with_world con_world]; by rewrite E2). split; [done|]. intros c' E. injection E as <-. by exists segs2.
  - erewrite M_bind_Ret by reflexivity. split; [done|]. intros c' E. injection E as <-. exists segs1. split; [done|]. by rewrite app_nil_r in Ho1.
Qed.

Lemma rust_bash_run_settles keys c rest : shell_owns c rest -> console_settled rest (rust_bash_run mc frame 1821 keys c).
Proof.
  intros Hc. unfold rust_bash_run. rewrite (M_bind_Ret get _ c c c) by done. destruct (BASH_SHELL c) as [t|] eqn:Eb.
  2:{ split; [done|]. intros c' E. by injection E as <-. }
  destruct Hc as (segs & Hr & Ho). unfold run. do 6 (erewrite M_bind_Ret by reflexivity). unfold on_world.
  set (c1 := with_console_event InterruptsOn _). set (w := con_world c1). assert (heap_ready heap_base w segs) as Hw by (by eapply heap_ready_same; [exact Hr| |]).
  destruct (run_loop_settles (S (length keys)) keys w segs Hw) as [H1 H2]; [lia|].
  destruct (run_loop mc frame 1821 (S (length keys)) keys w) as [[[] w1]| | |]; step_ret; [|by split..|done]. split; [done|].
  intros c' E. injection E as <-. destruct (H2 w1 eq_refl) as (segs1 & Hr1 & Hl1). exists segs1. split; [done|].
  cbn [with_world BASH_SHELL with_console_event with_keyboard]. destruct Ho as (bs & Hl & Hf). exists bs. split; [by rewrite Hl1|done].
Qed.

End session.

(** ** The property *)

(** Shell sessions end and do not leak: over any sequence of initialisations (each
    of which drops the shell before it) and runs with any keys, every line runs to its
    end (with the alias nesting bound of [execute_command_settles], which the heap
    cannot exceed), and when the sequence returns the heap is well formed and holds
    exactly the blocks of others and the three tables of the current shell, of 16000,
    5760 and 10240 bytes. *)
Theorem shell_sessions_settle heap_base mc frame ops c rest :
  base_ok heap_base -> shell_owns heap_base c rest ->
  run_console mc frame 1821 ops c <> Timeout /\
  forall c', run_console mc frame 1821 ops c = Ret (tt, c') -> shell_owns heap_base c' rest.
Proof.
  intros Hb. change (shell_owns heap_base c rest -> console_settled heap_base rest (run_console mc frame 1821 ops c)).
  revert c. induction ops as [|[|keys] ops IH]; intros c Hc; cbn [run_console].
  - split; [done|]. intros c' E. by injection E as <-.
  - apply console_settled_bind; [by apply rust_bash_init_settles|exact IH].
  - apply console_settled_bind; [by apply rust_bash_run_settles|exact IH].
Qed.

Definition demo_console : console := mkConsole demo_shell_world keyboard_boot None [].

Lemma shell_sessions_settle_witness :
  run_console demo_machine 64 1821 [Init; Run (bytes "ls" ++ [13]); Init] demo_console <> Timeout.
Proof.
  apply (shell_sessions_settle 4096 demo_machine 64 [Init; Run (bytes "ls" ++ [13]); Init] demo_console [] base_ok_4096).
  exists [(HEAP_SIZE - BLOCK_HEADER, true)]. split; [exact demo_heap_ready|]. by apply owned_nil.
Defined.
