(* ===== verification/Nic.v ===== *)
(** * Nic: what the network drivers share

    A driver talks to its card through ports or memory-mapped registers and
    through memory the card reads and writes by itself.  The card is not part of
    the program: it is a state [D] with the interface [Card].  The state of driver
    code is the kernel heap, the memory, the card and the log of the register
    accesses made so far. *)

From S2P Require Import Prelude Memory Heap Blocks.

Local Open Scope Z_scope.

(** What a card does: answer a read of [w] bytes at an address of its registers,
    take a write, and change memory while the processor waits.  It writes only to
    memory that exists. *)
Class Card (D : Type) := {
  card_in : Z -> Z -> D -> Z * D;
  card_out : Z -> Z -> Z -> D -> D;
  card_run : mem -> D -> mem * D;
  card_run_dom m d : dom (card_run m d).1 = dom m
}.

(** A register access: width in bytes, address, value. *)
Inductive io :=
| In (w port value : Z)
| Out (w port value : Z).

#[export] Instance io_eq_dec : EqDecision io.
Proof. solve_decision. Defined.

Record nic (D : Type) := mkNic {
  nic_heap : heap;
  nic_mem : mem;
  nic_card : D;
  nic_log : list io
}.
Arguments mkNic {D}.
Arguments nic_heap {D}.
Arguments nic_mem {D}.
Arguments nic_card {D}.
Arguments nic_log {D}.

#[export] Instance nic_heap_state D : HeapState (nic D).
Proof.
  refine {| st_heap := nic_heap; st_mem := nic_mem;
            with_hm := fun h m s => mkNic h m (nic_card s) (nic_log s) |}; by intros; try destruct s.
Defined.

(** ** Accesses *)
Section accesses.

Context {D : Type} `{Card D}.

(** [in] and [out] instructions, [read_volatile] and [write_volatile] on a
    register: [w] bytes at [port]. *)
Definition inp (w port : Z) : M (nic D) Z := fun s =>
  let '(v, d) := card_in w port (nic_card s) in
  let v := wrap (8 * w) v in
  Ret (v, mkNic (nic_heap s) (nic_mem s) d (nic_log s ++ [In w port v])).

Definition out (w port v : Z) : M (nic D) unit := fun s =>
  Ret (tt, mkNic (nic_heap s) (nic_mem s) (card_out w port v (nic_card s)) (nic_log s ++ [Out w port v])).

(** [core::hint::spin_loop]: the card goes on. *)
Definition spin : M (nic D) unit := fun s =>
  let '(m, d) := card_run (nic_mem s) (nic_card s) in
  Ret (tt, mkNic (nic_heap s) m d (nic_log s)).

(** Little-endian fields of structures in memory. *)
Definition load_le (p : Z) (n : nat) : M (nic D) Z := b ← load p n; mret (le_word b).
Definition store_le (p : Z) (n : nat) (v : Z) : M (nic D) unit := store p (le_bytes n v).

(** [while !done { spin_loop() }], with a bound on the turns, and
    [for _ in 0..n { if done { break; } spin_loop() }]. *)
Fixpoint spin_until (fuel : nat) (finished : M (nic D) bool) : M (nic D) unit :=
  match fuel with
  | O => lift Timeout
  | S f => b ← finished; if (b : bool) then mret tt else _ ← spin; spin_until f finished
  end.

Fixpoint spin_at_most (n : nat) (finished : M (nic D) bool) : M (nic D) unit :=
  match n with
  | O => mret tt
  | S n' => b ← finished; if (b : bool) then mret tt else _ ← spin; spin_at_most n' finished
  end.

(** Read the bytes of a list of registers. *)
Fixpoint inp_all (w : Z) (ports : list Z) : M (nic D) (list Z) :=
  match ports with
  | [] => mret []
  | p :: ps => v ← inp w p; vs ← inp_all w ps; mret (v :: vs)
  end.

(** [for x in l { f(x) }]. *)
Fixpoint for_each {A} (f : A -> M (nic D) unit) (l : list A) : M (nic D) unit :=
  match l with
  | [] => mret tt
  | x :: l' => _ ← f x; for_each f l'
  end.

End accesses.

(** ** Code that leaves the heap and the mapped addresses alone *)
Section quiet.

Context {D : Type} `{Card D}.

(** With memory at the addresses [ds] the run returns, with the same heap and with
    memory at the same addresses. *)
Definition quiet {A} (ds : gset Z) (c : M (nic D) A) : Prop :=
  forall s, dom (nic_mem s) = ds ->
    exists a s', c s = Ret (a, s') /\ nic_heap s' = nic_heap s /\ dom (nic_mem s') = ds.

Lemma quiet_ret {A} ds (a : A) : quiet ds (mret a).
Proof. intros s Hs. by exists a, s. Qed.

Lemma quiet_bind {A B} ds (c : M (nic D) A) (k : A -> M (nic D) B) :
  quiet ds c -> (forall a, quiet ds (k a)) -> quiet ds (a ← c; k a).
Proof.
  intros Hc Hk s Hs. destruct (Hc s Hs) as (a & s1 & E1 & H1 & M1). destruct (Hk a s1 M1) as (b & s2 & E2 & H2 & M2).
  exists b, s2. rewrite (M_bind_Ret _ _ _ _ _ E1). by rewrite E2, H2, H1.
Qed.

Lemma quiet_bind_ret {A B} ds (c : M (nic D) A) (k : A -> M (nic D) B) :
  quiet ds c -> (forall s a s', c s = Ret (a, s') -> quiet ds (k a)) -> quiet ds (a ← c; k a).
Proof.
  intros Hc Hk s Hs. destruct (Hc s Hs) as (a & s1 & E1 & H1 & M1). destruct (Hk _ _ _ E1 s1 M1) as (b & s2 & E2 & H2 & M2).
  exists b, s2. rewrite (M_bind_Ret _ _ _ _ _ E1). by rewrite E2, H2, H1.
Qed.

Lemma quiet_inp ds w p : quiet ds (inp w p).
Proof. intros s Hs. unfold inp. destruct (card_in w p (nic_card s)) as [v d]. by eexists _, _. Qed.

Lemma quiet_out ds w p v : quiet ds (out w p v).
Proof. intros s Hs. by eexists _, _. Qed.

Lemma quiet_spin ds : quiet ds spin.
Proof.
  intros s Hs. unfold spin. pose proof (card_run_dom (nic_mem s) (nic_card s)) as Hd.
  destruct (card_run _ _) as [m d]. eexists _, _. split; [reflexivity|]. split; [done|]. cbn in *. by rewrite Hd.
Qed.

Lemma quiet_spin_at_most ds n c : quiet ds c -> quiet ds (spin_at_most n c).
Proof.
  intros Hc. induction n as [|n IH]; cbn [spin_at_most]; [apply quiet_ret|]. apply quiet_bind; [done|].
  intros [|]; [apply quiet_ret|]. apply quiet_bind; [apply quiet_spin|done].
Qed.

Lemma quiet_inp_all ds w ps : quiet ds (inp_all w ps).
Proof.
  induction ps as [|p ps IH]; cbn [inp_all]; [apply quiet_ret|]. apply quiet_bind; [apply quiet_inp|].
  intros v. apply quiet_bind; [done|]. intros vs. apply quiet_ret.
Qed.

Lemma quiet_load ds p n : within ds p n -> quiet ds (load p n).
Proof.
  intros Hw s Hs. destruct (mapped_load (nic_mem s) p n) as [b Hb]; [apply within_mapped; by rewrite Hs|].
  exists b, s. unfold load. cbn [st_mem nic_heap_state]. by rewrite Hb.
Qed.

Lemma quiet_store ds p b : within ds p (length b) -> quiet ds (store p b).
Proof.
  intros Hw s Hs. destruct (store_bytes_ok (nic_mem s) p b) as (m & E & _); [apply within_mapped; by rewrite Hs|].
  eexists tt, _. unfold store. cbn [st_mem nic_heap_state]. rewrite E. step_ret. split; [reflexivity|].
  split; [done|]. cbn. rewrite (store_bytes_dom _ _ _ _ E). exact Hs.
Qed.

Lemma quiet_store_le ds p n v : within ds p n -> quiet ds (store_le p n v).
Proof. intros Hw. apply quiet_store. by rewrite le_bytes_length. Qed.

(** The card and the memory after [n] turns of a loop that reads a register and
    waits, and a card that gives an awaited answer within [fuel] turns. *)
Fixpoint later (w p : Z) (n : nat) (m : mem) (d : D) : mem * D :=
  match n with
  | O => (m, d)
  | S n' => let '(m1, d1) := card_run m (card_in w p d).2 in later w p n' m1 d1
  end.

Definition answers (fuel : nat) (w p : Z) (f : Z -> bool) : Prop :=
  forall m d, exists j, (j < fuel)%nat /\ f (wrap (8 * w) (card_in w p (later w p j m d).2).1) = true.

Lemma spin_until_ok fuel w p f s j :
  (j < fuel)%nat -> f (wrap (8 * w) (card_in w p (later w p j (nic_mem s) (nic_card s)).2).1) = true ->
  exists s', spin_until fuel (v ← inp w p; mret (f v)) s = Ret (tt, s') /\
    nic_heap s' = nic_heap s /\ dom (nic_mem s') = dom (nic_mem s).
Proof.
  revert s j. induction fuel as [|n IH]; intros s j Hj Hf; [lia|]. cbn [spin_until].
  unfold mbind, M_bind_inst, inp. destruct (card_in w p (nic_card s)) as [v d] eqn:Ec. cbn [outcome_bind mret M_ret_inst].
  destruct (f (wrap (8 * w) v)) eqn:Ef; [by eexists|].
  destruct j as [|j]; [cbn in Hf; rewrite Ec in Hf; cbn in Hf; congruence|].
  unfold spin. cbn [nic_mem nic_card nic_heap]. cbn [later] in Hf. rewrite Ec in Hf. cbn [snd] in Hf.
  pose proof (card_run_dom (nic_mem s) d) as Hd. destruct (card_run (nic_mem s) d) as [m1 d1]. cbn [outcome_bind].
  destruct (IH (mkNic (nic_heap s) m1 d1 (nic_log s ++ [In w p (wrap (8 * w) v)])) j) as (s' & E & H1 & H2); [lia|done|].
  exists s'. cbn [fst nic_mem nic_heap] in *. by rewrite H2, Hd.
Qed.

Lemma quiet_spin_until ds fuel w p f :
  answers fuel w p f -> quiet ds (spin_until fuel (v ← inp w p; mret (f v))).
Proof.
  intros Ha s Hs. destruct (Ha (nic_mem s) (nic_card s)) as (j & Hj & Hf).
  destruct (spin_until_ok fuel w p f s j Hj Hf) as (s' & E & H1 & H2). exists tt, s'. by rewrite H2.
Qed.

Lemma inp_all_length w ps s vs s' : inp_all w ps s = Ret (vs, s') -> length vs = length ps.
Proof.
  revert s vs s'. induction ps as [|p ps IH]; intros s vs s' E; cbn [inp_all] in E; [by injection E as <- _|].
  unfold mbind, M_bind_inst in E. destruct (inp w p s) as [[v s1]| | |]; [|done..]. cbn [outcome_bind] in E.
  destruct (inp_all w ps s1) as [[vs1 s2]| | |] eqn:E2; [|done..]. injection E as <- _. cbn. by rewrite (IH _ _ _ E2).
Qed.

Lemma inp_all_bytes ps s vs s' : inp_all 1 ps s = Ret (vs, s') -> Forall is_u8 vs.
Proof.
  revert s vs s'. induction ps as [|p ps IH]; intros s vs s' E; cbn [inp_all] in E; [injection E as <- _; constructor|].
  unfold mbind, M_bind_inst, inp in E. destruct (card_in 1 p (nic_card s)) as [v d]. cbn [outcome_bind] in E.
  destruct (inp_all 1 ps _) as [[vs1 s2]| | |] eqn:E2; [|done..]. injection E as <- _.
  constructor; [apply (wrap_range 8); lia|by eapply IH].
Qed.

End quiet.

Lemma heap_ready_quiet {D} heap_base (s s' : nic D) segs :
  heap_ready heap_base s segs -> nic_heap s' = nic_heap s -> dom (nic_mem s') = dom (nic_mem s) ->
  heap_ready heap_base s' segs.
Proof.
  intros [Hi Hm] Eh Ed. constructor; cbn in *; [by rewrite Eh|]. apply within_mapped. rewrite Ed. by apply within_mapped.
Qed.

(** ** Replacing the device of a driver

    Each driver keeps its device in a static variable.  A new device is put there
    and the old one dropped; when there is no new one, the old one stays. *)
Section device.

Context {D Dev : Type} (regions : Dev -> list (Z * Z)) (new : M (nic D) (option Dev)) (drop_dev : Dev -> M (nic D) unit).

Definition replace_device (st : option Dev) : M (nic D) (Z * option Dev) :=
  r ← new;
  match r with
  | Some dev =>
      _ ← match st with Some old => drop_dev old | None => mret tt end;
      mret (0, Some dev)
  | None => mret (-1, st)
  end.

Context (heap_base : Z) (Hbase : base_ok heap_base).

(** The regions of the device in the static variable. *)
Definition st_regions (st : option Dev) : list (Z * Z) :=
  match st with Some dev => regions dev | None => [] end.

(** What [new] has made, when freeing the old device does not change it. *)
Lemma replace_device_made (P : Dev -> mem -> Prop) st s segs rest r s1 segs1 :
  owned heap_base segs (st_regions st) rest ->
  new s = Ret (r, s1) -> heap_ready heap_base s1 segs1 -> owned heap_base segs1 (st_regions r) (live heap_base segs) ->
  match r with Some dev => P dev (nic_mem s1) | None => True end ->
  (forall old s segs rest, heap_ready heap_base s segs -> owned heap_base segs (regions old) rest ->
     exists s' segs', drop_dev old s = Ret (tt, s') /\ heap_ready heap_base s' segs' /\ live heap_base segs' ≡ₚ rest /\
       forall dev, P dev (nic_mem s) -> P dev (nic_mem s')) ->
  exists s' segs', heap_ready heap_base s' segs' /\
    match r with
    | Some dev => replace_device st s = Ret ((0, Some dev), s') /\ P dev (nic_mem s') /\ owned heap_base segs' (regions dev) rest
    | None => replace_device st s = Ret ((-1, st), s') /\ live heap_base segs' ≡ₚ live heap_base segs
    end.
Proof.
  intros Ho E1 Hr1 Ho1 HP Hdrop. unfold replace_device. rewrite (M_bind_Ret _ _ _ _ _ E1).
  destruct r as [dev|]; cbn [st_regions] in Ho1.
  2:{ exists s1, segs1. split; [done|]. split; [done|]. by apply owned_nil in Ho1. }
  pose proof (owned_app _ _ _ _ _ _ Ho1 Ho) as Hall. apply owned_split in Hall as (rest' & Hold & Hnew).
  destruct st as [old|]; cbn [st_regions] in Hold.
  - destruct (Hdrop old s1 segs1 rest' Hr1 Hold) as (s2 & segs2 & E2 & Hr2 & Hl2 & HP2). rewrite (M_bind_Ret _ _ _ _ _ E2).
    exists s2, segs2. split; [done|]. split; [done|]. split; [by apply HP2|by apply Hnew].
  - exists s1, segs1. split; [done|]. split; [done|]. split; [done|]. apply Hnew. by apply owned_nil.
Qed.

Lemma replace_device_blocks st s segs rest :
  heap_ready heap_base s segs -> owned heap_base segs (st_regions st) rest ->
  (exists r s' segs', new s = Ret (r, s') /\ heap_ready heap_base s' segs' /\
     owned heap_base segs' (st_regions r) (live heap_base segs)) ->
  (forall dev s segs rest, heap_ready heap_base s segs -> owned heap_base segs (regions dev) rest ->
     exists s' segs', drop_dev dev s = Ret (tt, s') /\ heap_ready heap_base s' segs' /\ live heap_base segs' ≡ₚ rest) ->
  exists code st' s' segs', replace_device st s = Ret ((code, st'), s') /\ heap_ready heap_base s' segs' /\
    ((code = 0 /\ exists dev, st' = Some dev /\ owned heap_base segs' (regions dev) rest) \/
     (code = -1 /\ st' = st /\ live heap_base segs' ≡ₚ live heap_base segs)).
Proof.
  intros Hr Ho (r & s1 & segs1 & E1 & Hr1 & Ho1) Hdrop.
  destruct (replace_device_made (fun _ _ => True) st s segs rest r s1 segs1 Ho E1 Hr1 Ho1) as (s' & segs' & Hr' & Hm); [by destruct r| |].
  { intros old s2 segs2 rest2 H1 H2. destruct (Hdrop old s2 segs2 rest2 H1 H2) as (s3 & segs3 & ? & ? & ?). by exists s3, segs3. }
  destruct r as [dev|]; [destruct Hm as (E & _ & Hl)|destruct Hm as [E Hl]]; eexists _, _, s', segs'; (split; [exact E|]); (split; [done|]).
  - left. split; [done|]. by exists dev.
  - by right.
Qed.

End device.

(** ** Code that leaves heap and memory alone *)
Section silent.

Context {D : Type} `{Card D}.

Definition silent {A} (c : M (nic D) A) : Prop :=
  forall s, exists a s', c s = Ret (a, s') /\ nic_heap s' = nic_heap s /\ nic_mem s' = nic_mem s.

Lemma silent_ret {A} (a : A) : silent (mret a).
Proof. intros s. by exists a, s. Qed.

Lemma silent_bind {A B} (c : M (nic D) A) (k : A -> M (nic D) B) :
  silent c -> (forall a, silent (k a)) -> silent (a ← c; k a).
Proof.
  intros Hc Hk s. destruct (Hc s) as (a & s1 & E1 & H1 & M1). destruct (Hk a s1) as (b & s2 & E2 & H2 & M2).
  exists b, s2. rewrite (M_bind_Ret _ _ _ _ _ E1). by rewrite E2, H2, H1, M2.
Qed.

Lemma silent_inp w p : silent (inp w p).
Proof. intros s. unfold inp. destruct (card_in w p (nic_card s)) as [v d]. by eexists _, _. Qed.

Lemma silent_out w p v : silent (out w p v).
Proof. intros s. by eexists _, _. Qed.

Lemma silent_for_each {A} (f : A -> M (nic D) unit) l : (forall x, silent (f x)) -> silent (for_each f l).
Proof.
  intros Hf. induction l as [|x l IH]; cbn [for_each]; [apply silent_ret|]. by apply silent_bind.
Qed.

Lemma silent_inp_all w ps : silent (inp_all w ps).
Proof.
  induction ps as [|p ps IH]; cbn [inp_all]; [apply silent_ret|]. apply silent_bind; [apply silent_inp|].
  intros v. apply silent_bind; [done|]. intros vs. apply silent_ret.
Qed.

(** A card that writes no memory while the driver waits for it. *)
Definition patient : Prop := forall m d, (card_run m d).1 = m.

Lemma silent_spin_at_most n c : patient -> silent c -> silent (spin_at_most n c).
Proof.
  intros Hp Hc. induction n as [|n IH]; cbn [spin_at_most]; [apply silent_ret|]. apply silent_bind; [done|].
  intros [|]; [apply silent_ret|]. apply silent_bind; [|done]. intros s. unfold spin.
  specialize (Hp (nic_mem s) (nic_card s)). destruct (card_run _ _) as [m d]. cbn in Hp. subst m. by eexists _, _.
Qed.

Lemma silent_inv {A} (c : M (nic D) A) s a s' :
  silent c -> c s = Ret (a, s') -> nic_heap s' = nic_heap s /\ nic_mem s' = nic_mem s.
Proof. intros Hc E. destruct (Hc s) as (b & s1 & E1 & H1 & M1). rewrite E1 in E. by injection E as _ <-. Qed.

Lemma silent_quiet {A} ds (c : M (nic D) A) : silent c -> quiet ds c.
Proof. intros Hc s Hs. destruct (Hc s) as (b & s1 & E1 & H1 & M1). exists b, s1. by rewrite M1. Qed.

(** What a store that succeeds does. *)
Lemma store_inv p b (s : nic D) a s' :
  store p b s = Ret (a, s') -> nic_heap s' = nic_heap s /\ patched (nic_mem s) p b (nic_mem s').
Proof.
  unfold store. intros E. inv_bind E. injection E as _ <-. cbn in *. split; [done|]. by apply store_bytes_patched.
Qed.

Lemma quiet_for_each {A} ds (f : A -> M (nic D) unit) l :
  (forall x, x ∈ l -> quiet ds (f x)) -> quiet ds (for_each f l).
Proof.
  intros Hf. induction l as [|x l IH]; cbn [for_each]; [apply quiet_ret|].
  apply quiet_bind; [apply Hf; left|]. intros _. apply IH. intros y Hy. apply Hf. by right.
Qed.

(** A loop that sets up descriptors: turn [i] establishes [P i] and changes memory
    only at the addresses [R i] of its descriptor. *)
Lemma for_each_setup (f : nat -> M (nic D) unit) (P : nat -> mem -> Prop) (R : nat -> Z -> Prop) n k s a s' :
  (forall i s a s', f i s = Ret (a, s') ->
     P i (nic_mem s') /\ forall x, ~ R i x -> nic_mem s' !! x = nic_mem s !! x) ->
  (forall i m m', (forall x, R i x -> m' !! x = m !! x) -> P i m -> P i m') ->
  (forall i j x, i <> j -> R i x -> ~ R j x) ->
  for_each f (seq k n) s = Ret (a, s') ->
  (forall i, (k <= i < k + n)%nat -> P i (nic_mem s')) /\
  (forall x, (forall i, (k <= i < k + n)%nat -> ~ R i x) -> nic_mem s' !! x = nic_mem s !! x).
Proof.
  intros Hf Hst Hap. revert k s. induction n as [|n IH]; intros k s E; cbn [seq for_each] in E.
  { injection E as _ <-. split; [lia|done]. }
  apply M_bind_inv in E as (b & s1 & E1 & E). destruct (Hf _ _ _ _ E1) as [Hp Ho]. destruct (IH _ _ E) as [Hq Hr]. split.
  - intros i Hi. destruct (decide (i = k)) as [->|]; [|apply Hq; lia]. eapply Hst; [|exact Hp]. intros x Hx. apply Hr.
    intros j Hj. apply (Hap k); [lia|done].
  - intros x Hx. rewrite Hr; [apply Ho, Hx; lia|]. intros i Hi. apply Hx. lia.
Qed.

End silent.

Create HintDb quiet discriminated.
#[export] Hint Constants Opaque : quiet.
#[export] Hint Resolve quiet_ret quiet_inp quiet_out quiet_spin quiet_spin_at_most quiet_inp_all quiet_load
  quiet_store quiet_store_le : quiet.

Create HintDb silent discriminated.
#[export] Hint Constants Opaque : silent.
#[export] Hint Resolve silent_ret silent_inp silent_out silent_inp_all : silent.

(** Pass over the register accesses at the head of a run [E], which leave heap and
    memory as they are. *)
Ltac skip_silent E :=
  repeat (let a := fresh "v" in let s := fresh "s" in let E1 := fresh "E1" in
          let Eh := fresh "Eh" in let Em := fresh "Em" in
          apply M_bind_inv in E as (a & s & E1 & E);
          apply silent_inv in E1 as [Eh Em]; [|solve [auto with silent]]).

(** Walk through a sequence of accesses. *)
Ltac solve_quiet :=
  repeat first
    [ solve [auto with quiet]
    | match goal with |- quiet _ (mbind _ _) => apply quiet_bind; [|intros ?] end
    | match goal with |- quiet _ (spin_at_most _ _) => apply quiet_spin_at_most end
    | match goal with |- quiet _ (if ?b then _ else _) => destruct b end
    | match goal with |- quiet _ (match ?x with _ => _ end) => destruct x end ].

(** ** Loads and stores that succeed *)
Section access.

Context {D : Type} `{Card D}.

Lemma load_le_ok p n (s : nic D) v :
  bytes_at (nic_mem s) p (le_bytes n v) -> 0 <= v < 2 ^ (8 * Z.of_nat n) -> load_le p n s = Ret (v, s).
Proof.
  intros Hb Hv. apply load_bytes_ok in Hb. rewrite le_bytes_length in Hb. unfold load_le, load, mbind, M_bind_inst.
  cbn [st_mem nic_heap_state]. rewrite Hb. cbn [mbind outcome_bind_inst outcome_bind mret M_ret_inst].
  by rewrite le_word_bytes, Z.mod_small.
Qed.

Lemma load_byte_ok p (s : nic D) v : nic_mem s !! p = Some v -> load_le p 1 s = Ret (v, s).
Proof.
  intros Hb. unfold load_le, load, mbind, M_bind_inst. cbn [st_mem nic_heap_state load_bytes]. unfold load8. rewrite Hb.
  cbn [deref mbind outcome_bind_inst outcome_bind mret M_ret_inst le_word]. by rewrite Z.mul_0_r, Z.add_0_r.
Qed.

Lemma spin_until_now fuel (c : M (nic D) bool) s : c s = Ret (true, s) -> spin_until (S fuel) c s = Ret (tt, s).
Proof. intros E. cbn [spin_until]. by rewrite (M_bind_Ret _ _ _ _ _ E). Qed.

(** A chain of stores. *)
Lemma store_run (p : Z) (l : list Z) (s : nic D) :
  within (dom (nic_mem s)) p (length l) ->
  exists m, store p l s = Ret (tt, mkNic (nic_heap s) m (nic_card s) (nic_log s)) /\ patched (nic_mem s) p l m /\ dom m = dom (nic_mem s).
Proof.
  intros Hw. destruct (store_bytes_ok (nic_mem s) p l) as (m & Es & Hp); [by apply within_mapped|].
  exists m. unfold store. cbn [st_mem nic_heap_state]. rewrite Es. split; [done|]. split; [done|]. by eapply store_bytes_dom.
Qed.

End access.

(** ** A card at rest

    All registers read as 0, memory is left alone. *)
#[export] Program Instance still_card : Card unit := {|
  card_in := fun _ _ d => (0, d);
  card_out := fun _ _ _ d => d;
  card_run := fun m d => (m, d)
|}.
Next Obligation. done. Qed.

Lemma still_answers fuel w p f : (0 < fuel)%nat -> f 0 = true -> answers (D := unit) fuel w p f.
Proof. intros Hf E m d. exists O. split; [done|]. cbn. unfold wrap. by rewrite Zmod_0_l. Qed.

(** A driver's state before anything is done. *)
Definition demo_nic : nic unit := mkNic (init_heap 4096) demo_mem tt [].

Lemma demo_nic_ready : heap_ready 4096 demo_nic [(HEAP_SIZE - BLOCK_HEADER, true)].
Proof. constructor; [apply init_heap_inv; exact base_ok_4096|exact demo_mem_array]. Qed.

