(* ===== verification/Rings.v ===== *)
(** * Rings: descriptor rings shared with a network card

    The rings of 32 descriptors of [e1000.rs] and [pcnet.rs]: the order in which
    card and driver go round, the memory of the rings and their buffers, and the
    invariant that the filled receive descriptors are a queue between the two. *)

From S2P Require Import Prelude Memory Heap Blocks Nic.

Local Open Scope Z_scope.

(** ** Rings of 32 descriptors

    The card fills descriptors and the driver empties them, both in ring order: from
    the driver's position on, the filled descriptors hold a queue.  What
    "filled" and "empty" mean is up to the card. *)
Definition slot (cur j : nat) : nat := ((cur + j) mod 32)%nat.

Lemma slot_bound cur j : (slot cur j < 32)%nat.
Proof. apply Nat.mod_upper_bound. lia. Qed.

Lemma slot_slot cur i j : slot (slot cur i) j = slot cur (i + j).
Proof. unfold slot. rewrite Nat.Div0.add_mod_idemp_l. f_equal. lia. Qed.

Lemma slot_inj cur i j : (i < 32)%nat -> (j < 32)%nat -> slot cur i = slot cur j -> i = j.
Proof.
  unfold slot. intros Hi Hj E. pose proof (Nat.div_mod (cur + i) 32). pose proof (Nat.div_mod (cur + j) 32).
  pose proof (Nat.mod_upper_bound (cur + i) 32). lia.
Qed.

Lemma slot_0 cur : (cur < 32)%nat -> slot cur 0 = cur.
Proof. intros Hc. unfold slot. rewrite Nat.add_0_r. by apply Nat.mod_small. Qed.

Record ring_queue {A} (full : nat -> A -> Prop) (free : nat -> Prop) (cur : nat) (q : list A) : Prop := {
  rq_cur : (cur < 32)%nat;
  rq_len : (length q <= 32)%nat;
  rq_full j f : q !! j = Some f -> full (slot cur j) f;
  rq_free j : (length q <= j < 32)%nat -> free (slot cur j)
}.

Lemma ring_empty {A} (full : nat -> A -> Prop) (free : nat -> Prop) :
  (forall i, (i < 32)%nat -> free i) -> ring_queue full free 0 [].
Proof. intros Hf. constructor; [lia|cbn; lia|done|]. intros j Hj. apply Hf, slot_bound. Qed.

(** Emptying the current descriptor. *)
Lemma ring_pop {A} full free (full' : nat -> A -> Prop) (free' : nat -> Prop) cur f q :
  ring_queue full free cur (f :: q) -> free' cur ->
  (forall i g, (i < 32)%nat -> i <> cur -> full i g -> full' i g) ->
  (forall i, (i < 32)%nat -> i <> cur -> free i -> free' i) ->
  ring_queue full' free' (slot cur 1) q.
Proof.
  intros [Hc Hl Hf He] Hcur Hkf Hke. cbn [length] in *.
  assert (forall j, (0 < j < 32)%nat -> slot cur j <> cur) as Hne.
  { intros j Hj E. rewrite <- (slot_0 cur Hc) in E at 2. apply slot_inj in E; lia. }
  constructor; [apply slot_bound|lia| |].
  - intros j g Hj. rewrite slot_slot. pose proof (lookup_lt_Some _ _ _ Hj).
    apply Hkf; [apply slot_bound|apply Hne; lia|by apply Hf].
  - intros j Hj. rewrite slot_slot. destruct (decide (j = 31%nat)) as [->|].
    + replace (slot cur (1 + 31)) with cur; [done|]. unfold slot. replace (cur + (1 + 31))%nat with (cur + 1 * 32)%nat by lia.
      rewrite Nat.Div0.mod_add. symmetry. by apply Nat.mod_small.
    + apply Hke; [apply slot_bound|apply Hne; lia|apply He; lia].
Qed.

(** Filling the first free one. *)
Lemma ring_push {A} full free (full' : nat -> A -> Prop) (free' : nat -> Prop) cur q f :
  ring_queue full free cur q -> (length q < 32)%nat -> full' (slot cur (length q)) f ->
  (forall i g, (i < 32)%nat -> i <> slot cur (length q) -> full i g -> full' i g) ->
  (forall i, (i < 32)%nat -> i <> slot cur (length q) -> free i -> free' i) ->
  ring_queue full' free' cur (q ++ [f]).
Proof.
  intros [Hc Hl Hf He] Hroom Hnew Hkf Hke.
  assert (forall j, (j < 32)%nat -> j <> length q -> slot cur j <> slot cur (length q)) as Hne.
  { intros j Hj Hn E. apply slot_inj in E; lia. }
  constructor; [done|rewrite length_app; cbn; lia| |].
  - intros j g Hj. destruct (decide (j < length q)%nat) as [Hlt|Hge].
    + rewrite lookup_app_l in Hj by done. apply Hkf; [apply slot_bound|apply Hne; lia|by apply Hf].
    + pose proof (lookup_lt_Some _ _ _ Hj) as Hb. rewrite length_app in Hb. cbn in Hb.
      replace j with (length q) in * by lia. rewrite list_lookup_middle in Hj by done. by injection Hj as <-.
  - intros j Hj. rewrite length_app in Hj. cbn in Hj. apply Hke; [apply slot_bound|apply Hne; lia|apply He; lia].
Qed.

(** A step that touches no descriptor of the ring. *)
Lemma ring_keep {A} full free (full' : nat -> A -> Prop) (free' : nat -> Prop) cur q :
  ring_queue full free cur q ->
  (forall i g, (i < 32)%nat -> full i g -> full' i g) -> (forall i, (i < 32)%nat -> free i -> free' i) ->
  ring_queue full' free' cur q.
Proof.
  intros [Hc Hl Hf He] Hkf Hke. constructor; [done|done| |].
  - intros j f Hj. apply Hkf; [apply slot_bound|by apply Hf].
  - intros j Hj. apply Hke; [apply slot_bound|by apply He].
Qed.

(** ** The memory of two rings

    A receive and a send ring, each with one buffer per descriptor; a descriptor
    takes [dsz] bytes and a buffer [bsz]. *)
Record rings := mkRings { rg_rx : Z; rg_tx : Z; rg_rxb : list Z; rg_txb : list Z }.

Section layout.

Context (dsz bsz : Z) (Hdsz : 0 <= dsz).

Definition rx_slot (r : rings) (i : nat) : Z := rg_rx r + dsz * Z.of_nat i.
Definition tx_slot (r : rings) (i : nat) : Z := rg_tx r + dsz * Z.of_nat i.

Definition buffer_regions (r : rings) : list (Z * Z) :=
  ((fun b => (b, bsz)) <$> rg_rxb r) ++ ((fun b => (b, bsz)) <$> rg_txb r).

Definition ring_regions (r : rings) : list (Z * Z) :=
  (rg_rx r, dsz * 32) :: (rg_tx r, dsz * 32) :: buffer_regions r.

(** Rings and buffers lie apart in the memory [ds]. *)
Record layout (ds : gset Z) (r : rings) : Prop := {
  lay_rx : length (rg_rxb r) = 32%nat;
  lay_tx : length (rg_txb r) = 32%nat;
  lay_apart : apart (ring_regions r);
  lay_within : Forall (fun p => within ds p.1 (Z.to_nat p.2)) (ring_regions r)
}.

(** [x] lies in receive descriptor [i] or in its buffer. *)
Definition in_slot (r : rings) (i : nat) (x : Z) : Prop :=
  rx_slot r i <= x < rx_slot r i + dsz \/ exists b, rg_rxb r !! i = Some b /\ b <= x < b + bsz.

Lemma ring_regions_starts r : (ring_regions r).*1 = rg_rx r :: rg_tx r :: rg_rxb r ++ rg_txb r.
Proof.
  unfold ring_regions, buffer_regions. cbn. do 2 f_equal. rewrite fmap_app, <- !list_fmap_compose. f_equal; apply list_fmap_id.
Qed.

Lemma slot_in_ring i : (i < 32)%nat -> 0 <= dsz * Z.of_nat i /\ dsz * Z.of_nat i + dsz <= dsz * 32.
Proof. nia. Qed.

Lemma descs_apart i j : i <> j -> dsz * Z.of_nat i + dsz <= dsz * Z.of_nat j \/ dsz * Z.of_nat j + dsz <= dsz * Z.of_nat i.
Proof. nia. Qed.

Context (ds : gset Z) (r : rings) (Hlay : layout ds r).

Lemma region_rx i b : rg_rxb r !! i = Some b -> ring_regions r !! (2 + i)%nat = Some (b, bsz).
Proof.
  intros Hb. change (buffer_regions r !! i = Some (b, bsz)). unfold buffer_regions.
  rewrite lookup_app_l; [by rewrite list_lookup_fmap, Hb|]. rewrite length_fmap. by eapply lookup_lt_Some.
Qed.

Lemma region_tx i b : rg_txb r !! i = Some b -> ring_regions r !! (34 + i)%nat = Some (b, bsz).
Proof.
  intros Hb. change (buffer_regions r !! (32 + i)%nat = Some (b, bsz)). unfold buffer_regions.
  rewrite lookup_app_r; rewrite length_fmap, (lay_rx _ _ Hlay); [|lia].
  replace (32 + i - 32)%nat with i by lia. by rewrite list_lookup_fmap, Hb.
Qed.

(** A buffer and a descriptor share no address. *)
Lemma rx_desc_buffer i k b : (i < 32)%nat -> (1 < k)%nat -> ring_regions r !! k = Some (b, bsz) ->
  b + bsz <= rx_slot r i \/ rx_slot r i + dsz <= b.
Proof.
  intros Hi Hk Hb. pose proof (slot_in_ring i Hi).
  destruct (lay_apart _ _ Hlay 0%nat k (rg_rx r) (dsz * 32) b bsz); [lia|done|done|..]; unfold rx_slot; lia.
Qed.

Lemma tx_desc_buffer i k b : (i < 32)%nat -> (1 < k)%nat -> ring_regions r !! k = Some (b, bsz) ->
  b + bsz <= tx_slot r i \/ tx_slot r i + dsz <= b.
Proof.
  intros Hi Hk Hb. pose proof (slot_in_ring i Hi).
  destruct (lay_apart _ _ Hlay 1%nat k (rg_tx r) (dsz * 32) b bsz); [lia|done|done|..]; unfold tx_slot; lia.
Qed.

(** Different receive slots share no address. *)
Lemma slots_apart i j x : (i < 32)%nat -> (j < 32)%nat -> i <> j -> in_slot r i x -> ~ in_slot r j x.
Proof.
  intros Hi Hj Hij [Hx|(b & Hb & Hx)] [Hy|(c & Hc & Hy)].
  - pose proof (descs_apart i j Hij). unfold rx_slot in *. lia.
  - apply region_rx in Hc. apply (rx_desc_buffer i) in Hc; lia.
  - apply region_rx in Hb. apply (rx_desc_buffer j) in Hb; lia.
  - apply region_rx in Hb, Hc. assert (2 + i <> 2 + j)%nat as Hne by lia. destruct (lay_apart _ _ Hlay _ _ _ _ _ _ Hne Hb Hc); lia.
Qed.

(** A send descriptor or a send buffer shares no address with a receive slot. *)
Lemma tx_desc_apart i j x : (i < 32)%nat -> (j < 32)%nat -> in_slot r i x -> ~ tx_slot r j <= x < tx_slot r j + dsz.
Proof.
  intros Hi Hj [Hx|(b & Hb & Hx)] Hy.
  - pose proof (slot_in_ring i Hi). pose proof (slot_in_ring j Hj). unfold rx_slot, tx_slot in *.
    destruct (lay_apart _ _ Hlay 0%nat 1%nat (rg_rx r) (dsz * 32) (rg_tx r) (dsz * 32)); [done|done|done|..]; lia.
  - apply region_rx in Hb. apply (tx_desc_buffer j) in Hb; lia.
Qed.

Lemma tx_buffer_apart i j b x : (i < 32)%nat -> rg_txb r !! j = Some b -> in_slot r i x -> ~ b <= x < b + bsz.
Proof.
  intros Hi Hb [Hx|(c & Hc & Hx)] Hy; apply region_tx in Hb.
  - apply (rx_desc_buffer i) in Hb; lia.
  - pose proof (lookup_lt_Some _ _ _ Hc) as Hlt. rewrite (lay_rx _ _ Hlay) in Hlt. apply region_rx in Hc.
    assert (2 + i <> 34 + j)%nat as Hne by lia. destruct (lay_apart _ _ Hlay _ _ _ _ _ _ Hne Hc Hb); lia.
Qed.

Lemma rx_desc_within i p n : (i < 32)%nat -> rx_slot r i <= p -> p + Z.of_nat n <= rx_slot r i + dsz -> within ds p n.
Proof.
  intros Hi H1 H2. pose proof (slot_in_ring i Hi). pose proof (lay_within _ _ Hlay) as Hw. unfold ring_regions in Hw.
  apply Forall_cons in Hw as [Hw _]. unfold rx_slot in *. eapply within_sub; [exact Hw|cbn; lia|cbn [fst snd]; lia].
Qed.

Lemma tx_desc_within i p n : (i < 32)%nat -> tx_slot r i <= p -> p + Z.of_nat n <= tx_slot r i + dsz -> within ds p n.
Proof.
  intros Hi H1 H2. pose proof (slot_in_ring i Hi). pose proof (lay_within _ _ Hlay) as Hw. unfold ring_regions in Hw.
  apply Forall_cons in Hw as [_ Hw]. apply Forall_cons in Hw as [Hw _]. unfold tx_slot in *.
  eapply within_sub; [exact Hw|cbn; lia|cbn [fst snd]; lia].
Qed.

Lemma buffer_within k b n : ring_regions r !! k = Some (b, bsz) -> Z.of_nat n <= bsz -> within ds b n.
Proof.
  intros Hk Hn. pose proof (lay_within _ _ Hlay) as Hw. rewrite Forall_lookup in Hw. specialize (Hw _ _ Hk).
  eapply within_sub; [exact Hw|cbn; lia|cbn [fst snd]; lia].
Qed.

(** A slot of the rings: the descriptors can be accessed; each has a buffer apart
    from it, which can be accessed. *)
Definition slot_facts (rxd txd : Z) (rxb txb : list Z) (i : nat) : Prop :=
  (forall p n, rxd <= p -> p + Z.of_nat n <= rxd + dsz -> within ds p n) /\
  (forall p n, txd <= p -> p + Z.of_nat n <= txd + dsz -> within ds p n) /\
  (exists b, rxb !! i = Some b /\ (b + bsz <= rxd \/ rxd + dsz <= b) /\ forall n, Z.of_nat n <= bsz -> within ds b n) /\
  (exists b, txb !! i = Some b /\ (b + bsz <= txd \/ txd + dsz <= b) /\ forall n, Z.of_nat n <= bsz -> within ds b n).

Lemma layout_facts i : (i < 32)%nat -> slot_facts (rx_slot r i) (tx_slot r i) (rg_rxb r) (rg_txb r) i.
Proof.
  intros Hi. split; [intros p n; by apply rx_desc_within|]. split; [intros p n; by apply tx_desc_within|]. split.
  - destruct (lookup_lt_is_Some_2 (rg_rxb r) i) as [b Hb]; [by rewrite (lay_rx _ _ Hlay)|]. exists b. split; [done|].
    apply region_rx in Hb. split; [eapply rx_desc_buffer; [done| |exact Hb]; lia|]. intros n. by eapply buffer_within.
  - destruct (lookup_lt_is_Some_2 (rg_txb r) i) as [b Hb]; [by rewrite (lay_tx _ _ Hlay)|]. exists b. split; [done|].
    apply region_tx in Hb. split; [eapply tx_desc_buffer; [done| |exact Hb]; lia|]. intros n. by eapply buffer_within.
Qed.

End layout.

(** ** The receive ring as a queue

    [full m i f]: in memory [m] descriptor [i] holds [f]; [free m i]: it waits for
    the card.  Both depend on the slot only. *)
Section queue.

Context (dsz bsz : Z) (Hdsz : 0 <= dsz) (r : rings).
Context {A : Type} (full : mem -> nat -> A -> Prop) (free : mem -> nat -> Prop).
Context (full_ext : forall m m' i f, (forall x, in_slot dsz bsz r i x -> m' !! x = m !! x) -> full m i f -> full m' i f).
Context (free_ext : forall m m' i, (forall x, in_slot dsz bsz r i x -> m' !! x = m !! x) -> free m i -> free m' i).
Context (full_free : forall m i f, full m i f -> free m i -> False).

(** The card's part: it fills descriptor [i] and its buffer. *)
Definition delivers (i : nat) (f : A) (m m' : mem) : Prop :=
  full m' i f /\ dom m' = dom m /\ forall x, ~ in_slot dsz bsz r i x -> m' !! x = m !! x.

(** The card has filled the ring with [sent], in order; the driver has taken out
    [taken] and [q] is left; the driver is at [cur]. *)
Record ring_inv (cur : nat) (m : mem) (sent taken q : list A) : Prop := {
  ri_layout : layout dsz bsz (dom m) r;
  ri_queue : ring_queue (full m) (free m) cur q;
  ri_sent : sent = taken ++ q;
  ri_cur : cur = (length taken mod 32)%nat
}.

Lemma ring_inv_new m : layout dsz bsz (dom m) r -> (forall i, (i < 32)%nat -> free m i) -> ring_inv 0 m [] [] [].
Proof. intros Hlay Hf. constructor; [done|by apply ring_empty|done|done]. Qed.

Lemma ring_inv_room cur m sent taken q :
  ring_inv cur m sent taken q -> free m (length sent mod 32) ->
  slot cur (length q) = (length sent mod 32)%nat /\ (length q < 32)%nat.
Proof.
  intros [Hlay Hq Hst Hc] Hf.
  assert (slot cur (length q) = (length sent mod 32)%nat) as Hs.
  { rewrite Hc, Hst, length_app. unfold slot. by rewrite Nat.Div0.add_mod_idemp_l. }
  split; [done|]. pose proof (rq_len _ _ _ _ Hq). destruct (decide (length q = 32%nat)) as [E|]; [|lia].
  exfalso. destruct q as [|g q]; [done|]. apply (full_free m (length sent mod 32) g); [|done].
  rewrite <- Hs, E. replace (slot cur 32) with (slot cur 0); [by apply (rq_full _ _ _ _ Hq)|].
  unfold slot. replace (cur + 32)%nat with (cur + 0 + 1 * 32)%nat by lia. by rewrite Nat.Div0.mod_add.
Qed.

Lemma ring_inv_deliver cur m m' sent taken q f :
  ring_inv cur m sent taken q -> free m (length sent mod 32) -> delivers (length sent mod 32) f m m' ->
  ring_inv cur m' (sent ++ [f]) taken (q ++ [f]).
Proof.
  intros Hi Hf (Hfull & Hd & Hx). destruct (ring_inv_room _ _ _ _ _ Hi Hf) as [Hs Hroom].
  destruct Hi as [Hlay Hq Hst Hc]. rewrite <- Hs in Hfull, Hx. constructor; [by rewrite Hd| |by rewrite Hst, app_assoc|done].
  pose proof (slot_bound cur (length q)) as Hb. apply (ring_push (full m) (free m)); [exact Hq|done|done|..].
  - intros i g Hi Hne Hg. apply (full_ext m); [|done]. intros x Hin. by apply Hx, (slots_apart dsz bsz Hdsz _ _ Hlay i).
  - intros i Hi Hne Hg. apply (free_ext m); [|done]. intros x Hin. by apply Hx, (slots_apart dsz bsz Hdsz _ _ Hlay i).
Qed.

(** The driver takes out the first one. *)
Lemma ring_inv_pop cur m m' sent taken f q :
  ring_inv cur m sent taken (f :: q) -> dom m' = dom m -> free m' cur ->
  (forall x, ~ in_slot dsz bsz r cur x -> m' !! x = m !! x) ->
  ring_inv (slot cur 1) m' sent (taken ++ [f]) q.
Proof.
  intros [Hlay Hq Hst Hc] Hd Hf Hx. pose proof (rq_cur _ _ _ _ Hq) as Hcur.
  constructor; [by rewrite Hd| |by rewrite <- app_assoc|].
  - apply (ring_pop (full m) (free m) _ _ cur f); [exact Hq|done|..].
    + intros i g Hi Hne Hg. apply (full_ext m); [|done]. intros x Hin. by apply Hx, (slots_apart dsz bsz Hdsz _ _ Hlay i).
    + intros i Hi Hne Hg. apply (free_ext m); [|done]. intros x Hin. by apply Hx, (slots_apart dsz bsz Hdsz _ _ Hlay i).
  - rewrite Hc, length_app. unfold slot. by rewrite Nat.Div0.add_mod_idemp_l.
Qed.

(** Changes outside the receive slots. *)
Lemma ring_inv_keep cur m m' sent taken q :
  ring_inv cur m sent taken q -> dom m' = dom m ->
  (forall i x, (i < 32)%nat -> in_slot dsz bsz r i x -> m' !! x = m !! x) -> ring_inv cur m' sent taken q.
Proof.
  intros [Hlay Hq Hst Hc] Hd Hx. constructor; [by rewrite Hd| |done|done]. eapply ring_keep; [exact Hq|..].
  - intros i g Hi Hg. eapply full_ext; [|done]. intros x Hin. by apply (Hx i).
  - intros i Hi Hg. eapply free_ext; [|done]. intros x Hin. by apply (Hx i).
Qed.

(** The current descriptor. *)
Lemma ring_inv_empty cur m sent taken : ring_inv cur m sent taken [] -> free m cur.
Proof.
  intros Hi. pose proof (ri_queue _ _ _ _ _ Hi) as Hq. pose proof (rq_free _ _ _ _ Hq 0 ltac:(cbn; lia)) as Hf.
  by rewrite slot_0 in Hf by apply (rq_cur _ _ _ _ Hq).
Qed.

Lemma ring_inv_head cur m sent taken f q : ring_inv cur m sent taken (f :: q) -> full m cur f.
Proof.
  intros Hi. pose proof (ri_queue _ _ _ _ _ Hi) as Hq. pose proof (rq_full _ _ _ _ Hq 0 f eq_refl) as Hf.
  by rewrite slot_0 in Hf by apply (rq_cur _ _ _ _ Hq).
Qed.

End queue.
