(* ===== verification/Rtl8139.v ===== *)
(** * Rtl8139: the driver of [rtl8139.rs]

    The Realtek RTL8139 is driven through ports.  It writes received packets one
    after the other into a buffer in memory, each with a header of status and
    length, and sends from four buffers in turn.  The driver keeps the offset of
    the next packet and the number of the next send buffer.

    The card is a parameter, see [Nic]; [fuel] bounds the wait for its reset.  The
    serial diagnostics are left out. *)

From S2P Require Import Prelude Memory Heap Blocks Nic.

Local Open Scope Z_scope.

(** ** The code *)
Definition REG_MAC0 : Z := 0x00.
Definition REG_TSD0 : Z := 0x10.
Definition REG_TSAD0 : Z := 0x20.
Definition REG_RBSTART : Z := 0x30.
Definition REG_CMD : Z := 0x37.
Definition REG_CAPR : Z := 0x38.
Definition REG_IMR : Z := 0x3C.
Definition REG_ISR : Z := 0x3E.
Definition REG_TCR : Z := 0x40.
Definition REG_RCR : Z := 0x44.
Definition REG_CONFIG1 : Z := 0x52.

Definition CMD_RESET : Z := 0x10.
Definition CMD_RX_ENABLE : Z := 0x08.
Definition CMD_TX_ENABLE : Z := 0x04.

Definition INT_ROK : Z := 0x01.
Definition INT_TOK : Z := 0x04.
Definition INT_RER : Z := 0x02.
Definition INT_TER : Z := 0x08.

Definition RCR_AAP : Z := 0x01.
Definition RCR_APM : Z := 0x02.
Definition RCR_AM : Z := 0x04.
Definition RCR_AB : Z := 0x08.
Definition RCR_WRAP : Z := 0x80.
Definition RCR_RBLEN_8K : Z := 0x00.
Definition TCR_IFG : Z := 0x03000000.

Definition RX_BUFFER_SIZE : Z := 8192 + 16 + 1500.
Definition TX_BUFFER_SIZE : Z := 1536.

Record Rtl8139Device := mkRtl {
  io_base : Z;
  mac_address : list Z;
  rx_buffer : Z;
  tx_buffers : list Z;
  current_tx : nat;
  rx_offset : Z
}.

Definition with_mac (mac : list Z) (dev : Rtl8139Device) : Rtl8139Device :=
  mkRtl (io_base dev) mac (rx_buffer dev) (tx_buffers dev) (current_tx dev) (rx_offset dev).
Definition with_current_tx (i : nat) (dev : Rtl8139Device) : Rtl8139Device :=
  mkRtl (io_base dev) (mac_address dev) (rx_buffer dev) (tx_buffers dev) i (rx_offset dev).
Definition with_rx_offset (o : Z) (dev : Rtl8139Device) : Rtl8139Device :=
  mkRtl (io_base dev) (mac_address dev) (rx_buffer dev) (tx_buffers dev) (current_tx dev) o.

(** [self.io_base + offset] in 16 bits. *)
Definition port (dev : Rtl8139Device) (offset : Z) : Z := u16 (io_base dev + offset).

(** [((self.rx_offset + length + 4 + 3) & !3) & 0xFFFF], back to the start at the
    end of the buffer. *)
Definition next_offset (off len : Z) : Z :=
  let o := ((u16 (off + len + 4 + 3) .& 0xFFFC) .& 0xFFFF)%W in
  if RX_BUFFER_SIZE <=? o then 0 else o.

Section driver.

Context {D : Type} `{Card D} (fuel : nat).

Definition init (dev : Rtl8139Device) : M (nic D) Rtl8139Device :=
  _ ← out 1 (port dev REG_CONFIG1) 0;
  _ ← out 1 (port dev REG_CMD) CMD_RESET;
  _ ← spin_until fuel (v ← inp 1 (port dev REG_CMD); mret ((v .& CMD_RESET)%W =? 0));
  mac ← inp_all 1 ((fun i => port dev (REG_MAC0 + i)) <$> seqZ 0 6);
  _ ← out 4 (port dev REG_RBSTART) (u32 (rx_buffer dev));
  _ ← inp 4 (port dev REG_RBSTART);
  _ ← out 2 (port dev REG_CAPR) 0xFFF0;
  _ ← out 2 (port dev REG_IMR) (INT_ROK .| INT_TOK .| INT_RER .| INT_TER)%W;
  _ ← out 2 (port dev REG_ISR) 0xFFFF;
  _ ← out 4 (port dev REG_RCR) (RCR_AAP .| RCR_APM .| RCR_AM .| RCR_AB .| RCR_WRAP .| RCR_RBLEN_8K)%W;
  _ ← out 4 (port dev REG_TCR) TCR_IFG;
  _ ← out 1 (port dev REG_CMD) (CMD_RX_ENABLE .| CMD_TX_ENABLE)%W;
  _ ← inp 1 (port dev REG_CMD);
  mret (with_mac mac dev).

Definition new (base : Z) : M (nic D) (option Rtl8139Device) :=
  rx ← kmalloc RX_BUFFER_SIZE;
  if rx =? 0 then mret None
  else
    '(tx, ok) ← alloc_all TX_BUFFER_SIZE 4 [];
    if (ok : bool) then
      dev ← init (mkRtl base (replicate 6 0) rx tx 0 0);
      mret (Some dev)
    else
      _ ← kfree_all (rx :: tx);
      mret None.

Definition get_mac_address (dev : Rtl8139Device) : list Z := mac_address dev.

(** [Result<(), &'static str>]. *)
Definition transmit (dev : Rtl8139Device) (data : list Z) : M (nic D) ((unit + string) * Rtl8139Device) :=
  if TX_BUFFER_SIZE <? Z.of_nat (length data) then mret (inr "Packet too large"%string, dev)
  else
    tx_buffer ← lift (arr_get (tx_buffers dev) (current_tx dev));
    _ ← store tx_buffer data;
    let i := Z.of_nat (current_tx dev) in
    _ ← out 4 (port dev (REG_TSAD0 + i * 4)) (u32 tx_buffer);
    _ ← out 4 (port dev (REG_TSD0 + i * 4)) (Z.of_nat (length data));
    mret (inl tt, with_current_tx ((current_tx dev + 1) mod 4) dev).

(** Move on to the packet behind one of [len] bytes and tell the card. *)
Definition skip_packet (dev : Rtl8139Device) (len : Z) : M (nic D) Rtl8139Device :=
  let o := next_offset (rx_offset dev) len in
  _ ← out 2 (port dev REG_CAPR) (u16 (o - 0x10));
  mret (with_rx_offset o dev).

Definition receive (dev : Rtl8139Device) : M (nic D) (option (list Z) * Rtl8139Device) :=
  cmd ← inp 1 (port dev REG_CMD);
  if negb ((cmd .& 0x01)%W =? 0) then mret (None, dev)
  else
    _ ← inp 2 (port dev REG_CAPR);
    _ ← inp 2 (port dev 0x3A);
    if RX_BUFFER_SIZE <=? rx_offset dev then
      _ ← out 2 (port dev REG_CAPR) 0xFFF0;
      mret (None, with_rx_offset 0 dev)
    else
      let rx_ptr := rx_buffer dev + rx_offset dev in
      header ← load_le rx_ptr 4;
      let status := (header .& 0xFFFF)%W in
      let length := ((header >>. 16) .& 0xFFFF)%W in
      if (status .& 0x01)%W =? 0 then
        dev' ← skip_packet dev (if 0 <? length then length else 4);
        mret (None, dev')
      else if (length <? 4) || (1518 <? length) then
        dev' ← skip_packet dev length;
        mret (None, dev')
      else
        packet ← load (rx_ptr + 4) (Z.to_nat (length - 4));
        dev' ← skip_packet dev length;
        mret (Some packet, dev').

Definition handle_interrupt (dev : Rtl8139Device) : M (nic D) unit :=
  isr ← inp 2 (port dev REG_ISR);
  out 2 (port dev REG_ISR) isr.

(** [Drop]. *)
Definition drop_device (dev : Rtl8139Device) : M (nic D) unit := kfree_all (rx_buffer dev :: tx_buffers dev).

(** The functions for the rest of the kernel; the static [RTL8139_DEVICE] is the
    argument and part of the result.  Assigning it drops its old value. *)
Definition rtl8139_init (st : option Rtl8139Device) (base : Z) : M (nic D) (Z * option Rtl8139Device) :=
  r ← new base;
  match r with
  | Some dev =>
      _ ← match st with Some old => drop_device old | None => mret tt end;
      mret (0, Some dev)
  | None => mret (-1, st)
  end.

Definition rtl8139_get_mac (st : option Rtl8139Device) (mac_out : Z) : M (nic D) unit :=
  match st with
  | Some dev => store mac_out (get_mac_address dev)
  | None => mret tt
  end.

Definition rtl8139_transmit (st : option Rtl8139Device) (data len : Z) : M (nic D) (Z * option Rtl8139Device) :=
  match st with
  | Some dev =>
      slice ← load data (Z.to_nat len);
      '(r, dev') ← transmit dev slice;
      mret (match r with inl _ => 0 | inr _ => -1 end, Some dev')
  | None => mret (-1, None)
  end.

Definition rtl8139_receive (st : option Rtl8139Device) (buffer max_len : Z) : M (nic D) (Z * option Rtl8139Device) :=
  match st with
  | Some dev =>
      '(r, dev') ← receive dev;
      match r with
      | Some packet =>
          let copy_len := Z.min (Z.of_nat (length packet)) max_len in
          _ ← store buffer (take (Z.to_nat copy_len) packet);
          mret (copy_len, Some dev')
      | None => mret (-1, Some dev')
      end
  | None => mret (-1, None)
  end.

Definition rtl8139_handle_interrupt (st : option Rtl8139Device) : M (nic D) unit :=
  match st with Some dev => handle_interrupt dev | None => mret tt end.

End driver.

(** ** Offsets *)
Definition align4 (x : Z) : Z := 4 * ((x + 3) / 4).

Lemma next_offset_raw off len :
  ((u16 (off + len + 4 + 3) .& 0xFFFC) .& 0xFFFF)%W = 4 * (u16 (off + len + 4 + 3) / 4).
Proof.
  pose proof (wrap_range 16 (off + len + 4 + 3)) as Hw.
  change 0xFFFC with (2 ^ 16 - 2 ^ 2). rewrite (land_mask_width 16 2) by lia.
  change 0xFFFF with (2 ^ 16 - 1). rewrite (land_low 16) by lia. change (2 ^ 2) with 4. apply Z.mod_small.
  pose proof (Z.div_mod (u16 (off + len + 4 + 3)) 4). pose proof (Z.mod_pos_bound (u16 (off + len + 4 + 3)) 4).
  pose proof (Z.div_pos (u16 (off + len + 4 + 3)) 4). lia.
Qed.

(** Whatever the length field says, the next offset is a multiple of 4 inside the
    buffer. *)
Lemma next_offset_ok off len : 0 <= next_offset off len <= 9704 /\ (4 | next_offset off len).
Proof.
  unfold next_offset. rewrite next_offset_raw.
  pose proof (Z.div_pos (u16 (off + len + 4 + 3)) 4) as Hp. pose proof (wrap_range 16 (off + len + 4 + 3)) as Hw.
  destruct (Z.leb_spec RX_BUFFER_SIZE (4 * (u16 (off + len + 4 + 3) / 4))) as [Hl|Hl].
  - split; [lia|]. by exists 0.
  - unfold RX_BUFFER_SIZE in Hl. split; [lia|]. exists (u16 (off + len + 4 + 3) / 4). lia.
Qed.

Lemma next_offset_align off len :
  0 <= off -> 0 <= len -> off + 4 + len <= 8192 -> next_offset off len = align4 (off + 4 + len).
Proof.
  intros H1 H2 H3. unfold next_offset. rewrite next_offset_raw, wrap_small by lia. unfold align4.
  replace (off + len + 4 + 3) with (off + 4 + len + 3) by lia.
  pose proof (Z.div_le_upper_bound (off + 4 + len + 3) 4 2049).
  rewrite (proj2 (Z.leb_gt _ _)); [done|]. unfold RX_BUFFER_SIZE. lia.
Qed.

(** ** Well-formed devices *)
Record rtl_ok (dev : Rtl8139Device) : Prop := {
  ok_mac : length (mac_address dev) = 6%nat /\ Forall is_u8 (mac_address dev);
  ok_tx : length (tx_buffers dev) = 4%nat /\ (current_tx dev < 4)%nat;
  ok_rx : 0 <= rx_offset dev <= 9704 /\ (4 | rx_offset dev)
}.

Section facts.

Context {D : Type} `{Card D}.

(** The steps of a device, each in any memory and with any state of the card. *)
Inductive rtl_reach : Rtl8139Device -> Prop :=
| reach_new fuel base s dev s' : new fuel base s = Ret (Some dev, s') -> rtl_reach dev
| reach_transmit dev data s r dev' s' : rtl_reach dev -> transmit dev data s = Ret ((r, dev'), s') -> rtl_reach dev'
| reach_receive dev s r dev' s' : rtl_reach dev -> receive dev s = Ret ((r, dev'), s') -> rtl_reach dev'.

Lemma init_fields fuel dev s dev' s' :
  init fuel dev s = Ret (dev', s') ->
  exists mac, dev' = with_mac mac dev /\ length mac = 6%nat /\ Forall is_u8 mac.
Proof.
  unfold init. intros E. do 3 (apply M_bind_inv in E as (? & ? & _ & E)).
  apply M_bind_inv in E as (mac & ? & Em & E). do 9 (apply M_bind_inv in E as (? & ? & _ & E)).
  injection E as <- _. exists mac. split; [done|]. split; [by apply inp_all_length in Em|by eapply inp_all_bytes].
Qed.

Lemma new_ok fuel base s dev s' : new fuel base s = Ret (Some dev, s') -> rtl_ok dev.
Proof.
  unfold new. intros E. apply M_bind_inv in E as (rx & s1 & _ & E). destruct (rx =? 0); [done|].
  apply M_bind_inv in E as ([tx ok] & s2 & Ea & E). destruct ok.
  - apply M_bind_inv in E as (dev1 & s3 & Ei & E). injection E as <- _.
    apply init_fields in Ei as (mac & -> & Hl & Hb). apply alloc_all_length in Ea. cbn in Ea.
    constructor; cbn; [done|lia|]. split; [lia|]. by exists 0.
  - apply M_bind_inv in E as (? & ? & _ & E). done.
Qed.

Lemma skip_packet_ok dev len s dev' s' :
  rtl_ok dev -> skip_packet dev len s = Ret (dev', s') -> rtl_ok dev'.
Proof.
  intros [H1 H2 H3]. unfold skip_packet. intros E. apply M_bind_inv in E as (? & ? & _ & E). injection E as <- _.
  constructor; [done|done|]. apply next_offset_ok.
Qed.

Lemma receive_keeps dev s r dev' s' : rtl_ok dev -> receive dev s = Ret ((r, dev'), s') -> rtl_ok dev'.
Proof.
  intros Hok. unfold receive. intros E. apply M_bind_inv in E as (cmd & ? & _ & E).
  destruct (negb _); [by injection E as _ <- _|]. do 2 (apply M_bind_inv in E as (? & ? & _ & E)).
  destruct (RX_BUFFER_SIZE <=? _).
  { apply M_bind_inv in E as (? & ? & _ & E). injection E as _ <- _. destruct Hok. constructor; [done|done|].
    split; [cbn; lia|]. by exists 0. }
  apply M_bind_inv in E as (hd & ? & _ & E). cbn zeta in E.
  destruct (_ =? 0); [|destruct (_ || _)]; [| |apply M_bind_inv in E as (? & ? & _ & E)];
    apply M_bind_inv in E as (dev1 & ? & Es & E); injection E as _ <- _; by eapply skip_packet_ok.
Qed.

Lemma transmit_keeps dev data s r dev' s' : rtl_ok dev -> transmit dev data s = Ret ((r, dev'), s') -> rtl_ok dev'.
Proof.
  intros Hok. unfold transmit. destruct (_ <? _); [by intros E; injection E as _ <- _|]. intros E.
  do 4 (apply M_bind_inv in E as (? & ? & _ & E)). injection E as _ <- _. destruct Hok as [H1 [H2 H3] H4].
  constructor; [done| |done]. split; [done|]. apply (Nat.mod_upper_bound (current_tx dev + 1) 4). lia.
Qed.

Lemma rtl_reach_ok dev : rtl_reach dev -> rtl_ok dev.
Proof.
  induction 1; [by eapply new_ok|by eapply transmit_keeps|by eapply receive_keeps].
Qed.

(** ** Packets in the receive buffer *)

(** A packet as the card writes it: status, length with the checksum, frame and
    checksum. *)
Record rx_packet := mkPacket { pk_status : Z; pk_frame : list Z; pk_crc : list Z }.

Definition pk_len (p : rx_packet) : Z := Z.of_nat (length (pk_frame p)) + 4.

Definition pk_bytes (p : rx_packet) : list Z :=
  le_bytes 4 (pk_status p + 65536 * pk_len p) ++ pk_frame p ++ pk_crc p.

(** What the driver makes of it: frames with a good status of at most 1514 bytes
    are passed on. *)
Definition pk_result (p : rx_packet) : option (list Z) :=
  if Z.odd (pk_status p) && (pk_len p <=? 1518) then Some (pk_frame p) else None.

(** The packets [ps] lie one behind the other from offset [off] on, each aligned to
    4, below the end of the card's 8 KiB. *)
Fixpoint pending (m : mem) (buf off : Z) (ps : list rx_packet) : Prop :=
  match ps with
  | [] => True
  | p :: ps' =>
      0 <= pk_status p < 65536 /\ length (pk_crc p) = 4%nat /\ off + 4 + pk_len p <= 8192 /\
      bytes_at m (buf + off) (pk_bytes p) /\ pending m buf (align4 (off + 4 + pk_len p)) ps'
  end.

Fixpoint end_offset (off : Z) (ps : list rx_packet) : Z :=
  match ps with [] => off | p :: ps' => end_offset (align4 (off + 4 + pk_len p)) ps' end.

(** The card reports a packet. *)
Definition has_packets (dev : Rtl8139Device) : Prop :=
  forall d : D, (u8 (card_in 1 (port dev REG_CMD) d).1 .& 0x01)%W = 0.

Lemma inp_eq w p s :
  inp w p s = Ret (wrap (8 * w) (card_in w p (nic_card s)).1,
                   mkNic (nic_heap s) (nic_mem s) (card_in w p (nic_card s)).2
                     (nic_log s ++ [In w p (wrap (8 * w) (card_in w p (nic_card s)).1)])).
Proof. unfold inp. by destruct (card_in w p (nic_card s)). Qed.

Lemma header_fields st len :
  0 <= st < 65536 -> 0 <= len < 65536 ->
  le_word (le_bytes 4 (st + 65536 * len)) = st + 65536 * len /\
  ((st + 65536 * len) .& 0xFFFF)%W = st /\ (((st + 65536 * len) >>. 16) .& 0xFFFF)%W = len.
Proof.
  intros H1 H2. split; [rewrite le_word_bytes; apply Z.mod_small; change (2 ^ (8 * Z.of_nat 4)) with 4294967296; lia|].
  change 0xFFFF with (2 ^ 16 - 1). rewrite !(land_low 16), Z.shiftr_div_pow2 by lia. change (2 ^ 16) with 65536.
  rewrite Z.mul_comm, Z.mod_add, Z.div_add, (Z.div_small st) by lia. rewrite !Z.mod_small by lia. lia.
Qed.

Lemma receive_packet dev s p :
  has_packets dev -> 0 <= rx_offset dev -> 0 <= pk_status p < 65536 -> rx_offset dev + 4 + pk_len p <= 8192 ->
  bytes_at (nic_mem s) (rx_buffer dev + rx_offset dev) (pk_bytes p) ->
  exists s', receive dev s =
      Ret ((pk_result p, with_rx_offset (align4 (rx_offset dev + 4 + pk_len p)) dev), s') /\
    nic_mem s' = nic_mem s /\ nic_heap s' = nic_heap s /\
    last (nic_log s') =
      Some (Out 2 (port dev REG_CAPR) (u16 (align4 (rx_offset dev + 4 + pk_len p) - 0x10))).
Proof.
  intros Hp Ho Hst Hl Hb. assert (0 <= pk_len p < 65536) as Hlen by (unfold pk_len in *; lia).
  destruct (header_fields _ _ Hst Hlen) as (Ew & E1 & E2). unfold pk_bytes in Hb.
  apply bytes_at_app in Hb as [Hh Hb]. apply bytes_at_app in Hb as [Hf _]. apply load_bytes_ok in Hh, Hf.
  rewrite le_bytes_length in Hh, Hf. change (Z.of_nat 4) with 4 in Hf.
  unfold receive. unfold mbind, M_bind_inst. rewrite inp_eq. cbn [outcome_bind]. change (8 * 1) with 8. rewrite Hp.
  cbn [Z.eqb negb]. rewrite inp_eq. cbn [outcome_bind]. rewrite inp_eq. cbn [outcome_bind].
  rewrite (proj2 (Z.leb_gt RX_BUFFER_SIZE (rx_offset dev))) by (unfold RX_BUFFER_SIZE, pk_len in *; lia).
  unfold load_le, load, mbind, M_bind_inst, mret, M_ret_inst. cbn [outcome_bind st_mem nic_heap_state nic_mem].
  rewrite Hh. cbn [mbind outcome_bind_inst outcome_bind]. rewrite Ew, E1, E2.
  rewrite land_1, Zmod_odd.
  unfold pk_result. unfold skip_packet.
  destruct (Z.odd (pk_status p)); cbn [Z.eqb andb].
  - rewrite (proj2 (Z.ltb_ge (pk_len p) 4)) by (unfold pk_len; lia). cbn [orb].
    destruct (Z.ltb_spec 1518 (pk_len p)) as [Hbig|Hbig].
    + rewrite (proj2 (Z.leb_gt _ _)) by lia. rewrite next_offset_align by lia. eexists. split; [reflexivity|]. split; [done|]. split; [done|]. apply last_snoc.
    + rewrite (proj2 (Z.leb_le _ _)) by lia. cbn [nic_mem].
      replace (Z.to_nat (pk_len p - 4)) with (length (pk_frame p)) by (unfold pk_len; lia). rewrite Hf.
      cbn [mbind outcome_bind_inst outcome_bind]. rewrite next_offset_align by lia.
      eexists. split; [reflexivity|]. split; [done|]. split; [done|]. apply last_snoc.
  - rewrite (proj2 (Z.ltb_lt 0 (pk_len p))) by (unfold pk_len; lia). rewrite next_offset_align by lia.
    eexists. split; [reflexivity|]. split; [done|]. split; [done|]. apply last_snoc.
Qed.

(** [n] calls of [receive]. *)
Fixpoint receive_n (n : nat) (dev : Rtl8139Device) : M (nic D) (list (option (list Z)) * Rtl8139Device) :=
  match n with
  | O => mret ([], dev)
  | S n' =>
      '(r, dev') ← receive dev;
      '(rs, dev'') ← receive_n n' dev';
      mret (r :: rs, dev'')
  end.

Lemma align4_nonneg x : 0 <= x -> 0 <= align4 x.
Proof. intros Hx. unfold align4. pose proof (Z.div_pos (x + 3) 4). lia. Qed.

Lemma receive_stream ps dev s :
  has_packets dev -> 0 <= rx_offset dev -> pending (nic_mem s) (rx_buffer dev) (rx_offset dev) ps ->
  exists s', receive_n (length ps) dev s =
      Ret ((pk_result <$> ps, with_rx_offset (end_offset (rx_offset dev) ps) dev), s') /\
    nic_mem s' = nic_mem s /\ nic_heap s' = nic_heap s.
Proof.
  revert dev s. induction ps as [|p ps IH]; intros dev s Hp Ho Hpd; cbn [length receive_n fmap list_fmap end_offset].
  { exists s. by destruct dev. }
  destruct Hpd as (Hst & Hc & Hl & Hb & Hpd).
  destruct (receive_packet dev s p Hp Ho Hst Hl Hb) as (s1 & E1 & M1 & H1 & _).
  rewrite (M_bind_Ret _ _ _ _ _ E1). set (dev1 := with_rx_offset _ dev) in *.
  destruct (IH dev1 s1 Hp) as (s2 & E2 & M2 & H2).
  { apply align4_nonneg. unfold pk_len. lia. }
  { rewrite M1. exact Hpd. }
  rewrite (M_bind_Ret _ _ _ _ _ E2). exists s2. split; [done|]. by rewrite M2, M1, H2, H1.
Qed.

(** ** Running in mapped memory *)
Lemma quiet_init ds fuel dev :
  answers (D := D) fuel 1 (port dev REG_CMD) (fun v => (v .& CMD_RESET)%W =? 0) -> quiet ds (init fuel dev).
Proof.
  intros Ha. unfold init. do 2 (apply quiet_bind; [apply quiet_out|intros _]).
  apply quiet_bind; [by apply quiet_spin_until|intros _]. solve_quiet.
Qed.

Lemma quiet_skip ds dev len : quiet ds (skip_packet dev len).
Proof. unfold skip_packet. solve_quiet. Qed.

(** The farthest byte [receive] reads is 11221 bytes behind the start of the
    buffer. *)
Lemma quiet_receive ds dev :
  rtl_ok dev -> within ds (rx_buffer dev) (Z.to_nat 11222) -> quiet ds (receive dev).
Proof.
  intros [_ _ [Ho _]] Hw. unfold receive. apply quiet_bind; [apply quiet_inp|intros cmd].
  destruct (negb _); [apply quiet_ret|]. do 2 (apply quiet_bind; [apply quiet_inp|intros _]).
  destruct (RX_BUFFER_SIZE <=? _); [solve_quiet|].
  apply quiet_bind.
  { unfold load_le. apply quiet_bind; [|intros b; apply quiet_ret]. apply quiet_load. eapply within_sub; [exact Hw|lia|lia]. }
  intros hd. set (len := ((hd >>. 16) .& 0xFFFF)%W). cbn zeta. destruct (_ =? 0).
  { apply quiet_bind; [apply quiet_skip|intros dev'; apply quiet_ret]. }
  destruct (Z.ltb_spec len 4) as [H4|H4]; cbn [orb].
  { apply quiet_bind; [apply quiet_skip|intros dev'; apply quiet_ret]. }
  destruct (Z.ltb_spec 1518 len) as [H5|H5].
  { apply quiet_bind; [apply quiet_skip|intros dev'; apply quiet_ret]. }
  apply quiet_bind; [apply quiet_load; eapply within_sub; [exact Hw|lia|lia]|intros b].
  apply quiet_bind; [apply quiet_skip|intros dev'; apply quiet_ret].
Qed.

Lemma transmit_ok dev data s b :
  rtl_ok dev -> tx_buffers dev !! current_tx dev = Some b -> mapped (nic_mem s) b (length data) ->
  Z.of_nat (length data) <= TX_BUFFER_SIZE ->
  exists m d, transmit dev data s =
      Ret ((inl tt, with_current_tx ((current_tx dev + 1) mod 4) dev),
           mkNic (nic_heap s) m d (nic_log s ++
             [Out 4 (port dev (REG_TSAD0 + Z.of_nat (current_tx dev) * 4)) (u32 b);
              Out 4 (port dev (REG_TSD0 + Z.of_nat (current_tx dev) * 4)) (Z.of_nat (length data))])) /\
    patched (nic_mem s) b data m.
Proof.
  intros Hok Hb Hm Hl. destruct (store_bytes_ok (nic_mem s) b data Hm) as (m & Es & Hp). unfold transmit.
  rewrite (proj2 (Z.ltb_ge _ _)) by done. unfold arr_get. rewrite Hb. cbn [checked].
  unfold mbind, M_bind_inst, lift. cbn [outcome_bind]. unfold store. cbn [st_mem nic_heap_state]. rewrite Es.
  cbn [mbind outcome_bind_inst outcome_bind]. exists m. eexists. split; [|done].
  unfold out, mret, M_ret_inst. cbn [outcome_bind nic_log nic_heap nic_mem with_hm nic_heap_state st_heap].
  by rewrite <- app_assoc.
Qed.

End facts.

(** ** The blocks of a device *)
(** The memory of a device. *)
Definition regions (dev : Rtl8139Device) : list (Z * Z) :=
  (rx_buffer dev, RX_BUFFER_SIZE) :: ((fun b => (b, TX_BUFFER_SIZE)) <$> tx_buffers dev).

Lemma regions_blocks dev : (regions dev).*1 = rx_buffer dev :: tx_buffers dev.
Proof. unfold regions. cbn. f_equal. rewrite <- list_fmap_compose. apply list_fmap_id. Qed.

Section allocation.

Context {D : Type} `{Card D} (heap_base : Z) (Hbase : base_ok heap_base).

Lemma new_blocks fuel base s segs :
  heap_ready heap_base s segs ->
  answers (D := D) fuel 1 (u16 (base + REG_CMD)) (fun v => (v .& CMD_RESET)%W =? 0) ->
  exists r s' segs', new fuel base s = Ret (r, s') /\ heap_ready heap_base s' segs' /\
    owned heap_base segs' (st_regions regions r) (live heap_base segs).
Proof.
  intros Hr Ha. unfold new. assert (owned heap_base segs [] (live heap_base segs)) as Ho by by apply owned_nil.
  destruct (kmalloc_owned heap_base Hbase RX_BUFFER_SIZE s segs _ _ Hr Ho) as (rx & h1 & segs1 & E1 & Hr1 & Ho1);
    [unfold RX_BUFFER_SIZE; lia..|].
  rewrite (M_bind_Ret _ _ _ _ _ E1). destruct (rx =? 0); [by eexists _, _, segs1|]. set (s1 := with_hm h1 _ s) in *.
  destruct (alloc_all_owned heap_base Hbase TX_BUFFER_SIZE 4 s1 segs1 _ _ Hr1 Ho1) as (bs & ok & h2 & segs2 & E2 & Hr2 & Ho2 & _);
    [unfold TX_BUFFER_SIZE; lia..|].
  rewrite (M_bind_Ret _ _ _ _ _ E2). set (s2 := with_hm h2 _ s1) in *.
  set (dev := mkRtl base (replicate 6 0) rx bs 0 0). eapply (owned_perm _ _ _ (regions dev)) in Ho2; [|by rewrite Permutation_app_comm].
  destruct ok; cbn [negb].
  - destruct (quiet_init (dom (nic_mem s2)) fuel dev Ha s2 eq_refl) as (dev' & s3 & E3 & Hh3 & Hd3).
    rewrite (M_bind_Ret _ _ _ _ _ E3). destruct (init_fields _ _ _ _ _ E3) as (mac & -> & _ & _).
    eexists _, s3, segs2. split; [reflexivity|]. split; [by eapply heap_ready_quiet|done].
  - rewrite <- (app_nil_r (regions dev)) in Ho2.
    destruct (kfree_all_owned heap_base Hbase (rx :: bs) s2 segs2 _ _ _ Hr2 Ho2) as (h3 & segs3 & E3 & Hr3 & Ho3);
      [by rewrite regions_blocks|].
    rewrite (M_bind_Ret _ _ _ _ _ E3). by eexists _, _, segs3.
Qed.

Lemma drop_blocks dev (s : nic D) segs rest :
  heap_ready heap_base s segs -> owned heap_base segs (regions dev) rest ->
  exists s' segs', drop_device dev s = Ret (tt, s') /\ heap_ready heap_base s' segs' /\ live heap_base segs' ≡ₚ rest.
Proof.
  intros Hr Ho. rewrite <- (app_nil_r (regions dev)) in Ho.
  destruct (kfree_all_owned heap_base Hbase (rx_buffer dev :: tx_buffers dev) s segs _ _ _ Hr Ho) as (h & segs' & E & Hr' & Ho');
    [by rewrite regions_blocks|].
  eexists _, segs'. split; [exact E|]. split; [done|by apply owned_nil].
Qed.

End allocation.

(** ** The properties *)

(** What the driver keeps whatever the card does.  After any sequence of [transmit]
    and [receive], each in any memory and with any answers of the card, the address
    of the card is six bytes, there are four send buffers and the next one is among
    them, and the receive offset is a multiple of 4 below 9704.  The length in a
    header is not checked against the end of the buffer: [receive] returns in a
    memory with 11222 bytes from the receive buffer on, 1514 more than the 9708
    bytes that are allocated ([rtl8139_reads_past_buffer] is the case where they are
    missing). *)
Theorem rtl8139_well_formed {D} `{Card D} dev (s : nic D) :
  rtl_reach (D := D) dev -> mapped (nic_mem s) (rx_buffer dev) (Z.to_nat 11222) ->
  (forall b, b ∈ tx_buffers dev -> mapped (nic_mem s) b (Z.to_nat TX_BUFFER_SIZE)) ->
  rtl_ok dev /\ (exists r, receive dev s = Ret r) /\ (forall data, exists r, transmit dev data s = Ret r).
Proof.
  intros Hr Hrx Htx. apply rtl_reach_ok in Hr as Hok. split; [done|]. split.
  - destruct (quiet_receive (dom (nic_mem s)) dev Hok) with (s := s) as (r & s' & E & _); [by apply within_mapped|done|].
    by eexists.
  - intros data. destruct (Z.ltb_spec TX_BUFFER_SIZE (Z.of_nat (length data))) as [Hl|Hl].
    { unfold transmit. rewrite (proj2 (Z.ltb_lt _ _)) by done. by eexists. }
    destruct (lookup_lt_is_Some_2 (tx_buffers dev) (current_tx dev)) as [b Hb]; [destruct (ok_tx _ Hok); lia|].
    destruct (transmit_ok dev data s b Hok Hb) as (m & d & E & _); [|done|by eexists].
    intros i Hi. apply (Htx b); [by eapply list_elem_of_lookup_2|]. lia.
Qed.

Definition demo_rtl : Rtl8139Device := mkRtl 0xC000 (replicate 6 0) 4144 [13904; 15488; 17072; 18656] 0 0.

Lemma demo_rtl_new :
  exists s', new 1 0xC000 (mkNic (init_heap 4096) ∅ tt []) = Ret (Some demo_rtl, s').
Proof. eexists. vm_compute. reflexivity. Qed.

Lemma rtl8139_well_formed_witness : rtl_ok demo_rtl.
Proof.
  destruct demo_rtl_new as [s' E].
  apply (rtl8139_well_formed demo_rtl demo_nic).
  - by eapply reach_new.
  - apply demo_mem_mapped; cbn [rx_buffer demo_rtl]; lia.
  - intros b Hb. apply list_elem_of_In in Hb. cbn [List.In tx_buffers demo_rtl] in Hb.
    apply demo_mem_mapped; [lia|]. unfold TX_BUFFER_SIZE. lia.
Defined.

(** C13. Packets are received in the order and with the contents the card wrote
    them: when the buffer holds the packets [ps] one behind the other, each call of
    [receive] handles one of them, passing on the frames with a good status and of
    at most 1514 bytes without their checksum and skipping the others, and memory
    is left as it is. *)
Theorem rtl8139_receives_stream {D} `{Card D} dev (s : nic D) ps :
  has_packets (D := D) dev -> 0 <= rx_offset dev -> pending (nic_mem s) (rx_buffer dev) (rx_offset dev) ps ->
  exists s', receive_n (length ps) dev s =
      Ret ((pk_result <$> ps, with_rx_offset (end_offset (rx_offset dev) ps) dev), s') /\
    nic_mem s' = nic_mem s /\ nic_heap s' = nic_heap s.
Proof. intros H1 H2 H3. by apply receive_stream. Qed.

Definition demo_packets : list rx_packet :=
  [mkPacket 1 [10; 11; 12] [0; 0; 0; 0]; mkPacket 2 [7] [1; 2; 3; 4]; mkPacket 1 [20; 21] [0; 0; 0; 0]].

Definition demo_rx : nic unit :=
  mkNic (init_heap 4096)
    (poke 4144 (le_bytes 4 (1 + 65536 * 7) ++ [10; 11; 12; 0; 0; 0; 0; 0] ++ le_bytes 4 (2 + 65536 * 5) ++ [7; 1; 2; 3; 4; 0; 0; 0]
                ++ le_bytes 4 (1 + 65536 * 6) ++ [20; 21; 0; 0; 0; 0]) ∅) tt [].

Lemma rtl8139_receives_stream_witness :
  exists s', receive_n 3 demo_rtl demo_rx = Ret (([Some [10; 11; 12]; None; Some [20; 21]], with_rx_offset 36 demo_rtl), s').
Proof.
  destruct (rtl8139_receives_stream demo_rtl demo_rx demo_packets) as (s' & E & _).
  - intros d. reflexivity.
  - cbn. lia.
  - do 3 (split; [cbn; lia|]; split; [reflexivity|]; split; [vm_compute; discriminate|];
          split; [apply bytes_at_load; vm_compute; reflexivity|]). exact I.
  - exists s'. exact E.
Defined.

(** C37. Replacing the device neither leaks nor takes too much: [rtl8139_init]
    returns, given a card that gets out of its reset; on success exactly the five
    blocks of the new device are allocated besides the blocks of others, those of
    the old device being freed; on failure the old device and all blocks are as
    before. *)
Theorem rtl8139_init_blocks {D} `{Card D} heap_base fuel st base (s : nic D) segs rest :
  base_ok heap_base -> heap_ready heap_base s segs ->
  answers (D := D) fuel 1 (u16 (base + REG_CMD)) (fun v => (v .& CMD_RESET)%W =? 0) ->
  owned heap_base segs (st_regions regions st) rest ->
  exists code st' s' segs', rtl8139_init fuel st base s = Ret ((code, st'), s') /\ heap_ready heap_base s' segs' /\
    ((code = 0 /\ exists dev, st' = Some dev /\ owned heap_base segs' (regions dev) rest) \/
     (code = -1 /\ st' = st /\ live heap_base segs' ≡ₚ live heap_base segs)).
Proof.
  intros Hb Hr Ha Ho. apply (replace_device_blocks regions (new fuel base) drop_device); [done|done| |].
  - by apply new_blocks.
  - intros dev. by apply drop_blocks.
Qed.

Lemma rtl8139_init_blocks_witness :
  exists code st' s', rtl8139_init 1 None 0xC000 demo_nic
    = Ret ((code, st'), s').
Proof.
  destruct (rtl8139_init_blocks 4096 1 None 0xC000 demo_nic
    [(HEAP_SIZE - BLOCK_HEADER, true)] []) as (code & st' & s' & _ & E & _); [exact base_ok_4096| | | |by exists code, st', s'].
  - exact demo_nic_ready.
  - apply still_answers; [lia|reflexivity].
  - by apply owned_nil.
Defined.

(** Sending takes the four buffers in turn: a packet of at most 1536 bytes is
    copied into the current buffer and nowhere else, the card is told the address
    and then the length in the registers of that buffer, and the next buffer becomes
    the current one; a longer packet is refused without any effect.  No register is
    read, so a buffer is used again after four packets whether or not the card has
    sent it. *)
Theorem rtl8139_transmit_sends {D} `{Card D} dev (s : nic D) data b :
  rtl_ok dev -> tx_buffers dev !! current_tx dev = Some b -> mapped (nic_mem s) b (Z.to_nat TX_BUFFER_SIZE) ->
  if TX_BUFFER_SIZE <? Z.of_nat (length data)
  then transmit dev data s = Ret ((inr "Packet too large"%string, dev), s)
  else exists m d, transmit dev data s =
      Ret ((inl tt, with_current_tx ((current_tx dev + 1) mod 4) dev),
           mkNic (nic_heap s) m d (nic_log s ++
             [Out 4 (port dev (REG_TSAD0 + Z.of_nat (current_tx dev) * 4)) (u32 b);
              Out 4 (port dev (REG_TSD0 + Z.of_nat (current_tx dev) * 4)) (Z.of_nat (length data))])) /\
    patched (nic_mem s) b data m.
Proof.
  intros Hok Hb Hm. destruct (Z.ltb_spec TX_BUFFER_SIZE (Z.of_nat (length data))) as [Hl|Hl].
  - unfold transmit. by rewrite (proj2 (Z.ltb_lt _ _)) by done.
  - apply transmit_ok; [done|done| |done]. intros i Hi. apply Hm. lia.
Qed.

Lemma rtl8139_transmit_sends_witness :
  exists m d, transmit demo_rtl [1; 2; 3] demo_nic =
    Ret ((inl tt, with_current_tx 1 demo_rtl),
         mkNic (init_heap 4096) m d [Out 4 0xC020 13904; Out 4 0xC010 3]) /\ patched demo_mem 13904 [1; 2; 3] m.
Proof.
  apply (rtl8139_transmit_sends demo_rtl demo_nic [1; 2; 3] 13904).
  - constructor; [|cbn; lia|split; [cbn; lia|by exists 0]]. split; [done|]. cbn. repeat (constructor; [unfold is_u8; lia|]). constructor.
  - reflexivity.
  - apply demo_mem_mapped; unfold TX_BUFFER_SIZE; lia.
Defined.

(** The card is configured for 8 KiB and starts over behind them; the driver does
    not: behind a packet that reaches the end of the 8 KiB it goes on reading at
    the offset where the packet ended, up to 1500 bytes later. *)
Theorem rtl8139_passes_ring_end off len :
  0 <= off < 8192 -> 0 <= len <= 1510 -> 8192 <= off + 4 + len -> (4 | off) -> 8192 <= next_offset off len.
Proof.
  intros H1 H2 H3 [k ->]. unfold next_offset. rewrite next_offset_raw, wrap_small by lia.
  pose proof (Z.div_mod (k * 4 + len + 4 + 3) 4). pose proof (Z.mod_pos_bound (k * 4 + len + 4 + 3) 4).
  destruct (Z.leb_spec RX_BUFFER_SIZE (4 * ((k * 4 + len + 4 + 3) / 4))) as [Hl|Hl]; unfold RX_BUFFER_SIZE in *; lia.
Qed.

Lemma rtl8139_passes_ring_end_witness : 8192 <= next_offset 8160 64.
Proof. apply (rtl8139_passes_ring_end 8160 64); [lia|lia|lia|by exists 2040]. Defined.

(** The length of a packet is not checked against the end of the buffer: with the
    offset at its last word, [receive] reads up to 1514 bytes behind it. *)
Theorem rtl8139_reads_past_buffer :
  receive (mkRtl 0xC000 (replicate 6 0) 4096 [0; 0; 0; 0] 0 9704)
    (mkNic (init_heap 4096) (poke 13800 (le_bytes 4 (1 + 65536 * 1518)) (blank 4096 (Z.to_nat RX_BUFFER_SIZE))) tt []) = Fault.
Proof. vm_compute. reflexivity. Qed.
