(* ===== verification/E1000.v ===== *)
(** * E1000: the driver of [e1000.rs]

    The Intel E1000 has memory-mapped registers and two rings of 32 descriptors in
    memory.  A receive descriptor names a buffer; the card fills it, sets the length
    and the bit "descriptor done", and goes on to the next one.  The driver takes
    the packets out in the same order and hands the descriptors back.

    The descriptors are read and written field by field at their packed offsets.
    [fuel] bounds the wait for a free send descriptor.  The serial diagnostics are
    left out. *)

From S2P Require Import Prelude Memory Heap Blocks Nic Rings.

Local Open Scope Z_scope.

(** ** The code *)
Definition REG_CTRL : Z := 0x00000.
Definition REG_EEPROM : Z := 0x00014.
Definition REG_IMASK : Z := 0x000D0.
Definition REG_RCTRL : Z := 0x00100.
Definition REG_RXDESCLO : Z := 0x02800.
Definition REG_RXDESCHI : Z := 0x02804.
Definition REG_RXDESCLEN : Z := 0x02808.
Definition REG_RXDESCHEAD : Z := 0x02810.
Definition REG_RXDESCTAIL : Z := 0x02818.
Definition REG_TCTRL : Z := 0x00400.
Definition REG_TXDESCLO : Z := 0x03800.
Definition REG_TXDESCHI : Z := 0x03804.
Definition REG_TXDESCLEN : Z := 0x03808.
Definition REG_TXDESCHEAD : Z := 0x03810.
Definition REG_TXDESCTAIL : Z := 0x03818.
Definition REG_TIPG : Z := 0x00410.

Definition CTRL_ASDE : Z := 0x00000020.
Definition CTRL_SLU : Z := 0x00000040.
Definition CTRL_RST : Z := 0x04000000.

Definition RCTL_EN : Z := 0x00000002.
Definition RCTL_SBP : Z := 0x00000004.
Definition RCTL_UPE : Z := 0x00000008.
Definition RCTL_MPE : Z := 0x00000010.
Definition RCTL_BAM : Z := 0x00008000.
Definition RCTL_BSIZE : Z := 0x00030000.
Definition RCTL_SECRC : Z := 0x04000000.

Definition TCTL_EN : Z := 0x00000002.
Definition TCTL_PSP : Z := 0x00000008.

Definition DESC_STATUS_DD : Z := 0x01.

Definition NUM_RX_DESC : nat := 32.
Definition NUM_TX_DESC : nat := 32.

(** [RxDescriptor] and [TxDescriptor]: 16 bytes, [addr] at 0, [length] at 8, [cmd]
    (send only) at 11, [status] at 12. *)
Definition DESC_SIZE : Z := 16.
Definition D_ADDR : Z := 0.
Definition D_LENGTH : Z := 8.
Definition D_CMD : Z := 11.
Definition D_STATUS : Z := 12.

Definition BUF_SIZE : Z := 2048.

Record E1000Device := mkE1000 {
  mem_base : Z;
  mac_address : list Z;
  rx_descs : Z;
  tx_descs : Z;
  rx_buffers : list Z;
  tx_buffers : list Z;
  rx_current : nat;
  tx_current : nat;
  rx_storage : Z;
  tx_storage : Z
}.

Definition with_mac (mac : list Z) (dev : E1000Device) : E1000Device :=
  mkE1000 (mem_base dev) mac (rx_descs dev) (tx_descs dev) (rx_buffers dev) (tx_buffers dev) (rx_current dev) (tx_current dev)
    (rx_storage dev) (tx_storage dev).
Definition with_rx_current (i : nat) (dev : E1000Device) : E1000Device :=
  mkE1000 (mem_base dev) (mac_address dev) (rx_descs dev) (tx_descs dev) (rx_buffers dev) (tx_buffers dev) i (tx_current dev)
    (rx_storage dev) (tx_storage dev).
Definition with_tx_current (i : nat) (dev : E1000Device) : E1000Device :=
  mkE1000 (mem_base dev) (mac_address dev) (rx_descs dev) (tx_descs dev) (rx_buffers dev) (tx_buffers dev) (rx_current dev) i
    (rx_storage dev) (tx_storage dev).

Definition rx_desc (dev : E1000Device) (i : nat) : Z := rx_descs dev + DESC_SIZE * Z.of_nat i.
Definition tx_desc (dev : E1000Device) (i : nat) : Z := tx_descs dev + DESC_SIZE * Z.of_nat i.

(** [self.mem_base + offset as u64]. *)
Definition reg (dev : E1000Device) (offset : Z) : Z := u64 (mem_base dev + offset).

(** The six bytes of three little-endian words. *)
Definition word_bytes (w : Z) : list Z := [(w .& 0xFF)%W; ((w >>. 8) .& 0xFF)%W].

(** The address taken from [mem_base] when the card has none. *)
Definition synthetic_mac (seed : Z) : list Z :=
  [0x02; 0xAA; (seed .& 0xFF)%W; ((seed >>. 8) .& 0xFF)%W; ((seed >>. 16) .& 0xFF)%W; ((seed >>. 24) .& 0xFF)%W].

Definition all_zero (mac : list Z) : bool := forallb (fun b => b =? 0) mac.

Section driver.

Context {D : Type} `{Card D} (fuel : nat).

Definition read_reg (dev : E1000Device) (offset : Z) : M (nic D) Z := inp 4 (reg dev offset).
Definition write_reg (dev : E1000Device) (offset value : Z) : M (nic D) unit := out 4 (reg dev offset) value.

Fixpoint eeprom_loop (dev : E1000Device) (n : nat) : M (nic D) Z :=
  match n with
  | O => mret 0
  | S n' =>
      val ← read_reg dev REG_EEPROM;
      if negb ((val .& 0x10)%W =? 0) then mret ((val >>. 16) .& 0xFFFF)%W else eeprom_loop dev n'
  end.

Definition read_eeprom (dev : E1000Device) (addr : Z) : M (nic D) Z :=
  _ ← write_reg dev REG_EEPROM (1 .| (addr <<. 8))%W;
  eeprom_loop dev 1000.

(** From the EEPROM, else from the receive address registers, else made up. *)
Definition read_mac (dev : E1000Device) : M (nic D) (list Z) :=
  mac0 ← read_eeprom dev 0;
  mac1 ← read_eeprom dev 1;
  mac2 ← read_eeprom dev 2;
  let mac := word_bytes mac0 ++ word_bytes mac1 ++ word_bytes mac2 in
  if negb (all_zero mac) then mret mac
  else
    ral0 ← read_reg dev 0x5400;
    rah0 ← read_reg dev 0x5404;
    let mac := [(ral0 .& 0xFF)%W; ((ral0 >>. 8) .& 0xFF)%W; ((ral0 >>. 16) .& 0xFF)%W; ((ral0 >>. 24) .& 0xFF)%W;
                (rah0 .& 0xFF)%W; ((rah0 >>. 8) .& 0xFF)%W] in
    mret (if all_zero mac then synthetic_mac (mem_base dev) else mac).

Definition setup_rx (dev : E1000Device) (i : nat) : M (nic D) unit :=
  b ← lift (arr_get (rx_buffers dev) i);
  _ ← store_le (rx_desc dev i + D_ADDR) 8 b;
  store_le (rx_desc dev i + D_STATUS) 1 0.

Definition setup_tx (dev : E1000Device) (i : nat) : M (nic D) unit :=
  b ← lift (arr_get (tx_buffers dev) i);
  _ ← store_le (tx_desc dev i + D_ADDR) 8 b;
  _ ← store_le (tx_desc dev i + D_STATUS) 1 DESC_STATUS_DD;
  store_le (tx_desc dev i + D_CMD) 1 0.

Definition init (dev : E1000Device) : M (nic D) E1000Device :=
  ctrl ← read_reg dev REG_CTRL;
  _ ← write_reg dev REG_CTRL (ctrl .| CTRL_RST)%W;
  _ ← spin_at_most 1000 (v ← read_reg dev REG_CTRL; mret ((v .& CTRL_RST)%W =? 0));
  mac ← read_mac dev;
  ctrl ← read_reg dev REG_CTRL;
  _ ← write_reg dev REG_CTRL (ctrl .| CTRL_SLU .| CTRL_ASDE)%W;
  _ ← for_each (fun i => write_reg dev (0x5200 + i * 4) 0) (seqZ 0 128);
  _ ← write_reg dev REG_IMASK 0;
  _ ← read_reg dev 0xC0;
  _ ← for_each (setup_rx dev) (seq 0 NUM_RX_DESC);
  _ ← write_reg dev REG_RXDESCLO (u32 (rx_descs dev));
  _ ← write_reg dev REG_RXDESCHI (u32 (rx_descs dev >>. 32)%W);
  _ ← write_reg dev REG_RXDESCLEN (Z.of_nat NUM_RX_DESC * DESC_SIZE);
  _ ← write_reg dev REG_RXDESCHEAD 0;
  _ ← write_reg dev REG_RXDESCTAIL (Z.of_nat NUM_RX_DESC - 1);
  _ ← for_each (setup_tx dev) (seq 0 NUM_TX_DESC);
  _ ← write_reg dev REG_TXDESCLO (u32 (tx_descs dev));
  _ ← write_reg dev REG_TXDESCHI (u32 (tx_descs dev >>. 32)%W);
  _ ← write_reg dev REG_TXDESCLEN (Z.of_nat NUM_TX_DESC * DESC_SIZE);
  _ ← write_reg dev REG_TXDESCHEAD 0;
  _ ← write_reg dev REG_TXDESCTAIL 0;
  _ ← write_reg dev REG_RCTRL (RCTL_EN .| RCTL_SBP .| RCTL_UPE .| RCTL_MPE .| RCTL_BAM .| RCTL_BSIZE .| RCTL_SECRC)%W;
  _ ← write_reg dev REG_TCTRL (TCTL_EN .| TCTL_PSP .| (15 <<. 4) .| (64 <<. 12))%W;
  _ ← write_reg dev REG_TIPG 0x0060200A;
  mret (with_mac mac dev).

(** The part of [new] after the rings are allocated: the packet buffers. *)
Definition e1000_buffers (base rxd txd : Z) : M (nic D) (option E1000Device) :=
  '(rx, ok) ← alloc_push BUF_SIZE NUM_RX_DESC vec_new;
  if negb ok then
    _ ← kfree_into rx;
    _ ← kfree_all [rxd; txd];
    mret None
  else
    '(tx, ok) ← alloc_push BUF_SIZE NUM_TX_DESC vec_new;
    if negb ok then
      _ ← kfree_into rx;
      _ ← kfree_into tx;
      _ ← kfree_all [rxd; txd];
      mret None
    else
      dev ← init (mkE1000 base (replicate 6 0) rxd txd (v_items rx) (v_items tx) 0 0 (v_ptr rx) (v_ptr tx));
      mret (Some dev).

Definition new (base : Z) : M (nic D) (option E1000Device) :=
  rxd ← kmalloc (DESC_SIZE * Z.of_nat NUM_RX_DESC);
  txd ← kmalloc (DESC_SIZE * Z.of_nat NUM_TX_DESC);
  if (rxd =? 0) || (txd =? 0) then
    _ ← (if negb (rxd =? 0) then kfree rxd else mret tt);
    _ ← (if negb (txd =? 0) then kfree txd else mret tt);
    mret None
  else e1000_buffers base rxd txd.

Definition get_mac_address (dev : E1000Device) : list Z := mac_address dev.

Definition transmit (dev : E1000Device) (data : list Z) : M (nic D) ((unit + string) * E1000Device) :=
  if BUF_SIZE <? Z.of_nat (length data) then mret (inr "Packet too large"%string, dev)
  else
    let desc := tx_desc dev (tx_current dev) in
    _ ← spin_until fuel (st ← load_le (desc + D_STATUS) 1; mret (negb ((st .& DESC_STATUS_DD)%W =? 0)));
    b ← lift (arr_get (tx_buffers dev) (tx_current dev));
    _ ← store b data;
    _ ← store_le (desc + D_LENGTH) 2 (Z.of_nat (length data));
    _ ← store_le (desc + D_CMD) 1 0x0B;
    _ ← store_le (desc + D_STATUS) 1 0;
    let next := ((tx_current dev + 1) mod NUM_TX_DESC)%nat in
    _ ← write_reg dev REG_TXDESCTAIL (Z.of_nat next);
    mret (inl tt, with_tx_current next dev).

Definition receive (dev : E1000Device) : M (nic D) (option (list Z) * E1000Device) :=
  let desc := rx_desc dev (rx_current dev) in
  st ← load_le (desc + D_STATUS) 1;
  if (st .& DESC_STATUS_DD)%W =? 0 then mret (None, dev)
  else
    len ← load_le (desc + D_LENGTH) 2;
    b ← lift (arr_get (rx_buffers dev) (rx_current dev));
    packet ← load b (Z.to_nat len);
    _ ← store_le (desc + D_STATUS) 1 0;
    _ ← write_reg dev REG_RXDESCTAIL (Z.of_nat (rx_current dev));
    mret (Some packet, with_rx_current ((rx_current dev + 1) mod NUM_RX_DESC) dev).

(** [Drop], and then the two vectors. *)
Definition drop_device (dev : E1000Device) : M (nic D) unit :=
  kfree_all (rx_buffers dev ++ tx_buffers dev ++ [rx_descs dev; tx_descs dev; rx_storage dev; tx_storage dev]).

(** The functions for the rest of the kernel, with the static [E1000_DEVICE]. *)
Definition e1000_init (st : option E1000Device) (base : Z) : M (nic D) (Z * option E1000Device) :=
  r ← new base;
  match r with
  | Some dev =>
      _ ← match st with Some old => drop_device old | None => mret tt end;
      mret (0, Some dev)
  | None => mret (-1, st)
  end.

Definition e1000_get_mac (st : option E1000Device) (mac_out : Z) : M (nic D) unit :=
  match st with
  | Some dev => store mac_out (get_mac_address dev)
  | None => mret tt
  end.

Definition e1000_transmit (st : option E1000Device) (data len : Z) : M (nic D) (Z * option E1000Device) :=
  match st with
  | Some dev =>
      slice ← load data (Z.to_nat len);
      '(r, dev') ← transmit dev slice;
      mret (match r with inl _ => 0 | inr _ => -1 end, Some dev')
  | None => mret (-1, None)
  end.

Definition e1000_receive (st : option E1000Device) (buffer max_len : Z) : M (nic D) (Z * option E1000Device) :=
  match st with
  | Some dev =>
      '(r, dev') ← receive dev;
      match r with
      | Some packet =>
          let copy_len := Z.min (Z.of_nat (length packet)) max_len in
          _ ← store buffer (take (Z.to_nat copy_len) packet);
          mret (copy_len, Some dev')
      | None => mret (-1, Some dev')
      end
  | None => mret (-1, None)
  end.

End driver.

(** ** The memory of a device *)
Definition rings_of (dev : E1000Device) : rings :=
  mkRings (rx_descs dev) (tx_descs dev) (rx_buffers dev) (tx_buffers dev).

Definition regions (dev : E1000Device) : list (Z * Z) := ring_regions DESC_SIZE BUF_SIZE (rings_of dev).

(** The blocks of a device: the rings, the buffers, and the blocks of the two vectors,
    each of which has at least 32 pointers in it. *)
Definition device_blocks (dev : E1000Device) : list (Z * Z) := regions dev ++ [(rx_storage dev, 256); (tx_storage dev, 256)].

Definition dev_layout (ds : gset Z) (dev : E1000Device) : Prop := layout DESC_SIZE BUF_SIZE ds (rings_of dev).

Definition dev_slot (dev : E1000Device) (i : nat) (x : Z) : Prop := in_slot DESC_SIZE BUF_SIZE (rings_of dev) i x.

(** A receive descriptor that holds a frame, and one that waits for one. *)
Definition full (dev : E1000Device) (m : mem) (i : nat) (f : list Z) : Prop :=
  Z.of_nat (length f) <= BUF_SIZE /\
  (exists st, m !! (rx_desc dev i + D_STATUS) = Some st /\ (st .& DESC_STATUS_DD)%W <> 0) /\
  bytes_at m (rx_desc dev i + D_LENGTH) (le_bytes 2 (Z.of_nat (length f))) /\
  exists b, rx_buffers dev !! i = Some b /\ bytes_at m b f.

Definition free (dev : E1000Device) (m : mem) (i : nat) : Prop :=
  exists st, m !! (rx_desc dev i + D_STATUS) = Some st /\ (st .& DESC_STATUS_DD)%W = 0.

Lemma desc_size_nonneg : 0 <= DESC_SIZE.
Proof. unfold DESC_SIZE. lia. Qed.

Lemma full_ext dev m m' i f :
  (forall x, dev_slot dev i x -> m' !! x = m !! x) -> full dev m i f -> full dev m' i f.
Proof.
  intros Hx (Hl & (st & Hst & Hdd) & Hlen & b & Hb & Hf).
  assert (forall x, rx_desc dev i <= x < rx_desc dev i + DESC_SIZE -> m' !! x = m !! x) as Hd by (intros x Hin; apply Hx; by left).
  split; [done|]. unfold D_STATUS, D_LENGTH, DESC_SIZE in *. split; [exists st; by rewrite Hd by lia|]. split.
  - eapply bytes_at_ext; [exact Hlen|]. intros x Hin. rewrite le_bytes_length in Hin. apply Hd. lia.
  - exists b. split; [done|]. eapply bytes_at_ext; [exact Hf|]. intros x Hin. apply Hx. right. exists b. split; [done|lia].
Qed.

Lemma free_ext dev m m' i : (forall x, dev_slot dev i x -> m' !! x = m !! x) -> free dev m i -> free dev m' i.
Proof.
  intros Hx (st & Hst & Hdd). exists st. rewrite Hx; [done|]. left. change (rx_slot DESC_SIZE (rings_of dev) i) with (rx_desc dev i).
  unfold D_STATUS, DESC_SIZE. lia.
Qed.

Lemma full_free dev m i f : full dev m i f -> free dev m i -> False.
Proof. intros (_ & (st & H1 & H2) & _) (st' & H3 & H4). congruence. Qed.

Lemma dev_slot_facts ds dev i :
  dev_layout ds dev -> (i < 32)%nat ->
  slot_facts DESC_SIZE BUF_SIZE ds (rx_desc dev i) (tx_desc dev i) (rx_buffers dev) (tx_buffers dev) i.
Proof. intros Hlay. exact (layout_facts _ _ desc_size_nonneg ds (rings_of dev) Hlay i). Qed.

(** ** The operations on the rings *)
Section facts.

Context {D : Type} `{Card D}.

Lemma receive_none dev (s : nic D) : free dev (nic_mem s) (rx_current dev) -> receive dev s = Ret ((None, dev), s).
Proof.
  intros (st & Hst & Hdd). unfold receive. rewrite (M_bind_Ret _ _ _ _ _ (load_byte_ok _ _ _ Hst)). by rewrite Hdd.
Qed.

Lemma receive_some ds dev (s : nic D) f :
  dev_layout ds dev -> dom (nic_mem s) = ds -> (rx_current dev < 32)%nat -> full dev (nic_mem s) (rx_current dev) f ->
  exists m d, receive dev s = Ret ((Some f, with_rx_current (slot (rx_current dev) 1) dev),
      mkNic (nic_heap s) m d (nic_log s ++ [Out 4 (reg dev REG_RXDESCTAIL) (Z.of_nat (rx_current dev))])) /\
    patched (nic_mem s) (rx_desc dev (rx_current dev) + D_STATUS) [0] m.
Proof.
  intros Hlay Hd Hc (Hl & (st & Hst & Hdd) & Hlen & b & Hb & Hf). unfold receive.
  rewrite (M_bind_Ret _ _ _ _ _ (load_byte_ok _ _ _ Hst)), (proj2 (Z.eqb_neq _ 0)) by done.
  unfold BUF_SIZE in Hl.
  rewrite (M_bind_Ret _ _ _ _ _ (load_le_ok _ 2 s (Z.of_nat (length f)) Hlen ltac:(cbn; lia))).
  unfold arr_get. rewrite Hb. cbn [checked]. rewrite Nat2Z.id. apply load_bytes_ok in Hf.
  destruct (store_bytes_ok (nic_mem s) (rx_desc dev (rx_current dev) + D_STATUS) [0]) as (m & Es & Hp).
  { apply within_mapped. rewrite Hd. apply (proj1 (dev_slot_facts ds dev (rx_current dev) Hlay Hc)); [unfold D_STATUS; lia|].
    unfold D_STATUS, DESC_SIZE. cbn. lia. }
  unfold mbind, M_bind_inst, lift. cbn [outcome_bind]. unfold load. cbn [st_mem nic_heap_state]. rewrite Hf.
  cbn [mbind outcome_bind_inst outcome_bind]. unfold store_le, store. cbn [st_mem nic_heap_state le_bytes].
  change (0 mod 256) with 0. rewrite Es. cbn [mbind outcome_bind_inst outcome_bind]. exists m. eexists. by split.
Qed.

(** ** Sending *)
Definition tx_free (dev : E1000Device) (m : mem) (i : nat) : Prop :=
  exists st, m !! (tx_desc dev i + D_STATUS) = Some st /\ (st .& DESC_STATUS_DD)%W <> 0.

Lemma e1000_transmit_ok fuel ds dev (s : nic D) data b :
  dev_layout ds dev -> dom (nic_mem s) = ds -> (tx_current dev < 32)%nat -> tx_buffers dev !! tx_current dev = Some b ->
  tx_free dev (nic_mem s) (tx_current dev) -> Z.of_nat (length data) <= BUF_SIZE ->
  exists m d, transmit (S fuel) dev data s = Ret ((inl tt, with_tx_current (slot (tx_current dev) 1) dev),
      mkNic (nic_heap s) m d (nic_log s ++ [Out 4 (reg dev REG_TXDESCTAIL) (Z.of_nat (slot (tx_current dev) 1))])) /\
    dom m = ds /\ bytes_at m b data /\
    bytes_at m (tx_desc dev (tx_current dev) + D_LENGTH) (le_bytes 2 (Z.of_nat (length data))) /\
    m !! (tx_desc dev (tx_current dev) + D_CMD) = Some 0x0B /\ m !! (tx_desc dev (tx_current dev) + D_STATUS) = Some 0 /\
    forall x, ~ (b <= x < b + BUF_SIZE) -> ~ (tx_desc dev (tx_current dev) <= x < tx_desc dev (tx_current dev) + DESC_SIZE) ->
      m !! x = nic_mem s !! x.
Proof.
  intros Hlay Hd Hc Hb (st & Hst & Hdd) Hl. unfold transmit. rewrite (proj2 (Z.ltb_ge _ _)) by done.
  set (t := tx_desc dev (tx_current dev)) in *.
  assert (b + BUF_SIZE <= t \/ t + DESC_SIZE <= b) as Hbt.
  { destruct (dev_slot_facts ds dev (tx_current dev) Hlay Hc) as (_ & _ & _ & b' & Hb' & Hap & _).
    rewrite Hb in Hb'. by injection Hb' as <-. }
  assert (forall p n, t <= p -> p + Z.of_nat n <= t + DESC_SIZE -> within ds p n) as Hw
    by apply (dev_slot_facts ds dev (tx_current dev) Hlay Hc).
  erewrite M_bind_Ret; [|apply spin_until_now; rewrite (M_bind_Ret _ _ _ _ _ (load_byte_ok _ _ _ Hst));
    rewrite (proj2 (Z.eqb_neq _ 0)) by done; reflexivity].
  unfold arr_get. rewrite Hb. cbn [checked]. erewrite M_bind_Ret; [|reflexivity].
  destruct (store_run b data s) as (m1 & E1 & P1 & D1).
  { rewrite Hd. destruct (dev_slot_facts ds dev (tx_current dev) Hlay Hc) as (_ & _ & _ & b' & Hb' & _ & Hbw).
    rewrite Hb in Hb'. injection Hb' as <-. by apply Hbw. }
  rewrite (M_bind_Ret _ _ _ _ _ E1). unfold store_le.
  destruct (store_run (t + D_LENGTH) (le_bytes 2 (Z.of_nat (length data))) (mkNic (nic_heap s) m1 (nic_card s) (nic_log s)))
    as (m2 & E2 & P2 & D2).
  { cbn [nic_mem]. rewrite D1, Hd, le_bytes_length. apply Hw; unfold D_LENGTH, DESC_SIZE; lia. }
  rewrite (M_bind_Ret _ _ _ _ _ E2). cbn [nic_heap nic_mem nic_card nic_log] in *.
  destruct (store_run (t + D_CMD) (le_bytes 1 0x0B) (mkNic (nic_heap s) m2 (nic_card s) (nic_log s))) as (m3 & E3 & P3 & D3).
  { cbn [nic_mem]. rewrite D2, D1, Hd, le_bytes_length. apply Hw; unfold D_CMD, DESC_SIZE; lia. }
  rewrite (M_bind_Ret _ _ _ _ _ E3). cbn [nic_heap nic_mem nic_card nic_log] in *.
  destruct (store_run (t + D_STATUS) (le_bytes 1 0) (mkNic (nic_heap s) m3 (nic_card s) (nic_log s))) as (m4 & E4 & P4 & D4).
  { cbn [nic_mem]. rewrite D3, D2, D1, Hd, le_bytes_length. apply Hw; unfold D_STATUS, DESC_SIZE; lia. }
  rewrite (M_bind_Ret _ _ _ _ _ E4). cbn [nic_heap nic_mem nic_card nic_log] in *.
  exists m4. eexists. split; [reflexivity|]. split; [by rewrite D4, D3, D2, D1|].
  pose proof (fun x => patched_outside _ _ _ _ x P2) as O2. pose proof (fun x => patched_outside _ _ _ _ x P3) as O3.
  pose proof (fun x => patched_outside _ _ _ _ x P4) as O4. rewrite le_bytes_length in O2, O3, O4.
  unfold D_LENGTH, D_CMD, D_STATUS, DESC_SIZE, BUF_SIZE in *. split.
  { eapply bytes_at_ext; [by eapply bytes_at_patched|]. intros x Hx. rewrite O4, O3, O2; [done|lia..]. }
  split.
  { eapply bytes_at_ext; [by eapply bytes_at_patched|]. rewrite le_bytes_length. intros x Hx. rewrite O4, O3; [done|lia..]. }
  split; [rewrite O4 by lia; by eapply patched_head|].
  split; [by eapply patched_head|].
  intros x H1 H2. rewrite O4, O3, O2 by lia. apply (patched_outside _ _ _ _ _ P1). lia.
Qed.

End facts.

(** ** Initialisation *)
Section init.

Context {D : Type} `{Card D}.

Lemma silent_read_reg dev o : silent (D := D) (read_reg dev o).
Proof. apply silent_inp. Qed.

Lemma silent_write_reg dev o v : silent (D := D) (write_reg dev o v).
Proof. apply silent_out. Qed.

#[local] Hint Resolve silent_read_reg silent_write_reg : silent.

Lemma silent_eeprom_loop dev n : silent (D := D) (eeprom_loop dev n).
Proof.
  induction n as [|n IH]; cbn [eeprom_loop]; [apply silent_ret|]. apply silent_bind; [apply silent_read_reg|].
  intros v. destruct (negb _); [apply silent_ret|done].
Qed.

Lemma silent_read_eeprom dev a : silent (D := D) (read_eeprom dev a).
Proof. apply silent_bind; [apply silent_write_reg|]. intros _. apply silent_eeprom_loop. Qed.

Lemma silent_read_mac dev : silent (D := D) (read_mac dev).
Proof.
  unfold read_mac. do 3 (apply silent_bind; [apply silent_read_eeprom|intros ?]). destruct (negb _); [apply silent_ret|].
  do 2 (apply silent_bind; [apply silent_read_reg|intros ?]). apply silent_ret.
Qed.

Lemma setup_rx_effect dev i (s : nic D) a s' :
  setup_rx dev i s = Ret (a, s') ->
  free dev (nic_mem s') i /\
  forall x, ~ (rx_desc dev i <= x < rx_desc dev i + DESC_SIZE) -> nic_mem s' !! x = nic_mem s !! x.
Proof.
  unfold setup_rx. intros E. apply M_bind_inv in E as (b & s1 & E1 & E).
  assert (s1 = s) as -> by (unfold lift in E1; destruct (arr_get _ _); [by injection E1|done..]).
  apply M_bind_inv in E as (u & s2 & E2 & E). apply store_inv in E2 as [_ P2], E as [_ P3]. split.
  - exists 0. split; [by eapply patched_head|done].
  - intros y Hy. unfold DESC_SIZE, D_ADDR, D_STATUS in *.
    rewrite (patched_outside _ _ _ _ _ P3), (patched_outside _ _ _ _ _ P2); [done| |]; rewrite le_bytes_length; lia.
Qed.

Lemma setup_tx_effect dev i (s : nic D) a s' :
  setup_tx dev i s = Ret (a, s') ->
  tx_free dev (nic_mem s') i /\
  forall x, ~ (tx_desc dev i <= x < tx_desc dev i + DESC_SIZE) -> nic_mem s' !! x = nic_mem s !! x.
Proof.
  unfold setup_tx. intros E. apply M_bind_inv in E as (b & s1 & E1 & E).
  assert (s1 = s) as -> by (unfold lift in E1; destruct (arr_get _ _); [by injection E1|done..]).
  apply M_bind_inv in E as (u & s2 & E2 & E). apply M_bind_inv in E as (? & s3 & E3 & E).
  apply store_inv in E2 as [_ P2], E3 as [_ P3], E as [_ P4]. unfold DESC_SIZE, D_ADDR, D_STATUS, D_CMD in *. split.
  - exists 1. split; [|done]. unfold D_STATUS.
    rewrite (patched_outside _ _ _ _ _ P4) by (rewrite le_bytes_length; lia). by eapply patched_head.
  - intros y Hy.
    rewrite (patched_outside _ _ _ _ _ P4), (patched_outside _ _ _ _ _ P3), (patched_outside _ _ _ _ _ P2);
      [done| | |]; rewrite le_bytes_length; lia.
Qed.

(** After the initialisation every receive descriptor waits for a frame and every
    send descriptor is free. *)
Lemma init_effect ds dev (s : nic D) dev' s' :
  dev_layout ds dev -> init dev s = Ret (dev', s') ->
  (exists mac, dev' = with_mac mac dev) /\
  (forall i, (i < 32)%nat -> free dev (nic_mem s') i) /\ (forall i, (i < 32)%nat -> tx_free dev (nic_mem s') i).
Proof.
  intros Hlay. unfold init. intros E. skip_silent E.
  apply M_bind_inv in E as (? & sa & _ & E). apply M_bind_inv in E as (mac & sb & _ & E). skip_silent E.
  apply M_bind_inv in E as (? & sc & Ec & E). apply silent_inv in Ec as [_ _]; [|apply silent_for_each; auto with silent].
  skip_silent E. apply M_bind_inv in E as (? & sd & Ed & E). skip_silent E.
  apply M_bind_inv in E as (? & se & Ee & E). skip_silent E. injection E as <- Es.
  apply (for_each_setup _ (fun i m => free dev m i) (fun i x => rx_desc dev i <= x < rx_desc dev i + DESC_SIZE)) in Ed as [Hrx _].
  2:{ intros i t a t' Et. by eapply setup_rx_effect. }
  2:{ intros i m m' Hx (st & Hst & Hdd). exists st. rewrite Hx; [done|]. unfold D_STATUS, DESC_SIZE. lia. }
  2:{ intros i j y Hij. unfold rx_desc, DESC_SIZE. lia. }
  apply (for_each_setup _ (fun i m => tx_free dev m i) (fun i x => tx_desc dev i <= x < tx_desc dev i + DESC_SIZE)) in Ee as [Htx Ho].
  2:{ intros i t a t' Et. by eapply setup_tx_effect. }
  2:{ intros i m m' Hx (st & Hst & Hdd). exists st. rewrite Hx; [done|]. unfold D_STATUS, DESC_SIZE. lia. }
  2:{ intros i j y Hij. unfold tx_desc, DESC_SIZE. lia. }
  split; [by eexists|]. assert (nic_mem s' = nic_mem se) as -> by congruence. split.
  - intros i Hi. destruct (Hrx i) as (st & Hst & Hdd); [unfold NUM_RX_DESC; lia|]. exists st. split; [|done].
    rewrite Ho; [by match goal with |- nic_mem ?t !! _ = _ => replace (nic_mem t) with (nic_mem sd) by congruence end|]. intros j Hj.
    apply (tx_desc_apart _ _ desc_size_nonneg _ _ Hlay i); [done|unfold NUM_TX_DESC in *; lia|]. left.
    change (rx_slot DESC_SIZE (rings_of dev) i) with (rx_desc dev i). unfold D_STATUS, DESC_SIZE. lia.
  - intros i Hi. apply Htx. unfold NUM_TX_DESC. lia.
Qed.

Lemma quiet_setup ds dev : dev_layout ds dev -> quiet (D := D) ds (init dev).
Proof.
  intros Hlay. assert (forall p n v, within ds p n -> quiet (D := D) ds (store_le p n v)) as Hst by apply quiet_store_le.
  assert (quiet (D := D) ds (read_mac dev)) as Hmac by apply silent_quiet, silent_read_mac.
  unfold init, read_reg, write_reg. solve_quiet.
  - apply quiet_for_each. auto with quiet.
  - apply quiet_for_each. intros i Hi. apply elem_of_seq in Hi. unfold NUM_RX_DESC in Hi. unfold setup_rx, arr_get.
    destruct (dev_slot_facts ds dev i Hlay ltac:(lia)) as (Hw & _ & (b & -> & _) & _).
    apply quiet_bind; [apply quiet_ret|]. intros c.
    solve_quiet; apply Hst, Hw; unfold D_ADDR, D_STATUS, DESC_SIZE; lia.
  - apply quiet_for_each. intros i Hi. apply elem_of_seq in Hi. unfold NUM_TX_DESC in Hi. unfold setup_tx, arr_get.
    destruct (dev_slot_facts ds dev i Hlay ltac:(lia)) as (_ & Hw & _ & (b & -> & _)).
    apply quiet_bind; [apply quiet_ret|]. intros c.
    solve_quiet; apply Hst, Hw; unfold D_ADDR, D_STATUS, D_CMD, DESC_SIZE; lia.
Qed.

(** An address is six bytes, not all of them 0. *)
Definition mac_ok (mac : list Z) : Prop := length mac = 6%nat /\ Forall is_u8 mac /\ all_zero mac = false.

Lemma read_mac_ok dev (s : nic D) mac s' : read_mac dev s = Ret (mac, s') -> mac_ok mac.
Proof.
  assert (forall x, is_u8 (x .& 0xFF)%W) as Hb by (intros x; unfold is_u8; change 0xFF%Z with (Z.ones 8); rewrite Z.land_ones by lia;
    apply Z.mod_pos_bound; lia).
  unfold read_mac. intros E. apply M_bind_inv in E as (m0 & s0 & _ & E). apply M_bind_inv in E as (m1 & s1 & _ & E).
  apply M_bind_inv in E as (m2 & s2 & _ & E). destruct (all_zero _) eqn:Ez; cbn [negb] in E.
  - apply M_bind_inv in E as (r0 & s3 & _ & E). apply M_bind_inv in E as (r1 & s4 & _ & E). apply mret_inv in E as [<- _].
    match goal with |- mac_ok (if ?b then _ else _) => destruct b eqn:Ey end; (split; [done|]; split; [|done]).
    + repeat (constructor; [first [apply Hb|unfold is_u8; lia]|]). constructor.
    + repeat (constructor; [apply Hb|]). constructor.
  - apply mret_inv in E as [<- _]. split; [done|]. split; [|done]. cbn [app word_bytes]. repeat (constructor; [apply Hb|]). constructor.
Qed.

Lemma init_mac dev (s : nic D) dev' s' : init dev s = Ret (dev', s') -> mac_ok (mac_address dev').
Proof.
  unfold init. intros E. do 3 apply M_bind_inv in E as (? & ? & _ & E). apply M_bind_inv in E as (mac & ? & Em & E).
  do 20 apply M_bind_inv in E as (? & ? & _ & E). apply mret_inv in E as [<- _]. by eapply read_mac_ok.
Qed.

End init.

(** ** Allocation *)
Section allocation.

Context {D : Type} `{Card D} (heap_base : Z) (Hbase : base_ok heap_base).

(** What a new device is like. *)
Record fresh (dev : E1000Device) (m : mem) : Prop := {
  fr_layout : dev_layout (dom m) dev;
  fr_free i : (i < 32)%nat -> free dev m i;
  fr_tx i : (i < 32)%nat -> tx_free dev m i;
  fr_rx_current : rx_current dev = 0%nat;
  fr_tx_current : tx_current dev = 0%nat;
  fr_mac : mac_ok (mac_address dev)
}.

Lemma e1000_init_fresh segs rest base rxd txd rx tx rv tv s :
  heap_ready heap_base s segs -> owned heap_base segs (device_blocks (mkE1000 base (replicate 6 0) rxd txd rx tx 0 0 rv tv)) rest ->
  length rx = 32%nat -> length tx = 32%nat ->
  exists dev s', init (mkE1000 base (replicate 6 0) rxd txd rx tx 0 0 rv tv) s = Ret (dev, s') /\ heap_ready heap_base s' segs /\
    owned heap_base segs (device_blocks dev) rest /\ fresh dev (nic_mem s').
Proof.
  set (dev := mkE1000 _ _ _ _ _ _ _ _ _ _). intros Hr Ho Hrx Htx.
  destruct (owned_regions heap_base s segs _ _ Hr Ho) as [Hap Hin]. apply apart_app_l in Hap. apply Forall_app in Hin as [Hin _].
  assert (dev_layout (dom (nic_mem s)) dev) as Hlay by by constructor.
  destruct (quiet_setup _ dev Hlay s eq_refl) as (dev' & s' & E & Hh & Hd).
  destruct (init_effect _ _ _ _ _ Hlay E) as ((mac & ->) & Hfr & Htf). apply init_mac in E as Hmac.
  exists (with_mac mac dev), s'. split; [done|]. split; [by eapply heap_ready_quiet|]. split; [done|].
  constructor; [|done..]. rewrite Hd. destruct Hlay. by constructor.
Qed.

(** Two full vectors and the rings are the blocks of a device. *)
Lemma e1000_blocks_owned segs base rxd txd rx tx rest :
  vec_ok rx -> vec_ok tx -> length (v_items rx) = 32%nat -> length (v_items tx) = 32%nat ->
  owned heap_base segs (vec_blocks BUF_SIZE tx ++ vec_blocks BUF_SIZE rx ++ [(txd, 512); (rxd, 512)]) rest ->
  owned heap_base segs (device_blocks (mkE1000 base (replicate 6 0) rxd txd (v_items rx) (v_items tx) 0 0 (v_ptr rx) (v_ptr tx))) rest.
Proof.
  intros Hrx Htx Lrx Ltx Ho. unfold vec_blocks in Ho. rewrite <- app_assoc in Ho. apply storage_full in Ho; [|done..].
  apply (owned_perm _ _ _ (storage rx ++ (v_ptr tx, 256) :: ((fun p => (p, BUF_SIZE)) <$> v_items tx) ++
    ((fun p => (p, BUF_SIZE)) <$> v_items rx) ++ [(txd, 512); (rxd, 512)])) in Ho; [|solve_Permutation].
  apply storage_full in Ho; [|done..]. eapply owned_perm; [|exact Ho].
  unfold device_blocks, regions, ring_regions, buffer_regions. cbn. solve_Permutation.
Qed.

(** The buffers of both rings, and what is undone when they cannot be had. *)
Lemma e1000_buffers_blocks base rxd txd (s : nic D) segs rest :
  heap_ready heap_base s segs -> owned heap_base segs [(txd, 512); (rxd, 512)] rest ->
  e1000_buffers base rxd txd s = Panic \/
  exists r s' segs', e1000_buffers base rxd txd s = Ret (r, s') /\ heap_ready heap_base s' segs' /\
    owned heap_base segs' (st_regions device_blocks r) rest /\ match r with Some dev => fresh dev (nic_mem s') | None => True end.
Proof.
  intros Hr Ho. unfold e1000_buffers.
  destruct (alloc_push_owned heap_base Hbase BUF_SIZE NUM_RX_DESC vec_new s segs _ _ Hr Ho vec_new_ok)
    as [E|(rx & ok & h1 & segs1 & E1 & Hr1 & Ho1 & Hv1 & Hn1)]; [by vm_compute..|left; by apply M_bind_Panic|].
  rewrite (M_bind_Ret _ _ _ _ _ E1). set (s1 := with_hm h1 _ s) in *. destruct ok; cbn [negb].
  2:{ right. destruct (kfree_into_owned heap_base Hbase _ rx s1 segs1 _ _ Hr1 Ho1) as (h2 & segs2 & E2 & Hr2 & Ho2).
      rewrite (M_bind_Ret _ _ _ _ _ E2).
      destruct (kfree_all_owned heap_base Hbase [rxd; txd] _ segs2 [(txd, 512); (rxd, 512)] [] _ Hr2 Ho2) as (h3 & segs3 & E3 & Hr3 & Ho3); [apply perm_swap|].
      rewrite (M_bind_Ret _ _ _ _ _ E3). by eexists _, _, segs3. }
  destruct (alloc_push_owned heap_base Hbase BUF_SIZE NUM_TX_DESC vec_new s1 segs1 _ _ Hr1 Ho1 vec_new_ok)
    as [E|(tx & ok & h2 & segs2 & E2 & Hr2 & Ho2 & Hv2 & Hn2)]; [by vm_compute..|left; by apply M_bind_Panic|].
  right. rewrite (M_bind_Ret _ _ _ _ _ E2). set (s2 := with_hm h2 _ s1) in *. destruct ok; cbn [negb].
  - apply (e1000_blocks_owned _ base) in Ho2; [|by auto..].
    destruct (e1000_init_fresh segs2 _ _ _ _ _ _ _ _ _ Hr2 Ho2 (Hn1 eq_refl) (Hn2 eq_refl)) as (dev & s3 & E3 & Hr3 & Ho3 & Hf).
    rewrite (M_bind_Ret _ _ _ _ _ E3). by eexists _, s3, segs2.
  - eapply owned_perm in Ho2; [|apply Permutation_app_swap_app].
    destruct (kfree_into_owned heap_base Hbase _ rx s2 segs2 _ _ Hr2 Ho2) as (h3 & segs3 & E3 & Hr3 & Ho3). rewrite (M_bind_Ret _ _ _ _ _ E3).
    destruct (kfree_into_owned heap_base Hbase _ tx _ segs3 _ _ Hr3 Ho3) as (h4 & segs4 & E4 & Hr4 & Ho4). rewrite (M_bind_Ret _ _ _ _ _ E4).
    destruct (kfree_all_owned heap_base Hbase [rxd; txd] _ segs4 [(txd, 512); (rxd, 512)] [] _ Hr4 Ho4) as (h5 & segs5 & E5 & Hr5 & Ho5); [apply perm_swap|].
    rewrite (M_bind_Ret _ _ _ _ _ E5). by eexists _, _, segs5.
Qed.

Lemma e1000_new_blocks base (s : nic D) segs :
  heap_ready heap_base s segs ->
  new base s = Panic \/
  exists r s' segs', new base s = Ret (r, s') /\ heap_ready heap_base s' segs' /\
    owned heap_base segs' (st_regions device_blocks r) (live heap_base segs) /\
    match r with Some dev => fresh dev (nic_mem s') | None => True end.
Proof.
  intros Hr. unfold new. assert (owned heap_base segs [] (live heap_base segs)) as Ho by by apply owned_nil.
  change (DESC_SIZE * Z.of_nat NUM_RX_DESC) with 512. change (DESC_SIZE * Z.of_nat NUM_TX_DESC) with 512.
  destruct (kmalloc_owned heap_base Hbase 512 s segs _ _ Hr Ho) as (rxd & h1 & segs1 & E1 & Hr1 & Ho1); [lia..|].
  rewrite (M_bind_Ret _ _ _ _ _ E1). set (s1 := with_hm h1 _ s) in *.
  destruct (kmalloc_owned heap_base Hbase 512 s1 segs1 _ _ Hr1 Ho1) as (txd & h2 & segs2 & E2 & Hr2 & Ho2); [lia..|].
  rewrite (M_bind_Ret _ _ _ _ _ E2). set (s2 := with_hm h2 _ s1) in *.
  destruct (rxd =? 0) eqn:Erx; [|destruct (txd =? 0) eqn:Etx]; cbn [orb negb].
  - right. rewrite M_bind_Ret with (a := tt) (s' := s2) by done. destruct (txd =? 0); cbn [negb]; [by eexists _, s2, segs2|].
    destruct (kfree_owned heap_base Hbase _ _ s2 segs2 _ _ Hr2 Ho2) as (h3 & segs3 & E3 & Hr3 & Ho3).
    rewrite (M_bind_Ret _ _ _ _ _ E3). by eexists _, _, segs3.
  - right. destruct (kfree_owned heap_base Hbase _ _ s2 segs2 _ _ Hr2 Ho2) as (h3 & segs3 & E3 & Hr3 & Ho3).
    rewrite (M_bind_Ret _ _ _ _ _ E3). by eexists _, _, segs3.
  - by apply (e1000_buffers_blocks base rxd txd s2 segs2).
Qed.

(** With room for its 68 blocks the device is made; room for a packet is left. *)
Lemma e1000_new_ok base (s : nic D) segs rest :
  heap_ready heap_base s segs -> owned heap_base segs [] rest -> has_room segs 140000 ->
  exists dev s' segs', new base s = Ret (Some dev, s') /\ heap_ready heap_base s' segs' /\ has_room segs' 2048 /\
    owned heap_base segs' (device_blocks dev) rest /\ fresh dev (nic_mem s').
Proof.
  intros Hr Ho Hroom.
  assert (forall n, n <= 140000 -> has_room segs n) as Hle.
  { intros n Hn. eapply Exists_impl; [exact Hroom|]. cbn. intros x [H1 H2]. split; [done|lia]. }
  destruct (kmalloc_grants heap_base Hbase 512 139264 s segs [] rest Hr Ho) as (rxd & h1 & segs1 & E1 & Hrxd & Hr1 & Ho1 & Hroom1); [apply Hle; lia|lia..|].
  set (s1 := with_hm h1 (st_mem s) s) in *.
  destruct (kmalloc_grants heap_base Hbase 512 138688 s1 segs1 _ rest Hr1 Ho1) as (txd & h2 & segs2 & E2 & Htxd & Hr2 & Ho2 & Hroom2); [exact Hroom1|lia..|].
  set (s2 := with_hm h2 (st_mem s1) s1) in *.
  destruct (alloc_push_grants heap_base Hbase 2048 32 vec_new 70368 s2 segs2 _ _ Hr2 Ho2 vec_new_ok)
    as (rx & s3 & segs3 & E3 & _ & Hr3 & Ho3 & Hv3 & Hl3 & Hroom3); [cbn; lia..|exact Hroom2|].
  destruct (alloc_push_grants heap_base Hbase 2048 32 vec_new 2048 s3 segs3 _ _ Hr3 Ho3 vec_new_ok)
    as (tx & s4 & segs4 & E4 & _ & Hr4 & Ho4 & Hv4 & Hl4 & Hroom4); [cbn; lia..|exact Hroom3|].
  apply (e1000_blocks_owned _ base) in Ho4; [|done..].
  destruct (e1000_init_fresh segs4 rest base rxd txd _ _ _ _ s4 Hr4 Ho4 Hl3 Hl4) as (dev & s5 & E5 & Hr5 & Ho5 & Hf).
  exists dev, s5, segs4. split; [|done]. unfold new, e1000_buffers.
  change (DESC_SIZE * Z.of_nat NUM_RX_DESC) with 512. change (DESC_SIZE * Z.of_nat NUM_TX_DESC) with 512.
  rewrite (M_bind_Ret _ _ _ _ _ E1), (M_bind_Ret _ _ _ _ _ E2), (proj2 (Z.eqb_neq rxd 0)), (proj2 (Z.eqb_neq txd 0)) by done. cbn [orb].
  rewrite (M_bind_Ret _ _ _ _ _ E3). cbn [negb]. rewrite (M_bind_Ret _ _ _ _ _ E4). cbn [negb]. rewrite (M_bind_Ret _ _ _ _ _ E5). done.
Qed.



End allocation.

(** ** The driver and the card together

    The frames the card has received so far and those [receive] has returned, over
    every sequence of calls and of moves of the card: the card puts frame number [n]
    into slot [n mod 32] once that slot is free, and marks descriptors as sent. *)
Definition dev_delivers (dev : E1000Device) (i : nat) (f : list Z) (m m' : mem) : Prop :=
  delivers DESC_SIZE BUF_SIZE (rings_of dev) (full dev) i f m m'.

Section run.

Context {D : Type} `{Card D} (heap_base : Z) (Hbase : base_ok heap_base).

Inductive e1000_run : E1000Device -> nic D -> list (list Z) -> list (list Z) -> Prop :=
| run_new base s segs dev s' :
    heap_ready heap_base s segs -> new base s = Ret (Some dev, s') -> e1000_run dev s' [] []
| run_deliver dev s sent got f m d log :
    e1000_run dev s sent got -> free dev (nic_mem s) (length sent mod 32) ->
    dev_delivers dev (length sent mod 32) f (nic_mem s) m ->
    e1000_run dev (mkNic (nic_heap s) m d log) (sent ++ [f]) got
| run_sent dev s sent got i st m d log :
    e1000_run dev s sent got -> (i < 32)%nat -> patched (nic_mem s) (tx_desc dev i + D_STATUS) [st] m ->
    e1000_run dev (mkNic (nic_heap s) m d log) sent got
| run_receive dev s sent got r dev' s' :
    e1000_run dev s sent got -> receive dev s = Ret ((r, dev'), s') -> e1000_run dev' s' sent (got ++ option_list r)
| run_transmit fuel dev s sent got data r dev' s' :
    e1000_run dev s sent got -> tx_free dev (nic_mem s) (tx_current dev) ->
    transmit (S fuel) dev data s = Ret ((r, dev'), s') -> e1000_run dev' s' sent got.

(** The frames in the ring are those received and not yet returned. *)
Definition dev_inv (dev : E1000Device) (m : mem) (sent got q : list (list Z)) : Prop :=
  ring_inv DESC_SIZE BUF_SIZE (rings_of dev) (full dev) (free dev) (rx_current dev) m sent got q /\ (tx_current dev < 32)%nat.

Lemma dev_inv_deliver dev m m' sent got q f :
  dev_inv dev m sent got q -> free dev m (length sent mod 32) -> dev_delivers dev (length sent mod 32) f m m' ->
  dev_inv dev m' (sent ++ [f]) got (q ++ [f]).
Proof.
  intros [Hi Htx] Hf Hd. split; [|done]. eapply ring_inv_deliver; eauto using desc_size_nonneg, full_ext, free_ext, full_free.
Qed.

Lemma dev_inv_receive dev (s : nic D) sent got q :
  dev_inv dev (nic_mem s) sent got q ->
  exists dev' s', receive dev s = Ret ((head q, dev'), s') /\ dev_inv dev' (nic_mem s') sent (got ++ option_list (head q)) (tail q) /\
    nic_heap s' = nic_heap s /\ dom (nic_mem s') = dom (nic_mem s) /\ rings_of dev' = rings_of dev /\
    device_blocks dev' = device_blocks dev.
Proof.
  intros [Hi Htx]. pose proof (ri_layout _ _ _ _ _ _ _ _ _ _ Hi) as Hlay.
  pose proof (rq_cur _ _ _ _ (ri_queue _ _ _ _ _ _ _ _ _ _ Hi)) as Hcur. destruct q as [|f q]; cbn [head tail option_list].
  - rewrite (receive_none dev s (ring_inv_empty _ _ _ _ _ _ _ _ _ Hi)), app_nil_r. by exists dev, s.
  - destruct (receive_some _ dev s f Hlay eq_refl Hcur (ring_inv_head _ _ _ _ _ _ _ _ _ _ _ Hi)) as (m & d & E & Hp).
    assert (dom m = dom (nic_mem s)) as Hd.
    { eapply patched_dom; [|exact Hp]. apply within_mapped, (proj1 (dev_slot_facts _ dev (rx_current dev) Hlay Hcur));
        unfold D_STATUS, DESC_SIZE; cbn [length]; lia. }
    rewrite E. eexists _, _. split; [reflexivity|]. split; [|done]. split; [|done].
    apply (ring_inv_pop _ _ desc_size_nonneg _ _ _ (full_ext dev) (free_ext dev) _ (nic_mem s)); [exact Hi|done|..].
    + exists 0. split; [by eapply patched_head|done].
    + intros x Hx. apply (patched_outside _ _ _ _ _ Hp). cbn [length].
      assert (~ (rx_desc dev (rx_current dev) <= x < rx_desc dev (rx_current dev) + DESC_SIZE)) by (intros ?; apply Hx; by left).
      unfold D_STATUS, DESC_SIZE in *. lia.
Qed.

(** [n] calls of [receive], with their results. *)
Fixpoint receive_n (n : nat) (dev : E1000Device) : M (nic D) (list (option (list Z)) * E1000Device) :=
  match n with
  | O => mret ([], dev)
  | S n' =>
      '(r, dev1) ← receive dev;
      '(rs, dev2) ← receive_n n' dev1;
      mret (r :: rs, dev2)
  end.

Lemma dev_inv_drain q dev (s : nic D) sent got :
  dev_inv dev (nic_mem s) sent got q -> exists dev' s', receive_n (length q) dev s = Ret ((Some <$> q, dev'), s').
Proof.
  revert dev s got. induction q as [|f q IH]; intros dev s got Hi; [by exists dev, s|].
  destruct (dev_inv_receive _ _ _ _ _ Hi) as (dev1 & s1 & E1 & Hi1 & _). destruct (IH _ _ _ Hi1) as (dev2 & s2 & E2).
  exists dev2, s2. cbn [length receive_n]. rewrite (M_bind_Ret _ _ _ _ _ E1), (M_bind_Ret _ _ _ _ _ E2). done.
Qed.

(** Writing to memory apart from the rings. *)
Lemma dev_inv_scratch dev m m' sent got q p n :
  dev_inv dev m sent got q -> apart ((p, n) :: regions dev) -> dom m' = dom m ->
  (forall x, ~ (p <= x < p + n) -> m' !! x = m !! x) -> dev_inv dev m' sent got q.
Proof.
  intros [Hi Htx] Hap Hd Hx. split; [|done]. apply (ring_inv_keep _ _ _ _ _ (full_ext dev) (free_ext dev) _ m); [exact Hi|done|].
  intros i x Hlt Hin. apply Hx. destruct Hin as [Hin|(b & Hb & Hin)].
  - pose proof (slot_in_ring _ desc_size_nonneg i Hlt) as Hs. destruct (Hap 0%nat 1%nat p n (rx_descs dev) (DESC_SIZE * 32)); [done|done|done|..];
      change (rx_slot DESC_SIZE (rings_of dev) i) with (rx_descs dev + DESC_SIZE * Z.of_nat i) in Hin; lia.
  - apply (region_rx DESC_SIZE BUF_SIZE) in Hb. destruct (Hap 0%nat (S (2 + i)) p n b BUF_SIZE); [done|done|exact Hb|lia..].
Qed.

Lemma dev_inv_sent dev m m' sent got q i st :
  dev_inv dev m sent got q -> (i < 32)%nat -> patched m (tx_desc dev i + D_STATUS) [st] m' -> dev_inv dev m' sent got q.
Proof.
  intros [Hi Htx] Hlt Hp. pose proof (ri_layout _ _ _ _ _ _ _ _ _ _ Hi) as Hlay. split; [|done].
  apply (ring_inv_keep _ _ _ _ _ (full_ext dev) (free_ext dev) _ m); [exact Hi|..].
  - eapply patched_dom; [|exact Hp]. apply within_mapped, (proj1 (proj2 (dev_slot_facts _ dev i Hlay Hlt)));
      unfold D_STATUS, DESC_SIZE; cbn [length]; lia.
  - intros k x Hk Hin. apply (patched_outside _ _ _ _ _ Hp). cbn [length].
    pose proof (tx_desc_apart _ _ desc_size_nonneg _ _ Hlay k i x Hk Hlt Hin) as Hn.
    change (tx_slot DESC_SIZE (rings_of dev) i) with (tx_desc dev i) in Hn. unfold D_STATUS, DESC_SIZE in *. lia.
Qed.

Lemma dev_inv_transmit fuel dev s sent got q data r dev' s' :
  dev_inv dev (nic_mem s) sent got q -> tx_free dev (nic_mem s) (tx_current dev) ->
  transmit (S fuel) dev data s = Ret ((r, dev'), s') -> dev_inv dev' (nic_mem s') sent got q.
Proof.
  intros [Hi Htx] Hf E. pose proof (ri_layout _ _ _ _ _ _ _ _ _ _ Hi) as Hlay.
  destruct (Z.ltb_spec BUF_SIZE (Z.of_nat (length data))) as [Hl|Hl].
  { unfold transmit in E. rewrite (proj2 (Z.ltb_lt _ _)) in E by done. apply mret_inv in E as [E <-]. by injection E as _ <-. }
  destruct (dev_slot_facts _ dev (tx_current dev) Hlay Htx) as (_ & _ & _ & b & Hb & _).
  destruct (e1000_transmit_ok fuel _ dev s data b Hlay eq_refl Htx Hb Hf Hl) as (m & d & E1 & Hd & _ & _ & _ & _ & Hx).
  rewrite E1 in E. injection E as _ <- <-. split; [|apply slot_bound].
  apply (ring_inv_keep _ _ _ _ _ (full_ext dev) (free_ext dev) _ (nic_mem s)); [exact Hi|done|].
  intros i x Hi' Hin. apply Hx.
  - by eapply (tx_buffer_apart _ _ desc_size_nonneg _ _ Hlay i (tx_current dev)).
  - by apply (tx_desc_apart _ _ desc_size_nonneg _ _ Hlay i).
Qed.

Lemma fresh_inv dev m : fresh dev m -> dev_inv dev m [] [] [].
Proof.
  intros [Hlay Hf Ht Hc Htx Hmac]. split; [|rewrite Htx; lia]. rewrite Hc. by apply ring_inv_new.
Qed.

Lemma e1000_run_inv dev s sent got : e1000_run dev s sent got -> exists q, dev_inv dev (nic_mem s) sent got q.
Proof.
  induction 1 as [base s segs dev s' Hr E|dev s sent got f m d log _ [q Hi] Hf Hd|dev s sent got i st m d log _ [q Hi] Hlt Hp
                 |dev s sent got r dev' s' _ [q Hi] E|fuel dev s sent got data r dev' s' _ [q Hi] Hf E].
  - destruct (e1000_new_blocks heap_base Hbase base s segs Hr) as [E1|(r & s1 & segs1 & E1 & _ & _ & Hfr)]; rewrite E1 in E; [done|].
    injection E as -> <-. exists []. by apply fresh_inv.
  - exists (q ++ [f]). by eapply dev_inv_deliver.
  - exists q. by eapply dev_inv_sent.
  - exists (tail q). destruct (dev_inv_receive _ _ _ _ _ Hi) as (dev1 & s1 & E1 & Hi1 & _). rewrite E1 in E. by injection E as <- <- <-.
  - exists q. by eapply dev_inv_transmit.
Qed.

End run.

(** ** The properties *)

(** C14. The receive ring is a queue.  Over every sequence of calls of [receive] and
    [transmit] on a new device, with the card putting frames into the ring and
    marking packets as sent in between: the frames [receive] has returned are the
    first of those the card has put into the ring, in order and unchanged; at most
    32 are waiting; the next call of [receive] returns the first one waiting, or
    nothing when there is none; and as many calls as there are frames waiting return
    all of them. *)
Theorem e1000_receives_in_order {D} `{Card D} heap_base dev (s : nic D) sent got :
  base_ok heap_base -> e1000_run heap_base dev s sent got ->
  exists q, sent = got ++ q /\ (length q <= 32)%nat /\
    (exists dev' s', receive dev s = Ret ((head q, dev'), s') /\ e1000_run heap_base dev' s' sent (got ++ option_list (head q))) /\
    (exists dev' s', receive_n (length q) dev s = Ret ((Some <$> q, dev'), s')).
Proof.
  intros Hb Hr. destruct (e1000_run_inv heap_base Hb _ _ _ _ Hr) as [q Hi]. exists q.
  destruct (dev_inv_receive _ _ _ _ _ Hi) as (dev' & s' & E & _). pose proof (dev_inv_drain _ _ _ _ _ Hi) as Hdrain.
  destruct Hi as [[_ Hq Hs _] _]. split; [done|]. split; [apply Hq|]. split; [|done]. exists dev', s'. split; [done|]. by eapply run_receive.
Qed.

(** The card can put any frame that fits into a slot. *)
Lemma can_deliver ds dev i f m :
  dev_layout ds dev -> dom m = ds -> (i < 32)%nat -> Z.of_nat (length f) <= BUF_SIZE -> exists m', dev_delivers dev i f m m'.
Proof.
  intros Hlay Hd Hi Hl. destruct (dev_slot_facts ds dev i Hlay Hi) as (Hw & _ & (b & Hb & Hap & Hbuf) & _).
  destruct (store_bytes_ok m b f) as (m1 & S1 & P1).
  { apply within_mapped. rewrite Hd. by apply Hbuf. }
  apply store_bytes_dom in S1.
  destruct (store_bytes_ok m1 (rx_desc dev i + D_LENGTH) (le_bytes 2 (Z.of_nat (length f)))) as (m2 & S2 & P2).
  { apply within_mapped. rewrite S1, Hd, le_bytes_length. apply Hw; unfold D_LENGTH, DESC_SIZE; lia. }
  apply store_bytes_dom in S2.
  destruct (store_bytes_ok m2 (rx_desc dev i + D_STATUS) [DESC_STATUS_DD]) as (m3 & S3 & P3).
  { apply within_mapped. rewrite S2, S1, Hd. apply Hw; unfold D_STATUS, DESC_SIZE; cbn; lia. }
  apply store_bytes_dom in S3. exists m3.
  pose proof (fun x => patched_outside _ _ _ _ x P1) as O1. pose proof (fun x => patched_outside _ _ _ _ x P2) as O2.
  pose proof (fun x => patched_outside _ _ _ _ x P3) as O3. rewrite le_bytes_length in O2. cbn [length] in O3.
  unfold D_LENGTH, D_STATUS, DESC_SIZE in *. split; [|split; [congruence|]].
  - split; [done|]. split; [exists 1; split; [by eapply patched_head|done]|]. split.
    + eapply bytes_at_ext; [eapply bytes_at_patched, P2|]. intros x. rewrite le_bytes_length. intros Hx. apply O3. unfold D_LENGTH in Hx. lia.
    + exists b. split; [done|]. eapply bytes_at_ext; [eapply bytes_at_patched, P1|]. intros x Hx.
      rewrite O3, O2; [done| |]; lia.
  - intros x Hx. assert (~ (rx_desc dev i <= x < rx_desc dev i + 16)) by (intros ?; apply Hx; by left).
    assert (~ (b <= x < b + BUF_SIZE)) by (intros ?; apply Hx; right; by exists b). rewrite O3, O2, O1; [done|lia..].
Qed.

Lemma demo_e1000_new : exists dev s', new 0xF0000000 demo_nic = Ret (Some dev, s') /\ fresh dev (nic_mem s').
Proof.
  destruct (e1000_new_ok 4096 base_ok_4096 0xF0000000 demo_nic _ [] demo_nic_ready) as (dev & s' & segs' & E & _ & _ & _ & Hf);
    [by apply owned_nil|apply Exists_cons_hd; cbn; unfold HEAP_SIZE, BLOCK_HEADER; lia|].
  exists dev, s'. split; [exact E|exact Hf].
Qed.

(** A new device whose card has received one frame. *)
Lemma demo_e1000_run : exists dev s, e1000_run 4096 dev (s : nic unit) [[1; 2; 3]] [].
Proof.
  destruct demo_e1000_new as (dev & s & E & Hf).
  destruct (can_deliver _ dev 0 [1; 2; 3] (nic_mem s) (fr_layout _ _ Hf) eq_refl) as [m Hd]; [lia|unfold BUF_SIZE; cbn; lia|].
  exists dev, (mkNic (nic_heap s) m tt []). apply (run_deliver 4096 dev s [] [] [1; 2; 3]).
  - eapply run_new; [exact demo_nic_ready|exact E].
  - apply (fr_free _ _ Hf). cbn. lia.
  - exact Hd.
Qed.

Lemma e1000_receives_in_order_witness :
  exists dev (s : nic unit) dev' s', receive dev s = Ret ((Some [1; 2; 3], dev'), s').
Proof.
  destruct demo_e1000_run as (dev & s & Hr).
  destruct (e1000_receives_in_order 4096 dev s _ _ base_ok_4096 Hr) as (q & Hq & _ & (dev' & s' & E & _) & _).
  cbn [app] in Hq. subst q. exists dev, s, dev', s'. exact E.
Defined.



(** C38. Sending a packet of at most 2048 bytes when the current descriptor is free:
    the data is in its buffer, the length in the descriptor with the command "end of
    packet, insert checksum, report status" and the status cleared, nothing else in
    memory is changed, the card is told the next descriptor and that one becomes
    the current one.  A longer packet is refused without any effect. *)
Theorem e1000_transmit_sends {D} `{Card D} ds fuel dev (s : nic D) data b :
  dev_layout ds dev -> dom (nic_mem s) = ds -> (tx_current dev < 32)%nat -> tx_buffers dev !! tx_current dev = Some b ->
  tx_free dev (nic_mem s) (tx_current dev) ->
  if BUF_SIZE <? Z.of_nat (length data)
  then transmit (S fuel) dev data s = Ret ((inr "Packet too large"%string, dev), s)
  else exists m d, transmit (S fuel) dev data s = Ret ((inl tt, with_tx_current (slot (tx_current dev) 1) dev),
      mkNic (nic_heap s) m d (nic_log s ++ [Out 4 (reg dev REG_TXDESCTAIL) (Z.of_nat (slot (tx_current dev) 1))])) /\
    dom m = ds /\ bytes_at m b data /\
    bytes_at m (tx_desc dev (tx_current dev) + D_LENGTH) (le_bytes 2 (Z.of_nat (length data))) /\
    m !! (tx_desc dev (tx_current dev) + D_CMD) = Some 0x0B /\ m !! (tx_desc dev (tx_current dev) + D_STATUS) = Some 0 /\
    forall x, ~ (b <= x < b + BUF_SIZE) -> ~ (tx_desc dev (tx_current dev) <= x < tx_desc dev (tx_current dev) + DESC_SIZE) ->
      m !! x = nic_mem s !! x.
Proof.
  intros Hlay Hd Hc Hb Hf. destruct (Z.ltb_spec BUF_SIZE (Z.of_nat (length data))) as [Hl|Hl].
  - unfold transmit. by rewrite (proj2 (Z.ltb_lt _ _)) by done.
  - by apply e1000_transmit_ok.
Qed.

Lemma e1000_transmit_sends_witness :
  exists dev (s : nic unit) dev' s', transmit 1 dev [1; 2; 3] s = Ret ((inl tt, dev'), s').
Proof.
  destruct demo_e1000_new as (dev & s & _ & [Hlay _ Ht _ Hc _]).
  destruct (dev_slot_facts _ dev 0 Hlay ltac:(lia)) as (_ & _ & _ & b & Hb & _).
  destruct (e1000_transmit_sends _ 0 dev s [1; 2; 3] b Hlay eq_refl) as (m & d & E & _).
  - rewrite Hc. lia.
  - by rewrite Hc.
  - rewrite Hc. apply Ht. lia.
  - eexists dev, s, _, _. exact E.
Defined.

(** A device always has an Ethernet address: whatever the EEPROM and the
    registers answer, the address of a new device is six bytes, not all of them 0. *)
Theorem e1000_has_address {D} `{Card D} base (s : nic D) dev s' :
  new base s = Ret (Some dev, s') ->
  length (get_mac_address dev) = 6%nat /\ Forall is_u8 (get_mac_address dev) /\ exists b, b ∈ get_mac_address dev /\ b <> 0.
Proof.
  intros E. assert (mac_ok (mac_address dev)) as (H1 & H2 & H3).
  { unfold new in E. apply M_bind_inv in E as (rxd & s1 & _ & E). apply M_bind_inv in E as (txd & s2 & _ & E).
    destruct ((rxd =? 0) || (txd =? 0)); [do 2 apply M_bind_inv in E as (? & ? & _ & E); by apply mret_inv in E as [E _]|].
    unfold e1000_buffers in E. apply M_bind_inv in E as ([rx ok] & s3 & _ & E). destruct ok; cbn [negb] in E;
      [|do 2 apply M_bind_inv in E as (? & ? & _ & E); by apply mret_inv in E as [E _]].
    apply M_bind_inv in E as ([tx ok] & s4 & _ & E). destruct ok; cbn [negb] in E;
      [|do 3 apply M_bind_inv in E as (? & ? & _ & E); by apply mret_inv in E as [E _]].
    apply M_bind_inv in E as (dev' & s5 & E & Er). apply mret_inv in Er as [Er _]. injection Er as ->. by eapply init_mac. }
  split; [done|]. split; [done|]. unfold get_mac_address, all_zero in *. clear -H3. induction (mac_address dev) as [|x l IH]; [done|].
  cbn in H3. destruct (Z.eqb_spec x 0) as [->|]; [|exists x; split; [left|done]]. destruct (IH H3) as (b & Hb & Hn). exists b. by split; [right|].
Qed.

Lemma e1000_has_address_witness : exists dev, length (get_mac_address dev) = 6%nat.
Proof.
  destruct demo_e1000_new as (dev & s & E & _). exists dev. exact (proj1 (e1000_has_address 0xF0000000 demo_nic dev s E)).
Defined.
