(* ===== verification/Pcnet.v ===== *)
(** * Pcnet: the driver of [pcnet.rs]

    The AMD PCnet has 16-bit registers behind an address register and two rings of
    32 descriptors in memory; bit 15 of the flags of a descriptor says that it
    belongs to the card.  The driver takes filled receive descriptors out in order,
    passes on those with bit 14 set and hands all of them back.

    The initialisation block and the descriptors are read and written field by
    field at their packed offsets.  [fuel] bounds the wait for a free send
    descriptor.  The serial diagnostics are left out. *)

From S2P Require Import Prelude Memory Heap Blocks Nic Rings.

Local Open Scope Z_scope.

(** ** The code *)
Definition REG_APROM : Z := 0x00.
Definition REG_RDP : Z := 0x10.
Definition REG_RAP : Z := 0x12.
Definition REG_RESET : Z := 0x14.
Definition REG_BDP : Z := 0x16.

Definition CSR_STATUS : Z := 0.
Definition CSR_IADR0 : Z := 1.
Definition CSR_IADR1 : Z := 2.
Definition BCR_SWSTYLE : Z := 20.

Definition STATUS_INIT : Z := 0x0001.
Definition STATUS_STRT : Z := 0x0002.
Definition STATUS_TDMD : Z := 0x0008.
Definition STATUS_INEA : Z := 0x0040.

Definition NUM_RX_DESC : nat := 32.
Definition NUM_TX_DESC : nat := 32.

(** [InitBlock]: packed, 30 bytes. *)
Definition INIT_BLOCK_SIZE : Z := 30.
Definition IB_MODE : Z := 0.
Definition IB_RLEN : Z := 3.
Definition IB_TLEN : Z := 5.
Definition IB_PADR : Z := 6.
Definition IB_LADR : Z := 14.
Definition IB_RDRA : Z := 22.
Definition IB_TDRA : Z := 26.

(** [RxDescriptor] and [TxDescriptor]: packed, 12 bytes. *)
Definition DESC_SIZE : Z := 12.
Definition D_ADDR : Z := 0.
Definition D_FLAGS : Z := 4.
Definition D_BUF_LEN : Z := 6.
Definition D_MSG_LEN : Z := 8.

Definition BUF_SIZE : Z := 1536.

Record PcnetDevice := mkPcnet {
  io_base : Z;
  mac_address : list Z;
  init_block : Z;
  rx_descs : Z;
  tx_descs : Z;
  rx_buffers : list Z;
  tx_buffers : list Z;
  rx_current : nat;
  tx_current : nat;
  rx_storage : Z;
  tx_storage : Z
}.

Definition with_mac (mac : list Z) (dev : PcnetDevice) : PcnetDevice :=
  mkPcnet (io_base dev) mac (init_block dev) (rx_descs dev) (tx_descs dev) (rx_buffers dev) (tx_buffers dev) (rx_current dev) (tx_current dev)
    (rx_storage dev) (tx_storage dev).
Definition with_rx_current (i : nat) (dev : PcnetDevice) : PcnetDevice :=
  mkPcnet (io_base dev) (mac_address dev) (init_block dev) (rx_descs dev) (tx_descs dev) (rx_buffers dev) (tx_buffers dev) i (tx_current dev)
    (rx_storage dev) (tx_storage dev).
Definition with_tx_current (i : nat) (dev : PcnetDevice) : PcnetDevice :=
  mkPcnet (io_base dev) (mac_address dev) (init_block dev) (rx_descs dev) (tx_descs dev) (rx_buffers dev) (tx_buffers dev) (rx_current dev) i
    (rx_storage dev) (tx_storage dev).

Definition rx_desc (dev : PcnetDevice) (i : nat) : Z := rx_descs dev + DESC_SIZE * Z.of_nat i.
Definition tx_desc (dev : PcnetDevice) (i : nat) : Z := tx_descs dev + DESC_SIZE * Z.of_nat i.

(** [self.io_base + offset]. *)
Definition port (dev : PcnetDevice) (offset : Z) : Z := u16 (io_base dev + offset).

Section driver.

Context {D : Type} `{Card D} (fuel : nat).

Definition inw (dev : PcnetDevice) (offset : Z) : M (nic D) Z := inp 2 (port dev offset).
Definition outw (dev : PcnetDevice) (offset value : Z) : M (nic D) unit := out 2 (port dev offset) value.

Definition read_csr (dev : PcnetDevice) (csr : Z) : M (nic D) Z := _ ← outw dev REG_RAP csr; inw dev REG_RDP.
Definition write_csr (dev : PcnetDevice) (csr value : Z) : M (nic D) unit := _ ← outw dev REG_RAP csr; outw dev REG_RDP value.
Definition read_bcr (dev : PcnetDevice) (bcr : Z) : M (nic D) Z := _ ← outw dev REG_RAP bcr; inw dev REG_BDP.
Definition write_bcr (dev : PcnetDevice) (bcr value : Z) : M (nic D) unit := _ ← outw dev REG_RAP bcr; outw dev REG_BDP value.

(** [(32u8).trailing_zeros() << 4]. *)
Definition ring_log : Z := (5 <<. 4)%W.

Definition setup_init_block (dev : PcnetDevice) (mac : list Z) : M (nic D) unit :=
  let ib := init_block dev in
  _ ← store_le (ib + IB_MODE) 2 0;
  _ ← store_le (ib + IB_RLEN) 1 ring_log;
  _ ← store_le (ib + IB_TLEN) 1 ring_log;
  _ ← store (ib + IB_PADR) mac;
  _ ← store (ib + IB_LADR) (replicate 8 0xFF);
  _ ← store_le (ib + IB_RDRA) 4 (u32 (rx_descs dev));
  store_le (ib + IB_TDRA) 4 (u32 (tx_descs dev)).

Definition setup_rx (dev : PcnetDevice) (i : nat) : M (nic D) unit :=
  b ← lift (arr_get (rx_buffers dev) i);
  _ ← store_le (rx_desc dev i + D_ADDR) 4 (u32 b);
  _ ← store_le (rx_desc dev i + D_BUF_LEN) 2 (u16 (-1536));
  _ ← store_le (rx_desc dev i + D_FLAGS) 2 0x8000;
  store_le (rx_desc dev i + D_MSG_LEN) 2 0.

Definition setup_tx (dev : PcnetDevice) (i : nat) : M (nic D) unit :=
  b ← lift (arr_get (tx_buffers dev) i);
  _ ← store_le (tx_desc dev i + D_ADDR) 4 (u32 b);
  _ ← store_le (tx_desc dev i + D_BUF_LEN) 2 0;
  store_le (tx_desc dev i + D_FLAGS) 2 0.

Definition init (dev : PcnetDevice) : M (nic D) PcnetDevice :=
  _ ← inw dev REG_RESET;
  _ ← outw dev REG_RESET 0;
  words ← inp_all 2 ((fun i => port dev (REG_APROM + i * 2)) <$> [0; 1; 2; 3; 4; 5]);
  let mac := (fun w => (w .& 0xFF)%W) <$> words in
  _ ← write_bcr dev BCR_SWSTYLE 2;
  _ ← setup_init_block dev mac;
  _ ← for_each (setup_rx dev) (seq 0 NUM_RX_DESC);
  _ ← for_each (setup_tx dev) (seq 0 NUM_TX_DESC);
  let init_addr := u32 (init_block dev) in
  _ ← write_csr dev CSR_IADR0 (init_addr .& 0xFFFF)%W;
  _ ← write_csr dev CSR_IADR1 ((init_addr >>. 16) .& 0xFFFF)%W;
  _ ← write_csr dev CSR_STATUS STATUS_INIT;
  _ ← spin_at_most 1000 (v ← read_csr dev CSR_STATUS; mret (negb ((v .& STATUS_INIT)%W =? 0)));
  _ ← write_csr dev CSR_STATUS (STATUS_STRT .| STATUS_INEA)%W;
  mret (with_mac mac dev).

(** The part of [new] after the init block and the rings are allocated: the packet
    buffers. *)
Definition pcnet_buffers (base ib rxd txd : Z) : M (nic D) (option PcnetDevice) :=
  '(rx, ok) ← alloc_push BUF_SIZE NUM_RX_DESC vec_new;
  if negb ok then
    _ ← kfree_into rx;
    _ ← kfree_all [ib; rxd; txd];
    mret None
  else
    '(tx, ok) ← alloc_push BUF_SIZE NUM_TX_DESC vec_new;
    if negb ok then
      _ ← kfree_into rx;
      _ ← kfree_into tx;
      _ ← kfree_all [ib; rxd; txd];
      mret None
    else
      dev ← init (mkPcnet base (replicate 6 0) ib rxd txd (v_items rx) (v_items tx) 0 0 (v_ptr rx) (v_ptr tx));
      mret (Some dev).

Definition new (base : Z) : M (nic D) (option PcnetDevice) :=
  ib ← kmalloc INIT_BLOCK_SIZE;
  if ib =? 0 then mret None
  else
    rxd ← kmalloc (DESC_SIZE * Z.of_nat NUM_RX_DESC);
    txd ← kmalloc (DESC_SIZE * Z.of_nat NUM_TX_DESC);
    if (rxd =? 0) || (txd =? 0) then
      _ ← kfree ib;
      _ ← (if negb (rxd =? 0) then kfree rxd else mret tt);
      _ ← (if negb (txd =? 0) then kfree txd else mret tt);
      mret None
    else pcnet_buffers base ib rxd txd.

Definition get_mac_address (dev : PcnetDevice) : list Z := mac_address dev.

Definition transmit (dev : PcnetDevice) (data : list Z) : M (nic D) ((unit + string) * PcnetDevice) :=
  if BUF_SIZE <? Z.of_nat (length data) then mret (inr "Packet too large"%string, dev)
  else
    let desc := tx_desc dev (tx_current dev) in
    _ ← spin_until fuel (flags ← load_le (desc + D_FLAGS) 2; mret ((flags .& 0x8000)%W =? 0));
    b ← lift (arr_get (tx_buffers dev) (tx_current dev));
    _ ← store b data;
    _ ← store_le (desc + D_BUF_LEN) 2 (u16 (- i16 (Z.of_nat (length data))));
    _ ← store_le (desc + D_FLAGS) 2 0x8300;
    v ← read_csr dev CSR_STATUS;
    _ ← write_csr dev CSR_STATUS (v .| STATUS_TDMD)%W;
    mret (inl tt, with_tx_current ((tx_current dev + 1) mod NUM_TX_DESC) dev).

Definition receive (dev : PcnetDevice) : M (nic D) (option (list Z) * PcnetDevice) :=
  let desc := rx_desc dev (rx_current dev) in
  let next := with_rx_current ((rx_current dev + 1) mod NUM_RX_DESC) dev in
  flags ← load_le (desc + D_FLAGS) 2;
  if negb ((flags .& 0x8000)%W =? 0) then mret (None, dev)
  else if (flags .& 0x4000)%W =? 0 then
    _ ← store_le (desc + D_FLAGS) 2 0x8000;
    mret (None, next)
  else
    msg_len ← load_le (desc + D_MSG_LEN) 2;
    b ← lift (arr_get (rx_buffers dev) (rx_current dev));
    packet ← load b (Z.to_nat (u16 (msg_len - 4)));
    _ ← store_le (desc + D_FLAGS) 2 0x8000;
    _ ← store_le (desc + D_MSG_LEN) 2 0;
    mret (Some packet, next).

(** [Drop], and then the two vectors. *)
Definition drop_device (dev : PcnetDevice) : M (nic D) unit :=
  kfree_all (rx_buffers dev ++ tx_buffers dev ++ [init_block dev; rx_descs dev; tx_descs dev; rx_storage dev; tx_storage dev]).

(** The functions for the rest of the kernel, with the static [PCNET_DEVICE]. *)
Definition pcnet_init (st : option PcnetDevice) (base : Z) : M (nic D) (Z * option PcnetDevice) :=
  r ← new base;
  match r with
  | Some dev =>
      _ ← match st with Some old => drop_device old | None => mret tt end;
      mret (0, Some dev)
  | None => mret (-1, st)
  end.

Definition pcnet_get_mac (st : option PcnetDevice) (mac_out : Z) : M (nic D) unit :=
  match st with
  | Some dev => store mac_out (get_mac_address dev)
  | None => mret tt
  end.

Definition pcnet_transmit (st : option PcnetDevice) (data len : Z) : M (nic D) (Z * option PcnetDevice) :=
  match st with
  | Some dev =>
      slice ← load data (Z.to_nat len);
      '(r, dev') ← transmit dev slice;
      mret (match r with inl _ => 0 | inr _ => -1 end, Some dev')
  | None => mret (-1, None)
  end.

Definition pcnet_receive (st : option PcnetDevice) (buffer max_len : Z) : M (nic D) (Z * option PcnetDevice) :=
  match st with
  | Some dev =>
      '(r, dev') ← receive dev;
      match r with
      | Some packet =>
          let copy_len := Z.min (Z.of_nat (length packet)) max_len in
          _ ← store buffer (take (Z.to_nat copy_len) packet);
          mret (copy_len, Some dev')
      | None => mret (-1, Some dev')
      end
  | None => mret (-1, None)
  end.

End driver.

(** ** The memory of a device *)
Definition rings_of (dev : PcnetDevice) : rings :=
  mkRings (rx_descs dev) (tx_descs dev) (rx_buffers dev) (tx_buffers dev).

Definition regions (dev : PcnetDevice) : list (Z * Z) :=
  (init_block dev, INIT_BLOCK_SIZE) :: ring_regions DESC_SIZE BUF_SIZE (rings_of dev).

(** The blocks of a device: the init block, the rings, the buffers, and the blocks of
    the two vectors, each of which has at least 32 pointers in it. *)
Definition device_blocks (dev : PcnetDevice) : list (Z * Z) := regions dev ++ [(rx_storage dev, 256); (tx_storage dev, 256)].

Definition dev_layout (ds : gset Z) (dev : PcnetDevice) : Prop := layout DESC_SIZE BUF_SIZE ds (rings_of dev).

Definition dev_slot (dev : PcnetDevice) (i : nat) (x : Z) : Prop := in_slot DESC_SIZE BUF_SIZE (rings_of dev) i x.

(** The 16-bit word at [p]. *)
Definition word_at (m : mem) (p v : Z) : Prop := 0 <= v < 2 ^ 16 /\ bytes_at m p (le_bytes 2 v).

Lemma word_at_inj m p v w : word_at m p v -> word_at m p w -> v = w.
Proof.
  intros [Hv Bv] [Hw Bw]. apply load_bytes_ok in Bv, Bw. rewrite le_bytes_length in Bv, Bw. rewrite Bv in Bw.
  apply Ret_inj in Bw. apply (f_equal le_word) in Bw. rewrite !le_word_bytes in Bw. cbn in Bw, Hv, Hw.
  by rewrite !Z.mod_small in Bw.
Qed.

Lemma word_at_ext m m' p v : (forall x, p <= x < p + 2 -> m' !! x = m !! x) -> word_at m p v -> word_at m' p v.
Proof.
  intros Hx [Hv Hb]. split; [done|]. eapply bytes_at_ext; [exact Hb|]. intros x Hin. rewrite le_bytes_length in Hin. apply Hx. lia.
Qed.

Lemma word_at_patched m p v m' : 0 <= v < 2 ^ 16 -> patched m p (le_bytes 2 v) m' -> word_at m' p v.
Proof. intros Hv Hp. split; [done|]. by eapply bytes_at_patched. Qed.

(** What a receive descriptor holds: a packet marked with bit 14 of the flags, or
    something without the mark; and one that waits for the card. *)
Definition full (dev : PcnetDevice) (m : mem) (i : nat) (e : option (list Z)) : Prop :=
  exists flags, word_at m (rx_desc dev i + D_FLAGS) flags /\ (flags .& 0x8000)%W = 0 /\
    match e with
    | Some f =>
        (flags .& 0x4000)%W <> 0 /\ Z.of_nat (length f) + 4 <= BUF_SIZE /\
        word_at m (rx_desc dev i + D_MSG_LEN) (Z.of_nat (length f) + 4) /\
        exists b, rx_buffers dev !! i = Some b /\ bytes_at m b f
    | None => (flags .& 0x4000)%W = 0
    end.

Definition free (dev : PcnetDevice) (m : mem) (i : nat) : Prop :=
  exists flags, word_at m (rx_desc dev i + D_FLAGS) flags /\ (flags .& 0x8000)%W <> 0.

Definition tx_free (dev : PcnetDevice) (m : mem) (i : nat) : Prop :=
  exists flags, word_at m (tx_desc dev i + D_FLAGS) flags /\ (flags .& 0x8000)%W = 0.

Lemma desc_size_pos : 0 <= DESC_SIZE.
Proof. unfold DESC_SIZE. lia. Qed.

Lemma slot_desc dev i x : rx_desc dev i <= x < rx_desc dev i + DESC_SIZE -> dev_slot dev i x.
Proof. intros Hx. by left. Qed.

Lemma entry_ext dev m m' i e : (forall x, dev_slot dev i x -> m' !! x = m !! x) -> full dev m i e -> full dev m' i e.
Proof.
  intros Hx (fl & Hw & Hown & He). pose proof (slot_desc dev i) as Hd. 
  exists fl. unfold D_FLAGS, D_MSG_LEN, DESC_SIZE in *. split; [eapply word_at_ext; [|exact Hw]; intros x Hin; apply Hx, Hd; lia|]. split; [done|].
  destruct e as [f|]; [|done]. destruct He as (Hm & Hl & Hw2 & b & Hb & Hf). split; [done|]. split; [done|]. split.
  - eapply word_at_ext; [|exact Hw2]. intros x Hin. apply Hx, Hd. lia.
  - exists b. split; [done|]. eapply bytes_at_ext; [exact Hf|]. intros x Hin. apply Hx. right. exists b. split; [done|]. lia.
Qed.

Lemma waiting_ext dev m m' i : (forall x, dev_slot dev i x -> m' !! x = m !! x) -> free dev m i -> free dev m' i.
Proof.
  intros Hx (fl & Hw & Hown). exists fl. split; [|done]. eapply word_at_ext; [|exact Hw].
  intros x Hin. apply Hx, slot_desc. unfold D_FLAGS, DESC_SIZE in *. lia.
Qed.

Lemma entry_waiting dev m i e : full dev m i e -> free dev m i -> False.
Proof. intros (fl & H1 & H2 & _) (fl' & H3 & H4). pose proof (word_at_inj _ _ _ _ H1 H3). congruence. Qed.

Lemma dev_facts ds dev i :
  dev_layout ds dev -> (i < 32)%nat ->
  slot_facts DESC_SIZE BUF_SIZE ds (rx_desc dev i) (tx_desc dev i) (rx_buffers dev) (tx_buffers dev) i.
Proof. intros Hlay. exact (layout_facts _ _ desc_size_pos ds (rings_of dev) Hlay i). Qed.

(** ** The operations on the rings *)
Section facts.

Context {D : Type} `{Card D}.

Lemma load_word_ok p (s : nic D) v : word_at (nic_mem s) p v -> load_le p 2 s = Ret (v, s).
Proof. intros [Hv Hb]. by apply load_le_ok. Qed.

Lemma store_word_ok p v (s : nic D) :
  within (dom (nic_mem s)) p 2 -> 0 <= v < 2 ^ 16 ->
  exists m, store_le p 2 v s = Ret (tt, mkNic (nic_heap s) m (nic_card s) (nic_log s)) /\ word_at m p v /\
    dom m = dom (nic_mem s) /\ forall x, ~ (p <= x < p + 2) -> m !! x = nic_mem s !! x.
Proof.
  intros Hw Hv. destruct (store_run p (le_bytes 2 v) s) as (m & E & Hp & Hd); [by rewrite le_bytes_length|].
  exists m. split; [exact E|]. split; [by eapply word_at_patched|]. split; [done|]. intros x Hx.
  apply (patched_outside _ _ _ _ _ Hp). rewrite le_bytes_length. lia.
Qed.

Lemma pcnet_receive_none dev (s : nic D) : free dev (nic_mem s) (rx_current dev) -> receive dev s = Ret ((None, dev), s).
Proof.
  intros (fl & Hw & Hown). unfold receive. rewrite (M_bind_Ret _ _ _ _ _ (load_word_ok _ _ _ Hw)).
  by rewrite (proj2 (Z.eqb_neq _ 0)) by done.
Qed.

(** Taking out what the current descriptor holds. *)
Lemma pcnet_receive_entry ds dev (s : nic D) e :
  dev_layout ds dev -> dom (nic_mem s) = ds -> (rx_current dev < 32)%nat -> full dev (nic_mem s) (rx_current dev) e ->
  exists m, receive dev s = Ret ((e, with_rx_current (slot (rx_current dev) 1) dev), mkNic (nic_heap s) m (nic_card s) (nic_log s)) /\
    dom m = ds /\ free dev m (rx_current dev) /\ forall x, ~ dev_slot dev (rx_current dev) x -> m !! x = nic_mem s !! x.
Proof.
  intros Hlay Hd Hc (fl & Hw & Hown & He). pose proof (proj1 (dev_facts ds dev _ Hlay Hc)) as Hin.
  pose proof (slot_desc dev (rx_current dev)) as Hsl. unfold receive. rewrite (M_bind_Ret _ _ _ _ _ (load_word_ok _ _ _ Hw)).
  rewrite Hown. cbn [Z.eqb negb]. set (t := rx_desc dev (rx_current dev)) in *.
  unfold D_FLAGS, D_MSG_LEN, DESC_SIZE in *. destruct e as [f|].
  - destruct He as (Hm & Hl & Hlen & b & Hb & Hf). rewrite (proj2 (Z.eqb_neq _ 0)) by done. cbn [negb].
    rewrite (M_bind_Ret _ _ _ _ _ (load_word_ok _ _ _ Hlen)). unfold arr_get. rewrite Hb. cbn [checked].
    erewrite M_bind_Ret; [|reflexivity]. apply load_bytes_ok in Hf.
    replace (Z.to_nat (u16 (Z.of_nat (length f) + 4 - 4))) with (length f)
      by (unfold BUF_SIZE in Hl; rewrite wrap_small; lia).
    rewrite (M_bind_Ret _ _ _ f s) by (unfold load; cbn [st_mem nic_heap_state]; by rewrite Hf).
    destruct (store_word_ok (t + 4) 0x8000 s) as (m1 & E1 & W1 & D1 & O1); [rewrite Hd; apply Hin; lia|lia|].
    rewrite (M_bind_Ret _ _ _ _ _ E1).
    destruct (store_word_ok (t + 8) 0 (mkNic (nic_heap s) m1 (nic_card s) (nic_log s))) as (m2 & E2 & W2 & D2 & O2);
      [cbn [nic_mem]; rewrite D1, Hd; apply Hin; lia|lia|].
    rewrite (M_bind_Ret _ _ _ _ _ E2). cbn [nic_heap nic_mem nic_card nic_log] in *.
    exists m2. split; [reflexivity|]. split; [congruence|]. split.
    + exists 0x8000. split; [|done]. eapply word_at_ext; [|exact W1]. intros x Hx. apply O2. unfold D_FLAGS in Hx. fold t in Hx. lia.
    + intros x Hx. assert (~ (t <= x < t + 12)) by (intros ?; by apply Hx, Hsl). rewrite O2, O1; [done|lia|lia].
  - rewrite He. cbn [Z.eqb].
    destruct (store_word_ok (t + 4) 0x8000 s) as (m1 & E1 & W1 & D1 & O1); [rewrite Hd; apply Hin; lia|lia|].
    rewrite (M_bind_Ret _ _ _ _ _ E1). exists m1. split; [reflexivity|]. split; [congruence|]. split; [by exists 0x8000|].
    intros x Hx. apply O1. intros ?. apply Hx, Hsl. lia.
Qed.

Lemma pcnet_transmit_ok fuel ds dev (s : nic D) data b :
  dev_layout ds dev -> dom (nic_mem s) = ds -> (tx_current dev < 32)%nat -> tx_buffers dev !! tx_current dev = Some b ->
  tx_free dev (nic_mem s) (tx_current dev) -> Z.of_nat (length data) <= BUF_SIZE ->
  exists v m d, transmit (S fuel) dev data s = Ret ((inl tt, with_tx_current (slot (tx_current dev) 1) dev),
      mkNic (nic_heap s) m d (nic_log s ++
        [Out 2 (port dev REG_RAP) CSR_STATUS; In 2 (port dev REG_RDP) v;
         Out 2 (port dev REG_RAP) CSR_STATUS; Out 2 (port dev REG_RDP) (v .| STATUS_TDMD)%W])) /\
    dom m = ds /\ bytes_at m b data /\
    word_at m (tx_desc dev (tx_current dev) + D_BUF_LEN) (u16 (- Z.of_nat (length data))) /\
    word_at m (tx_desc dev (tx_current dev) + D_FLAGS) 0x8300 /\
    forall x, ~ (b <= x < b + BUF_SIZE) -> ~ (tx_desc dev (tx_current dev) <= x < tx_desc dev (tx_current dev) + DESC_SIZE) ->
      m !! x = nic_mem s !! x.
Proof.
  intros Hlay Hd Hc Hb (fl & Hw & Hown) Hl. unfold transmit. rewrite (proj2 (Z.ltb_ge _ _)) by done.
  destruct (dev_facts ds dev _ Hlay Hc) as (_ & Hin & _ & b' & Hb' & Hap & Hbw). rewrite Hb in Hb'. injection Hb' as <-.
  set (t := tx_desc dev (tx_current dev)) in *.
  erewrite M_bind_Ret; [|apply spin_until_now; rewrite (M_bind_Ret _ _ _ _ _ (load_word_ok _ _ _ Hw)); rewrite Hown; reflexivity].
  unfold arr_get. rewrite Hb. cbn [checked]. erewrite M_bind_Ret; [|reflexivity].
  destruct (store_run b data s) as (m1 & E1 & P1 & D1); [rewrite Hd; by apply Hbw|].
  rewrite (M_bind_Ret _ _ _ _ _ E1). unfold D_FLAGS, D_BUF_LEN, DESC_SIZE in *.
  replace (swrap 16 (Z.of_nat (length data))) with (Z.of_nat (length data)) by (unfold BUF_SIZE in Hl; rewrite swrap_small; lia).
  destruct (store_word_ok (t + 6) (u16 (- Z.of_nat (length data))) (mkNic (nic_heap s) m1 (nic_card s) (nic_log s)))
    as (m2 & E2 & W2 & D2 & O2); [cbn [nic_mem]; rewrite D1, Hd; apply Hin; lia|apply (wrap_range 16); lia|].
  rewrite (M_bind_Ret _ _ _ _ _ E2). cbn [nic_heap nic_mem nic_card nic_log] in *.
  destruct (store_word_ok (t + 4) 0x8300 (mkNic (nic_heap s) m2 (nic_card s) (nic_log s))) as (m3 & E3 & W3 & D3 & O3);
    [cbn [nic_mem]; rewrite D2, D1, Hd; apply Hin; lia|lia|].
  rewrite (M_bind_Ret _ _ _ _ _ E3). cbn [nic_heap nic_mem nic_card nic_log] in *.
  unfold read_csr, write_csr, inw, outw, mbind, M_bind_inst, out, inp. cbn [outcome_bind nic_card nic_heap nic_mem nic_log].
  destruct (card_in _ _ _) as [v d1]. cbn [outcome_bind nic_card nic_heap nic_mem nic_log].
  eexists _, m3, _. split; [rewrite <- !app_assoc; reflexivity|]. split; [congruence|]. split.
  { eapply bytes_at_ext; [eapply bytes_at_patched, P1|]. intros x Hx. rewrite O3, O2; [done|lia|lia]. }
  split; [eapply word_at_ext; [|exact W2]; intros x Hx; apply O3; lia|]. split; [done|].
  intros x H1 H2. rewrite O3, O2 by lia. apply (patched_outside _ _ _ _ _ P1). lia.
Qed.

End facts.

(** ** Initialisation *)
Section init.

Context {D : Type} `{Card D}.

Lemma silent_inw dev o : silent (D := D) (inw dev o).
Proof. apply silent_inp. Qed.

Lemma silent_outw dev o v : silent (D := D) (outw dev o v).
Proof. apply silent_out. Qed.

Lemma silent_read_csr dev o : silent (D := D) (read_csr dev o).
Proof. apply silent_bind; [apply silent_outw|intros _; apply silent_inw]. Qed.

Lemma silent_write_csr dev o v : silent (D := D) (write_csr dev o v).
Proof. apply silent_bind; [apply silent_outw|intros _; apply silent_outw]. Qed.

Lemma silent_write_bcr dev o v : silent (D := D) (write_bcr dev o v).
Proof. apply silent_bind; [apply silent_outw|intros _; apply silent_outw]. Qed.

#[local] Hint Resolve silent_inw silent_outw silent_read_csr silent_write_csr silent_write_bcr : silent.

Lemma pcnet_rx_setup dev i (s : nic D) a s' :
  setup_rx dev i s = Ret (a, s') ->
  free dev (nic_mem s') i /\
  forall x, ~ (rx_desc dev i <= x < rx_desc dev i + DESC_SIZE) -> nic_mem s' !! x = nic_mem s !! x.
Proof.
  unfold setup_rx. intros E. apply M_bind_inv in E as (b & s1 & E1 & E).
  assert (s1 = s) as -> by (unfold lift in E1; destruct (arr_get _ _); [by injection E1|done..]).
  apply M_bind_inv in E as (u2 & s2 & E2 & E). apply M_bind_inv in E as (u3 & s3 & E3 & E). apply M_bind_inv in E as (u4 & s4 & E4 & E).
  apply store_inv in E2 as [_ P2], E3 as [_ P3], E4 as [_ P4], E as [_ P5].
  pose proof (fun x => patched_outside _ _ _ _ x P2) as O2. pose proof (fun x => patched_outside _ _ _ _ x P3) as O3.
  pose proof (fun x => patched_outside _ _ _ _ x P4) as O4. pose proof (fun x => patched_outside _ _ _ _ x P5) as O5.
  rewrite le_bytes_length in O2, O3, O4, O5. unfold DESC_SIZE, D_ADDR, D_FLAGS, D_BUF_LEN, D_MSG_LEN in *. split.
  - exists 0x8000. split; [|done]. apply word_at_patched in P4; [|lia]. eapply word_at_ext; [|exact P4].
    intros y Hy. unfold D_FLAGS in Hy. apply O5. lia.
  - intros y Hy. rewrite O5, O4, O3, O2; [done|lia..].
Qed.

Lemma pcnet_tx_setup dev i (s : nic D) a s' :
  setup_tx dev i s = Ret (a, s') ->
  tx_free dev (nic_mem s') i /\
  forall x, ~ (tx_desc dev i <= x < tx_desc dev i + DESC_SIZE) -> nic_mem s' !! x = nic_mem s !! x.
Proof.
  unfold setup_tx. intros E. apply M_bind_inv in E as (b & s1 & E1 & E).
  assert (s1 = s) as -> by (unfold lift in E1; destruct (arr_get _ _); [by injection E1|done..]).
  apply M_bind_inv in E as (u2 & s2 & E2 & E). apply M_bind_inv in E as (u3 & s3 & E3 & E).
  apply store_inv in E2 as [_ P2], E3 as [_ P3], E as [_ P4].
  pose proof (fun x => patched_outside _ _ _ _ x P2) as O2. pose proof (fun x => patched_outside _ _ _ _ x P3) as O3.
  pose proof (fun x => patched_outside _ _ _ _ x P4) as O4.
  rewrite le_bytes_length in O2, O3, O4. unfold DESC_SIZE, D_ADDR, D_FLAGS, D_BUF_LEN in *. split.
  - exists 0. split; [|done]. apply word_at_patched in P4; [done|lia].
  - intros y Hy. rewrite O4, O3, O2; [done|lia..].
Qed.

(** The card keeps its hands off the rings until it is started: after the
    initialisation every receive descriptor belongs to the card and every send
    descriptor is free. *)
Lemma pcnet_init_effect ds dev (s : nic D) dev' s' :
  patient (D := D) -> dev_layout ds dev -> init dev s = Ret (dev', s') ->
  (exists mac, dev' = with_mac mac dev /\ length mac = 6%nat /\ Forall is_u8 mac) /\
  (forall i, (i < 32)%nat -> free dev (nic_mem s') i) /\ (forall i, (i < 32)%nat -> tx_free dev (nic_mem s') i).
Proof.
  intros Hpat Hlay. unfold init. intros E. do 2 apply M_bind_inv in E as (? & ? & _ & E).
  apply M_bind_inv in E as (words & sw & Ew & E). do 2 apply M_bind_inv in E as (? & ? & _ & E).
  apply M_bind_inv in E as (? & sd & Ed & E). apply M_bind_inv in E as (? & se & Ee & E). skip_silent E.
  apply M_bind_inv in E as (? & sf & Ef & E). apply silent_inv in Ef as [_ Ef].
  2:{ apply silent_spin_at_most; [done|]. apply silent_bind; auto with silent. }
  skip_silent E. apply mret_inv in E as [<- Es].
  apply (for_each_setup _ (fun i m => free dev m i) (fun i x => rx_desc dev i <= x < rx_desc dev i + DESC_SIZE)) in Ed as [Hrx _].
  2:{ intros i t a t' Et. by eapply pcnet_rx_setup. }
  2:{ intros i m m' Hx (fl & Hw & Hown). exists fl. split; [|done]. eapply word_at_ext; [|exact Hw].
      intros y Hy. apply Hx. unfold D_FLAGS, DESC_SIZE in *. lia. }
  2:{ intros i j y Hij. unfold rx_desc, DESC_SIZE. lia. }
  apply (for_each_setup _ (fun i m => tx_free dev m i) (fun i x => tx_desc dev i <= x < tx_desc dev i + DESC_SIZE)) in Ee as [Htx Ho].
  2:{ intros i t a t' Et. by eapply pcnet_tx_setup. }
  2:{ intros i m m' Hx (fl & Hw & Hown). exists fl. split; [|done]. eapply word_at_ext; [|exact Hw].
      intros y Hy. apply Hx. unfold D_FLAGS, DESC_SIZE in *. lia. }
  2:{ intros i j y Hij. unfold tx_desc, DESC_SIZE. lia. }
  split.
  { eexists. split; [reflexivity|]. split; [by rewrite length_fmap, (inp_all_length _ _ _ _ _ Ew)|].
    apply Forall_fmap, Forall_true. intros w. unfold compose, is_u8. change 0xFF%Z with (Z.ones 8).
    rewrite Z.land_ones by lia. apply Z.mod_pos_bound. lia. }
  assert (nic_mem s' = nic_mem se) as -> by congruence. split.
  - intros i Hi. destruct (Hrx i) as (fl & Hw & Hown); [unfold NUM_RX_DESC; lia|]. exists fl. split; [|done].
    eapply word_at_ext; [|exact Hw]. intros y Hy. apply Ho. intros j Hj.
    apply (tx_desc_apart _ _ desc_size_pos _ _ Hlay i); [done|unfold NUM_TX_DESC in *; lia|]. apply slot_desc.
    unfold D_FLAGS, DESC_SIZE in *. lia.
  - intros i Hi. apply Htx. unfold NUM_TX_DESC. lia.
Qed.

Lemma quiet_pcnet_init ds dev :
  dev_layout ds dev -> within ds (init_block dev) (Z.to_nat INIT_BLOCK_SIZE) -> quiet (D := D) ds (init dev).
Proof.
  intros Hlay Hib. assert (forall p n v, within ds p n -> quiet (D := D) ds (store_le p n v)) as Hst by apply quiet_store_le.
  assert (forall p n, init_block dev <= p -> p + Z.of_nat n <= init_block dev + 30 -> within ds p n) as Hw
    by (intros p n H1 H2; eapply within_sub; [exact Hib|lia|unfold INIT_BLOCK_SIZE; lia]).
  unfold init, setup_init_block, read_csr, write_csr, write_bcr, inw, outw.
  unfold IB_MODE, IB_RLEN, IB_TLEN, IB_PADR, IB_LADR, IB_RDRA, IB_TDRA.
  do 2 (apply quiet_bind; [auto with quiet|intros ?]). apply quiet_bind_ret; [auto with quiet|].
  intros s0 words s1 Ew. apply inp_all_length in Ew. cbn in Ew. cbv zeta. solve_quiet; try (apply Hst, Hw; lia).
  - apply quiet_store, Hw; rewrite ?length_fmap, ?Ew; lia.
  - apply quiet_store, Hw; rewrite ?length_replicate; lia.
  - apply quiet_for_each. intros i Hi. apply elem_of_seq in Hi. unfold NUM_RX_DESC in Hi. unfold setup_rx, arr_get.
    destruct (dev_facts ds dev i Hlay ltac:(lia)) as (Hd & _ & (b & -> & _) & _). apply quiet_bind; [apply quiet_ret|]. intros c.
    solve_quiet; apply Hst, Hd; unfold D_ADDR, D_FLAGS, D_BUF_LEN, D_MSG_LEN, DESC_SIZE; lia.
  - apply quiet_for_each. intros i Hi. apply elem_of_seq in Hi. unfold NUM_TX_DESC in Hi. unfold setup_tx, arr_get.
    destruct (dev_facts ds dev i Hlay ltac:(lia)) as (_ & Hd & _ & (b & -> & _)). apply quiet_bind; [apply quiet_ret|]. intros c.
    solve_quiet; apply Hst, Hd; unfold D_ADDR, D_FLAGS, D_BUF_LEN, DESC_SIZE; lia.
Qed.

Lemma pcnet_init_fields dev (s : nic D) dev' s' : init dev s = Ret (dev', s') -> exists mac, dev' = with_mac mac dev.
Proof.
  unfold init. intros E. do 12 apply M_bind_inv in E as (? & ? & _ & E). apply mret_inv in E as [<- _]. by eexists.
Qed.

End init.

(** ** Allocation *)
Section allocation.

Context {D : Type} `{Card D} (heap_base : Z) (Hbase : base_ok heap_base).

(** What a new device is like. *)
Record fresh (dev : PcnetDevice) (m : mem) : Prop := {
  fr_layout : dev_layout (dom m) dev;
  fr_free i : (i < 32)%nat -> free dev m i;
  fr_tx i : (i < 32)%nat -> tx_free dev m i;
  fr_rx_current : rx_current dev = 0%nat;
  fr_tx_current : tx_current dev = 0%nat
}.

Lemma apart_tail p l : apart (p :: l) -> apart l.
Proof. intros Ha i j p1 a p2 b Hij Hi Hj. apply (Ha (S i) (S j) p1 a p2 b); [lia|done|done]. Qed.

Lemma pcnet_init_fresh segs rest base ib rxd txd rx tx rv tv s :
  heap_ready heap_base s segs -> owned heap_base segs (device_blocks (mkPcnet base (replicate 6 0) ib rxd txd rx tx 0 0 rv tv)) rest ->
  length rx = 32%nat -> length tx = 32%nat ->
  exists dev s', init (mkPcnet base (replicate 6 0) ib rxd txd rx tx 0 0 rv tv) s = Ret (dev, s') /\ heap_ready heap_base s' segs /\
    owned heap_base segs (device_blocks dev) rest /\ (patient (D := D) -> fresh dev (nic_mem s')).
Proof.
  set (dev := mkPcnet _ _ _ _ _ _ _ _ _ _ _). intros Hr Ho Hrx Htx.
  destruct (owned_regions heap_base s segs _ _ Hr Ho) as [Hap Hin]. apply apart_app_l, apart_tail in Hap.
  apply Forall_app in Hin as [Hin _]. apply Forall_cons in Hin as [Hib Hin].
  assert (dev_layout (dom (nic_mem s)) dev) as Hlay by by constructor.
  destruct (quiet_pcnet_init _ dev Hlay Hib s eq_refl) as (dev' & s' & E & Hh & Hd).
  destruct (pcnet_init_fields _ _ _ _ E) as [mac ->].
  exists (with_mac mac dev), s'. split; [done|]. split; [by eapply heap_ready_quiet|]. split; [done|]. intros Hpat.
  destruct (pcnet_init_effect _ _ _ _ _ Hpat Hlay E) as (_ & Hfr & Htf). constructor; [|done..].
  rewrite Hd. destruct Hlay. by constructor.
Qed.

(** Two full vectors, the rings and the init block are the blocks of a device. *)
Lemma pcnet_blocks_owned segs base ib rxd txd rx tx rest :
  vec_ok rx -> vec_ok tx -> length (v_items rx) = 32%nat -> length (v_items tx) = 32%nat ->
  owned heap_base segs (vec_blocks BUF_SIZE tx ++ vec_blocks BUF_SIZE rx ++ [(txd, 384); (rxd, 384); (ib, INIT_BLOCK_SIZE)]) rest ->
  owned heap_base segs (device_blocks (mkPcnet base (replicate 6 0) ib rxd txd (v_items rx) (v_items tx) 0 0 (v_ptr rx) (v_ptr tx))) rest.
Proof.
  intros Hrx Htx Lrx Ltx Ho. unfold vec_blocks in Ho. rewrite <- app_assoc in Ho. apply storage_full in Ho; [|done..].
  apply (owned_perm _ _ _ (storage rx ++ (v_ptr tx, 256) :: ((fun p => (p, BUF_SIZE)) <$> v_items tx) ++
    ((fun p => (p, BUF_SIZE)) <$> v_items rx) ++ [(txd, 384); (rxd, 384); (ib, INIT_BLOCK_SIZE)])) in Ho; [|solve_Permutation].
  apply storage_full in Ho; [|done..]. eapply owned_perm; [|exact Ho].
  unfold device_blocks, regions, ring_regions, buffer_regions. cbn. solve_Permutation.
Qed.

(** The buffers of both rings, and what is undone when they cannot be had. *)
Lemma pcnet_buffers_blocks base ib rxd txd (s : nic D) segs rest :
  heap_ready heap_base s segs -> owned heap_base segs [(txd, 384); (rxd, 384); (ib, INIT_BLOCK_SIZE)] rest ->
  pcnet_buffers base ib rxd txd s = Panic \/
  exists r s' segs', pcnet_buffers base ib rxd txd s = Ret (r, s') /\ heap_ready heap_base s' segs' /\
    owned heap_base segs' (st_regions device_blocks r) rest /\
    match r with Some dev => patient (D := D) -> fresh dev (nic_mem s') | None => True end.
Proof.
  intros Hr Ho. unfold pcnet_buffers. set (three := [(txd, 384); (rxd, 384); (ib, INIT_BLOCK_SIZE)]) in *.
  assert ([ib; rxd; txd] ≡ₚ three.*1) as Hthree by (cbn; solve_Permutation).
  destruct (alloc_push_owned heap_base Hbase BUF_SIZE NUM_RX_DESC vec_new s segs _ _ Hr Ho vec_new_ok)
    as [E|(rx & ok & h1 & segs1 & E1 & Hr1 & Ho1 & Hv1 & Hn1)]; [by vm_compute..|left; by apply M_bind_Panic|].
  rewrite (M_bind_Ret _ _ _ _ _ E1). set (s1 := with_hm h1 _ s) in *. destruct ok; cbn [negb].
  2:{ right. destruct (kfree_into_owned heap_base Hbase _ rx s1 segs1 _ _ Hr1 Ho1) as (h2 & segs2 & E2 & Hr2 & Ho2).
      rewrite (M_bind_Ret _ _ _ _ _ E2).
      destruct (kfree_all_owned heap_base Hbase [ib; rxd; txd] _ segs2 three [] _ Hr2 Ho2) as (h3 & segs3 & E3 & Hr3 & Ho3); [done|].
      rewrite (M_bind_Ret _ _ _ _ _ E3). by eexists _, _, segs3. }
  destruct (alloc_push_owned heap_base Hbase BUF_SIZE NUM_TX_DESC vec_new s1 segs1 _ _ Hr1 Ho1 vec_new_ok)
    as [E|(tx & ok & h2 & segs2 & E2 & Hr2 & Ho2 & Hv2 & Hn2)]; [by vm_compute..|left; by apply M_bind_Panic|].
  right. rewrite (M_bind_Ret _ _ _ _ _ E2). set (s2 := with_hm h2 _ s1) in *. destruct ok; cbn [negb].
  - apply (pcnet_blocks_owned _ base) in Ho2; [|by auto..].
    destruct (pcnet_init_fresh segs2 _ _ _ _ _ _ _ _ _ _ Hr2 Ho2 (Hn1 eq_refl) (Hn2 eq_refl)) as (dev & s3 & E3 & Hr3 & Ho3 & Hf).
    rewrite (M_bind_Ret _ _ _ _ _ E3). by eexists _, s3, segs2.
  - eapply owned_perm in Ho2; [|apply Permutation_app_swap_app].
    destruct (kfree_into_owned heap_base Hbase _ rx s2 segs2 _ _ Hr2 Ho2) as (h3 & segs3 & E3 & Hr3 & Ho3). rewrite (M_bind_Ret _ _ _ _ _ E3).
    destruct (kfree_into_owned heap_base Hbase _ tx _ segs3 _ _ Hr3 Ho3) as (h4 & segs4 & E4 & Hr4 & Ho4). rewrite (M_bind_Ret _ _ _ _ _ E4).
    destruct (kfree_all_owned heap_base Hbase [ib; rxd; txd] _ segs4 three [] _ Hr4 Ho4) as (h5 & segs5 & E5 & Hr5 & Ho5); [done|].
    rewrite (M_bind_Ret _ _ _ _ _ E5). by eexists _, _, segs5.
Qed.

Lemma pcnet_new_blocks base (s : nic D) segs :
  heap_ready heap_base s segs ->
  new base s = Panic \/
  exists r s' segs', new base s = Ret (r, s') /\ heap_ready heap_base s' segs' /\
    owned heap_base segs' (st_regions device_blocks r) (live heap_base segs) /\
    match r with Some dev => patient (D := D) -> fresh dev (nic_mem s') | None => True end.
Proof.
  intros Hr. unfold new. assert (owned heap_base segs [] (live heap_base segs)) as Ho by by apply owned_nil.
  change (DESC_SIZE * Z.of_nat NUM_RX_DESC) with 384. change (DESC_SIZE * Z.of_nat NUM_TX_DESC) with 384.
  destruct (kmalloc_owned heap_base Hbase INIT_BLOCK_SIZE s segs _ _ Hr Ho) as (ib & h0 & segs0 & E0 & Hr0 & Ho0);
    [unfold INIT_BLOCK_SIZE; lia..|].
  rewrite (M_bind_Ret _ _ _ _ _ E0). destruct (ib =? 0); [right; by eexists _, _, segs0|]. set (s0 := with_hm h0 _ s) in *.
  destruct (kmalloc_owned heap_base Hbase 384 s0 segs0 _ _ Hr0 Ho0) as (rxd & h1 & segs1 & E1 & Hr1 & Ho1); [lia..|].
  rewrite (M_bind_Ret _ _ _ _ _ E1). set (s1 := with_hm h1 _ s0) in *.
  destruct (kmalloc_owned heap_base Hbase 384 s1 segs1 _ _ Hr1 Ho1) as (txd & h2 & segs2 & E2 & Hr2 & Ho2); [lia..|].
  rewrite (M_bind_Ret _ _ _ _ _ E2). set (s2 := with_hm h2 _ s1) in *.
  destruct ((rxd =? 0) || (txd =? 0)) eqn:Eor.
  { right. apply (owned_perm _ _ _ ((ib, INIT_BLOCK_SIZE) :: (if negb (rxd =? 0) then [(rxd, 384)] else []) ++ (if negb (txd =? 0) then [(txd, 384)] else [])))
      in Ho2; [|destruct (rxd =? 0), (txd =? 0); cbn; solve_Permutation].
    destruct (kfree_owned heap_base Hbase _ _ s2 segs2 _ _ Hr2 Ho2) as (h3 & segs3 & E3 & Hr3 & Ho3).
    rewrite (M_bind_Ret _ _ _ _ _ E3). set (s3 := with_hm h3 _ s2) in *. clearbody s3.
    destruct (rxd =? 0), (txd =? 0); try discriminate; cbn [negb app] in *;
      rewrite ?(M_bind_Ret (mret tt) _ s3 tt s3) by done; try by eexists _, s3, segs3.
    - destruct (kfree_owned heap_base Hbase _ _ s3 segs3 _ _ Hr3 Ho3) as (h4 & segs4 & E4 & Hr4 & Ho4).
      rewrite (M_bind_Ret _ _ _ _ _ E4). by eexists _, _, segs4.
    - destruct (kfree_owned heap_base Hbase _ _ s3 segs3 _ _ Hr3 Ho3) as (h4 & segs4 & E4 & Hr4 & Ho4).
      rewrite (M_bind_Ret _ _ _ _ _ E4). by eexists _, _, segs4. }
  apply orb_false_elim in Eor as [Erx Etx]. rewrite Erx, Etx in *. by apply (pcnet_buffers_blocks base ib rxd txd s2 segs2).
Qed.

(** With room for its 69 blocks the device is made. *)
Lemma pcnet_new_ok base (s : nic D) segs rest :
  heap_ready heap_base s segs -> owned heap_base segs [] rest -> has_room segs 110000 ->
  exists dev s' segs', new base s = Ret (Some dev, s') /\ heap_ready heap_base s' segs' /\
    owned heap_base segs' (device_blocks dev) rest /\ (patient (D := D) -> fresh dev (nic_mem s')).
Proof.
  intros Hr Ho Hroom.
  assert (forall n, n <= 110000 -> has_room segs n) as Hle.
  { intros n Hn. eapply Exists_impl; [exact Hroom|]. cbn. intros x [H1 H2]. split; [done|lia]. }
  destruct (kmalloc_grants heap_base Hbase INIT_BLOCK_SIZE 104768 s segs [] rest Hr Ho) as (ib & h0 & segs0 & E0 & Hib & Hr0 & Ho0 & Hroom0);
    [apply Hle; unfold INIT_BLOCK_SIZE; lia|unfold INIT_BLOCK_SIZE; lia..|].
  set (s0 := with_hm h0 (st_mem s) s) in *.
  destruct (kmalloc_grants heap_base Hbase 384 104320 s0 segs0 _ rest Hr0 Ho0) as (rxd & h1 & segs1 & E1 & Hrxd & Hr1 & Ho1 & Hroom1); [exact Hroom0|lia..|].
  set (s1 := with_hm h1 (st_mem s0) s0) in *.
  destruct (kmalloc_grants heap_base Hbase 384 103872 s1 segs1 _ rest Hr1 Ho1) as (txd & h2 & segs2 & E2 & Htxd & Hr2 & Ho2 & Hroom2); [exact Hroom1|lia..|].
  set (s2 := with_hm h2 (st_mem s1) s1) in *.
  destruct (alloc_push_grants heap_base Hbase 1536 32 vec_new 51936 s2 segs2 _ _ Hr2 Ho2 vec_new_ok)
    as (rx & s3 & segs3 & E3 & _ & Hr3 & Ho3 & Hv3 & Hl3 & Hroom3); [cbn; lia..|exact Hroom2|].
  destruct (alloc_push_grants heap_base Hbase 1536 32 vec_new 0 s3 segs3 _ _ Hr3 Ho3 vec_new_ok)
    as (tx & s4 & segs4 & E4 & _ & Hr4 & Ho4 & Hv4 & Hl4 & Hroom4); [cbn; lia..|exact Hroom3|].
  apply (pcnet_blocks_owned _ base) in Ho4; [|done..].
  destruct (pcnet_init_fresh segs4 rest base ib rxd txd _ _ _ _ s4 Hr4 Ho4 Hl3 Hl4) as (dev & s5 & E5 & Hr5 & Ho5 & Hf).
  exists dev, s5, segs4. split; [|done]. unfold new, pcnet_buffers.
  change (DESC_SIZE * Z.of_nat NUM_RX_DESC) with 384. change (DESC_SIZE * Z.of_nat NUM_TX_DESC) with 384.
  rewrite (M_bind_Ret _ _ _ _ _ E0), (proj2 (Z.eqb_neq ib 0)) by done.
  rewrite (M_bind_Ret _ _ _ _ _ E1), (M_bind_Ret _ _ _ _ _ E2), (proj2 (Z.eqb_neq rxd 0)), (proj2 (Z.eqb_neq txd 0)) by done. cbn [orb].
  rewrite (M_bind_Ret _ _ _ _ _ E3). cbn [negb]. rewrite (M_bind_Ret _ _ _ _ _ E4). cbn [negb]. rewrite (M_bind_Ret _ _ _ _ _ E5). done.
Qed.

End allocation.

Section drop.

Context {D : Type} `{Card D} (heap_base : Z) (Hbase : base_ok heap_base).

Lemma pcnet_drop_blocks dev (s : nic D) segs rest :
  heap_ready heap_base s segs -> owned heap_base segs (device_blocks dev) rest ->
  exists s' segs', drop_device dev s = Ret (tt, s') /\ heap_ready heap_base s' segs' /\ live heap_base segs' ≡ₚ rest /\
    nic_mem s' = nic_mem s.
Proof.
  intros Hr Ho. rewrite <- (app_nil_r (device_blocks dev)) in Ho.
  destruct (kfree_all_owned heap_base Hbase
    (rx_buffers dev ++ tx_buffers dev ++ [init_block dev; rx_descs dev; tx_descs dev; rx_storage dev; tx_storage dev])
    s segs _ _ _ Hr Ho) as (h & segs' & E & Hr' & Ho').
  { unfold device_blocks, regions. rewrite fmap_app. cbn [fmap list_fmap fst]. fold (fmap (M := list) (@fst Z Z)).
    rewrite ring_regions_starts. cbn. solve_Permutation. }
  eexists _, segs'. split; [exact E|]. split; [done|]. split; [by apply owned_nil|done].
Qed.

(** Putting a new device in place of the old one. *)
Lemma pcnet_replace st base (s : nic D) segs rest r s1 segs1 :
  owned heap_base segs (st_regions device_blocks st) rest ->
  new base s = Ret (r, s1) -> heap_ready heap_base s1 segs1 ->
  owned heap_base segs1 (st_regions device_blocks r) (live heap_base segs) ->
  match r with Some dev => patient (D := D) -> fresh dev (nic_mem s1) | None => True end ->
  exists s' segs', heap_ready heap_base s' segs' /\
    match r with
    | Some dev => pcnet_init st base s = Ret ((0, Some dev), s') /\ (patient (D := D) -> fresh dev (nic_mem s')) /\
        owned heap_base segs' (device_blocks dev) rest
    | None => pcnet_init st base s = Ret ((-1, st), s') /\ live heap_base segs' ≡ₚ live heap_base segs
    end.
Proof.
  intros Ho E Hr1 Ho1 Hf.
  apply (replace_device_made device_blocks (new base) drop_device _ (fun dev m => patient (D := D) -> fresh dev m) st s segs rest r s1 segs1); [done..|].
  intros old s2 segs2 rest2 H1 H2. destruct (pcnet_drop_blocks old s2 segs2 rest2 H1 H2) as (s3 & segs3 & E3 & H3 & H4 & Em).
  exists s3, segs3. rewrite Em. done.
Qed.

End drop.

(** ** The driver and the card together

    What the card has put into the ring so far and the packets [receive] has
    returned, over every sequence of calls and of moves of the card: the card fills
    slot [n mod 32] with entry number [n] once that slot belongs to it, and gives
    send descriptors back. *)
Section run.

Context {D : Type} `{Card D} (heap_base : Z) (Hbase : base_ok heap_base) (Hpatient : patient (D := D)).

Definition dev_delivers (dev : PcnetDevice) (i : nat) (e : option (list Z)) (m m' : mem) : Prop :=
  delivers DESC_SIZE BUF_SIZE (rings_of dev) (full dev) i e m m'.

Inductive pcnet_run : PcnetDevice -> nic D -> list (option (list Z)) -> list (list Z) -> Prop :=
| prun_new base s segs dev s' :
    heap_ready heap_base s segs -> new base s = Ret (Some dev, s') -> pcnet_run dev s' [] []
| prun_deliver dev s sent got e m d log :
    pcnet_run dev s sent got -> free dev (nic_mem s) (length sent mod 32) ->
    dev_delivers dev (length sent mod 32) e (nic_mem s) m ->
    pcnet_run dev (mkNic (nic_heap s) m d log) (sent ++ [e]) got
| prun_sent dev s sent got i fl m d log :
    pcnet_run dev s sent got -> (i < 32)%nat -> patched (nic_mem s) (tx_desc dev i + D_FLAGS) (le_bytes 2 fl) m ->
    pcnet_run dev (mkNic (nic_heap s) m d log) sent got
| prun_receive dev s sent got r dev' s' :
    pcnet_run dev s sent got -> receive dev s = Ret ((r, dev'), s') -> pcnet_run dev' s' sent (got ++ option_list r)
| prun_transmit fuel dev s sent got data r dev' s' :
    pcnet_run dev s sent got -> tx_free dev (nic_mem s) (tx_current dev) ->
    transmit (S fuel) dev data s = Ret ((r, dev'), s') -> pcnet_run dev' s' sent got.

(** The entries taken out of the ring, and what is left in it. *)
Definition dev_inv (dev : PcnetDevice) (m : mem) (sent taken q : list (option (list Z))) : Prop :=
  ring_inv DESC_SIZE BUF_SIZE (rings_of dev) (full dev) (free dev) (rx_current dev) m sent taken q /\ (tx_current dev < 32)%nat.

Lemma dev_inv_delivered dev m m' sent taken q e :
  dev_inv dev m sent taken q -> free dev m (length sent mod 32) -> dev_delivers dev (length sent mod 32) e m m' ->
  dev_inv dev m' (sent ++ [e]) taken (q ++ [e]).
Proof.
  intros [Hi Htx] Hf Hd. split; [|done]. eapply ring_inv_deliver; eauto using desc_size_pos, entry_ext, waiting_ext, entry_waiting.
Qed.

Lemma dev_inv_received dev (s : nic D) sent taken q :
  dev_inv dev (nic_mem s) sent taken q ->
  exists dev' s', receive dev s = Ret ((mjoin (head q), dev'), s') /\ dev_inv dev' (nic_mem s') sent (taken ++ take 1 q) (drop 1 q).
Proof.
  intros [Hi Htx]. pose proof (ri_layout _ _ _ _ _ _ _ _ _ _ Hi) as Hlay.
  pose proof (rq_cur _ _ _ _ (ri_queue _ _ _ _ _ _ _ _ _ _ Hi)) as Hcur. destruct q as [|e q]; cbn [head].
  - rewrite (pcnet_receive_none dev s (ring_inv_empty _ _ _ _ _ _ _ _ _ Hi)). exists dev, s. cbn [take drop]. by rewrite app_nil_r.
  - destruct (pcnet_receive_entry _ dev s e Hlay eq_refl Hcur (ring_inv_head _ _ _ _ _ _ _ _ _ _ _ Hi)) as (m & E & Hd & Hf & Hx).
    rewrite E. eexists _, _. split; [reflexivity|]. split; [|done].
    by apply (ring_inv_pop _ _ desc_size_pos _ _ _ (entry_ext dev) (waiting_ext dev) _ (nic_mem s)).
Qed.

(** [n] calls of [receive], with their results. *)
Fixpoint receive_n (n : nat) (dev : PcnetDevice) : M (nic D) (list (option (list Z)) * PcnetDevice) :=
  match n with
  | O => mret ([], dev)
  | S n' =>
      '(r, dev1) ← receive dev;
      '(rs, dev2) ← receive_n n' dev1;
      mret (r :: rs, dev2)
  end.

Lemma dev_inv_drained q dev (s : nic D) sent taken :
  dev_inv dev (nic_mem s) sent taken q -> exists dev' s', receive_n (length q) dev s = Ret ((q, dev'), s').
Proof.
  revert dev s taken. induction q as [|e q IH]; intros dev s taken Hi; [by exists dev, s|].
  destruct (dev_inv_received _ _ _ _ _ Hi) as (dev1 & s1 & E1 & Hi1). destruct (IH _ _ _ Hi1) as (dev2 & s2 & E2).
  exists dev2, s2. cbn [length receive_n]. rewrite (M_bind_Ret _ _ _ _ _ E1), (M_bind_Ret _ _ _ _ _ E2). done.
Qed.

Lemma dev_inv_tx_done dev m m' sent taken q i fl :
  dev_inv dev m sent taken q -> (i < 32)%nat -> patched m (tx_desc dev i + D_FLAGS) (le_bytes 2 fl) m' -> dev_inv dev m' sent taken q.
Proof.
  intros [Hi Htx] Hlt Hp. pose proof (ri_layout _ _ _ _ _ _ _ _ _ _ Hi) as Hlay. split; [|done].
  apply (ring_inv_keep _ _ _ _ _ (entry_ext dev) (waiting_ext dev) _ m); [exact Hi|..].
  - eapply patched_dom; [|exact Hp]. apply within_mapped. rewrite le_bytes_length.
    apply (proj1 (proj2 (dev_facts _ dev i Hlay Hlt))); unfold D_FLAGS, DESC_SIZE; lia.
  - intros k x Hk Hin. apply (patched_outside _ _ _ _ _ Hp). rewrite le_bytes_length.
    pose proof (tx_desc_apart _ _ desc_size_pos _ _ Hlay k i x Hk Hlt Hin) as Hn.
    change (tx_slot DESC_SIZE (rings_of dev) i) with (tx_desc dev i) in Hn. unfold D_FLAGS, DESC_SIZE in *. lia.
Qed.

Lemma dev_inv_transmitted fuel dev (s : nic D) sent taken q data r dev' s' :
  dev_inv dev (nic_mem s) sent taken q -> tx_free dev (nic_mem s) (tx_current dev) ->
  transmit (S fuel) dev data s = Ret ((r, dev'), s') -> dev_inv dev' (nic_mem s') sent taken q.
Proof.
  intros [Hi Htx] Hf E. pose proof (ri_layout _ _ _ _ _ _ _ _ _ _ Hi) as Hlay.
  destruct (Z.ltb_spec BUF_SIZE (Z.of_nat (length data))) as [Hl|Hl].
  { unfold transmit in E. rewrite (proj2 (Z.ltb_lt _ _)) in E by done. apply mret_inv in E as [E <-]. by injection E as _ <-. }
  destruct (dev_facts _ dev (tx_current dev) Hlay Htx) as (_ & _ & _ & b & Hb & _).
  destruct (pcnet_transmit_ok fuel _ dev s data b Hlay eq_refl Htx Hb Hf Hl) as (v & m & d & E1 & Hd & _ & _ & _ & Hx).
  rewrite E1 in E. injection E as _ <- <-. split; [|apply slot_bound].
  apply (ring_inv_keep _ _ _ _ _ (entry_ext dev) (waiting_ext dev) _ (nic_mem s)); [exact Hi|done|].
  intros i x Hi' Hin. apply Hx.
  - by eapply (tx_buffer_apart _ _ desc_size_pos _ _ Hlay i (tx_current dev)).
  - by apply (tx_desc_apart _ _ desc_size_pos _ _ Hlay i).
Qed.

(** The packets among the entries. *)
Definition packets (es : list (option (list Z))) : list (list Z) := omap id es.

Lemma packets_take q : packets (take 1 q) = option_list (mjoin (head q)).
Proof. by destruct q as [|[f|] q]. Qed.

Lemma pcnet_run_inv dev s sent got :
  pcnet_run dev s sent got -> exists taken q, dev_inv dev (nic_mem s) sent taken q /\ got = packets taken.
Proof.
  induction 1 as [base s segs dev s' Hr E|dev s sent got e m d log _ (taken & q & Hi & Hg) Hf Hd
                 |dev s sent got i fl m d log _ (taken & q & Hi & Hg) Hlt Hp|dev s sent got r dev' s' _ (taken & q & Hi & Hg) E
                 |fuel dev s sent got data r dev' s' _ (taken & q & Hi & Hg) Hf E].
  - destruct (pcnet_new_blocks heap_base Hbase base s segs Hr) as [E1|(r & s1 & segs1 & E1 & _ & _ & Hfr)]; rewrite E1 in E; [done|].
    injection E as -> <-. destruct (Hfr Hpatient) as [Hlay Hf Ht Hc Htx].
    exists [], []. split; [|done]. split; [|rewrite Htx; lia]. rewrite Hc. by apply ring_inv_new.
  - exists taken, (q ++ [e]). split; [by eapply dev_inv_delivered|done].
  - exists taken, q. split; [by eapply dev_inv_tx_done|done].
  - destruct (dev_inv_received _ _ _ _ _ Hi) as (dev1 & s1 & E1 & Hi1). rewrite E1 in E. injection E as <- <- <-.
    exists (taken ++ take 1 q), (drop 1 q). split; [done|]. unfold packets in *. by rewrite omap_app, <- Hg, <- packets_take.
  - exists taken, q. split; [by eapply dev_inv_transmitted|done].
Qed.

End run.

(** ** The properties *)

(** C16. The receive ring is a queue.  With a card that writes no memory before it is
    started, over every sequence of calls of [receive] and [transmit] on a new
    device, with the card filling descriptors and giving send descriptors back in
    between: the packets [receive] has returned are the marked ones among the first
    entries the card has put into the ring, in order and unchanged; at most 32
    entries are waiting; the next call of [receive] takes out the first one, which it
    returns if it is marked; and as many calls as there are entries waiting take out
    all of them. *)
Theorem pcnet_receives_in_order {D} `{Card D} heap_base dev (s : nic D) sent got :
  base_ok heap_base -> patient (D := D) -> pcnet_run heap_base dev s sent got ->
  exists taken q, sent = taken ++ q /\ got = packets taken /\ (length q <= 32)%nat /\
    (exists dev' s', receive dev s = Ret ((mjoin (head q), dev'), s') /\
       pcnet_run heap_base dev' s' sent (got ++ option_list (mjoin (head q)))) /\
    (exists dev' s', receive_n (length q) dev s = Ret ((q, dev'), s')).
Proof.
  intros Hb Hp Hr. destruct (pcnet_run_inv heap_base Hb Hp _ _ _ _ Hr) as (taken & q & Hi & Hg). exists taken, q.
  destruct (dev_inv_received _ _ _ _ _ Hi) as (dev' & s' & E & _). pose proof (dev_inv_drained _ _ _ _ _ Hi) as Hdrain.
  destruct Hi as [[_ Hq Hs _] _]. split; [done|]. split; [done|]. split; [apply Hq|]. split; [|done].
  exists dev', s'. split; [done|]. by eapply prun_receive.
Qed.

(** The card can put any packet that fits into a slot. *)
Lemma pcnet_can_deliver ds dev i f m :
  dev_layout ds dev -> dom m = ds -> (i < 32)%nat -> Z.of_nat (length f) + 4 <= BUF_SIZE -> exists m', dev_delivers dev i (Some f) m m'.
Proof.
  intros Hlay Hd Hi Hl. destruct (dev_facts ds dev i Hlay Hi) as (Hw & _ & (b & Hb & Hap & Hbuf) & _).
  pose proof (slot_desc dev i) as Hsl. assert (0 <= Z.of_nat (length f) + 4 < 2 ^ 16) as Hr by (unfold BUF_SIZE in Hl; lia).
  destruct (store_run b f (mkNic (init_heap 4096) m tt [])) as (m1 & _ & P1 & D1); [cbn; rewrite Hd; apply Hbuf; lia|].
  cbn [nic_mem] in P1, D1. unfold DESC_SIZE in *.
  destruct (store_word_ok (rx_desc dev i + D_MSG_LEN) (Z.of_nat (length f) + 4) (mkNic (init_heap 4096) m1 tt [])) as (m2 & _ & W2 & D2 & O2);
    [cbn; rewrite D1, Hd; apply Hw; unfold D_MSG_LEN; lia|done|].
  destruct (store_word_ok (rx_desc dev i + D_FLAGS) 0x4000 (mkNic (init_heap 4096) m2 tt [])) as (m3 & _ & W3 & D3 & O3);
    [cbn in *; rewrite D2, D1, Hd; apply Hw; unfold D_FLAGS; lia|lia|].
  cbn [nic_mem] in *. unfold D_MSG_LEN, D_FLAGS in *. exists m3. split; [|split; [congruence|]].
  - exists 0x4000. split; [done|]. split; [done|]. split; [done|]. split; [done|]. split.
    + eapply word_at_ext; [|exact W2]. intros x Hx. unfold D_MSG_LEN in Hx. apply O3. lia.
    + exists b. split; [done|]. eapply bytes_at_ext; [eapply bytes_at_patched, P1|]. intros x Hx. rewrite O3, O2; [done|lia|lia].
  - intros x Hx. assert (~ (rx_desc dev i <= x < rx_desc dev i + 12)) by (intros ?; by apply Hx, Hsl).
    assert (~ (b <= x < b + BUF_SIZE)) by (intros ?; apply Hx; right; by exists b).
    rewrite O3, O2 by lia. apply (patched_outside _ _ _ _ _ P1). lia.
Qed.

Lemma still_patient : patient (D := unit).
Proof. done. Qed.

Lemma demo_pcnet_new : exists dev s', new 0xC000 demo_nic = Ret (Some dev, s') /\ fresh dev (nic_mem s').
Proof.
  destruct (pcnet_new_ok 4096 base_ok_4096 0xC000 demo_nic _ [] demo_nic_ready) as (dev & s' & segs' & E & _ & _ & Hf);
    [by apply owned_nil|apply Exists_cons_hd; cbn; unfold HEAP_SIZE, BLOCK_HEADER; lia|].
  exists dev, s'. split; [exact E|exact (Hf still_patient)].
Qed.

(** A new device whose card has received one packet. *)
Lemma demo_pcnet_run : exists dev s, pcnet_run 4096 dev (s : nic unit) [Some [1; 2; 3]] [].
Proof.
  destruct demo_pcnet_new as (dev & s & E & Hf).
  destruct (pcnet_can_deliver _ dev 0 [1; 2; 3] (nic_mem s) (fr_layout _ _ Hf) eq_refl) as [m Hd]; [lia|unfold BUF_SIZE; cbn; lia|].
  exists dev, (mkNic (nic_heap s) m tt []). apply (prun_deliver 4096 dev s [] [] (Some [1; 2; 3])).
  - eapply prun_new; [exact demo_nic_ready|exact E].
  - apply (fr_free _ _ Hf). cbn. lia.
  - exact Hd.
Qed.

Lemma pcnet_receives_in_order_witness :
  exists dev (s : nic unit) dev' s', receive_n 1 dev s = Ret (([Some [1; 2; 3]], dev'), s').
Proof.
  destruct demo_pcnet_run as (dev & s & Hr).
  destruct (pcnet_receives_in_order 4096 dev s _ _ base_ok_4096 still_patient Hr) as (taken & q & Hq & Hg & _ & _ & dev' & s' & E).
  destruct taken as [|e taken]; [cbn [app] in Hq; subst q; exists dev, s, dev', s'; exact E|].
  exfalso. injection Hq as <- _. discriminate Hg.
Defined.

(** Making a device neither leaks nor takes too much, and never runs on: the
    initialisation is polled a bounded number of times, so [pcnet_init] ends whatever
    the card does.  On success exactly the 69 blocks of the new device are allocated
    besides the blocks of others - the init block, two rings, 64 buffers and the
    blocks of the two vectors of buffers - those of the old device being freed, and
    the rings are empty if the card leaves them alone until started; when one of the
    others cannot be had, at whichever allocation, the code is -1 and the old device
    and all blocks are as before; when a vector cannot grow it panics.  With 110000
    bytes of room it succeeds. *)
Theorem pcnet_init_blocks {D} `{Card D} heap_base st base (s : nic D) segs rest :
  base_ok heap_base -> heap_ready heap_base s segs -> owned heap_base segs (st_regions device_blocks st) rest ->
  (pcnet_init st base s = Panic \/
   exists code st' s' segs', pcnet_init st base s = Ret ((code, st'), s') /\ heap_ready heap_base s' segs' /\
     ((code = 0 /\ exists dev, st' = Some dev /\ (patient (D := D) -> fresh dev (nic_mem s')) /\
         owned heap_base segs' (device_blocks dev) rest) \/
      (code = -1 /\ st' = st /\ live heap_base segs' ≡ₚ live heap_base segs))) /\
  (has_room segs 110000 -> exists dev s', pcnet_init st base s = Ret ((0, Some dev), s')).
Proof.
  intros Hb Hr Ho. split.
  - destruct (pcnet_new_blocks heap_base Hb base s segs Hr) as [E|(r & s1 & segs1 & E & Hr1 & Ho1 & Hf)]; [left; by apply M_bind_Panic|right].
    destruct (pcnet_replace heap_base Hb st base s segs rest r s1 segs1) as (s' & segs' & Hr' & Hm); [done..|].
    destruct r as [dev|]; [destruct Hm as (E' & Hf' & Hl)|destruct Hm as [E' Hl]]; eexists _, _, s', segs'; (split; [exact E'|]); (split; [done|]).
    + left. split; [done|]. by exists dev.
    + by right.
  - intros Hroom. destruct (pcnet_new_ok heap_base Hb base s segs (live heap_base segs) Hr) as (dev & s1 & segs1 & E & Hr1 & Ho1 & Hf);
      [by apply owned_nil|done|].
    destruct (pcnet_replace heap_base Hb st base s segs rest (Some dev) s1 segs1) as (s' & segs' & _ & E' & _); [done..|]. by exists dev, s'.
Qed.

Lemma pcnet_init_blocks_witness :
  exists dev s', pcnet_init None 0xC000 demo_nic = Ret ((0, Some dev), s').
Proof.
  destruct (pcnet_init_blocks 4096 None 0xC000 demo_nic [(HEAP_SIZE - BLOCK_HEADER, true)] [])
    as [_ H]; [exact base_ok_4096|exact demo_nic_ready|by apply owned_nil|].
  apply H, Exists_cons_hd. cbn. unfold HEAP_SIZE, BLOCK_HEADER. lia.
Defined.

(** Sending a packet of at most 1536 bytes when the current descriptor belongs
    to the driver: the data is in its buffer, the two's complement of the length in
    the descriptor and the flags OWN, STP and ENP, nothing else in memory is changed,
    the card is asked to look for packets with the other bits of the status
    register written back, and the next descriptor becomes the current one.  A
    longer packet is refused without any effect. *)
Theorem pcnet_transmit_sends {D} `{Card D} ds fuel dev (s : nic D) data b :
  dev_layout ds dev -> dom (nic_mem s) = ds -> (tx_current dev < 32)%nat -> tx_buffers dev !! tx_current dev = Some b ->
  tx_free dev (nic_mem s) (tx_current dev) ->
  if BUF_SIZE <? Z.of_nat (length data)
  then transmit (S fuel) dev data s = Ret ((inr "Packet too large"%string, dev), s)
  else exists v m d, transmit (S fuel) dev data s = Ret ((inl tt, with_tx_current (slot (tx_current dev) 1) dev),
      mkNic (nic_heap s) m d (nic_log s ++
        [Out 2 (port dev REG_RAP) CSR_STATUS; In 2 (port dev REG_RDP) v;
         Out 2 (port dev REG_RAP) CSR_STATUS; Out 2 (port dev REG_RDP) (v .| STATUS_TDMD)%W])) /\
    dom m = ds /\ bytes_at m b data /\
    word_at m (tx_desc dev (tx_current dev) + D_BUF_LEN) (u16 (- Z.of_nat (length data))) /\
    word_at m (tx_desc dev (tx_current dev) + D_FLAGS) 0x8300 /\
    forall x, ~ (b <= x < b + BUF_SIZE) -> ~ (tx_desc dev (tx_current dev) <= x < tx_desc dev (tx_current dev) + DESC_SIZE) ->
      m !! x = nic_mem s !! x.
Proof.
  intros Hlay Hd Hc Hb Hf. destruct (Z.ltb_spec BUF_SIZE (Z.of_nat (length data))) as [Hl|Hl].
  - unfold transmit. by rewrite (proj2 (Z.ltb_lt _ _)) by done.
  - by apply pcnet_transmit_ok.
Qed.

Lemma pcnet_transmit_sends_witness :
  exists dev (s : nic unit) dev' s', transmit 1 dev [1; 2; 3] s = Ret ((inl tt, dev'), s').
Proof.
  destruct demo_pcnet_new as (dev & s & _ & [Hlay _ Ht _ Hc]).
  destruct (dev_facts _ dev 0 Hlay ltac:(lia)) as (_ & _ & _ & b & Hb & _).
  destruct (pcnet_transmit_sends _ 0 dev s [1; 2; 3] b Hlay eq_refl) as (v & m & d & E & _).
  - rewrite Hc. lia.
  - by rewrite Hc.
  - rewrite Hc. apply Ht. lia.
  - eexists dev, s, _, _. exact E.
Defined.

(** A small device for the two points below: one receive slot at 1000 with a buffer
    of 64 bytes at 2000. *)
Definition demo_pcnet : PcnetDevice := mkPcnet 0xC000 (replicate 6 0) 0 1000 0 (replicate 32 2000) (replicate 32 0) 0 0 0 0.

Definition demo_slot (flags msg_len : Z) : nic unit :=
  mkNic (init_heap 4096)
    (poke 1000 (le_bytes 4 2000 ++ le_bytes 2 flags ++ le_bytes 2 (u16 (-1536)) ++ le_bytes 2 msg_len ++ [0; 0]) (blank 2000 64)) tt [].

(** The test for the start of a packet looks at bit 14 and not at the bit [transmit]
    sets as STP: a whole packet, with STP and ENP, is dropped. *)
Theorem pcnet_drops_whole_packets :
  exists s', receive demo_pcnet (demo_slot 0x0300 64) = Ret ((None, with_rx_current 1 demo_pcnet), s').
Proof. eexists. vm_compute. reflexivity. Qed.

(** The four bytes of the checksum are subtracted without a check: with a message
    length of 0, as the driver itself writes it, 65532 bytes are read. *)
Theorem pcnet_reads_past_buffer : receive demo_pcnet (demo_slot 0x4000 0) = Fault.
Proof. vm_compute. reflexivity. Qed.
