(* ===== verification/PciNet.v ===== *)
(** * PciNet: which driver a PCI device gets, [pci_net.rs]

    The tables that map vendor and device numbers to drivers and names.  The
    function that starts the driver is in the file for [network.rs]. *)

From S2P Require Import Prelude Memory Heap Blocks.

Local Open Scope Z_scope.

Definition VENDOR_REALTEK : Z := 0x10EC.
Definition VENDOR_INTEL : Z := 0x8086.
Definition VENDOR_AMD : Z := 0x1022.

Definition DEVICE_RTL8139 : Z := 0x8139.
Definition DEVICE_E1000 : Z := 0x100E.
Definition DEVICE_E1000_82540EM : Z := 0x100E.
Definition DEVICE_E1000_82545EM : Z := 0x100F.
Definition DEVICE_E1000_82574L : Z := 0x10D3.
Definition DEVICE_PCNET_FAST3 : Z := 0x2000.
Definition DEVICE_PCNET_HOME : Z := 0x2001.

Inductive NetworkDeviceType := NetRtl8139 | NetE1000 | NetPcnet | NetUnknown.

#[export] Instance NetworkDeviceType_eq_dec : EqDecision NetworkDeviceType.
Proof. solve_decision. Defined.

Definition identify (vendor_id device_id : Z) : NetworkDeviceType :=
  if (vendor_id =? VENDOR_REALTEK) && (device_id =? DEVICE_RTL8139) then NetRtl8139
  else if (vendor_id =? VENDOR_INTEL) && (device_id =? DEVICE_E1000) then NetE1000
  else if (vendor_id =? VENDOR_INTEL) && (device_id =? DEVICE_E1000_82540EM) then NetE1000
  else if (vendor_id =? VENDOR_INTEL) && (device_id =? DEVICE_E1000_82545EM) then NetE1000
  else if (vendor_id =? VENDOR_INTEL) && (device_id =? DEVICE_E1000_82574L) then NetE1000
  else if (vendor_id =? VENDOR_AMD) && (device_id =? DEVICE_PCNET_FAST3) then NetPcnet
  else if (vendor_id =? VENDOR_AMD) && (device_id =? DEVICE_PCNET_HOME) then NetPcnet
  else NetUnknown.

Definition device_name (t : NetworkDeviceType) : string :=
  match t with
  | NetRtl8139 => "RTL8139"
  | NetE1000 => "Intel E1000"
  | NetPcnet => "AMD PCnet"
  | NetUnknown => "Unknown"
  end.

Definition pci_net_identify_device (vendor_id device_id : Z) : Z :=
  match identify vendor_id device_id with
  | NetRtl8139 => 1
  | NetE1000 => 2
  | NetPcnet => 3
  | NetUnknown => 0
  end.

(** The name, filled up to 16 bytes. *)
Definition name_bytes (t : NetworkDeviceType) : list Z :=
  match t with
  | NetRtl8139 => bytes "Realtek RTL8139" ++ [0]
  | NetE1000 => bytes "Intel E1000" ++ replicate 5 0
  | NetPcnet => bytes "AMD PCnet" ++ replicate 7 0
  | NetUnknown => bytes "Unknown NIC" ++ replicate 5 0
  end.

Definition pci_net_get_device_name {St} `{HeapState St} (vendor_id device_id name_out max_len : Z) : M St unit :=
  let name := name_bytes (identify vendor_id device_id) in
  let copy_len := Z.min (Z.of_nat (length name)) max_len in
  store name_out (take (Z.to_nat copy_len) name).
