(* ===== verification/Network.v ===== *)
(** * Network: the network stack of [network.rs]

    The adapter that offers the three drivers to the smoltcp library, the stack with
    its table of sockets, and the functions for the rest of the kernel.

    smoltcp is a parameter: its types and functions are the fields of [Smoltcp], and
    what this code relies on is stated as [SmoltcpLaws] in the file with the proofs.
    One poll of an interface is a program that calls the device ([dev_prog]).
    [clock i] is what call number [i] of [timer_get_ticks] returns; [fuel] bounds the
    loops that wait for time to pass and [burst] the frames one poll takes in.  The
    memory of collections is not taken from the heap, except the frame buffers given
    to the drivers.  The serial diagnostics are left out. *)

From S2P Require Import Prelude Memory Heap Blocks Nic Rings Rtl8139 E1000 Pcnet PciNet.

Local Open Scope Z_scope.

(** ** smoltcp *)

(** A program that calls the device: it takes in a frame if there is one, sends a
    frame, or is done. *)
Inductive dev_prog (R : Type) : Type :=
| Done (r : R)
| Receive (k : option (list Z) -> dev_prog R)
| Send (frame : list Z) (k : dev_prog R)
| Endless.

Arguments Done {R} r.
Arguments Receive {R} k.
Arguments Send {R} frame k.
Arguments Endless {R}.

(** Address and prefix length. *)
Abbreviation cidr := (list Z * Z)%type.

Inductive sock_kind := KTcp | KUdp | KIcmp | KDhcp.

#[export] Instance sock_kind_eq_dec : EqDecision sock_kind.
Proof. solve_decision. Defined.

(** A socket to be added: sizes of its buffers, identifier. *)
Inductive new_socket :=
| TcpSocket (rx tx : Z)
| UdpSocket (rx_packets rx tx_packets tx : Z)
| IcmpSocket (ident rx tx : Z)
| DhcpSocket.

Definition new_kind (n : new_socket) : sock_kind :=
  match n with
  | TcpSocket _ _ => KTcp
  | UdpSocket _ _ _ _ => KUdp
  | IcmpSocket _ _ _ => KIcmp
  | DhcpSocket => KDhcp
  end.

Inductive tcp_state :=
| Closed | Listen | SynSent | SynReceived | Established | FinWait1 | FinWait2 | CloseWait | Closing | LastAck | TimeWait.

#[export] Instance tcp_state_eq_dec : EqDecision tcp_state.
Proof. solve_decision. Defined.

Inductive dhcp_event :=
| Configured (address : cidr) (router : option (list Z)) (dns : list (list Z))
| Deconfigured.

Class Smoltcp := {
  Iface : Type;
  Sockets : Type;
  Handle : Type;
  handle_eq_dec :: EqDecision Handle;
  iface_new (mac : list Z) (seed : Z) : Iface;
  ip_addrs : Iface -> list cidr;
  push_ip : cidr -> Iface -> option Iface;
  clear_ips : Iface -> Iface;
  addr_ok : list Z -> bool;
  add_default_route : list Z -> Iface -> option Iface;
  iface_poll (burst : nat) (timestamp : Z) : Iface -> Sockets -> dev_prog (bool * Iface * Sockets);
  no_sockets : Sockets;
  add_socket : new_socket -> Sockets -> Handle * Sockets;
  remove_socket : Handle -> Sockets -> Sockets;
  kind_of : Sockets -> Handle -> option sock_kind;
  dhcp_poll : Handle -> Sockets -> option dhcp_event * Sockets;
  icmp_can_send : Handle -> Sockets -> bool;
  icmp_send : Handle -> list Z -> list Z -> Sockets -> bool * Sockets;
  icmp_can_recv : Handle -> Sockets -> bool;
  icmp_recv : Handle -> Sockets -> option (list Z) * Sockets;
  tcp_socket_connect : Handle -> list Z -> Z -> Z -> Iface -> Sockets -> bool * Iface * Sockets;
  tcp_socket_state : Handle -> Sockets -> tcp_state;
  tcp_is_active : Handle -> Sockets -> bool;
  tcp_listen : Handle -> Z -> Sockets -> bool * Sockets;
  tcp_may_send : Handle -> Sockets -> bool;
  tcp_can_send : Handle -> Sockets -> bool;
  tcp_send_slice : Handle -> list Z -> Sockets -> option Z * Sockets;
  tcp_recv_slice : Handle -> nat -> Sockets -> option (list Z) * Sockets;
  tcp_remote : Handle -> Sockets -> option (list Z * Z)
}.

(** ** Data *)
Inductive DriverType := DRtl8139 | DE1000 | DPcnet.

#[export] Instance DriverType_eq_dec : EqDecision DriverType.
Proof. solve_decision. Defined.

(** [NetDevice]: the driver and the Ethernet address. *)
Record NetDevice := mkNetDevice { nd_type : DriverType; nd_mac : list Z }.

Inductive SocketType := Tcp | Udp | Icmp.
Inductive SocketState := SClosed | SOpen | SListening | SConnected.

#[export] Instance SocketType_eq_dec : EqDecision SocketType.
Proof. solve_decision. Defined.
#[export] Instance SocketState_eq_dec : EqDecision SocketState.
Proof. solve_decision. Defined.

Record SocketEntry `{Smoltcp} := mkEntry {
  socket_type : SocketType;
  handle : Handle;
  state : SocketState;
  listening_socket : option Handle
}.

Record NetworkStack `{Smoltcp} := mkStack {
  device : NetDevice;
  interface : Iface;
  sockets : Sockets;
  socket_map : gmap Z SocketEntry;
  next_fd : Z;
  gateway : option (list Z);
  dns_servers : list (list Z)
}.

Definition with_interface `{Smoltcp} (i : Iface) (ss : Sockets) (st : NetworkStack) : NetworkStack :=
  mkStack _ (device st) i ss (socket_map st) (next_fd st) (gateway st) (dns_servers st).
Definition with_sockets `{Smoltcp} (ss : Sockets) (st : NetworkStack) : NetworkStack :=
  mkStack _ (device st) (interface st) ss (socket_map st) (next_fd st) (gateway st) (dns_servers st).
Definition with_map `{Smoltcp} (mp : gmap Z SocketEntry) (st : NetworkStack) : NetworkStack :=
  mkStack _ (device st) (interface st) (sockets st) mp (next_fd st) (gateway st) (dns_servers st).
Definition with_next_fd `{Smoltcp} (fd : Z) (st : NetworkStack) : NetworkStack :=
  mkStack _ (device st) (interface st) (sockets st) (socket_map st) fd (gateway st) (dns_servers st).

(** The drivers: heap, memory and cards, and the statics of the three drivers and of
    this module. *)
Record netdev (D : Type) := mkNetdev {
  dv_nic : nic D;
  dv_rtl : option Rtl8139Device;
  dv_e1000 : option E1000Device;
  dv_pcnet : option PcnetDevice;
  dv_active : option DriverType
}.

Arguments mkNetdev {D} _ _ _ _ _.
Arguments dv_nic {D} _.
Arguments dv_rtl {D} _.
Arguments dv_e1000 {D} _.
Arguments dv_pcnet {D} _.
Arguments dv_active {D} _.

(** Everything: the drivers, [NETWORK_STACK] with its lock, and the number of calls
    of [timer_get_ticks] so far. *)
Record net (D : Type) `{Smoltcp} := mkNet {
  nt_dev : netdev D;
  nt_stack : option NetworkStack;
  nt_locked : bool;
  nt_reads : nat
}.

Arguments mkNet {D _} _ _ _ _.
Arguments nt_dev {D _} _.
Arguments nt_stack {D _} _.
Arguments nt_locked {D _} _.
Arguments nt_reads {D _} _.

(** ** The device adapter *)
Section device.

Context {D : Type} `{Card D} (fuel : nat) (mac_buf : Z).

Definition on_nic {A} (c : M (nic D) A) : M (netdev D) A := fun s =>
  '(a, n) ← c (dv_nic s); Ret (a, mkNetdev n (dv_rtl s) (dv_e1000 s) (dv_pcnet s) (dv_active s)).

(** Call a driver on its static device. *)
Definition on_rtl {A} (c : option Rtl8139Device -> M (nic D) (A * option Rtl8139Device)) : M (netdev D) A := fun s =>
  '(a, st, n) ← c (dv_rtl s) (dv_nic s); Ret (a, mkNetdev n st (dv_e1000 s) (dv_pcnet s) (dv_active s)).
Definition on_e1000 {A} (c : option E1000Device -> M (nic D) (A * option E1000Device)) : M (netdev D) A := fun s =>
  '(a, st, n) ← c (dv_e1000 s) (dv_nic s); Ret (a, mkNetdev n (dv_rtl s) st (dv_pcnet s) (dv_active s)).
Definition on_pcnet {A} (c : option PcnetDevice -> M (nic D) (A * option PcnetDevice)) : M (netdev D) A := fun s =>
  '(a, st, n) ← c (dv_pcnet s) (dv_nic s); Ret (a, mkNetdev n (dv_rtl s) (dv_e1000 s) st (dv_active s)).

Definition set_active (t : DriverType) : M (netdev D) unit :=
  modify (fun s => mkNetdev (dv_nic s) (dv_rtl s) (dv_e1000 s) (dv_pcnet s) (Some t)).

(** [vec![0u8; n]] for [n > 0]: a zeroed block of the heap; running out of memory
    panics. *)
Definition vec_zeroed (n : Z) : M (nic D) Z :=
  p ← kmalloc n;
  if p =? 0 then lift Panic
  else _ ← store p (replicate (Z.to_nat n) 0); mret p.

Definition driver_transmit (data len : Z) : M (netdev D) unit :=
  s ← get;
  match dv_active s with
  | Some DRtl8139 => _ ← on_rtl (fun st => Rtl8139.rtl8139_transmit st data len); mret tt
  | Some DE1000 => _ ← on_e1000 (fun st => E1000.e1000_transmit fuel st data len); mret tt
  | Some DPcnet => _ ← on_pcnet (fun st => Pcnet.pcnet_transmit fuel st data len); mret tt
  | None => mret tt
  end.

(** [TxToken::consume], the closure having filled the buffer with [frame]. *)
Definition consume_tx (frame : list Z) : M (netdev D) unit :=
  let len := Z.of_nat (length frame) in
  if len =? 0 then driver_transmit 1 0
  else
    buffer ← on_nic (vec_zeroed len);
    _ ← on_nic (store buffer frame);
    _ ← driver_transmit buffer len;
    on_nic (kfree buffer).

(** [Device::receive], with the token consumed. *)
Definition device_receive (dev : NetDevice) : M (netdev D) (option (list Z)) :=
  buffer ← on_nic (vec_zeroed 2048);
  len ← match nd_type dev with
        | DRtl8139 => on_rtl (fun st => Rtl8139.rtl8139_receive st buffer 2048)
        | DE1000 => on_e1000 (fun st => E1000.e1000_receive st buffer 2048)
        | DPcnet => on_pcnet (fun st => Pcnet.pcnet_receive st buffer 2048)
        end;
  if 0 <? len then
    frame ← on_nic (load buffer (Z.to_nat len));
    _ ← on_nic (kfree buffer);
    mret (Some frame)
  else
    _ ← on_nic (kfree buffer);
    mret None.

(** [mac_bytes] is at [mac_buf]. *)
Definition new_from_active_driver : M (netdev D) (option NetDevice) :=
  _ ← on_nic (store mac_buf (replicate 6 0));
  s ← get;
  match dv_active s with
  | Some t =>
      _ ← match t with
          | DRtl8139 => on_nic (Rtl8139.rtl8139_get_mac (dv_rtl s) mac_buf)
          | DE1000 => on_nic (E1000.e1000_get_mac (dv_e1000 s) mac_buf)
          | DPcnet => on_nic (Pcnet.pcnet_get_mac (dv_pcnet s) mac_buf)
          end;
      mac ← on_nic (load mac_buf 6);
      mret (Some (mkNetDevice t mac))
  | None => mret None
  end.

(** Run a program of smoltcp with the device. *)
Fixpoint run_dev {R} (dev : NetDevice) (p : dev_prog R) : M (netdev D) R :=
  match p with
  | Done r => mret r
  | Receive k => f ← device_receive dev; run_dev dev (k f)
  | Send frame k => _ ← consume_tx frame; run_dev dev k
  | Endless => lift Timeout
  end.

End device.

(** ** The stack *)
Section stack.

Context {D : Type} `{Card D} `{Smoltcp} (clock : nat -> Z) (fuel burst : nat) (mac_buf : Z) (fallback_qemu : bool).

Definition on_dev {A} (c : M (netdev D) A) : M (net D) A := fun s =>
  '(a, d) ← c (nt_dev s); Ret (a, mkNet d (nt_stack s) (nt_locked s) (nt_reads s)).

Definition timer_get_ticks : M (net D) Z := fun s =>
  Ret (clock (nt_reads s), mkNet (nt_dev s) (nt_stack s) (nt_locked s) (S (nt_reads s))).

(** [for _ in 0..n { spin_loop() }]. *)
Definition spins (n : nat) : M (net D) unit := on_dev (on_nic (for_each (fun _ => spin) (seq 0 n))).

(** [loop { … }]: go on with new values or leave with a result. *)
Fixpoint loop {A R} (n : nat) (body : A -> M (net D) (A + R)) (a : A) : M (net D) R :=
  match n with
  | O => lift Timeout
  | S n' => r ← body a; match r with inl a' => loop n' body a' | inr x => mret x end
  end.

(** [(timer_get_ticks() as i64) * 10]. *)
Definition now_ms : M (net D) Z := ticks ← timer_get_ticks; mret (i64 (i64 ticks * 10)).

(** A loop whose turns begin with reading the clock. *)
Definition timed_loop {A R} (body : Z -> A -> M (net D) (A + R)) (a : A) : M (net D) R :=
  loop fuel (fun a => now ← now_ms; body now a) a.

(** [sockets.get::<T>(handle)] panics when there is no such socket of that type. *)
Definition get_socket (k : sock_kind) (h : Handle) (ss : Sockets) : M (net D) unit :=
  if decide (kind_of ss h = Some k) then mret tt else lift Panic.

(** [sockets.remove(handle)] panics when there is no such socket. *)
Definition remove (h : Handle) (ss : Sockets) : M (net D) Sockets :=
  match kind_of ss h with Some _ => mret (remove_socket h ss) | None => lift Panic end.

Definition expect {A} (o : option A) : M (net D) A := match o with Some a => mret a | None => lift Panic end.

(** The end of [update_ip_addrs], after the closure: it panics when the interface has an
    address that smoltcp does not accept, one that is not unicast. *)
Definition check_ip_addrs (i : Iface) : M (net D) Iface :=
  if forallb (fun c => addr_ok c.1) (ip_addrs i) then mret i else lift Panic.

(** One turn of the loop in [poll]: whether there was work. *)
Definition poll_once (st : NetworkStack) : M (net D) (bool * NetworkStack) :=
  ticks ← timer_get_ticks;
  '(did_work, i, ss) ← on_dev (run_dev fuel (device st) (iface_poll burst (i64 (i64 ticks * 10)) (interface st) (sockets st)));
  mret (did_work, with_interface i ss st).

Fixpoint poll_loop (left idle : nat) (st : NetworkStack) : M (net D) NetworkStack :=
  match left with
  | O => mret st
  | S left' =>
      '(did_work, st) ← poll_once st;
      if (did_work : bool) then poll_loop left' 0 st
      else if (3 <=? idle + 1)%nat then mret st else poll_loop left' (idle + 1) st
  end.

Definition MAX_POLL_ITERATIONS : nat := 200.

Definition poll (st : NetworkStack) : M (net D) NetworkStack := poll_loop MAX_POLL_ITERATIONS 0 st.

(** [n] polls in a row. *)
Fixpoint polls (n : nat) (st : NetworkStack) : M (net D) NetworkStack :=
  match n with
  | O => mret st
  | S n' => st ← poll st; polls n' st
  end.

Definition new_with_ip (ip gw : list Z) : M (net D) NetworkStack :=
  dev ← on_dev (new_from_active_driver mac_buf);
  dev ← expect dev;
  seed ← timer_get_ticks;
  iface ← expect (push_ip (ip, 24) (iface_new (nd_mac dev) seed));
  iface ← check_ip_addrs iface;
  let has_gateway := negb (bool_decide (gw = [0; 0; 0; 0])) in
  iface ← (if has_gateway then expect (add_default_route gw iface) else mret iface);
  mret (mkStack _ dev iface no_sockets ∅ 1 (if has_gateway then Some gw else None) []).

Definition new_with_static_fallback : M (net D) NetworkStack :=
  if fallback_qemu then new_with_ip [10; 0; 2; 15] [10; 0; 2; 2] else new_with_ip [0; 0; 0; 0] [0; 0; 0; 0].

(** [.ok()]: an error leaves the interface as it is. *)
Definition try (f : Iface -> option Iface) (i : Iface) : Iface := default i (f i).

Definition dhcp_turn (dev : NetDevice) (dhcp_handle : Handle) (start_time now_ticks : Z) (a : Iface * Sockets) :
    M (net D) (Iface * Sockets + NetworkStack) :=
  let '(iface, ss) := a in
  let elapsed_ms := u64 (u64 (now_ticks - start_time) * 10) in
  if 10000 <? elapsed_ms then st ← new_with_static_fallback; mret (inr st)
  else
    '(_, iface, ss) ← on_dev (run_dev fuel dev (iface_poll burst (i64 (u64 (now_ticks * 10))) iface ss));
    _ ← get_socket KDhcp dhcp_handle ss;
    let '(event, ss) := dhcp_poll dhcp_handle ss in
    match event with
    | Some (Configured address router dns) =>
        iface ← check_ip_addrs (try (push_ip address) (clear_ips iface));
        let iface := match router with Some gw => try (add_default_route gw) iface | None => iface end in
        ss ← remove dhcp_handle ss;
        mret (inr (mkStack _ dev iface ss ∅ 1 router dns))
    | _ => _ ← spins 1000; mret (inl (iface, ss))
    end.

Definition new_with_dhcp : M (net D) NetworkStack :=
  dev ← on_dev (new_from_active_driver mac_buf);
  dev ← expect dev;
  seed ← timer_get_ticks;
  iface ← check_ip_addrs (try (push_ip ([0; 0; 0; 0], 0)) (iface_new (nd_mac dev) seed));
  let '(dhcp_handle, ss) := add_socket DhcpSocket no_sockets in
  start_time ← timer_get_ticks;
  loop fuel (fun a => now_ticks ← timer_get_ticks; dhcp_turn dev dhcp_handle start_time now_ticks a) (iface, ss).

Definition new : M (net D) NetworkStack := new_with_dhcp.

(** The polls for ARP: twenty, with a pause after every fifth, counting from [i]. *)
Fixpoint arp_polls (n : nat) (i : nat) (st : NetworkStack) : M (net D) NetworkStack :=
  match n with
  | O => mret st
  | S n' =>
      st ← poll st;
      _ ← (if (i mod 5 =? 0)%nat then spins 500 else mret tt);
      arp_polls n' (S i) st
  end.

Definition ping_payload : list Z := [0; 1; 2; 3; 4; 5; 6; 7].

(** The values that change in the loop of [icmp_ping]. *)
Record ping := mkPing { pg_stack : NetworkStack; pg_last_tx : Z; pg_sent : Z; pg_iterations : Z }.

(** (Re)send a request. *)
Definition ping_send (h : Handle) (dest : list Z) (now : Z) (p : ping) : M (net D) ping :=
  if (pg_sent p <? 5) && (200 <=? i64 (now - pg_last_tx p)) then
    let st := pg_stack p in
    _ ← get_socket KIcmp h (sockets st);
    if icmp_can_send h (sockets st) then
      let '(ok, ss) := icmp_send h ping_payload dest (sockets st) in
      if (ok : bool) then
        st ← poll (with_sockets ss st);
        mret (mkPing st now (pg_sent p + 1) (pg_iterations p))
      else mret (mkPing (with_sockets ss st) (pg_last_tx p) (pg_sent p) (pg_iterations p))
    else mret p
  else mret p.

(** Look for an answer. *)
Definition ping_recv (h : Handle) (st : NetworkStack) : M (net D) (bool * NetworkStack) :=
  _ ← get_socket KIcmp h (sockets st);
  if icmp_can_recv h (sockets st) then
    let '(data, ss) := icmp_recv h (sockets st) in
    mret (match data with Some d => (length ping_payload <=? length d)%nat | None => false end, with_sockets ss st)
  else mret (false, st).

Definition ping_turn (h : Handle) (dest : list Z) (start_ms deadline now : Z) (p : ping) : M (net D) (ping + Z * NetworkStack) :=
  let p := mkPing (pg_stack p) (pg_last_tx p) (pg_sent p) (i32 (pg_iterations p + 1)) in
  if deadline <=? now then mret (inr (-1, pg_stack p))
  else
    p ← ping_send h dest now p;
    st ← polls 5 (pg_stack p);
    '(answered, st) ← ping_recv h st;
    if (answered : bool) then mret (inr (i32 (now - start_ms), st))
    else
      _ ← (if Z.rem (pg_iterations p) 10 =? 0 then spins 1000 else mret tt);
      mret (inl (mkPing st (pg_last_tx p) (pg_sent p) (pg_iterations p))).

Definition icmp_ping (ip : list Z) (timeout_ms : Z) (st : NetworkStack) : M (net D) (Z * NetworkStack) :=
  let '(h, ss) := add_socket (IcmpSocket 0x1234 1024 1024) (sockets st) in
  start_ms ← now_ms;
  let deadline := i64 (start_ms + timeout_ms) in
  st ← arp_polls 20 0 (with_sockets ss st);
  '(rtt_ms, st) ← timed_loop (ping_turn h ip start_ms deadline) (mkPing st (i64 (start_ms - 100000)) 0 0);
  ss ← remove h (sockets st);
  mret (rtt_ms, with_sockets ss st).

Definition add_entry (t : SocketType) (n : new_socket) (st : NetworkStack) : Z * NetworkStack :=
  let '(h, ss) := add_socket n (sockets st) in
  let fd := next_fd st in
  (fd, with_map (<[fd := mkEntry _ t h SOpen None]> (socket_map st)) (with_next_fd (i32 (fd + 1)) (with_sockets ss st))).

Definition create_tcp_socket (st : NetworkStack) : Z * NetworkStack := add_entry Tcp (TcpSocket 4096 4096) st.
Definition create_udp_socket (st : NetworkStack) : Z * NetworkStack := add_entry Udp (UdpSocket 16 4096 16 4096) st.

(** The entry of a TCP socket. *)
Definition tcp_entry (fd : Z) (st : NetworkStack) : option SocketEntry :=
  match socket_map st !! fd with
  | Some e => if bool_decide (socket_type e = Tcp) then Some e else None
  | None => None
  end.

Definition local_port (fd : Z) : Z := 49152 + u16 fd mod 16384.

Definition connect_turn (h : Handle) (deadline now : Z) (a : NetworkStack * Z) : M (net D) (NetworkStack * Z + Z * NetworkStack) :=
  let '(st, poll_count) := a in
  if deadline <=? now then mret (inr (-1, st))
  else
    st ← poll st;
    let poll_count := i32 (poll_count + 1) in
    _ ← get_socket KTcp h (sockets st);
    if tcp_is_active h (sockets st) && bool_decide (tcp_socket_state h (sockets st) = Established) then mret (inr (0, st))
    else
      _ ← (if Z.rem poll_count 10 =? 0 then spins 500 else mret tt);
      mret (inl (st, poll_count)).

Definition tcp_connect (fd : Z) (ip : list Z) (port : Z) (st : NetworkStack) : M (net D) (Z * NetworkStack) :=
  match tcp_entry fd st with
  | None => mret (-1, st)
  | Some e =>
      let h := handle e in
      _ ← get_socket KTcp h (sockets st);
      let '(ok, i, ss) := tcp_socket_connect h ip port (local_port fd) (interface st) (sockets st) in
      let st := with_interface i ss st in
      if negb ok then mret (-1, st)
      else
        start_ms ← now_ms;
        '(r, st) ← timed_loop (connect_turn h (i64 (start_ms + 3000))) (st, 0);
        if r =? 0 then mret (0, st)
        else _ ← get_socket KTcp h (sockets st); mret (-1, st)
  end.

Definition tcp_bind (fd port : Z) (st : NetworkStack) : M (net D) (Z * NetworkStack) :=
  match tcp_entry fd st with
  | None => mret (-1, st)
  | Some e =>
      _ ← get_socket KTcp (handle e) (sockets st);
      let '(ok, ss) := tcp_listen (handle e) port (sockets st) in
      if (ok : bool) then
        mret (0, with_map (<[fd := mkEntry _ (socket_type e) (handle e) SListening (listening_socket e)]> (socket_map st)) (with_sockets ss st))
      else mret (-1, with_sockets ss st)
  end.

(** Up to [n] polls until the socket is active. *)
Fixpoint poll_active (n : nat) (h : Handle) (st : NetworkStack) : M (net D) NetworkStack :=
  match n with
  | O => mret st
  | S n' =>
      st ← poll st;
      _ ← get_socket KTcp h (sockets st);
      if tcp_is_active h (sockets st) then mret st else poll_active n' h st
  end.

Definition send_turn (h : Handle) (data : list Z) (deadline now : Z) (a : NetworkStack * Z) : M (net D) (NetworkStack * Z + Z * NetworkStack) :=
  let '(st, attempts) := a in
  let attempts := i32 (attempts + 1) in
  if deadline <=? now then mret (inr (0, st))
  else
    _ ← get_socket KTcp h (sockets st);
    if negb (tcp_is_active h (sockets st)) then mret (inr (0, st))
    else
      let '(sent, ss) :=
        if tcp_may_send h (sockets st) && tcp_can_send h (sockets st) then tcp_send_slice h data (sockets st) else (None, sockets st) in
      match sent with
      | Some len => mret (inr (len, with_sockets ss st))
      | None =>
          st ← polls 5 (with_sockets ss st);
          _ ← (if Z.rem attempts 20 =? 0 then spins 1000 else mret tt);
          mret (inl (st, attempts))
      end.

Definition tcp_send (fd : Z) (data : list Z) (st : NetworkStack) : M (net D) (Z * NetworkStack) :=
  match tcp_entry fd st with
  | None => mret (-1, st)
  | Some e =>
      let h := handle e in
      st ← poll_active 100 h st;
      _ ← get_socket KTcp h (sockets st);
      if negb (tcp_is_active h (sockets st)) then mret (-1, st)
      else
        start_ms ← now_ms;
        '(total_sent, st) ← timed_loop (send_turn h data (i64 (start_ms + 10000))) (st, 0);
        mret (if 0 <? total_sent then total_sent else -1, st)
  end.

(** Receive into the buffer at [buf]. *)
Definition tcp_recv (fd buf len : Z) (st : NetworkStack) : M (net D) (Z * NetworkStack) :=
  match tcp_entry fd st with
  | None => mret (-1, st)
  | Some e =>
      _ ← get_socket KTcp (handle e) (sockets st);
      let '(r, ss) := tcp_recv_slice (handle e) (Z.to_nat len) (sockets st) in
      match r with
      | Some data => _ ← on_dev (on_nic (store buf data)); mret (Z.of_nat (length data), with_sockets ss st)
      | None => mret (-1, with_sockets ss st)
      end
  end.

Definition close_socket (fd : Z) (st : NetworkStack) : M (net D) (Z * NetworkStack) :=
  match socket_map st !! fd with
  | Some e => ss ← remove (handle e) (sockets st); mret (0, with_sockets ss (with_map (delete fd (socket_map st)) st))
  | None => mret (-1, st)
  end.

(** ** The functions for the rest of the kernel *)

(** [NETWORK_STACK.lock()] waits for ever when the lock is taken. *)
Definition lock : M (net D) unit := fun s =>
  if nt_locked s then Timeout else Ret (tt, mkNet (nt_dev s) (nt_stack s) true (nt_reads s)).
Definition unlock : M (net D) unit := modify (fun s => mkNet (nt_dev s) (nt_stack s) false (nt_reads s)).
Definition set_stack (st : NetworkStack) : M (net D) unit := modify (fun s => mkNet (nt_dev s) (Some st) (nt_locked s) (nt_reads s)).

(** [if let Some(ref mut stack) = *NETWORK_STACK.lock() { f(stack) } else { none }]. *)
Definition with_stack {A} (none : A) (f : NetworkStack -> M (net D) (A * NetworkStack)) : M (net D) A :=
  _ ← lock;
  s ← get;
  r ← match nt_stack s with
      | Some st => '(a, st) ← f st; _ ← set_stack st; mret a
      | None => mret none
      end;
  _ ← unlock;
  mret r.

(** [*NETWORK_STACK.lock() = Some(stack)]. *)
Definition install (st : NetworkStack) : M (net D) unit := _ ← lock; _ ← set_stack st; unlock.

Definition network_init_rtl8139 (io_base : Z) : M (net D) Z :=
  r ← on_dev (on_rtl (fun st => Rtl8139.rtl8139_init fuel st io_base));
  if r =? 0 then
    _ ← on_dev (set_active DRtl8139);
    st ← new;
    _ ← install st;
    mret 0
  else mret (-1).

Definition network_init_e1000 (mem_base : Z) : M (net D) Z :=
  r ← on_dev (on_e1000 (fun st => E1000.e1000_init st mem_base));
  if r =? 0 then
    _ ← on_dev (set_active DE1000);
    st ← new;
    _ ← install st;
    mret 0
  else mret (-1).

Definition network_init_pcnet (io_base : Z) : M (net D) Z :=
  r ← on_dev (on_pcnet (fun st => Pcnet.pcnet_init st io_base));
  if r =? 0 then
    _ ← on_dev (set_active DPcnet);
    st ← new;
    _ ← install st;
    mret 0
  else mret (-1).

Definition network_init : M (net D) Z :=
  s ← get;
  match dv_active (nt_dev s) with
  | Some _ => st ← new; _ ← install st; mret 0
  | None => mret (-1)
  end.

Definition network_init_with_ip (ip gw : list Z) : M (net D) Z :=
  s ← get;
  match dv_active (nt_dev s) with
  | Some _ => st ← new_with_ip ip gw; _ ← install st; mret 0
  | None => mret (-1)
  end.

(** [try_lock]: without effect when the lock is taken. *)
Definition network_poll : M (net D) unit :=
  s ← get;
  if nt_locked s then mret tt
  else with_stack tt (fun st => st ← poll st; mret (tt, st)).

Definition net_icmp_ping (ip timeout_ms : Z) : M (net D) Z :=
  if ip =? 0 then mret (-1)
  else with_stack (-1) (fun st => addr ← on_dev (on_nic (load ip 4)); icmp_ping addr timeout_ms st).

Definition sock_socket : M (net D) Z := with_stack (-1) (fun st => mret (create_tcp_socket st)).

Definition sock_connect (s ip port : Z) : M (net D) Z :=
  with_stack (-1) (fun st => addr ← on_dev (on_nic (load ip 4)); tcp_connect s addr port st).

Definition sock_bind (s ip port : Z) : M (net D) Z := with_stack (-1) (tcp_bind s port).

Definition sock_listen (s backlog : Z) : M (net D) Z := with_stack (-1) (fun st => mret (0, st)).

(** The body of [sock_accept]. *)
Definition accept (s out_ip out_port : Z) (st : NetworkStack) : M (net D) (Z * NetworkStack) :=
  match socket_map st !! s with
  | Some e =>
      if negb (bool_decide (state e = SListening)) then mret (-1, st)
      else
        _ ← get_socket KTcp (handle e) (sockets st);
        if tcp_is_active (handle e) (sockets st) then
          let st := with_map (<[s := mkEntry _ (socket_type e) (handle e) SConnected (listening_socket e)]> (socket_map st)) st in
          _ ← match tcp_remote (handle e) (sockets st) with
              | Some (addr, port) =>
                  _ ← (if out_ip =? 0 then mret tt else on_dev (on_nic (store out_ip (take 4 addr))));
                  (if out_port =? 0 then mret tt else on_dev (on_nic (store_le out_port 2 port)))
              | None => mret tt
              end;
          mret (s, st)
        else mret (-1, st)
  | None => mret (-1, st)
  end.

Definition sock_accept (s out_ip out_port : Z) : M (net D) Z := with_stack (-1) (accept s out_ip out_port).

Definition sock_send (s buf len : Z) : M (net D) Z :=
  with_stack (-1) (fun st => data ← on_dev (on_nic (load buf (Z.to_nat len))); tcp_send s data st).

Definition sock_recv (s buf len : Z) : M (net D) Z := with_stack (-1) (tcp_recv s buf len).

Definition sock_close (s : Z) : M (net D) Z := with_stack (-1) (close_socket s).

Definition sock_set_nonblock (s nonblock : Z) : M (net D) Z := mret 0.

Definition sock_poll (fds nfds events_out timeout_ms : Z) : M (net D) Z := _ ← network_poll; mret 0.

(** The network mask of a prefix length, in network byte order. *)
Definition netmask (prefix_len : Z) : Z :=
  if prefix_len =? 0 then 0 else u32 (0xFFFFFFFF <<. (32 - prefix_len))%W.

Definition be_bytes4 (v : Z) : list Z :=
  [((v >>. 24) .& 0xFF)%W; ((v >>. 16) .& 0xFF)%W; ((v >>. 8) .& 0xFF)%W; (v .& 0xFF)%W].

(** Write to [p] unless it is null. *)
Definition put (p : Z) (b : list Z) : M (net D) unit := if p =? 0 then mret tt else on_dev (on_nic (store p b)).

Definition net_get_config (ip_out netmask_out gateway_out mac_out : Z) : M (net D) Z :=
  with_stack (-1) (fun st =>
    _ ← put mac_out (nd_mac (device st));
    match ip_addrs (interface st) with
    | (ip, prefix_len) :: _ =>
        _ ← put ip_out ip;
        _ ← put netmask_out (be_bytes4 (netmask prefix_len));
        _ ← put gateway_out (default [0; 0; 0; 0] (gateway st));
        mret (1, st)
    | [] => mret (0, st)
    end).

(** [pci_net_init_device] of [pci_net.rs]. *)
Definition pci_net_init_device (vendor_id device_id io_base mem_base : Z) : M (net D) Z :=
  match identify vendor_id device_id with
  | NetRtl8139 => network_init_rtl8139 io_base
  | NetE1000 => network_init_e1000 mem_base
  | NetPcnet => network_init_pcnet io_base
  | NetUnknown => mret (-1)
  end.

End stack.
