(* ===== verification/NetProps.v ===== *)
(** * NetProps: the network stack is safe and returns

    What the stack relies on of smoltcp ([SmoltcpLaws]) and of the driver
    ([DriverSpec]) are interfaces; the functions of the stack are shown to return, to
    keep the table of sockets and smoltcp's set of sockets in step, and never to look
    up a socket that is not there. *)

From S2P Require Import Prelude Memory Heap Blocks Nic Rings Rtl8139 E1000 Pcnet PciNet Network.

Local Open Scope Z_scope.

(** ** What is relied on *)

(** A frame smoltcp sends: not empty, and within the transmission unit. *)
Definition frame_ok (f : list Z) : Prop := (0 < length f <= 1500)%nat.

(** A program that ends with a result as in [P] if the device has at most [n] frames
    for it. *)
Fixpoint prog_ok {R} (n : nat) (P : R -> Prop) (p : dev_prog R) : Prop :=
  match p with
  | Done r => P r
  | Receive k => prog_ok n P (k None) /\ forall f, match n with O => True | S n' => prog_ok n' P (k (Some f)) end
  | Send frame k => frame_ok frame /\ prog_ok n P k
  | Endless => False
  end.

Lemma prog_ok_mono {R} (P : R -> Prop) p n n' : (n' <= n)%nat -> prog_ok n P p -> prog_ok n' P p.
Proof.
  revert n n'. induction p as [r|k IH|frame k IH|]; intros n n' Hn Hp; cbn [prog_ok] in *; [done| | |done].
  - destruct Hp as [H0 H1]. split; [by eapply IH|]. intros f. destruct n' as [|n']; [done|]. destruct n as [|n]; [lia|].
    eapply IH; [|apply H1]. lia.
  - destruct Hp as [Hf Hp]. split; [done|by eapply IH].
Qed.

(** The same sockets. *)
Definition same_kinds `{Smoltcp} (ss ss' : Sockets) : Prop := forall h, kind_of ss' h = kind_of ss h.

Class SmoltcpLaws `{Smoltcp} : Prop := {
  kind_none h : kind_of no_sockets h = None;
  kind_fresh n ss : kind_of ss (add_socket n ss).1 = None;
  kind_add n ss h : kind_of (add_socket n ss).2 h = if decide (h = (add_socket n ss).1) then Some (new_kind n) else kind_of ss h;
  kind_remove h ss h' : kind_of (remove_socket h ss) h' = if decide (h' = h) then None else kind_of ss h';
  poll_law b t i ss :
    prog_ok b (fun r : bool * Iface * Sockets => same_kinds ss r.2 /\ ip_addrs r.1.2 = ip_addrs i) (iface_poll b t i ss);
  kind_dhcp h ss : same_kinds ss (dhcp_poll h ss).2;
  kind_icmp_send h d a ss : same_kinds ss (icmp_send h d a ss).2;
  kind_icmp_recv h ss : same_kinds ss (icmp_recv h ss).2;
  kind_connect h a p l i ss : same_kinds ss (tcp_socket_connect h a p l i ss).2;
  ip_connect h a p l i ss : ip_addrs (tcp_socket_connect h a p l i ss).1.2 = ip_addrs i;
  kind_listen h p ss : same_kinds ss (tcp_listen h p ss).2;
  kind_send h d ss : same_kinds ss (tcp_send_slice h d ss).2;
  kind_recv h n ss : same_kinds ss (tcp_recv_slice h n ss).2;
  send_len h d ss n : (tcp_send_slice h d ss).1 = Some n -> 0 <= n <= Z.of_nat (length d);
  recv_len h n ss l : (tcp_recv_slice h n ss).1 = Some l -> (length l <= n)%nat;
  ip_new mac seed : ip_addrs (iface_new mac seed) = [];
  ip_push c i i' : push_ip c i = Some i' -> ip_addrs i' = ip_addrs i ++ [c];
  ip_room c i : ip_addrs i = [] -> is_Some (push_ip c i);
  ip_clear i : ip_addrs (clear_ips i) = [];
  addr_unspecified : addr_ok [0; 0; 0; 0] = true;
  addr_unicast a b c d : 1 <= a <= 223 -> addr_ok [a; b; c; d] = true;
  addr_dhcp h ss address router dns : (dhcp_poll h ss).1 = Some (Configured address router dns) -> addr_ok address.1 = true;
  ip_route gw i i' : add_default_route gw i = Some i' -> ip_addrs i' = ip_addrs i;
  route_room c gw mac seed i : push_ip c (iface_new mac seed) = Some i -> is_Some (add_default_route gw i);
  remote_len h ss a p : tcp_remote h ss = Some (a, p) -> length a = 4%nat
}.

(** What the adapter promises on top of a driver: with at most [n] frames to come in
    a state of [Inv n], taking in a frame, sending one and waiting return.  The
    addresses in [user] are the callers'. *)
Class DriverSpec {D} `{Card D} (fuel : nat) (t : DriverType) (user : gset Z) (Inv : nat -> netdev D -> Prop) : Prop := {
  ds_receive n dev s :
    nd_type dev = t -> Inv n s ->
    exists r s', device_receive dev s = Ret (r, s') /\
      match r with None => Inv n s' | Some _ => exists n', n = S n' /\ Inv n' s' end;
  ds_send n f s : frame_ok f -> Inv n s -> exists s', consume_tx fuel f s = Ret (tt, s') /\ Inv n s';
  ds_spin n s : Inv n s -> exists s', on_nic spin s = Ret (tt, s') /\ Inv n s';
  ds_user n s : Inv n s -> user ⊆ dom (nic_mem (dv_nic s));
  ds_write n s m :
    Inv n s -> dom m = dom (nic_mem (dv_nic s)) -> (forall x, x ∉ user -> m !! x = nic_mem (dv_nic s) !! x) ->
    Inv n (mkNetdev (with_hm (nic_heap (dv_nic s)) m (dv_nic s)) (dv_rtl s) (dv_e1000 s) (dv_pcnet s) (dv_active s));
  ds_active n s : Inv n s -> dv_active s = Some t;
  ds_mac n s mac_buf :
    Inv n s -> within user mac_buf 6 ->
    exists dev s', new_from_active_driver mac_buf s = Ret (Some dev, s') /\ nd_type dev = t /\ length (nd_mac dev) = 6%nat /\ Inv n s'
}.

(** The first [N] readings of the clock never go back, and it ticks at least once in
    [k] readings; it is far from overflowing. *)
Definition FAR : Z := 2 ^ 55.

Definition steady (k N : nat) (clock : nat -> Z) : Prop :=
  forall i, (i <= N)%nat ->
    0 <= clock i <= FAR /\ ((S i <= N)%nat -> clock i <= clock (S i)) /\ ((i + k <= N)%nat -> clock i < clock (i + k)%nat).

Lemma steady_mono k N clock i j : steady k N clock -> (i <= j <= N)%nat -> clock i <= clock j.
Proof.
  intros Hs Hij. induction j as [|j IH]; [by replace i with 0%nat by lia|]. destruct (decide (i = S j)) as [->|]; [done|].
  destruct (Hs j ltac:(lia)) as (_ & Hj & _). specialize (Hj ltac:(lia)). transitivity (clock j); [apply IH; lia|done].
Qed.

Lemma steady_after k N clock i T : steady k N clock -> (i + T * k <= N)%nat -> clock i + Z.of_nat T <= clock (i + T * k)%nat.
Proof.
  intros Hs. induction T as [|T IH]; intros HT; [rewrite Nat.mul_0_l, Nat.add_0_r; lia|].
  specialize (IH ltac:(lia)). replace (i + S T * k)%nat with (i + T * k + k)%nat in * by lia.
  destruct (Hs (i + T * k)%nat ltac:(lia)) as (_ & _ & Hk). specialize (Hk ltac:(lia)). lia.
Qed.

(** ** Running programs of smoltcp *)
Section proofs.

Context {D : Type} `{Hcard : Card D} `{Hsm : Smoltcp} `{Hlaws : !SmoltcpLaws} (clock : nat -> Z) (fuel burst N : nat) (mac_buf : Z) (fallback_qemu : bool).
Context (t : DriverType) (user : gset Z) (Inv : nat -> netdev D -> Prop) `{Hdrv : !DriverSpec fuel t user Inv}.

(** The driver is ready for a burst. *)
Definition ready (d : netdev D) : Prop := exists n, (n <= burst)%nat /\ Inv n d.

Lemma run_dev_ok {R} dev (P : R -> Prop) p n d :
  nd_type dev = t -> prog_ok n P p -> Inv n d ->
  exists r d' n', run_dev fuel dev p d = Ret (r, d') /\ P r /\ (n' <= n)%nat /\ Inv n' d'.
Proof.
  intros Ht. revert n d. induction p as [r|k IH|frame k IH|]; intros n d Hp Hi; cbn [prog_ok run_dev] in *.
  - by exists r, d, n.
  - destruct Hp as [H0 H1]. destruct (ds_receive n dev d Ht Hi) as (f & d1 & E1 & Hf). rewrite (M_bind_Ret _ _ _ _ _ E1).
    destruct f as [f|]; [|by apply IH]. destruct Hf as (n' & -> & Hi'). destruct (IH (Some f) n' d1 (H1 f) Hi') as (r & d' & n'' & E & Hr & Hn & Hi'').
    exists r, d', n''. split; [done|]. split; [done|]. split; [lia|done].
  - destruct Hp as [Hf Hp]. destruct (ds_send n frame d Hf Hi) as (d1 & E1 & Hi1). rewrite (M_bind_Ret _ _ _ _ _ E1). by apply IH.
  - done.
Qed.

(** A part of the code that returns with a result as in [Q], leaves the static stack
    and the lock alone, needs nothing but a ready driver and reads the clock at most
    [n] times, all of them within the first [N] readings. *)
Definition step (n : nat) (s s' : net D) : Prop :=
  ready (nt_dev s') /\ nt_stack s' = nt_stack s /\ nt_locked s' = nt_locked s /\ (nt_reads s <= nt_reads s' <= nt_reads s + n)%nat.

Definition returns {A} (c : M (net D) A) (n : nat) (Q : A -> Prop) : Prop :=
  forall s, ready (nt_dev s) -> (nt_reads s + n <= N)%nat -> exists a s', c s = Ret (a, s') /\ step n s s' /\ Q a.

Lemma step_trans n1 n2 n s1 s2 s3 : step n1 s1 s2 -> step n2 s2 s3 -> (n1 + n2 <= n)%nat -> step n s1 s3.
Proof. intros (_ & A1 & A2 & A3) (B0 & B1 & B2 & B3) Hn. split; [done|]. split; [congruence|]. split; [congruence|lia]. Qed.

Lemma returns_ret {A} (a : A) n (Q : A -> Prop) : Q a -> returns (mret a) n Q.
Proof. intros Hq s Hr Hn. exists a, s. split; [done|]. split; [|done]. split; [done|]. split; [done|]. split; [done|lia]. Qed.

Lemma returns_bind {A B} (c : M (net D) A) (k : A -> M (net D) B) n1 n2 n (Q : A -> Prop) (Q' : B -> Prop) :
  returns c n1 Q -> (forall a, Q a -> returns (k a) n2 Q') -> (n1 + n2 <= n)%nat -> returns (a ← c; k a) n Q'.
Proof.
  intros Hc Hk Hn s Hr HN. destruct (Hc s Hr ltac:(lia)) as (a & s1 & E1 & S1 & Ha). pose proof (proj2 (proj2 (proj2 S1))).
  destruct (Hk a Ha s1 (proj1 S1) ltac:(lia)) as (b & s2 & E2 & S2 & Hb).
  exists b, s2. rewrite (M_bind_Ret _ _ _ _ _ E1). split; [done|]. split; [by eapply step_trans|done].
Qed.

Lemma returns_weaken {A} (c : M (net D) A) n n' (Q Q' : A -> Prop) :
  returns c n Q -> (n <= n')%nat -> (forall a, Q a -> Q' a) -> returns c n' Q'.
Proof.
  intros Hc Hn Hq s Hr HN. destruct (Hc s Hr ltac:(lia)) as (a & s' & E & (S0 & S1 & S2 & S3) & Ha). exists a, s'.
  split; [done|]. split; [split; [done|]; split; [done|]; split; [done|lia]|by apply Hq].
Qed.

Lemma returns_ticks : returns (timer_get_ticks clock) 1 (fun _ => True).
Proof. intros s Hr HN. eexists _, _. split; [reflexivity|]. split; [|done]. split; [done|]. split; [done|]. split; [done|cbn; lia]. Qed.

Lemma returns_dev {A} (c : M (netdev D) A) n (Q : A -> Prop) :
  (forall d, ready d -> exists a d', c d = Ret (a, d') /\ ready d' /\ Q a) -> returns (on_dev c) n Q.
Proof.
  intros Hc s Hr HN. destruct (Hc (nt_dev s) Hr) as (a & d' & E & Hr' & Ha). eexists a, _. split.
  - unfold on_dev. rewrite E. reflexivity.
  - split; [|done]. split; [done|]. split; [done|]. split; [done|cbn; lia].
Qed.

Lemma returns_spins n m : returns (spins n) m (fun _ => True).
Proof.
  apply returns_dev. unfold on_nic. generalize 0%nat. induction n as [|n IH]; intros i d Hr; cbn [seq for_each].
  - exists tt, d. by destruct d.
  - destruct Hr as (b & Hb & Hi). destruct (ds_spin b d Hi) as (d1 & E1 & Hi1). unfold on_nic in E1.
    destruct (spin (dv_nic d)) as [[u n1]| | |] eqn:Es; [|done..]. cbn [mbind outcome_bind_inst outcome_bind] in E1. injection E1 as _ <-.
    destruct (IH (S i) _ (ex_intro _ b (conj Hb Hi1))) as (a & d2 & E2 & Hr2 & _). cbn [dv_nic dv_rtl dv_e1000 dv_pcnet dv_active] in E2.
    rewrite (M_bind_Ret _ _ _ _ _ Es). by exists a, d2.
Qed.

(** A pause in some of the turns. *)
Lemma returns_pause (b : bool) n m : returns (if b then spins n else mret tt) m (fun _ => True).
Proof. destruct b; [apply returns_spins|by apply returns_ret]. Qed.

(** ** The table of sockets *)
Definition entry_kind (e : SocketEntry) : sock_kind :=
  match socket_type e with Tcp => KTcp | Udp => KUdp | Icmp => KIcmp end.

(** The table and the set of sockets hold the same sockets. *)
Record stack_ok (st : NetworkStack) : Prop := {
  so_entry fd e : socket_map st !! fd = Some e ->
    1 <= fd < next_fd st /\ kind_of (sockets st) (handle e) = Some (entry_kind e);
  so_inj fd fd' e e' : socket_map st !! fd = Some e -> socket_map st !! fd' = Some e' -> handle e = handle e' -> fd = fd';
  so_all h k : kind_of (sockets st) h = Some k -> exists fd e, socket_map st !! fd = Some e /\ handle e = h;
  so_listen fd e : socket_map st !! fd = Some e -> state e = SListening -> socket_type e = Tcp;
  so_next : 1 <= next_fd st < 2 ^ 31;
  so_device : nd_type (device st) = t
}.

(** What polling may change: the interface and the state of the sockets. *)
Record evolves (st st' : NetworkStack) : Prop := {
  ev_device : device st' = device st;
  ev_map : socket_map st' = socket_map st;
  ev_next : next_fd st' = next_fd st;
  ev_gateway : gateway st' = gateway st;
  ev_kinds : same_kinds (sockets st) (sockets st');
  ev_ips : ip_addrs (interface st') = ip_addrs (interface st)
}.

#[local] Instance evolves_preorder : PreOrder evolves.
Proof.
  split.
  - intros st. by constructor.
  - intros a b c [] []. constructor; [congruence..| |congruence]. intros h. unfold same_kinds in *. congruence.
Qed.

Lemma evolves_ok st st' : evolves st st' -> stack_ok st -> stack_ok st'.
Proof.
  intros [Hd Hm Hn Hg Hk Hip] [He Hi Ha Hls Hx Ht]. constructor; rewrite ?Hm, ?Hn, ?Hd; [|done| |done|done|done].
  - intros fd e Hfd. rewrite Hk. by apply He.
  - intros h k Hh. rewrite Hk in Hh. by eapply Ha.
Qed.

Lemma evolves_sockets st ss : same_kinds (sockets st) ss -> evolves st (with_sockets ss st).
Proof. intros Hk. by constructor. Qed.

Lemma returns_poll_once st :
  nd_type (device st) = t -> returns (poll_once clock fuel burst st) 1 (fun r => evolves st r.2).
Proof.
  intros Ht. eapply (returns_bind _ _ 1 0); [apply returns_ticks| |done]. intros ticks _.
  eapply (returns_bind _ _ 0 0 0 (fun r : bool * Iface * Sockets => same_kinds (sockets st) r.2 /\ ip_addrs r.1.2 = ip_addrs (interface st))); [|
      by intros [[did i] ss] [Hk Hip]; apply returns_ret|done].
  apply returns_dev. intros d (n & Hn & Hi).
  destruct (run_dev_ok (device st) _ _ n d Ht (prog_ok_mono _ _ _ _ Hn (poll_law burst (i64 (i64 ticks * 10)) (interface st) (sockets st))) Hi)
      as (r & d' & n' & E & Hr & Hn' & Hi').
  exists r, d'. split; [done|]. split; [|done]. exists n'. split; [lia|done].
Qed.

Lemma returns_poll_loop left idle st :
  nd_type (device st) = t -> returns (poll_loop clock fuel burst left idle st) left (evolves st).
Proof.
  revert idle st. induction left as [|left IH]; intros idle st Ht; cbn [poll_loop]; [by apply returns_ret|].
  eapply returns_bind; [by apply returns_poll_once| |exact (le_n (1 + left))]. intros [did st1] Hev. cbn [snd] in Hev.
  assert (nd_type (device st1) = t) as Ht1 by (by rewrite (ev_device _ _ Hev)).
  destruct did; [|case_match; [by apply returns_ret|]]; (eapply returns_weaken; [by apply IH|done|]); intros st2 Hev2; by etransitivity.
Qed.

Lemma returns_poll st : nd_type (device st) = t -> returns (poll clock fuel burst st) 200 (evolves st).
Proof. apply returns_poll_loop. Qed.

Lemma returns_polls n st : nd_type (device st) = t -> returns (polls clock fuel burst n st) (n * 200) (evolves st).
Proof.
  revert st. induction n as [|n IH]; intros st Ht; cbn [polls]; [by apply returns_ret|].
  eapply (returns_bind _ _ 200 (n * 200)); [by apply returns_poll| |lia]. intros st1 Hev. cbn beta in Hev.
  eapply returns_weaken; [apply IH; by rewrite (ev_device _ _ Hev)|done|]. intros st2 Hev2. by etransitivity.
Qed.

Lemma returns_arp n i st : nd_type (device st) = t -> returns (arp_polls clock fuel burst n i st) (n * 200) (evolves st).
Proof.
  revert i st. induction n as [|n IH]; intros i st Ht; cbn [arp_polls]; [by apply returns_ret|].
  eapply (returns_bind _ _ 200 (n * 200)); [by apply returns_poll| |lia]. intros st1 Hev. cbn beta in Hev.
  eapply (returns_bind _ _ 0 (n * 200)); [apply returns_pause| |done]. intros _ _.
  eapply returns_weaken; [apply IH; by rewrite (ev_device _ _ Hev)|done|]. intros st2 Hev2. by etransitivity.
Qed.

Lemma returns_get k h ss n : kind_of ss h = Some k -> returns (get_socket k h ss) n (fun _ => True).
Proof. intros Hk. unfold get_socket. rewrite decide_True by done. by apply returns_ret. Qed.

Lemma returns_remove k h ss n : kind_of ss h = Some k -> returns (remove h ss) n (eq (remove_socket h ss)).
Proof. intros Hk. unfold remove. rewrite Hk. by apply returns_ret. Qed.

(** ** Loops that wait for the clock *)
Section waiting.

Context (k : nat) (Hsteady : steady k N clock).

Lemma loop_ok {A R} (body : A -> M (net D) (A + R)) (I : A -> Prop) (Q : R -> Prop) r0 T c n a (s : net D) :
  (r0 + T * k <= N)%nat ->
  (forall a s, I a -> ready (nt_dev s) -> (r0 <= nt_reads s)%nat -> (nt_reads s + c <= N)%nat ->
     exists x s', body a s = Ret (x, s') /\ step c s s' /\ (nt_reads s < nt_reads s')%nat /\
       match x with inl a' => I a' /\ clock (nt_reads s) < clock r0 + Z.of_nat T | inr r => Q r end) ->
  I a -> ready (nt_dev s) -> (r0 <= nt_reads s)%nat -> (0 < n)%nat -> (r0 + T * k < nt_reads s + n)%nat -> (nt_reads s + n * c <= N)%nat ->
  exists r s', loop n body a s = Ret (r, s') /\ step (n * c) s s' /\ Q r.
Proof.
  intros HN Hbody. pose proof (steady_after k N clock r0 T Hsteady HN) as Hend.
  revert a s. induction n as [|n IH]; intros a s Ha Hr Hge Hn Hlt Hc; [lia|]. cbn [loop].
  destruct (Hbody a s Ha Hr Hge ltac:(lia)) as (x & s1 & E1 & S1 & Hrd & Hx). rewrite (M_bind_Ret _ _ _ _ _ E1).
  pose proof (proj2 (proj2 (proj2 S1))) as Hrd1.
  destruct x as [a'|r].
  - destruct Hx as [Ha' Hclk]. assert (nt_reads s < r0 + T * k)%nat as Hearly.
    { destruct (decide (nt_reads s < r0 + T * k)%nat) as [|Hge']; [done|].
      pose proof (steady_mono k N clock (r0 + T * k) (nt_reads s) Hsteady ltac:(lia)). lia. }
    destruct (IH a' s1 Ha' (proj1 S1)) as (r & s2 & E2 & S2 & Hq); [lia..|].
    exists r, s2. split; [done|]. split; [|done]. eapply step_trans; [exact S1|exact S2|lia].
  - exists r, s1. split; [done|]. split; [|done]. destruct S1 as (S0 & S1 & S2 & S3). split; [done|]. split; [done|]. split; [done|lia].
Qed.

(** Milliseconds. *)
Lemma ms_of_ticks i : (i <= N)%nat -> i64 (i64 (clock i) * 10) = clock i * 10.
Proof.
  intros Hi. destruct (Hsteady i Hi) as (Hb & _). unfold FAR in Hb. rewrite (swrap_small 64 (clock i)) by lia. apply swrap_small; lia.
Qed.

Lemma now_ms_eq (s : net D) :
  (nt_reads s <= N)%nat ->
  now_ms clock s = Ret (clock (nt_reads s) * 10, mkNet (nt_dev s) (nt_stack s) (nt_locked s) (S (nt_reads s))).
Proof.
  intros Hn. unfold now_ms, timer_get_ticks, mbind, M_bind_inst. cbn [outcome_bind mret M_ret_inst]. by rewrite ms_of_ticks.
Qed.

(** A loop whose turns read the clock, from reading number [r0] on: a turn that goes
    on does so before [timeout] milliseconds have passed. *)
Lemma timed_ok {A R} (I : A -> Prop) (Q : R -> Prop) (timeout : Z) c (body : Z -> A -> M (net D) (A + R)) r0 a (s : net D) :
  - 2 ^ 31 <= timeout < 2 ^ 31 -> ((Z.to_nat (timeout / 10) + 1) * k < fuel)%nat ->
  (forall a now, I a -> clock r0 * 10 <= now <= FAR * 10 ->
     returns (body now a) c (fun x => match x with inl a' => I a' /\ now < clock r0 * 10 + timeout | inr r => Q r end)) ->
  I a -> ready (nt_dev s) -> (r0 <= nt_reads s)%nat -> (nt_reads s + fuel * S c <= N)%nat ->
  exists r s', timed_loop clock fuel body a s = Ret (r, s') /\ step (fuel * S c) s s' /\ Q r.
Proof.
  intros Ht Hfuel Hbody Ha Hr Hge HN. unfold timed_loop. set (T := (Z.to_nat (timeout / 10) + 1)%nat) in *.
  assert (timeout < Z.of_nat T * 10) as HT.
  { unfold T. pose proof (Z.div_mod timeout 10). pose proof (Z.mod_pos_bound timeout 10). lia. }
  eapply (loop_ok _ I Q r0 T (S c) fuel a s); [nia| |done|done|done|lia|lia|done].
  intros a1 s2 Ha1 Hr2 Hge2 Hc2. rewrite (M_bind_Ret _ _ _ _ _ (now_ms_eq s2 ltac:(lia))).
  pose proof (steady_mono k N clock r0 (nt_reads s2) Hsteady ltac:(lia)) as Hm. destruct (Hsteady (nt_reads s2) ltac:(lia)) as (Hb2 & _).
  destruct (Hbody a1 (clock (nt_reads s2) * 10) Ha1 ltac:(lia) (mkNet (nt_dev s2) (nt_stack s2) (nt_locked s2) (S (nt_reads s2))) Hr2 ltac:(cbn; lia))
    as (x & s' & E & (S1 & S2 & S3 & S4) & Hx).
  cbn [nt_dev nt_stack nt_locked nt_reads] in *. exists x, s'. split; [done|].
  split; [split; [done|]; split; [done|]; split; [done|lia]|]. split; [lia|].
  destruct x; [|done]. split; [apply Hx|]. destruct Hx as [_ Hx]. lia.
Qed.

(** The code around such a loop: it reads the clock first, as number [r0]. *)
Lemma start_ok {A} (c : Z -> M (net D) A) n (Q : A -> Prop) :
  (forall (s : net D) r0, ready (nt_dev s) -> (r0 < nt_reads s)%nat -> (nt_reads s + n <= N)%nat ->
     exists a s', c (clock r0 * 10) s = Ret (a, s') /\ step n s s' /\ Q a) ->
  returns (start ← now_ms clock; c start) (S n) Q.
Proof.
  intros Hc s Hr HN. rewrite (M_bind_Ret _ _ _ _ _ (now_ms_eq s ltac:(lia))).
  destruct (Hc (mkNet (nt_dev s) (nt_stack s) (nt_locked s) (S (nt_reads s))) (nt_reads s)) as (a & s' & E & (S0 & S1 & S2 & S3) & Hq);
    [done|cbn; lia|cbn; lia|].
  exists a, s'. split; [done|]. split; [|done]. cbn [nt_stack nt_locked nt_reads] in *. split; [done|]. split; [done|]. split; [done|lia].
Qed.

(** ** The operations *)

Lemma returns_connect_turn st0 h deadline now a :
  nd_type (device st0) = t -> kind_of (sockets st0) h = Some KTcp -> evolves st0 a.1 ->
  returns (connect_turn clock fuel burst h deadline now a) 200
    (fun x => match x with
              | inl a' => evolves st0 a'.1 /\ now < deadline
              | inr r => evolves st0 r.2 /\ (r.1 = 0 \/ r.1 = -1) end).
Proof.
  destruct a as [st poll_count]. cbn [fst]. intros Ht Hk Hev. unfold connect_turn.
  destruct (Z.leb_spec deadline now) as [Hd|Hd]; [apply returns_ret; cbn; auto|].
  eapply (returns_bind _ _ 200 0); [apply returns_poll; by rewrite (ev_device _ _ Hev)| |done]. intros st1 Hev1. cbn beta in Hev1.
  assert (evolves st0 st1) as Hev' by (by etransitivity).
  eapply (returns_bind _ _ 0 0); [apply returns_get; by rewrite (ev_kinds _ _ Hev')| |done]. intros _ _.
  destruct (_ && _); [apply returns_ret; cbn; auto|].
  eapply (returns_bind _ _ 0 0); [apply returns_pause| |done]. intros _ _. by apply returns_ret.
Qed.

Lemma tcp_entry_some fd st e :
  stack_ok st -> tcp_entry fd st = Some e -> socket_map st !! fd = Some e /\ kind_of (sockets st) (handle e) = Some KTcp.
Proof.
  intros Hok. unfold tcp_entry. destruct (socket_map st !! fd) as [e'|] eqn:Hfd; [|done].
  destruct (bool_decide_reflect (socket_type e' = Tcp)) as [Hty|]; [|done]. intros E. injection E as ->. split; [done|].
  destruct (so_entry st Hok fd e Hfd) as [_ Hk]. unfold entry_kind in Hk. by rewrite Hty in Hk.
Qed.

Lemma returns_connect fd ip port st :
  stack_ok st -> (301 * k < fuel)%nat ->
  returns (tcp_connect clock fuel burst fd ip port st) (S (fuel * 201))
    (fun r => evolves st r.2 /\ (r.1 = -1 \/ r.1 = 0 /\ is_Some (tcp_entry fd st))).
Proof.
  intros Hok Hfuel. unfold tcp_connect. destruct (tcp_entry fd st) as [e|] eqn:He; [|apply returns_ret; cbn; split; [done|auto]].
  pose proof (tcp_entry_some _ _ _ Hok He) as [_ Hk]. eapply (returns_bind _ _ 0 (S (fuel * 201))); [by apply returns_get| |done]. intros _ _.
  pose proof (kind_connect (handle e) ip port (local_port fd) (interface st) (sockets st)) as Hk'.
  pose proof (ip_connect (handle e) ip port (local_port fd) (interface st) (sockets st)) as Hip.
  destruct (tcp_socket_connect _ _ _ _ _ _) as [[ok i] ss]. cbn [fst snd] in Hk', Hip.
  assert (evolves st (with_interface i ss st)) as Hev by (by constructor). set (st1 := with_interface i ss st) in *.
  destruct ok; cbn [negb]; [|apply returns_ret; cbn; auto].
  apply (start_ok (fun start => '(r, st2) ← timed_loop clock fuel (connect_turn clock fuel burst (handle e) (i64 (start + 3000))) (st1, 0);
    if r =? 0 then mret (0, st2) else _ ← get_socket KTcp (handle e) (sockets st2); mret (-1, st2))).
  intros s r0 Hr Hr0 HN. destruct (Hsteady r0 ltac:(lia)) as (Hb & _).
  rewrite swrap_small by (unfold FAR in Hb; lia).
  destruct (timed_ok (fun a => evolves st1 a.1) (fun r => evolves st1 r.2 /\ (r.1 = 0 \/ r.1 = -1)) 3000 200
    (connect_turn clock fuel burst (handle e) (clock r0 * 10 + 3000)) r0 (st1, 0) s) as ([r st2] & s' & E & S & Hev2 & Hr2);
    [lia|done| |done|done|lia|lia|].
  - intros a now Ha Hnow. apply returns_connect_turn; [by rewrite (ev_device _ _ Hev); apply so_device|by rewrite (ev_kinds _ _ Hev)|done].
  - rewrite (M_bind_Ret _ _ _ _ _ E). cbn [fst snd] in Hev2, Hr2. assert (evolves st st2) as Hev' by (by etransitivity).
    destruct (Z.eqb_spec r 0) as [->|]; [exists (0, st2), s'; eauto 6|].
    unfold get_socket. rewrite decide_True by (by rewrite (ev_kinds _ _ Hev')). exists (-1, st2), s'. auto.
Qed.

Lemma returns_ping_send st0 h dest now p :
  nd_type (device st0) = t -> kind_of (sockets st0) h = Some KIcmp -> evolves st0 (pg_stack p) ->
  returns (ping_send clock fuel burst h dest now p) 200 (fun p' => evolves st0 (pg_stack p')).
Proof.
  intros Ht Hk Hev. unfold ping_send. destruct (_ && _); [|by apply returns_ret].
  eapply (returns_bind _ _ 0 200); [apply returns_get; by rewrite (ev_kinds _ _ Hev)| |done]. intros _ _.
  destruct (icmp_can_send _ _); [|by apply returns_ret].
  pose proof (kind_icmp_send h ping_payload dest (sockets (pg_stack p))) as Hs. destruct (icmp_send _ _ _ _) as [ok ss]. cbn [snd] in Hs.
  assert (evolves st0 (with_sockets ss (pg_stack p))) as Hev' by (etransitivity; [exact Hev|by apply evolves_sockets]).
  destruct ok; [|by apply returns_ret].
  eapply (returns_bind _ _ 200 0); [apply returns_poll; by rewrite (ev_device _ _ Hev')| |done]. intros st1 Hev1. cbn beta in Hev1.
  apply returns_ret. cbn. by etransitivity.
Qed.

Lemma returns_ping_recv st0 h st :
  kind_of (sockets st0) h = Some KIcmp -> evolves st0 st -> returns (ping_recv h st) 0 (fun r => evolves st0 r.2).
Proof.
  intros Hk Hev. unfold ping_recv. eapply (returns_bind _ _ 0 0); [apply returns_get; by rewrite (ev_kinds _ _ Hev)| |done]. intros _ _.
  destruct (icmp_can_recv _ _); [|by apply returns_ret].
  pose proof (kind_icmp_recv h (sockets st)) as Hs. destruct (icmp_recv _ _) as [d ss]. cbn [snd] in Hs.
  apply returns_ret. cbn. etransitivity; [exact Hev|by apply evolves_sockets].
Qed.

Lemma returns_ping_turn st0 h dest start timeout now p :
  nd_type (device st0) = t -> kind_of (sockets st0) h = Some KIcmp -> evolves st0 (pg_stack p) -> start <= now -> timeout < 2 ^ 31 ->
  returns (ping_turn clock fuel burst h dest start (start + timeout) now p) 1200
    (fun x => match x with
              | inl p' => evolves st0 (pg_stack p') /\ now < start + timeout
              | inr r => evolves st0 r.2 /\ (r.1 = -1 \/ 0 <= r.1 < timeout) end).
Proof.
  intros Ht Hk Hev Hnow Hto. unfold ping_turn.
  destruct (Z.leb_spec (start + timeout) now) as [Hd|Hd]; [apply returns_ret; cbn; auto|].
  eapply (returns_bind _ _ 200 1000); [by apply (returns_ping_send st0)| |done]. intros p1 Hp1. cbn beta in Hp1.
  eapply (returns_bind _ _ 1000 0); [apply (returns_polls 5); by rewrite (ev_device _ _ Hp1)| |done]. intros st1 Hst1. cbn beta in Hst1.
  assert (evolves st0 st1) as Hev1 by (by etransitivity).
  eapply (returns_bind _ _ 0 0); [by apply (returns_ping_recv st0)| |done]. intros [answered st2] Hst2. cbn [snd] in Hst2.
  destruct answered; [apply returns_ret; cbn; split; [done|]; right; rewrite swrap_small; lia|].
  eapply (returns_bind _ _ 0 0); [apply returns_pause| |done]. intros _ _. by apply returns_ret.
Qed.

Lemma returns_ping ip timeout st :
  nd_type (device st) = t -> - 2 ^ 31 <= timeout < 2 ^ 31 -> ((Z.to_nat (timeout / 10) + 1) * k < fuel)%nat ->
  returns (icmp_ping clock fuel burst ip timeout st) (S (4000 + fuel * 1201))
    (fun r => evolves st r.2 /\ (r.1 = -1 \/ 0 <= r.1 < timeout)).
Proof.
  intros Ht Hto Hfuel. unfold icmp_ping. set (sock := IcmpSocket 0x1234 1024 1024).
  pose proof (kind_fresh sock (sockets st)) as Hfresh. pose proof (fun h => kind_add sock (sockets st) h) as Hadd.
  destruct (add_socket sock (sockets st)) as [h ss]. cbn [fst snd] in Hfresh, Hadd. set (st0 := with_sockets ss st).
  assert (kind_of (sockets st0) h = Some KIcmp) as Hk by (cbn; rewrite Hadd, decide_True; done).
  eapply (start_ok (fun start => st1 ← arp_polls clock fuel burst 20 0 st0;
    '(rtt_ms, st) ← timed_loop clock fuel (ping_turn clock fuel burst h ip start (i64 (start + timeout)))
      (mkPing st1 (i64 (start - 100000)) 0 0);
    ss ← remove h (sockets st); mret (rtt_ms, with_sockets ss st))).
  intros s r0 Hr Hr0 HN. destruct (Hsteady r0 ltac:(lia)) as (Hb & _). rewrite (swrap_small 64 (_ + timeout)) by (unfold FAR in Hb; lia).
  destruct (returns_arp 20 0 st0 Ht s Hr ltac:(lia)) as (st1 & s1 & E1 & S1 & Hev1). rewrite (M_bind_Ret _ _ _ _ _ E1).
  pose proof S1 as (Hr1 & _ & _ & Hrd).
  destruct (timed_ok (fun p => evolves st0 (pg_stack p)) (fun r => evolves st0 r.2 /\ (r.1 = -1 \/ 0 <= r.1 < timeout)) timeout 1200
    (ping_turn clock fuel burst h ip (clock r0 * 10) (clock r0 * 10 + timeout)) r0 (mkPing st1 (i64 (clock r0 * 10 - 100000)) 0 0) s1)
    as ([r st2] & s2 & E2 & S2 & Hev2 & Hres); [done|done| |done|done|lia|lia|].
  - intros p now Hp Hnow. apply returns_ping_turn; [done|done|done|lia|lia].
  - rewrite (M_bind_Ret _ _ _ _ _ E2). cbn [fst snd] in Hev2, Hres. unfold remove. rewrite (ev_kinds _ _ Hev2), Hk.
    eexists _, s2. split; [reflexivity|]. split; [eapply step_trans; [exact S1|exact S2|lia]|]. split; [|done]. cbn [snd].
    destruct Hev2 as [V1 V2 V3 V4 V5 V6]. constructor; [done|done|done|done| |done]. intros h'. cbn [sockets with_sockets].
    rewrite kind_remove. destruct (decide (h' = h)) as [->|Hne]; [done|]. rewrite V5. cbn. rewrite Hadd. by rewrite decide_False.
Qed.

Lemma returns_poll_active n h st0 st :
  nd_type (device st0) = t -> kind_of (sockets st0) h = Some KTcp -> evolves st0 st ->
  returns (poll_active clock fuel burst n h st) (n * 200) (evolves st0).
Proof.
  intros Ht Hk. revert st. induction n as [|n IH]; intros st Hev; cbn [poll_active]; [by apply returns_ret|].
  eapply (returns_bind _ _ 200 (n * 200)); [apply returns_poll; by rewrite (ev_device _ _ Hev)| |lia]. intros st1 Hev1. cbn beta in Hev1.
  assert (evolves st0 st1) as Hev' by (by etransitivity).
  eapply (returns_bind _ _ 0 (n * 200)); [apply returns_get; by rewrite (ev_kinds _ _ Hev')| |done]. intros _ _.
  destruct (tcp_is_active _ _); [by apply returns_ret|by apply IH].
Qed.

Lemma returns_send_turn st0 h data deadline now a :
  nd_type (device st0) = t -> kind_of (sockets st0) h = Some KTcp -> evolves st0 a.1 ->
  returns (send_turn clock fuel burst h data deadline now a) 1000
    (fun x => match x with
              | inl a' => evolves st0 a'.1 /\ now < deadline
              | inr r => evolves st0 r.2 /\ 0 <= r.1 <= Z.of_nat (length data) end).
Proof.
  destruct a as [st attempts]. cbn [fst]. intros Ht Hk Hev. unfold send_turn.
  destruct (Z.leb_spec deadline now) as [Hd|Hd]; [apply returns_ret; cbn; split; [done|lia]|].
  eapply (returns_bind _ _ 0 1000); [apply returns_get; by rewrite (ev_kinds _ _ Hev)| |done]. intros _ _.
  destruct (negb _); [apply returns_ret; cbn; split; [done|lia]|].
  pose proof (kind_send h data (sockets st)) as Hs. pose proof (send_len h data (sockets st)) as Hl.
  assert (forall ss, same_kinds (sockets st) ss ->
    returns (st ← polls clock fuel burst 5 (with_sockets ss st);
      _ ← (if Z.rem (i32 (attempts + 1)) 20 =? 0 then spins 1000 else mret tt); mret (inl (st, i32 (attempts + 1)))) 1000
    (fun x : NetworkStack * Z + Z * NetworkStack => match x with
              | inl a' => evolves st0 a'.1 /\ now < deadline
              | inr r => evolves st0 r.2 /\ 0 <= r.1 <= Z.of_nat (length data) end)) as Hretry.
  { intros ss Hss. assert (evolves st0 (with_sockets ss st)) as Hev' by (etransitivity; [exact Hev|by apply evolves_sockets]).
    eapply (returns_bind _ _ 1000 0); [apply (returns_polls 5); by rewrite (ev_device _ _ Hev')| |done]. intros st1 Hst1. cbn beta in Hst1.
    eapply (returns_bind _ _ 0 0); [apply returns_pause| |done]. intros _ _. apply returns_ret. cbn. split; [by etransitivity|done]. }
  destruct (tcp_may_send _ _ && tcp_can_send _ _); [|by apply Hretry].
  destruct (tcp_send_slice h data (sockets st)) as [[n|] ss]; cbn [fst snd] in Hs, Hl; [|by apply Hretry].
  apply returns_ret. cbn. split; [etransitivity; [exact Hev|by apply evolves_sockets]|by apply Hl].
Qed.

Lemma returns_send fd data st :
  stack_ok st -> (1001 * k < fuel)%nat ->
  returns (tcp_send clock fuel burst fd data st) (100 * 200 + S (fuel * 1001))
    (fun r => evolves st r.2 /\ (r.1 = -1 \/ 0 < r.1 <= Z.of_nat (length data) /\ is_Some (tcp_entry fd st))).
Proof.
  intros Hok Hfuel. unfold tcp_send. destruct (tcp_entry fd st) as [e|] eqn:He; [|apply returns_ret; cbn; split; [done|auto]].
  pose proof (tcp_entry_some _ _ _ Hok He) as [_ Hk]. pose proof (so_device st Hok) as Ht.
  eapply (returns_bind _ _ (100 * 200) (S (fuel * 1001))); [by apply (returns_poll_active 100 (handle e) st)| |done]. intros st1 Hev1. cbn beta in Hev1.
  eapply (returns_bind _ _ 0 (S (fuel * 1001))); [apply returns_get; by rewrite (ev_kinds _ _ Hev1)| |done]. intros _ _.
  destruct (negb _); [apply returns_ret; cbn; auto|].
  apply (start_ok (fun start => '(total_sent, st) ← timed_loop clock fuel (send_turn clock fuel burst (handle e) data (i64 (start + 10000))) (st1, 0);
        mret (if 0 <? total_sent then total_sent else -1, st))).
  intros s r0 Hr Hr0 HN. destruct (Hsteady r0 ltac:(lia)) as (Hb & _). rewrite swrap_small by (unfold FAR in Hb; lia).
  destruct (timed_ok (fun a => evolves st a.1) (fun r => evolves st r.2 /\ 0 <= r.1 <= Z.of_nat (length data)) 10000 1000
    (send_turn clock fuel burst (handle e) data (clock r0 * 10 + 10000)) r0 (st1, 0) s) as ([r st2] & s' & E & S & Hev2 & Hr2);
    [lia|done| |done|done|lia|lia|].
  - intros a now Ha Hnow. by apply returns_send_turn.
  - rewrite (M_bind_Ret _ _ _ _ _ E). cbn [fst snd] in Hev2, Hr2. eexists _, s'. split; [reflexivity|]. split; [done|]. cbn. split; [done|].
    destruct (Z.ltb_spec 0 r); [right; split; [lia|done]|by left].
Qed.

End waiting.

(** ** Memory of the callers *)
Lemma returns_load p len n : within user p len -> returns (on_dev (on_nic (load p len))) n (fun l => length l = len).
Proof.
  intros Hw. apply returns_dev. intros d (b & Hb & Hi).
  destruct (mapped_load (nic_mem (dv_nic d)) p len) as [l Hl].
  { apply within_mapped. intros i Hlt. apply (ds_user b d Hi), Hw, Hlt. }
  exists l, d. unfold on_nic, load. cbn [st_mem nic_heap_state]. rewrite Hl. cbn [mbind outcome_bind_inst outcome_bind]. destruct d.
  split; [done|]. split; [by exists b|]. by apply load_bytes_inv in Hl as [? _].
Qed.

Lemma returns_store p l n : within user p (length l) -> returns (on_dev (on_nic (store p l))) n (fun _ => True).
Proof.
  intros Hw. apply returns_dev. intros d (b & Hb & Hi).
  destruct (store_bytes_ok (nic_mem (dv_nic d)) p l) as (m & E & Hp).
  { apply within_mapped. intros i Hlt. apply (ds_user b d Hi), Hw, Hlt. }
  eexists tt, _. split; [unfold on_nic, store; cbn [st_mem nic_heap_state]; rewrite E; reflexivity|]. split; [|done].
  exists b. split; [done|]. apply (ds_write b d m Hi); [by eapply store_bytes_dom|].
  intros x Hx. apply (patched_outside _ _ _ _ _ Hp). destruct (decide (x < p \/ p + Z.of_nat (length l) <= x)) as [|Hin]; [done|].
  exfalso. apply Hx. replace x with (p + Z.of_nat (Z.to_nat (x - p))) by lia. apply Hw. lia.
Qed.

(** ** Changes of the table *)

(** The table as its callers see it. *)
Definition view (st : NetworkStack) : gmap Z (SocketType * SocketState) := (fun e => (socket_type e, state e)) <$> socket_map st.

Lemma evolves_view st st' : evolves st st' -> view st' = view st /\ next_fd st' = next_fd st.
Proof. intros Hev. unfold view. by rewrite (ev_map _ _ Hev), (ev_next _ _ Hev). Qed.

Lemma stack_ok_add ty n st fd st' :
  stack_ok st -> next_fd st + 1 < 2 ^ 31 -> new_kind n = match ty with Tcp => KTcp | Udp => KUdp | Icmp => KIcmp end ->
  add_entry ty n st = (fd, st') ->
  stack_ok st' /\ fd = next_fd st /\ socket_map st !! fd = None /\ view st' = <[fd := (ty, SOpen)]> (view st) /\ next_fd st' = next_fd st + 1.
Proof.
  intros Hok Hb Hty. unfold add_entry. pose proof (kind_fresh n (sockets st)) as Hfresh. pose proof (kind_add n (sockets st)) as Hadd.
  destruct (add_socket n (sockets st)) as [h ss]. cbn [fst snd] in *. intros E. injection E as <- <-.
  destruct Hok as [He Hi Ha Hls Hn Hd]. rewrite (swrap_small 32) by lia.
  assert (socket_map st !! next_fd st = None) as Hnew.
  { destruct (socket_map st !! next_fd st) as [e|] eqn:E; [|done]. apply He in E as [E _]. lia. }
  assert (forall fd e, socket_map st !! fd = Some e -> handle e <> h) as Hne.
  { intros fd e Hfd Eh. destruct (He fd e Hfd) as [_ Hk]. congruence. }
  split; [|split; [done|]; split; [done|]; split; [unfold view; cbn; by rewrite fmap_insert|done]].
  constructor; cbn [socket_map next_fd sockets device with_map with_next_fd with_sockets].
  - intros fd e. rewrite lookup_insert. case_decide as Hfd.
    + intros E. injection E as <-. cbn. split; [lia|]. rewrite Hadd, decide_True by done. unfold entry_kind. cbn. by rewrite Hty.
    + intros E. destruct (He fd e E) as [Hfd' Hk]. split; [lia|]. rewrite Hadd, decide_False; [done|by eapply Hne].
  - intros f f' e e'. rewrite !lookup_insert. do 2 case_decide; intros E1 E2 Eh.
    + congruence.
    + injection E1 as <-. cbn in Eh. by destruct (Hne _ _ E2).
    + injection E2 as <-. cbn in Eh. by destruct (Hne _ _ E1).
    + by eapply Hi.
  - intros h' kd Hh. rewrite Hadd in Hh. case_decide as Eh.
    + subst h'. eexists (next_fd st), _. split; [by rewrite lookup_insert, decide_True|done].
    + destruct (Ha h' kd Hh) as (fd & e & Hfd & Hhe). exists fd, e. split; [|done]. rewrite lookup_insert, decide_False; [done|].
      intros <-. congruence.
  - intros fd e. rewrite lookup_insert. case_decide; intros E; [injection E as <-; done|by eapply Hls].
  - lia.
  - done.
Qed.

(** Changing the state of an entry. *)
Lemma stack_ok_state fd e s' ls st :
  stack_ok st -> socket_map st !! fd = Some e -> socket_type e = Tcp ->
  stack_ok (with_map (<[fd := mkEntry _ (socket_type e) (handle e) s' ls]> (socket_map st)) st) /\
  view (with_map (<[fd := mkEntry _ (socket_type e) (handle e) s' ls]> (socket_map st)) st) = <[fd := (socket_type e, s')]> (view st).
Proof.
  intros [He Hi Ha Hls Hn Hd] Hfd Htcp. split; [|unfold view; cbn; by rewrite fmap_insert].
  assert (forall f e', <[fd := mkEntry _ (socket_type e) (handle e) s' ls]> (socket_map st) !! f = Some e' ->
    exists e0, socket_map st !! f = Some e0 /\ handle e0 = handle e' /\ socket_type e0 = socket_type e') as Hback.
  { intros f e'. rewrite lookup_insert. case_decide as Ef; intros E; [injection E as <-; subst f; by exists e|by exists e']. }
  constructor; cbn [socket_map next_fd sockets device with_map].
  - intros f e' Hf. destruct (Hback _ _ Hf) as (e0 & H0 & Hh & Hty). destruct (He _ _ H0) as [Hr Hk]. split; [done|].
    rewrite <- Hh, Hk. unfold entry_kind. by rewrite Hty.
  - intros f f' e1 e2 H1 H2 Hh. destruct (Hback _ _ H1) as (a & Ha' & Hah & _). destruct (Hback _ _ H2) as (b & Hb' & Hbh & _).
    apply (Hi f f' a b); [done|done|congruence].
  - intros h kd Hh. destruct (Ha h kd Hh) as (f & e' & Hf & Hhe). destruct (decide (f = fd)) as [->|].
    + eexists fd, _. split; [by rewrite lookup_insert, decide_True|]. cbn. congruence.
    + exists f, e'. by rewrite lookup_insert, decide_False.
  - intros f e'. rewrite lookup_insert. case_decide; intros E; [by injection E as <-|by eapply Hls].
  - done.
  - done.
Qed.

Lemma stack_ok_remove fd e st :
  stack_ok st -> socket_map st !! fd = Some e ->
  stack_ok (with_sockets (remove_socket (handle e) (sockets st)) (with_map (delete fd (socket_map st)) st)) /\
  view (with_sockets (remove_socket (handle e) (sockets st)) (with_map (delete fd (socket_map st)) st)) = delete fd (view st).
Proof.
  intros [He Hi Ha Hls Hn Hd] Hfd. split; [|unfold view; cbn; by rewrite fmap_delete].
  constructor; cbn [socket_map next_fd sockets device with_map with_sockets].
  - intros f e' Hf. apply lookup_delete_Some in Hf as [Hne Hf]. destruct (He _ _ Hf) as [Hr Hk]. split; [done|].
    rewrite kind_remove, decide_False; [done|]. intros Eh. apply Hne. by eapply Hi.
  - intros f f' e1 e2 H1 H2. apply lookup_delete_Some in H1 as [_ H1]. apply lookup_delete_Some in H2 as [_ H2]. by apply Hi.
  - intros h kd Hh. rewrite kind_remove in Hh. case_decide as Eh; [done|]. destruct (Ha h kd Hh) as (f & e' & Hf & Hhe).
    exists f, e'. split; [|done]. apply lookup_delete_Some. split; [|done]. intros <-. congruence.
  - intros f e' Hf. apply lookup_delete_Some in Hf as [_ Hf]. by eapply Hls.
  - done.
  - done.
Qed.

(** ** The calls of the rest of the kernel *)

(** The stack is not locked, the driver ready, the table in step with the sockets. *)
Record net_ok (s : net D) : Prop := {
  no_lock : nt_locked s = false;
  no_ready : ready (nt_dev s);
  no_stack st : nt_stack s = Some st -> stack_ok st
}.

Lemma with_stack_ok {A} (none : A) f n (Q : NetworkStack -> A -> NetworkStack -> Prop) (s : net D) :
  (forall st, nt_stack s = Some st -> stack_ok st -> returns (f st) n (fun r => stack_ok r.2 /\ Q st r.1 r.2)) ->
  net_ok s -> (nt_reads s + n <= N)%nat ->
  exists a s', with_stack none f s = Ret (a, s') /\ net_ok s' /\ (nt_reads s' <= nt_reads s + n)%nat /\
    match nt_stack s with
    | None => a = none /\ nt_stack s' = None
    | Some st => exists st', nt_stack s' = Some st' /\ Q st a st'
    end.
Proof.
  intros Hf [Hl Hr Hst] HN. unfold with_stack, lock, get, set_stack, unlock, modify, mbind, M_bind_inst, mret, M_ret_inst.
  rewrite Hl. cbn [outcome_bind nt_stack]. destruct (nt_stack s) as [st|] eqn:Es.
  - destruct (Hf st eq_refl (Hst st eq_refl) (mkNet (nt_dev s) (Some st) true (nt_reads s)) Hr HN) as ([a st'] & s1 & E & (S0 & S1 & S2 & S3) & Hok & Hq).
    cbn [fst snd nt_reads] in *. rewrite E. cbn [outcome_bind]. eexists a, _. split; [reflexivity|]. split; [|split; [cbn; lia|by exists st']].
    constructor; [done|done|]. cbn. intros st1 E1. by injection E1 as <-.
  - cbn [outcome_bind]. eexists none, _. split; [reflexivity|]. split; [|split; [cbn; lia|done]]. by constructor.
Qed.

Inductive sock_op :=
| OpSocket
| OpConnect (s ip port : Z)
| OpBind (s ip port : Z)
| OpListen (s backlog : Z)
| OpAccept (s out_ip out_port : Z)
| OpSend (s buf len : Z)
| OpRecv (s buf len : Z)
| OpClose (s : Z)
| OpPing (ip timeout_ms : Z)
| OpPoll.

Definition run_op (o : sock_op) : M (net D) Z :=
  match o with
  | OpSocket => sock_socket
  | OpConnect s ip port => sock_connect clock fuel burst s ip port
  | OpBind s ip port => sock_bind s ip port
  | OpListen s backlog => sock_listen s backlog
  | OpAccept s out_ip out_port => sock_accept s out_ip out_port
  | OpSend s buf len => sock_send clock fuel burst s buf len
  | OpRecv s buf len => sock_recv s buf len
  | OpClose s => sock_close s
  | OpPing ip timeout_ms => net_icmp_ping clock fuel burst ip timeout_ms
  | OpPoll => sock_poll clock fuel burst 0 0 0 0
  end.

(** What a caller has to see to: its pointers are its own. *)
Definition op_ok (o : sock_op) : Prop :=
  match o with
  | OpConnect _ ip _ => within user ip 4
  | OpAccept _ out_ip out_port => (out_ip = 0 \/ within user out_ip 4) /\ (out_port = 0 \/ within user out_port 2)
  | OpSend _ buf len => within user buf (Z.to_nat len)
  | OpRecv _ buf len => within user buf (Z.to_nat len)
  | OpPing ip timeout_ms => (ip = 0 \/ within user ip 4) /\ - 2 ^ 31 <= timeout_ms < 2 ^ 31
  | OpSocket | OpBind _ _ _ | OpListen _ _ | OpClose _ | OpPoll => True
  end.

(** The numbers for sockets are not used up. *)
Definition fd_left (s : net D) : Prop := forall st, nt_stack s = Some st -> next_fd st + 1 < 2 ^ 31.

(** The time an operation waits, in ticks. *)
Definition op_ticks (o : sock_op) : nat :=
  match o with
  | OpConnect _ _ _ => 301
  | OpSend _ _ _ => 1001
  | OpPing _ timeout_ms => Z.to_nat (timeout_ms / 10) + 1
  | _ => 0
  end.

(** The sockets as their users know them: what an operation with the result [code]
    does to the table and to the next number. *)
Definition table_step (o : sock_op) (code : Z) (mp mp' : gmap Z (SocketType * SocketState)) (next next' : Z) : Prop :=
  match o with
  | OpSocket => code = next /\ mp !! next = None /\ mp' = <[next := (Tcp, SOpen)]> mp /\ next' = next + 1
  | OpClose fd => next' = next /\ match mp !! fd with Some _ => code = 0 /\ mp' = delete fd mp | None => code = -1 /\ mp' = mp end
  | OpBind fd _ _ =>
      next' = next /\ (code = -1 /\ mp' = mp \/
                       code = 0 /\ mp' = <[fd := (Tcp, SListening)]> mp /\ exists s, mp !! fd = Some (Tcp, s))
  | OpAccept fd _ _ =>
      next' = next /\ (code = -1 /\ mp' = mp \/
                       code = fd /\ mp' = <[fd := (Tcp, SConnected)]> mp /\ mp !! fd = Some (Tcp, SListening))
  | OpConnect fd _ _ => next' = next /\ mp' = mp /\ (code = -1 \/ code = 0 /\ exists s, mp !! fd = Some (Tcp, s))
  | OpSend fd _ len => next' = next /\ mp' = mp /\ (code = -1 \/ 0 < code <= Z.max 0 len /\ exists s, mp !! fd = Some (Tcp, s))
  | OpRecv fd _ len => next' = next /\ mp' = mp /\ (code = -1 \/ 0 <= code <= Z.max 0 len /\ exists s, mp !! fd = Some (Tcp, s))
  | OpPing _ timeout_ms => next' = next /\ mp' = mp /\ (code = -1 \/ 0 <= code < timeout_ms)
  | OpListen _ _ | OpPoll => next' = next /\ mp' = mp /\ code = 0
  end.

(** The effect of an operation on the stack. *)
Definition effect (o : sock_op) (st : NetworkStack) (code : Z) (st' : NetworkStack) : Prop :=
  table_step o code (view st) (view st') (next_fd st) (next_fd st').

Lemma tcp_entry_view fd st e : tcp_entry fd st = Some e -> view st !! fd = Some (Tcp, state e).
Proof.
  unfold tcp_entry, view. rewrite lookup_fmap. destruct (socket_map st !! fd) as [e'|]; [|done].
  destruct (bool_decide_reflect (socket_type e' = Tcp)) as [Hty|]; [|done]. intros E. injection E as ->. cbn. by rewrite Hty.
Qed.

(** Operations on the stack that leave the table alone. *)
Lemma evolves_effect o st code st' :
  stack_ok st -> evolves st st' -> table_step o code (view st) (view st) (next_fd st) (next_fd st) -> stack_ok st' /\ effect o st code st'.
Proof. intros Hok Hev Ht. split; [by eapply evolves_ok|]. unfold effect. by destruct (evolves_view _ _ Hev) as [-> ->]. Qed.

Lemma returns_bind_op fd ip port st n :
  stack_ok st -> returns (tcp_bind fd port st) n (fun r => stack_ok r.2 /\ effect (OpBind fd ip port) st r.1 r.2).
Proof.
  intros Hok. unfold tcp_bind. destruct (tcp_entry fd st) as [e|] eqn:He.
  2:{ apply returns_ret. apply evolves_effect; [done|done|]. cbn. auto. }
  pose proof (tcp_entry_view _ _ _ He) as Hv. apply tcp_entry_some in He as [Hfd Hk]; [|done].
  eapply (returns_bind _ _ 0 n); [by apply returns_get| |done]. intros _ _.
  pose proof (kind_listen (handle e) port (sockets st)) as Hs. destruct (tcp_listen _ _ _) as [ok ss]. cbn [snd] in Hs.
  pose proof (evolves_sockets st ss Hs) as Hev. destruct ok; apply returns_ret; [|apply evolves_effect; [done|done|cbn; auto]].
  assert (socket_type e = Tcp) as Hty. { unfold view in Hv. rewrite lookup_fmap, Hfd in Hv. by injection Hv. }
  cbn [fst snd]. destruct (stack_ok_state fd e SListening (listening_socket e) (with_sockets ss st) (evolves_ok _ _ Hev Hok) Hfd Hty) as [Hok' Hview].
  split; [exact Hok'|]. split; [done|]. right. split; [done|]. split; [rewrite <- Hty; exact Hview|by exists (state e)].
Qed.

Lemma returns_close_op fd st n :
  stack_ok st -> returns (close_socket fd st) n (fun r => stack_ok r.2 /\ effect (OpClose fd) st r.1 r.2).
Proof.
  intros Hok. unfold close_socket. destruct (socket_map st !! fd) as [e|] eqn:Hfd.
  - destruct (so_entry st Hok fd e Hfd) as [_ Hk]. eapply (returns_bind _ _ 0 n); [by eapply returns_remove| |done]. intros ss <-.
    apply returns_ret. cbn [fst snd]. destruct (stack_ok_remove fd e st Hok Hfd) as [Hok' Hview]. split; [done|]. split; [done|].
    unfold view at 1. by rewrite lookup_fmap, Hfd.
  - apply returns_ret. apply evolves_effect; [done|done|]. split; [done|]. cbn. unfold view at 1. by rewrite lookup_fmap, Hfd.
Qed.

Lemma returns_recv_op fd buf len st n :
  stack_ok st -> within user buf (Z.to_nat len) ->
  returns (tcp_recv fd buf len st) n (fun r => stack_ok r.2 /\ effect (OpRecv fd buf len) st r.1 r.2).
Proof.
  intros Hok Hw. unfold tcp_recv. destruct (tcp_entry fd st) as [e|] eqn:He.
  2:{ apply returns_ret. apply evolves_effect; [done|done|]. cbn. auto. }
  pose proof (tcp_entry_view _ _ _ He) as Hv. apply tcp_entry_some in He as [Hfd Hk]; [|done].
  eapply (returns_bind _ _ 0 n); [by apply returns_get| |done]. intros _ _.
  pose proof (kind_recv (handle e) (Z.to_nat len) (sockets st)) as Hs. pose proof (recv_len (handle e) (Z.to_nat len) (sockets st)) as Hl.
  destruct (tcp_recv_slice _ _ _) as [r ss]. cbn [fst snd] in Hs, Hl. pose proof (evolves_sockets st ss Hs) as Hev.
  destruct r as [data|]; [|apply returns_ret, evolves_effect; [done|done|cbn; auto]]. specialize (Hl data eq_refl).
  eapply (returns_bind _ _ 0 n); [apply returns_store| |done]; [intros i Hi; apply Hw; lia|]. intros _ _.
  apply returns_ret, evolves_effect; [done|done|]. split; [done|]. split; [done|]. right. cbn [fst]. split; [lia|by exists (state e)].
Qed.

Lemma returns_accept_op fd out_ip out_port st n :
  stack_ok st -> (out_ip = 0 \/ within user out_ip 4) -> (out_port = 0 \/ within user out_port 2) ->
  returns (accept fd out_ip out_port st) n (fun r => stack_ok r.2 /\ effect (OpAccept fd out_ip out_port) st r.1 r.2).
Proof.
  intros Hok Hip Hport. unfold accept. assert (returns (mret (-1, st)) n (fun r : Z * NetworkStack => stack_ok r.2 /\ effect (OpAccept fd out_ip out_port) st r.1 r.2)) as Hno.
  { apply returns_ret, evolves_effect; [done|done|]. cbn. auto. }
  destruct (socket_map st !! fd) as [e|] eqn:Hfd; [|done]. destruct (bool_decide_reflect (state e = SListening)) as [Hl|]; [|done]. cbn [negb].
  pose proof (so_listen st Hok fd e Hfd Hl) as Hty. destruct (so_entry st Hok fd e Hfd) as [_ Hk]. unfold entry_kind in Hk. rewrite Hty in Hk.
  eapply (returns_bind _ _ 0 n); [by apply returns_get| |done]. intros _ _. destruct (tcp_is_active _ _); [|done].
  destruct (stack_ok_state fd e SConnected (listening_socket e) st Hok Hfd Hty) as [Hok' Hview].
  eapply (returns_bind _ _ 0 n (n) (fun _ => True)); [| |done].
  - cbn [sockets with_map]. destruct (tcp_remote (handle e) (sockets st)) as [[addr port]|] eqn:Er; [|by apply returns_ret].
    apply remote_len in Er. eapply (returns_bind _ _ 0 0 0 (fun _ => True)); [| |done].
    + destruct (Z.eqb_spec out_ip 0); [by apply returns_ret|]. destruct Hip as [|Hip]; [done|]. apply returns_store.
      rewrite length_take. intros i Hi. apply Hip. lia.
    + intros _ _. destruct (Z.eqb_spec out_port 0); [by apply returns_ret|]. destruct Hport as [|Hport]; [done|]. apply returns_store.
      by rewrite le_bytes_length.
  - intros _ _. apply returns_ret. cbn [fst snd]. split; [exact Hok'|]. split; [done|]. right. split; [done|].
    split; [by rewrite Hview, Hty|]. unfold view. rewrite lookup_fmap, Hfd. cbn. by rewrite Hty, Hl.
Qed.

(** The readings of the clock an operation makes, at most. *)
Definition op_reads : nat := 100 * 200 + fuel * 1300.

(** What running an operation comes to. *)
Definition op_result (o : sock_op) (c : M (net D) Z) (s : net D) : Prop :=
  exists code s', c s = Ret (code, s') /\ net_ok s' /\ (nt_reads s' <= nt_reads s + op_reads)%nat /\
    match nt_stack s with
    | Some st => exists st', nt_stack s' = Some st' /\ effect o st code st'
    | None => nt_stack s' = None /\ (code = -1 \/ o = OpPoll)
    end.

Lemma call_ok o f n s :
  (forall st, nt_stack s = Some st -> stack_ok st -> returns (f st) n (fun r => stack_ok r.2 /\ effect o st r.1 r.2)) ->
  (n <= op_reads)%nat -> net_ok s -> (nt_reads s + op_reads <= N)%nat -> op_result o (with_stack (-1) f) s.
Proof.
  intros Hf Hn Hok HN. destruct (with_stack_ok (-1) f n (effect o) s Hf Hok ltac:(lia)) as (a & s' & E & Hok' & Hrd & Hres).
  exists a, s'. split; [done|]. split; [done|]. split; [lia|]. destruct (nt_stack s); [done|]. destruct Hres as [-> ->]. auto.
Qed.

Lemma socket_call s :
  net_ok s -> fd_left s -> (nt_reads s + op_reads <= N)%nat -> op_result OpSocket sock_socket s.
Proof.
  intros Hok Hop HN. apply (call_ok _ _ 0); [|lia|done|done]. intros st Es Hst. apply returns_ret.
  destruct (create_tcp_socket st) as [fd st'] eqn:E.
  destruct (stack_ok_add Tcp (TcpSocket 4096 4096) _ _ _ Hst (Hop st Es) eq_refl E) as (H1 & H2 & H3 & H4 & H5).
  cbn [fst snd]. split; [done|]. cbn. rewrite <- H2. split; [done|]. split; [unfold view; by rewrite lookup_fmap, H3|]. split; [done|congruence].
Qed.

Lemma poll_call s : net_ok s -> (nt_reads s + op_reads <= N)%nat -> op_result OpPoll (sock_poll clock fuel burst 0 0 0 0) s.
Proof.
  intros Hok HN. unfold op_result, sock_poll, network_poll.
  destruct (with_stack_ok tt (fun st => st ← poll clock fuel burst st; mret (tt, st)) 200 (fun st _ st' => effect OpPoll st 0 st') s)
    as (u & s' & E & Hok' & Hrd & Hres); [|done|unfold op_reads in HN; lia|].
  - intros st Es Hst. eapply (returns_bind _ _ 200 0); [by apply returns_poll, so_device| |done]. intros st' Hev.
    apply returns_ret. by apply evolves_effect.
  - rewrite (M_bind_Ret _ _ s tt s').
    + exists 0, s'. split; [done|]. split; [done|]. split; [unfold op_reads; lia|]. destruct (nt_stack s); [done|]. destruct Hres as [_ ->]. auto.
    + rewrite (M_bind_Ret _ _ s s s) by done. rewrite (no_lock _ Hok). destruct u. exact E.
Qed.

Section waiting_calls.

Context (k : nat) (Hsteady : steady k N clock).

Lemma connect_call fd ip port s :
  (301 * k < fuel)%nat -> net_ok s -> within user ip 4 -> (nt_reads s + op_reads <= N)%nat ->
  op_result (OpConnect fd ip port) (sock_connect clock fuel burst fd ip port) s.
Proof.
  intros Hfuel Hok Hop HN. apply (call_ok _ _ (S (fuel * 201))); [|unfold op_reads; lia|done|done]. intros st Es Hst.
  eapply (returns_bind _ _ 0 (S (fuel * 201))); [by apply returns_load| |done]. intros addr _.
  eapply returns_weaken; [by apply (returns_connect k Hsteady)|done|]. intros [code st'] [Hev Hc]. cbn [fst snd] in *.
  apply evolves_effect; [done|done|]. split; [done|]. split; [done|]. destruct Hc as [|[-> [e He]]]; [by left|right].
  split; [done|]. exists (state e). by apply tcp_entry_view.
Qed.

Lemma send_call fd buf len s :
  (1001 * k < fuel)%nat -> net_ok s -> within user buf (Z.to_nat len) -> (nt_reads s + op_reads <= N)%nat ->
  op_result (OpSend fd buf len) (sock_send clock fuel burst fd buf len) s.
Proof.
  intros Hfuel Hok Hop HN. apply (call_ok _ _ (100 * 200 + S (fuel * 1001))); [|unfold op_reads; lia|done|done]. intros st Es Hst.
  eapply (returns_bind _ _ 0 (100 * 200 + S (fuel * 1001))); [by apply returns_load| |done]. intros data Hdata. cbn beta in Hdata.
  eapply returns_weaken; [by apply (returns_send k Hsteady)|done|]. intros [code st'] [Hev Hc]. cbn [fst snd] in *.
  apply evolves_effect; [done|done|]. split; [done|]. split; [done|]. destruct Hc as [|[Hr [e He]]]; [by left|right].
  split; [lia|]. exists (state e). by apply tcp_entry_view.
Qed.

Lemma ping_call ip timeout s :
  ((Z.to_nat (timeout / 10) + 1) * k < fuel)%nat -> net_ok s -> op_ok (OpPing ip timeout) -> (nt_reads s + op_reads <= N)%nat ->
  op_result (OpPing ip timeout) (net_icmp_ping clock fuel burst ip timeout) s.
Proof.
  intros Hfuel Hok [Hip Hto] HN. unfold net_icmp_ping. destruct (Z.eqb_spec ip 0) as [->|Hne].
  { exists (-1), s. split; [done|]. split; [done|]. split; [lia|]. destruct (nt_stack s) as [st|] eqn:Es; [|auto].
    exists st. split; [done|]. cbn. auto. }
  destruct Hip as [|Hip]; [done|]. apply (call_ok _ _ (S (4000 + fuel * 1201))); [|unfold op_reads; lia|done|done]. intros st Es Hst.
  eapply (returns_bind _ _ 0 (S (4000 + fuel * 1201))); [by apply returns_load| |done]. intros addr _.
  eapply returns_weaken; [by apply (returns_ping k Hsteady); [apply so_device|..]|done|]. intros [code st'] [Hev Hc]. cbn [fst snd] in *.
  by apply evolves_effect.
Qed.

Lemma run_op_effect o s :
  (op_ticks o * k < fuel)%nat -> net_ok s -> op_ok o -> fd_left s -> (nt_reads s + op_reads <= N)%nat -> op_result o (run_op o) s.
Proof.
  intros Hfuel Hok Hop Hfd HN.
  destruct o as [|fd ip port|fd ip port|fd backlog|fd oip oport|fd buf len|fd buf len|fd|ip timeout|]; cbn [run_op op_ok op_ticks] in *.
  - by apply socket_call.
  - by apply connect_call.
  - apply (call_ok _ _ 0); [|lia|done|done]. intros st Es Hst. by apply returns_bind_op.
  - apply (call_ok _ _ 0); [|lia|done|done]. intros st Es Hst. apply returns_ret. by apply evolves_effect.
  - apply (call_ok _ _ 0); [|lia|done|done]. intros st Es Hst. destruct Hop. by apply returns_accept_op.
  - by apply send_call.
  - apply (call_ok _ _ 0); [|lia|done|done]. intros st Es Hst. by apply returns_recv_op.
  - apply (call_ok _ _ 0); [|lia|done|done]. intros st Es Hst. by apply returns_close_op.
  - by apply ping_call.
  - by apply poll_call.
Qed.

(** ** Starting the stack *)
Context (Hmac : within user mac_buf 6).

Lemma returns_device n :
  returns (on_dev (new_from_active_driver mac_buf)) n (fun d => exists dev, d = Some dev /\ nd_type dev = t /\ length (nd_mac dev) = 6%nat).
Proof.
  apply returns_dev. intros d (b & Hb & Hi). destruct (ds_mac b d mac_buf Hi Hmac) as (dev & d' & E & Ht & Hm & Hi').
  exists (Some dev), d'. split; [done|]. split; [by exists b|]. by exists dev.
Qed.

Lemma returns_expect {A} (a : A) n : returns (expect (Some a)) n (eq a).
Proof. by apply returns_ret. Qed.

(** A stack without sockets. *)
Lemma stack_ok_new dev i gw dns ss :
  nd_type dev = t -> (forall h, kind_of ss h = None) -> stack_ok (mkStack _ dev i ss ∅ 1 gw dns).
Proof.
  intros Ht Hk. constructor; cbn [socket_map sockets next_fd device]; [done|done| |done|lia|done].
  intros h kd Hh. by rewrite Hk in Hh.
Qed.

(** The configuration of a stack. *)
Definition configured (st : NetworkStack) (ips : list cidr) (gw : option (list Z)) : Prop :=
  stack_ok st /\ socket_map st = ∅ /\ next_fd st = 1 /\ ip_addrs (interface st) = ips /\ gateway st = gw /\
  length (nd_mac (device st)) = 6%nat.

Lemma returns_check i : Forall (fun c => addr_ok c.1 = true) (ip_addrs i) -> returns (check_ip_addrs i) 0 (eq i).
Proof.
  intros Hf. unfold check_ip_addrs. assert (forallb (fun c => addr_ok c.1) (ip_addrs i) = true) as ->; [|by apply returns_ret].
  apply forallb_forall. intros c Hc. rewrite Forall_forall in Hf. apply Hf. by apply list_elem_of_In.
Qed.

(** At most one address, and an accepted one. *)
Lemma returns_check_try c i : ip_addrs i = [] -> addr_ok c.1 = true -> returns (check_ip_addrs (try (push_ip c) i)) 0 (fun _ => True).
Proof.
  intros Hi Hc. eapply returns_weaken; [apply returns_check|done|done]. unfold try. destruct (push_ip c i) as [i'|] eqn:E; cbn [from_option id].
  - rewrite (ip_push _ _ _ E), Hi. by repeat constructor.
  - rewrite Hi. constructor.
Qed.

Lemma returns_with_ip ip gw :
  addr_ok ip = true ->
  returns (new_with_ip clock mac_buf ip gw) 1
    (fun st => configured st [(ip, 24)] (if bool_decide (gw = [0; 0; 0; 0]) then None else Some gw)).
Proof.
  intros Hok. unfold new_with_ip. eapply (returns_bind _ _ 0 1); [apply returns_device| |done]. intros d (dev & -> & Ht & Hlen).
  eapply (returns_bind _ _ 0 1); [apply returns_expect| |done]. intros _ <-.
  eapply (returns_bind _ _ 1 0); [apply returns_ticks| |done]. intros seed _.
  destruct (ip_room (ip, 24) (iface_new (nd_mac dev) seed) (ip_new _ _)) as [i Hi]. rewrite Hi.
  eapply (returns_bind _ _ 0 0); [apply returns_expect| |done]. intros _ <-. pose proof (ip_push _ _ _ Hi) as Hip. rewrite ip_new in Hip.
  eapply (returns_bind _ _ 0 0); [apply returns_check; rewrite Hip; by repeat constructor| |done]. intros _ <-.
  destruct (bool_decide_reflect (gw = [0; 0; 0; 0])) as [Hg|Hg]; cbn [negb].
  - eapply (returns_bind _ _ 0 0); [by apply (returns_ret i 0 (eq i))| |done]. intros _ <-. apply returns_ret.
    split; [apply stack_ok_new; [done|apply kind_none]|done].
  - destruct (route_room _ gw _ _ _ Hi) as [i' Hi']. rewrite Hi'. eapply (returns_bind _ _ 0 0); [apply returns_expect| |done]. intros _ <-.
    apply returns_ret. split; [apply stack_ok_new; [done|apply kind_none]|]. split; [done|]. split; [done|]. split; [|done].
    cbn [interface]. by rewrite (ip_route _ _ _ Hi').
Qed.

(** An address that smoltcp does not accept panics. *)
Lemma with_ip_panics ip gw (s : net D) :
  ready (nt_dev s) -> (nt_reads s + 1 <= N)%nat -> addr_ok ip = false -> new_with_ip clock mac_buf ip gw s = Panic.
Proof.
  intros Hr HN Hbad. unfold new_with_ip. destruct (returns_device 1 s Hr) as (d & s1 & E & (S0 & S1 & S2 & S3) & dev & -> & Ht & Hlen); [lia|].
  rewrite (M_bind_Ret _ _ _ _ _ E), (M_bind_Ret _ _ s1 dev s1) by done. erewrite M_bind_Ret by reflexivity.
  set (s2 := mkNet _ _ _ _). destruct (ip_room (ip, 24) (iface_new (nd_mac dev) (clock (nt_reads s1))) (ip_new _ _)) as [i Hi]. rewrite Hi.
  rewrite (M_bind_Ret _ _ s2 i s2) by done. pose proof (ip_push _ _ _ Hi) as Hip. rewrite ip_new in Hip.
  unfold check_ip_addrs. rewrite Hip. cbn [app forallb fst]. rewrite Hbad. done.
Qed.

Lemma returns_fallback :
  returns (new_with_static_fallback clock mac_buf fallback_qemu) 1 (fun st => stack_ok st /\ socket_map st = ∅ /\ next_fd st = 1).
Proof.
  unfold new_with_static_fallback. destruct fallback_qemu; (eapply returns_weaken; [apply returns_with_ip; first [apply addr_unspecified|apply addr_unicast; lia]|done|]); intros st (H1 & H2 & H3 & _); done.
Qed.

(** The sockets while the stack is configured: the one of the DHCP client. *)
Definition only_dhcp (h : Handle) (a : Iface * Sockets) : Prop :=
  forall h', kind_of a.2 h' = if decide (h' = h) then Some KDhcp else None.

Lemma returns_dhcp_turn dev h start now a :
  nd_type dev = t -> only_dhcp h a -> 0 <= start <= now -> now <= FAR ->
  returns (dhcp_turn clock fuel burst mac_buf fallback_qemu dev h start now a) 1
    (fun x => match x with
              | inl a' => only_dhcp h a' /\ now < start + 1001
              | inr st => stack_ok st /\ socket_map st = ∅ /\ next_fd st = 1 end).
Proof.
  destruct a as [iface ss]. unfold only_dhcp. cbn [snd]. intros Ht Hk Hn Hfar. unfold dhcp_turn, FAR in *.
  rewrite (wrap_small 64 (now - start)), (wrap_small 64 ((now - start) * 10)) by lia. destruct (Z.ltb_spec 10000 ((now - start) * 10)) as [Hto|Hto].
  { eapply (returns_bind _ _ 1 0); [apply returns_fallback| |done]. intros st Hst. by apply returns_ret. }
  eapply (returns_bind _ _ 0 1 1 (fun r : bool * Iface * Sockets => same_kinds ss r.2)); [| |done].
  { apply returns_dev. intros d (n & Hnb & Hi).
    destruct (run_dev_ok dev _ _ n d Ht (prog_ok_mono _ _ _ _ Hnb (poll_law burst (i64 (u64 (now * 10))) iface ss)) Hi)
      as (r & d' & n' & E & [Hr _] & Hn' & Hi').
    exists r, d'. split; [done|]. split; [|done]. exists n'. split; [lia|done]. }
  intros [[did i] ss1] Hss. cbn [snd] in Hss.
  eapply (returns_bind _ _ 0 1); [apply returns_get; rewrite Hss, Hk, decide_True; done| |done]. intros _ _.
  pose proof (kind_dhcp h ss1) as Hd. pose proof (addr_dhcp h ss1) as Ha. destruct (dhcp_poll h ss1) as [ev ss2]. cbn [fst snd] in Hd, Ha.
  assert (forall h', kind_of ss2 h' = if decide (h' = h) then Some KDhcp else None) as Hk2 by (intros h'; by rewrite Hd, Hss, Hk).
  assert (returns (_ ← spins 1000; mret (inl (i, ss2))) 1 (fun x : Iface * Sockets + NetworkStack => match x with
              | inl a' => (forall h', kind_of a'.2 h' = if decide (h' = h) then Some KDhcp else None) /\ now < start + 1001
              | inr st => stack_ok st /\ socket_map st = ∅ /\ next_fd st = 1 end)) as Hgo.
  { eapply (returns_bind _ _ 0 1); [apply returns_spins| |done]. intros _ _. apply returns_ret. split; [done|lia]. }
  destruct ev as [[address router dns|]|]; [|done|done].
  eapply (returns_bind _ _ 0 1); [apply returns_check_try; [apply ip_clear|by eapply Ha]| |done]. intros i1 _.
  eapply (returns_bind _ _ 0 1); [apply (returns_remove KDhcp); by rewrite Hk2, decide_True| |done]. intros _ <-.
  apply returns_ret. split; [|done]. apply stack_ok_new; [done|]. intros h'. rewrite kind_remove, Hk2. by destruct (decide (h' = h)).
Qed.

Lemma returns_new :
  (1001 * k < fuel)%nat ->
  returns (new clock fuel burst mac_buf fallback_qemu) (2 + fuel * 2) (fun st => stack_ok st /\ socket_map st = ∅ /\ next_fd st = 1).
Proof.
  intros Hfuel. unfold new, new_with_dhcp. eapply (returns_bind _ _ 0 (2 + fuel * 2)); [apply returns_device| |done]. intros d (dev & -> & Ht & Hlen).
  eapply (returns_bind _ _ 0 (2 + fuel * 2)); [apply returns_expect| |done]. intros _ <-.
  eapply (returns_bind _ _ 1 (1 + fuel * 2)); [apply returns_ticks| |done]. intros seed _.
  eapply (returns_bind _ _ 0 (1 + fuel * 2)); [apply returns_check_try; [apply ip_new|apply addr_unspecified]| |done]. intros iface _.
  pose proof (fun h => kind_add DhcpSocket no_sockets h) as Hadd. destruct (add_socket DhcpSocket no_sockets) as [h ss]. cbn [fst snd] in Hadd.
  intros s Hr HN.
  rewrite (M_bind_Ret _ _ s (clock (nt_reads s)) (mkNet (nt_dev s) (nt_stack s) (nt_locked s) (S (nt_reads s)))) by done.
  destruct (Hsteady (nt_reads s) ltac:(lia)) as (Hb0 & _).
  destruct (loop_ok k Hsteady (fun a => now_ticks ← timer_get_ticks clock; dhcp_turn clock fuel burst mac_buf fallback_qemu dev h (clock (nt_reads s)) now_ticks a)
    (only_dhcp h) (fun st => stack_ok st /\ socket_map st = ∅ /\ next_fd st = 1) (nt_reads s) 1001 2 fuel
    (iface, ss)
    (mkNet (nt_dev s) (nt_stack s) (nt_locked s) (S (nt_reads s)))) as (st & s' & E & (S0 & S1 & S2 & S3) & Hst); [nia| | |done|cbn; lia|lia|cbn; lia|cbn; lia|].
  - intros a s1 Ha Hr1 Hge HN1.
    rewrite (M_bind_Ret _ _ s1 (clock (nt_reads s1)) (mkNet (nt_dev s1) (nt_stack s1) (nt_locked s1) (S (nt_reads s1)))) by done.
    pose proof (steady_mono k N clock (nt_reads s) (nt_reads s1) Hsteady ltac:(lia)). destruct (Hsteady (nt_reads s1) ltac:(lia)) as (Hb1 & _).
    destruct (returns_dhcp_turn dev h (clock (nt_reads s)) (clock (nt_reads s1)) a Ht Ha ltac:(lia) ltac:(lia)
      (mkNet (nt_dev s1) (nt_stack s1) (nt_locked s1) (S (nt_reads s1))) Hr1 ltac:(cbn; lia)) as (x & s2 & E2 & (U0 & U1 & U2 & U3) & Hx).
    cbn [nt_reads nt_stack nt_locked] in *. exists x, s2. split; [done|]. split; [split; [done|]; split; [done|]; split; [done|lia]|].
    split; [lia|]. destruct x; [|done]. exact Hx.
  - intros h'. cbn [snd]. rewrite Hadd. case_decide; [done|]. apply kind_none.
  - exists st, s'. split; [exact E|]. split; [|done]. cbn [nt_reads nt_stack nt_locked] in *. split; [done|]. split; [done|]. split; [done|lia].
Qed.

Lemma install_effect (c : M (net D) NetworkStack) n (P : NetworkStack -> Prop) (s : net D) :
  returns c n P -> (forall st, P st -> stack_ok st) -> nt_locked s = false -> ready (nt_dev s) -> (nt_reads s + n <= N)%nat ->
  exists st s', (st ← c; _ ← install st; mret 0) s = Ret (0, s') /\ net_ok s' /\ nt_stack s' = Some st /\ P st /\ (nt_reads s' <= nt_reads s + n)%nat.
Proof.
  intros Hc HP Hl Hr HN. destruct (Hc s Hr HN) as (st & s1 & E & (S0 & S1 & S2 & S3) & Hst). rewrite (M_bind_Ret _ _ _ _ _ E).
  exists st. eexists. split.
  { unfold install, lock, set_stack, unlock, modify, mbind, M_bind_inst, mret, M_ret_inst. rewrite S2, Hl. cbn [outcome_bind]. reflexivity. }
  split; [|split; [done|]; split; [done|cbn; lia]]. constructor; [done|done|]. cbn. intros st' E'. injection E' as <-. by apply HP.
Qed.

End waiting_calls.

End proofs.
