(* ===== verification/NetDriver.v ===== *)
(** * NetDriver: the adapter on top of the drivers

    The buffers the adapter hands to the drivers come from the heap and go back to
    it.  On top of the RTL8139 driver, whose safety does not depend on what the card
    writes, the adapter keeps what the network stack relies on ([DriverSpec]); on top
    of the E1000 it delivers the frames of the receive ring in order. *)

From S2P Require Import Prelude Memory Heap Blocks Nic Rings Rtl8139 E1000 Pcnet PciNet Network NetProps.

Local Open Scope Z_scope.

(** ** Buffers *)
Section buffers.

Context {D : Type} `{Hcard : Card D} (heap_base : Z) (Hbase : base_ok heap_base).

(** A zeroed buffer apart from the regions [rs]; freeing it restores the heap. *)
Lemma vec_zeroed_ok n (s : nic D) segs rs rest :
  heap_ready heap_base s segs -> owned heap_base segs rs rest -> has_room segs n -> 0 < n -> n + 15 < 2 ^ 64 ->
  exists p s1, vec_zeroed n s = Ret (p, s1) /\ nic_card s1 = nic_card s /\ nic_log s1 = nic_log s /\
    dom (nic_mem s1) = dom (nic_mem s) /\ within (dom (nic_mem s)) p (Z.to_nat n) /\ apart ((p, n) :: rs) /\
    (forall x, ~ (p <= x < p + n) -> nic_mem s1 !! x = nic_mem s !! x) /\
    forall s2 : nic D, nic_heap s2 = nic_heap s1 -> dom (nic_mem s2) = dom (nic_mem s) ->
      exists s3, kfree p s2 = Ret (tt, s3) /\ heap_ready heap_base s3 segs /\ nic_mem s3 = nic_mem s2 /\
        nic_card s3 = nic_card s2 /\ nic_log s3 = nic_log s2.
Proof.
  intros Hr Ho Hroom H1 H2.
  destruct (kmalloc_scratch heap_base Hbase n s segs rs rest Hr Ho Hroom H1 H2) as (p & h & segs' & E & Hp & Hr' & Ho' & Hfree).
  destruct (owned_regions heap_base _ segs' _ _ Hr' Ho') as [Hap Hin]. apply Forall_cons in Hin as [Hin _]. cbn [fst snd] in Hin.
  rewrite st_mem_with in Hin. cbn [st_mem nic_heap_state] in Hin. set (s0 := with_hm h (st_mem s) s) in *.
  destruct (store_run p (replicate (Z.to_nat n) 0) s0) as (m & Es & Hpt & Hd); [by rewrite length_replicate|].
  exists p, (mkNic (nic_heap s0) m (nic_card s0) (nic_log s0)). split.
  { unfold vec_zeroed. rewrite (M_bind_Ret _ _ _ _ _ E), (proj2 (Z.eqb_neq p 0)) by done. rewrite (M_bind_Ret _ _ _ _ _ Es). done. }
  split; [done|]. split; [done|]. split; [done|]. split; [done|]. split; [done|]. split.
  { intros x Hx. apply (patched_outside _ _ _ _ _ Hpt). rewrite length_replicate. lia. }
  intros s2 Eh Ed. destruct (Hfree s2) as (h' & Ef & Hi'); [exact Eh|]. eexists. split; [exact Ef|]. split; [|done].
  constructor; [by rewrite st_heap_with|]. rewrite st_mem_with. cbn. apply within_mapped. rewrite Ed. apply within_mapped, (hr_mapped _ _ _ Hr).
Qed.

Lemma on_nic_eq {A} (c : M (nic D) A) s a n :
  c (dv_nic s) = Ret (a, n) -> on_nic c s = Ret (a, mkNetdev n (dv_rtl s) (dv_e1000 s) (dv_pcnet s) (dv_active s)).
Proof. intros E. unfold on_nic. by rewrite E. Qed.

Lemma on_rtl_eq {A} (c : option Rtl8139Device -> M (nic D) (A * option Rtl8139Device)) s a st n :
  c (dv_rtl s) (dv_nic s) = Ret ((a, st), n) -> on_rtl c s = Ret (a, mkNetdev n st (dv_e1000 s) (dv_pcnet s) (dv_active s)).
Proof. intros E. unfold on_rtl. by rewrite E. Qed.

Lemma on_e1000_eq {A} (c : option E1000Device -> M (nic D) (A * option E1000Device)) s a st n :
  c (dv_e1000 s) (dv_nic s) = Ret ((a, st), n) -> on_e1000 c s = Ret (a, mkNetdev n (dv_rtl s) st (dv_pcnet s) (dv_active s)).
Proof. intros E. unfold on_e1000. by rewrite E. Qed.

End buffers.

(** ** Cards that run out of packets *)

(** A RTL8139 at port [base] with at most [packets_left d] packets to come: reading registers
    and waiting bring no new ones, acknowledging one uses it up, and when there is
    none the command register says that the buffer is empty. *)
Class Supply (D : Type) `{Card D} (base : Z) := {
  packets_left : D -> nat;
  left_in w p d : (packets_left (card_in w p d).2 <= packets_left d)%nat;
  left_out w p v d : (packets_left (card_out w p v d) <= packets_left d)%nat;
  left_run m d : (packets_left (card_run m d).2 <= packets_left d)%nat;
  left_ack v d : (packets_left (card_out 2 (u16 (base + Rtl8139.REG_CAPR)) v d) <= pred (packets_left d))%nat;
  left_none d : packets_left d = 0%nat -> (u8 (card_in 1 (u16 (base + Rtl8139.REG_CMD)) d).1 .& 0x01)%W <> 0
}.

Section thrifty.

Context {D : Type} `{Hcard : Card D} (base : Z) `{Hsup : !Supply D base}.

(** Code that brings no new packets. *)
Definition thrifty {A} (c : M (nic D) A) : Prop :=
  forall s a s', c s = Ret (a, s') -> (packets_left (nic_card s') <= packets_left (nic_card s))%nat.

Lemma thrifty_ret {A} (a : A) : thrifty (mret a).
Proof. intros s b s' E. by apply mret_inv in E as [_ <-]. Qed.

Lemma thrifty_bind {A B} (c : M (nic D) A) (k : A -> M (nic D) B) : thrifty c -> (forall a, thrifty (k a)) -> thrifty (a ← c; k a).
Proof.
  intros Hc Hk s b s' E. apply M_bind_inv in E as (a & s1 & E1 & E). apply Hc in E1. apply Hk in E. lia.
Qed.

Lemma thrifty_inp w p : thrifty (inp w p).
Proof.
  intros s a s' E. unfold inp in E. pose proof (left_in w p (nic_card s)) as Hl. destruct (card_in _ _ _) as [v d]. by injection E as _ <-.
Qed.

Lemma thrifty_out w p v : thrifty (out w p v).
Proof. intros s a s' E. unfold out in E. injection E as _ <-. apply left_out. Qed.

Lemma thrifty_load p n : thrifty (load p n).
Proof. intros s a s' E. unfold load in E. destruct (load_bytes _ _ _); [|done..]. by injection E as _ <-. Qed.

Lemma thrifty_store p l : thrifty (store p l).
Proof. intros s a s' E. unfold store in E. destruct (store_bytes _ _ _); [|done..]. by injection E as _ <-. Qed.

Lemma thrifty_lift {A} (c : outcome A) : thrifty (lift c).
Proof. intros s a s' E. unfold lift in E. destruct c; [|done..]. by injection E as _ <-. Qed.

Lemma thrifty_transmit dev data : thrifty (Rtl8139.transmit dev data).
Proof.
  unfold Rtl8139.transmit. destruct (_ <? _); [apply thrifty_ret|]. apply thrifty_bind; [apply thrifty_lift|intros b].
  apply thrifty_bind; [apply thrifty_store|intros _]. do 2 (apply thrifty_bind; [apply thrifty_out|intros _]). apply thrifty_ret.
Qed.

Lemma thrifty_skip dev len : thrifty (Rtl8139.skip_packet dev len).
Proof. apply thrifty_bind; [apply thrifty_out|intros _]. apply thrifty_ret. Qed.

Lemma thrifty_inp_all w ps : thrifty (inp_all w ps).
Proof.
  induction ps as [|p ps IH]; cbn [inp_all]; [apply thrifty_ret|]. apply thrifty_bind; [apply thrifty_inp|intros v].
  apply thrifty_bind; [done|intros vs; apply thrifty_ret].
Qed.

Lemma thrifty_spin : thrifty spin.
Proof.
  intros s a s' E. unfold spin in E. pose proof (left_run (nic_mem s) (nic_card s)) as Hl. destruct (card_run _ _) as [m d]. by injection E as _ <-.
Qed.

Lemma thrifty_spin_until fuel w p f : thrifty (spin_until fuel (v ← inp w p; mret (f v))).
Proof.
  induction fuel as [|n IH]; cbn [spin_until]; [apply thrifty_lift|]. apply thrifty_bind.
  - apply thrifty_bind; [apply thrifty_inp|intros v; apply thrifty_ret].
  - intros b. destruct b; [apply thrifty_ret|]. apply thrifty_bind; [apply thrifty_spin|done].
Qed.

Lemma thrifty_init fuel dev : thrifty (Rtl8139.init fuel dev).
Proof.
  unfold Rtl8139.init. do 2 (apply thrifty_bind; [apply thrifty_out|intros _]). apply thrifty_bind; [apply thrifty_spin_until|intros _].
  apply thrifty_bind; [apply thrifty_inp_all|intros mac].
  repeat (apply thrifty_bind; [first [apply thrifty_out|apply thrifty_inp]|intros _]). apply thrifty_ret.
Qed.

(** A packet taken out is one packet less to come. *)
Lemma receive_uses dev s r dev' s' :
  Rtl8139.io_base dev = base -> Rtl8139.receive dev s = Ret ((r, dev'), s') ->
  match r with
  | None => (packets_left (nic_card s') <= packets_left (nic_card s))%nat
  | Some _ => (packets_left (nic_card s') < packets_left (nic_card s))%nat
  end.
Proof.
  intros Hb E. unfold Rtl8139.receive in E. apply M_bind_inv in E as (cmd & s1 & E1 & E). pose proof (thrifty_inp _ _ _ _ _ E1) as L1.
  assert ((cmd .& 0x01)%W = 0 -> packets_left (nic_card s) <> 0%nat) as Hpos.
  { intros Hc Hz. apply left_none in Hz. unfold inp in E1. destruct (card_in 1 _ _) as [v d] eqn:Ec. injection E1 as <- _.
    unfold Rtl8139.port in Ec. rewrite Hb in Ec. rewrite Ec in Hz. done. }
  destruct (Z.eqb_spec (cmd .& 0x01)%W 0) as [Hc|Hc]; cbn [negb] in E; [|apply mret_inv in E as [E <-]; by injection E as <- _].
  specialize (Hpos Hc). apply M_bind_inv in E as (u1 & s2 & E2 & E). apply M_bind_inv in E as (u2 & s3 & E3 & E).
  apply thrifty_inp in E2, E3. destruct (_ <=? _).
  { apply M_bind_inv in E as (u3 & s4 & E4 & E). apply thrifty_out in E4. apply mret_inv in E as [E <-]. injection E as <- _. lia. }
  apply M_bind_inv in E as (hd & s4 & E4 & E).
  assert (packets_left (nic_card s4) <= packets_left (nic_card s3))%nat as L4.
  { unfold load_le in E4. apply M_bind_inv in E4 as (b & s5 & E5 & E4). apply thrifty_load in E5. by apply mret_inv in E4 as [_ <-]. }
  cbn zeta in E. destruct (_ =? 0).
  { apply M_bind_inv in E as (d1 & s5 & E5 & E). apply thrifty_skip in E5. apply mret_inv in E as [E <-]. injection E as <- _. lia. }
  destruct (_ || _).
  { apply M_bind_inv in E as (d1 & s5 & E5 & E). apply thrifty_skip in E5. apply mret_inv in E as [E <-]. injection E as <- _. lia. }
  apply M_bind_inv in E as (b & s5 & E5 & E). apply thrifty_load in E5. apply M_bind_inv in E as (d1 & s6 & E6 & E).
  unfold Rtl8139.skip_packet in E6. apply M_bind_inv in E6 as (u4 & s7 & E7 & E6). unfold out in E7. injection E7 as _ <-.
  apply mret_inv in E6 as [_ <-]. apply mret_inv in E as [E <-]. injection E as <- _. cbn [nic_card].
  unfold Rtl8139.port. rewrite Hb.
  pose proof (left_ack (u16 (Rtl8139.next_offset (Rtl8139.rx_offset dev) ((hd >>. 16) .& 0xFFFF)%W - 0x10)) (nic_card s5)). lia.
Qed.

End thrifty.

(** ** The RTL8139 as the driver of the stack *)
Section rtl.

Context {D : Type} `{Hcard : Card D} (heap_base base : Z) (Hbase : base_ok heap_base) `{Hsup : !Supply D base}.
Context (fuel : nat) (ds user : gset Z) (Huser : user ⊆ ds) (segs : list seg) (rest : list (Z * Z)) (Hroom : has_room segs 2048).

(** A device at [base] whose blocks are among those handed out, room for a buffer, and
    at most [n] packets to come. *)
Record rtl_inv (n : nat) (s : netdev D) : Prop := {
  rv_active : dv_active s = Some DRtl8139;
  rv_heap : heap_ready heap_base (dv_nic s) segs;
  rv_dom : dom (nic_mem (dv_nic s)) = ds;
  rv_left : (packets_left (nic_card (dv_nic s)) <= n)%nat;
  rv_dev : exists dev, dv_rtl s = Some dev /\ rtl_ok dev /\ Rtl8139.io_base dev = base /\
    owned heap_base segs (Rtl8139.regions dev) rest /\ within ds (Rtl8139.rx_buffer dev) (Z.to_nat 11222)
}.

Lemma room_le n : n <= 2048 -> has_room segs n.
Proof. intros Hn. eapply Exists_impl; [exact Hroom|]. cbn. intros s [H1 H2]. split; [done|lia]. Qed.

(** The pointers of a device and its ports do not change. *)
Lemma receive_same dev (s : nic D) r dev' s' :
  Rtl8139.receive dev s = Ret ((r, dev'), s') -> exists o, dev' = Rtl8139.with_rx_offset o dev.
Proof.
  intros E. unfold Rtl8139.receive, Rtl8139.skip_packet in E. apply M_bind_inv in E as (cmd & s1 & _ & E).
  assert (forall o, exists o', Rtl8139.with_rx_offset o dev = Rtl8139.with_rx_offset o' dev) as Ho by (intros o; by exists o).
  destruct (negb _); [apply mret_inv in E as [E _]; injection E as _ <-; exists (Rtl8139.rx_offset dev); by destruct dev|].
  do 2 apply M_bind_inv in E as (? & ? & _ & E). destruct (_ <=? _).
  { apply M_bind_inv in E as (? & ? & _ & E). apply mret_inv in E as [E _]. injection E as _ <-. by eexists. }
  apply M_bind_inv in E as (hd & s4 & _ & E). cbn zeta in E.
  destruct (_ =? 0); [|destruct (_ || _); [|apply M_bind_inv in E as (? & ? & _ & E)]];
    (apply M_bind_inv in E as (d1 & s5 & E5 & E); apply M_bind_inv in E5 as (? & ? & _ & E5); apply mret_inv in E5 as [<- _];
     apply mret_inv in E as [E _]; injection E as _ <-; by eexists).
Qed.

(** [rtl8139_receive] into a buffer. *)
Lemma rtl_receive_call dev (s : nic D) buffer :
  rtl_ok dev -> Rtl8139.io_base dev = base -> dom (nic_mem s) = ds -> within ds (Rtl8139.rx_buffer dev) (Z.to_nat 11222) ->
  within ds buffer (Z.to_nat 2048) ->
  exists len dev' s', Rtl8139.rtl8139_receive (Some dev) buffer 2048 s = Ret ((len, Some dev'), s') /\
    nic_heap s' = nic_heap s /\ dom (nic_mem s') = ds /\ rtl_ok dev' /\ (exists o, dev' = Rtl8139.with_rx_offset o dev) /\ len <= 2048 /\
    (packets_left (nic_card s') <= packets_left (nic_card s))%nat /\
    (0 < len -> (packets_left (nic_card s') < packets_left (nic_card s))%nat).
Proof.
  intros Hok Hio Hd Hrx Hbuf. destruct (quiet_receive ds dev Hok Hrx s Hd) as ([r dev'] & s1 & E1 & Hh1 & Hd1).
  pose proof (receive_uses base dev s r dev' s1 Hio E1) as Hl. pose proof (receive_keeps dev s r dev' s1 Hok E1) as Hok'.
  pose proof (receive_same dev s r dev' s1 E1) as Hsame. unfold Rtl8139.rtl8139_receive. rewrite (M_bind_Ret _ _ _ _ _ E1).
  destruct r as [packet|].
  - set (copy_len := Z.min (Z.of_nat (length packet)) 2048).
    destruct (store_run buffer (take (Z.to_nat copy_len) packet) s1) as (m & E2 & _ & Hd2).
    { rewrite Hd1. eapply within_sub; [exact Hbuf|lia|]. rewrite length_take. lia. }
    rewrite (M_bind_Ret _ _ _ _ _ E2). eexists copy_len, dev', _. split; [reflexivity|]. cbn [nic_heap nic_mem nic_card].
    split; [done|]. split; [congruence|]. split; [done|]. split; [done|]. split; [lia|]. split; [lia|done].
  - eexists (-1), dev', s1. split; [reflexivity|]. split; [done|]. split; [done|]. split; [done|]. split; [done|]. split; [lia|]. split; [done|lia].
Qed.

Lemma rtl_receive n dev s :
  nd_type dev = DRtl8139 -> rtl_inv n s ->
  exists r s', device_receive dev s = Ret (r, s') /\ match r with None => rtl_inv n s' | Some _ => exists n', n = S n' /\ rtl_inv n' s' end.
Proof.
  intros Ht [Hact Hr Hd Hleft (rd & Hrtl & Hok & Hio & Ho & Hrx)]. unfold device_receive. rewrite Ht.
  destruct (vec_zeroed_ok heap_base Hbase 2048 (dv_nic s) segs _ _ Hr Ho Hroom) as (p & s1 & E1 & Hc1 & _ & Hd1 & Hw & _ & _ & Hfree); [lia..|].
  rewrite (M_bind_Ret _ _ _ _ _ (on_nic_eq _ _ _ _ E1)).
  destruct (rtl_receive_call rd s1 p Hok Hio) as (len & rd' & s2 & E2 & Hh2 & Hd2 & Hok2 & [o ->] & Hlen & Hl2 & Hl2'); [congruence|done|by rewrite Hd in Hw|].
  set (sv := mkNetdev s1 _ _ _ _). erewrite M_bind_Ret; [|apply (on_rtl_eq _ sv); cbn [sv dv_rtl dv_nic]; rewrite Hrtl; exact E2].
  assert (forall s3 n', heap_ready heap_base s3 segs -> nic_mem s3 = nic_mem s2 -> nic_card s3 = nic_card s2 -> (packets_left (nic_card s2) <= n')%nat ->
    rtl_inv n' (mkNetdev s3 (Some (Rtl8139.with_rx_offset o rd)) (dv_e1000 s) (dv_pcnet s) (dv_active s))) as Hend.
  { intros s3 n' Hr3 Hm3 Hc3 Hl3. constructor; cbn [dv_active dv_nic dv_rtl]; [done|done|congruence|by rewrite Hc3|].
    exists (Rtl8139.with_rx_offset o rd). by split_and!. }
  destruct (Hfree s2) as (s3 & E3 & Hr3 & Hm3 & Hc3 & _); [done|congruence|].
  set (sw := mkNetdev s2 _ _ _ _). destruct (Z.ltb_spec 0 len) as [Hpos|Hpos].
  - destruct (quiet_load (D := D) ds p (Z.to_nat len)) with (s := s2) as (frame & s2' & E4 & _ & _); [|done|].
    { eapply within_sub; [rewrite Hd in Hw; exact Hw|lia|lia]. }
    assert (s2' = s2) as ->. { unfold load in E4. destruct (load_bytes _ _ _); [|done..]. by injection E4. }
    rewrite (M_bind_Ret _ _ _ _ _ (on_nic_eq _ sw _ _ E4)). cbn [sw dv_rtl dv_e1000 dv_pcnet dv_active].
    rewrite (M_bind_Ret _ _ _ _ _ (on_nic_eq _ sw _ _ E3)). eexists (Some frame), _. split; [reflexivity|].
    rewrite Hc1 in Hl2'. destruct n as [|n']; [lia|]. exists n'. split; [done|]. apply Hend; [done|done|done|lia].
  - rewrite (M_bind_Ret _ _ _ _ _ (on_nic_eq _ sw _ _ E3)). eexists None, _. split; [reflexivity|]. apply Hend; [done|done|done|].
    rewrite Hc1 in Hl2. lia.
Qed.

(** [rtl8139_transmit] from a buffer. *)
Lemma rtl_transmit_call dev (s : nic D) p len :
  rtl_ok dev -> dom (nic_mem s) = ds -> Forall (fun r => within ds r.1 (Z.to_nat r.2)) (Rtl8139.regions dev) ->
  within ds p (Z.to_nat len) -> 0 <= len <= 1500 ->
  exists dev' s', Rtl8139.rtl8139_transmit (Some dev) p len s = Ret ((0, Some dev'), s') /\
    nic_heap s' = nic_heap s /\ dom (nic_mem s') = ds /\ rtl_ok dev' /\ (exists i, dev' = Rtl8139.with_current_tx i dev) /\
    (packets_left (nic_card s') <= packets_left (nic_card s))%nat.
Proof.
  intros Hok Hd Hin Hw Hlen. unfold Rtl8139.rtl8139_transmit. apply Forall_cons in Hin as [_ Hin].
  destruct (mapped_load (nic_mem s) p (Z.to_nat len)) as [slice El]; [apply within_mapped; by rewrite Hd|].
  assert (load p (Z.to_nat len) s = Ret (slice, s)) as E1 by (unfold load; cbn [st_mem nic_heap_state]; by rewrite El).
  rewrite (M_bind_Ret _ _ _ _ _ E1). apply load_bytes_inv in El as [Hsl _].
  destruct (lookup_lt_is_Some_2 (Rtl8139.tx_buffers dev) (current_tx dev)) as [b Hb]; [destruct (ok_tx _ Hok); lia|].
  assert (within ds b (Z.to_nat TX_BUFFER_SIZE)) as Hbw.
  { rewrite Forall_fmap, Forall_forall in Hin. exact (Hin b (list_elem_of_lookup_2 _ _ _ Hb)). }
  assert (mapped (nic_mem s) b (length slice)) as Hm.
  { apply within_mapped. rewrite Hd. eapply within_sub; [exact Hbw|lia|unfold TX_BUFFER_SIZE; lia]. }
  destruct (Rtl8139.transmit_ok dev slice s b Hok Hb Hm) as (m & d & E2 & Hp); [unfold TX_BUFFER_SIZE; lia|].
  pose proof (transmit_keeps dev slice s _ _ _ Hok E2) as Hok'. pose proof (thrifty_transmit base dev slice s _ _ E2) as Hl.
  rewrite (M_bind_Ret _ _ _ _ _ E2). eexists _, _. split; [reflexivity|]. cbn [nic_heap nic_mem nic_card] in *.
  split; [done|]. split; [by rewrite (patched_dom _ _ _ _ Hm Hp)|]. split; [done|]. split; [by eexists|done].
Qed.

(** Sending: the frame is copied to a buffer, sent and the buffer freed. *)
Lemma rtl_send n f s : frame_ok f -> rtl_inv n s -> exists s', consume_tx fuel f s = Ret (tt, s') /\ rtl_inv n s'.
Proof.
  intros Hf [Hact Hr Hd Hleft (rd & Hrtl & Hok & Hio & Ho & Hrx)]. unfold frame_ok in Hf. unfold consume_tx.
  set (len := Z.of_nat (length f)). rewrite (proj2 (Z.eqb_neq len 0)) by lia.
  destruct (owned_regions heap_base _ segs _ _ Hr Ho) as [_ Hin]. cbn [st_mem nic_heap_state] in Hin. rewrite Hd in Hin.
  destruct (vec_zeroed_ok heap_base Hbase len (dv_nic s) segs _ _ Hr Ho (room_le len ltac:(lia))) as (p & s1 & E1 & Hc1 & _ & Hd1 & Hw & _ & _ & Hfree); [lia..|].
  rewrite (M_bind_Ret _ _ _ _ _ (on_nic_eq _ _ _ _ E1)). rewrite Hd in Hd1, Hw, Hfree.
  destruct (store_run p f s1) as (m & E2 & _ & Hd2); [rewrite Hd1; by replace (Z.to_nat len) with (length f) in Hw by lia|].
  set (s2 := mkNic (nic_heap s1) m (nic_card s1) (nic_log s1)) in *.
  set (sv := mkNetdev s1 _ _ _ _). rewrite (M_bind_Ret _ _ _ _ _ (on_nic_eq _ sv _ _ E2)). set (sw := mkNetdev s2 _ _ _ _).
  destruct (rtl_transmit_call rd s2 p len Hok) as (rd' & s3 & E3 & Hh3 & Hd3 & Hok3 & [i ->] & Hl3); [by cbn; rewrite Hd2|done|done|lia|].
  assert (driver_transmit fuel p len sw = Ret (tt, mkNetdev s3 (Some (Rtl8139.with_current_tx i rd)) (dv_e1000 s) (dv_pcnet s) (dv_active s))) as E4.
  { unfold driver_transmit. rewrite (M_bind_Ret _ _ sw sw sw) by done. cbn [sw dv_active sv]. rewrite Hact.
    erewrite M_bind_Ret; [|apply (on_rtl_eq _ sw); cbn [sw dv_rtl dv_nic sv]; rewrite Hrtl; exact E3]. cbn [sw sv dv_active]. by rewrite Hact. }
  rewrite (M_bind_Ret _ _ _ _ _ E4). destruct (Hfree s3) as (s4 & E5 & Hr5 & Hm5 & Hc5 & _); [done|done|].
  set (sx := mkNetdev s3 _ _ _ _). eexists. split; [exact (on_nic_eq _ sx _ _ E5)|].
  constructor; cbn [sx dv_active dv_nic dv_rtl]; [done|done|by rewrite Hm5| |].
  - rewrite Hc5. cbn [s2 nic_card] in Hl3. rewrite Hc1 in Hl3. lia.
  - exists (Rtl8139.with_current_tx i rd). by split_and!.
Qed.

Lemma rtl_spin n s : rtl_inv n s -> exists s', on_nic spin s = Ret (tt, s') /\ rtl_inv n s'.
Proof.
  intros [Hact Hr Hd Hleft Hdev]. destruct (quiet_spin ds (dv_nic s) Hd) as (u & s1 & E & Hh & Hd1). destruct u.
  eexists. split; [by apply on_nic_eq|]. constructor; cbn [dv_active dv_nic dv_rtl]; [done| |done| |done].
  - eapply heap_ready_quiet; [exact Hr|done|congruence].
  - unfold spin in E. pose proof (left_run (nic_mem (dv_nic s)) (nic_card (dv_nic s))). destruct (card_run _ _) as [m d].
    injection E as <-. cbn in *. lia.
Qed.

Lemma rtl_mac n s mac_buf :
  rtl_inv n s -> within user mac_buf 6 ->
  exists dev s', new_from_active_driver mac_buf s = Ret (Some dev, s') /\ nd_type dev = DRtl8139 /\ length (nd_mac dev) = 6%nat /\ rtl_inv n s'.
Proof.
  intros [Hact Hr Hd Hleft (rd & Hrtl & Hok & Hio & Ho & Hrx)] Hw. unfold new_from_active_driver.
  assert (within ds mac_buf 6) as Hwd by (intros i Hi; apply Huser, Hw, Hi).
  destruct (store_run mac_buf (replicate 6 0) (dv_nic s)) as (m1 & E1 & P1 & Hd1); [by rewrite Hd|].
  rewrite (M_bind_Ret _ _ _ _ _ (on_nic_eq _ _ _ _ E1)). set (s1 := mkNic _ m1 _ _) in *. set (sv := mkNetdev s1 _ _ _ _).
  rewrite (M_bind_Ret _ _ sv sv sv) by done. cbn [sv dv_active]. rewrite Hact. cbn [dv_rtl].
  destruct (store_run mac_buf (Rtl8139.get_mac_address rd) s1) as (m2 & E2 & P2 & Hd2).
  { cbn [s1 nic_mem]. rewrite Hd1, Hd. unfold Rtl8139.get_mac_address. destruct (ok_mac _ Hok) as [-> _]. done. }
  set (s2 := mkNic _ m2 _ _) in *.
  assert (Rtl8139.rtl8139_get_mac (dv_rtl s) mac_buf (dv_nic sv) = Ret (tt, s2)) as E3 by (rewrite Hrtl; exact E2).
  rewrite (M_bind_Ret _ _ _ _ _ (on_nic_eq _ sv _ _ E3)).
  destruct (mapped_load m2 mac_buf 6) as [mac El]; [apply within_mapped; rewrite Hd2; cbn; by rewrite Hd1, Hd|].
  set (sw := mkNetdev s2 _ _ _ _).
  rewrite (M_bind_Ret _ _ sw mac sw) by (unfold on_nic, load; cbn [st_mem nic_heap_state sw dv_nic s2 nic_mem]; by rewrite El).
  eexists _, _. split; [reflexivity|]. split; [done|]. split; [exact (proj1 (load_bytes_inv _ _ _ _ El))|].
  assert (dom m2 = ds) as Hdm by (rewrite Hd2; cbn [s1 nic_mem]; by rewrite Hd1, Hd).
  constructor; cbn [sw sv s2 s1 dv_active dv_nic dv_rtl nic_mem nic_card]; [done| |done|done|].
  - eapply heap_ready_quiet; [exact Hr|done|]. cbn. congruence.
  - exists rd. by split_and!.
Qed.

Lemma rtl_driver_spec : DriverSpec fuel DRtl8139 user rtl_inv.
Proof.
  constructor.
  - apply rtl_receive.
  - apply rtl_send.
  - apply rtl_spin.
  - intros n s Hi. by rewrite (rv_dom _ _ Hi).
  - intros n s m [Hact Hr Hd Hleft Hdev] Hm _. constructor; cbn [dv_active dv_nic dv_rtl]; [done| |by cbn; congruence|done|done].
    eapply heap_ready_quiet; [exact Hr|done|done].
  - intros n s Hi. apply Hi.
  - apply rtl_mac.
Qed.

End rtl.


(** ** Starting the RTL8139 *)
Section rtl_start.

Context {D : Type} `{Hcard : Card D} (heap_base base : Z) (Hbase : base_ok heap_base) `{Hsup : !Supply D base}.

(** With room for its buffers the device is made; room for a packet is left. *)
Lemma rtl_new_ok fuel (s : nic D) segs rest :
  heap_ready heap_base s segs -> owned heap_base segs [] rest -> has_room segs 20000 ->
  answers (D := D) fuel 1 (u16 (base + REG_CMD)) (fun v => (v .& CMD_RESET)%W =? 0) ->
  within (dom (nic_mem s)) heap_base (Z.to_nat (HEAP_SIZE + 1514)) ->
  exists dev s' segs', Rtl8139.new fuel base s = Ret (Some dev, s') /\ heap_ready heap_base s' segs' /\ has_room segs' 2048 /\
    dom (nic_mem s') = dom (nic_mem s) /\ (packets_left (nic_card s') <= packets_left (nic_card s))%nat /\
    rtl_ok dev /\ Rtl8139.io_base dev = base /\ owned heap_base segs' (Rtl8139.regions dev) rest /\
    within (dom (nic_mem s)) (Rtl8139.rx_buffer dev) (Z.to_nat 11222).
Proof.
  intros Hr Ho Hroom Ha Hw.
  assert (forall n, n <= 20000 -> has_room segs n) as Hle.
  { intros n Hn. eapply Exists_impl; [exact Hroom|]. cbn. intros x [H1 H2]. split; [done|lia]. }
  destruct (kmalloc_grants heap_base Hbase RX_BUFFER_SIZE 8448 s segs [] rest Hr Ho) as (rx & h1 & segs1 & E1 & Hrx & Hr1 & Ho1 & Hroom1);
    [apply Hle; unfold RX_BUFFER_SIZE; lia|unfold RX_BUFFER_SIZE; lia..|].
  set (s1 := with_hm h1 (st_mem s) s) in *.
  destruct (alloc_all_grants heap_base Hbase TX_BUFFER_SIZE 4 [] 2048 s1 segs1 _ _ Hr1 Ho1) as (tx & s2 & segs2 & E2 & Hm2 & [h2 Hs2] & Hr2 & Ho2 & Hroom2);
    [by unfold TX_BUFFER_SIZE|unfold TX_BUFFER_SIZE; lia..|].
  set (dev := mkRtl base (replicate 6 0) rx tx 0 0). eapply (owned_perm _ _ _ (Rtl8139.regions dev)) in Ho2; [|by rewrite Permutation_app_comm].
  destruct (quiet_init (dom (nic_mem s2)) fuel dev Ha s2 eq_refl) as (dev' & s3 & E3 & Hh3 & Hd3). pose proof (thrifty_init base _ _ _ _ _ E3) as Hl3.
  destruct (init_fields _ _ _ _ _ E3) as (mac & -> & _ & _).
  assert (dom (nic_mem s2) = dom (nic_mem s)) as Hd2 by (change (nic_mem s2) with (st_mem s2); by rewrite Hm2).
  assert (Rtl8139.new fuel base s = Ret (Some (Rtl8139.with_mac mac dev), s3)) as E.
  { unfold Rtl8139.new. rewrite (M_bind_Ret _ _ _ _ _ E1), (proj2 (Z.eqb_neq rx 0)) by done. rewrite (M_bind_Ret _ _ _ _ _ E2). cbn [app].
    rewrite (M_bind_Ret _ _ _ _ _ E3). done. }
  exists (Rtl8139.with_mac mac dev), s3, segs2. split; [exact E|]. split; [by eapply heap_ready_quiet|]. split; [done|].
  split; [congruence|]. split; [by rewrite Hs2 in Hl3|]. split; [by eapply new_ok|]. split; [done|]. split; [done|].
  destruct (owned_bound heap_base s2 segs2 _ _ rx RX_BUFFER_SIZE Hr2 Ho2) as [B1 B2]; [apply elem_of_cons; by left|].
  cbn [Rtl8139.rx_buffer Rtl8139.with_mac dev]. eapply within_sub; [exact Hw|done|]. unfold RX_BUFFER_SIZE, HEAP_SIZE in *. lia.
Qed.

End rtl_start.

(** ** Frames of the E1000 *)
Section e1000.

Context {D : Type} `{Hcard : Card D} (heap_base : Z) (Hbase : base_ok heap_base).
Context (segs : list seg) (rest : list (Z * Z)) (Hroom : has_room segs 2048).

(** The device of the driver owns its blocks; its card has received [sent], of which
    the stack has [got], and [q] is in the ring. *)
Record e1000_inv (s : netdev D) (sent got q : list (list Z)) : Prop := {
  ei_heap : heap_ready heap_base (dv_nic s) segs;
  ei_frames : Forall (fun f => f <> []) q;
  ei_dev : exists dev, dv_e1000 s = Some dev /\ owned heap_base segs (E1000.device_blocks dev) rest /\ E1000.dev_inv dev (nic_mem (dv_nic s)) sent got q
}.

(** [e1000_receive] into a buffer apart from the rings. *)
Lemma e1000_receive_call dev (s : nic D) p sent got q :
  E1000.dev_inv dev (nic_mem s) sent got q -> apart ((p, 2048) :: E1000.regions dev) -> within (dom (nic_mem s)) p (Z.to_nat 2048) ->
  exists len dev' s', E1000.e1000_receive (Some dev) p 2048 s = Ret ((len, Some dev'), s') /\
    E1000.dev_inv dev' (nic_mem s') sent (got ++ option_list (head q)) (tail q) /\
    nic_heap s' = nic_heap s /\ dom (nic_mem s') = dom (nic_mem s) /\ E1000.device_blocks dev' = E1000.device_blocks dev /\
    match head q with Some f => len = Z.of_nat (length f) /\ bytes_at (nic_mem s') p f | None => len = -1 end.
Proof.
  intros Hi Hap Hw. destruct (E1000.dev_inv_receive dev s sent got q Hi) as (dev' & s1 & E1 & Hi1 & Hh1 & Hd1 & Hr1 & Hb1).
  assert (E1000.regions dev' = E1000.regions dev) as Hreg by (unfold E1000.regions; by rewrite Hr1).
  unfold E1000.e1000_receive. rewrite (M_bind_Ret _ _ _ _ _ E1). destruct q as [|f q]; cbn [head tail option_list] in *.
  { eexists _, dev', s1. split; [reflexivity|]. done. }
  assert (Z.of_nat (length f) <= 2048) as Hf by exact (proj1 (ring_inv_head _ _ _ _ _ _ _ _ _ _ _ (proj1 Hi))).
  replace (Z.min (Z.of_nat (length f)) 2048) with (Z.of_nat (length f)) by lia. rewrite Nat2Z.id, firstn_all.
  destruct (store_run p f s1) as (m & E2 & Hp & Hd2); [rewrite Hd1; eapply within_sub; [exact Hw|lia|lia]|].
  rewrite (M_bind_Ret _ _ _ _ _ E2). eexists _, dev', _. split; [reflexivity|]. cbn [nic_mem nic_heap]. split.
  { eapply (E1000.dev_inv_scratch _ _ _ _ _ _ p 2048); [exact Hi1|by rewrite Hreg|done|]. intros x Hx. apply (patched_outside _ _ _ _ _ Hp). lia. }
  split; [done|]. split; [congruence|]. split; [done|]. split; [done|]. by apply bytes_at_patched in Hp.
Qed.

Lemma e1000_frame_in dev s sent got q :
  nd_type dev = DE1000 -> e1000_inv s sent got q ->
  exists s', device_receive dev s = Ret (head q, s') /\ e1000_inv s' sent (got ++ option_list (head q)) (tail q).
Proof.
  intros Ht [Hr Hne (ed & He & Ho & Hi)]. unfold device_receive. rewrite Ht.
  destruct (vec_zeroed_ok heap_base Hbase 2048 (dv_nic s) segs _ _ Hr Ho Hroom) as (p & s1 & E1 & _ & _ & Hd1 & Hw & Hap & Hx & Hfree); [lia..|].
  rewrite (M_bind_Ret _ _ _ _ _ (on_nic_eq _ _ _ _ E1)). set (sv := mkNetdev s1 _ _ _ _).
  apply (apart_app_l ((p, 2048) :: E1000.regions ed)) in Hap. pose proof (E1000.dev_inv_scratch _ _ _ _ _ _ p 2048 Hi Hap Hd1 Hx) as Hi1.
  destruct (e1000_receive_call ed s1 p sent got q Hi1 Hap) as (len & ed' & s2 & E2 & Hi2 & Hh2 & Hd2 & Hreg & Hlen); [by rewrite Hd1|].
  erewrite M_bind_Ret; [|apply (on_e1000_eq _ sv); cbn [sv dv_e1000 dv_nic]; rewrite He; exact E2].
  set (sw := mkNetdev s2 _ _ _ _). destruct (Hfree s2) as (s3 & E3 & Hr3 & Hm3 & _); [done|congruence|].
  assert (e1000_inv (mkNetdev s3 (dv_rtl s) (Some ed') (dv_pcnet s) (dv_active s)) sent (got ++ option_list (head q)) (tail q)) as Hend.
  { constructor; cbn [dv_nic dv_e1000]; [done|by destruct q; [|inversion Hne]|]. exists ed'. rewrite Hreg, Hm3. done. }
  destruct q as [|f q]; cbn [head tail option_list] in *.
  - subst len. rewrite (proj2 (Z.ltb_ge 0 (-1))) by lia. rewrite (M_bind_Ret _ _ _ _ _ (on_nic_eq _ sw _ _ E3)). eexists. split; [reflexivity|done].
  - destruct Hlen as [-> Hb]. apply Forall_cons in Hne as [Hne _]. rewrite (proj2 (Z.ltb_lt 0 _)) by (destruct f; [done|cbn; lia]).
    rewrite Nat2Z.id. erewrite (M_bind_Ret _ _ sw f sw) by (unfold on_nic, load; cbn [st_mem nic_heap_state sw dv_nic]; by rewrite (load_bytes_ok _ _ _ Hb)).
    rewrite (M_bind_Ret _ _ _ _ _ (on_nic_eq _ sw _ _ E3)). eexists. split; [reflexivity|done].
Qed.

(** [n] frames for the stack. *)
Fixpoint take_frames (n : nat) (dev : NetDevice) : M (netdev D) (list (option (list Z))) :=
  match n with
  | O => mret []
  | S n' => f ← device_receive dev; fs ← take_frames n' dev; mret (f :: fs)
  end.

Lemma e1000_frames_in dev s sent got q :
  nd_type dev = DE1000 -> e1000_inv s sent got q ->
  exists s', take_frames (length q) dev s = Ret (Some <$> q, s') /\ e1000_inv s' sent sent [].
Proof.
  intros Ht. revert s got. induction q as [|f q IH]; intros s got Hi; cbn [length take_frames].
  - exists s. split; [done|]. pose proof (ei_dev _ _ _ _ Hi) as (ed & _ & _ & Hd). pose proof (ri_sent _ _ _ _ _ _ _ _ _ _ (proj1 Hd)) as Hs.
    rewrite app_nil_r in Hs. by rewrite Hs in *.
  - destruct (e1000_frame_in dev s sent got (f :: q) Ht Hi) as (s1 & E1 & Hi1). destruct (IH s1 _ Hi1) as (s2 & E2 & Hi2).
    exists s2. rewrite (M_bind_Ret _ _ _ _ _ E1), (M_bind_Ret _ _ _ _ _ E2). done.
Qed.

End e1000.
