(* ===== verification/NetApi.v ===== *)
(** * NetApi: what the network calls do

    The theorems on [network.rs] as its callers see it: sequences of socket calls
    implement a table of sockets, a machine with a RTL8139 starts its stack, frames of
    the E1000 arrive in order, the configuration set is the one reported.  A small
    instance of smoltcp and a card with a supply of packets show that what is assumed
    of both can hold. *)

From S2P Require Import Prelude Memory Heap Blocks Nic Rings Rtl8139 E1000 Pcnet PciNet Network NetProps NetDriver.

Local Open Scope Z_scope.

(** ** Sequences of calls *)
Section runs.

Context {D : Type} `{Hcard : Card D} `{Hsm : Smoltcp} `{Hlaws : !SmoltcpLaws} (clock : nat -> Z) (fuel burst N k : nat).
Context (t : DriverType) (user : gset Z) (Inv : nat -> netdev D -> Prop) `{Hdrv : !DriverSpec fuel t user Inv}.

Fixpoint run_ops (os : list sock_op) : M (net D) (list Z) :=
  match os with
  | [] => mret []
  | o :: os => code ← run_op clock fuel burst o; codes ← run_ops os; mret (code :: codes)
  end.

(** The table of sockets as an abstract machine: what a sequence of calls with these
    results does to it. *)
Fixpoint table_run (os : list sock_op) (codes : list Z) (mp mp' : gmap Z (SocketType * SocketState)) (next next' : Z) : Prop :=
  match os, codes with
  | [], [] => mp' = mp /\ next' = next
  | o :: os, code :: codes => exists mp1 next1, table_step o code mp mp1 next next1 /\ table_run os codes mp1 mp' next1 next'
  | _, _ => False
  end.

Lemma table_step_next o code mp mp' next next' : table_step o code mp mp' next next' -> next <= next' <= next + 1.
Proof. destruct o; cbn [table_step]; intros Ht; destruct_and?; lia. Qed.

Lemma table_run_length os codes mp mp' next next' : table_run os codes mp mp' next next' -> length codes = length os.
Proof.
  revert codes mp next. induction os as [|o os IH]; intros [|code codes] mp next Hr; [done..|]. destruct Hr as (mp1 & next1 & _ & Hr).
  cbn. by rewrite (IH _ _ _ Hr).
Qed.

Lemma run_ops_effect os (s : net D) st :
  steady k N clock -> Forall (fun o => (op_ticks o * k < fuel)%nat /\ op_ok user o) os ->
  net_ok burst t Inv s -> nt_stack s = Some st -> next_fd st + Z.of_nat (length os) < 2 ^ 31 ->
  (nt_reads s + length os * op_reads fuel <= N)%nat ->
  exists codes s' st', run_ops os s = Ret (codes, s') /\ net_ok burst t Inv s' /\ nt_stack s' = Some st' /\
    table_run os codes (view st) (view st') (next_fd st) (next_fd st').
Proof.
  intros Hsteady Hos. revert s st. induction Hos as [|o os [Hticks Hop] _ IH]; intros s st Hok Hst Hfd HN; cbn [run_ops length] in *.
  { by exists [], s, st. }
  destruct (run_op_effect clock fuel burst N t user Inv k Hsteady o s Hticks Hok Hop) as (code & s1 & E1 & Hok1 & Hrd & Hres); [intros st1 E; rewrite Hst in E; injection E as <-; lia|lia|].
  rewrite Hst in Hres. destruct Hres as (st1 & Hst1 & Heff). pose proof (table_step_next _ _ _ _ _ _ Heff).
  destruct (IH s1 st1 Hok1 Hst1) as (codes & s2 & st2 & E2 & Hok2 & Hst2 & Hrun); [lia|lia|].
  rewrite (M_bind_Ret _ _ _ _ _ E1), (M_bind_Ret _ _ _ _ _ E2). exists (code :: codes), s2, st2. split; [done|]. split; [done|]. split; [done|].
  by exists (view st1), (next_fd st1).
Qed.

End runs.

(** ** Reporting the configuration *)
Section config.

Context {D : Type} `{Hcard : Card D} `{Hsm : Smoltcp}.

Definition net_mem (s : net D) : mem := nic_mem (dv_nic (nt_dev s)).

Definition with_net_mem (m : mem) (s : net D) : net D :=
  let d := nt_dev s in
  mkNet (mkNetdev (mkNic (nic_heap (dv_nic d)) m (nic_card (dv_nic d)) (nic_log (dv_nic d))) (dv_rtl d) (dv_e1000 d) (dv_pcnet d) (dv_active d))
    (nt_stack s) (nt_locked s) (nt_reads s).

Lemma put_ok p b (s : net D) :
  p <> 0 -> within (dom (net_mem s)) p (length b) ->
  exists m, put p b s = Ret (tt, with_net_mem m s) /\ patched (net_mem s) p b m /\ dom m = dom (net_mem s).
Proof.
  intros Hp Hw. destruct (store_run p b (dv_nic (nt_dev s)) Hw) as (m & E & Hpt & Hd). exists m. split; [|done].
  unfold put. rewrite (proj2 (Z.eqb_neq p 0)) by done. unfold on_dev. by rewrite (on_nic_eq _ _ _ _ E).
Qed.

(** Where [x] is not written. *)
Definition misses (x : Z) (o : Z * list Z) : Prop := o.1 = 0 \/ ~ (o.1 <= x < o.1 + Z.of_nat (length o.2)).

(** The targets do not overlap. *)
Fixpoint no_overlap (outs : list (Z * list Z)) : Prop :=
  match outs with
  | [] => True
  | o :: outs => (forall x, o.1 <> 0 -> o.1 <= x < o.1 + Z.of_nat (length o.2) -> Forall (misses x) outs) /\ no_overlap outs
  end.

(** Writing to all targets, one after the other. *)
Fixpoint puts (outs : list (Z * list Z)) : M (net D) unit :=
  match outs with [] => mret tt | o :: outs => _ ← put o.1 o.2; puts outs end.

Lemma puts_ok outs (s : net D) :
  Forall (fun o => o.1 = 0 \/ within (dom (net_mem s)) o.1 (length o.2)) outs -> no_overlap outs ->
  exists m, puts outs s = Ret (tt, with_net_mem m s) /\ dom m = dom (net_mem s) /\
    Forall (fun o => o.1 = 0 \/ bytes_at m o.1 o.2) outs /\ forall x, Forall (misses x) outs -> m !! x = net_mem s !! x.
Proof.
  intros Hw. revert s Hw. induction outs as [|[p b] outs IH]; intros s Hw Hn; cbn [puts].
  { exists (net_mem s). by destruct s as [[[] ? ? ? ?] ? ? ?]. }
  apply Forall_cons in Hw as [Hp Hw]. destruct Hn as [Hhd Hn]. cbn [fst snd] in *. destruct (Z.eqb_spec p 0) as [->|Hne].
  - destruct (IH s Hw Hn) as (m & E & Hd & Hb & Hx). exists m. rewrite (M_bind_Ret _ _ s tt s) by done. split; [done|]. split; [done|].
    split; [constructor; [by left|done]|]. intros x Hm. apply Forall_cons in Hm as [_ Hm]. by apply Hx.
  - destruct Hp as [|Hp]; [done|]. destruct (put_ok p b s Hne Hp) as (m1 & E1 & Hp1 & Hd1).
    destruct (IH (with_net_mem m1 s)) as (m & E & Hd & Hb & Hx); [cbn; by rewrite Hd1|done|]. exists m.
    rewrite (M_bind_Ret _ _ _ _ _ E1). split; [exact E|]. split; [rewrite Hd; exact Hd1|]. split.
    + constructor; [|done]. right. eapply bytes_at_ext; [by apply bytes_at_patched in Hp1|]. intros x Hin. cbn [fst snd] in *. apply Hx, Hhd; [done|lia].
    + intros x Hm. apply Forall_cons in Hm as [[|Hm] Hms]; [done|]. cbn [fst snd] in Hm. rewrite (Hx x Hms).
      apply (patched_outside _ _ _ _ _ Hp1). lia.
Qed.

(** What [net_get_config] writes. *)
Definition config_outs (st : NetworkStack) (c : cidr) (ip_out netmask_out gateway_out mac_out : Z) : list (Z * list Z) :=
  [(mac_out, nd_mac (device st)); (ip_out, c.1); (netmask_out, be_bytes4 (netmask c.2)); (gateway_out, default [0; 0; 0; 0] (gateway st))].

Lemma net_get_config_ok (s : net D) st c cs ip_out netmask_out gateway_out mac_out :
  nt_locked s = false -> nt_stack s = Some st -> ip_addrs (interface st) = c :: cs ->
  let outs := config_outs st c ip_out netmask_out gateway_out mac_out in
  Forall (fun o => o.1 = 0 \/ within (dom (net_mem s)) o.1 (length o.2)) outs -> no_overlap outs ->
  exists m, net_get_config ip_out netmask_out gateway_out mac_out s = Ret (1, with_net_mem m s) /\ dom m = dom (net_mem s) /\
    Forall (fun o => o.1 = 0 \/ bytes_at m o.1 o.2) outs /\ forall x, Forall (misses x) outs -> m !! x = net_mem s !! x.
Proof.
  intros Hl Hst Hip outs Hw Hn. set (s1 := mkNet (nt_dev s) (nt_stack s) true (nt_reads s)).
  destruct (puts_ok outs s1 Hw Hn) as (m & E & Hd & Hb & Hx). exists m. split; [|done].
  unfold net_get_config, with_stack. rewrite (M_bind_Ret _ _ s tt s1) by (unfold lock; by rewrite Hl).
  rewrite (M_bind_Ret _ _ s1 s1 s1) by done. cbn [s1 nt_stack]. rewrite Hst. fold s1. unfold outs, config_outs in E. cbn [puts] in E.
  apply M_bind_inv in E as ([] & s2 & E1 & E). apply M_bind_inv in E as ([] & s3 & E2 & E).
  apply M_bind_inv in E as ([] & s4 & E3 & E). apply M_bind_inv in E as ([] & s5 & E4 & E). apply mret_inv in E as [_ ->]. cbn [fst snd] in *.
  erewrite M_bind_Ret; [|erewrite M_bind_Ret; [|rewrite (M_bind_Ret _ _ _ _ _ E1), Hip; destruct c as [ip pl];
    rewrite (M_bind_Ret _ _ _ _ _ E2), (M_bind_Ret _ _ _ _ _ E3), (M_bind_Ret _ _ _ _ _ E4); reflexivity]; reflexivity].
  unfold unlock, modify, mbind, M_bind_inst, mret, M_ret_inst. cbn. unfold with_net_mem. cbn. by rewrite Hst, Hl.
Qed.

End config.

(** ** Starting on a RTL8139 *)
Section boot.

Context {D : Type} `{Hcard : Card D} `{Hsm : Smoltcp} `{Hlaws : !SmoltcpLaws} (heap_base base : Z) (Hbase : base_ok heap_base) `{Hsup : !Supply D base}.
Context (clock : nat -> Z) (fuel burst N k : nat) (mac_buf : Z) (fallback_qemu : bool) (user : gset Z).

(** A machine before the network is started: no device yet, room in the heap, the
    memory behind the heap mapped as far as the driver may read, and a card whose
    reset ends and that has at most [burst] packets to come. *)
Record bootable (s : net D) (segs : list seg) : Prop := {
  bt_lock : nt_locked s = false;
  bt_rtl : dv_rtl (nt_dev s) = None;
  bt_heap : heap_ready heap_base (dv_nic (nt_dev s)) segs;
  bt_room : has_room segs 20000;
  bt_reset : answers (D := D) fuel 1 (u16 (base + REG_CMD)) (fun v => (v .& CMD_RESET)%W =? 0);
  bt_array : within (dom (net_mem s)) heap_base (Z.to_nat (HEAP_SIZE + 1514));
  bt_user : user ⊆ dom (net_mem s);
  bt_mac : within user mac_buf 6;
  bt_left : (packets_left (nic_card (dv_nic (nt_dev s))) <= burst)%nat
}.

Lemma boot_effect (s : net D) segs :
  bootable s segs -> steady k N clock -> (1001 * k < fuel)%nat -> (nt_reads s + (2 + fuel * 2) <= N)%nat ->
  exists s' st segs', network_init_rtl8139 clock fuel burst mac_buf fallback_qemu base s = Ret (0, s') /\
    DriverSpec fuel DRtl8139 user (rtl_inv heap_base base (dom (net_mem s)) segs' (live heap_base segs)) /\
    net_ok burst DRtl8139 (rtl_inv heap_base base (dom (net_mem s)) segs' (live heap_base segs)) s' /\
    nt_stack s' = Some st /\ socket_map st = ∅ /\ next_fd st = 1 /\ (nt_reads s' <= nt_reads s + (2 + fuel * 2))%nat.
Proof.
  intros [Hl Hrtl Hr Hroom Ha Harr Husr Hmac Hleft] Hsteady Hfuel HN.
  destruct (rtl_new_ok heap_base base Hbase fuel _ segs (live heap_base segs) Hr) as (dev & n1 & segs' & E & Hr1 & Hroom1 & Hd1 & Hl1 & Hok & Hio & Ho & Hw);
    [by apply owned_nil|done|done|done|].
  pose proof (rtl_driver_spec heap_base base Hbase fuel (dom (net_mem s)) user Husr segs' (live heap_base segs) Hroom1) as Hspec.
  set (Inv := rtl_inv heap_base base (dom (net_mem s)) segs' (live heap_base segs)) in *.
  set (d1 := mkNetdev n1 (Some dev) (dv_e1000 (nt_dev s)) (dv_pcnet (nt_dev s)) (Some DRtl8139)).
  set (s1 := mkNet d1 (nt_stack s) (nt_locked s) (nt_reads s)).
  assert (ready burst Inv (nt_dev s1)) as Hready.
  { exists burst. split; [done|]. constructor; cbn; [done|done|done|lia|]. exists dev. by split_and!. }
  destruct (install_effect (D := D) burst N DRtl8139 Inv _ _ _ s1
    (returns_new clock fuel burst N mac_buf fallback_qemu DRtl8139 user Inv k Hsteady Hmac Hfuel)) as (st & s' & E2 & Hok' & Hst & (_ & Hmp & Hnx) & Hrd);
    [by intros st (H1 & _)|done|done|done|].
  exists s', st, segs'. split; [|done].
  assert (rtl8139_init fuel (dv_rtl (nt_dev s)) base (dv_nic (nt_dev s)) = Ret ((0, Some dev), n1)) as E0.
  { unfold rtl8139_init. rewrite (M_bind_Ret _ _ _ _ _ E), Hrtl. done. }
  unfold network_init_rtl8139. erewrite M_bind_Ret; [|unfold on_dev; rewrite (on_rtl_eq _ _ _ _ _ E0); reflexivity].
  rewrite Z.eqb_refl. rewrite (M_bind_Ret _ _ _ tt s1) by done. exact E2.
Qed.

End boot.

(** ** Masks and ports *)

(** The mask selects the network part of an address. *)
Lemma netmask_land p a : 0 <= p <= 32 -> 0 <= a < 2 ^ 32 -> Z.land a (netmask p) = Z.shiftl (Z.shiftr a (32 - p)) (32 - p).
Proof.
  intros Hp Ha. unfold netmask. destruct (Z.eqb_spec p 0) as [->|Hne].
  - rewrite Z.land_0_r. change (32 - 0) with 32. rewrite Z.shiftr_div_pow2, Z.div_small by lia. done.
  - apply Z.bits_inj'. intros i Hi. rewrite Z.land_spec. unfold wrap. rewrite Z.shiftl_spec by done.
    assert (32 <= i -> Z.testbit a i = false) as Hhigh.
    { intros H32. destruct (decide (a = 0)) as [->|]; [by rewrite Z.testbit_0_l|]. apply Z.bits_above_log2; [lia|].
      assert (Z.log2 a < 32) by (apply Z.log2_lt_pow2; lia). lia. }
    destruct (Z.ltb_spec i 32) as [Hlt|Hge].
    + rewrite Z.mod_pow2_bits_low by lia. rewrite Z.shiftl_spec by done.
      destruct (Z.ltb_spec i (32 - p)) as [Hlow|Hlow]; [rewrite !(Z.testbit_neg_r _ (i - (32 - p))) by lia; by rewrite andb_false_r|].
      rewrite Z.shiftr_spec by lia. replace (i - (32 - p) + (32 - p)) with i by lia. change 0xFFFFFFFF with (Z.ones 32).
      rewrite Z.ones_spec_low by lia. by rewrite andb_true_r.
    + rewrite Hhigh by done. rewrite Z.shiftr_spec by lia. replace (i - (32 - p) + (32 - p)) with i by lia. by rewrite Hhigh.
Qed.

(** ** Instances

    A stack without protocols: it takes in the frames there are and drops them, and
    connections fail. *)
Fixpoint drain {R} (n : nat) (r : R) : dev_prog R :=
  Receive (fun f => match f, n with Some _, S n' => drain n' r | _, _ => Done r end).

Lemma drain_ok {R} (P : R -> Prop) n r : P r -> prog_ok n P (drain n r).
Proof. intros Hr. induction n as [|n IH]; cbn; (split; [done|]); intros f; [done|exact IH]. Qed.

Definition toy_smoltcp : Smoltcp := {|
  Iface := list cidr;
  Sockets := gmap nat sock_kind;
  Handle := nat;
  iface_new _ _ := [];
  ip_addrs i := i;
  push_ip c i := Some (i ++ [c]);
  clear_ips _ := [];
  addr_ok a := match a with x :: _ => (x <? 224) || (240 <=? x) && negb (bool_decide (a = [255; 255; 255; 255])) | [] => false end;
  add_default_route _ i := Some i;
  iface_poll b _ i ss := drain b (false, i, ss);
  no_sockets := ∅;
  add_socket n ss := let h := stdpp.base.fresh (dom ss : gset nat) in (h, <[h := new_kind n]> ss);
  remove_socket h ss := delete h ss;
  kind_of ss h := ss !! h;
  dhcp_poll _ ss := (None, ss);
  icmp_can_send _ _ := false;
  icmp_send _ _ _ ss := (false, ss);
  icmp_can_recv _ _ := false;
  icmp_recv _ ss := (None, ss);
  tcp_socket_connect _ _ _ _ i ss := (false, i, ss);
  tcp_socket_state _ _ := Closed;
  tcp_is_active _ _ := false;
  tcp_listen _ _ ss := (true, ss);
  tcp_may_send _ _ := false;
  tcp_can_send _ _ := false;
  tcp_send_slice _ _ ss := (None, ss);
  tcp_recv_slice _ _ ss := (None, ss);
  tcp_remote _ _ := None
|}.

#[local] Existing Instance toy_smoltcp.

#[local] Instance toy_laws : SmoltcpLaws.
Proof.
  constructor; cbn; try done.
  - intros n ss. apply not_elem_of_dom, is_fresh.
  - intros n ss h. case_decide as Hh; [subst h; by rewrite lookup_insert_eq|by rewrite lookup_insert_ne].
  - intros h ss h'. case_decide as Hh; [subst h'; by rewrite lookup_delete_eq|by rewrite lookup_delete_ne].
  - intros b t i ss. by apply drain_ok.
  - intros c i i' E. by injection E as <-.
  - intros a b c d Ha. by rewrite (proj2 (Z.ltb_lt a 224)) by lia.
  - intros gw i i' E. by injection E as <-.
Qed.

(** A RTL8139 at port 0xC000 with a number of packets to come; all other registers
    read as 0. *)
#[local] Program Instance supply_card : Card nat := {|
  card_in := fun _ p n => (if (p =? 0xC037) && bool_decide (n = 0%nat) then 1 else 0, n);
  card_out := fun _ p _ n => if p =? 0xC038 then pred n else n;
  card_run := fun m n => (m, n)
|}.
Next Obligation. done. Qed.

#[local] Instance demo_supply : Supply nat 0xC000.
Proof.
  refine {| packets_left := fun n => n |}; cbn.
  - done.
  - intros w p v d. destruct (_ =? _); lia.
  - done.
  - intros v d. change (u16 (0xC000 + Rtl8139.REG_CAPR)) with 0xC038. cbn. lia.
  - intros d ->. vm_compute. done.
Defined.

Definition demo_net_mem : mem := (∅ ∪ blank 1000 64) ∪ blank 4096 (Z.to_nat (HEAP_SIZE + 2048)).
Definition demo_user : gset Z := dom (∅ ∪ blank 1000 64 : mem).

Lemma demo_user_within p n : 1000 <= p -> p + Z.of_nat n <= 1064 -> within demo_user p n.
Proof. intros H1 H2. apply within_mapped, blank_part; [done|lia]. Qed.

Definition demo_net : net nat :=
  mkNet (mkNetdev (mkNic (init_heap 4096) demo_net_mem 3%nat []) None None None None) None false 0.

Lemma demo_bootable : bootable 4096 0xC000 1002 3 1000 demo_user demo_net [(HEAP_SIZE - BLOCK_HEADER, true)].
Proof.
  constructor.
  - done.
  - done.
  - constructor; [apply init_heap_inv; exact base_ok_4096|]. apply blank_part; unfold HEAP_SIZE; lia.
  - apply Exists_cons_hd. cbn. unfold HEAP_SIZE, BLOCK_HEADER. lia.
  - intros m d. exists 0%nat. split; [lia|]. cbn. by destruct (_ && _).
  - apply within_mapped, blank_part; unfold HEAP_SIZE; lia.
  - intros x Hx. unfold net_mem, demo_net, demo_net_mem. cbn [nt_dev dv_nic nic_mem]. rewrite dom_union. apply elem_of_union. by left.
  - apply demo_user_within; lia.
  - cbn. lia.
Qed.

#[global] Opaque demo_net_mem demo_user.

Lemma demo_steady N : Z.of_nat N <= FAR -> steady 1 N Z.of_nat.
Proof. intros HN i Hi. lia. Qed.

(** ** The properties *)

(** C6. Sequences of socket calls implement a table of sockets.  On any driver that
    keeps the driver interface, and any smoltcp that keeps its laws, every call of a
    sequence returns (no panic on a missing socket or one of the wrong type, no
    fault, no endless wait, the lock free again), its result and its effect on the
    table are those of the abstract table: [sock_socket] adds an open socket under a
    new number, [sock_close] removes exactly one or reports -1, [sock_bind] makes one
    listen, [sock_accept] turns a listening one into a connected one, and connecting,
    sending, receiving and pinging leave the table alone and return -1 or a value in
    range.  The sockets of smoltcp are those of the table, so none is leaked. *)
Theorem socket_calls_refine_table {D} `{Card D} `{Smoltcp} `{!SmoltcpLaws} clock fuel burst N k t user Inv os (s : net D) st :
  DriverSpec fuel t user Inv -> steady k N clock -> Forall (fun o => (op_ticks o * k < fuel)%nat /\ op_ok user o) os ->
  net_ok burst t Inv s -> nt_stack s = Some st -> next_fd st + Z.of_nat (length os) < 2 ^ 31 ->
  (nt_reads s + length os * op_reads fuel <= N)%nat ->
  exists codes s' st', run_ops clock fuel burst os s = Ret (codes, s') /\ net_ok burst t Inv s' /\ nt_stack s' = Some st' /\
    table_run os codes (view st) (view st') (next_fd st) (next_fd st').
Proof. intros Hdrv. exact (run_ops_effect clock fuel burst N k t user Inv os s st). Qed.

Definition demo_ops : list sock_op := [OpSocket; OpBind 1 0 80; OpPoll; OpPing 1000 50; OpClose 1].

Definition demo_reads : nat := (2 + 1002 * 2) + 5 * op_reads 1002.

Lemma demo_reads_far : Z.of_nat demo_reads <= FAR.
Proof. unfold demo_reads, op_reads, FAR. lia. Qed.

Lemma socket_calls_refine_table_witness :
  exists (s s' : net nat) codes, run_ops Z.of_nat 1002 3 demo_ops s = Ret (codes, s') /\ length codes = 5%nat /\ head codes = Some 1.
Proof.
  destruct (boot_effect 4096 0xC000 base_ok_4096 Z.of_nat 1002 3 demo_reads 1 1000 false demo_user demo_net
    _ demo_bootable (demo_steady _ demo_reads_far)) as (s & st & segs' & _ & Hdrv & Hok & Hst & Hmp & Hnx & Hrd);
    [lia|cbn [demo_net nt_reads]; unfold demo_reads; lia|].
  destruct (socket_calls_refine_table Z.of_nat 1002 3 demo_reads 1 DRtl8139 demo_user _ demo_ops s st Hdrv (demo_steady _ demo_reads_far))
    as (codes & s' & st' & E & _ & _ & Hrun); [|exact Hok|exact Hst|rewrite Hnx; cbn; lia| |].
  - unfold demo_ops. repeat (apply Forall_cons; split; [split; [apply Nat.ltb_lt; reflexivity|]|]); try exact I; [|by apply Forall_nil_2].
    split; [right; apply demo_user_within; lia|lia].
  - cbn [demo_net nt_reads] in Hrd. unfold demo_reads, demo_ops. cbn [length]. lia.
  - exists s, s', codes. split; [exact E|]. rewrite Hnx in Hrun. unfold demo_ops in Hrun.
    split; [exact (table_run_length _ _ _ _ _ _ Hrun)|].
    destruct codes as [|code codes]; [done|]. destruct Hrun as (mp1 & next1 & [-> _] & _). done.
Defined.

(** C7. A machine with a RTL8139 starts its network.  On a heap with room for 20000
    bytes, whatever DHCP brings, [pci_net_init_device] for the card's vendor and
    device number returns 0 after a bounded time: the driver's five buffers are
    allocated, the driver keeps the driver interface, and the stack is installed with
    an empty table whose first number is 1. *)
Theorem network_boots_rtl8139 {D} `{Card D} `{Smoltcp} `{!SmoltcpLaws} heap_base base mem_base `{!Supply D base}
    clock fuel burst N k mac_buf fallback_qemu user (s : net D) segs :
  base_ok heap_base -> bootable heap_base base fuel burst mac_buf user s segs ->
  steady k N clock -> (1001 * k < fuel)%nat -> (nt_reads s + (2 + fuel * 2) <= N)%nat ->
  exists s' st segs',
    pci_net_init_device clock fuel burst mac_buf fallback_qemu VENDOR_REALTEK DEVICE_RTL8139 base mem_base s = Ret (0, s') /\
    DriverSpec fuel DRtl8139 user (rtl_inv heap_base base (dom (net_mem s)) segs' (live heap_base segs)) /\
    net_ok burst DRtl8139 (rtl_inv heap_base base (dom (net_mem s)) segs' (live heap_base segs)) s' /\
    nt_stack s' = Some st /\ socket_map st = ∅ /\ next_fd st = 1.
Proof.
  intros Hb Hbt Hs Hf HN.
  destruct (boot_effect heap_base base Hb clock fuel burst N k mac_buf fallback_qemu user s segs Hbt Hs Hf HN)
    as (s' & st & segs' & E & Hdrv & Hok & Hst & Hmp & Hnx & _).
  exists s', st, segs'. split; [exact E|done].
Qed.

Lemma network_boots_rtl8139_witness :
  exists s', pci_net_init_device Z.of_nat 1002 3 1000 false VENDOR_REALTEK DEVICE_RTL8139 0xC000 0 demo_net = Ret (0, s').
Proof.
  destruct (network_boots_rtl8139 4096 0xC000 0 Z.of_nat 1002 3 demo_reads 1 1000 false demo_user demo_net _
    base_ok_4096 demo_bootable (demo_steady _ demo_reads_far)) as (s' & _ & _ & E & _);
    [lia|cbn [demo_net nt_reads]; unfold demo_reads; lia|]. exists s'. exact E.
Defined.

(** C8. The adapter on top of the RTL8139 driver keeps the driver interface the stack
    relies on, whatever the card writes into its buffer: taking in a frame returns a
    frame or none, uses up a packet of the card for every frame, and gives its buffer
    back to the heap; a frame of up to 1500 bytes is sent without a fault; the address
    has six bytes; and the invariant (heap, blocks of the device, active driver) holds
    after every call. *)
Theorem rtl8139_is_driver {D} `{Card D} heap_base base `{!Supply D base} fuel ds user segs rest :
  base_ok heap_base -> user ⊆ ds -> has_room segs 2048 -> DriverSpec fuel DRtl8139 user (rtl_inv heap_base base ds segs rest).
Proof. intros Hb Hu Hroom. by apply rtl_driver_spec. Qed.

Lemma rtl8139_is_driver_witness :
  DriverSpec 1 DRtl8139 ∅ (rtl_inv 4096 0xC000 (dom demo_net_mem) [(HEAP_SIZE - BLOCK_HEADER, true)] []).
Proof.
  apply (rtl8139_is_driver 4096 0xC000 1 (dom demo_net_mem) ∅ [(HEAP_SIZE - BLOCK_HEADER, true)] []).
  - exact base_ok_4096.
  - apply empty_subseteq.
  - apply Exists_cons_hd. cbn. unfold HEAP_SIZE, BLOCK_HEADER. lia.
Defined.

(** C15. Frames of the E1000 reach the stack, in order and whole: when the card has
    received [sent], of which the stack has [got] and [q] is in the ring (at most 32
    frames of up to 2048 bytes, none of them empty), as many receive calls of the
    adapter as there are frames in the ring return just these, the stack then has all
    of [sent], and the next call returns none.  The buffers of all calls are back in
    the heap, and neither they nor the copying disturb the rings. *)
Theorem e1000_frames_reach_stack {D} `{Card D} heap_base segs rest dev (s : netdev D) sent got q :
  base_ok heap_base -> has_room segs 2048 -> nd_type dev = DE1000 -> e1000_inv heap_base segs rest s sent got q ->
  sent = got ++ q /\
  exists s', take_frames (length q) dev s = Ret (Some <$> q, s') /\ e1000_inv heap_base segs rest s' sent sent [] /\
    exists s'', device_receive dev s' = Ret (None, s'').
Proof.
  intros Hb Hroom Ht Hi. destruct (ei_dev _ _ _ _ _ _ _ Hi) as (ed & _ & _ & Hd). split; [exact (ri_sent _ _ _ _ _ _ _ _ _ _ (proj1 Hd))|].
  destruct (e1000_frames_in heap_base Hb segs rest Hroom dev s sent got q Ht Hi) as (s' & E & Hi').
  exists s'. split; [done|]. split; [done|].
  destruct (e1000_frame_in heap_base Hb segs rest Hroom dev s' _ _ [] Ht Hi') as (s'' & E' & _). by exists s''.
Qed.

Lemma e1000_frames_reach_stack_witness :
  exists (s s' : netdev unit), take_frames 1 (mkNetDevice DE1000 []) s = Ret ([Some [1; 2; 3]], s').
Proof.
  destruct (e1000_new_ok 4096 base_ok_4096 0xF0000000 demo_nic [(HEAP_SIZE - BLOCK_HEADER, true)] [] demo_nic_ready)
    as (ed & s1 & segs & _ & Hr & Hroom & Ho & Hf); [by apply owned_nil|apply Exists_cons_hd; cbn; unfold HEAP_SIZE, BLOCK_HEADER; lia|].
  destruct (E1000.can_deliver _ ed 0 [1; 2; 3] (nic_mem s1) (E1000.fr_layout _ _ Hf) eq_refl) as [m Hd]; [lia|unfold E1000.BUF_SIZE; cbn; lia|].
  set (s := mkNetdev (mkNic (nic_heap s1) m tt []) None (Some ed) None (Some DE1000)).
  assert (e1000_inv 4096 segs [] s [[1; 2; 3]] [] [[1; 2; 3]]) as Hi.
  { constructor; [|by repeat constructor|].
    - eapply heap_ready_quiet; [exact Hr|done|exact (proj1 (proj2 Hd))].
    - exists ed. split; [done|]. split; [exact Ho|].
      apply (E1000.dev_inv_deliver ed (nic_mem s1) m [] [] [] [1; 2; 3]); [by apply E1000.fresh_inv|apply (E1000.fr_free _ _ Hf); cbn; lia|exact Hd]. }
  destruct (e1000_frames_reach_stack 4096 segs [] (mkNetDevice DE1000 []) s [[1; 2; 3]] [] [[1; 2; 3]] base_ok_4096 Hroom eq_refl Hi)
    as (_ & s' & E & _). exists s, s'. exact E.
Defined.

(** Setting and reading back the configuration, for every accepted address. *)
Lemma static_config_ok {D} `{Card D} `{Smoltcp} `{!SmoltcpLaws} clock fuel burst N mac_buf t user Inv ip gw
    ip_out netmask_out gateway_out mac_out (s : net D) :
  DriverSpec fuel t user Inv -> within user mac_buf 6 -> nt_locked s = false -> ready burst Inv (nt_dev s) -> (nt_reads s + 1 <= N)%nat ->
  length ip = 4%nat -> length gw = 4%nat -> addr_ok ip = true ->
  let outs mac := [(mac_out, mac); (ip_out, ip); (netmask_out, [255; 255; 255; 0]); (gateway_out, gw)] in
  (forall mac, length mac = 6%nat -> Forall (fun o => o.1 = 0 \/ within user o.1 (length o.2)) (outs mac) /\ no_overlap (outs mac)) ->
  exists s1 mac m, network_init_with_ip clock mac_buf ip gw s = Ret (0, s1) /\ length mac = 6%nat /\
    net_get_config ip_out netmask_out gateway_out mac_out s1 = Ret (1, with_net_mem m s1) /\
    Forall (fun o => o.1 = 0 \/ bytes_at m o.1 o.2) (outs mac) /\ forall x, Forall (misses x) (outs mac) -> m !! x = net_mem s1 !! x.
Proof.
  intros Hdrv Hmac Hl Hr HN Hip Hgw Hacc outs Houts.
  destruct (install_effect (D := D) burst N t Inv _ _ _ s (returns_with_ip clock fuel burst N mac_buf t user Inv Hmac ip gw Hacc))
    as (st & s1 & E & Hok & Hst & (_ & _ & _ & Hips & Hgate & Hlen) & _); [by intros st (Hso & _)|done|done|done|].
  assert (network_init_with_ip clock mac_buf ip gw s = Ret (0, s1)) as E1.
  { unfold network_init_with_ip. rewrite (M_bind_Ret _ _ s s s) by done. destruct Hr as (b & _ & Hi). rewrite (ds_active b _ Hi). exact E. }
  assert (config_outs st (ip, 24) ip_out netmask_out gateway_out mac_out = outs (nd_mac (device st))) as Eo.
  { unfold config_outs, outs. rewrite Hgate. cbn [fst snd]. repeat f_equal. by case_bool_decide. }
  destruct (Houts (nd_mac (device st)) Hlen) as [Hw Hn]. destruct (no_ready _ _ _ _ Hok) as (b & _ & Hi).
  destruct (net_get_config_ok s1 st (ip, 24) [] ip_out netmask_out gateway_out mac_out (no_lock _ _ _ _ Hok) Hst Hips) as (m & E2 & _ & Hb & Hx).
  - rewrite Eo. eapply Forall_impl; [exact Hw|]. intros o [Ho|Ho]; [by left|right]. intros i Hi'. apply (ds_user b _ Hi), Ho, Hi'.
  - by rewrite Eo.
  - rewrite Eo in Hb, Hx. by exists s1, (nd_mac (device st)), m.
Qed.

(** C26. The configuration set is the configuration reported.  With a driver that
    keeps its interface, [network_init_with_ip] of an address other than 0.0.0.0 that
    smoltcp accepts returns 0 and installs a stack, and [net_get_config] then returns 1
    and writes the address, the mask 255.255.255.0, the gateway and the six bytes of the
    hardware address to those of its pointers that are not null, and nothing else.  With
    an address that smoltcp does not accept (a multicast or broadcast address)
    [network_init_with_ip] panics. *)
Theorem static_config_reported {D} `{Card D} `{Smoltcp} `{!SmoltcpLaws} clock fuel burst N mac_buf t user Inv ip gw
    ip_out netmask_out gateway_out mac_out (s : net D) :
  DriverSpec fuel t user Inv -> within user mac_buf 6 -> nt_locked s = false -> ready burst Inv (nt_dev s) -> (nt_reads s + 1 <= N)%nat ->
  length ip = 4%nat -> length gw = 4%nat -> ip <> [0; 0; 0; 0] ->
  let outs mac := [(mac_out, mac); (ip_out, ip); (netmask_out, [255; 255; 255; 0]); (gateway_out, gw)] in
  (forall mac, length mac = 6%nat -> Forall (fun o => o.1 = 0 \/ within user o.1 (length o.2)) (outs mac) /\ no_overlap (outs mac)) ->
  if addr_ok ip
  then exists s1 mac m, network_init_with_ip clock mac_buf ip gw s = Ret (0, s1) /\ length mac = 6%nat /\
    net_get_config ip_out netmask_out gateway_out mac_out s1 = Ret (1, with_net_mem m s1) /\
    Forall (fun o => o.1 = 0 \/ bytes_at m o.1 o.2) (outs mac) /\ forall x, Forall (misses x) (outs mac) -> m !! x = net_mem s1 !! x
  else network_init_with_ip clock mac_buf ip gw s = Panic.
Proof.
  intros Hdrv Hmac Hl Hr HN Hip Hgw _ outs Houts.
  destruct (addr_ok ip) eqn:Hacc; [by apply static_config_ok with (N := N) (t := t) (user := user) (Inv := Inv) (burst := burst) (fuel := fuel)|].
  unfold network_init_with_ip. rewrite (M_bind_Ret _ _ s s s) by done. destruct Hr as (b & Hb & Hi). rewrite (ds_active b _ Hi).
  unfold mbind, M_bind_inst. rewrite (with_ip_panics clock fuel burst N mac_buf t user Inv Hmac ip gw s); [done|by exists b|done|done].
Qed.

Lemma demo_outs mac :
  length mac = 6%nat ->
  let outs := [(1030, mac); (1010, [192; 168; 1; 2]); (1020, [255; 255; 255; 0]); (0, [192; 168; 1; 1])] in
  Forall (fun o => o.1 = 0 \/ within demo_user o.1 (length o.2)) outs /\ no_overlap outs.
Proof.
  intros Hm outs. split.
  - unfold outs. repeat (apply Forall_cons; split; [cbn [fst snd]|]); [right; apply demo_user_within; cbn; lia..|by left|by apply Forall_nil_2].
  - unfold outs, no_overlap, misses. cbn [fst snd]. rewrite Hm. cbn [length].
    repeat split; intros x _ Hx; repeat (apply Forall_cons; split; [cbn; first [by left|right; lia]|]); by apply Forall_nil_2.
Qed.

Lemma static_config_reported_witness :
  exists (s s1 : net nat) m, network_init_with_ip Z.of_nat 1000 [192; 168; 1; 2] [192; 168; 1; 1] s = Ret (0, s1) /\
    net_get_config 1010 1020 0 1030 s1 = Ret (1, with_net_mem m s1) /\ bytes_at m 1010 [192; 168; 1; 2].
Proof.
  destruct (boot_effect 4096 0xC000 base_ok_4096 Z.of_nat 1002 3 demo_reads 1 1000 false demo_user demo_net
    _ demo_bootable (demo_steady _ demo_reads_far)) as (s & st & segs' & _ & Hdrv & [Hl Hr _] & _ & _ & _ & Hrd);
    [lia|cbn [demo_net nt_reads]; unfold demo_reads; lia|].
  destruct (static_config_reported Z.of_nat 1002 3 (S (nt_reads s)) 1000 DRtl8139 demo_user _ [192; 168; 1; 2] [192; 168; 1; 1] 1010 1020 0 1030 s Hdrv)
    as (s1 & mac & m & E1 & _ & E2 & Hb & _); [apply demo_user_within; lia|exact Hl|exact Hr|lia|done|done|discriminate|exact demo_outs|].
  exists s, s1, m. split; [exact E1|]. split; [exact E2|]. rewrite Forall_lookup in Hb. by destruct (Hb 1%nat _ eq_refl).
Defined.

(** C36. The mask [net_get_config] computes from a prefix length is the network mask:
    two addresses agree under it just when their first [p] bits agree, for every
    prefix length from 0 (where the shift by 32 is avoided) to 32, and its four bytes
    put together are the mask again. *)
Theorem netmask_compares_networks p a b :
  0 <= p <= 32 -> 0 <= a < 2 ^ 32 -> 0 <= b < 2 ^ 32 ->
  (Z.land a (netmask p) = Z.land b (netmask p) <-> a / 2 ^ (32 - p) = b / 2 ^ (32 - p)) /\
  netmask p = 2 ^ 32 - 2 ^ (32 - p) /\ le_word (rev (be_bytes4 (netmask p))) = netmask p.
Proof.
  intros Hp Ha Hb. split.
  - rewrite !netmask_land, <- !Z.shiftr_div_pow2 by lia. split; [|congruence]. intros E. apply (f_equal (fun x => Z.shiftr x (32 - p))) in E.
    by rewrite !Z.shiftr_shiftl_l, !Z.sub_diag, !Z.shiftl_0_r in E by lia.
  - assert (p ∈ seqZ 0 33) as Hin by (apply elem_of_seqZ; lia).
    refine (proj1 (Forall_forall (fun p => netmask p = 2 ^ 32 - 2 ^ (32 - p) /\ le_word (rev (be_bytes4 (netmask p))) = netmask p) _) _ p Hin).
    apply (bool_decide_unpack _). vm_compute. exact I.
Qed.

Lemma netmask_compares_networks_witness :
  Z.land 0xC0A80102 (netmask 24) = Z.land 0xC0A801FE (netmask 24) /\ netmask 24 = 0xFFFFFF00.
Proof.
  destruct (netmask_compares_networks 24 0xC0A80102 0xC0A801FE) as (H1 & H2 & _); [lia|lia|lia|].
  split; [apply H1; reflexivity|rewrite H2; reflexivity].
Defined.

(** Local ports: the port of a connection is always one of the dynamic ports
    49152 to 65535, and two socket numbers get the same one just when they differ by
    a multiple of 16384. *)
Theorem local_port_range fd fd' :
  49152 <= local_port fd <= 65535 /\ (local_port fd = local_port fd' <-> fd mod 16384 = fd' mod 16384).
Proof.
  unfold local_port. pose proof (Z.mod_pos_bound (u16 fd) 16384 ltac:(lia)). split; [lia|].
  assert (forall x, u16 x mod 16384 = x mod 16384) as Hm.
  { intros x. unfold wrap. change (2 ^ 16) with (16384 * 4). rewrite Z.rem_mul_r by lia.
    rewrite (Z.mul_comm 16384), Z.mod_add by lia. by rewrite Z.mod_mod. }
  rewrite !Hm. lia.
Qed.
